(* ===== verification/_CoqProject ===== *)
-Q . S2P
Prelude.v
Domain.v
Money.v
Calendar.v
Window.v
Policy.v
Pricing.v
WalletRules.v
Principal.v
Entitlements.v
Tables.v
EntitlementStore.v
BenefitRules.v
BenefitSync.v
EntitlementHistory.v
RequestStore.v
QuotaStore.v
WalletStore.v
LedgerStore.v
Conservation.v
StoreInv.v
LeaseStore.v
StoreSteps.v
StoreProps.v
WindowHistory.v
Rebuild.v
WalletProps.v
Admission.v
Sessions.v
Headers.v
Catalog.v
CatalogStore.v
CatalogService.v
Routing.v
Dispatch.v
Gateway.v
GatewayTraces.v
GatewayProps.v
GatewayStore.v
Sha256.v
Access.v
AccessProps.v
Recovery.v
RecoveryProps.v
Amounts.v
PayTables.v
Activation.v
Payments.v
Orders.v
PayFrames.v
PayInv.v
PaySubs.v
PayProps.v
WalletSync.v
WalletSyncProps.v
Auth.v
AuthProps.v
LoginProps.v
Signed.v
SignedProps.v
WebhookProps.v
SelfService.v
SelfProps.v
SelfClaims.v
