(* ===== verification/Prelude.v ===== *)
(** * Verification of the inference metering core of yunhou-users

    The repository is a Go account service whose [internal/inference] module
    sells model inference: a request is ADMITTED against quota windows (or a
    prepaid wallet) with an upper-bound hold, routed to a provider, then
    SETTLED with the metered charge or RELEASED; the payment service around it
    sells the plans and top-ups that pay for it. Money correctness rests on six
    parts, which this library models:

    - [internal/inference/domain]: integer micro-amounts, exact rates, records
      and error codes;
    - [internal/inference/quota]: the five-hour, weekly and monthly windows,
      the admission rule, the reservation bound, the admission service;
    - [internal/inference/accounting]: price versions, usage normalisation,
      quotes, settlement decisions, wallet and overage rules;
    - [internal/inference/postgres]: the SQL transactions that reserve, settle,
      release, correct, freeze, top up, refund, reverse and lease;
    - [internal/service/payment.go] and the files beside it: orders, the
      webhooks and confirmations that settle them, subscriptions and refunds;
    - the database schema of [migrations/], whose constraints those
      transactions rely on.

    ** Files

    - [Prelude]: [int64] with its wrap-around, the result type of fallible Go
      functions with its notation ([let?], [guard], [fail_if]), sums over lists
      and maps, tactics ([i64], [inv_ok], [by_eval], [bool_prop]) and hint
      databases.
    - [Domain], [Money]: [domain/errors.go], [domain/usage.go],
      [domain/money.go].
    - [Calendar], [Window]: the part of Go's [time] package that
      [quota/window.go] uses, and that file.
    - [Policy]: [quota/policy.go] and [withDeficit] of [quota/service.go].
    - [Pricing]: [accounting/pricing.go], [accounting/settlement.go],
      [quota/reservation.go].
    - [WalletRules]: [accounting/wallet.go], [accounting/overage.go].
    - [Tables]: the rows and constraints of the database as one record of finite
      maps and append-only lists; a transaction is a function
      [DB -> res (A * DB)] whose [Err] is the rolled-back transaction.
    - [RequestStore], [QuotaStore], [WalletStore], [LedgerStore],
      [LeaseStore]: one definition per transaction of [request_repo.go],
      [quota_repo.go] and [reservation_repo.go], [wallet_repo.go],
      [ledger_repo.go] and [reconciliation_repo.go], [lease_repo.go].
    - [Conservation], [StoreInv], [StoreSteps]: the invariant of the tables,
      its preservation by every transaction, the step relation [store_step] and
      the reachable stores.
    - [StoreProps], [WindowHistory], [Rebuild], [WalletProps]: what holds of
      every reachable store.
    - [Admission]: the admission scripts of [quota/service.go] over a class of
      store operations with its laws, which the stores implement.
    - [Principal], [Entitlements]: [domain/principal.go], [domain/model.go],
      [access/entitlement.go].
    - [EntitlementStore], [BenefitRules], [BenefitSync],
      [EntitlementHistory]: [entitlement_repo.go], [outbox_repo.go],
      [access/benefit_grant.go], [workers/entitlement_sync.go], and the step
      relation [ent_step] of the transactions that write entitlements.
    - [Headers]: [domain/headers.go] and the header map of an upstream call in
      [providers/adapter.go].
    - [Catalog], [CatalogStore], [CatalogService]: the validators, payload and
      snapshot of [catalog/service.go] and [catalog/revision.go], the tables of
      [postgres/catalog_repo.go], and the edits, publish, rollback, listing and
      snapshot cache over them.
    - [Sessions]: upstream accounts and sticky sessions: the statements of
      [postgres/oauth_repo.go] and [accounts_repo.go],
      [routing/session_binding.go] and the state changes of
      [workers/upstream_health.go], with the step relation [pool_step].
    - [Routing]: [routing/service.go] and [routing/account_pool.go].
    - [Dispatch]: [providers/adapter.go] over an arbitrary adapter: what is
      sent, how failures are classified, which redirects are followed.
    - [Gateway]: [gateway/service.go] and [lifecycle_gate.go], the life of one
      call, as a program over effects (calls to the other components) with
      typed answers. [GatewayTraces] defines its executions and the shape of
      what they do; [GatewayProps] their properties, for any answers;
      [GatewayStore] the transactions behind its effects and executions against
      the tables among other clients ([world]).
    - [Recovery]: [workers/settlement_recovery.go] with the estimate of
      [accounting/settlement.go] and the reads of [reconciliation_repo.go] and
      [usage_repo.go]: a pass among other clients, and the relation
      [recovery_step] of what it may write. [RecoveryProps]: what the attempt
      rows that the gateway leaves prove to it.
    - [Sha256], [Access]: [access/apikey.go], [access/principal.go] and
      [apikey_repo.go] as programs of statements, with the digests and
      encodings of the standard library written out. [AccessProps]: the step
      relation [access_step] of the key and account tables and what keys open.
    - [Amounts]: the float64 amounts of [service/payment.go] and their way in
      and out of DECIMAL(10,2) columns. [PayTables]: the tables and statements
      of [repo/payments_repos.go]. [Activation], [Payments], [Orders]: the
      transactions of [payment.go], [paddle_subscription.go] and
      [price_override.go], one definition per handler; [Err] is a rollback.
    - [PayFrames]: how the rows may evolve over a transaction ([evolves]).
      [PayInv]: the step relation [pay_step], the invariant [money_inv] between
      orders and payments, and that every call of the service is made of steps.
      [PaySubs]: what payments do to subscriptions. [PayProps]: the properties.
    - [WalletSync]: [workers/wallet_sync.go], the consumer of the wallet
      messages. [WalletSyncProps]: its step relation [sync_step] beside the
      other users of its tables, and the two sides of the outbox together
      ([till_step]): the payment service, the worker and the accounting store.
    - [Auth]: [service/auth.go] over the users, identities and sessions of
      [repo/repo.go], as programs of statements. [AuthProps]: its step relation
      [auth_step], the rotation chains, and triples over runs of the programs
      among other requests. [LoginProps]: their properties.
    - [Signed]: [util/oauth_state.go] and [middleware/webhook_sig.go], with HMAC,
      base64 and the header formats. [SignedProps]: the states; [WebhookProps]:
      the signatures.
    - [SelfService]: [service/subscription_selfservice.go], the endpoints of
      [paddle_subscription.go] and [service/subscription.go]. [SelfProps]: their
      lemmas; [SelfClaims]: their properties.

    ** What the theorems show

    - Store: running counters equal the sums of the reservation rows; a request
      is charged at most once; a reservation takes every hold within its limit
      or none; reserve-then-release is the identity on balances; windows stay
      within limits while charges stay within holds; live windows never
      overlap; the ledger alone rebuilds the counters.
    - Wallet: freeze, settlement, release and reversal move the derived balance
      by exactly the stated amount; one business event moves money once.
    - Pure rules: the monthly and weekly period of an instant; the admission
      rule and its deficit; rounding of prices; the reservation bound covers
      every settlement within the bounds; token conservation; price
      resolution; freeze and consume splits; the spend gate.
    - Leases: at most the limit held per scope; a reclaimed owner can neither
      renew, nor release, nor pass the check.
    - Admission: an admission that fails leaves no request, hold or lease; one
      that succeeds holds exactly the priced amount on every window the policy
      has, whatever the commit acknowledges; wallet admissions likewise.
    - Entitlements: which entitlement authorises a model; how stale a cached
      answer can be; a benefit synchronisation reaches a fixed point; a grant
      never changes its subject; when a repeated migration gift is a no-op; the
      period a paid order activates.
    - Catalogue: the paged drain reads every row once; a publish serves exactly
      what its snapshot read; the active revision always loads and history is
      immutable; aliases resolve to one model; lifecycle edges; the published
      listing; what the snapshot cache may serve.
    - Upstream: operator headers cannot replace the gateway's, names with
      capital tails apart; candidates are the failover order of the snapshot
      over schedulable accounts; exhaustion is never concluded from the cache;
      round robin is fair; an attempt's lease is on an account active in the
      same transaction; a conversation is never silently switched, a migration
      is atomic, and an expired binding blocks its conversation until swept.
    - Gateway: a call is admitted only if allowed, under a pinned policy and
      price; sends only under a persisted, checked lease, to the pinned account
      if sticky; never replays a request that may have executed; finalizes an
      admitted request exactly once; and charges at most once in the ledger,
      whatever BEGINs and COMMITs fail. Credentials never follow a redirect to
      another origin.
    - Recovery: a pass releases only on evidence of zero consumption that it
      has read, settles an estimate at exactly the hold together with the job
      that tracks it, and never acts on age alone; and a row of the gateway
      that counts as such evidence is only written when the upstream cannot
      have executed the call, a call its own caller abandoned apart.
    - Access: a created key authenticates as itself for its creator's account,
      only strings with its SHA-256 verify, a revocation is final whatever runs
      beside it, foreign keys look missing, and a key narrows and never widens
      what its account was granted.
    - Payments: a paid order has exactly one payment, which is paid; orders,
      payments and refunds keep their terms and only move forward; an order is
      settled only by one new payment of it that the channel reported or
      confirmed and that passed the amount check, where there is one; an
      answered event is never handled again, and a redelivered payment changes
      no grant while a subscription with an end is live; whatever grants wallet
      credit or entitlements is backed by a payment of its order, once; and the
      expiry a first payment grants is its interval on top of what is left, or
      from now, or the earlier end the channel proposes.
    - Payments to wallets: through redeliveries, retries and lost commits a
      top-up in a wallet is the amount of a paid order of its user, booked once
      per payment, a delivered message has its entry, and a run in which nothing
      fails delivers whatever the wallet can take.
    - Logins: of a rotation chain at most one session is live, the last; a
      refresh continues the chain of the session it presents; a token whose
      session was revoked, or rotated out longer ago than the grace window, is
      never good again, whatever runs beside it; a profile signs in the user it
      is bound to, and the tables stay well formed.
    - Signatures: an issued OAuth state comes back with its callback index, and
      in one process is accepted once before the second it expires in; a Stripe
      or Paddle delivery is accepted exactly on an HMAC of its timestamp and body.
    - Subscriptions: a cancellation calls Paddle once, for a row that is active
      and renews under the lock, and takes no access away; a change of plan
      charges only longer cycles of the same product, or is audited; one active
      row per user and product survives every request; a local cancellation ends
      the row and enqueues its revocation together, or refuses.

    ** Modelling decisions

    - Transactions are atomic steps. Every quota and wallet transaction locks
      the billing account row first; [Settle]'s ledger insert conflicts with
      that lock through its foreign key, so transactions on one account
      serialise in the code too.
    - [int64] values are [Z] with every wrap-around written out ([add64], ...);
      SQL BIGINT arithmetic fails instead of wrapping ([sql_int]). [big.Int] and
      [big.Rat] are unbounded [Z].
    - Instants are UTC nanoseconds since the epoch; [now()], the clock and
      generated UUIDs are arguments. UUID syntax, sub-microsecond rounding of
      TIMESTAMPTZ, audit timestamps no statement reads, and the Protocol and
      Stream columns are left out. A BIGSERIAL is the next list position.
    - Rows of tables that are not modelled are looked up through the [extern]
      parameter of the database record (foreign keys into catalogue tables).
    - JSON job details are finite maps of texts.
    - Bounds: the only fuel is the length of a list or string being scanned
      (whitespace trimming, decimal digits); it is computed from the input.

    ** Not modelled

    Listing queries, HTTP handlers, the provider adapters and their stream
    translators, credential encryption, the API clients of the payment
    providers, plan administration and the process wiring: I/O, third-party
    protocols or rendering around the parts above. In the gateway: logs, alarms,
    deadlines, panics and the byte-level tee reader. In the payment service:
    listings, analytics, metrics and audit contexts. A statement is atomic: what two statements that
    overlap can do to each other (READ COMMITTED) is not modelled.
    The rate limiter estimates in floating point. *)

From Stdlib Require Import ZArith Lia Bool Sorted.
From stdpp Require Import base gmap strings list fin_maps numbers.

#[global] Set Default Goal Selector "1".

Local Open Scope Z_scope.

(** Conversion unfolds integer arithmetic last: comparing two open terms must
    compare the definitions of the model, never evaluate their numbers. *)
#[global] Strategy 5000 [Z.add Z.sub Z.mul Z.opp Z.div Z.modulo Z.quot Z.rem Z.pow
  Z.min Z.max Z.compare Z.leb Z.ltb Z.eqb Z.div_eucl Z.quotrem].

(** ** Go's [int64] *)

Definition min_int64 : Z := - 2 ^ 63.
Definition max_int64 : Z := 2 ^ 63 - 1.

Definition in_int64 (z : Z) : Prop := min_int64 <= z <= max_int64.

(** [big.Int.IsInt64], and the range test of a Postgres BIGINT. *)
Definition is_int64 (z : Z) : bool := (min_int64 <=? z) && (z <=? max_int64).

(** Two's-complement wrap-around of an [int64] operation. *)
Definition wrap64 (z : Z) : Z := (z + 2 ^ 63) mod 2 ^ 64 - 2 ^ 63.

Definition add64 (a b : Z) : Z := wrap64 (a + b).
Definition sub64 (a b : Z) : Z := wrap64 (a - b).
Definition mul64 (a b : Z) : Z := wrap64 (a * b).
Definition neg64 (a : Z) : Z := wrap64 (- a).

Lemma is_int64_true z : is_int64 z = true <-> in_int64 z.
Proof. unfold is_int64, in_int64. rewrite andb_true_iff, !Z.leb_le. done. Qed.

Lemma is_int64_false z : is_int64 z = false <-> ~ in_int64 z.
Proof. rewrite <- is_int64_true. by destruct (is_int64 z). Qed.

Lemma wrap64_id z : in_int64 z -> wrap64 z = z.
Proof.
  unfold in_int64, min_int64, max_int64, wrap64. intros H.
  rewrite Z.mod_small by lia. lia.
Qed.

Lemma wrap64_range z : in_int64 (wrap64 z).
Proof.
  unfold in_int64, min_int64, max_int64, wrap64.
  pose proof (Z.mod_pos_bound (z + 2 ^ 63) (2 ^ 64)). lia.
Qed.

Lemma wrap64_wrap64_add a b : wrap64 (wrap64 a + b) = wrap64 (a + b).
Proof.
  unfold wrap64. f_equal.
  replace ((a + 2 ^ 63) mod 2 ^ 64 - 2 ^ 63 + b + 2 ^ 63)
    with ((a + 2 ^ 63) mod 2 ^ 64 + b) by lia.
  rewrite Z.add_mod_idemp_l by lia. f_equal. lia.
Qed.

Instance in_int64_dec z : Decision (in_int64 z).
Proof. unfold in_int64. apply _. Defined.

Create HintDb int64.
#[export] Hint Unfold in_int64 min_int64 max_int64 : int64.
#[export] Hint Resolve wrap64_range : int64.

(** [i64] closes arithmetic goals about [int64] ranges after unfolding the
    bounds; operations are first replaced by exact ones where they fit. *)
Ltac i64_unfold :=
  unfold add64, sub64, mul64, neg64 in *;
  repeat match goal with
  | H : is_int64 _ = true |- _ => apply is_int64_true in H
  | H : is_int64 _ = false |- _ => apply is_int64_false in H
  end;
  unfold in_int64, min_int64, max_int64 in *.
Ltac i64 := i64_unfold; lia.
Ltac i64_exact := repeat rewrite wrap64_id by i64.

(** Closed side conditions of a concrete instance, by evaluation. *)
Ltac by_eval := vm_compute; repeat split; first [reflexivity | discriminate].

(** ** Turning boolean guards into propositions *)

Ltac bool_prop :=
  repeat match goal with
  | H : (_ && _) = true |- _ => apply andb_true_iff in H; destruct H
  | H : (_ || _) = false |- _ => apply orb_false_iff in H; destruct H
  | H : (_ && _) = false |- _ => apply andb_false_iff in H
  | H : (_ || _) = true |- _ => apply orb_true_iff in H
  | H : negb _ = true |- _ => apply negb_true_iff in H
  | H : negb _ = false |- _ => apply negb_false_iff in H
  | H : (_ <? _)%Z = true |- _ => apply Z.ltb_lt in H
  | H : (_ <? _)%Z = false |- _ => apply Z.ltb_ge in H
  | H : (_ <=? _)%Z = true |- _ => apply Z.leb_le in H
  | H : (_ <=? _)%Z = false |- _ => apply Z.leb_gt in H
  | H : (_ =? _)%Z = true |- _ => apply Z.eqb_eq in H
  | H : (_ =? _)%Z = false |- _ => apply Z.eqb_neq in H
  | H : bool_decide _ = true |- _ => apply bool_decide_eq_true in H
  | H : bool_decide _ = false |- _ => apply bool_decide_eq_false in H
  end.

(** ** Results: Go's [(T, error)] *)

Inductive result (E A : Type) : Type :=
| Ok (a : A)
| Err (e : E).
Arguments Ok {E A} a.
Arguments Err {E A} e.

Definition rbind {E A B} (m : result E A) (k : A -> result E B) : result E B :=
  match m with Ok a => k a | Err e => Err e end.

Declare Scope go_scope.
Delimit Scope go_scope with go.

(** [let? x := e in k] is [x, err := e; if err != nil { return err }; k]. *)
Notation "'let?' x ':=' e 'in' k" := (rbind e (fun x => k))
  (at level 10, x pattern, e at level 100, k at level 200) : go_scope.
(** [guard b else e; k] is [if !b { return e }; k]. *)
Notation "'guard' b 'else' e ';' k" := (if b then k else Err e)
  (at level 10, b at level 100, e at level 100, k at level 200) : go_scope.
(** [fail_if b with e; k] is [if b { return e }; k]. *)
Notation "'fail_if' b 'with' e ';' k" := (if b then Err e else k)
  (at level 10, b at level 100, e at level 100, k at level 200) : go_scope.

Definition is_ok {E A} (r : result E A) : bool :=
  match r with Ok _ => true | Err _ => false end.

Lemma rbind_Ok {E A B} (m : result E A) (k : A -> result E B) b :
  rbind m k = Ok b <-> exists a, m = Ok a /\ k a = Ok b.
Proof.
  destruct m as [a|e]; simpl; split.
  - intros Hk. by exists a.
  - intros (a' & [= ->] & Hk). done.
  - discriminate.
  - intros (a' & Ha & _). discriminate.
Qed.
Lemma rbind_Err {E A B} (m : result E A) (k : A -> result E B) e :
  rbind m k = Err e -> m = Err e \/ exists x, m = Ok x /\ k x = Err e.
Proof. destruct m; simpl; [eauto|]. intros [= ->]. by left. Qed.
Lemma forallb_false {A} (p : A -> bool) l : forallb p l = false -> exists x, In x l /\ p x = false.
Proof.
  induction l as [|a l IH]; simpl; [done|]. destruct (p a) eqn:E; [|eauto]. intros (x & ? & ?)%IH. eauto.
Qed.

Lemma Ok_inj {E A} (a b : A) : @Ok E A a = Ok b -> a = b.
Proof. by intros [= ->]. Qed.

(** [inv_ok] peels a successful run of a handler: it walks through the binds
    and guards of a hypothesis [... = Ok _], keeping each fact. *)
Ltac inv_ok_step :=
  match goal with
  | H : Ok _ = Ok _ |- _ => apply Ok_inj in H; subst
  | H : (_, _) = (_, _) |- _ => apply pair_equal_spec in H; destruct H; subst
  | H : Err _ = Ok _ |- _ => discriminate H
  | H : None = Some _ |- _ => discriminate H
  | H : Some _ = None |- _ => discriminate H
  | H : Ok _ = Err _ |- _ => discriminate H
  | H : Err _ = Err _ |- _ => injection H; clear H; intros; subst
  | H : rbind ?m _ = Ok _ |- _ =>
      let x := fresh "x" in let E := fresh "E" in
      apply rbind_Ok in H; destruct H as (x & E & H); cbv beta iota zeta in H
  | H : (if ?b then _ else _) = Ok _ |- _ =>
      let E := fresh "E" in destruct b eqn:E; cbv beta iota zeta in H
  | H : match ?m with Some _ => _ | None => _ end = Ok _ |- _ =>
      let E := fresh "E" in destruct m eqn:E; cbv beta iota zeta in H
  end.
Ltac inv_ok := repeat inv_ok_step.

(** Left fold of a fallible body over a slice: Go's [for _, x := range xs]
    whose body may [return err]. *)
Fixpoint rfold {E A S} (f : S -> A -> result E S) (s : S) (xs : list A) : result E S :=
  match xs with
  | [] => Ok s
  | x :: xs' => rbind (f s x) (fun s' => rfold f s' xs')
  end.

Lemma rfold_app {E A S} (f : S -> A -> result E S) s xs ys :
  rfold f s (xs ++ ys) = rbind (rfold f s xs) (fun s' => rfold f s' ys).
Proof. revert s; induction xs; intros; simpl; [done|]. destruct (f s a); simpl; auto. Qed.

Lemma rfold_ext {E A S} (f g : S -> A -> result E S) xs s :
  (forall x s, x ∈ xs -> f s x = g s x) -> rfold f s xs = rfold g s xs.
Proof.
  revert s. induction xs as [|x xs IH]; intros s Hfg; simpl; [done|].
  rewrite Hfg by set_solver. destruct (g s x); simpl; [|done]. apply IH. set_solver.
Qed.

(** Invariant rule for [rfold]. *)
Lemma rfold_inv {E A S} (P : S -> Prop) (f : S -> A -> result E S) xs s s' :
  (forall x s1 s2, x ∈ xs -> P s1 -> f s1 x = Ok s2 -> P s2) ->
  P s -> rfold f s xs = Ok s' -> P s'.
Proof.
  revert s. induction xs as [|x xs IH]; intros s Hstep Hs Hf; simpl in Hf.
  - by inv_ok.
  - inv_ok. eapply IH; [|eapply Hstep; [..|exact E0]|exact Hf]; [|set_solver|done].
    intros; eapply Hstep; eauto; set_solver.
Qed.

(** Relational rule: a body whose steps are related relates the whole loop. *)
Lemma rfold_rel {E A S} (R : S -> S -> Prop) (f : S -> A -> result E S) xs s s' :
  (forall s, R s s) -> (forall s1 s2 s3, R s1 s2 -> R s2 s3 -> R s1 s3) ->
  (forall x s1 s2, x ∈ xs -> f s1 x = Ok s2 -> R s1 s2) ->
  rfold f s xs = Ok s' -> R s s'.
Proof.
  intros Hrefl Htrans. revert s. induction xs as [|x xs IH]; intros s Hstep Hf; simpl in Hf.
  - by inv_ok.
  - apply rbind_Ok in Hf as (s1 & H1 & H2). eapply Htrans; [eapply (Hstep x); [by left|exact H1]|].
    apply IH; [|done]. intros y s2 s3 Hy. apply Hstep. by right.
Qed.

(** Every element had its turn. *)
Lemma rfold_elem {E A S} (f : S -> A -> result E S) x xs s s' :
  x ∈ xs -> rfold f s xs = Ok s' ->
  exists s1 s2 ys, f s1 x = Ok s2 /\ rfold f s2 ys = Ok s' /\ ys ⊆ xs.
Proof.
  intros Hx. revert s. induction xs as [|y xs IH]; intros s Hf; simpl in Hf; [set_solver|].
  apply rbind_Ok in Hf as (s1 & H1 & H2). apply elem_of_cons in Hx as [->|Hx].
  - exists s, s1, xs. split_and!; [done..|set_solver].
  - destruct (IH Hx _ H2) as (a & b & ys & Ha & Hb & Hys). exists a, b, ys. split_and!; [done..|set_solver].
Qed.

(** A body that succeeds and keeps an invariant makes the loop succeed. *)
Lemma rfold_total {E A S} (P : S -> Prop) (f : S -> A -> result E S) xs s :
  (forall x s, x ∈ xs -> P s -> exists s', f s x = Ok s' /\ P s') -> P s ->
  exists s', rfold f s xs = Ok s' /\ P s'.
Proof.
  revert s. induction xs as [|x xs IH]; intros s Hf Hs; simpl; [eauto|].
  destruct (Hf x s) as (s1 & -> & H1); [by left|done|]. simpl. apply IH; [|done].
  intros y s2 Hy. apply Hf. by right.
Qed.

(** Lookups in append-only tables. *)
Lemma find_app_l {A} (p : A -> bool) l l' a : List.find p l = Some a -> List.find p (l ++ l') = Some a.
Proof. induction l as [|x l IH]; simpl; [done|]. destruct (p x); auto. Qed.

Lemma find_snoc {A} (p : A -> bool) l a :
  (forall x, x ∈ l -> p x = false) -> p a = true -> List.find p (l ++ [a]) = Some a.
Proof.
  induction l as [|x l IH]; intros Hl Ha; simpl; [by rewrite Ha|].
  rewrite Hl by set_solver. apply IH; [set_solver|done].
Qed.

(** Go's [sort.SliceStable] with a [less] function. *)
Section StableSort.
Context {A : Type} (less : A -> A -> bool).

Fixpoint insert_sorted (x : A) (l : list A) : list A :=
  match l with
  | [] => [x]
  | y :: l' => if less y x then y :: insert_sorted x l' else x :: l
  end.

Definition stable_sort (l : list A) : list A := foldr insert_sorted [] l.

Lemma insert_sorted_Permutation x l : insert_sorted x l ≡ₚ x :: l.
Proof.
  induction l as [|y l IH]; simpl; [done|].
  destruct (less y x); [|done]. rewrite IH. by constructor.
Qed.

Lemma stable_sort_Permutation l : stable_sort l ≡ₚ l.
Proof.
  induction l as [|x l IH]; simpl; [done|]. by rewrite insert_sorted_Permutation, IH.
Qed.

(** What Go requires of [less]: a strict weak order. *)
Hypotheses (Hirr : forall a, less a a = false)
  (Hneg : forall a b c, less b a = false -> less c b = false -> less c a = false).

(** No later element comes strictly before an earlier one. *)
Definition in_order (l : list A) : Prop := StronglySorted (fun a b => less b a = false) l.

Lemma insert_sorted_order (Hasym : forall a b, less a b = true -> less b a = false) x l :
  in_order l -> in_order (insert_sorted x l).
Proof using Hneg.
  induction l as [|y l IH]; intros Hl; simpl; [by repeat constructor|].
  apply StronglySorted_inv in Hl as [Hl Hy]. destruct (less y x) eqn:E.
  - constructor; [by apply IH|]. rewrite insert_sorted_Permutation. constructor; [by apply Hasym|done].
  - constructor; [by constructor|]. constructor; [done|]. rewrite Forall_forall in Hy |- *. eauto.
Qed.

Lemma stable_sort_order (Hasym : forall a b, less a b = true -> less b a = false) l : in_order (stable_sort l).
Proof using Hneg. induction l; simpl; [constructor|]. by apply insert_sorted_order. Qed.

(** The first match of a sorted list is a least match. *)
Lemma find_in_order (p : A -> bool) l a : in_order l -> List.find p l = Some a ->
  a ∈ l /\ p a = true /\ forall b, b ∈ l -> p b = true -> less b a = false.
Proof using Hirr Hneg.
  induction 1 as [|y l Hl IH Hy]; simpl; [done|]. destruct (p y) eqn:E.
  - intros [= ->]. split_and!; [set_solver|done|]. intros b [->|Hb]%elem_of_cons _; [apply Hirr|].
    rewrite Forall_forall in Hy. apply Hy. by apply list_elem_of_In.
  - intros H. destruct (IH H) as (Hin & Hp & Hmin). split_and!; [set_solver|done|].
    intros b [->|Hb]%elem_of_cons Hpb; [congruence|]. by apply Hmin.
Qed.

End StableSort.

(** ... and by an integer key. *)
Definition sort_by {A} (key : A -> Z) : list A -> list A := stable_sort (fun a b => key a <? key b).

Lemma sort_by_Permutation {A} (key : A -> Z) l : sort_by key l ≡ₚ l.
Proof. apply stable_sort_Permutation. Qed.

Lemma list_nonempty_elem {A} (l : list A) : l <> [] -> exists x, x ∈ l.
Proof. destruct l as [|x l]; [done|]. intros _. exists x. set_solver. Qed.

(** ** Sums over lists *)

Definition lsum {A} (f : A -> Z) (l : list A) : Z := foldr (fun a s => f a + s) 0 l.

Lemma lsum_app {A} (f : A -> Z) l1 l2 : lsum f (l1 ++ l2) = lsum f l1 + lsum f l2.
Proof. induction l1; simpl; lia. Qed.

Lemma lsum_ext {A} (f g : A -> Z) l : (forall x, x ∈ l -> f x = g x) -> lsum f l = lsum g l.
Proof.
  induction l as [|x l IH]; intros Hfg; simpl; [done|]. rewrite Hfg, IH; set_solver.
Qed.

Lemma lsum_filter {A} (f : A -> Z) (p : A -> bool) l :
  lsum f (List.filter p l) = lsum (fun x => if p x then f x else 0) l.
Proof. induction l as [|x l IH]; simpl; [done|]. destruct (p x); simpl; lia. Qed.

Lemma lsum_nonneg {A} (f : A -> Z) l : (forall x, x ∈ l -> 0 <= f x) -> 0 <= lsum f l.
Proof.
  induction l as [|x l IH]; intros Hf; simpl; [lia|].
  assert (0 <= f x) by (apply Hf; set_solver). assert (0 <= lsum f l) by (apply IH; set_solver). lia.
Qed.

#[global] Instance lsum_Permutation {A} (f : A -> Z) : Proper (Permutation ==> eq) (lsum f).
Proof. intros l l' HP. induction HP; simpl in *; lia. Qed.

(** ** Sums over finite maps

    The stores are finite maps from row ids to rows; balances are sums over
    the rows of a table. *)
Section MapSum.
Context {K : Type} `{Countable K} {V : Type}.
Implicit Type m : gmap K V.

Definition msum (f : K -> V -> Z) m : Z :=
  map_fold (fun k v acc => f k v + acc) 0 m.

Lemma msum_empty f : msum f ∅ = 0.
Proof. apply map_fold_empty. Qed.

Lemma msum_insert f m k v :
  m !! k = None -> msum f (<[k:=v]> m) = f k v + msum f m.
Proof.
  intros Hk. unfold msum. rewrite map_fold_insert_L; [done| |done].
  intros; lia.
Qed.

Lemma msum_delete f m k v :
  m !! k = Some v -> msum f m = f k v + msum f (delete k m).
Proof.
  intros Hk. rewrite <- msum_insert by apply lookup_delete_eq.
  by rewrite insert_delete_id.
Qed.

(** Overwriting a row changes the sum by the difference of its terms. *)
Lemma msum_update f m k v v' :
  m !! k = Some v -> msum f (<[k:=v']> m) = msum f m - f k v + f k v'.
Proof.
  intros Hk. rewrite (msum_delete f m k v Hk), <- insert_delete_eq.
  rewrite msum_insert by apply lookup_delete_eq. lia.
Qed.

Lemma msum_ext f g m :
  (forall k v, m !! k = Some v -> f k v = g k v) -> msum f m = msum g m.
Proof.
  induction m as [|k v m Hk IH] using map_ind; intros Hfg; [by rewrite !msum_empty|].
  rewrite !msum_insert by done. rewrite IH.
  - rewrite Hfg; [done|]. by rewrite lookup_insert_eq.
  - intros k' v' Hk'. apply Hfg. rewrite lookup_insert_ne; [done|congruence].
Qed.

Lemma msum_fmap {W} (g : W -> V) f (m : gmap K W) :
  msum f (g <$> m) = map_fold (fun k v acc => f k (g v) + acc) 0 m.
Proof.
  induction m as [|k v m Hk IH] using map_ind; [by rewrite fmap_empty, msum_empty|].
  rewrite fmap_insert, msum_insert by (by rewrite lookup_fmap, Hk).
  rewrite map_fold_insert_L, IH; [done| |done]. intros; lia.
Qed.

Lemma msum_nonneg f m :
  (forall k v, m !! k = Some v -> 0 <= f k v) -> 0 <= msum f m.
Proof.
  induction m as [|k v m Hk IH] using map_ind; intros Hf; [by rewrite msum_empty|].
  rewrite msum_insert by done.
  assert (0 <= f k v) by (apply Hf; by rewrite lookup_insert_eq).
  assert (0 <= msum f m); [|lia].
  apply IH. intros k' v' Hk'. apply Hf. rewrite lookup_insert_ne; [done|congruence].
Qed.

Lemma msum_add h f g m :
  (forall k v, m !! k = Some v -> h k v = f k v + g k v) -> msum h m = msum f m + msum g m.
Proof.
  induction m as [|k v m Hk IH] using map_ind; intros Hh; [by rewrite !msum_empty|].
  rewrite !msum_insert by done. rewrite Hh by apply lookup_insert_eq. rewrite IH; [lia|].
  intros k' v' Hk'. apply Hh. rewrite lookup_insert_ne; [done|congruence].
Qed.

Lemma msum_plus f g m : msum (fun k v => f k v + g k v) m = msum f m + msum g m.
Proof. by apply msum_add. Qed.

Lemma msum_scale f d m : msum (fun k v => f k v * d) m = msum f m * d.
Proof.
  induction m as [|k v m Hk IH] using map_ind; [by rewrite !msum_empty|].
  rewrite !msum_insert by done. lia.
Qed.

Lemma msum_zero f m :
  (forall k v, m !! k = Some v -> f k v = 0) -> msum f m = 0.
Proof.
  intros Hf. rewrite (msum_ext f (fun _ _ => 0) m Hf). clear Hf.
  induction m as [|k v m Hk IH] using map_ind; [by rewrite msum_empty|].
  by rewrite msum_insert, IH.
Qed.

(** Counting a row that exists exactly once. *)
Lemma msum_one (P : V -> bool) m k v :
  m !! k = Some v -> P v = true -> (forall k' v', m !! k' = Some v' -> P v' = true -> k' = k) ->
  msum (fun _ v => if P v then 1 else 0) m = 1.
Proof.
  intros Hk HP Hu. rewrite (msum_delete _ _ _ _ Hk), HP, msum_zero; [done|].
  intros k' v' [Hne Hk']%lookup_delete_Some. destruct (P v') eqn:E; [|done].
  by rewrite (Hu _ _ Hk' E) in Hne.
Qed.

(** One row of a non-negative sum is at most the sum. *)
Lemma msum_lookup_le f m k v :
  (forall k v, m !! k = Some v -> 0 <= f k v) ->
  m !! k = Some v -> f k v <= msum f m.
Proof.
  intros Hf Hk. rewrite (msum_delete f m k v Hk).
  assert (0 <= msum f (delete k m)); [|lia].
  apply msum_nonneg. intros k' v' Hk'.
  apply lookup_delete_Some in Hk' as [_ Hk']. eauto.
Qed.
End MapSum.
