(* ===== verification/Domain.v ===== *)
(** * Domain: the error model and the shared records of the inference module

    [internal/inference/domain/errors.go] (stable codes, sentinel errors, the
    quota-exceeded error) and the data of [internal/inference/domain/usage.go]
    (usage buckets, request life cycle, quota windows, reservations, leases).
    An instant is its UTC Unix time in nanoseconds; identifiers are strings;
    human-readable message texts are not part of the model. *)

From Stdlib Require Import ZArith Lia Bool.
From stdpp Require Import base gmap strings list.
From S2P Require Import Prelude.

Local Open Scope Z_scope.

(** UTC instants in Unix nanoseconds ([time.Time] after [.UTC()]). *)
Definition instant := Z.
(** [time.Duration]: nanoseconds, an [int64]. *)
Definition duration := Z.
(** [domain.Microcredit]: an [int64] amount of micro-credits. *)
Definition Microcredit := Z.

(** ** Windows and usage *)

Inductive WindowKind := WindowFiveHour | WindowWeekly | WindowMonthly.

(** The fixed lock order. *)
Definition WindowOrder : list WindowKind := [WindowFiveHour; WindowWeekly; WindowMonthly].

Inductive UsageSource := UsagePending | UsageReported | UsageEstimated | UsageUnknown.

(** Every bucket is a pointer; [None] is "not reported", never zero. *)
Record UsageBuckets := mkBuckets {
  InputTokens : option Z;
  CacheReadTokens : option Z;
  CacheWriteTokens : option Z;
  OutputTokens : option Z;
  ReasoningTokens : option Z;
}.

(** [UsageBuckets.TotalTokens]: nil buckets are skipped, [int64] addition. *)
Definition TotalTokens (u : UsageBuckets) : Z :=
  foldl (fun total p => match p with Some v => add64 total v | None => total end) 0
    [InputTokens u; CacheReadTokens u; CacheWriteTokens u; OutputTokens u; ReasoningTokens u].

Record UsageRecord := mkUsage {
  u_RequestID : string;
  u_AttemptID : string;
  u_Source : UsageSource;
  u_Buckets : UsageBuckets;
  u_Revision : Z;
}.

Inductive RequestStatus :=
| ReqAuthenticated | ReqReserved | ReqDispatching | ReqStreaming | ReqNonStreaming
| ReqSettling | ReqSettled | ReqReleased | ReqReconciliationRequired | ReqFailed.

Record QuotaWindow := mkWindow {
  w_ID : string;
  w_EntitlementID : string;
  w_Kind : WindowKind;
  w_Start : instant;
  w_End : instant;
  w_Limit : Microcredit;
  w_Used : Microcredit;
  w_Reserved : Microcredit;
  w_Voided : bool;
}.

(** [QuotaWindow.Available]: max(0, limit - used - reserved) in [int64]. *)
Definition Available (w : QuotaWindow) : Microcredit :=
  let avail := sub64 (sub64 (w_Limit w) (w_Used w)) (w_Reserved w) in
  if avail <? 0 then 0 else avail.

Inductive ReservationState := ReservationHeld | ReservationSettled | ReservationReleased.

Inductive ReservationTargetKind :=
| TargetWindowFiveHour | TargetWindowWeekly | TargetWindowMonthly | TargetKeyBudget | TargetWallet.

Inductive CostBasis := CostReported | CostEstimated | CostAllocated.

Inductive ChargeSource := ChargeSourcePlan | ChargeSourceWallet.

Inductive LedgerEntryType := LedgerCharge | LedgerReversal | LedgerAdjustment.

Inductive LeaseScope :=
| LeaseScopeBillingAccount | LeaseScopeUpstreamAccount | LeaseScopeDeployment | LeaseScopeAPIKey.

Inductive LeaseState := LeaseHeld | LeaseReleased | LeaseExpired.

#[global] Instance UsageBuckets_eq_dec : EqDecision UsageBuckets.
Proof. solve_decision. Defined.

#[global] Instance WindowKind_eq_dec : EqDecision WindowKind.
Proof. solve_decision. Defined.
#[global] Instance UsageSource_eq_dec : EqDecision UsageSource.
Proof. solve_decision. Defined.
#[global] Instance RequestStatus_eq_dec : EqDecision RequestStatus.
Proof. solve_decision. Defined.
#[global] Instance ReservationState_eq_dec : EqDecision ReservationState.
Proof. solve_decision. Defined.
#[global] Instance ReservationTargetKind_eq_dec : EqDecision ReservationTargetKind.
Proof. solve_decision. Defined.
#[global] Instance ChargeSource_eq_dec : EqDecision ChargeSource.
Proof. solve_decision. Defined.
#[global] Instance LedgerEntryType_eq_dec : EqDecision LedgerEntryType.
Proof. solve_decision. Defined.
#[global] Instance LeaseScope_eq_dec : EqDecision LeaseScope.
Proof. solve_decision. Defined.
#[global] Instance LeaseState_eq_dec : EqDecision LeaseState.
Proof. solve_decision. Defined.

(** ** Errors *)

Inductive Code :=
| CodeInvalidInput | CodeInvalidKey | CodeModelNotAllowed | CodeQuotaExceeded
| CodeRateLimited | CodeUpstreamUnavailable | CodeNotFound | CodeConflict
| CodeInsufficientCapacity | CodeUnpricedCapability | CodeInsufficientBalance | CodeInternal.

(** [b_Kind = None] is the empty kind of a block without a window target. *)
Record WindowBlock := mkBlock {
  b_Kind : option WindowKind;
  b_LimitMicros : Microcredit;
  b_UsedMicros : Microcredit;
  b_ReservedMicros : Microcredit;
  b_ResetsAt : option instant;
}.

(** Sentinel errors, compared by identity ([errors.Is]). *)
Inductive Sentinel :=
| ErrOverflow | ErrNegativeValue | ErrCurrencyMismatch | ErrInvalidCurrency
| ErrInvalidRate | ErrInvalidDecimal | ErrRoundingMode.

Inductive error :=
| ESentinel (s : Sentinel)
(** [*domain.Error] without and with a cause. *)
| EDomain (c : Code)
| EWrapped (c : Code) (cause : error)
(** [*domain.QuotaExceededError]. *)
| EQuotaExceeded (blockedBy : list WindowBlock) (keyBudget : bool) (deficit : option Microcredit)
(** [postgres.activationConflict], matching [quota.ErrWindowActivationConflict]. *)
| EActivationConflict (kind : WindowKind) (start : instant)
(** [*postgres.PolicyRetiredError], unwrapping to a conflict. *)
| EPolicyRetired (policyVersionID : string)
(** A driver error [mapError] does not classify. *)
| EForeign.

Abbreviation res := (result error).

Definition NewError (c : Code) : error := EDomain c.
Definition WrapError (c : Code) (cause : error) : error := EWrapped c cause.
Definition NewQuotaExceeded (blockedBy : list WindowBlock) (keyBudget : bool) : error :=
  EQuotaExceeded blockedBy keyBudget None.

(** [CodeOf]: the code of the first [*Error] of the chain, then the
    quota-exceeded code, and [CodeInternal] for foreign errors. The
    activation conflict unwraps to the [mapError] conflict it carries. *)
Definition CodeOf (e : error) : Code :=
  match e with
  | EDomain c | EWrapped c _ => c
  | EQuotaExceeded _ _ _ => CodeQuotaExceeded
  | EActivationConflict _ _ | EPolicyRetired _ => CodeConflict
  | ESentinel _ | EForeign => CodeInternal
  end.

(** How a transaction of a [UnitOfWork] ends: a failed COMMIT may or may not
    have been applied by the database. *)
Inductive CommitOutcome :=
| Committed
| CommitFailed (e : error) (persisted : bool).

#[global] Instance Code_eq_dec : EqDecision Code.
Proof. solve_decision. Defined.
#[global] Instance Sentinel_eq_dec : EqDecision Sentinel.
Proof. solve_decision. Defined.

(** Availability read exactly: the clamped difference, when the counters are
    non-negative and fit. *)
Lemma Available_exact w :
  0 <= w_Used w -> 0 <= w_Reserved w -> 0 <= w_Limit w <= max_int64 ->
  w_Used w + w_Reserved w <= max_int64 ->
  Available w = Z.max 0 (w_Limit w - w_Used w - w_Reserved w).
Proof.
  intros. unfold Available, sub64.
  rewrite (wrap64_id (w_Limit w - w_Used w)) by i64. rewrite wrap64_id by i64.
  destruct (Z.ltb_spec (w_Limit w - w_Used w - w_Reserved w) 0); lia.
Qed.
