(* ===== verification/Money.v ===== *)
(** * Money: checked integer micro-amounts, exact rational rates, decimals

    [internal/inference/domain/money.go]. Amounts are [int64] micro-units kept
    as [Z] with every wrap-around written out; rates are exact rationals;
    intermediate products are [big.Int], hence unbounded [Z]. *)

From Stdlib Require Import ZArith Lia Bool Ascii String.
From stdpp Require Import base gmap strings list.
From S2P Require Import Prelude Domain.

Local Open Scope Z_scope.
Local Open Scope go_scope.

Module Credit.
(** [Microcredit.Add]. *)
Definition Add (a b : Microcredit) : res Microcredit :=
  if ((0 <? b) && (sub64 max_int64 b <? a)) || ((b <? 0) && (a <? sub64 min_int64 b))
  then Err (ESentinel ErrOverflow)
  else Ok (add64 a b).

(** [Microcredit.Sub]. *)
Definition Sub (a b : Microcredit) : res Microcredit :=
  if b =? min_int64 then Err (ESentinel ErrOverflow) else Add a (neg64 b).

(** [Microcredit.NonNegative]. *)
Definition NonNegative (a : Microcredit) : res unit :=
  if a <? 0 then Err (ESentinel ErrNegativeValue) else Ok tt.

Lemma Add_exact a b :
  in_int64 a -> in_int64 b ->
  Add a b = if is_int64 (a + b) then Ok (a + b) else Err (ESentinel ErrOverflow).
Proof.
  intros Ha Hb. unfold Add, add64, sub64.
  destruct (is_int64 (a + b)) eqn:Hab.
  - destruct (((0 <? b) && (wrap64 (max_int64 - b) <? a))
              || ((b <? 0) && (a <? wrap64 (min_int64 - b)))) eqn:E.
    + exfalso. apply is_int64_true in Hab. bool_prop.
      destruct E as [E|E]; bool_prop; rewrite wrap64_id in H0 by i64; i64.
    + rewrite wrap64_id; [done | by apply is_int64_true].
  - apply is_int64_false in Hab.
    assert (((0 <? b) && (wrap64 (max_int64 - b) <? a))
            || ((b <? 0) && (a <? wrap64 (min_int64 - b))) = true) as ->; [|done].
    destruct (Z.ltb_spec 0 b), (Z.ltb_spec b 0); simpl; try i64.
    + rewrite wrap64_id by i64. rewrite orb_false_r. apply Z.ltb_lt. i64.
    + rewrite wrap64_id by i64. apply Z.ltb_lt. i64.
Qed.

(** A successful sum is the exact sum and fits. *)
Lemma Add_Ok a b c :
  in_int64 a -> in_int64 b -> Add a b = Ok c -> c = a + b /\ in_int64 c.
Proof.
  intros Ha Hb. rewrite Add_exact by done.
  destruct (is_int64 (a + b)) eqn:E; intros; inv_ok.
  split; [done|]. by apply is_int64_true.
Qed.

Lemma Sub_exact a b :
  in_int64 a -> in_int64 b ->
  Sub a b = if negb (b =? min_int64) && is_int64 (a - b) then Ok (a - b)
            else Err (ESentinel ErrOverflow).
Proof.
  intros Ha Hb. unfold Sub. destruct (Z.eqb_spec b min_int64); simpl; [done|].
  unfold neg64. rewrite wrap64_id by i64.
  rewrite Add_exact by i64. by rewrite Z.add_opp_r.
Qed.
End Credit.

(** ** Money *)

Record Money := mkMoney { Micros : Z; Currency : string }.

Definition upper_ascii (c : ascii) : bool :=
  let n := N_of_ascii c in (65 <=? n)%N && (n <=? 90)%N.

Fixpoint string_forallb (p : ascii -> bool) (s : string) : bool :=
  match s with
  | EmptyString => true
  | String.String c s' => p c && string_forallb p s'
  end.

(** [validCurrency]: three bytes, each an upper-case ASCII letter. A rune
    above [Z] has only bytes above [Z], so bytes decide. *)
Definition validCurrency (c : string) : bool :=
  (String.length c =? 3)%nat && string_forallb upper_ascii c.

Definition NewMoney (micros : Z) (currency : string) : res Money :=
  fail_if negb (validCurrency currency) with ESentinel ErrInvalidCurrency;
  fail_if micros <? 0 with ESentinel ErrNegativeValue;
  Ok (mkMoney micros currency).

(** [Money.Add]. *)
Definition MoneyAdd (a b : Money) : res Money :=
  fail_if negb (String.eqb (Currency a) (Currency b)) with ESentinel ErrCurrencyMismatch;
  fail_if sub64 max_int64 (Micros a) <? Micros b with ESentinel ErrOverflow;
  Ok (mkMoney (add64 (Micros a) (Micros b)) (Currency a)).

(** [Money.Sub]. *)
Definition MoneySub (a b : Money) : res Money :=
  fail_if negb (String.eqb (Currency a) (Currency b)) with ESentinel ErrCurrencyMismatch;
  fail_if Micros a <? Micros b with ESentinel ErrNegativeValue;
  Ok (mkMoney (sub64 (Micros a) (Micros b)) (Currency a)).

(** The invariant [NewMoney] establishes. *)
Definition money_wf (m : Money) : Prop :=
  validCurrency (Currency m) = true /\ 0 <= Micros m <= max_int64.

Lemma NewMoney_Ok micros cur m :
  NewMoney micros cur = Ok m ->
  m = mkMoney micros cur /\ validCurrency cur = true /\ 0 <= micros.
Proof. unfold NewMoney. intros. inv_ok. bool_prop. done. Qed.

Lemma NewMoney_ok micros cur :
  validCurrency cur = true -> 0 <= micros -> NewMoney micros cur = Ok (mkMoney micros cur).
Proof.
  intros Hc Hm. unfold NewMoney. rewrite Hc. simpl.
  by destruct (Z.ltb_spec micros 0); [lia|].
Qed.

(** Well-formed amounts of one currency add exactly or overflow. *)
Lemma MoneyAdd_exact a b :
  money_wf a -> money_wf b -> Currency a = Currency b ->
  MoneyAdd a b = if is_int64 (Micros a + Micros b)
                 then Ok (mkMoney (Micros a + Micros b) (Currency a))
                 else Err (ESentinel ErrOverflow).
Proof.
  intros [_ Ha] [_ Hb] Hc. unfold MoneyAdd, add64, sub64. rewrite Hc, String.eqb_refl. simpl.
  rewrite wrap64_id by i64.
  destruct (is_int64 (Micros a + Micros b)) eqn:E.
  - apply is_int64_true in E. rewrite wrap64_id by done.
    destruct (Z.ltb_spec (max_int64 - Micros a) (Micros b)); [i64|done].
  - apply is_int64_false in E.
    destruct (Z.ltb_spec (max_int64 - Micros a) (Micros b)); [done|i64].
Qed.

Lemma MoneySub_wf a b c :
  money_wf a -> money_wf b -> MoneySub a b = Ok c ->
  money_wf c /\ Micros c = Micros a - Micros b.
Proof.
  intros [Hv Ha] [_ Hb]. unfold MoneySub, sub64. intros. inv_ok. bool_prop.
  unfold money_wf. simpl. rewrite wrap64_id by i64. repeat split; auto; lia.
Qed.

(** ** Rates *)

(** [RoundingMode] is an [int]; a value outside the three constants is
    rejected. *)
Inductive RoundingMode := RoundDown | RoundUp | RoundHalfUp | RoundOther (n : Z).

Record Rate := mkRate { Num : Z; Den : Z }.

Definition rate_wf (r : Rate) : Prop := 0 <= Num r <= max_int64 /\ 0 < Den r <= max_int64.

Definition NewRate (num den : Z) : res Rate :=
  if (den <=? 0) || (num <? 0) then Err (ESentinel ErrInvalidRate) else Ok (mkRate num den).

Definition RatePerMillion (microsPerMtok : Z) : res Rate := NewRate microsPerMtok 1000000.

(** [Rate.MicrosForUnits]: exact product, quotient rounded by [mode],
    range-checked. [big.Int.QuoRem] truncates; both operands are
    non-negative here. *)
Definition MicrosForUnits (r : Rate) (units : Z) (mode : RoundingMode) : res Z :=
  fail_if units <? 0 with ESentinel ErrNegativeValue;
  fail_if (Den r <=? 0) || (Num r <? 0) with ESentinel ErrInvalidRate;
  let num := Num r * units in
  let den := Den r in
  let q := Z.quot num den in
  let rem := Z.rem num den in
  let? q := match mode with
            | RoundDown => Ok q
            | RoundUp => Ok (if 0 <? rem then q + 1 else q)
            | RoundHalfUp => Ok (if den <=? Z.shiftl rem 1 then q + 1 else q)
            | RoundOther _ => Err (ESentinel ErrRoundingMode)
            end in
  if is_int64 q then Ok q else Err (ESentinel ErrOverflow).

Definition ChargeUnits (r : Rate) (units : Z) (mode : RoundingMode) : res Microcredit :=
  let? micros := MicrosForUnits r units mode in Ok micros.

Definition ChargeUnitsMoney (r : Rate) (units : Z) (currency : string) (mode : RoundingMode)
  : res Money :=
  let? micros := MicrosForUnits r units mode in NewMoney micros currency.

(** Reference semantics of the three rounding modes. *)
Definition ceil_div (a b : Z) : Z := - (- a / b).
Definition half_up_div (a b : Z) : Z := (2 * a + b) / (2 * b).

Definition rounded (mode : RoundingMode) (a b : Z) : option Z :=
  match mode with
  | RoundDown => Some (a / b)
  | RoundUp => Some (ceil_div a b)
  | RoundHalfUp => Some (half_up_div a b)
  | RoundOther _ => None
  end.

Lemma ceil_div_succ a b : 0 < b -> ceil_div a b = a / b + (if 0 <? a mod b then 1 else 0).
Proof.
  intros Hb. unfold ceil_div.
  pose proof (Z.mod_pos_bound a b Hb). pose proof (Z.div_mod a b ltac:(lia)).
  destruct (Z.ltb_spec 0 (a mod b)).
  - rewrite Z.div_opp_l_nz by lia. lia.
  - rewrite Z.div_opp_l_z by lia. lia.
Qed.

Lemma half_up_div_succ a b :
  0 < b -> half_up_div a b = a / b + (if b <=? 2 * (a mod b) then 1 else 0).
Proof.
  intros Hb. unfold half_up_div.
  pose proof (Z.mod_pos_bound a b Hb). pose proof (Z.div_mod a b ltac:(lia)).
  symmetry. destruct (Z.leb_spec b (2 * (a mod b))).
  - apply Z.div_unique with (r := 2 * (a mod b) - b); lia.
  - apply Z.div_unique with (r := 2 * (a mod b) + b); lia.
Qed.

Lemma ceil_div_mono a a' b : 0 < b -> a <= a' -> ceil_div a b <= ceil_div a' b.
Proof.
  intros Hb Ha. unfold ceil_div.
  pose proof (Z.div_le_mono (- a') (- a) b Hb ltac:(lia)). lia.
Qed.

Lemma ceil_div_bound a b : 0 < b -> a <= ceil_div a b * b < a + b.
Proof.
  intros Hb. unfold ceil_div.
  pose proof (Z.div_mod (- a) b ltac:(lia)). pose proof (Z.mod_pos_bound (- a) b Hb). lia.
Qed.

Lemma ceil_div_nonneg a b : 0 < b -> 0 <= a -> 0 <= ceil_div a b.
Proof. intros Hb Ha. pose proof (ceil_div_bound a b Hb). nia. Qed.

(** [MicrosForUnits] computes the reference rounding of units*num/den. *)
Lemma MicrosForUnits_exact r units mode :
  rate_wf r -> 0 <= units ->
  MicrosForUnits r units mode =
    match rounded mode (Num r * units) (Den r) with
    | None => Err (ESentinel ErrRoundingMode)
    | Some q => if is_int64 q then Ok q else Err (ESentinel ErrOverflow)
    end.
Proof.
  intros [Hn Hd] Hu. unfold MicrosForUnits.
  destruct (Z.ltb_spec units 0); [lia|].
  destruct (Z.leb_spec (Den r) 0); [lia|]. destruct (Z.ltb_spec (Num r) 0); [lia|]. simpl.
  assert (0 <= Num r * units) by nia.
  rewrite Z.quot_div_nonneg, Z.rem_mod_nonneg by lia.
  destruct mode; simpl; try done.
  - rewrite ceil_div_succ by lia. destruct (0 <? _); [done | by rewrite Z.add_0_r].
  - rewrite half_up_div_succ by lia.
    replace (Z.shiftl ((Num r * units) mod Den r) 1) with (2 * ((Num r * units) mod Den r))
      by (rewrite Z.shiftl_mul_pow2; lia).
    destruct (Den r <=? _); [done | by rewrite Z.add_0_r].
Qed.

Lemma MicrosForUnits_Ok r units mode m :
  MicrosForUnits r units mode = Ok m -> 0 <= units /\ 0 <= m <= max_int64.
Proof.
  unfold MicrosForUnits. intros H. inv_ok. bool_prop.
  assert (0 <= Num r * units) by nia.
  pose proof (Z.quot_pos (Num r * units) (Den r)) as Hq.
  destruct mode; simpl in E1; inv_ok; repeat case_match; inv_ok; i64.
Qed.

(** ** Decimal literals *)

Definition bytes := list ascii.

Definition byte_of (n : N) : ascii := ascii_of_N n.

(** The UTF-8 encodings [unicode.IsSpace] accepts, which [strings.TrimSpace]
    strips at both ends. *)
Definition space_encodings : list bytes :=
  map (map byte_of)
    ([[9]; [10]; [11]; [12]; [13]; [32]; [0xC2; 0x85]; [0xC2; 0xA0]; [0xE1; 0x9A; 0x80]]
     ++ map (fun b => [0xE2; 0x80; b])
          [0x80; 0x81; 0x82; 0x83; 0x84; 0x85; 0x86; 0x87; 0x88; 0x89; 0x8A; 0xA8; 0xA9; 0xAF]
     ++ [[0xE2; 0x81; 0x9F]; [0xE3; 0x80; 0x80]])%N.

Fixpoint strip_prefix (pre s : bytes) : option bytes :=
  match pre, s with
  | [], _ => Some s
  | p :: pre', c :: s' => if Ascii.eqb p c then strip_prefix pre' s' else None
  | _ :: _, [] => None
  end.

Fixpoint strip_any (encs : list bytes) (s : bytes) : option bytes :=
  match encs with
  | [] => None
  | e :: encs' => match strip_prefix e s with Some s' => Some s' | None => strip_any encs' s end
  end.

Fixpoint trim_fuel (fuel : nat) (encs : list bytes) (s : bytes) : bytes :=
  match fuel with
  | O => s
  | S f => match strip_any encs s with Some s' => trim_fuel f encs s' | None => s end
  end.

Definition TrimLeft (encs : list bytes) (s : bytes) : bytes := trim_fuel (length s) encs s.

(** [strings.TrimSpace]. *)
Definition TrimSpace (s : bytes) : bytes :=
  rev (TrimLeft (map (@rev ascii) space_encodings) (rev (TrimLeft space_encodings s))).

Definition is_dot (c : ascii) : bool := Ascii.eqb c "."%char.

(** [strings.IndexByte(s, '.')] and the two slices around it. *)
Fixpoint cut_dot (s : bytes) : option (bytes * bytes) :=
  match s with
  | [] => None
  | c :: s' => if is_dot c then Some ([], s')
               else match cut_dot s' with Some (a, b) => Some (c :: a, b) | None => None end
  end.

Definition digit_of (c : ascii) : option Z :=
  let n := Z.of_N (N_of_ascii c) in
  if (48 <=? n) && (n <=? 57) then Some (n - 48) else None.

Definition is_digit (c : ascii) : bool :=
  match digit_of c with Some _ => true | None => false end.

(** Value of a digit string, [big.Int.SetString(digits, 10)]. *)
Definition digits_value (s : bytes) : Z :=
  foldl (fun acc c => acc * 10 + match digit_of c with Some d => d | None => 0 end) 0 s.

(** The slices [s[:i]], [s[i+1:]] around the first point. *)
Definition split_dot (s : bytes) : bytes * bytes :=
  match cut_dot s with Some ab => ab | None => (s, []) end.

(** The checks and conversions of [ParseDecimal] on the two parts. *)
Definition parse_parts (intPart fracPart : bytes) : res Rate :=
  fail_if existsb is_dot fracPart with ESentinel ErrInvalidDecimal;
  fail_if bool_decide (intPart = [] /\ fracPart = []) with ESentinel ErrInvalidDecimal;
  let digits := intPart ++ fracPart in
  fail_if negb (forallb is_digit digits) with ESentinel ErrInvalidDecimal;
  let num := digits_value digits in
  let den := 10 ^ Z.of_nat (length fracPart) in
  fail_if negb (is_int64 num && is_int64 den) with ESentinel ErrOverflow;
  NewRate num den.

(** [ParseDecimal]. *)
Definition ParseDecimal (s : bytes) : res Rate :=
  let s := TrimSpace s in
  fail_if bool_decide (s = []) with ESentinel ErrInvalidDecimal;
  parse_parts (split_dot s).1 (split_dot s).2.

Lemma digit_of_range c d : digit_of c = Some d -> 0 <= d <= 9.
Proof. unfold digit_of. intros H. case_match; [|done]. injection H as <-. bool_prop. lia. Qed.

Definition digit_step (acc : Z) (c : ascii) : Z :=
  acc * 10 + match digit_of c with Some d => d | None => 0 end.

Lemma digits_value_step_nonneg s z : 0 <= z -> 0 <= foldl digit_step z s.
Proof.
  revert z. induction s as [|c s IH]; intros z Hz; simpl; [lia|].
  apply IH. unfold digit_step.
  destruct (digit_of c) as [d|] eqn:E; [apply digit_of_range in E|]; lia.
Qed.

Lemma digits_value_nonneg s : 0 <= digits_value s.
Proof. by apply digits_value_step_nonneg. Qed.

(** A byte that no encoding starts (or, reversed, ends) with is kept. *)
(** Printable and not a space. *)
Definition plain (c : ascii) : bool := (33 <=? N_of_ascii c)%N && (N_of_ascii c <=? 126)%N.

Lemma strip_any_plain encs c s :
  forallb (fun e => match e with [] => false | p :: _ => negb (plain p) end) encs = true ->
  plain c = true -> strip_any encs (c :: s) = None.
Proof.
  intros He Hc. induction encs as [|e encs IH]; [done|]. simpl in *.
  apply andb_true_iff in He as [He Hes]. destruct e as [|p e]; [done|]. simpl.
  destruct (Ascii.eqb_spec p c) as [->|]; [by rewrite Hc in He|]. by apply IH.
Qed.

Lemma TrimLeft_plain encs c s :
  forallb (fun e => match e with [] => false | p :: _ => negb (plain p) end) encs = true ->
  plain c = true -> TrimLeft encs (c :: s) = c :: s.
Proof. intros. unfold TrimLeft. cbn [length trim_fuel]. by rewrite strip_any_plain. Qed.

Lemma TrimSpace_plain s : forallb plain s = true -> TrimSpace s = s.
Proof.
  intros Hs. unfold TrimSpace.
  assert (TrimLeft space_encodings s = s) as ->.
  { destruct s as [|c s]; [done|]. simpl in Hs. apply andb_true_iff in Hs as [Hc _].
    by apply TrimLeft_plain. }
  assert (forallb plain (rev s) = true) as Hr.
  { apply forallb_forall. intros x Hx. apply in_rev in Hx.
    rewrite forallb_forall in Hs. auto. }
  destruct (rev s) as [|c r] eqn:E.
  - by apply (f_equal (@rev ascii)) in E; rewrite rev_involutive in E.
  - simpl in Hr. apply andb_true_iff in Hr as [Hc _].
    rewrite TrimLeft_plain by (done || by vm_compute). by rewrite <- E, rev_involutive.
Qed.

Lemma digit_not_dot c : is_digit c = true -> is_dot c = false.
Proof. unfold is_dot. destruct (Ascii.eqb_spec c "."%char) as [->|]; [|done]. discriminate. Qed.

Lemma cut_dot_digits a b :
  forallb is_digit a = true -> cut_dot (a ++ "."%char :: b) = Some (a, b).
Proof.
  induction a as [|c a IH]; simpl; [done|]. intros H.
  apply andb_true_iff in H as [Hc Ha]. by rewrite (digit_not_dot _ Hc), IH.
Qed.

Lemma digits_plain s : forallb is_digit s = true -> forallb plain s = true.
Proof.
  rewrite !forallb_forall. intros H x Hx. specialize (H x Hx). clear Hx. destruct x as [[] [] [] [] [] [] [] []]; try discriminate H; reflexivity.
Qed.

Lemma existsb_dot_digits s : forallb is_digit s = true -> existsb is_dot s = false.
Proof.
  induction s as [|c s IH]; simpl; [done|]. intros H.
  apply andb_true_iff in H as [Hc Hs]. by rewrite (digit_not_dot _ Hc), IH.
Qed.

(** Shape theorem of the decimal parser: integer digits, a point, fraction
    digits denote exactly (digits as a number) / 10^(fraction length). *)
Lemma ParseDecimal_digits a b :
  forallb is_digit a = true -> forallb is_digit b = true -> a ++ b <> [] ->
  ParseDecimal (a ++ "."%char :: b) =
    if is_int64 (digits_value (a ++ b)) && is_int64 (10 ^ Z.of_nat (length b))
    then Ok (mkRate (digits_value (a ++ b)) (10 ^ Z.of_nat (length b)))
    else Err (ESentinel ErrOverflow).
Proof.
  intros Ha Hb Hab. unfold ParseDecimal.
  rewrite TrimSpace_plain.
  2:{ rewrite forallb_app. simpl. by rewrite !digits_plain. }
  unfold split_dot. rewrite cut_dot_digits by done. simpl.
  rewrite bool_decide_eq_false_2 by (by destruct a).
  unfold parse_parts. rewrite existsb_dot_digits by done.
  rewrite bool_decide_eq_false_2 by (intros [-> ->]; done).
  rewrite forallb_app, Ha, Hb. simpl.
  pose proof (digits_value_nonneg (a ++ b)).
  assert (0 < 10 ^ Z.of_nat (length b)) by (apply Z.pow_pos_nonneg; lia).
  unfold NewRate. destruct (Z.leb_spec (10 ^ Z.of_nat (length b)) 0); [lia|].
  destruct (Z.ltb_spec (digits_value (a ++ b)) 0); [lia|]. by destruct (_ && _).
Qed.

Lemma ParseDecimal_wf s r : ParseDecimal s = Ok r -> rate_wf r.
Proof.
  unfold ParseDecimal, parse_parts, NewRate. intros H. inv_ok. bool_prop.
  unfold rate_wf. simpl. split; i64.
Qed.
