(* ===== verification/Calendar.v ===== *)
(** * Calendar: the part of Go's [time] package the quota windows use

    The proleptic Gregorian calendar on day numbers (day 0 is 1970-01-01),
    [time.Date] with its month and day normalisation, the civil fields of a
    UTC instant, [Time.Add], the saturating [Time.Sub] and [Time.AddDate].
    Instants are unbounded nanosecond counts; Go's own range (about 292
    billion years) is never reached by the callers. *)

From Stdlib Require Import ZArith Lia Bool.
From stdpp Require Import base list.
From S2P Require Import Prelude Domain.

Local Open Scope Z_scope.

Definition nanosecond : duration := 1.
Definition second : duration := 1000000000.
Definition minute : duration := 60 * second.
Definition hour : duration := 60 * minute.
Definition day_ns : Z := 24 * hour.

(** ** Day numbers *)

(** A day of the 400-year cycle starting on a first of March: year of era,
    month from March, day of month from 1. *)
Definition doe_of (yoe mp d : Z) : Z :=
  yoe * 365 + yoe / 4 - yoe / 100 + (153 * mp + 2) / 5 + d - 1.

(** The cycle is cut into centuries (the last one a day longer), four-year
    spans and years, as [Time.date] does. *)
Definition century_of (doe : Z) : Z := doe / 36524 - (doe / 36524) / 4.
Definition in_century (doe : Z) : Z := doe - 36524 * century_of doe.
Definition quad_of (doe : Z) : Z := in_century doe / 1461.
Definition in_quad (doe : Z) : Z := in_century doe - 1461 * quad_of doe.
Definition year_of_quad (doe : Z) : Z := in_quad doe / 365 - (in_quad doe / 365) / 4.
Definition yoe_of (doe : Z) : Z := 100 * century_of doe + 4 * quad_of doe + year_of_quad doe.
(** Day of the year, from the first of March. *)
Definition doy_of (doe : Z) : Z := in_quad doe - 365 * year_of_quad doe.
Definition mp_of (doe : Z) : Z := (5 * doy_of doe + 2) / 153.
Definition dom_of (doe : Z) : Z := doy_of doe - (153 * mp_of doe + 2) / 5 + 1.

(** Months counted from March of year 0: month index [12*y + mp]. *)
Definition march_index (y m : Z) : Z := 12 * y + m - 3.

(** Day number of day [d] (from 1, unchecked) of the month with March index
    [j]. *)
Definition month_day (j d : Z) : Z :=
  let y := j / 12 in
  (y / 400) * 146097 + doe_of (y mod 400) (j mod 12) d - 719468.

(** [daysSinceEpoch]-style day number of a civil date whose month is in
    1..12; the day may be any integer. *)
Definition days_from_civil (y m d : Z) : Z := month_day (march_index y m) d.

(** March index and day of month of a day number. *)
Definition month_of_days (n : Z) : Z :=
  let z := n + 719468 in
  12 * (400 * (z / 146097) + yoe_of (z mod 146097)) + mp_of (z mod 146097).
Definition day_of_days (n : Z) : Z := dom_of ((n + 719468) mod 146097).

(** ** Civil fields of an instant *)

Definition days_of (t : instant) : Z := t / day_ns.
(** Nanoseconds since midnight: hour, minute, second and nanosecond. *)
Definition clock_of (t : instant) : Z := t mod day_ns.

Definition Year (t : instant) : Z := (month_of_days (days_of t) + 2) / 12.
Definition Month (t : instant) : Z := (month_of_days (days_of t) + 2) mod 12 + 1.
Definition Day (t : instant) : Z := day_of_days (days_of t).
Definition Hour (t : instant) : Z := clock_of t / hour.
Definition Minute (t : instant) : Z := clock_of t mod hour / minute.
Definition Second (t : instant) : Z := clock_of t mod minute / second.
Definition Nanosecond (t : instant) : Z := clock_of t mod second.

(** [time.Date(year, month, day, hour, min, sec, nsec, time.UTC)]: months
    outside 1..12 carry into the year, every other field carries up. *)
Definition Date (year month day h mi s ns : Z) : instant :=
  let m := month - 1 in
  days_from_civil (year + m / 12) (m mod 12 + 1) day * day_ns
  + h * hour + mi * minute + s * second + ns.

(** [Time.Add]. *)
Definition time_add (t : instant) (d : duration) : instant := t + d.

(** [Time.Sub] saturates to the [Duration] range. *)
Definition time_sub (t u : instant) : duration :=
  Z.max min_int64 (Z.min max_int64 (t - u)).

(** The zero [time.Time]: 0001-01-01 00:00 UTC. *)
Definition zero_time : instant := Date 1 1 1 0 0 0 0.
Definition IsZero (t : instant) : bool := t =? zero_time.

(** [Time.AddDate(years, months, days)]. *)
Definition AddDate (t : instant) (years months days : Z) : instant :=
  Date (Year t + years) (Month t + months) (Day t + days)
    (Hour t) (Minute t) (Second t) (Nanosecond t).

(** ** The 400-year cycle, by computation *)

(** Length of the month [mp] (from March) of year-of-era [yoe]. *)
Definition cycle_month_len (yoe mp : Z) : Z :=
  if mp =? 11 then
    (if (((yoe + 1) mod 4 =? 0) && negb ((yoe + 1) mod 100 =? 0)) || ((yoe + 1) mod 400 =? 0)
     then 29 else 28)
  else (153 * (mp + 1) + 2) / 5 - (153 * mp + 2) / 5.

Fixpoint all_below (n : nat) (p : Z -> bool) (i : Z) : bool :=
  match n with O => true | S n' => p i && all_below n' p (i + 1) end.

Lemma all_below_spec n p i :
  all_below n p i = true -> forall z, i <= z < i + Z.of_nat n -> p z = true.
Proof.
  revert i. induction n as [|n IH]; intros i H z Hz; [lia|].
  simpl in H. apply andb_true_iff in H as [Hi H].
  destruct (Z.eq_dec z i) as [->|]; [done|]. eapply IH; [exact H|lia].
Qed.

(** The three cuts: bounds, recomposition, and when a year has its 366th
    day. *)
Lemma cycle_cuts doe :
  0 <= doe < 146097 ->
  0 <= century_of doe <= 3 /\ 0 <= quad_of doe <= 24 /\ 0 <= year_of_quad doe <= 3 /\
  0 <= doy_of doe <= 365 /\
  doe = 36524 * century_of doe + 1461 * quad_of doe + 365 * year_of_quad doe + doy_of doe /\
  (doy_of doe = 365 -> year_of_quad doe = 3 /\ (quad_of doe = 24 -> century_of doe = 3)).
Proof.
  intros H. unfold doy_of.
  assert (0 <= century_of doe <= 3 /\ 0 <= in_century doe <= 36524
          /\ (in_century doe = 36524 -> century_of doe = 3)) as (Hc & Hr1 & Hr1').
  { unfold in_century, century_of. pose proof (Z.div_mod doe 36524 ltac:(lia)).
    pose proof (Z.mod_pos_bound doe 36524 ltac:(lia)).
    pose proof (Z.div_mod (doe / 36524) 4 ltac:(lia)).
    pose proof (Z.mod_pos_bound (doe / 36524) 4 ltac:(lia)). lia. }
  assert (doe = 36524 * century_of doe + in_century doe) as Ed by (unfold in_century; lia).
  assert (0 <= quad_of doe <= 24 /\ 0 <= in_quad doe <= 1460
          /\ in_century doe = 1461 * quad_of doe + in_quad doe) as (Hq & Hr2 & E1).
  { unfold in_quad, quad_of. pose proof (Z.div_mod (in_century doe) 1461 ltac:(lia)).
    pose proof (Z.mod_pos_bound (in_century doe) 1461 ltac:(lia)). lia. }
  assert (0 <= year_of_quad doe <= 3 /\ 0 <= in_quad doe - 365 * year_of_quad doe <= 365
          /\ (in_quad doe - 365 * year_of_quad doe = 365 -> in_quad doe = 1460))
    as (Hn & Hdoy & Hlast).
  { unfold year_of_quad. pose proof (Z.div_mod (in_quad doe) 365 ltac:(lia)).
    pose proof (Z.mod_pos_bound (in_quad doe) 365 ltac:(lia)).
    pose proof (Z.div_mod (in_quad doe / 365) 4 ltac:(lia)).
    pose proof (Z.mod_pos_bound (in_quad doe / 365) 4 ltac:(lia)). lia. }
  repeat split; lia.
Qed.

Definition doy_ok (doy : Z) : bool :=
  let m := (5 * doy + 2) / 153 in let d := doy - (153 * m + 2) / 5 + 1 in
  (0 <=? m) && (m <? 12) && (1 <=? d) &&
  (if m =? 11 then d <=? (if doy =? 365 then 29 else 28)
   else d <=? (153 * (m + 1) + 2) / 5 - (153 * m + 2) / 5).

Lemma doys_ok doy : 0 <= doy <= 365 -> doy_ok doy = true.
Proof.
  intros H. apply (all_below_spec 366 doy_ok 0); [vm_compute; reflexivity|lia].
Qed.

Lemma cycle_days_ok doe :
  0 <= doe < 146097 ->
  0 <= yoe_of doe < 400 /\ 0 <= mp_of doe < 12 /\
  1 <= dom_of doe <= cycle_month_len (yoe_of doe) (mp_of doe) /\
  doe_of (yoe_of doe) (mp_of doe) (dom_of doe) = doe.
Proof.
  intros H. destruct (cycle_cuts doe H) as (Hc & Hq & Hn & Hdoy & Ed & Hleap).
  pose proof (doys_ok (doy_of doe) Hdoy) as Hk. unfold doy_ok in Hk.
  fold (mp_of doe) in Hk. unfold dom_of, yoe_of, doe_of, cycle_month_len.
  set (c := century_of doe) in *. set (q := quad_of doe) in *. set (n := year_of_quad doe) in *.
  set (doy := doy_of doe) in *. set (m := mp_of doe) in *.
  assert ((100 * c + 4 * q + n) / 4 = 25 * c + q) as H4
    by (symmetry; apply Z.div_unique with (r := n); lia).
  assert ((100 * c + 4 * q + n) / 100 = c) as H100
    by (symmetry; apply Z.div_unique with (r := 4 * q + n); lia).
  apply andb_true_iff in Hk as [Hk Hlen]. bool_prop.
  repeat split; try lia.
  destruct (Z.eqb_spec m 11) as [->|]; bool_prop; [|lia].
  destruct (Z.eqb_spec doy 365) as [E365|]; [|case_match; lia].
  destruct (Hleap E365) as [-> Hq24].
  assert (((100 * c + 4 * q + 3 + 1) mod 4 =? 0) && negb ((100 * c + 4 * q + 3 + 1) mod 100 =? 0)
          || ((100 * c + 4 * q + 3 + 1) mod 400 =? 0) = true) as ->; [|lia].
  apply orb_true_iff. destruct (Z.eq_dec q 24) as [->|Hq'].
  - right. rewrite (Hq24 eq_refl). reflexivity.
  - left. apply andb_true_iff. split; [apply Z.eqb_eq|apply negb_true_iff, Z.eqb_neq].
    + symmetry. apply Z.mod_unique with (q := 25 * c + q + 1); lia.
    + replace (100 * c + 4 * q + 3 + 1) with (4 * q + 4 + c * 100) by lia.
      rewrite Z.mod_add, Z.mod_small by lia. lia.
Qed.

(** Consecutive months of the cycle are adjacent, and the last one ends the
    cycle. *)
Definition cycle_next_ok (k : Z) : bool :=
  let y := k / 12 in let m := k mod 12 in
  (1 <=? cycle_month_len y m) && (cycle_month_len y m <=? 31) && (0 <=? doe_of y m 1) &&
  (doe_of y m 1 + cycle_month_len y m =?
     (if k =? 4799 then 146097 else doe_of ((k + 1) / 12) ((k + 1) mod 12) 1)).

Lemma cycle_months_ok k : 0 <= k < 4800 -> cycle_next_ok k = true.
Proof.
  intros H. apply (all_below_spec (Z.to_nat 4800) cycle_next_ok 0).
  - vm_compute. reflexivity.
  - rewrite Z2Nat.id; lia.
Qed.

(** ** Months on the day line *)

(** Number of days of the month with March index [j]. *)
Definition month_len (j : Z) : Z := cycle_month_len ((j / 12) mod 400) (j mod 12).

Lemma month_day_succ j d : month_day j (d + 1) = month_day j d + 1.
Proof. unfold month_day, doe_of. lia. Qed.

Lemma month_day_shift j d e : month_day j d = month_day j e + (d - e).
Proof. unfold month_day, doe_of. lia. Qed.

Lemma month_index_split j :
  j = 4800 * (j / 4800) + j mod 4800 /\ (j / 12) / 400 = j / 4800 /\
  (j / 12) mod 400 = (j mod 4800) / 12 /\ j mod 12 = (j mod 4800) mod 12.
Proof.
  assert (j = 4800 * (j / 4800) + j mod 4800) as Hj by (apply Z.div_mod; lia).
  pose proof (Z.mod_pos_bound j 4800 ltac:(lia)).
  assert (j / 12 = 400 * (j / 4800) + (j mod 4800) / 12) as H12.
  { rewrite Hj at 1. replace (4800 * (j / 4800) + j mod 4800)
      with (j mod 4800 + (400 * (j / 4800)) * 12) by lia.
    rewrite Z.div_add by lia. lia. }
  assert (0 <= (j mod 4800) / 12 < 400) by (split; [apply Z.div_pos|apply Z.div_lt_upper_bound]; lia).
  repeat split; [done| | |].
  - rewrite H12. symmetry. apply Z.div_unique with (r := (j mod 4800) / 12); lia.
  - rewrite H12. symmetry. apply Z.mod_unique with (q := j / 4800); lia.
  - rewrite Hj at 1. replace (4800 * (j / 4800) + j mod 4800)
      with (j mod 4800 + (400 * (j / 4800)) * 12) by lia.
    by rewrite Z.mod_add by lia.
Qed.

Lemma month_day_cycle j d :
  month_day j d = (j / 4800) * 146097 + doe_of ((j mod 4800) / 12) ((j mod 4800) mod 12) d - 719468.
Proof.
  destruct (month_index_split j) as (_ & H1 & H2 & H3).
  unfold month_day. by rewrite H1, H2, H3.
Qed.

Lemma month_len_cycle j :
  month_len j = cycle_month_len ((j mod 4800) / 12) ((j mod 4800) mod 12).
Proof. destruct (month_index_split j) as (_ & _ & H2 & H3). unfold month_len. by rewrite H2, H3. Qed.

(** The key fact: a month ends where the next one begins. *)
Lemma month_day_next j : month_day (j + 1) 1 = month_day j 1 + month_len j.
Proof.
  rewrite !month_day_cycle, month_len_cycle.
  pose proof (Z.mod_pos_bound j 4800 ltac:(lia)) as Hb.
  pose proof (cycle_months_ok (j mod 4800) Hb) as Hk.
  unfold cycle_next_ok in Hk. bool_prop. rename H0 into Hsum.
  assert (j = 4800 * (j / 4800) + j mod 4800) as Hj by (apply Z.div_mod; lia).
  destruct (Z.eqb_spec (j mod 4800) 4799) as [Hlast|Hlast].
  - assert ((j + 1) / 4800 = j / 4800 + 1) as ->
      by (symmetry; apply Z.div_unique with (r := 0); lia).
    assert ((j + 1) mod 4800 = 0) as ->
      by (symmetry; apply Z.mod_unique with (q := j / 4800 + 1); lia).
    change (doe_of (0 / 12) (0 mod 12) 1) with 0. lia.
  - assert ((j + 1) / 4800 = j / 4800) as ->
      by (symmetry; apply Z.div_unique with (r := j mod 4800 + 1); lia).
    assert ((j + 1) mod 4800 = j mod 4800 + 1) as ->
      by (symmetry; apply Z.mod_unique with (q := j / 4800); lia).
    lia.
Qed.

Lemma month_len_bounds j : 1 <= month_len j <= 31.
Proof.
  rewrite month_len_cycle. pose proof (Z.mod_pos_bound j 4800 ltac:(lia)) as Hb.
  pose proof (cycle_months_ok (j mod 4800) Hb) as Hk.
  unfold cycle_next_ok in Hk. bool_prop. lia.
Qed.

(** Month starts are strictly increasing in the month index. *)
Lemma month_day_lt i j : i < j -> month_day i 1 + month_len i <= month_day j 1.
Proof.
  intros Hij.
  assert (forall n : nat, month_day i 1 + month_len i <= month_day (i + 1 + Z.of_nat n) 1) as H.
  { induction n as [|n IH].
    - rewrite Z.add_0_r, month_day_next. lia.
    - replace (i + 1 + Z.of_nat (S n)) with (i + 1 + Z.of_nat n + 1) by lia.
      rewrite month_day_next. pose proof (month_len_bounds (i + 1 + Z.of_nat n)). lia. }
  specialize (H (Z.to_nat (j - i - 1))). by replace (i + 1 + Z.of_nat (Z.to_nat (j - i - 1))) with j in H by lia.
Qed.

(** Every day number is a day of its month. *)
Lemma days_decompose n :
  1 <= day_of_days n <= month_len (month_of_days n) /\
  month_day (month_of_days n) (day_of_days n) = n.
Proof.
  unfold day_of_days, month_of_days. set (z := n + 719468).
  pose proof (Z.mod_pos_bound z 146097 ltac:(lia)) as Hb.
  destruct (cycle_days_ok (z mod 146097) Hb) as (? & ? & ? & ?).
  set (y := yoe_of (z mod 146097)) in *. set (m := mp_of (z mod 146097)) in *.
  set (d := dom_of (z mod 146097)) in *.
  assert ((12 * (400 * (z / 146097) + y) + m) / 12 = 400 * (z / 146097) + y) as Hd
    by (symmetry; apply Z.div_unique with (r := m); lia).
  assert ((12 * (400 * (z / 146097) + y) + m) mod 12 = m) as Hm
    by (symmetry; apply Z.mod_unique with (q := 400 * (z / 146097) + y); lia).
  assert ((400 * (z / 146097) + y) mod 400 = y) as Hy
    by (symmetry; apply Z.mod_unique with (q := z / 146097); lia).
  assert ((400 * (z / 146097) + y) / 400 = z / 146097) as Hc
    by (symmetry; apply Z.div_unique with (r := y); lia).
  unfold month_len, month_day. rewrite Hd, Hm, Hy, Hc. split; [lia|].
  pose proof (Z.div_mod z 146097 ltac:(lia)). subst z. lia.
Qed.

(** Uniqueness of the decomposition. *)
Lemma month_of_month_day j d :
  1 <= d <= month_len j ->
  month_of_days (month_day j d) = j /\ day_of_days (month_day j d) = d.
Proof.
  intros Hd. destruct (days_decompose (month_day j d)) as [Hr He].
  set (j' := month_of_days (month_day j d)) in *. set (d' := day_of_days (month_day j d)) in *.
  rewrite (month_day_shift j' d' 1), (month_day_shift j d 1) in He.
  destruct (Z.lt_trichotomy j j') as [H|[<-|H]].
  - pose proof (month_day_lt j j' H). lia.
  - split; [done|lia].
  - pose proof (month_day_lt j' j H). lia.
Qed.

(** ** Instants *)

Lemma day_ns_pos : 0 < day_ns.
Proof. reflexivity. Qed.

Lemma instant_split t : t = days_of t * day_ns + clock_of t /\ 0 <= clock_of t < day_ns.
Proof.
  unfold days_of, clock_of. pose proof (Z.div_mod t day_ns). pose proof (Z.mod_pos_bound t day_ns).
  pose proof day_ns_pos. lia.
Qed.

Lemma days_of_eq n c : 0 <= c < day_ns -> days_of (n * day_ns + c) = n.
Proof. intros. unfold days_of. symmetry. apply Z.div_unique with (r := c); lia. Qed.

Lemma clock_of_eq n c : 0 <= c < day_ns -> clock_of (n * day_ns + c) = c.
Proof. intros. unfold clock_of. symmetry. apply Z.mod_unique with (q := n); lia. Qed.

(** The time-of-day fields recompose the clock. *)
Lemma clock_fields t :
  Hour t * hour + Minute t * minute + Second t * second + Nanosecond t = clock_of t.
Proof.
  unfold Hour, Minute, Second, Nanosecond.
  pose proof (proj2 (instant_split t)) as Hc. set (c := clock_of t) in *. clearbody c.
  unfold hour, minute, second in *. change (60 * (60 * 1000000000)) with 3600000000000.
  change (60 * 1000000000) with 60000000000.
  pose proof (Z.div_mod c 3600000000000 ltac:(lia)).
  pose proof (Z.div_mod (c mod 3600000000000) 60000000000 ltac:(lia)).
  pose proof (Z.div_mod (c mod 60000000000) 1000000000 ltac:(lia)).
  assert ((c mod 3600000000000) mod 60000000000 = c mod 60000000000).
  { change 3600000000000 with (60000000000 * 60). rewrite Z.rem_mul_r by lia.
    rewrite (Z.mul_comm 60000000000 ((c / 60000000000) mod 60)), Z.mod_add by lia.
    by rewrite Z.mod_mod by lia. }
  assert ((c mod 60000000000) mod 1000000000 = c mod 1000000000).
  { change 60000000000 with (1000000000 * 60). rewrite Z.rem_mul_r by lia.
    rewrite (Z.mul_comm 1000000000 ((c / 1000000000) mod 60)), Z.mod_add by lia.
    by rewrite Z.mod_mod by lia. }
  lia.
Qed.

(** Month index of an instant, counted from January of year 0. *)
Definition month_index (t : instant) : Z := 12 * Year t + Month t - 1.

Lemma month_index_of t : month_index t = month_of_days (days_of t) + 2.
Proof.
  unfold month_index, Year, Month.
  pose proof (Z.div_mod (month_of_days (days_of t) + 2) 12 ltac:(lia)). lia.
Qed.

Lemma Month_range t : 1 <= Month t <= 12.
Proof. unfold Month. pose proof (Z.mod_pos_bound (month_of_days (days_of t) + 2) 12). lia. Qed.

(** [Date] on a month index and any day: the carry of the month never
    matters. *)
Lemma Date_month y m d h mi s ns :
  Date y m d h mi s ns =
  month_day (12 * y + m - 3) d * day_ns + (h * hour + mi * minute + s * second + ns).
Proof.
  unfold Date, days_from_civil, march_index.
  pose proof (Z.div_mod (m - 1) 12 ltac:(lia)).
  replace (12 * (y + (m - 1) / 12) + ((m - 1) mod 12 + 1) - 3) with (12 * y + m - 3) by lia.
  lia.
Qed.
