(* ===== verification/Window.v ===== *)
(** * Window: the three quota windows

    [internal/inference/quota/window.go]: half-open intervals, month shifting
    with the anchor day clamped, anchored monthly and weekly periods, the
    five-hour window, the interval a consumption binds to, and the read view
    that never activates a window. *)

From Stdlib Require Import ZArith Lia Bool.
From stdpp Require Import base strings list.
From S2P Require Import Prelude Domain Calendar.

Local Open Scope Z_scope.
Local Open Scope go_scope.

Definition FiveHourDuration : duration := 5 * hour.
Definition WeeklyDuration : duration := 7 * 24 * hour.

Definition ErrBeforeAnchor : error := NewError CodeInvalidInput.

Record Interval := mkInterval { iv_Start : instant; iv_End : instant }.

(** [Interval.Contains]: t in [Start, End). *)
Definition Contains (iv : Interval) (t : instant) : bool :=
  negb (t <? iv_Start iv) && (t <? iv_End iv).

(** ** Months *)

(** Go's [/] and [%] truncate. *)
Definition floorDiv (a b : Z) : Z :=
  let q := Z.quot a b in
  if negb (Z.rem a b =? 0) && negb (Bool.eqb (a <? 0) (b <? 0)) then q - 1 else q.

Definition floorMod (a b : Z) : Z := a - floorDiv a b * b.

(** Day 0 of the next month is the last day of this one. *)
Definition daysIn (year month : Z) : Z := Day (Date year (month + 1) 0 0 0 0 0).

Definition AddMonthsClamped (anchor : instant) (months : Z) : instant :=
  let a := anchor in
  let total := Month a - 1 + months in
  let year := Year a + floorDiv total 12 in
  let month := floorMod total 12 + 1 in
  let day := Z.min (Day a) (daysIn year month) in
  Date year month day (Hour a) (Minute a) (Second a) (Nanosecond a).

Definition MonthlyInterval (anchor : instant) (k : Z) : res Interval :=
  fail_if k <? 0 with NewError CodeInvalidInput;
  Ok (mkInterval (AddMonthsClamped anchor k) (AddMonthsClamped anchor (k + 1))).

Definition MonthlyWindowAt (anchor at_ : instant) : res (Interval * Z) :=
  fail_if at_ <? anchor with ErrBeforeAnchor;
  let k := (Year at_ - Year anchor) * 12 + Month at_ - Month anchor in
  let k := if at_ <? AddMonthsClamped anchor k then k - 1 else k in
  fail_if k <? 0 with ErrBeforeAnchor;
  let? iv := MonthlyInterval anchor k in
  Ok (iv, k).

(** ** Weeks and the five-hour window *)

Definition WeeklyInterval (anchor : instant) (n : Z) : res Interval :=
  fail_if n <? 0 with NewError CodeInvalidInput;
  let start := time_add anchor (mul64 n WeeklyDuration) in
  Ok (mkInterval start (time_add start WeeklyDuration)).

Definition WeeklyWindowAt (anchor at_ : instant) : res (Interval * Z) :=
  fail_if at_ <? anchor with ErrBeforeAnchor;
  let n := Z.quot (time_sub at_ anchor) WeeklyDuration in
  let? iv := WeeklyInterval anchor n in
  Ok (iv, n).

Definition FiveHourInterval (t : instant) : Interval :=
  mkInterval t (time_add t FiveHourDuration).

(** ** Binding a consumption *)

Definition interval_of (w : QuotaWindow) : Interval := mkInterval (w_Start w) (w_End w).

(** The live row test shared by consumption, admission and reads. *)
Definition live_row (kind : WindowKind) (t : instant) (w : QuotaWindow) : bool :=
  bool_decide (w_Kind w = kind) && negb (w_Voided w) && Contains (interval_of w) t.

Definition hasWindowStartingAt (active : list QuotaWindow) (kind : WindowKind) (start : instant)
  : bool :=
  existsb (fun w => bool_decide (w_Kind w = kind) && negb (w_Voided w) && (w_Start w =? start)) active.

(** [ConsumptionWindow]: the interval and whether a new row must be
    persisted. *)
Definition ConsumptionWindow (kind : WindowKind) (anchor : instant) (active : list QuotaWindow)
    (at_ : instant) : res (Interval * bool) :=
  match kind with
  | WindowFiveHour =>
      match List.find (live_row kind at_) active with
      | Some w => Ok (interval_of w, false)
      | None => Ok (FiveHourInterval at_, true)
      end
  | WindowWeekly =>
      let? (iv, _) := WeeklyWindowAt anchor at_ in
      Ok (iv, negb (hasWindowStartingAt active kind (iv_Start iv)))
  | WindowMonthly =>
      let? (iv, _) := MonthlyWindowAt anchor at_ in
      Ok (iv, negb (hasWindowStartingAt active kind (iv_Start iv)))
  end.

(** ** The read view *)

Record WindowView := mkView {
  v_Kind : WindowKind;
  v_Disabled : bool;
  v_Limit : option Microcredit;
  v_Used : Microcredit;
  v_Reserved : Microcredit;
  v_WindowStart : option instant;
  v_ResetsAt : option instant;
  (** [Activation = on_first_consumption]. *)
  v_OnFirstConsumption : bool;
}.

(** [ReadWindow]. *)
Definition ReadWindow (kind : WindowKind) (anchor : instant) (limit : option Microcredit)
    (active : list QuotaWindow) (at_ : instant) : res WindowView :=
  match limit with
  | None => Ok (mkView kind true None 0 0 None None false)
  | Some _ =>
      match kind with
      | WindowFiveHour =>
          match List.find (live_row kind at_) active with
          | Some w => Ok (mkView kind false limit (w_Used w) (w_Reserved w)
                            (Some (w_Start w)) (Some (w_End w)) false)
          | None => Ok (mkView kind false limit 0 0 None None true)
          end
      | WindowWeekly | WindowMonthly =>
          let? (iv, _) := (if bool_decide (kind = WindowWeekly)
                            then WeeklyWindowAt anchor at_ else MonthlyWindowAt anchor at_) in
          match List.find (fun w => bool_decide (w_Kind w = kind) && negb (w_Voided w)
                                    && (w_Start w =? iv_Start iv)) active with
          | Some w => Ok (mkView kind false limit (w_Used w) (w_Reserved w)
                            (Some (iv_Start iv)) (Some (iv_End iv)) false)
          | None => Ok (mkView kind false limit 0 0 (Some (iv_Start iv)) (Some (iv_End iv)) false)
          end
      end
  end.

(** ** Lemmas *)

Lemma Contains_spec iv t : Contains iv t = true <-> iv_Start iv <= t < iv_End iv.
Proof.
  unfold Contains. rewrite andb_true_iff, negb_true_iff, Z.ltb_ge, Z.ltb_lt. lia.
Qed.

(** The code's floor division is mathematical floor division. *)
Lemma floorDiv_div a b : 0 < b -> floorDiv a b = a / b.
Proof.
  intros Hb. unfold floorDiv. rewrite (proj2 (Z.ltb_ge b 0)) by lia.
  pose proof (Z.quot_rem a b ltac:(lia)) as Hqr.
  destruct (Z.ltb_spec a 0) as [Ha|Ha]; simpl.
  - pose proof (Z.rem_nonpos a b ltac:(lia) ltac:(lia)). pose proof (Z.rem_bound_abs a b ltac:(lia)).
    destruct (Z.eqb_spec (Z.rem a b) 0); simpl.
    + apply Z.div_unique with (r := 0); lia.
    + apply Z.div_unique with (r := Z.rem a b + b); lia.
  - pose proof (Z.rem_bound_pos a b ltac:(lia) ltac:(lia)).
    destruct (Z.eqb_spec (Z.rem a b) 0); simpl; apply Z.div_unique with (r := Z.rem a b); lia.
Qed.

Lemma floorMod_mod a b : 0 < b -> floorMod a b = a mod b.
Proof. intros Hb. unfold floorMod. rewrite floorDiv_div by done. pose proof (Z.div_mod a b). lia. Qed.

(** [daysIn] is the length of the month, whatever month number it is given. *)
Lemma daysIn_len y m : daysIn y m = month_len (12 * y + m - 3).
Proof.
  unfold daysIn, Day. rewrite Date_month.
  replace (0 * hour + 0 * minute + 0 * second + 0) with 0 by lia.
  rewrite days_of_eq by (pose proof day_ns_pos; lia).
  replace (12 * y + (m + 1) - 3) with (12 * y + m - 3 + 1) by lia.
  rewrite (month_day_shift _ 0 1), month_day_next.
  replace (month_day (12 * y + m - 3) 1 + month_len (12 * y + m - 3) + (0 - 1))
    with (month_day (12 * y + m - 3) (month_len (12 * y + m - 3)))
    by (rewrite (month_day_shift _ (month_len _) 1); lia).
  apply month_of_month_day. pose proof (month_len_bounds (12 * y + m - 3)). lia.
Qed.

(** Closed form of the shifted anchor: day number of the clamped anchor day
    in the target month, at the anchor's time of day. *)
Definition shifted_day (a : instant) (k : Z) : Z :=
  Z.min (Day a) (month_len (month_index a + k - 2)).

Lemma AddMonthsClamped_eq a k :
  AddMonthsClamped a k =
  month_day (month_index a + k - 2) (shifted_day a k) * day_ns + clock_of a.
Proof.
  unfold AddMonthsClamped. rewrite floorDiv_div, floorMod_mod by lia.
  rewrite Date_month, daysIn_len, clock_fields. unfold shifted_day, month_index.
  pose proof (Z.div_mod (Month a - 1 + k) 12 ltac:(lia)).
  replace (12 * (Year a + (Month a - 1 + k) / 12) + ((Month a - 1 + k) mod 12 + 1) - 3)
    with (12 * Year a + Month a - 1 + k - 2) by lia.
  done.
Qed.

Lemma Day_range t : 1 <= Day t <= month_len (month_index t - 2).
Proof.
  rewrite month_index_of. unfold Day. destruct (days_decompose (days_of t)) as [H _].
  by replace (month_of_days (days_of t) + 2 - 2) with (month_of_days (days_of t)) by lia.
Qed.

Lemma shifted_day_range a k : 1 <= shifted_day a k <= month_len (month_index a + k - 2).
Proof.
  unfold shifted_day. pose proof (Day_range a). pose proof (month_len_bounds (month_index a + k - 2)).
  lia.
Qed.

(** An instant on the day line, through its own month. *)
Lemma instant_month t :
  t = month_day (month_index t - 2) (Day t) * day_ns + clock_of t.
Proof.
  rewrite month_index_of. unfold Day.
  replace (month_of_days (days_of t) + 2 - 2) with (month_of_days (days_of t)) by lia.
  rewrite (proj2 (days_decompose (days_of t))). apply instant_split.
Qed.

Lemma AddMonthsClamped_0 a : AddMonthsClamped a 0 = a.
Proof.
  rewrite AddMonthsClamped_eq, Z.add_0_r. unfold shifted_day. rewrite Z.add_0_r.
  pose proof (Day_range a). rewrite Z.min_l by lia. symmetry. apply instant_month.
Qed.

(** Comparing two instants whose months are ordered. *)
Lemma month_day_ord i j d e c c' :
  i < j -> 1 <= d <= month_len i -> 1 <= e -> 0 <= c < day_ns -> 0 <= c' ->
  month_day i d * day_ns + c < month_day j e * day_ns + c'.
Proof.
  intros Hij Hd He Hc Hc'. pose proof (month_day_lt i j Hij).
  rewrite (month_day_shift i d 1), (month_day_shift j e 1). nia.
Qed.

(** Shifted anchors are strictly increasing in the month count. *)
Lemma AddMonthsClamped_mono a k k' : k < k' -> AddMonthsClamped a k < AddMonthsClamped a k'.
Proof.
  intros Hk. rewrite !AddMonthsClamped_eq. destruct (instant_split a) as [_ Hc].
  pose proof (shifted_day_range a k). pose proof (shifted_day_range a k').
  apply month_day_ord; lia.
Qed.

(** A shifted anchor lies in the month it names. *)
Lemma AddMonthsClamped_month_lt a t k :
  month_index a + k < month_index t -> AddMonthsClamped a k < t.
Proof.
  intros Hk. rewrite AddMonthsClamped_eq. destruct (instant_split a) as [_ Hc].
  destruct (instant_split t) as [_ Hct]. rewrite (instant_month t) at 1.
  pose proof (shifted_day_range a k). pose proof (Day_range t). apply month_day_ord; lia.
Qed.

Lemma AddMonthsClamped_month_gt a t k :
  month_index t < month_index a + k -> t < AddMonthsClamped a k.
Proof.
  intros Hk. rewrite AddMonthsClamped_eq. destruct (instant_split a) as [_ Hc].
  destruct (instant_split t) as [_ Hct]. rewrite (instant_month t) at 1.
  pose proof (shifted_day_range a k). pose proof (Day_range t). apply month_day_ord; lia.
Qed.

Lemma month_index_mono a t : a <= t -> month_index a <= month_index t.
Proof.
  intros Hat. destruct (Z_lt_le_dec (month_index t) (month_index a)) as [H|]; [|done].
  pose proof (AddMonthsClamped_month_gt a t 0 ltac:(lia)) as Hlt.
  rewrite AddMonthsClamped_0 in Hlt. lia.
Qed.

(** The monthly period of [at_]: found whenever [at_] is not before the
    anchor, and it contains [at_]. *)
Lemma MonthlyWindowAt_contains a t :
  a <= t ->
  exists k, MonthlyWindowAt a t = Ok (mkInterval (AddMonthsClamped a k) (AddMonthsClamped a (k + 1)), k)
            /\ 0 <= k /\ AddMonthsClamped a k <= t < AddMonthsClamped a (k + 1).
Proof.
  intros Hat. unfold MonthlyWindowAt. destruct (Z.ltb_spec t a) as [|_]; [lia|].
  set (k := (Year t - Year a) * 12 + Month t - Month a).
  assert (month_index a + k = month_index t) as Hk by (unfold month_index; lia).
  pose proof (month_index_mono a t Hat).
  destruct (Z.ltb_spec t (AddMonthsClamped a k)) as [Hlt|Hge].
  - assert (k <> 0) by (intros E; rewrite E, AddMonthsClamped_0 in Hlt; lia).
    destruct (Z.ltb_spec (k - 1) 0); [lia|]. exists (k - 1). unfold MonthlyInterval.
    destruct (Z.ltb_spec (k - 1) 0); [lia|]. simpl.
    replace (k - 1 + 1) with k by lia. repeat split; [lia| |done].
    pose proof (AddMonthsClamped_month_lt a t (k - 1)). lia.
  - destruct (Z.ltb_spec k 0); [lia|]. exists k. unfold MonthlyInterval.
    destruct (Z.ltb_spec k 0); [lia|]. simpl. repeat split; [lia|done|].
    apply AddMonthsClamped_month_gt. lia.
Qed.

Lemma MonthlyWindowAt_before a t : t < a -> MonthlyWindowAt a t = Err ErrBeforeAnchor.
Proof. intros H. unfold MonthlyWindowAt. by destruct (Z.ltb_spec t a); [|lia]. Qed.

(** Weeks. The saturating [Time.Sub] makes the index stop at 15250 weeks
    (about 292 years) after the anchor. *)
Definition max_weeks : Z := max_int64 / WeeklyDuration.

Lemma WeeklyWindowAt_eq a t :
  a <= t ->
  let n := Z.min max_int64 (t - a) / WeeklyDuration in
  WeeklyWindowAt a t =
    Ok (mkInterval (a + n * WeeklyDuration) (a + n * WeeklyDuration + WeeklyDuration), n).
Proof.
  intros Hat n. unfold WeeklyWindowAt, time_sub, WeeklyInterval, time_add, mul64.
  destruct (Z.ltb_spec t a); [lia|].
  replace (Z.max min_int64 (Z.min max_int64 (t - a))) with (Z.min max_int64 (t - a)) by i64.
  rewrite Z.quot_div_nonneg by (i64 || done). fold n.
  assert (0 <= n) by (apply Z.div_pos; [i64|done]).
  assert (n * WeeklyDuration <= max_int64).
  { pose proof (Z.mul_div_le (Z.min max_int64 (t - a)) WeeklyDuration ltac:(done)). subst n. lia. }
  destruct (Z.ltb_spec n 0); [lia|]. simpl. rewrite wrap64_id; [done|].
  assert (0 < WeeklyDuration) by done. unfold in_int64, min_int64 in *. nia.
Qed.

Lemma WeeklyWindowAt_contains a t iv n :
  a <= t -> WeeklyWindowAt a t = Ok (iv, n) ->
  (Contains iv t = true <-> t - a < (max_weeks + 1) * WeeklyDuration).
Proof.
  intros Hat H. rewrite WeeklyWindowAt_eq in H by done.
  set (n' := Z.min max_int64 (t - a) / WeeklyDuration) in *.
  injection H as <- <-. rewrite Contains_spec. simpl.
  assert (0 < WeeklyDuration) as HW by done.
  pose proof (Z.div_mod (Z.min max_int64 (t - a)) WeeklyDuration ltac:(lia)) as Hdm.
  pose proof (Z.mod_pos_bound (Z.min max_int64 (t - a)) WeeklyDuration HW) as Hmb.
  fold n' in Hdm. destruct (Z.le_gt_cases (t - a) max_int64) as [Hs|Hs].
  - rewrite Z.min_r in Hdm, Hmb by lia. unfold max_weeks.
    pose proof (Z.div_mod max_int64 WeeklyDuration ltac:(lia)).
    pose proof (Z.mod_pos_bound max_int64 WeeklyDuration HW). lia.
  - rewrite Z.min_l in Hdm, Hmb by lia.
    assert (n' = max_weeks) as -> by (subst n'; by rewrite Z.min_l by lia). lia.
Qed.

(** ** Properties *)

(** Kept folded elsewhere: conversion must not evaluate the calendar. *)
Lemma month_index_unfold t : month_index t = 12 * Year t + Month t - 1.
Proof. reflexivity. Qed.

Lemma days_of_shift a k :
  days_of (AddMonthsClamped a k) = month_day (month_index a + k - 2) (shifted_day a k).
Proof. rewrite AddMonthsClamped_eq. apply days_of_eq, instant_split. Qed.

Lemma month_index_shift a k : month_index (AddMonthsClamped a k) = month_index a + k.
Proof.
  rewrite month_index_of, days_of_shift.
  rewrite (proj1 (month_of_month_day _ _ (shifted_day_range a k))). lia.
Qed.

Lemma Day_shift a k : Day (AddMonthsClamped a k) = shifted_day a k.
Proof.
  unfold Day. rewrite days_of_shift.
  exact (proj2 (month_of_month_day _ _ (shifted_day_range a k))).
Qed.

Lemma clock_of_shift a k : clock_of (AddMonthsClamped a k) = clock_of a.
Proof. rewrite AddMonthsClamped_eq. apply clock_of_eq, instant_split. Qed.

(** Shifting the anchor by [k] months lands in the [k]-th month after the
    anchor's, on the ORIGINAL anchor day clamped to the length of that month,
    at the anchor's time of day: clamping in a short month never drifts into
    later periods. *)
Theorem month_shift_no_drift (a : instant) (k : Z) :
  12 * Year (AddMonthsClamped a k) + Month (AddMonthsClamped a k) = 12 * Year a + Month a + k /\
  Day (AddMonthsClamped a k) =
    Z.min (Day a) (daysIn (Year (AddMonthsClamped a k)) (Month (AddMonthsClamped a k))) /\
  clock_of (AddMonthsClamped a k) = clock_of a.
Proof.
  pose proof (month_index_shift a k) as Hm. rewrite !month_index_unfold in Hm.
  split; [lia|]. split; [|apply clock_of_shift].
  rewrite daysIn_len, Day_shift. unfold shifted_day. f_equal. f_equal.
  rewrite month_index_unfold. lia.
Qed.

(** Every instant from the anchor on lies in exactly one monthly period,
    and [MonthlyWindowAt] finds it; before the anchor it reports
    [ErrBeforeAnchor]. *)
Theorem monthly_window_found (a t : instant) :
  (t < a -> MonthlyWindowAt a t = Err ErrBeforeAnchor) /\
  (a <= t -> exists iv k,
     MonthlyWindowAt a t = Ok (iv, k) /\ MonthlyInterval a k = Ok iv /\ Contains iv t = true /\
     (forall k' iv', MonthlyInterval a k' = Ok iv' -> Contains iv' t = true -> k' = k)).
Proof.
  split; [apply MonthlyWindowAt_before|]. intros Hat.
  destruct (MonthlyWindowAt_contains a t Hat) as (k & HW & Hk & Hlo & Hhi).
  eexists _, k. split; [exact HW|]. unfold MonthlyInterval.
  destruct (Z.ltb_spec k 0); [lia|]. repeat split; [by apply Contains_spec|].
  intros k' iv' Hiv Hc. destruct (Z.ltb_spec k' 0); inv_ok. apply Contains_spec in Hc. simpl in Hc.
  destruct (Z.lt_trichotomy k k') as [Hl|[->|Hl]]; [|done|].
  - pose proof (Z.lt_le_incl _ _ Hl).
    assert (AddMonthsClamped a (k + 1) <= AddMonthsClamped a k').
    { destruct (Z.eq_dec (k + 1) k') as [->|]; [lia|].
      apply Z.lt_le_incl, AddMonthsClamped_mono. lia. }
    lia.
  - assert (AddMonthsClamped a (k' + 1) <= AddMonthsClamped a k).
    { destruct (Z.eq_dec (k' + 1) k) as [->|]; [lia|].
      apply Z.lt_le_incl, AddMonthsClamped_mono. lia. }
    lia.
Qed.

(** The weekly period found for an instant contains it exactly while the
    instant is within 15251 weeks of the anchor: beyond that the saturating
    [Time.Sub] pins the index. *)
Theorem weekly_window_found (a t : instant) (Hat : a <= t) :
  exists iv n, WeeklyWindowAt a t = Ok (iv, n) /\ WeeklyInterval a n = Ok iv /\
    (Contains iv t = true <-> t - a < 15251 * WeeklyDuration).
Proof.
  pose proof (WeeklyWindowAt_eq a t Hat) as H. cbv zeta in H.
  eexists _, _. split; [exact H|]. split.
  - unfold WeeklyWindowAt in H. inv_ok. congruence.
  - change 15251 with (max_weeks + 1). eapply WeeklyWindowAt_contains; eauto.
Qed.

(** What binding a consumption promises: the interval contains the instant
    (for weeks, within the range above); without activation some live row
    already starts there, with activation none does. *)
Lemma find_live_row kind t rows w :
  List.find (live_row kind t) rows = Some w ->
  w ∈ rows /\ w_Kind w = kind /\ w_Voided w = false /\ Contains (interval_of w) t = true.
Proof.
  intros H. apply List.find_some in H as [Hin Hl]. unfold live_row in Hl. bool_prop.
  repeat split; auto. by apply list_elem_of_In.
Qed.

Lemma hasWindowStartingAt_true rows kind s :
  hasWindowStartingAt rows kind s = true <->
  exists w, w ∈ rows /\ w_Kind w = kind /\ w_Voided w = false /\ w_Start w = s.
Proof.
  unfold hasWindowStartingAt. rewrite List.existsb_exists. split.
  - intros (w & Hin & H). bool_prop. exists w. apply list_elem_of_In in Hin. naive_solver.
  - intros (w & Hin & Hk & Hv & Hs). exists w. split; [by apply list_elem_of_In|].
    rewrite bool_decide_eq_true_2, Hv, Hs by done. simpl. apply Z.eqb_refl.
Qed.

Definition week_range (kind : WindowKind) (a t : instant) : Prop :=
  kind = WindowWeekly -> t - a < 15251 * WeeklyDuration.

Lemma ConsumptionWindow_contains kind a rows t iv act :
  week_range kind a t -> ConsumptionWindow kind a rows t = Ok (iv, act) ->
  iv_Start iv <= t < iv_End iv.
Proof.
  intros Hw H. destruct kind; simpl in H.
  - destruct (List.find _ rows) as [w|] eqn:E; injection H as <- <-.
    + apply find_live_row in E as (_ & _ & _ & Hc). by apply Contains_spec in Hc.
    + simpl. unfold time_add. assert (0 < FiveHourDuration) by done. lia.
  - inv_ok. destruct x as [iv' n]. inv_ok.
    assert (a <= t) by (unfold WeeklyWindowAt in E; inv_ok; bool_prop; lia).
    pose proof (WeeklyWindowAt_contains a t iv n ltac:(done) E) as Hc.
    apply Contains_spec. apply Hc. by apply Hw.
  - inv_ok. destruct x as [iv' k]. inv_ok.
    destruct (Z_lt_le_dec t a) as [Hl|Hl]; [by rewrite MonthlyWindowAt_before in E by done|].
    destruct (MonthlyWindowAt_contains a t Hl) as (k' & HW & _ & Hb). rewrite HW in E. inv_ok. done.
Qed.

(** A consumption binds to an interval containing its instant. A reused
    interval is that of an existing live row of the kind (same start); a new
    one is opened only when no such row exists — for the five-hour window,
    only when no live row contains the instant at all. *)
Theorem consumption_binds (kind : WindowKind) (a t : instant) (rows : list QuotaWindow)
    (iv : Interval) (act : bool)
    (Hrange : week_range kind a t)
    (Hok : ConsumptionWindow kind a rows t = Ok (iv, act)) :
  Contains iv t = true /\
  (act = false -> exists w, w ∈ rows /\ w_Kind w = kind /\ w_Voided w = false
                            /\ w_Start w = iv_Start iv) /\
  (act = true -> forall w, w ∈ rows -> w_Kind w = kind -> w_Voided w = false ->
     if decide (kind = WindowFiveHour) then Contains (interval_of w) t = false
     else w_Start w <> iv_Start iv).
Proof.
  split; [apply Contains_spec; eauto using ConsumptionWindow_contains|].
  destruct kind; simpl in Hok.
  - destruct (List.find _ rows) as [w|] eqn:E; injection Hok as <- <-; split; try done.
    + intros _. apply find_live_row in E as (? & ? & ? & _). eauto.
    + intros _ w Hin Hk Hv. pose proof (List.find_none _ _ E w) as Hn.
      rewrite list_elem_of_In in Hin. specialize (Hn Hin). unfold live_row in Hn.
      by rewrite bool_decide_eq_true_2, Hv in Hn by done.
  - inv_ok. destruct x as [iv' n]. inv_ok. split; intros Hact.
    + apply negb_false_iff, hasWindowStartingAt_true in Hact. done.
    + intros w Hin Hk Hv Hs. apply negb_true_iff in Hact.
      assert (hasWindowStartingAt rows WindowWeekly (iv_Start iv) = true); [|congruence].
      apply hasWindowStartingAt_true. eauto.
  - inv_ok. destruct x as [iv' n]. inv_ok. split; intros Hact.
    + apply negb_false_iff, hasWindowStartingAt_true in Hact. done.
    + intros w Hin Hk Hv Hs. apply negb_true_iff in Hact.
      assert (hasWindowStartingAt rows WindowMonthly (iv_Start iv) = true); [|congruence].
      apply hasWindowStartingAt_true. eauto.
Qed.

Definition sample_anchor : instant := Date 2024 1 31 10 0 0 0.
Definition sample_at : instant := Date 2024 2 29 9 0 0 0.

(** The anchor of January 31 bound at the end of February: still period 0. *)
Lemma consumption_binds_witness :
  Contains (mkInterval (Date 2024 1 31 10 0 0 0) (Date 2024 2 29 10 0 0 0)) sample_at = true.
Proof.
  apply (consumption_binds WindowMonthly sample_anchor sample_at []
           (mkInterval (Date 2024 1 31 10 0 0 0) (Date 2024 2 29 10 0 0 0)) true).
  - discriminate.
  - vm_compute. reflexivity.
Defined.

(** A leap-day and a year-end crossing, evaluated. *)
Example month_ends :
  AddMonthsClamped sample_anchor 1 = Date 2024 2 29 10 0 0 0 /\
  AddMonthsClamped sample_anchor 2 = Date 2024 3 31 10 0 0 0 /\
  AddMonthsClamped sample_anchor 13 = Date 2025 2 28 10 0 0 0.
Proof. vm_compute. repeat split. Qed.

(** Reading the quota shows exactly the period a consumption at the same
    instant would bind to, and shows it without a row: an unactivated
    five-hour window has no interval and the on-first-consumption mark, and a
    disabled window has neither interval nor limit. *)
Theorem read_view_agrees (kind : WindowKind) (a t : instant) (limit : option Microcredit)
    (rows : list QuotaWindow) (v : WindowView)
    (Hread : ReadWindow kind a limit rows t = Ok v) :
  (limit = None -> v = mkView kind true None 0 0 None None false) /\
  (limit <> None -> exists iv act, ConsumptionWindow kind a rows t = Ok (iv, act) /\
     if (act && bool_decide (kind = WindowFiveHour))
     then v = mkView kind false limit 0 0 None None true
     else v_WindowStart v = Some (iv_Start iv) /\ v_ResetsAt v = Some (iv_End iv) /\
          v_OnFirstConsumption v = false /\ v_Disabled v = false /\ v_Limit v = limit).
Proof.
  destruct limit as [l|]; simpl in Hread; [|by inv_ok].
  split; [done|]. intros _. destruct kind; simpl in *.
  - destruct (List.find _ rows) as [w|]; injection Hread as <-;
      do 2 eexists; (split; [reflexivity|]); simpl; done.
  - inv_ok. destruct x as [iv n]. rewrite E. simpl. do 2 eexists. split; [done|].
    rewrite andb_false_r. destruct (List.find _ rows); injection Hread as <-; done.
  - inv_ok. destruct x as [iv n]. rewrite E. simpl. do 2 eexists. split; [done|].
    rewrite andb_false_r. destruct (List.find _ rows); injection Hread as <-; done.
Qed.

Lemma read_view_agrees_witness :
  exists iv act, ConsumptionWindow WindowFiveHour 0 [] 7 = Ok (iv, act).
Proof.
  destruct (proj2 (read_view_agrees WindowFiveHour 0 7 (Some 10) []
              (mkView WindowFiveHour false (Some 10) 0 0 None None true)
              ltac:(reflexivity)) ltac:(discriminate)) as (iv & act & H & _).
  exists iv, act. exact H.
Defined.

(** Witnesses of the remaining properties of this file. *)
Lemma monthly_window_found_witness :
  exists iv k, MonthlyWindowAt sample_anchor sample_at = Ok (iv, k) /\ Contains iv sample_at = true.
Proof.
  destruct (proj2 (monthly_window_found sample_anchor sample_at) ltac:(vm_compute; discriminate))
    as (iv & k & H & _ & Hc & _).
  exists iv, k. split; [exact H|exact Hc].
Defined.

Lemma weekly_window_found_witness :
  exists iv n, WeeklyWindowAt sample_anchor sample_at = Ok (iv, n) /\ WeeklyInterval sample_anchor n = Ok iv.
Proof.
  destruct (weekly_window_found sample_anchor sample_at ltac:(vm_compute; discriminate))
    as (iv & n & H & Hi & _).
  exists iv, n. split; [exact H|exact Hi].
Defined.
