(* ===== verification/Policy.v ===== *)
(** * Policy: the immutable quota policy and the pure admission rule

    [internal/inference/quota/policy.go], with the deficit computation
    [withDeficit] of [internal/inference/quota/service.go]. *)

From Stdlib Require Import ZArith Lia Bool.
From stdpp Require Import base gmap strings list.
From S2P Require Import Prelude Domain Calendar Window.

Local Open Scope Z_scope.
Local Open Scope go_scope.

Inductive OveragePolicy := OverageReject | OverageClampIfDeclared | OverageAllowOverage.

#[global] Instance OveragePolicy_eq_dec : EqDecision OveragePolicy.
Proof. solve_decision. Defined.

Record Policy := mkPolicy {
  p_Name : string;
  p_Revision : Z;
  p_ModelIDs : list string;
  p_FiveHourLimit : option Microcredit;
  p_WeeklyLimit : option Microcredit;
  p_MonthlyLimit : option Microcredit;
  p_RPMLimit : option Z;
  p_TPMLimit : option Z;
  p_ConcurrencyLimit : option Z;
  p_Overage : OveragePolicy;
}.

Definition AllowsModel (p : Policy) (modelID : string) : bool :=
  existsb (fun id => String.eqb id modelID) (p_ModelIDs p).

(** [LimitFor]: [None] is a disabled window, never an unlimited one. *)
Definition LimitFor (p : Policy) (kind : WindowKind) : option Microcredit :=
  match kind with
  | WindowFiveHour => p_FiveHourLimit p
  | WindowWeekly => p_WeeklyLimit p
  | WindowMonthly => p_MonthlyLimit p
  end.

Definition enabled (p : Policy) (kind : WindowKind) : bool :=
  match LimitFor p kind with Some _ => true | None => false end.

Definition EnabledWindows (p : Policy) : list WindowKind :=
  List.filter (enabled p) WindowOrder.

(** [findWindow]. *)
Definition findWindow (windows : list QuotaWindow) (kind : WindowKind) (at_ : instant)
  : option QuotaWindow := List.find (live_row kind at_) windows.

(** One turn of the admission loop over an enabled kind. *)
Definition admit_kind (p : Policy) (windows : list QuotaWindow) (hold : Microcredit) (at_ : instant)
    (blocked : list WindowBlock) (kind : WindowKind) : res (list WindowBlock) :=
  match findWindow windows kind at_ with
  | None => Err (NewError CodeInvalidInput)
  | Some w =>
      if Available w <? hold
      then Ok (blocked ++ [mkBlock (Some kind) (default 0 (LimitFor p kind)) (w_Used w) (w_Reserved w)
                             (Some (w_End w))])
      else Ok blocked
  end.

Definition EvaluateAdmission (p : Policy) (windows : list QuotaWindow) (hold : Microcredit)
    (at_ : instant) : res unit :=
  fail_if hold <? 0 with WrapError CodeInvalidInput (ESentinel ErrNegativeValue);
  let? blocked := rfold (admit_kind p windows hold at_) [] (EnabledWindows p) in
  match blocked with
  | [] => Ok tt
  | _ => Err (NewQuotaExceeded blocked false)
  end.

(** The customer is charged once; the same amount mirrors into every kind. *)
Definition SettlementPlan (charge : Microcredit) (kinds : list WindowKind)
  : list (WindowKind * Microcredit) := map (fun k => (k, charge)) kinds.

Definition Views (p : Policy) (anchor : instant) (active : list QuotaWindow) (at_ : instant)
  : res (list WindowView) :=
  rfold (fun out kind =>
           let? v := ReadWindow kind anchor (LimitFor p kind) active at_ in Ok (out ++ [v]))
    [] WindowOrder.

(** [withDeficit] (quota/service.go): the largest shortfall of the blocks. *)
Definition block_deficit (hold : Microcredit) (deficit : Microcredit) (b : WindowBlock) : Microcredit :=
  let avail := sub64 (sub64 (b_LimitMicros b) (b_UsedMicros b)) (b_ReservedMicros b) in
  let avail := if avail <? 0 then 0 else avail in
  let d := sub64 hold avail in
  if deficit <? d then d else deficit.

Definition withDeficit (e : error) (hold : Microcredit) : error :=
  match e with
  | EQuotaExceeded blocked kb None =>
      let deficit := foldl (block_deficit hold) 0 blocked in
      EQuotaExceeded blocked kb (if 0 <? deficit then Some deficit else None)
  | _ => e
  end.

(** ** Lemmas *)

Lemma EnabledWindows_spec p k : k ∈ EnabledWindows p <-> exists l, LimitFor p k = Some l.
Proof.
  unfold EnabledWindows. rewrite list_elem_of_In, List.filter_In, <- list_elem_of_In. unfold enabled.
  split.
  - intros [_ H]. destruct (LimitFor p k); [eauto|done].
  - intros [l ->]. split; [|done]. destruct k; set_solver.
Qed.

(** The counters an admission reads are non-negative and fit. *)
Definition window_sane (w : QuotaWindow) : Prop :=
  0 <= w_Used w /\ 0 <= w_Reserved w /\ 0 <= w_Limit w <= max_int64 /\
  w_Used w + w_Reserved w <= max_int64.

Definition window_avail (w : QuotaWindow) : Z := Z.max 0 (w_Limit w - w_Used w - w_Reserved w).

Lemma Available_sane w : window_sane w -> Available w = window_avail w.
Proof. intros (? & ? & ? & ?). by apply Available_exact. Qed.

Lemma findWindow_in windows k at_ w : findWindow windows k at_ = Some w ->
  w ∈ windows /\ w_Kind w = k /\ w_Voided w = false /\ Contains (interval_of w) at_ = true.
Proof. apply find_live_row. Qed.

(** The blocks the loop collects: exactly the enabled kinds, in lock order,
    whose live window is too short for the hold. *)
Definition blocks_of (p : Policy) (windows : list QuotaWindow) (hold : Microcredit) (at_ : instant)
    (kinds : list WindowKind) : list WindowBlock :=
  flat_map (fun k => match findWindow windows k at_ with
                     | Some w => if Available w <? hold
                                 then [mkBlock (Some k) (default 0 (LimitFor p k)) (w_Used w) (w_Reserved w)
                                         (Some (w_End w))] else []
                     | None => [] end) kinds.

Lemma rfold_admit p windows hold at_ kinds acc :
  (forall k, k ∈ kinds -> exists w, findWindow windows k at_ = Some w) ->
  rfold (admit_kind p windows hold at_) acc kinds = Ok (acc ++ blocks_of p windows hold at_ kinds).
Proof.
  revert acc. induction kinds as [|k kinds IH]; intros acc H; simpl; [by rewrite app_nil_r|].
  destruct (H k) as [w Hw]; [set_solver|]. unfold admit_kind at 1. rewrite Hw. simpl.
  assert (forall k', k' ∈ kinds -> exists w', findWindow windows k' at_ = Some w')
    by (intros; apply H; set_solver).
  destruct (Available w <? hold); simpl; rewrite IH by done; [by rewrite <- app_assoc|done].
Qed.

Lemma rfold_admit_missing p windows hold at_ kinds acc k :
  k ∈ kinds -> findWindow windows k at_ = None ->
  rfold (admit_kind p windows hold at_) acc kinds = Err (NewError CodeInvalidInput).
Proof.
  revert acc. induction kinds as [|k' kinds IH]; intros acc Hin Hn; [set_solver|]. simpl.
  unfold admit_kind at 1. destruct (findWindow windows k' at_) as [w|] eqn:E; [|done].
  apply elem_of_cons in Hin as [->|Hin]; [congruence|].
  destruct (Available w <? hold); simpl; by apply IH.
Qed.

Lemma blocks_of_nil p windows hold at_ kinds :
  blocks_of p windows hold at_ kinds = [] <->
  forall k w, k ∈ kinds -> findWindow windows k at_ = Some w -> hold <= Available w.
Proof.
  unfold blocks_of. induction kinds as [|k kinds IH]; simpl; [set_solver|].
  rewrite app_nil, IH. split.
  - intros [H1 H2] k' w [->|Hin]%elem_of_cons Hw; [|eauto].
    rewrite Hw in H1. destruct (Z.ltb_spec (Available w) hold); [done|lia].
  - intros H. split; [|intros; eapply H; eauto; set_solver].
    destruct (findWindow windows k at_) as [w|] eqn:E; [|done].
    specialize (H k w ltac:(set_solver) E). by destruct (Z.ltb_spec (Available w) hold); [lia|].
Qed.

(** An accepted hold is non-negative and found a live row of every enabled kind. *)
Lemma EvaluateAdmission_found p windows hold at_ : EvaluateAdmission p windows hold at_ = Ok tt ->
  0 <= hold /\ forall k l, LimitFor p k = Some l -> exists w, findWindow windows k at_ = Some w.
Proof.
  unfold EvaluateAdmission. destruct (Z.ltb_spec hold 0) as [|Hh]; [done|]. intros H. split; [done|]. intros k l Hl.
  destruct (findWindow windows k at_) as [w|] eqn:E; [eauto|].
  rewrite (rfold_admit_missing _ _ _ _ _ [] k) in H; [done|by apply EnabledWindows_spec; eauto|done].
Qed.

(** ** Properties *)

(** C40: An admission passes exactly when the hold is non-negative and EVERY
    enabled window has a live row with room for the hold; one window alone
    never suffices, and an enabled window without a row is refused. *)
Theorem admission_iff (p : Policy) (windows : list QuotaWindow) (hold : Microcredit) (at_ : instant) :
  EvaluateAdmission p windows hold at_ = Ok tt <->
  0 <= hold /\
  forall kind limit, LimitFor p kind = Some limit ->
    exists w, findWindow windows kind at_ = Some w /\ hold <= Available w.
Proof.
  unfold EvaluateAdmission. destruct (Z.ltb_spec hold 0) as [Hneg|Hh].
  { split; [done|]. lia. }
  destruct (decide (Forall (fun k => is_Some (findWindow windows k at_)) (EnabledWindows p)))
    as [Hall|Hmiss].
  - rewrite Forall_forall in Hall. rewrite rfold_admit by (intros k Hk; destruct (Hall k Hk); eauto).
    simpl. split.
    + intros H. split; [done|]. intros k l Hl.
      destruct (Hall k) as [w Hw]; [apply EnabledWindows_spec; eauto|]. exists w. split; [done|].
      destruct (blocks_of p windows hold at_ (EnabledWindows p)) eqn:E; [|done].
      eapply blocks_of_nil; eauto. apply EnabledWindows_spec; eauto.
    + intros [_ H]. rewrite (proj2 (blocks_of_nil p windows hold at_ (EnabledWindows p))); [done|].
      intros k w Hk Hw. apply EnabledWindows_spec in Hk as [l Hl].
      destruct (H k l Hl) as (w' & Hw' & Ha). congruence.
  - apply not_Forall_Exists in Hmiss; [|apply _]. apply Exists_exists in Hmiss as (k & Hk & Hn).
    assert (findWindow windows k at_ = None) as Hnone
      by (by apply eq_None_not_Some).
    rewrite (rfold_admit_missing p windows hold at_ _ [] k) by done. simpl. split; [done|].
    intros [_ H]. apply EnabledWindows_spec in Hk as [l Hl].
    destruct (H k l Hl) as (w & Hw & _). congruence.
Qed.

(** Shortfall of a block against the limit the row itself carries. *)
Definition shortfall (hold : Microcredit) (w : QuotaWindow) : Z := hold - window_avail w.

Lemma block_deficit_max hold acc b :
  0 <= hold <= max_int64 -> 0 <= b_UsedMicros b -> 0 <= b_ReservedMicros b ->
  0 <= b_LimitMicros b <= max_int64 -> b_UsedMicros b + b_ReservedMicros b <= max_int64 ->
  block_deficit hold acc b =
  Z.max acc (hold - Z.max 0 (b_LimitMicros b - b_UsedMicros b - b_ReservedMicros b)).
Proof.
  intros. unfold block_deficit, sub64.
  rewrite (wrap64_id (b_LimitMicros b - b_UsedMicros b)) by i64.
  rewrite (wrap64_id (b_LimitMicros b - b_UsedMicros b - b_ReservedMicros b)) by i64.
  destruct (Z.ltb_spec (b_LimitMicros b - b_UsedMicros b - b_ReservedMicros b) 0);
    rewrite wrap64_id by i64; destruct (Z.ltb_spec acc (hold - 0));
    try destruct (Z.ltb_spec acc (hold - (b_LimitMicros b - b_UsedMicros b - b_ReservedMicros b)));
    lia.
Qed.

Definition block_sane (b : WindowBlock) : Prop :=
  0 <= b_UsedMicros b /\ 0 <= b_ReservedMicros b /\ 0 <= b_LimitMicros b <= max_int64 /\
  b_UsedMicros b + b_ReservedMicros b <= max_int64.

Definition block_short (hold : Microcredit) (b : WindowBlock) : Z :=
  hold - Z.max 0 (b_LimitMicros b - b_UsedMicros b - b_ReservedMicros b).

(** The fold of the deficits is the maximum of the shortfalls. *)
Lemma deficit_fold hold blocked acc :
  0 <= hold <= max_int64 -> Forall block_sane blocked ->
  acc <= foldl (block_deficit hold) acc blocked /\
  (forall b, b ∈ blocked -> block_short hold b <= foldl (block_deficit hold) acc blocked) /\
  (foldl (block_deficit hold) acc blocked = acc \/
   exists b, b ∈ blocked /\ foldl (block_deficit hold) acc blocked = block_short hold b).
Proof.
  intros Hh. revert acc. induction blocked as [|b bs IH]; intros acc Hs; simpl.
  { split; [lia|]. split; [set_solver|by left]. }
  inversion Hs as [|? ? (? & ? & ? & ?) Hs']; subst.
  rewrite block_deficit_max by done. fold (block_short hold b).
  destruct (IH (Z.max acc (block_short hold b)) Hs') as (Hle & Hubs & Hmax).
  repeat split; [lia| |].
  - intros b' [->|Hin]%elem_of_cons; [lia|auto].
  - destruct Hmax as [Hmax|(b' & Hin & Hmax)]; [|right; exists b'; set_solver].
    destruct (Z.max_spec acc (block_short hold b)) as [[_ E]|[_ E]]; rewrite E in *; [|by left].
    right. exists b. set_solver.
Qed.

(** A window row whose limit has been raised by [d]. *)
Definition raise_limit (d : Microcredit) (w : QuotaWindow) : QuotaWindow :=
  mkWindow (w_ID w) (w_EntitlementID w) (w_Kind w) (w_Start w) (w_End w)
    (w_Limit w + d) (w_Used w) (w_Reserved w) (w_Voided w).

Lemma findWindow_raise d windows k at_ :
  findWindow (map (raise_limit d) windows) k at_ = raise_limit d <$> findWindow windows k at_.
Proof.
  unfold findWindow. induction windows as [|w ws IH]; [done|]. simpl.
  change (live_row k at_ (raise_limit d w)) with (live_row k at_ w).
  by destruct (live_row k at_ w).
Qed.

(** Rows on which the reported deficit is exact: sane counters, no overdraft,
    headroom for the hold, and the row carries the policy's own limit. *)
Definition row_exact (p : Policy) (hold : Microcredit) (w : QuotaWindow) : Prop :=
  window_sane w /\ w_Used w + w_Reserved w <= w_Limit w /\ w_Limit w + hold <= max_int64 /\
  LimitFor p (w_Kind w) = Some (w_Limit w).

Lemma blocks_of_elem p windows hold at_ b :
  b ∈ blocks_of p windows hold at_ (EnabledWindows p) <->
  exists k w, k ∈ EnabledWindows p /\ findWindow windows k at_ = Some w /\ Available w < hold /\
    b = mkBlock (Some k) (default 0 (LimitFor p k)) (w_Used w) (w_Reserved w) (Some (w_End w)).
Proof.
  unfold blocks_of. rewrite list_elem_of_In, in_flat_map. split.
  - intros (k & Hk & Hb). destruct (findWindow windows k at_) as [w|] eqn:E; [|done].
    destruct (Z.ltb_spec (Available w) hold); [|done]. destruct Hb as [<-|[]].
    exists k, w. rewrite list_elem_of_In. done.
  - intros (k & w & Hk & Hw & Ha & ->). exists k. rewrite <- list_elem_of_In. split; [done|].
    rewrite Hw. destruct (Z.ltb_spec (Available w) hold); [by left|lia].
Qed.

Section DeficitExact.
Context (p : Policy) (windows : list QuotaWindow) (hold : Microcredit) (at_ : instant).
Context (Hhold : 0 <= hold <= max_int64) (Hrows : Forall (row_exact p hold) windows).

Lemma found_exact k w : findWindow windows k at_ = Some w -> row_exact p hold w /\ w_Kind w = k.
Proof.
  intros H. apply findWindow_in in H as (Hin & Hk & _). split; [|done].
  by eapply Forall_forall in Hrows.
Qed.

Lemma Available_raise d k w :
  findWindow windows k at_ = Some w -> 0 <= d <= hold ->
  Available (raise_limit d w) = w_Limit w + d - w_Used w - w_Reserved w.
Proof.
  intros H Hd. destruct (found_exact k w H) as [((? & ? & ? & ?) & ? & ? & _) _].
  rewrite Available_exact; simpl; lia.
Qed.

(** The shortfall of a block, read off its row. *)
Lemma block_short_row k w l :
  findWindow windows k at_ = Some w -> LimitFor p k = Some l ->
  block_short hold (mkBlock (Some k) (default 0 (LimitFor p k)) (w_Used w) (w_Reserved w) (Some (w_End w)))
  = hold - (w_Limit w - w_Used w - w_Reserved w).
Proof.
  intros H Hl. destruct (found_exact k w H) as [((? & ? & ? & ?) & ? & ? & Hlim) <-].
  unfold block_short. simpl. rewrite Hlim. simpl. lia.
Qed.

Lemma blocks_sane : Forall block_sane (blocks_of p windows hold at_ (EnabledWindows p)).
Proof.
  apply Forall_forall. intros b Hb. apply blocks_of_elem in Hb as (k & w & Hk & Hw & _ & ->).
  destruct (found_exact k w Hw) as [((? & ? & ? & ?) & ? & ? & Hlim) <-].
  unfold block_sane. simpl. rewrite Hlim. simpl. lia.
Qed.

Lemma block_short_pos b :
  b ∈ blocks_of p windows hold at_ (EnabledWindows p) -> 0 < block_short hold b.
Proof.
  intros Hb. apply blocks_of_elem in Hb as (k & w & Hk & Hw & Ha & ->).
  apply EnabledWindows_spec in Hk as [l Hl]. rewrite (block_short_row k w l Hw Hl).
  destruct (found_exact k w Hw) as [(Hs & ? & ?) _].
  rewrite Available_sane in Ha by done. unfold window_avail in Ha. lia.
Qed.

Lemma admitted_raise d :
  0 <= d <= hold ->
  (forall k, k ∈ EnabledWindows p -> is_Some (findWindow windows k at_)) ->
  EvaluateAdmission p (map (raise_limit d) windows) hold at_ = Ok tt <->
  forall k w, k ∈ EnabledWindows p -> findWindow windows k at_ = Some w ->
    hold - (w_Limit w - w_Used w - w_Reserved w) <= d.
Proof.
  intros Hd Hall. unfold EvaluateAdmission. destruct (Z.ltb_spec hold 0); [lia|].
  rewrite rfold_admit.
  2:{ intros k Hk. rewrite findWindow_raise. destruct (Hall k Hk) as [w ->]. eauto. }
  simpl. transitivity (blocks_of p (map (raise_limit d) windows) hold at_ (EnabledWindows p) = []).
  { by destruct (blocks_of _ _ _ _ _). }
  rewrite blocks_of_nil. split.
  - intros H' k w Hk Hw. specialize (H' k (raise_limit d w) Hk).
    rewrite findWindow_raise, Hw in H'. specialize (H' eq_refl).
    rewrite (Available_raise d k w Hw Hd) in H'. lia.
  - intros H' k w' Hk Hw'. rewrite findWindow_raise in Hw'.
    destruct (findWindow windows k at_) as [w|] eqn:Hw; [|done]. injection Hw' as <-.
    rewrite (Available_raise d k w Hw Hd). specialize (H' k w Hk Hw). lia.
Qed.
End DeficitExact.

(** The reported deficit is the least amount by which raising every limit
    admits the request, when no window is overdrawn and the window rows carry
    the limits of the pinned policy. *)
Theorem deficit_least (p : Policy) (windows : list QuotaWindow) (hold : Microcredit) (at_ : instant)
    (blocked : list WindowBlock) (kb : bool)
    (Hhold : 0 <= hold <= max_int64)
    (Hrows : Forall (row_exact p hold) windows)
    (Hblocked : EvaluateAdmission p windows hold at_ = Err (NewQuotaExceeded blocked kb)) :
  exists d, withDeficit (NewQuotaExceeded blocked kb) hold = EQuotaExceeded blocked kb (Some d) /\
    0 < d /\
    EvaluateAdmission p (map (raise_limit d) windows) hold at_ = Ok tt /\
    forall d', 0 <= d' < d -> EvaluateAdmission p (map (raise_limit d') windows) hold at_ <> Ok tt.
Proof.
  unfold EvaluateAdmission in Hblocked. destruct (Z.ltb_spec hold 0); [lia|].
  destruct (decide (Forall (fun k => is_Some (findWindow windows k at_)) (EnabledWindows p)))
    as [Hall|Hmiss].
  2:{ apply not_Forall_Exists in Hmiss; [|apply _]. apply Exists_exists in Hmiss as (k & Hk & Hn).
      rewrite (rfold_admit_missing p windows hold at_ _ [] k Hk) in Hblocked; [done|].
      by apply eq_None_not_Some. }
  rewrite Forall_forall in Hall.
  rewrite rfold_admit in Hblocked by (intros k Hk; destruct (Hall k Hk); eauto). simpl in Hblocked.
  set (B := blocks_of p windows hold at_ (EnabledWindows p)) in *.
  assert (B = blocked /\ B <> [] /\ kb = false) as (<- & HB & ->)
    by (destruct B; [done|]; unfold NewQuotaExceeded in Hblocked; naive_solver).
  clear Hblocked. destruct (deficit_fold hold B 0 Hhold (blocks_sane p windows hold at_ Hrows))
    as (_ & Hub & Hatt).
  set (d := foldl (block_deficit hold) 0 B) in *.
  assert (0 < d).
  { destruct (list_nonempty_elem B HB) as [b0 Hb0].
    pose proof (block_short_pos p windows hold at_ Hrows b0 Hb0). specialize (Hub b0 Hb0). lia. }
  destruct Hatt as [Hatt|(b & Hb & Hatt)]; [lia|].
  apply blocks_of_elem in Hb as (k & w & Hk & Hw & Ha & ->).
  pose proof (proj1 (EnabledWindows_spec p k) Hk) as [l Hl].
  rewrite (block_short_row p windows hold at_ Hrows k w l Hw Hl) in Hatt.
  destruct (found_exact p windows hold at_ Hrows k w Hw) as [((? & ? & ? & ?) & ? & ?) _].
  exists d. split; [simpl; fold d; by destruct (Z.ltb_spec 0 d); [|lia]|]. split; [done|].
  rewrite (admitted_raise p windows hold at_ Hhold Hrows d) by (done || lia). split.
  - intros k' w' Hk' Hw'. destruct (Z_lt_le_dec (Available w') hold) as [Hlt|Hge].
    + apply EnabledWindows_spec in Hk' as Hl'. destruct Hl' as [l' Hl'].
      rewrite <- (block_short_row p windows hold at_ Hrows k' w' l' Hw' Hl').
      apply Hub, blocks_of_elem. eauto 10.
    + destruct (found_exact p windows hold at_ Hrows k' w' Hw') as [(Hs & ? & ?) _].
      rewrite Available_sane in Hge by done. unfold window_avail in Hge. lia.
  - intros d' Hd' Hok. rewrite (admitted_raise p windows hold at_ Hhold Hrows d') in Hok by (done || lia).
    specialize (Hok k w Hk Hw). lia.
Qed.

Definition weekly_policy (limit : Microcredit) : Policy :=
  mkPolicy "p" 1 [] None (Some limit) None None None None OverageReject.
Definition weekly_row (limit used reserved : Microcredit) : QuotaWindow :=
  mkWindow "w" "e" WindowWeekly 0 WeeklyDuration limit used reserved false.

(** A request of 30 against 100 - 60 - 20 is short by 10. *)
Lemma deficit_least_witness :
  exists d, withDeficit (NewQuotaExceeded [mkBlock (Some WindowWeekly) 100 60 20 (Some WeeklyDuration)] false) 30
            = EQuotaExceeded [mkBlock (Some WindowWeekly) 100 60 20 (Some WeeklyDuration)] false (Some d).
Proof.
  destruct (deficit_least (weekly_policy 100) [weekly_row 100 60 20] 30 5
              [mkBlock (Some WindowWeekly) 100 60 20 (Some WeeklyDuration)] false) as (d & H & _).
  - vm_compute. split; discriminate.
  - repeat constructor; vm_compute; try split; discriminate.
  - vm_compute. reflexivity.
  - exists d. exact H.
Defined.

(** When a window is overdrawn (a settlement exceeded its hold), the
    reported deficit stops at the hold: it leaves out the overdraft, and
    granting it would not admit the request. *)
Theorem deficit_ignores_overdraft :
  exists blocked d,
    EvaluateAdmission (weekly_policy 100) [weekly_row 100 150 0] 10 5
      = Err (NewQuotaExceeded blocked false) /\
    withDeficit (NewQuotaExceeded blocked false) 10 = EQuotaExceeded blocked false (Some d) /\
    EvaluateAdmission (weekly_policy 100) [raise_limit d (weekly_row 100 150 0)] 10 5 <> Ok tt.
Proof.
  exists [mkBlock (Some WindowWeekly) 100 150 0 (Some WeeklyDuration)], 10.
  split; [vm_compute; reflexivity|]. split; [vm_compute; reflexivity|].
  vm_compute. discriminate.
Qed.

(** The gate compares the hold with the limit of the window row, the block
    it reports carries the limit of the policy: after an upgrade of the policy
    inside a running window the two differ, the request is refused while the
    block shows free quota, and no deficit is reported. *)
Theorem block_reports_policy_limit :
  exists blocked b,
    EvaluateAdmission (weekly_policy 200) [weekly_row 100 95 0] 10 5
      = Err (NewQuotaExceeded blocked false) /\
    blocked = [b] /\ 10 <= b_LimitMicros b - b_UsedMicros b - b_ReservedMicros b /\
    withDeficit (NewQuotaExceeded blocked false) 10 = NewQuotaExceeded blocked false.
Proof.
  exists [mkBlock (Some WindowWeekly) 200 95 0 (Some WeeklyDuration)], (mkBlock (Some WindowWeekly) 200 95 0 (Some WeeklyDuration)).
  repeat split; try (vm_compute; reflexivity). vm_compute. discriminate.
Qed.
