(* ===== verification/Pricing.v ===== *)
(** * Pricing: price versions, usage normalisation, quotes, reservations

    [internal/inference/accounting/pricing.go], the settlement decision of
    [internal/inference/accounting/settlement.go] and the safe upper bound of
    [internal/inference/quota/reservation.go]. A Go map of rates or bounds is
    an association list in the order the runtime ranges over it. *)

From Stdlib Require Import ZArith Lia Bool.
From stdpp Require Import base gmap strings list.
From S2P Require Import Prelude Domain Money Calendar.

Local Open Scope Z_scope.
Local Open Scope go_scope.

Inductive PriceKind := PriceSaleCredit | PriceSaleMoney | PriceUpstreamCost.

#[global] Instance PriceKind_eq_dec : EqDecision PriceKind.
Proof. solve_decision. Defined.

Definition ErrUnknownUsage : error := NewError CodeInvalidInput.
Definition ErrUnpriced : error := NewError CodeUnpricedCapability.

Definition RoundingFor (kind : PriceKind) : RoundingMode :=
  match kind with PriceUpstreamCost => RoundDown | _ => RoundUp end.

Record PriceVersion := mkPrice {
  pv_ID : string;
  pv_ModelID : string;
  pv_Kind : PriceKind;
  pv_Currency : string;
  pv_Input : Rate;
  pv_CacheRead : Rate;
  pv_CacheWrite : Rate;
  pv_Output : Rate;
  pv_ExtraRates : gmap string Rate;
  pv_Revision : Z;
  pv_EffectiveFrom : instant;
  pv_EffectiveTo : option instant;
}.

(** [PriceVersion.Validate]. *)
Definition Validate (p : PriceVersion) : res unit :=
  let? _ := match pv_Kind p with
            | PriceSaleCredit =>
                if String.eqb (pv_Currency p) EmptyString then Ok tt
                else Err (NewError CodeInvalidInput)
            | PriceSaleMoney | PriceUpstreamCost =>
                match NewMoney 0 (pv_Currency p) with
                | Ok _ => Ok tt
                | Err e => Err (WrapError CodeInvalidInput e)
                end
            end in
  fail_if pv_Revision p <=? 0 with NewError CodeInvalidInput;
  fail_if match pv_EffectiveTo p with
          | Some to => negb (pv_EffectiveFrom p <? to)
          | None => false end with NewError CodeInvalidInput;
  Ok tt.

(** [PriceVersion.EffectiveAt]: [from, to). *)
Definition EffectiveAt (p : PriceVersion) (at_ : instant) : bool :=
  if at_ <? pv_EffectiveFrom p then false
  else match pv_EffectiveTo p with None => true | Some to => at_ <? to end.

(** [ResolvePrice]: the highest effective revision of the kind. *)
Definition resolve_step (kind : PriceKind) (at_ : instant) (best : option PriceVersion)
    (v : PriceVersion) : option PriceVersion :=
  if negb (bool_decide (pv_Kind v = kind)) || negb (EffectiveAt v at_) then best
  else match best with
       | None => Some v
       | Some b => if pv_Revision b <? pv_Revision v then Some v else best
       end.

Definition ResolvePrice (versions : list PriceVersion) (kind : PriceKind) (at_ : instant)
  : res PriceVersion :=
  match foldl (resolve_step kind at_) None versions with
  | None => Err ErrUnpriced
  | Some b => Ok b
  end.

Record Inclusion := mkInclusion {
  ReasoningInOutput : bool;
  CacheReadInInput : bool;
  CacheWriteInInput : bool;
}.

Definition subBucket (base part : option Z) : res (option Z) :=
  match base, part with
  | Some b, Some p =>
      if b <? p then Err (WrapError CodeInvalidInput (ESentinel ErrNegativeValue))
      else Ok (Some (sub64 b p))
  | _, _ => Ok base
  end.

Definition addBucket (a b : option Z) : option Z :=
  match a, b with
  | None, None => None
  | None, Some v => Some v
  | Some v, None => Some v
  | Some v, Some w => Some (add64 v w)
  end.

(** [BillableBuckets]: disjoint chargeable buckets. *)
Definition BillableBuckets (raw : UsageBuckets) (inc : Inclusion) : res UsageBuckets :=
  let? i1 := if CacheReadInInput inc then subBucket (InputTokens raw) (CacheReadTokens raw)
             else Ok (InputTokens raw) in
  let? i2 := if CacheWriteInInput inc then subBucket i1 (CacheWriteTokens raw) else Ok i1 in
  let o := match ReasoningTokens raw with
           | Some _ => if negb (ReasoningInOutput inc)
                       then addBucket (OutputTokens raw) (ReasoningTokens raw) else OutputTokens raw
           | None => OutputTokens raw
           end in
  Ok (mkBuckets i2 (CacheReadTokens raw) (CacheWriteTokens raw) o (ReasoningTokens raw)).

Record Charge := mkCharge {
  c_Kind : PriceKind;
  c_Basis : UsageSource;
  c_Credit : Microcredit;
  c_Money : option Money;
  c_PriceVersionID : string;
  c_Revision : Z;
  c_Billable : UsageBuckets;
}.

(** One price line: round, then add with overflow detection. *)
Definition addLine (mode : RoundingMode) (total : Z) (units : Z) (rate : Rate) : res Z :=
  let? m := MicrosForUnits rate units mode in Credit.Add total m.

Definition add_bucket_line (mode : RoundingMode) (total : Z) (l : option Z * Rate) : res Z :=
  match l.1 with None => Ok total | Some units => addLine mode total units l.2 end.

(** One extra billable item. *)
Definition add_extra_line (mode : RoundingMode) (rates : gmap string Rate) (total : Z)
    (e : string * Z) : res Z :=
  fail_if e.2 <? 0 with WrapError CodeInvalidInput (ESentinel ErrNegativeValue);
  match rates !! e.1 with
  | None => if 0 <? e.2 then Err (NewError CodeUnpricedCapability) else Ok total
  | Some rate => addLine mode total e.2 rate
  end.

Definition no_buckets (b : UsageBuckets) : bool :=
  bool_decide (b = mkBuckets None None None None None).

(** [PriceVersion.Quote]. *)
Definition Quote (p : PriceVersion) (usage : UsageRecord) (extras : list (string * Z)) : res Charge :=
  let? _ := Validate p in
  let? _ := match u_Source usage with
            | UsageReported | UsageEstimated => Ok tt
            | UsageUnknown => Err ErrUnknownUsage
            | UsagePending => Err (NewError CodeInvalidInput)
            end in
  let b := u_Buckets usage in
  fail_if no_buckets b && bool_decide (extras = []) with NewError CodeInvalidInput;
  let mode := RoundingFor (pv_Kind p) in
  let? total := rfold (add_bucket_line mode) 0
                  [(InputTokens b, pv_Input p); (CacheReadTokens b, pv_CacheRead p);
                   (CacheWriteTokens b, pv_CacheWrite p); (OutputTokens b, pv_Output p)] in
  let? total := rfold (add_extra_line mode (pv_ExtraRates p)) total extras in
  if bool_decide (pv_Kind p = PriceSaleCredit)
  then Ok (mkCharge (pv_Kind p) (u_Source usage) total None (pv_ID p) (pv_Revision p) b)
  else let? m := NewMoney total (pv_Currency p) in
       Ok (mkCharge (pv_Kind p) (u_Source usage) 0 (Some m) (pv_ID p) (pv_Revision p) b).

(** [extraRatesDoc] decoded, and [DecodeExtraRates] after the JSON step. *)
Definition DecodeExtraRates (schemaVersion : Z) (rates : list (string * Z)) : res (gmap string Rate) :=
  fail_if negb (schemaVersion =? 1) with NewError CodeInvalidInput;
  rfold (fun out e => match NewRate e.2 1 with
                      | Ok r => Ok (<[e.1 := r]> out)
                      | Err er => Err (WrapError CodeInvalidInput er) end) ∅ rates.

(** ** Settlement decision *)

Record Decision_ := mkDecision {
  d_Record : UsageRecord;
  d_Charge : Charge;
  d_ReservedMicros : Microcredit;
}.

Definition charged_micros (c : Charge) : Z :=
  match c_Money c with Some m => Micros m | None => c_Credit c end.

(** [Decision.OverageMicros]. *)
Definition OverageMicros (d : Decision_) : Microcredit :=
  let charged := charged_micros (d_Charge d) in
  if charged <=? d_ReservedMicros d then 0 else sub64 charged (d_ReservedMicros d).

(** [Decide]: normalise once, then quote without extras. *)
Definition Decide (usage : UsageRecord) (price : PriceVersion) (inc : Inclusion)
    (reserved : Microcredit) : res Decision_ :=
  let? billable := BillableBuckets (u_Buckets usage) inc in
  let record := mkUsage (u_RequestID usage) (u_AttemptID usage) (u_Source usage) billable
                  (u_Revision usage) in
  let? charge := Quote price record [] in
  Ok (mkDecision record charge reserved).

Inductive Direction := DirectionDebit | DirectionCredit.

(** [CorrectionDelta]. *)
Definition CorrectionDelta (original corrected : Microcredit) : res (Direction * Microcredit) :=
  if corrected <? 0 then Err (WrapError CodeInvalidInput (ESentinel ErrNegativeValue))
  else if original <? corrected then Ok (DirectionDebit, sub64 corrected original)
  else if corrected <? original then Ok (DirectionCredit, sub64 original corrected)
  else Err (NewError CodeInvalidInput).

(** [SettlementLag]. *)
Definition SettlementLag (now : instant) (oldest : option instant) : duration :=
  match oldest with
  | None => 0
  | Some o => let d := time_sub now o in if d <? 0 then 0 else d
  end.

(** ** The reservation upper bound *)

Record ReserveBounds := mkBounds {
  InputBoundTokens : Z;
  OutputCapTokens : Z;
  ExtraBounds : list (string * Z);
}.

Definition EffectiveOutputCap (clientMaxTokens : option Z) (modelMaxOutputTokens : Z) : res Z :=
  fail_if modelMaxOutputTokens <=? 0 with NewError CodeInvalidInput;
  match clientMaxTokens with
  | None => Ok modelMaxOutputTokens
  | Some c =>
      fail_if c <=? 0 with WrapError CodeInvalidInput (ESentinel ErrNegativeValue);
      Ok (if c <? modelMaxOutputTokens then c else modelMaxOutputTokens)
  end.

Definition InputBound (estimatedPromptTokens modelContextTokens : Z) : res Z :=
  fail_if modelContextTokens <=? 0 with NewError CodeInvalidInput;
  fail_if estimatedPromptTokens <? 0 with WrapError CodeInvalidInput (ESentinel ErrNegativeValue);
  Ok (if modelContextTokens <? estimatedPromptTokens then modelContextTokens
      else estimatedPromptTokens).

Definition reserve_line (total : Z) (l : Z * Rate) : res Z :=
  let? m := ChargeUnits l.2 l.1 RoundUp in Credit.Add total m.

Definition reserve_extra (rates : gmap string Rate) (total : Z) (e : string * Z) : res Z :=
  fail_if e.2 <? 0 with WrapError CodeInvalidInput (ESentinel ErrNegativeValue);
  match rates !! e.1 with
  | None => if 0 <? e.2 then Err (NewError CodeUnpricedCapability) else Ok total
  | Some rate => reserve_line total (e.2, rate)
  end.

Definition ReserveAmount (price : PriceVersion) (b : ReserveBounds) : res Microcredit :=
  fail_if negb (bool_decide (pv_Kind price = PriceSaleCredit)) with NewError CodeInvalidInput;
  fail_if (InputBoundTokens b <? 0) || (OutputCapTokens b <=? 0)
    with WrapError CodeInvalidInput (ESentinel ErrNegativeValue);
  let? total := rfold reserve_line 0
                  [(InputBoundTokens b, pv_Input price); (InputBoundTokens b, pv_CacheRead price);
                   (InputBoundTokens b, pv_CacheWrite price); (OutputCapTokens b, pv_Output price)] in
  let? total := rfold (reserve_extra (pv_ExtraRates price)) total (ExtraBounds b) in
  fail_if total <? 0 with WrapError CodeInvalidInput (ESentinel ErrNegativeValue);
  Ok total.

(** The credit-list mirror of a money price. *)
Definition credit_mirror (price : PriceVersion) : PriceVersion :=
  mkPrice EmptyString EmptyString PriceSaleCredit EmptyString
    (pv_Input price) (pv_CacheRead price) (pv_CacheWrite price) (pv_Output price)
    (pv_ExtraRates price) 0 0 None.

Definition ReserveAmountMoney (price : PriceVersion) (b : ReserveBounds) : res Money :=
  fail_if negb (bool_decide (pv_Kind price = PriceSaleMoney)) with NewError CodeInvalidInput;
  let? total := ReserveAmount (credit_mirror price) b in
  NewMoney total (pv_Currency price).

(** ** Closed forms *)

(** The amount of one line under a rounding mode, and of a list of lines. *)
Definition line_amount (mode : RoundingMode) (l : Z * Rate) : Z :=
  match mode with
  | RoundDown => Num l.2 * l.1 / Den l.2
  | RoundUp => ceil_div (Num l.2 * l.1) (Den l.2)
  | RoundHalfUp => half_up_div (Num l.2 * l.1) (Den l.2)
  | RoundOther _ => 0
  end.

Fixpoint lines_sum (mode : RoundingMode) (ls : list (Z * Rate)) : Z :=
  match ls with [] => 0 | l :: ls' => line_amount mode l + lines_sum mode ls' end.

Definition line_wf (l : Z * Rate) : Prop := 0 <= l.1 /\ rate_wf l.2.

Definition real_mode (mode : RoundingMode) : Prop :=
  match mode with RoundOther _ => False | _ => True end.

Definition pay_line (mode : RoundingMode) (total : Z) (l : Z * Rate) : res Z :=
  addLine mode total l.1 l.2.

Lemma rounded_line mode l : real_mode mode ->
  rounded mode (Num l.2 * l.1) (Den l.2) = Some (line_amount mode l).
Proof. by destruct mode. Qed.

Lemma line_amount_nonneg mode l : line_wf l -> 0 <= line_amount mode l.
Proof.
  intros (Hu & Hn & Hd). assert (0 <= Num l.2 * l.1) by nia.
  destruct mode; simpl; [apply Z.div_pos; lia|apply ceil_div_nonneg; lia| |lia].
  unfold half_up_div. apply Z.div_pos; lia.
Qed.

Lemma lines_sum_nonneg mode ls : Forall line_wf ls -> 0 <= lines_sum mode ls.
Proof.
  induction 1 as [|l ls Hl _ IH]; simpl; [lia|].
  pose proof (line_amount_nonneg mode l Hl). lia.
Qed.

Lemma lines_sum_app mode ls ls' : lines_sum mode (ls ++ ls') = lines_sum mode ls + lines_sum mode ls'.
Proof. induction ls; simpl; lia. Qed.

(** Summing lines with per-line rounding and checked addition: the exact sum
    of the rounded lines, or overflow. *)
Lemma pay_lines_exact mode ls acc :
  real_mode mode -> Forall line_wf ls -> 0 <= acc <= max_int64 ->
  rfold (pay_line mode) acc ls =
    if acc + lines_sum mode ls <=? max_int64 then Ok (acc + lines_sum mode ls)
    else Err (ESentinel ErrOverflow).
Proof.
  intros Hm. revert acc. induction ls as [|l ls IH]; intros acc Hls Hacc; simpl.
  - rewrite Z.add_0_r. by destruct (Z.leb_spec acc max_int64); [|lia].
  - inversion Hls as [|? ? Hl Hls']; subst.
    pose proof (line_amount_nonneg mode l Hl) as Ha. pose proof (lines_sum_nonneg mode ls Hls').
    unfold pay_line at 1, addLine. rewrite MicrosForUnits_exact by (apply Hl).
    rewrite rounded_line by done.
    destruct (is_int64 (line_amount mode l)) eqn:E; simpl.
    + apply is_int64_true in E. rewrite Credit.Add_exact by i64.
      destruct (is_int64 (acc + line_amount mode l)) eqn:E'; simpl.
      * rewrite IH by (done || i64). by rewrite Z.add_assoc.
      * apply is_int64_false in E'.
        destruct (Z.leb_spec (acc + (line_amount mode l + lines_sum mode ls)) max_int64); [i64|done].
    + apply is_int64_false in E.
      destruct (Z.leb_spec (acc + (line_amount mode l + lines_sum mode ls)) max_int64); [i64|done].
Qed.

Lemma reserve_line_pay total l : reserve_line total l = pay_line RoundUp total l.
Proof.
  unfold reserve_line, pay_line, addLine, ChargeUnits.
  by destruct (MicrosForUnits l.2 l.1 RoundUp).
Qed.

Lemma rfold_reserve_line total ls : rfold reserve_line total ls = rfold (pay_line RoundUp) total ls.
Proof.
  revert total. induction ls as [|l ls IH]; intros; simpl; [done|].
  rewrite reserve_line_pay. destruct (pay_line RoundUp total l); simpl; auto.
Qed.

(** Present buckets as lines. *)
Definition known_lines (ls : list (option Z * Rate)) : list (Z * Rate) :=
  flat_map (fun l => match l.1 with Some u => [(u, l.2)] | None => [] end) ls.

Lemma rfold_bucket_lines mode total ls :
  rfold (add_bucket_line mode) total ls = rfold (pay_line mode) total (known_lines ls).
Proof.
  revert total. induction ls as [|[[u|] r] ls IH]; intros; simpl; [done| |].
  - unfold add_bucket_line at 1. simpl. unfold pay_line at 1. simpl.
    destruct (addLine mode total u r); simpl; auto.
  - unfold add_bucket_line at 1. simpl. auto.
Qed.

(** A line is monotone in its units. *)
Lemma line_up_mono u u' r : rate_wf r -> 0 <= u <= u' ->
  line_amount RoundUp (u, r) <= line_amount RoundUp (u', r).
Proof. intros [? ?] ?. simpl. apply ceil_div_mono; nia. Qed.

Definition price_lines (b : UsageBuckets) (p : PriceVersion) : list (option Z * Rate) :=
  [(InputTokens b, pv_Input p); (CacheReadTokens b, pv_CacheRead p);
   (CacheWriteTokens b, pv_CacheWrite p); (OutputTokens b, pv_Output p)].

Definition rates_wf (p : PriceVersion) : Prop :=
  rate_wf (pv_Input p) /\ rate_wf (pv_CacheRead p) /\ rate_wf (pv_CacheWrite p) /\ rate_wf (pv_Output p).

Definition bucket_within (u : option Z) (bound : Z) : Prop :=
  match u with Some v => 0 <= v <= bound | None => True end.

(** The usage stays inside the bounds the reservation was priced for. *)
Definition usage_within (b : UsageBuckets) (rb : ReserveBounds) : Prop :=
  bucket_within (InputTokens b) (InputBoundTokens rb) /\
  bucket_within (CacheReadTokens b) (InputBoundTokens rb) /\
  bucket_within (CacheWriteTokens b) (InputBoundTokens rb) /\
  bucket_within (OutputTokens b) (OutputCapTokens rb).

Definition bound_lines (rb : ReserveBounds) (p : PriceVersion) : list (Z * Rate) :=
  [(InputBoundTokens rb, pv_Input p); (InputBoundTokens rb, pv_CacheRead p);
   (InputBoundTokens rb, pv_CacheWrite p); (OutputCapTokens rb, pv_Output p)].

Lemma known_line_le u bound r :
  rate_wf r -> 0 <= bound -> bucket_within u bound ->
  0 <= lines_sum RoundUp (known_lines [(u, r)]) <= line_amount RoundUp (bound, r) /\
  Forall line_wf (known_lines [(u, r)]).
Proof.
  intros Hr Hb Hu. destruct u as [v|]; simpl in Hu; cbn [known_lines flat_map fst snd app lines_sum].
  - pose proof (line_up_mono v bound r Hr Hu).
    assert (line_wf (v, r)) as Hl by (split; [simpl; lia|done]).
    pose proof (line_amount_nonneg RoundUp _ Hl). split; [lia|]. by constructor.
  - assert (line_wf (bound, r)) as Hl by done.
    pose proof (line_amount_nonneg RoundUp _ Hl). split; [lia|]. constructor.
Qed.

(** The usage lines cost at most the bound lines. *)
Lemma usage_lines_le b rb p :
  rates_wf p -> 0 <= InputBoundTokens rb -> 0 <= OutputCapTokens rb -> usage_within b rb ->
  0 <= lines_sum RoundUp (known_lines (price_lines b p)) <= lines_sum RoundUp (bound_lines rb p) /\
  Forall line_wf (known_lines (price_lines b p)).
Proof.
  intros (R1 & R2 & R3 & R4) Hi Ho (U1 & U2 & U3 & U4).
  destruct (known_line_le _ _ _ R1 Hi U1) as [L1 F1]. destruct (known_line_le _ _ _ R2 Hi U2) as [L2 F2].
  destruct (known_line_le _ _ _ R3 Hi U3) as [L3 F3]. destruct (known_line_le _ _ _ R4 Ho U4) as [L4 F4].
  assert (known_lines (price_lines b p) =
    known_lines [(InputTokens b, pv_Input p)] ++ known_lines [(CacheReadTokens b, pv_CacheRead p)] ++
    known_lines [(CacheWriteTokens b, pv_CacheWrite p)] ++ known_lines [(OutputTokens b, pv_Output p)]) as ->.
  { unfold known_lines, price_lines. cbn [flat_map fst snd]. by rewrite !app_nil_r. }
  split; [|by rewrite !Forall_app].
  rewrite !lines_sum_app. cbn [bound_lines lines_sum]. lia.
Qed.

Lemma pay_line_ge mode t l t' :
  0 <= t <= max_int64 -> pay_line mode t l = Ok t' -> t <= t' <= max_int64.
Proof.
  unfold pay_line, addLine. intros Ht H. apply rbind_Ok in H as (m & Hm & H).
  apply MicrosForUnits_Ok in Hm as [_ Hm].
  apply Credit.Add_Ok in H as [-> Hr]; i64.
Qed.

(** What a successful reservation says about its amount. *)
Lemma reserve_extras_ge rates ls t t' :
  0 <= t <= max_int64 -> rfold (reserve_extra rates) t ls = Ok t' -> t <= t' <= max_int64.
Proof.
  intros Ht Hf.
  apply (rfold_inv (fun s => t <= s <= max_int64) (reserve_extra rates) ls t t'); [|lia|done].
  intros [n u] s1 s2 _ Hs Hx. unfold reserve_extra in Hx. simpl in Hx.
  destruct (u <? 0); [done|]. destruct (rates !! n) as [r|].
  - rewrite reserve_line_pay in Hx. apply pay_line_ge in Hx; lia.
  - inv_ok. lia.
Qed.

Lemma ReserveAmount_ge p rb hold :
  rates_wf p -> ReserveAmount p rb = Ok hold ->
  pv_Kind p = PriceSaleCredit /\ 0 <= InputBoundTokens rb /\ 0 < OutputCapTokens rb /\
  0 <= lines_sum RoundUp (bound_lines rb p) <= hold /\ hold <= max_int64.
Proof.
  intros (R1 & R2 & R3 & R4) H. unfold ReserveAmount in H. inv_ok. bool_prop.
  assert (Forall line_wf (bound_lines rb p)) as Hwf.
  { unfold bound_lines. repeat constructor; simpl; try lia; try apply R1; try apply R2;
      try apply R3; try apply R4. }
  rewrite rfold_reserve_line in E1. fold (bound_lines rb p) in E1.
  rewrite pay_lines_exact in E1 by (done || i64).
  pose proof (lines_sum_nonneg RoundUp _ Hwf). rewrite Z.add_0_l in E1. inv_ok. bool_prop.
  apply reserve_extras_ge in E2; [|lia]. repeat split; auto; lia.
Qed.

(** A quote without extras, in closed form. *)
Lemma Quote_exact p usage :
  Validate p = Ok tt -> rates_wf p ->
  (u_Source usage = UsageReported \/ u_Source usage = UsageEstimated) ->
  no_buckets (u_Buckets usage) = false ->
  Forall line_wf (known_lines (price_lines (u_Buckets usage) p)) ->
  let total := lines_sum (RoundingFor (pv_Kind p)) (known_lines (price_lines (u_Buckets usage) p)) in
  exists c, Quote p usage [] = (if total <=? max_int64 then Ok c else Err (ESentinel ErrOverflow)) /\
    charged_micros c = total /\ c_Basis c = u_Source usage /\ c_Kind c = pv_Kind p.
Proof.
  intros Hv _ Hsrc Hb Hl total. unfold Quote. rewrite Hv. cbn [rbind].
  assert (forall (A : Type) (k : res A),
    rbind (match u_Source usage with
            | UsageReported | UsageEstimated => Ok tt
            | UsageUnknown => Err ErrUnknownUsage
            | UsagePending => Err (NewError CodeInvalidInput) end) (fun _ => k) = k) as Hs
    by (intros; by destruct Hsrc as [-> | ->]).
  rewrite Hs. rewrite Hb. cbn [andb]. fold (price_lines (u_Buckets usage) p).
  assert (real_mode (RoundingFor (pv_Kind p))) as Hm by (by destruct (pv_Kind p)).
  rewrite rfold_bucket_lines, pay_lines_exact by (done || i64). rewrite Z.add_0_l. fold total.
  pose proof (lines_sum_nonneg (RoundingFor (pv_Kind p)) _ Hl) as Hpos. fold total in Hpos.
  destruct (bool_decide (pv_Kind p = PriceSaleCredit)) eqn:Ek; bool_prop.
  - exists (mkCharge (pv_Kind p) (u_Source usage) total None (pv_ID p) (pv_Revision p) (u_Buckets usage)).
    split; [|done]. destruct (total <=? max_int64); reflexivity.
  - assert (validCurrency (pv_Currency p) = true) as Hc.
    { unfold Validate in Hv. apply rbind_Ok in Hv as (u & Hv & _).
      destruct (pv_Kind p); [done| |];
        (destruct (NewMoney 0 (pv_Currency p)) eqn:E; [|done]); by apply NewMoney_Ok in E as (_ & ? & _). }
    exists (mkCharge (pv_Kind p) (u_Source usage) 0 (Some (mkMoney total (pv_Currency p)))
              (pv_ID p) (pv_Revision p) (u_Buckets usage)). split; [|done].
    destruct (total <=? max_int64); simpl; [|done]. by rewrite NewMoney_ok.
Qed.

(** ** Properties *)

(** A priced count of units is the exact rational price rounded
    in the stated direction: never under it for customer-facing rounding
    (within one micro-unit), never over it for costs, nearest for half-up. *)
Theorem units_priced_exactly (r : Rate) (units m : Z) (mode : RoundingMode)
    (Hr : rate_wf r) (Hm : MicrosForUnits r units mode = Ok m) :
  match mode with
  | RoundUp => (m - 1) * Den r < Num r * units <= m * Den r
  | RoundDown => m * Den r <= Num r * units < (m + 1) * Den r
  | RoundHalfUp => (2 * m - 1) * Den r <= 2 * (Num r * units) < (2 * m + 1) * Den r
  | RoundOther _ => False
  end.
Proof.
  pose proof (proj1 (MicrosForUnits_Ok _ _ _ _ Hm)) as Hu. pose proof (proj2 Hr).
  rewrite MicrosForUnits_exact in Hm by done. destruct mode; cbn [rounded] in Hm; inv_ok.
  - pose proof (Z.div_mod (Num r * units) (Den r) ltac:(lia)).
    pose proof (Z.mod_pos_bound (Num r * units) (Den r) ltac:(lia)). lia.
  - pose proof (ceil_div_bound (Num r * units) (Den r) ltac:(lia)). lia.
  - unfold half_up_div. pose proof (Z.div_mod (2 * (Num r * units) + Den r) (2 * Den r) ltac:(lia)).
    pose proof (Z.mod_pos_bound (2 * (Num r * units) + Den r) (2 * Den r) ltac:(lia)). lia.
Qed.

Lemma units_priced_exactly_witness : (3 - 1) * 1000000 < 7 * 300000 <= 3 * 1000000.
Proof.
  apply (units_priced_exactly (mkRate 7 1000000) 300000 3 RoundUp).
  - vm_compute. repeat split; discriminate.
  - vm_compute. reflexivity.
Defined.

(** C39: COVERAGE. A reservation priced for the bounds covers every settlement
    whose normalised usage stays within them: the decision succeeds, its
    charge is at most the hold and no overage is reported. *)
Theorem reservation_covers_charge (p : PriceVersion) (rb : ReserveBounds) (hold : Microcredit)
    (usage : UsageRecord) (inc : Inclusion) (b : UsageBuckets)
    (Hprice : Validate p = Ok tt) (Hrates : rates_wf p)
    (Hres : ReserveAmount p rb = Ok hold)
    (Hsrc : u_Source usage = UsageReported \/ u_Source usage = UsageEstimated)
    (Hnorm : BillableBuckets (u_Buckets usage) inc = Ok b)
    (Hsome : no_buckets b = false) (Hwithin : usage_within b rb) :
  exists d, Decide usage p inc hold = Ok d /\ 0 <= charged_micros (d_Charge d) <= hold /\
            OverageMicros d = 0.
Proof.
  destruct (ReserveAmount_ge p rb hold Hrates Hres) as (Hk & Hi & Ho & Hle & Hmax).
  destruct (usage_lines_le b rb p Hrates Hi ltac:(lia) Hwithin) as [Hsum Hwf].
  unfold Decide. rewrite Hnorm. cbn [rbind].
  destruct (Quote_exact p (mkUsage (u_RequestID usage) (u_AttemptID usage) (u_Source usage) b
              (u_Revision usage))) as (c & Hq & Hc & _); try done.
  simpl u_Buckets in *. rewrite Hk in *. simpl RoundingFor in *. rewrite Hq.
  rewrite (proj2 (Z.leb_le _ _)) by lia. cbn [rbind].
  eexists. split; [done|]. simpl. unfold OverageMicros. simpl. rewrite Hc. split; [lia|].
  rewrite (proj2 (Z.leb_le _ _)) by lia. done.
Qed.

Definition per_mtok (n : Z) : Rate := mkRate n 1000000.
Definition sample_price : PriceVersion :=
  mkPrice "pv" "m" PriceSaleCredit EmptyString (per_mtok 3000000) (per_mtok 300000)
    (per_mtok 3750000) (per_mtok 15000000) ∅ 1 0 None.
Definition sample_usage : UsageRecord :=
  mkUsage "r" "a" UsageReported (mkBuckets (Some 900) (Some 400) None (Some 77) (Some 11)) 1.

Lemma reservation_covers_charge_witness :
  exists d, Decide sample_usage sample_price (mkInclusion true true false) 22050 = Ok d.
Proof.
  destruct (reservation_covers_charge sample_price (mkBounds 1000 1000 []) 22050 sample_usage
              (mkInclusion true true false)
              (mkBuckets (Some 500) (Some 400) None (Some 77) (Some 11))) as (d & H & _).
  - vm_compute. reflexivity.
  - vm_compute. repeat split; discriminate.
  - vm_compute. reflexivity.
  - left. reflexivity.
  - vm_compute. reflexivity.
  - vm_compute. reflexivity.
  - vm_compute. repeat split; discriminate.
  - exists d. exact H.
Defined.

(** Conservation of tokens by normalisation. *)
Definition tokens (o : option Z) : Z := default 0 o.

Definition buckets_sane (b : UsageBuckets) : Prop :=
  bucket_within (InputTokens b) (2 ^ 61) /\ bucket_within (CacheReadTokens b) (2 ^ 61) /\
  bucket_within (CacheWriteTokens b) (2 ^ 61) /\ bucket_within (OutputTokens b) (2 ^ 61) /\
  bucket_within (ReasoningTokens b) (2 ^ 61).

Lemma subBucket_Ok base part r :
  bucket_within base (2 ^ 61) -> bucket_within part (2 ^ 61) ->
  subBucket base part = Ok r ->
  (base = None <-> r = None) /\ bucket_within r (2 ^ 61) /\
  (base <> None -> tokens r + tokens part = tokens base).
Proof.
  unfold subBucket, bucket_within, tokens. intros Hb Hp H.
  destruct base as [v|], part as [w|]; simpl in *; inv_ok; simpl; try done.
  - bool_prop. unfold sub64. rewrite wrap64_id by i64. repeat split; try done; lia.
  - repeat split; try done; lia.
Qed.

(** NORMALISE. Normalising the upstream buckets loses and duplicates no
    token: a cache bucket declared inside the input is taken out of it,
    reasoning reported apart is folded into the output once, and a bucket that
    was not reported stays unreported instead of becoming zero. *)
Theorem billable_conserves_tokens (raw b : UsageBuckets) (inc : Inclusion)
    (Hraw : buckets_sane raw) (Hok : BillableBuckets raw inc = Ok b) :
  (InputTokens raw = None <-> InputTokens b = None) /\
  (InputTokens raw <> None ->
   tokens (InputTokens b)
   + (if CacheReadInInput inc then tokens (CacheReadTokens raw) else 0)
   + (if CacheWriteInInput inc then tokens (CacheWriteTokens raw) else 0)
   = tokens (InputTokens raw)) /\
  tokens (OutputTokens b)
  = tokens (OutputTokens raw) + (if ReasoningInOutput inc then 0 else tokens (ReasoningTokens raw)) /\
  CacheReadTokens b = CacheReadTokens raw /\ CacheWriteTokens b = CacheWriteTokens raw.
Proof.
  destruct Hraw as (Hi & Hcr & Hcw & Ho & Hre). unfold BillableBuckets in Hok.
  apply rbind_Ok in Hok as (i1 & E1 & Hok). apply rbind_Ok in Hok as (i2 & E2 & Hok). apply Ok_inj in Hok. subst b.
  assert ((InputTokens raw = None <-> i1 = None) /\ bucket_within i1 (2 ^ 61) /\
          (InputTokens raw <> None -> tokens i1 + (if CacheReadInInput inc then tokens (CacheReadTokens raw) else 0)
             = tokens (InputTokens raw))) as (H1 & H2 & H3).
  { destruct (CacheReadInInput inc); [by apply subBucket_Ok in E1|].
    apply Ok_inj in E1. subst i1. rewrite Z.add_0_r. done. }
  assert ((i1 = None <-> i2 = None) /\
          (i1 <> None -> tokens i2 + (if CacheWriteInInput inc then tokens (CacheWriteTokens raw) else 0)
             = tokens i1)) as (H4 & H5).
  { destruct (CacheWriteInInput inc).
    - apply subBucket_Ok in E2 as (? & _ & ?); done.
    - apply Ok_inj in E2. subst i2. rewrite Z.add_0_r. done. }
  cbn [InputTokens CacheReadTokens CacheWriteTokens OutputTokens].
  split; [by rewrite H1|]. split.
  { intros Hn. specialize (H3 Hn). assert (i1 <> None) as Hn1 by naive_solver. specialize (H5 Hn1). lia. }
  split; [|done]. unfold tokens, addBucket, add64, bucket_within in *.
  revert Ho Hre. destruct (ReasoningTokens raw), (OutputTokens raw), (ReasoningInOutput inc);
    simpl; intros; try rewrite wrap64_id by i64; lia.
Qed.

Lemma billable_conserves_tokens_witness : tokens (Some 88) = tokens (Some 77) + tokens (Some 11).
Proof.
  destruct (billable_conserves_tokens (u_Buckets sample_usage)
              (mkBuckets (Some 500) (Some 400) None (Some 88) (Some 11))
              (mkInclusion false true false)) as (_ & _ & H & _).
  - vm_compute. repeat split; discriminate.
  - vm_compute. reflexivity.
  - exact H.
Defined.

(** The fold of [ResolvePrice]: best so far. *)
Lemma resolve_fold kind at_ vs best :
  (forall b, best = Some b -> pv_Kind b = kind /\ EffectiveAt b at_ = true) ->
  let r := foldl (resolve_step kind at_) best vs in
  (forall b, r = Some b -> pv_Kind b = kind /\ EffectiveAt b at_ = true /\ (best = Some b \/ b ∈ vs)) /\
  (forall v, best = Some v \/ v ∈ vs -> pv_Kind v = kind -> EffectiveAt v at_ = true ->
     exists b, r = Some b /\ pv_Revision v <= pv_Revision b).
Proof.
  revert best. induction vs as [|v vs IH]; intros best Hbest r; simpl in r.
  { split; [intros b Hb; destruct (Hbest b Hb); auto|].
    intros v [Hv|Hv] _ _; [exists v; split; [exact Hv|lia]|set_solver]. }
  assert (forall b, resolve_step kind at_ best v = Some b -> pv_Kind b = kind /\ EffectiveAt b at_ = true)
    as Hstep.
  { unfold resolve_step. intros b. repeat case_match; bool_prop; intros; simplify_eq/=; auto. }
  destruct (IH (resolve_step kind at_ best v) Hstep) as [IH1 IH2]. fold r in IH1, IH2. split.
  - intros b Hb. destruct (IH1 b Hb) as (? & ? & Hin). repeat split; auto.
    destruct Hin as [Hin|]; [|set_solver]. unfold resolve_step in Hin.
    repeat case_match; simplify_eq; set_solver.
  - intros v' Hv' Hk He.
    assert ((exists b, resolve_step kind at_ best v = Some b /\ pv_Revision v' <= pv_Revision b) \/ v' ∈ vs)
      as [(b & Hb & Hle)|Hin]; [| |eauto].
    + destruct Hv' as [Hv'|[->|]%elem_of_cons]; [| |auto]; left; unfold resolve_step.
      * destruct (negb (bool_decide (pv_Kind v = kind)) || negb (EffectiveAt v at_));
          [exists v'; split; [done|lia]|].
        rewrite Hv'. destruct (Z.ltb_spec (pv_Revision v') (pv_Revision v)); eexists; split; try done; lia.
      * rewrite bool_decide_eq_true_2 by done. rewrite He. simpl.
        destruct best as [b|]; [|eexists; split; [done|lia]].
        destruct (Z.ltb_spec (pv_Revision b) (pv_Revision v)); eexists; split; try done; lia.
    + destruct (Hstep b Hb). destruct (IH2 b (or_introl Hb)) as (b' & -> & ?); auto.
      exists b'. split; [done|lia].
Qed.

(** RESOLVE. Price resolution returns an effective version of the asked
    list with the highest revision, and refuses exactly when the list has no
    effective version: an unpriced capability is never served. *)
Theorem price_resolution (vs : list PriceVersion) (kind : PriceKind) (at_ : instant) :
  match ResolvePrice vs kind at_ with
  | Ok b => b ∈ vs /\ pv_Kind b = kind /\ EffectiveAt b at_ = true /\
            forall v, v ∈ vs -> pv_Kind v = kind -> EffectiveAt v at_ = true ->
              pv_Revision v <= pv_Revision b
  | Err e => e = ErrUnpriced /\ forall v, v ∈ vs -> pv_Kind v = kind -> EffectiveAt v at_ = false
  end.
Proof.
  unfold ResolvePrice.
  destruct (resolve_fold kind at_ vs None ltac:(discriminate)) as [H1 H2].
  destruct (foldl (resolve_step kind at_) None vs) as [b|].
  - destruct (H1 b eq_refl) as (? & ? & [?|Hin]); [done|]. repeat split; auto.
    intros v Hv Hk He. destruct (H2 v (or_intror Hv) Hk He) as (b' & [= <-] & ?). done.
  - split; [done|]. intros v Hv Hk. destruct (EffectiveAt v at_) eqn:E; [|done].
    by destruct (H2 v (or_intror Hv) Hk E) as (b & ? & _).
Qed.

(** CORRECT. A settlement correction moves the original charge exactly to
    the corrected one, debiting or crediting a positive difference; a no-op
    or negative correction is refused. *)
Theorem correction_exact (original corrected : Microcredit)
    (Ho : 0 <= original <= max_int64) (Hc : corrected <= max_int64) :
  match CorrectionDelta original corrected with
  | Ok (dir, amount) =>
      0 < amount /\ 0 <= corrected /\
      corrected = match dir with DirectionDebit => original + amount | DirectionCredit => original - amount end
  | Err _ => corrected < 0 \/ corrected = original
  end.
Proof.
  unfold CorrectionDelta, sub64.
  destruct (Z.ltb_spec corrected 0); [by left|].
  destruct (Z.ltb_spec original corrected); [rewrite wrap64_id by i64; lia|].
  destruct (Z.ltb_spec corrected original); [rewrite wrap64_id by i64; lia|]. right. lia.
Qed.

Lemma correction_exact_witness : 0 < 300 /\ 0 <= 700 /\ 700 = 1000 - 300.
Proof.
  apply (correction_exact 1000 700); vm_compute; repeat split; discriminate.
Defined.

(** BOUND. The two token bounds every admission is priced from: the output
    cap is positive and below both the model's and the client's limit, the
    input bound is below both the estimate and the model's context. *)
Theorem token_bounds (client : option Z) (est ctx maxOut cap bound : Z)
    (Hcap : EffectiveOutputCap client maxOut = Ok cap) (Hin : InputBound est ctx = Ok bound) :
  0 < cap <= maxOut /\ (forall c, client = Some c -> cap <= c) /\
  0 <= bound <= ctx /\ bound <= est.
Proof.
  unfold EffectiveOutputCap in Hcap. unfold InputBound in Hin.
  destruct client as [c|]; repeat case_match; simplify_eq; bool_prop;
    repeat split; try lia; intros; simplify_eq; lia.
Qed.

Lemma token_bounds_witness : 0 < 512 <= 4096 /\ 0 <= 800 <= 128000.
Proof.
  destruct (token_bounds (Some 512) 800 128000 4096 512 800) as (H1 & _ & H2 & _);
    [vm_compute; reflexivity|vm_compute; reflexivity|].
  split; [exact H1|exact H2].
Defined.
