(* ===== verification/WalletRules.v ===== *)
(** * WalletRules: the pure rules of the prepaid wallet

    [internal/inference/accounting/wallet.go] (entry invariants, reversals,
    the bonus-first freeze and consume splits, the derived balance, the
    decimal payment boundary, month bounds) and
    [internal/inference/accounting/overage.go] (the opt-in spend gate and its
    audit rows). *)

From Stdlib Require Import ZArith Lia Bool.
From stdpp Require Import base gmap strings pretty list.
From S2P Require Import Prelude Domain Money Calendar.

Local Open Scope Z_scope.
Local Open Scope go_scope.

(** Sources, entry types and directions come from text columns: a value
    outside the constants is carried as [Other]. *)
Inductive WalletSource := WalletCash | WalletBonus | WalletSourceOther.
Inductive WalletEntryType :=
| EntryTopup | EntryBonus | EntryConsume | EntryRefund | EntryAdjustment | EntryReversal | EntryOther.
Inductive WalletDirection := DirDebit | DirCredit.

#[global] Instance WalletSource_eq_dec : EqDecision WalletSource.
Proof. solve_decision. Defined.
#[global] Instance WalletEntryType_eq_dec : EqDecision WalletEntryType.
Proof. solve_decision. Defined.
#[global] Instance WalletDirection_eq_dec : EqDecision WalletDirection.
Proof. solve_decision. Defined.

(** Idempotent business keys. *)
Definition source_text (s : WalletSource) : string :=
  match s with WalletCash => "cash" | WalletBonus => "bonus" | WalletSourceOther => "?" end.

Definition WalletTopupKey (paymentID : string) : string := "wallet:topup:" +:+ paymentID.
Definition WalletRefundKey (refundID : string) : string := "wallet:refund:" +:+ refundID.
Definition WalletConsumeKey (requestID : string) (source : WalletSource) : string :=
  "wallet:consume:" +:+ requestID +:+ ":" +:+ source_text source.
Definition WalletAdjustmentKey (idempotencyKey : string) : string :=
  "wallet:adjustment:" +:+ idempotencyKey.
Definition WalletReversalKey (entryID : Z) : string := "wallet:reversal:" +:+ pretty entryID.

Record WalletEntrySpec := mkSpec {
  s_Type : WalletEntryType;
  s_Direction : WalletDirection;
  s_Source : WalletSource;
  s_Amount : Money;
}.

Definition ErrBonusNotRefundable : error := NewError CodeInvalidInput.
Definition ErrInsufficientBalance : error := NewError CodeInsufficientBalance.

Definition ValidateWalletEntry (e : WalletEntrySpec) : res unit :=
  fail_if Micros (s_Amount e) <=? 0 with WrapError CodeInvalidInput (ESentinel ErrNegativeValue);
  fail_if bool_decide (s_Source e = WalletSourceOther) with NewError CodeInvalidInput;
  match s_Type e with
  | EntryTopup =>
      guard bool_decide (s_Direction e = DirCredit) && bool_decide (s_Source e = WalletCash)
        else NewError CodeInvalidInput; Ok tt
  | EntryBonus =>
      guard bool_decide (s_Direction e = DirCredit) && bool_decide (s_Source e = WalletBonus)
        else NewError CodeInvalidInput; Ok tt
  | EntryConsume =>
      guard bool_decide (s_Direction e = DirDebit) else NewError CodeInvalidInput; Ok tt
  | EntryRefund =>
      guard bool_decide (s_Direction e = DirDebit) && bool_decide (s_Source e = WalletCash)
        else ErrBonusNotRefundable; Ok tt
  | EntryAdjustment | EntryReversal => Ok tt
  | EntryOther => Err (NewError CodeInvalidInput)
  end.

Definition ReversalOf (orig : WalletEntrySpec) : res WalletEntrySpec :=
  fail_if bool_decide (s_Type orig = EntryReversal) with NewError CodeInvalidInput;
  Ok (mkSpec EntryReversal
        (match s_Direction orig with DirDebit => DirCredit | DirCredit => DirDebit end)
        (s_Source orig) (s_Amount orig)).

(** ** Splits: bonus first *)

(** Returns (cash, bonus). *)
Definition SplitFreeze (bonusAvailable cashAvailable amount : Z) : res (Z * Z) :=
  fail_if amount <=? 0 with WrapError CodeInvalidInput (ESentinel ErrNegativeValue);
  fail_if add64 bonusAvailable cashAvailable <? amount with ErrInsufficientBalance;
  let bonusAvailable := if bonusAvailable <? 0 then 0 else bonusAvailable in
  let cashAvailable := if cashAvailable <? 0 then 0 else cashAvailable in
  let bonus := Z.min amount bonusAvailable in
  let cash := sub64 amount bonus in
  Ok (cash, bonus).

(** Returns (consumeCash, consumeBonus, extraCash). *)
Definition SplitConsume (holdCash holdBonus charge : Z) : res (Z * Z * Z) :=
  fail_if charge <? 0 with WrapError CodeInvalidInput (ESentinel ErrNegativeValue);
  let consumeBonus := Z.min charge holdBonus in
  let rem := sub64 charge consumeBonus in
  let consumeCash := Z.min rem holdCash in
  let extraCash := sub64 rem consumeCash in
  Ok (consumeCash, consumeBonus, extraCash).

Definition SplitRelease (holdCash holdBonus consumeCash consumeBonus : Z) : res (Z * Z) :=
  fail_if (holdCash <? consumeCash) || (holdBonus <? consumeBonus)
          || (consumeCash <? 0) || (consumeBonus <? 0) with NewError CodeInvalidInput;
  Ok (sub64 holdCash consumeCash, sub64 holdBonus consumeBonus).

(** ** Derived balance *)

Record WalletSums := mkSums {
  CashCredit : Z; CashDebit : Z; BonusCredit : Z; BonusDebit : Z; HeldCash : Z; HeldBonus : Z;
}.

Record WalletBalance := mkBalance {
  wb_Currency : string; CashAvailable : Z; BonusAvailable : Z; CashHeld : Z; BonusHeld : Z;
}.

Definition DeriveWalletBalance (currency : string) (s : WalletSums) : res WalletBalance :=
  let? _ := NewMoney 0 currency in
  Ok (mkBalance currency
        (sub64 (sub64 (CashCredit s) (CashDebit s)) (HeldCash s))
        (sub64 (sub64 (BonusCredit s) (BonusDebit s)) (HeldBonus s))
        (HeldCash s) (HeldBonus s)).

(** ** The payment boundary *)

Definition MicrosPerMajor : Z := 1000000.

Definition MicrosFromDecimalMajor (dec : bytes) (currency : string) : res Z :=
  let? _ := NewMoney 0 currency in
  let? rate := ParseDecimal dec in
  let? micros := MicrosForUnits rate MicrosPerMajor RoundDown in
  let? up := MicrosForUnits rate MicrosPerMajor RoundUp in
  fail_if negb (up =? micros) with NewError CodeInvalidInput;
  Ok micros.

Definition MonthBoundsUTC (t : instant) : instant * instant :=
  let start := Date (Year t) (Month t) 1 0 0 0 0 in
  (start, AddDate start 0 1 0).

(** ** Overage *)

Record OverageSettings := mkOverage { Enabled : bool; MonthlySpendLimitMicros : option Z }.

Definition OverageValidate (s : OverageSettings) : res unit :=
  fail_if Enabled s && bool_decide (MonthlySpendLimitMicros s = None) with NewError CodeInvalidInput;
  match MonthlySpendLimitMicros s with
  | Some l => if l <? 0 then Err (WrapError CodeInvalidInput (ESentinel ErrNegativeValue)) else Ok tt
  | None => Ok tt
  end.

Definition ErrOverageDisabled : error := NewError CodeQuotaExceeded.
Definition ErrSpendLimitExceeded : error := NewError CodeQuotaExceeded.

Definition CheckWalletSpend (s : OverageSettings) (monthSpent hold : Z) : res unit :=
  let? _ := OverageValidate s in
  fail_if negb (Enabled s) with ErrOverageDisabled;
  fail_if (hold <? 0) || (monthSpent <? 0)
    with WrapError CodeInvalidInput (ESentinel ErrNegativeValue);
  fail_if default 0 (MonthlySpendLimitMicros s) <? add64 monthSpent hold
    with WrapError CodeQuotaExceeded ErrSpendLimitExceeded;
  Ok tt.

Inductive AuditAction :=
| WalletAuditCreate | WalletAuditEnableOverage | WalletAuditDisableOverage | WalletAuditSetSpendLimit.

#[global] Instance AuditAction_eq_dec : EqDecision AuditAction.
Proof. solve_decision. Defined.

Record OverageAuditSpec := mkAudit {
  a_Action : AuditAction;
  a_ChangedBy : string;
  a_OldEnabled : option bool;
  a_NewEnabled : option bool;
  a_OldLimitMicros : option Z;
  a_NewLimitMicros : option Z;
}.

Definition sameInt64Ptr (a b : option Z) : bool :=
  match a, b with
  | None, None => true
  | Some x, Some y => x =? y
  | _, _ => false
  end.

Definition AuditForChange (exists_ : bool) (old new : OverageSettings) (changedBy : string)
  : list OverageAuditSpec :=
  (if exists_ then []
   else [mkAudit WalletAuditCreate changedBy None (Some (Enabled new)) None (MonthlySpendLimitMicros new)])
  ++ (if Bool.eqb (Enabled old) (Enabled new) then []
      else [mkAudit (if Enabled new then WalletAuditEnableOverage else WalletAuditDisableOverage)
              changedBy (Some (Enabled old)) (Some (Enabled new))
              (MonthlySpendLimitMicros old) (MonthlySpendLimitMicros new)])
  ++ (if sameInt64Ptr (MonthlySpendLimitMicros old) (MonthlySpendLimitMicros new) then []
      else [mkAudit WalletAuditSetSpendLimit changedBy (Some (Enabled old)) (Some (Enabled new))
              (MonthlySpendLimitMicros old) (MonthlySpendLimitMicros new)]).

(** ** Lemmas *)

Lemma SplitFreeze_Ok ba ca amount cash bonus :
  in_int64 ba -> in_int64 ca -> in_int64 (ba + ca) -> amount <= max_int64 ->
  SplitFreeze ba ca amount = Ok (cash, bonus) ->
  0 < amount /\ amount <= ba + ca /\ cash + bonus = amount /\
  0 <= bonus <= Z.max 0 ba /\ 0 <= cash <= Z.max 0 ca /\ (cash = 0 \/ bonus = Z.max 0 ba).
Proof.
  intros Hb Hc Hs Ha H. unfold SplitFreeze, add64, sub64 in H. inv_ok. bool_prop.
  rewrite (wrap64_id (ba + ca)) in E0 by done.
  destruct (Z.ltb_spec ba 0); rewrite wrap64_id by i64; lia.
Qed.

Lemma SplitConsume_Ok hc hb charge cc cb extra :
  0 <= hc -> 0 <= hb -> charge <= max_int64 ->
  SplitConsume hc hb charge = Ok (cc, cb, extra) ->
  0 <= charge /\ cc + cb + extra = charge /\ 0 <= cc <= hc /\ 0 <= cb <= hb /\
  extra = Z.max 0 (charge - (hc + hb)) /\ (cb = hb \/ cc = 0).
Proof.
  intros Hc Hb Hch H. unfold SplitConsume, sub64 in H. inv_ok. bool_prop.
  rewrite (wrap64_id (charge - Z.min charge hb)) by i64. rewrite wrap64_id by i64. lia.
Qed.

(** ** Properties *)

(** FREEZE. A freeze succeeds exactly when the total derived balance
    covers it; it is split into non-negative parts that add up to the amount,
    bonus before cash, and never takes more than a source has, even when the
    other source is negative. *)
Theorem freeze_split (bonusAvailable cashAvailable amount : Z)
    (Hb : in_int64 bonusAvailable) (Hc : in_int64 cashAvailable)
    (Hsum : in_int64 (bonusAvailable + cashAvailable)) (Ha : in_int64 amount) :
  match SplitFreeze bonusAvailable cashAvailable amount with
  | Ok (cash, bonus) =>
      0 < amount <= bonusAvailable + cashAvailable /\ cash + bonus = amount /\
      0 <= bonus <= Z.max 0 bonusAvailable /\ 0 <= cash <= Z.max 0 cashAvailable /\
      (cash = 0 \/ bonus = Z.max 0 bonusAvailable)
  | Err e => amount <= 0 \/ (e = ErrInsufficientBalance /\ bonusAvailable + cashAvailable < amount)
  end.
Proof.
  destruct (SplitFreeze bonusAvailable cashAvailable amount) as [[cash bonus]|e] eqn:E.
  - apply SplitFreeze_Ok in E as (? & ? & ? & ? & ? & ?); [|done..|i64]. repeat split; lia.
  - unfold SplitFreeze, add64 in E. destruct (Z.leb_spec amount 0); [by left|].
    rewrite wrap64_id in E by done.
    destruct (Z.ltb_spec (bonusAvailable + cashAvailable) amount); [|done]. injection E as <-. by right.
Qed.

Lemma freeze_split_witness : 0 < 7 <= -5 + 20 /\ 7 + 0 = 7.
Proof.
  destruct (freeze_split (-5) 20 7 ltac:(by_eval) ltac:(by_eval) ltac:(by_eval) ltac:(by_eval))
    as (H1 & H2 & _).
  split; [exact H1|exact H2].
Defined.

(** CONSUME. Settling a charge against a frozen composition loses nothing:
    the consumed parts and the over-hold excess add up to the charge, stay
    within the composition, the excess is exactly what the charge has beyond
    the hold, and the released remainder plus the consumption is the hold. *)
Theorem consume_release_conserve (holdCash holdBonus charge : Z)
    (Hc : 0 <= holdCash) (Hb : 0 <= holdBonus) (Hs : holdCash + holdBonus <= max_int64)
    (Hch : 0 <= charge <= max_int64) :
  exists cc cb extra rc rb,
    SplitConsume holdCash holdBonus charge = Ok (cc, cb, extra) /\
    SplitRelease holdCash holdBonus cc cb = Ok (rc, rb) /\
    cc + cb + extra = charge /\ extra = Z.max 0 (charge - (holdCash + holdBonus)) /\
    rc + cc = holdCash /\ rb + cb = holdBonus /\ 0 <= rc /\ 0 <= rb /\
    (0 < rb -> cc = 0).
Proof.
  destruct (SplitConsume holdCash holdBonus charge) as [[[cc cb] extra]|e] eqn:E.
  2:{ unfold SplitConsume in E. destruct (Z.ltb_spec charge 0); [lia|done]. }
  pose proof E as E'. apply SplitConsume_Ok in E as (_ & H1 & H2 & H3 & H4 & H5); [|i64..].
  exists cc, cb, extra, (holdCash - cc), (holdBonus - cb). split; [done|]. split.
  { unfold SplitRelease, sub64. destruct (Z.ltb_spec holdCash cc), (Z.ltb_spec holdBonus cb),
      (Z.ltb_spec cc 0), (Z.ltb_spec cb 0); try lia. simpl. by rewrite !wrap64_id by i64. }
  repeat split; lia.
Qed.

Lemma consume_release_conserve_witness :
  exists cc cb extra rc rb, SplitConsume 10 5 20 = Ok (cc, cb, extra) /\
    SplitRelease 10 5 cc cb = Ok (rc, rb) /\ cc + cb + extra = 20.
Proof.
  destruct (consume_release_conserve 10 5 20 ltac:(by_eval) ltac:(by_eval) ltac:(by_eval) ltac:(by_eval))
    as (cc & cb & ex & rc & rb & H1 & H2 & H3 & _).
  exists cc, cb, ex, rc, rb. split; [exact H1|]. split; [exact H2|exact H3].
Defined.

(** Signed effect of an entry on its source. *)
Definition signed (e : WalletEntrySpec) : Z :=
  match s_Direction e with DirCredit => Micros (s_Amount e) | DirDebit => - Micros (s_Amount e) end.

(** ENTRY. Valid ledger entries: positive amount of a known source;
    top-ups credit cash, gifts credit bonus, consumption debits, and a refund
    only ever debits cash. The reversal of a valid entry is valid, of the same
    source, and cancels it exactly; a reversal is never reversed. *)
Theorem entry_rules (e : WalletEntrySpec) (Hv : ValidateWalletEntry e = Ok tt) :
  0 < Micros (s_Amount e) /\ s_Source e <> WalletSourceOther /\
  (s_Type e = EntryRefund -> s_Source e = WalletCash /\ s_Direction e = DirDebit) /\
  (s_Type e = EntryTopup -> s_Source e = WalletCash /\ s_Direction e = DirCredit) /\
  (s_Type e = EntryBonus -> s_Source e = WalletBonus /\ s_Direction e = DirCredit) /\
  (s_Type e = EntryConsume -> s_Direction e = DirDebit) /\
  match ReversalOf e with
  | Ok r => ValidateWalletEntry r = Ok tt /\ s_Source r = s_Source e /\ signed r = - signed e /\
            ReversalOf r = Err (NewError CodeInvalidInput)
  | Err _ => s_Type e = EntryReversal
  end.
Proof.
  destruct e as [ty dir src [amt cur]]. unfold ValidateWalletEntry, ReversalOf, signed in *. simpl in *.
  destruct (Z.leb_spec amt 0) as [|Ha]; [done|].
  destruct src, ty, dir; simpl in *; try done; repeat split; try done;
    destruct (Z.leb_spec amt 0); try done; lia.
Qed.

Lemma entry_rules_witness : 0 < Micros (mkMoney 5 "USD").
Proof.
  apply (entry_rules (mkSpec EntryRefund DirDebit WalletCash (mkMoney 5 "USD"))).
  vm_compute. reflexivity.
Defined.

(** DECIMAL. The payment boundary converts exactly: the micros returned,
    over 10^6, ARE the decimal literal; a literal finer than a micro is
    refused instead of rounded. *)
Theorem decimal_major_exact (dec : bytes) (currency : string) (m : Z) (r : Rate)
    (Hp : ParseDecimal dec = Ok r) (Hm : MicrosFromDecimalMajor dec currency = Ok m) :
  m * Den r = Num r * 1000000 /\ 0 <= m <= max_int64 /\ validCurrency currency = true.
Proof.
  unfold MicrosFromDecimalMajor in Hm. rewrite Hp in Hm.
  apply rbind_Ok in Hm as (mc & Hc & Hm). apply NewMoney_Ok in Hc as (_ & Hcur & _).
  cbn [rbind] in Hm. apply rbind_Ok in Hm as (lo & Elo & Hm). apply rbind_Ok in Hm as (up & Eup & Hm).
  inv_ok. bool_prop. subst up. pose proof (ParseDecimal_wf _ _ Hp) as Hr. pose proof (proj2 Hr).
  pose proof (proj2 (MicrosForUnits_Ok _ _ _ _ Elo)) as Hrange.
  rewrite MicrosForUnits_exact in Elo, Eup by (done || (unfold MicrosPerMajor; lia)).
  cbn [rounded] in Elo, Eup. rewrite ceil_div_succ in Eup by lia. unfold MicrosPerMajor in *.
  destruct (is_int64 (Num r * 1000000 / Den r)); [|done]. apply Ok_inj in Elo.
  destruct (is_int64 (_ + _)); [|done]. apply Ok_inj in Eup.
  pose proof (Z.div_mod (Num r * 1000000) (Den r) ltac:(lia)).
  pose proof (Z.mod_pos_bound (Num r * 1000000) (Den r) ltac:(lia)).
  destruct (Z.ltb_spec 0 ((Num r * 1000000) mod Den r)); repeat split; try done; try lia; nia.
Qed.

Definition bytes_of (s : string) : bytes := String.list_ascii_of_string s.

Lemma decimal_major_exact_witness : 29990000 * 100 = 2999 * 1000000.
Proof.
  destruct (decimal_major_exact (bytes_of " 29.99") "USD" 29990000 (mkRate 2999 100)) as (H & _).
  - vm_compute. reflexivity.
  - vm_compute. reflexivity.
  - exact H.
Defined.

(** Sub-micro precision is refused. *)
Example decimal_sub_micro :
  MicrosFromDecimalMajor (bytes_of "0.0000001") "USD" = Err (NewError CodeInvalidInput).
Proof. vm_compute. reflexivity. Qed.

Lemma CheckWalletSpend_iff (s : OverageSettings) (monthSpent hold : Z)
    (Hfit : in_int64 (monthSpent + hold)) :
  CheckWalletSpend s monthSpent hold = Ok tt <->
  exists l, s = mkOverage true (Some l) /\ 0 <= hold /\ 0 <= monthSpent /\ monthSpent + hold <= l.
Proof.
  destruct s as [en lim]. unfold CheckWalletSpend, OverageValidate, add64. simpl.
  rewrite wrap64_id by done. split.
  - intros H. destruct en, lim as [l|]; simpl in H; try done;
      destruct (Z.ltb_spec l 0); simpl in H; try done.
    destruct (Z.ltb_spec hold 0), (Z.ltb_spec monthSpent 0); simpl in H; try done.
    destruct (Z.ltb_spec l (monthSpent + hold)); [done|]. exists l. repeat split; lia.
  - intros (l & [= -> ->] & ? & ? & ?). simpl.
    destruct (Z.ltb_spec l 0); [lia|]. simpl.
    destruct (Z.ltb_spec hold 0), (Z.ltb_spec monthSpent 0); try lia. simpl.
    by destruct (Z.ltb_spec l (monthSpent + hold)); [lia|].
Qed.

(** SPEND. The wallet is touched only after an explicit opt-in with a cap:
    a hold passes exactly when overage is enabled with a limit and the month's
    spend plus the hold stays within it. *)
Theorem spend_gate (s : OverageSettings) (monthSpent hold : Z)
    (Hfit : in_int64 (monthSpent + hold)) :
  CheckWalletSpend s monthSpent hold = Ok tt <->
  exists l, s = mkOverage true (Some l) /\ 0 <= hold /\ 0 <= monthSpent /\ monthSpent + hold <= l.
Proof. by apply CheckWalletSpend_iff. Qed.

Lemma spend_gate_witness : CheckWalletSpend (mkOverage true (Some 100)) 30 70 = Ok tt.
Proof.
  apply (spend_gate (mkOverage true (Some 100)) 30 70); [by_eval|].
  exists 100. by_eval.
Defined.

(** AUDIT. Apart from the creation row, the audit of a settings change
    does not depend on the existence flag it is given, and it is empty exactly
    when neither the switch nor the limit changes. *)
Theorem audit_rows (ex : bool) (old new : OverageSettings) (by_ : string) :
  let rows := List.filter (fun a => negb (bool_decide (a_Action a = WalletAuditCreate)))
                (AuditForChange ex old new by_) in
  rows = AuditForChange true old new by_ /\ (rows = [] <-> old = new).
Proof.
  destruct old as [oe ol], new as [ne nl]. unfold AuditForChange. simpl.
  assert (sameInt64Ptr ol nl = true <-> ol = nl) as Hs.
  { destruct ol as [x|], nl as [y|]; simpl; try naive_solver.
    rewrite Z.eqb_eq. naive_solver. }
  destruct (sameInt64Ptr ol nl) eqn:E;
    destruct ex, oe, ne; simpl; (split; [reflexivity|]); naive_solver.
Qed.
