(* ===== verification/Principal.v ===== *)
(** * Principal: callers, keys, entitlements and the public model

    The data of [internal/inference/domain/principal.go] that the access rules,
    the admission service and the benefit worker share, and the catalogue entry
    of [internal/inference/domain/model.go]. *)

From Stdlib Require Import ZArith Lia Bool.
From stdpp Require Import base gmap strings list.
From S2P Require Import Prelude Domain.

Local Open Scope Z_scope.
Local Open Scope go_scope.

(** ** Callers *)

Inductive PrincipalKind := PrincipalAPIKey | PrincipalKayaJWT | PrincipalOperator | PrincipalService.

Record Principal := mkPrincipal {
  pr_Kind : PrincipalKind;
  pr_BillingAccountID : string;
  pr_APIKeyID : string;
  pr_UserID : string;
  pr_OperatorSubject : string;
}.

Inductive APIKeyStatus := APIKeyActive | APIKeyRevoked | APIKeyExpired.

(** A nil or empty [ModelAllow] is no narrowing. *)
Record APIKey := mkAPIKey {
  ak_ID : string;
  ak_BillingAccountID : string;
  ak_Name : string;
  ak_Prefix : string;
  ak_ModelAllow : list string;
  ak_BudgetLimit : option Microcredit;
  ak_BudgetUsed : Microcredit;
  ak_RPMLimit : option Z;
  ak_ConcurrencyLimit : option Z;
  ak_Status : APIKeyStatus;
  ak_ExpiresAt : option instant;
  ak_RevokedAt : option instant;
  ak_LastUsedAt : option instant;
  ak_CreatedAt : instant;
  ak_UpdatedAt : instant;
}.

(** ** Entitlements *)

(** The Go types are strings: [SourceOther] and [EntitlementOther] are the
    values no constant names. *)
Inductive EntitlementSource :=
| SourceSubscription | SourceOrder | SourceGrant | SourcePAYG | SourceOther (s : string).

Inductive EntitlementStatus :=
| EntitlementActive | EntitlementExpired | EntitlementRevoked | EntitlementSuperseded
| EntitlementOther (s : string).

#[global] Instance EntitlementSource_eq_dec : EqDecision EntitlementSource.
Proof. solve_decision. Defined.
#[global] Instance EntitlementStatus_eq_dec : EqDecision EntitlementStatus.
Proof. solve_decision. Defined.

Record Entitlement := mkEntitlement {
  e_ID : string;
  e_BillingAccountID : string;
  e_SourceType : EntitlementSource;
  e_SourceID : string;
  e_ModelIDs : list string;
  e_PolicyVersionID : string;
  e_AnchorAt : instant;
  e_EffectiveFrom : instant;
  e_EffectiveTo : option instant;
  e_Revision : Z;
  e_Stackable : bool;
  e_Status : EntitlementStatus;
  e_CreatedAt : instant;
  e_UpdatedAt : instant;
}.

(** [Entitlement.AllowsModel]. *)
Definition EntitlementAllowsModel (e : Entitlement) (modelID : string) : bool :=
  existsb (fun id => String.eqb id modelID) (e_ModelIDs e).

(** [ModelIDs]: nil keeps the set, an empty non-nil slice grants nothing. *)
Record EntitlementPatch := mkPatch {
  ep_ExpectedRevision : Z;
  ep_PolicyVersionID : option string;
  ep_ModelIDs : option (list string);
  ep_EffectiveTo : option instant;
  ep_ClearEffectiveTo : bool;
}.

(** ** The public model *)

(** The column has a CHECK; any other text, such as the empty one, can only
    come from a hand-made snapshot. *)
Inductive Lifecycle :=
| LifecycleDraft | LifecycleActive | LifecycleDeprecated | LifecycleRetired | LifecycleOther (s : string).

#[global] Instance Lifecycle_eq_dec : EqDecision Lifecycle.
Proof. solve_decision. Defined.

Inductive Protocol :=
| ProtocolOpenAIChat | ProtocolOpenAIResponses | ProtocolAnthropicMessage | ProtocolKayaChat | ProtocolOther (s : string).

#[global] Instance Protocol_eq_dec : EqDecision Protocol.
Proof. solve_decision. Defined.

(** Without the timestamps. *)
Record Model := mkModel {
  m_ID : string;
  m_DisplayName : string;
  m_Lifecycle : Lifecycle;
  m_ModelVersion : string;
  m_Aliases : list string;
  m_InputModalities : list string;
  m_OutputModalities : list string;
  m_ContextTokens : Z;
  m_MaxOutputTokens : Z;
  m_Protocols : list Protocol;
  m_SupportsTools : bool;
  m_SupportsReasoning : bool;
}.

Definition NormalizeInputModalities (mods : list string) : list string :=
  match mods with [] => ["text"; "image"] | _ => mods end.

Definition AcceptsImages (m : Model) : bool :=
  existsb (fun v => String.eqb v "image") (NormalizeInputModalities (m_InputModalities m)).

Lemma EntitlementAllowsModel_elem e m : EntitlementAllowsModel e m = true <-> m ∈ e_ModelIDs e.
Proof.
  unfold EntitlementAllowsModel. rewrite List.existsb_exists, list_elem_of_In. split.
  - intros (x & Hin & ->%String.eqb_eq). done.
  - intros Hin. exists m. split; [done|apply String.eqb_refl].
Qed.
