(* ===== verification/Entitlements.v ===== *)
(** * Entitlements: which grant governs a call, and how grants evolve

    [internal/inference/access/entitlement.go]: minting an entitlement from a
    plan revision, the pure selection rule, upgrade, renewal and downgrade, and
    the resolver with its one-second cache. *)

From Stdlib Require Import ZArith Lia Bool Ascii String.
From stdpp Require Import base gmap strings list relations.
From S2P Require Import Prelude Domain Calendar Window Principal.

Local Open Scope Z_scope.
Local Open Scope go_scope.

(** ** Minting *)

Record PlanRevision := mkPlan {
  pl_SourceType : EntitlementSource;
  pl_SourceID : string;
  pl_ModelIDs : list string;
  pl_PolicyVersionID : string;
}.

(** First occurrences, in order. *)
Definition dedupe_step (out : list string) (id : string) : list string :=
  if bool_decide (id ∈ out) then out else out ++ [id].
Definition dedupeModels (ids : list string) : list string := foldl dedupe_step [] ids.

Definition known_source (s : EntitlementSource) : bool :=
  match s with SourceOther _ => false | _ => true end.

Definition GrantFromPlan (plan : PlanRevision) (anchor effectiveFrom : instant) (effectiveTo : option instant)
  : res Entitlement :=
  guard known_source (pl_SourceType plan) else NewError CodeInvalidInput;
  fail_if bool_decide (pl_SourceID plan = "") with NewError CodeInvalidInput;
  fail_if bool_decide (pl_PolicyVersionID plan = "") with NewError CodeInvalidInput;
  let from := effectiveFrom in
  let a := if IsZero anchor then from else anchor in
  fail_if from <? a with NewError CodeInvalidInput;
  fail_if match effectiveTo with Some to => negb (from <? to) | None => false end with NewError CodeInvalidInput;
  Ok (mkEntitlement "" "" (pl_SourceType plan) (pl_SourceID plan) (dedupeModels (pl_ModelIDs plan))
        (pl_PolicyVersionID plan) a from effectiveTo 1 false EntitlementActive zero_time zero_time).

(** ** Selection *)

Definition live_at (t : instant) (e : Entitlement) : bool :=
  bool_decide (e_Status e = EntitlementActive) && negb (t <? e_EffectiveFrom e)
  && match e_EffectiveTo e with Some to => t <? to | None => true end.

Definition is_gift (e : Entitlement) : bool := bool_decide (e_SourceType e = SourceGrant).
Definition is_payg (e : Entitlement) : bool := bool_decide (e_SourceType e = SourcePAYG).
(** The [default] branch: subscriptions, orders and unknown sources. *)
Definition is_explicit (e : Entitlement) : bool := negb (is_gift e) && negb (is_payg e).

Definition string_before (a b : string) : bool :=
  match String.compare a b with Lt => true | _ => false end.

(** The [less] of the stable sort. *)
Definition earlier (a b : Entitlement) : bool :=
  if negb (e_CreatedAt a =? e_CreatedAt b) then e_CreatedAt a <? e_CreatedAt b
  else string_before (e_ID a) (e_ID b).

Definition grantsModel (pool : list Entitlement) (modelID : string) : option Entitlement :=
  List.find (fun e => EntitlementAllowsModel e modelID) (stable_sort earlier pool).

Definition SelectEntitlement (ents : list Entitlement) (modelID : string) (t : instant) : res Entitlement :=
  let alive := List.filter (live_at t) ents in
  let explicit := List.filter is_explicit alive in
  let gifts := List.filter is_gift alive in
  let payg := List.filter is_payg alive in
  let pool := match explicit with [] => gifts | _ => explicit end in
  let winner := match grantsModel pool modelID with
                | Some e => Some e
                | None => grantsModel payg modelID end in
  match winner with
  | Some e => Ok e
  | None => Err (NewError CodeModelNotAllowed)
  end.

(** ** Revisions *)

Fixpoint count_in (id : string) (l : list string) : nat :=
  match l with
  | [] => 0
  | x :: l => if bool_decide (x = id) then S (count_in id l) else count_in id l
  end.

(** The counting loop: [seen] after [a], decremented along [b]. *)
Fixpoint uncount (seen : string -> Z) (b : list string) : bool :=
  match b with
  | [] => true
  | id :: b => if seen id - 1 <? 0 then false
               else uncount (fun x => if bool_decide (x = id) then seen x - 1 else seen x) b
  end.

Definition equalModelSets (a b : list string) : bool :=
  (Z.of_nat (length a) =? Z.of_nat (length b)) && uncount (fun id => Z.of_nat (count_in id a)) b.

(** The [nil] entitlement of the Go functions is [None]. *)
Definition Upgrade (ent : option Entitlement) (newPolicyVersionID : string) (newModelIDs : list string)
  : res EntitlementPatch :=
  match ent with
  | None => Err (NewError CodeInvalidInput)
  | Some ent =>
      guard bool_decide (e_Status ent = EntitlementActive) else NewError CodeConflict;
      fail_if bool_decide (newPolicyVersionID = "") with NewError CodeInvalidInput;
      let models := dedupeModels newModelIDs in
      fail_if bool_decide (newPolicyVersionID = e_PolicyVersionID ent) && equalModelSets models (e_ModelIDs ent)
        with NewError CodeInvalidInput;
      Ok (mkPatch (e_Revision ent) (Some newPolicyVersionID) (Some models) None false)
  end.

Definition Renew (ent : option Entitlement) (newEffectiveTo : instant) : res EntitlementPatch :=
  match ent with
  | None => Err (NewError CodeInvalidInput)
  | Some ent =>
      guard bool_decide (e_Status ent = EntitlementActive) else NewError CodeConflict;
      match e_EffectiveTo ent with
      | None => Err (NewError CodeInvalidInput)
      | Some to =>
          guard to <? newEffectiveTo else NewError CodeInvalidInput;
          Ok (mkPatch (e_Revision ent) None None (Some newEffectiveTo) false)
      end
  end.

Definition DowngradeEffectiveAt (ent : option Entitlement) (at_ : instant) : res instant :=
  match ent with
  | None => Err (NewError CodeInvalidInput)
  | Some ent => let? (iv, _) := MonthlyWindowAt (e_AnchorAt ent) at_ in Ok (iv_End iv)
  end.

(** ** The order of the selection *)

Lemma string_compare_trans a b c : String.compare a b = Lt -> String.compare b c = Lt -> String.compare a c = Lt.
Proof.
  revert b c. induction a as [|x a IH]; intros [|y b] [|z c]; simpl; try done.
  unfold Ascii.compare. destruct (N.compare_spec (N_of_ascii x) (N_of_ascii y)) as [Hxy|Hxy|Hxy]; try done;
    destruct (N.compare_spec (N_of_ascii y) (N_of_ascii z)) as [Hyz|Hyz|Hyz]; try done; intros H1 H2.
  - rewrite Hxy, Hyz, N.compare_refl. eauto.
  - rewrite Hxy. by apply N.compare_lt_iff in Hyz as ->.
  - rewrite <- Hyz. by apply N.compare_lt_iff in Hxy as ->.
  - assert (N_of_ascii x < N_of_ascii z)%N as H by lia. by apply N.compare_lt_iff in H as ->.
Qed.

Lemma string_compare_refl a : String.compare a a = Eq.
Proof. induction a as [|c a IH]; simpl; [done|]. unfold Ascii.compare. by rewrite N.compare_refl. Qed.

Lemma string_before_total a b : string_before a b = false -> string_before b a = false -> a = b.
Proof.
  unfold string_before. rewrite (String.compare_antisym b a). destruct (String.compare a b) eqn:E; simpl; try done.
  intros _ _. by apply String.compare_eq_iff.
Qed.

Lemma string_before_asym a b : string_before a b = true -> string_before b a = false.
Proof. unfold string_before. rewrite (String.compare_antisym b a). by destruct (String.compare a b). Qed.

(** The order on strings is a strict weak order. *)
Lemma string_before_neg a b c :
  string_before b a = false -> string_before c b = false -> string_before c a = false.
Proof.
  intros H1 H2. destruct (string_before c a) eqn:E; [|done]. destruct (string_before a b) eqn:Eab.
  - assert (string_before c b = true); [|congruence]. unfold string_before in *.
    destruct (String.compare c a) eqn:X1, (String.compare a b) eqn:X2; try done.
    by rewrite (string_compare_trans _ _ _ X1 X2).
  - rewrite (string_before_total _ _ H1 Eab) in H2. congruence.
Qed.

Lemma earlier_irr a : earlier a a = false.
Proof. unfold earlier, string_before. by rewrite Z.eqb_refl, string_compare_refl. Qed.

Lemma earlier_asym a b : earlier a b = true -> earlier b a = false.
Proof.
  unfold earlier. rewrite (Z.eqb_sym (e_CreatedAt b)). destruct (e_CreatedAt a =? e_CreatedAt b); simpl.
  - apply string_before_asym.
  - intros H. apply Z.ltb_lt in H. apply Z.ltb_ge. lia.
Qed.

Lemma earlier_total a b : earlier a b = false -> earlier b a = false -> e_ID a = e_ID b.
Proof.
  unfold earlier. rewrite (Z.eqb_sym (e_CreatedAt b)). destruct (Z.eqb_spec (e_CreatedAt a) (e_CreatedAt b)); simpl.
  - apply string_before_total.
  - intros H1%Z.ltb_ge H2%Z.ltb_ge. lia.
Qed.

Lemma earlier_neg a b c : earlier b a = false -> earlier c b = false -> earlier c a = false.
Proof.
  unfold earlier. destruct (Z.eqb_spec (e_CreatedAt b) (e_CreatedAt a)) as [E1|E1], (Z.eqb_spec (e_CreatedAt c) (e_CreatedAt b)) as [E2|E2];
    simpl; intros H1 H2; try apply Z.ltb_ge in H1; try apply Z.ltb_ge in H2.
  2,3,4: rewrite (proj2 (Z.eqb_neq _ _)) by lia; simpl; apply Z.ltb_ge; lia.
  rewrite E2, E1, Z.eqb_refl. simpl. by apply (string_before_neg _ (e_ID b)).
Qed.

Lemma grantsModel_Some pool m e : grantsModel pool m = Some e ->
  e ∈ pool /\ m ∈ e_ModelIDs e /\ forall e', e' ∈ pool -> m ∈ e_ModelIDs e' -> earlier e' e = false.
Proof.
  unfold grantsModel. intros H.
  apply (find_in_order earlier earlier_irr earlier_neg) in H as (Hin & Hm & Hmin);
    [|apply stable_sort_order; [apply earlier_neg|apply earlier_asym]].
  rewrite stable_sort_Permutation in Hin. setoid_rewrite stable_sort_Permutation in Hmin.
  apply EntitlementAllowsModel_elem in Hm. split_and!; try done. intros e' He' Hm'. apply Hmin; [done|].
  by apply EntitlementAllowsModel_elem.
Qed.

Lemma grantsModel_None pool m e : grantsModel pool m = None -> e ∈ pool -> m ∉ e_ModelIDs e.
Proof.
  unfold grantsModel. intros H He Hm. rewrite <- (stable_sort_Permutation earlier) in He.
  apply list_elem_of_In in He. pose proof (List.find_none _ _ H _ He) as Hn. simpl in Hn.
  apply EntitlementAllowsModel_elem in Hm. congruence.
Qed.

(** The entitlements of a class alive at an instant. *)
Definition alive_in (cls : Entitlement -> bool) (t : instant) (ents : list Entitlement) (e : Entitlement) : Prop :=
  e ∈ ents /\ live_at t e = true /\ cls e = true.

Lemma elem_alive cls t ents e : e ∈ List.filter cls (List.filter (live_at t) ents) <-> alive_in cls t ents e.
Proof. unfold alive_in. rewrite list_elem_of_In, !List.filter_In, <- list_elem_of_In. tauto. Qed.

Lemma pool_cases t ents :
  let explicit := List.filter is_explicit (List.filter (live_at t) ents) in
  let pool := match explicit with [] => List.filter is_gift (List.filter (live_at t) ents) | _ => explicit end in
  ((exists x, alive_in is_explicit t ents x) /\ pool = explicit) \/
  ((forall x, ~ alive_in is_explicit t ents x) /\ pool = List.filter is_gift (List.filter (live_at t) ents)).
Proof.
  cbv zeta. destruct (List.filter is_explicit _) as [|x l] eqn:E; [right|left]; (split; [|done]).
  - intros x Hx%elem_alive. rewrite E in Hx. by apply elem_of_nil in Hx.
  - exists x. apply elem_alive. rewrite E. set_solver.
Qed.

(** What the rule decides, class by class. *)
Definition selects (ents : list Entitlement) (m : string) (t : instant) (e : Entitlement) : Prop :=
  e ∈ ents /\ live_at t e = true /\ m ∈ e_ModelIDs e /\
  (is_gift e = true -> forall x, ~ alive_in is_explicit t ents x) /\
  (is_payg e = true -> forall x, x ∈ ents -> live_at t x = true -> m ∈ e_ModelIDs x ->
     is_payg x = true \/ is_gift x = true /\ exists y, alive_in is_explicit t ents y) /\
  (forall x, x ∈ ents -> live_at t x = true -> m ∈ e_ModelIDs x ->
     is_gift x = is_gift e -> is_payg x = is_payg e -> earlier x e = false).

Lemma classes e : is_explicit e = true /\ is_gift e = false /\ is_payg e = false \/
  is_explicit e = false /\ is_gift e = true /\ is_payg e = false \/
  is_explicit e = false /\ is_gift e = false /\ is_payg e = true.
Proof. unfold is_explicit, is_gift, is_payg. destruct (e_SourceType e); naive_solver. Qed.

Lemma SelectEntitlement_Ok ents m t e : SelectEntitlement ents m t = Ok e -> selects ents m t e.
Proof.
  unfold SelectEntitlement. pose proof (pool_cases t ents) as Hp. cbv zeta in Hp |- *.
  set (pool := match List.filter is_explicit _ with [] => _ | _ => _ end) in *.
  destruct (grantsModel pool m) as [e1|] eqn:E1.
  - intros [= ->]. apply grantsModel_Some in E1 as (Hin & Hm & Hmin).
    destruct Hp as [[[y Hy] ->]|[Hno ->]]; apply elem_alive in Hin as (Hin & Hl & Hc);
      destruct (classes e) as [(C1&C2&C3)|[(C1&C2&C3)|(C1&C2&C3)]]; try congruence;
      (split_and!; [done|done|done|first [by intros; congruence|intros _; exact Hno]|by intros; congruence|]);
      rewrite C2, C3;
      intros x Hx Hlx Hmx G P; apply Hmin; try done; apply elem_alive; split_and!; try done.
    destruct (classes x) as [(?&?&?)|[(?&?&?)|(?&?&?)]]; congruence.
  - destruct (grantsModel (List.filter is_payg _) m) as [e2|] eqn:E2; [|done]. intros [= ->].
    apply grantsModel_Some in E2 as (Hin & Hm & Hmin). apply elem_alive in Hin as (Hin & Hl & Hc).
    destruct (classes e) as [(C1&C2&C3)|[(C1&C2&C3)|(C1&C2&C3)]]; try congruence.
    split_and!; [done|done|done|by intros; congruence| |].
    + intros _ x Hx Hlx Hmx. destruct (classes x) as [(X1&X2&X3)|[(X1&X2&X3)|(X1&X2&X3)]]; [| |by left].
      * exfalso. destruct Hp as [[_ Hp]|[Hno Hp]]; [|by eapply Hno; split_and!].
        eapply (grantsModel_None _ _ x E1); [|done]. rewrite Hp. by apply elem_alive.
      * right. split; [done|]. destruct Hp as [[? _]|[_ Hp]]; [done|]. exfalso.
        eapply (grantsModel_None _ _ x E1); [|done]. rewrite Hp. by apply elem_alive.
    + rewrite C2, C3. intros x Hx Hlx Hmx G P. apply Hmin; [|done]. by apply elem_alive.
Qed.

Lemma SelectEntitlement_Err ents m t err : SelectEntitlement ents m t = Err err ->
  err = NewError CodeModelNotAllowed /\
  forall x, x ∈ ents -> live_at t x = true -> m ∈ e_ModelIDs x ->
    is_gift x = true /\ exists y, alive_in is_explicit t ents y.
Proof.
  unfold SelectEntitlement. pose proof (pool_cases t ents) as Hp. cbv zeta in Hp |- *.
  set (pool := match List.filter is_explicit _ with [] => _ | _ => _ end) in *.
  destruct (grantsModel pool m) eqn:E1; [done|]. destruct (grantsModel (List.filter is_payg _) m) eqn:E2; [done|].
  intros [= <-]. split; [done|]. intros x Hx Hlx Hmx.
  assert (forall cls l, grantsModel l m = None -> l = List.filter cls (List.filter (live_at t) ents) -> cls x = true -> False) as Hno.
  { intros cls l Hn -> Hc. eapply (grantsModel_None _ _ x Hn); [|done]. by apply elem_alive. }
  destruct (classes x) as [(X1&X2&X3)|[(X1&X2&X3)|(X1&X2&X3)]].
  - exfalso. destruct Hp as [[_ Hp]|[Hn _]]; [exact (Hno is_explicit pool E1 Hp X1)|by eapply Hn; split_and!].
  - split; [done|]. destruct Hp as [[? _]|[_ Hp]]; [done|]. exfalso. exact (Hno is_gift pool E1 Hp X2).
  - exfalso. exact (Hno is_payg _ E2 eq_refl X3).
Qed.

(** ** Model sets *)

Lemma dedupe_fold ids out : NoDup out ->
  NoDup (foldl dedupe_step out ids) /\ forall x, x ∈ foldl dedupe_step out ids <-> x ∈ out \/ x ∈ ids.
Proof.
  revert out. induction ids as [|id ids IH]; intros out Hnd; simpl; [set_solver|].
  unfold dedupe_step at 2 4. case_bool_decide as Hin.
  - destruct (IH out Hnd) as [? Hx]. split; [done|]. intros x. rewrite Hx. set_solver.
  - destruct (IH (out ++ [id])) as [? Hx].
    { apply NoDup_app. split_and!; [done| |apply NoDup_singleton]. set_solver. }
    split; [done|]. intros x. rewrite Hx. set_solver.
Qed.

Lemma dedupeModels_NoDup ids : NoDup (dedupeModels ids).
Proof. by apply dedupe_fold, NoDup_nil_2. Qed.

Lemma dedupeModels_elem ids x : x ∈ dedupeModels ids <-> x ∈ ids.
Proof. unfold dedupeModels. rewrite (proj2 (dedupe_fold ids [] (NoDup_nil_2))). set_solver. Qed.

Lemma dedupe_fold_id ids out : NoDup (out ++ ids) -> foldl dedupe_step out ids = out ++ ids.
Proof.
  revert out. induction ids as [|id ids IH]; intros out Hnd; simpl; [by rewrite app_nil_r|].
  unfold dedupe_step at 2. rewrite bool_decide_eq_false_2.
  - rewrite IH; by rewrite <- app_assoc.
  - apply NoDup_app in Hnd as (_ & Hd & _). intros Hin. apply (Hd _ Hin). set_solver.
Qed.

(** A second pass changes nothing. *)
Lemma dedupeModels_idem ids : dedupeModels (dedupeModels ids) = dedupeModels ids.
Proof. unfold dedupeModels at 1. rewrite dedupe_fold_id; [done|]. apply dedupeModels_NoDup. Qed.

#[global] Instance count_in_Permutation id : Proper (Permutation ==> eq) (count_in id).
Proof. intros l l' Hp. induction Hp; simpl; repeat case_bool_decide; congruence. Qed.

Lemma count_in_pos id l : (0 < count_in id l)%nat -> id ∈ l.
Proof. induction l; simpl; [lia|]. case_bool_decide; set_solver. Qed.

Lemma uncount_spec seen b : (forall id, 0 <= seen id) ->
  uncount seen b = true <-> forall id, Z.of_nat (count_in id b) <= seen id.
Proof.
  revert seen. induction b as [|x b IH]; intros seen Hpos; simpl; [split; [intros _ id; apply Hpos|done]|].
  destruct (Z.ltb_spec (seen x - 1) 0) as [Hl|Hl].
  - split; [done|]. intros H. specialize (H x). rewrite bool_decide_eq_true_2 in H by done. lia.
  - rewrite IH by (intros id; case_bool_decide as E; [subst; lia|apply Hpos]). split; intros H id; specialize (H id).
    + destruct (decide (x = id)) as [->|].
      * rewrite bool_decide_eq_true_2 in * by done. lia.
      * rewrite bool_decide_eq_false_2 in * by congruence. lia.
    + destruct (decide (x = id)) as [->|].
      * rewrite bool_decide_eq_true_2 in * by done. lia.
      * rewrite bool_decide_eq_false_2 in * by congruence. lia.
Qed.

Lemma counts_Permutation a b : length a = length b ->
  (forall id, (count_in id b <= count_in id a)%nat) -> a ≡ₚ b.
Proof.
  revert a. induction b as [|x b IH]; intros a Hlen Hc; [by destruct a|].
  assert (x ∈ a) as Hx. { apply count_in_pos. specialize (Hc x). simpl in Hc. rewrite bool_decide_eq_true_2 in Hc by done. lia. }
  apply elem_of_Permutation in Hx as [a' Ha]. rewrite Ha. constructor. apply IH.
  - apply Permutation_length in Ha. simpl in *. lia.
  - intros id. specialize (Hc id). rewrite Ha in Hc. simpl in Hc. case_bool_decide; lia.
Qed.

Lemma equalModelSets_spec a b : equalModelSets a b = true <-> a ≡ₚ b.
Proof.
  unfold equalModelSets. rewrite andb_true_iff, Z.eqb_eq, uncount_spec by lia. split.
  - intros [Hl Hc]. apply counts_Permutation; [lia|]. intros id. specialize (Hc id). lia.
  - intros Hp. split; [by rewrite Hp|]. intros id. by rewrite Hp.
Qed.

(** ** Properties of the selection *)

(** One entitlement governs a call. The one chosen is alive at the
    instant and grants the model; a gift is chosen only when the account has no
    live purchase at all, pay-as-you-go only when nothing else that may apply
    grants the model; within its class it is the earliest created. A refusal
    means that nothing grants the model except gifts suppressed by a purchase.
    The choice does not depend on the order in which the rows are listed. *)
Theorem selection_rule (ents : list Entitlement) (m : string) (t : instant) :
  match SelectEntitlement ents m t with
  | Ok e => selects ents m t e
  | Err err => err = NewError CodeModelNotAllowed /\
      forall x, x ∈ ents -> live_at t x = true -> m ∈ e_ModelIDs x ->
        is_gift x = true /\ exists y, alive_in is_explicit t ents y
  end /\
  (forall ents', ents' ≡ₚ ents -> NoDup (e_ID <$> ents) -> SelectEntitlement ents' m t = SelectEntitlement ents m t).
Proof.
  split; [destruct (SelectEntitlement ents m t) eqn:E; [by apply SelectEntitlement_Ok|by apply SelectEntitlement_Err]|].
  intros ents' Hp Hnd.
  assert (forall cls x, alive_in cls t ents' x <-> alive_in cls t ents x) as Hal by (intros; unfold alive_in; by rewrite Hp).
  assert (forall e, selects ents' m t e -> selects ents m t e) as Hsel.
  { intros e. unfold selects. setoid_rewrite Hal. setoid_rewrite Hp. done. }
  assert (forall e e', e ∈ ents -> e' ∈ ents -> e_ID e = e_ID e' -> e = e') as Hinj.
  { intros e e' He He' Hid. apply list_elem_of_lookup_1 in He as [i Hi], He' as [j Hj].
    assert (i = j) as ->; [|congruence]. eapply NoDup_lookup; [exact Hnd| |]; rewrite list_lookup_fmap.
    - by rewrite Hi. - rewrite Hj. simpl. by rewrite Hid. }
  destruct (SelectEntitlement ents' m t) as [e'|err'] eqn:E', (SelectEntitlement ents m t) as [e|err] eqn:E.
  - apply SelectEntitlement_Ok, Hsel in E'. apply SelectEntitlement_Ok in E. f_equal.
    destruct E' as (I1 & L1 & M1 & G1 & P1 & O1), E as (I2 & L2 & M2 & G2 & P2 & O2).
    assert (is_gift e' = is_gift e /\ is_payg e' = is_payg e) as [Hg Hpp].
    { destruct (classes e) as [(A1&A2&A3)|[(A1&A2&A3)|(A1&A2&A3)]], (classes e') as [(B1&B2&B3)|[(B1&B2&B3)|(B1&B2&B3)]];
        try (split; congruence); exfalso.
      - apply (G1 B2 e). done. - destruct (P1 B3 e I2 L2 M2) as [?|[? _]]; congruence.
      - apply (G2 A2 e'). done. - destruct (P1 B3 e I2 L2 M2) as [?|[_ [y Hy]]]; [congruence|]. by apply (G2 A2 y).
      - destruct (P2 A3 e' I1 L1 M1) as [?|[? _]]; congruence.
      - destruct (P2 A3 e' I1 L1 M1) as [?|[_ [y Hy]]]; [congruence|]. by apply (G1 B2 y). }
    apply Hinj; [done..|]. apply earlier_total; [by apply O2|]. by apply O1.
  - exfalso. apply SelectEntitlement_Ok, Hsel in E' as (I1 & L1 & M1 & G1 & _).
    apply SelectEntitlement_Err in E as [_ H]. destruct (H _ I1 L1 M1) as [Hg [y Hy]]. by apply (G1 Hg y).
  - exfalso. apply SelectEntitlement_Ok in E as (I1 & L1 & M1 & G1 & _).
    apply SelectEntitlement_Err in E' as [_ H]. setoid_rewrite Hal in H. setoid_rewrite Hp in H.
    destruct (H _ I1 L1 M1) as [Hg [y Hy]]. by apply (G1 Hg y).
  - apply SelectEntitlement_Err in E as [-> _], E' as [-> _]. done.
Qed.

Definition sample_ent (id : string) (src : EntitlementSource) (models : list string) (created : instant) : Entitlement :=
  mkEntitlement id "acc" src id models "pol" 0 0 None 1 false EntitlementActive created created.

(** A gift is suppressed by the later purchase, in either order. *)
Lemma selection_rule_witness :
  SelectEntitlement [sample_ent "g" SourceGrant ["m"] 1; sample_ent "s" SourceSubscription ["m"] 2] "m" 5 =
  SelectEntitlement [sample_ent "s" SourceSubscription ["m"] 2; sample_ent "g" SourceGrant ["m"] 1] "m" 5.
Proof.
  refine (proj2 (selection_rule [sample_ent "s" SourceSubscription ["m"] 2; sample_ent "g" SourceGrant ["m"] 1] "m" 5) _ _ _).
  - apply perm_swap.
  - apply (bool_decide_unpack _). vm_compute. exact I.
Defined.

(** ** The resolver and its cache *)

Definition entitlementCacheTTL : duration := second.
Definition entitlementCacheSweepEvery : Z := 64.

Record entCacheEntry := mkCached { ce_ents : list Entitlement; ce_cachedAt : instant }.

(** [EntitlementResolver] without its store and clock, which are arguments. *)
Record EntitlementResolver := mkResolver {
  er_cache : gmap string entCacheEntry;
  er_cacheWrites : Z;
}.

Definition NewEntitlementResolver : EntitlementResolver := mkResolver ∅ 0.

Definition cache_hit (now : instant) (account : string) (r : EntitlementResolver) : option (list Entitlement) :=
  match er_cache r !! account with
  | Some e => if time_sub now (ce_cachedAt e) <? entitlementCacheTTL then Some (ce_ents e) else None
  | None => None
  end.

(** Writing an answer; every 64th write sweeps the entries idle for two TTLs. *)
Definition cache_store (now : instant) (account : string) (ents : list Entitlement) (r : EntitlementResolver)
  : EntitlementResolver :=
  let cache := <[account := mkCached ents now]> (er_cache r) in
  let writes := add64 (er_cacheWrites r) 1 in
  mkResolver (if Z.rem writes entitlementCacheSweepEvery =? 0
              then filter (fun p => (2 * entitlementCacheTTL <? time_sub now (ce_cachedAt p.2)) = false) cache
              else cache) writes.

(** [listActiveCached]: the cache is looked up under the read lock ([rd]) and,
    when that misses, again under the write lock ([r]): other goroutines may
    have filled it in between. [ask] is the answer of the store. *)
Definition listActiveCached (now : instant) (account : string) (ask : res (list Entitlement))
    (rd r : EntitlementResolver) : EntitlementResolver * res (list Entitlement) :=
  match cache_hit now account rd with
  | Some ents => (r, Ok ents)
  | None =>
      match cache_hit now account r with
      | Some ents => (r, Ok ents)
      | None =>
          match ask with
          | Err e => (r, Err e)
          | Ok ents => (cache_store now account ents r, Ok ents)
          end
      end
  end.

(** [Resolve] at the clock readings [now0] (the instant) and [now] (the cache). *)
Definition Resolve (now0 now : instant) (account modelID : string) (at_ : instant)
    (ask : instant -> res (list Entitlement)) (rd r : EntitlementResolver)
  : EntitlementResolver * res Entitlement :=
  if bool_decide (account = "") || bool_decide (modelID = "") then (r, Err (NewError CodeInvalidInput))
  else if IsZero at_ then
    let '(r, ents) := listActiveCached now account (ask now0) rd r in
    (r, let? ents := ents in SelectEntitlement ents modelID now0)
  else (r, let? ents := ask at_ in SelectEntitlement ents modelID at_).

(** An answer the store gave for an account, and the clock when it was cached. *)
Record Answer := mkAnswer { an_account : string; an_ents : list Entitlement; an_at : instant }.

(** The resolver after the calls so far, with every answer the store gave to a
    caching call. A call may have read the cache of any earlier moment. *)
Inductive resolver_run : list EntitlementResolver -> list Answer -> EntitlementResolver -> Prop :=
| rr_new : resolver_run [NewEntitlementResolver] [] NewEntitlementResolver
| rr_hit hist log rd r now account ask ents :
    resolver_run hist log r -> rd ∈ hist -> listActiveCached now account ask rd r = (r, ents) ->
    resolver_run hist log r
| rr_ask hist log rd r r' now account ents :
    resolver_run hist log r -> rd ∈ hist -> listActiveCached now account (Ok ents) rd r = (r', Ok ents) ->
    resolver_run (r' :: hist) (mkAnswer account ents now :: log) r'.

Definition cache_honest (log : list Answer) (r : EntitlementResolver) : Prop :=
  forall account e, er_cache r !! account = Some e -> mkAnswer account (ce_ents e) (ce_cachedAt e) ∈ log.

Lemma cache_honest_store log now account ents r : cache_honest log r ->
  cache_honest (mkAnswer account ents now :: log) (cache_store now account ents r).
Proof.
  intros H acc e. unfold cache_store. simpl. intros Hl.
  assert (<[account := mkCached ents now]> (er_cache r) !! acc = Some e) as Hl'.
  { destruct (_ =? 0); [|done]. by apply map_lookup_filter_Some in Hl as [? _]. }
  apply lookup_insert_Some in Hl' as [[<- <-]|[_ Hl']]; [left|right]. by apply H.
Qed.

Lemma resolver_honest hist log r : resolver_run hist log r ->
  r ∈ hist /\ forall r0, r0 ∈ hist -> cache_honest log r0.
Proof.
  induction 1 as [|hist log rd r now account ask ents _ IH _ _|hist log rd r r' now account ents _ [Hin IH] Hrd Hcall].
  - split; [set_solver|]. intros r0 ->%list_elem_of_singleton account e. simpl. by rewrite lookup_empty.
  - exact IH.
  - assert (forall r0, cache_honest log r0 -> cache_honest (mkAnswer account ents now :: log) r0) as Hmono
      by (intros r0 H acc e Hl; right; by apply H).
    split; [set_solver|]. intros r0 [->|Hr0]%elem_of_cons; [|by apply Hmono, IH].
    unfold listActiveCached in Hcall. destruct (cache_hit now account rd); [injection Hcall as <- _; by apply Hmono, IH|].
    destruct (cache_hit now account r); [injection Hcall as <- _; by apply Hmono, IH|].
    injection Hcall as <-. by apply cache_honest_store, IH.
Qed.

Lemma cache_hit_honest log now account r ents : cache_honest log r -> cache_hit now account r = Some ents ->
  exists t, mkAnswer account ents t ∈ log /\ time_sub now t < entitlementCacheTTL.
Proof.
  intros H. unfold cache_hit. destruct (er_cache r !! account) as [e|] eqn:E; [|done].
  destruct (time_sub now (ce_cachedAt e) <? entitlementCacheTTL) eqn:Et; [|done]. intros [= <-].
  exists (ce_cachedAt e). split; [by apply H|by apply Z.ltb_lt].
Qed.

(** The cache bounds staleness by its TTL: whatever calls came before
    and however they interleaved, a resolution at server time selects from a
    list the store gave for this very account, either in this call or in one
    whose clock reading is less than one second before this one's; a
    resolution at an explicit instant asks the store; errors are never cached. *)
Theorem resolution_staleness (hist : list EntitlementResolver) (log : list Answer) (rd r r' : EntitlementResolver)
    (now0 now at_ : instant) (account modelID : string) (ask : instant -> res (list Entitlement)) (e : Entitlement)
    (Hrun : resolver_run hist log r) (Hrd : rd ∈ hist)
    (Hok : Resolve now0 now account modelID at_ ask rd r = (r', Ok e)) :
  let t := if IsZero at_ then now0 else at_ in
  exists ents, SelectEntitlement ents modelID t = Ok e /\
    (ask t = Ok ents \/
     at_ = zero_time /\ r' = r /\ exists t', mkAnswer account ents t' ∈ log /\ time_sub now t' < second).
Proof.
  destruct (resolver_honest _ _ _ Hrun) as [Hin Hhon]. cbv zeta. unfold Resolve in Hok.
  destruct (_ || _); [done|]. destruct (IsZero at_) eqn:Hz.
  - apply Z.eqb_eq in Hz. destruct (listActiveCached now account (ask now0) rd r) as [r1 q] eqn:Hq.
    injection Hok as <- Hs. apply rbind_Ok in Hs as (ents & -> & Hs). exists ents. split; [done|].
    unfold listActiveCached in Hq. destruct (cache_hit now account rd) eqn:E1.
    { injection Hq as <- <-. right. split_and!; [done..|]. eapply (cache_hit_honest log now account rd); [by apply Hhon|exact E1]. }
    destruct (cache_hit now account r) eqn:E2.
    { injection Hq as <- <-. right. split_and!; [done..|]. eapply (cache_hit_honest log now account r); [by apply Hhon|exact E2]. }
    left. destruct (ask now0); [|done]. by injection Hq as _ <-.
  - injection Hok as <- Hs. apply rbind_Ok in Hs as (ents & Ha & Hs). eauto.
Qed.

Lemma resolution_staleness_witness : exists ents,
  SelectEntitlement ents "m" (2 * second) = Ok (sample_ent "s" SourceSubscription ["m"] 2).
Proof.
  destruct (resolution_staleness [NewEntitlementResolver] [] NewEntitlementResolver NewEntitlementResolver
    (cache_store (2 * second) "acc" [sample_ent "s" SourceSubscription ["m"] 2] NewEntitlementResolver)
    (2 * second) (2 * second) zero_time "acc" "m" (fun _ => Ok [sample_ent "s" SourceSubscription ["m"] 2])
    (sample_ent "s" SourceSubscription ["m"] 2)) as (ents & H & _).
  - apply rr_new.
  - apply list_elem_of_singleton. reflexivity.
  - vm_compute. reflexivity.
  - exists ents. exact H.
Defined.
