(* ===== verification/Tables.v ===== *)
(** * Tables: the rows of the store and what the database enforces

    The tables of [migrations/024]-[043] that the quota gate, the ledger, the
    wallet and the leases share, as one record of finite maps and append-only
    lists, with the constraints a statement can violate and the error each
    violation becomes ([mapError] of [internal/inference/postgres/postgres.go]).

    A transaction is a function [DB -> res (A * DB)]: [Err] is the rolled-back
    transaction. Identifiers drawn by [uuid.NewString] and the value of the SQL
    [now()] are arguments. Text columns typed UUID hold any string here. Audit
    timestamps that no statement reads are left out. *)

From Stdlib Require Import ZArith Lia Bool.
From Stdlib Require Import Ascii String.
From stdpp Require Import base gmap strings list.
From S2P Require Import Prelude Domain Money WalletRules.

Local Open Scope Z_scope.
Local Open Scope go_scope.

(** ** Database errors *)

Inductive DbError :=
| UniqueViolation | ExclusionViolation | CheckViolation | ForeignKeyViolation
| InvalidSyntax | ErrNoRows
(** Any other driver error, e.g. BIGINT out of range or a lost connection. *)
| OtherDbError.

Definition mapError (e : DbError) : error :=
  match e with
  | UniqueViolation | ExclusionViolation => WrapError CodeConflict EForeign
  | CheckViolation | ForeignKeyViolation | InvalidSyntax => WrapError CodeInvalidInput EForeign
  | ErrNoRows => WrapError CodeNotFound EForeign
  | OtherDbError => EForeign
  end.

Definition db_fail {A} (e : DbError) : res A := Err (mapError e).

(** BIGINT arithmetic raises on overflow. *)
Definition sql_int (z : Z) : res Z := if is_int64 z then Ok z else db_fail OtherDbError.

(** One-row SELECT: no row is [sql.ErrNoRows]. *)
Definition select_one {A} (k : string) (m : gmap string A) : res A :=
  match m !! k with Some a => Ok a | None => db_fail ErrNoRows end.

(** INSERT under a primary key. *)
Definition insert_row {A} (k : string) (a : A) (m : gmap string A) : res (gmap string A) :=
  match m !! k with None => Ok (<[k := a]> m) | Some _ => db_fail UniqueViolation end.

(** CHECK and FOREIGN KEY constraints of an INSERT. *)
Definition check (b : bool) : res unit := if b then Ok tt else db_fail CheckViolation.
Definition references (b : bool) : res unit := if b then Ok tt else db_fail ForeignKeyViolation.
Definition unique (b : bool) : res unit := if b then Ok tt else db_fail UniqueViolation.

Definition has {A} (m : gmap string A) (k : string) : bool := bool_decide (is_Some (m !! k)).
Definition has_opt {A} (m : gmap string A) (k : option string) : bool :=
  match k with None => true | Some k => has m k end.

(** Rows of a table that satisfy a WHERE clause. *)
Definition rows {A} (m : gmap string A) (p : A -> bool) : list A :=
  List.filter p (map_to_list m).*2.

(** ** Rows *)

Inductive BillingAccountStatus := BillingAccountActive | BillingAccountSuspended | BillingAccountClosed.

#[global] Instance BillingAccountStatus_eq_dec : EqDecision BillingAccountStatus.
Proof. solve_decision. Defined.

(** Budget columns of [inference_api_keys]. *)
Record ApiKeyRow := mkKey { k_BudgetLimit : option Z; k_BudgetUsed : Z }.

(** [domain.Request]. [None] of a status is Go's empty string. *)
Record Request := mkRequest {
  r_ID : string;
  r_BillingAccountID : string;
  r_APIKeyID : option string;
  r_EntitlementID : string;
  r_ModelID : string;
  r_Status : option RequestStatus;
  r_AdmittedAt : option instant;
  r_PriceVersionID : option string;
  r_PolicyVersionID : string;
  r_WindowFiveHourID : option string;
  r_WindowWeeklyID : option string;
  r_WindowMonthlyID : option string;
  r_ReservedMicros : option Microcredit;
  r_SettledMicros : option Microcredit;
  r_ChargeSource : option ChargeSource;
  r_UsageStatus : option UsageSource;
  r_InputBoundTokens : option Z;
  r_OutputCapTokens : option Z;
  r_ExtraBounds : list (string * Z);
  r_LastError : string;
  r_UpdatedAt : instant;
  r_CompletedAt : option instant;
}.

Record Attempt := mkAttempt {
  at_ID : string;
  at_RequestID : string;
  at_AttemptNo : Z;
  at_Status : string;
  at_UpstreamRequestID : string;
  at_ErrorKind : string;
  at_Cost : option Money;
  at_Basis : option CostBasis;
  at_StartedAt : option instant;
  at_FinishedAt : option instant;
}.

Record Reservation := mkReservation {
  rv_ID : string;
  rv_RequestID : string;
  rv_TargetKind : ReservationTargetKind;
  rv_WindowID : option string;
  rv_APIKeyID : option string;
  rv_Amount : Microcredit;
  rv_State : ReservationState;
}.

Record ConcurrencyLease := mkLease {
  l_ID : string;
  l_Scope : LeaseScope;
  l_ScopeID : string;
  l_RequestID : string;
  l_OwnerToken : string;
  l_FencingToken : Z;
  l_State : LeaseState;
  l_AcquiredAt : instant;
  l_ExpiresAt : instant;
  l_ReleasedAt : option instant;
}.

Inductive Unit_ := UnitMicrocredit | UnitMicromoney.
#[global] Instance Unit_eq_dec : EqDecision Unit_.
Proof. solve_decision. Defined.

Record LedgerEntry := mkLedger {
  le_ID : Z;
  le_BillingAccountID : string;
  le_RequestID : option string;
  le_EntryType : LedgerEntryType;
  le_AmountMicros : Z;
  le_Unit : Unit_;
  le_Currency : option string;
  le_PriceVersionID : option string;
  le_ReversesEntryID : option Z;
  le_AdjustmentID : option string;
  le_CreatedBy : string;
}.

Record Adjustment := mkAdjustment {
  ad_ID : string;
  ad_BillingAccountID : string;
  ad_RequestID : option string;
  ad_Reason : string;
  ad_AmountMicros : Z;
  ad_Direction : WalletDirection;
  ad_Unit : Unit_;
  ad_Currency : option string;
  ad_Source : option WalletSource;
  ad_OperatorSubject : string;
  ad_ServiceSubject : string;
  ad_IdempotencyKey : string;
}.

Inductive JobStatus := JobPending | JobRunning | JobResolved | JobEscalated.
#[global] Instance JobStatus_eq_dec : EqDecision JobStatus.
Proof. solve_decision. Defined.

(** [detail] is the JSON object of the row, each value as its JSON text. *)
Record ReconciliationJob := mkJob {
  j_ID : string;
  j_RequestID : option string;
  j_Reason : string;
  j_Status : JobStatus;
  j_Detail : gmap string string;
  j_DeadlineAt : instant;
  j_ResolvedAt : option instant;
}.

Record Wallet := mkWallet {
  wa_ID : string;
  wa_BillingAccountID : string;
  wa_Currency : string;
  wa_OverageEnabled : bool;
  wa_MonthlySpendLimitMicros : option Z;
}.

Record WalletHold := mkHold {
  wh_ID : string;
  wh_WalletID : string;
  wh_RequestID : string;
  wh_AmountMicros : Z;
  wh_CashMicros : Z;
  wh_BonusMicros : Z;
  wh_PriceVersionID : string;
  wh_State : ReservationState;
}.

Record WalletEntry := mkEntry {
  we_ID : Z;
  we_WalletID : string;
  we_EntryType : WalletEntryType;
  we_Direction : WalletDirection;
  we_Source : WalletSource;
  we_AmountMicros : Z;
  we_Currency : string;
  we_RequestID : option string;
  we_HoldID : option string;
  we_PaymentID : option string;
  we_RefundID : option string;
  we_AdjustmentID : option string;
  we_ReversesEntryID : option Z;
  we_BusinessKey : string;
  we_CreatedBy : string;
  we_CreatedAt : instant;
}.

(** Referenced tables that no modelled transaction writes. *)
Inductive ExternTable := TEntitlements | TModels | TPriceVersions | TPolicyVersions.

Record DB := mkDB {
  accounts : gmap string BillingAccountStatus;
  keys : gmap string ApiKeyRow;
  requests : gmap string Request;
  attempts : gmap string Attempt;
  usage : list UsageRecord;
  windows : gmap string QuotaWindow;
  reservations : gmap string Reservation;
  leases : gmap string ConcurrencyLease;
  ledger : list LedgerEntry;
  adjustments : list Adjustment;
  jobs : list ReconciliationJob;
  wallets : gmap string Wallet;
  holds : gmap string WalletHold;
  entries : list WalletEntry;
  audits : list (string * OverageAuditSpec);
  extern : ExternTable -> string -> bool;
}.

Definition set_accounts (v : gmap string BillingAccountStatus) (db : DB) : DB :=
  mkDB v (keys db) (requests db) (attempts db) (usage db) (windows db) (reservations db) (leases db) (ledger db) (adjustments db) (jobs db) (wallets db) (holds db) (entries db) (audits db) (extern db).
Definition set_keys (v : gmap string ApiKeyRow) (db : DB) : DB :=
  mkDB (accounts db) v (requests db) (attempts db) (usage db) (windows db) (reservations db) (leases db) (ledger db) (adjustments db) (jobs db) (wallets db) (holds db) (entries db) (audits db) (extern db).
Definition set_requests (v : gmap string Request) (db : DB) : DB :=
  mkDB (accounts db) (keys db) v (attempts db) (usage db) (windows db) (reservations db) (leases db) (ledger db) (adjustments db) (jobs db) (wallets db) (holds db) (entries db) (audits db) (extern db).
Definition set_attempts (v : gmap string Attempt) (db : DB) : DB :=
  mkDB (accounts db) (keys db) (requests db) v (usage db) (windows db) (reservations db) (leases db) (ledger db) (adjustments db) (jobs db) (wallets db) (holds db) (entries db) (audits db) (extern db).
Definition set_usage (v : list UsageRecord) (db : DB) : DB :=
  mkDB (accounts db) (keys db) (requests db) (attempts db) v (windows db) (reservations db) (leases db) (ledger db) (adjustments db) (jobs db) (wallets db) (holds db) (entries db) (audits db) (extern db).
Definition set_windows (v : gmap string QuotaWindow) (db : DB) : DB :=
  mkDB (accounts db) (keys db) (requests db) (attempts db) (usage db) v (reservations db) (leases db) (ledger db) (adjustments db) (jobs db) (wallets db) (holds db) (entries db) (audits db) (extern db).
Definition set_reservations (v : gmap string Reservation) (db : DB) : DB :=
  mkDB (accounts db) (keys db) (requests db) (attempts db) (usage db) (windows db) v (leases db) (ledger db) (adjustments db) (jobs db) (wallets db) (holds db) (entries db) (audits db) (extern db).
Definition set_leases (v : gmap string ConcurrencyLease) (db : DB) : DB :=
  mkDB (accounts db) (keys db) (requests db) (attempts db) (usage db) (windows db) (reservations db) v (ledger db) (adjustments db) (jobs db) (wallets db) (holds db) (entries db) (audits db) (extern db).
Definition set_ledger (v : list LedgerEntry) (db : DB) : DB :=
  mkDB (accounts db) (keys db) (requests db) (attempts db) (usage db) (windows db) (reservations db) (leases db) v (adjustments db) (jobs db) (wallets db) (holds db) (entries db) (audits db) (extern db).
Definition set_adjustments (v : list Adjustment) (db : DB) : DB :=
  mkDB (accounts db) (keys db) (requests db) (attempts db) (usage db) (windows db) (reservations db) (leases db) (ledger db) v (jobs db) (wallets db) (holds db) (entries db) (audits db) (extern db).
Definition set_jobs (v : list ReconciliationJob) (db : DB) : DB :=
  mkDB (accounts db) (keys db) (requests db) (attempts db) (usage db) (windows db) (reservations db) (leases db) (ledger db) (adjustments db) v (wallets db) (holds db) (entries db) (audits db) (extern db).
Definition set_wallets (v : gmap string Wallet) (db : DB) : DB :=
  mkDB (accounts db) (keys db) (requests db) (attempts db) (usage db) (windows db) (reservations db) (leases db) (ledger db) (adjustments db) (jobs db) v (holds db) (entries db) (audits db) (extern db).
Definition set_holds (v : gmap string WalletHold) (db : DB) : DB :=
  mkDB (accounts db) (keys db) (requests db) (attempts db) (usage db) (windows db) (reservations db) (leases db) (ledger db) (adjustments db) (jobs db) (wallets db) v (entries db) (audits db) (extern db).
Definition set_entries (v : list WalletEntry) (db : DB) : DB :=
  mkDB (accounts db) (keys db) (requests db) (attempts db) (usage db) (windows db) (reservations db) (leases db) (ledger db) (adjustments db) (jobs db) (wallets db) (holds db) v (audits db) (extern db).
Definition set_audits (v : list (string * OverageAuditSpec)) (db : DB) : DB :=
  mkDB (accounts db) (keys db) (requests db) (attempts db) (usage db) (windows db) (reservations db) (leases db) (ledger db) (adjustments db) (jobs db) (wallets db) (holds db) (entries db) v (extern db).

(** BIGSERIAL: ids grow with the table (rolled-back draws leave gaps in the
    real sequence, which nothing observes). *)
Definition next_serial {A} (l : list A) : Z := Z.of_nat (length l) + 1.

(** The JSON text of a string value (the texts written need no escaping). *)
Definition json_string (s : string) : string :=
  let q := Ascii.ascii_of_nat 34 in String q (s +:+ String q EmptyString).

(** Column updates. *)
Definition set_r_Status (s : RequestStatus) (now : instant) (r : Request) : Request :=
  mkRequest (r_ID r) (r_BillingAccountID r) (r_APIKeyID r) (r_EntitlementID r) (r_ModelID r)
    (Some s) (r_AdmittedAt r) (r_PriceVersionID r) (r_PolicyVersionID r)
    (r_WindowFiveHourID r) (r_WindowWeeklyID r) (r_WindowMonthlyID r)
    (r_ReservedMicros r) (r_SettledMicros r) (r_ChargeSource r) (r_UsageStatus r)
    (r_InputBoundTokens r) (r_OutputCapTokens r) (r_ExtraBounds r) (r_LastError r) now
    (r_CompletedAt r).
Definition set_r_LastError (e : string) (r : Request) : Request :=
  mkRequest (r_ID r) (r_BillingAccountID r) (r_APIKeyID r) (r_EntitlementID r) (r_ModelID r)
    (r_Status r) (r_AdmittedAt r) (r_PriceVersionID r) (r_PolicyVersionID r)
    (r_WindowFiveHourID r) (r_WindowWeeklyID r) (r_WindowMonthlyID r)
    (r_ReservedMicros r) (r_SettledMicros r) (r_ChargeSource r) (r_UsageStatus r)
    (r_InputBoundTokens r) (r_OutputCapTokens r) (r_ExtraBounds r) e (r_UpdatedAt r)
    (r_CompletedAt r).
Definition set_r_Usage (settled : option Microcredit) (u : UsageSource) (r : Request) : Request :=
  mkRequest (r_ID r) (r_BillingAccountID r) (r_APIKeyID r) (r_EntitlementID r) (r_ModelID r)
    (r_Status r) (r_AdmittedAt r) (r_PriceVersionID r) (r_PolicyVersionID r)
    (r_WindowFiveHourID r) (r_WindowWeeklyID r) (r_WindowMonthlyID r)
    (r_ReservedMicros r) settled (r_ChargeSource r) (Some u)
    (r_InputBoundTokens r) (r_OutputCapTokens r) (r_ExtraBounds r) (r_LastError r) (r_UpdatedAt r)
    (r_CompletedAt r).
Definition set_r_CompletedAt (t : instant) (r : Request) : Request :=
  mkRequest (r_ID r) (r_BillingAccountID r) (r_APIKeyID r) (r_EntitlementID r) (r_ModelID r)
    (r_Status r) (r_AdmittedAt r) (r_PriceVersionID r) (r_PolicyVersionID r)
    (r_WindowFiveHourID r) (r_WindowWeeklyID r) (r_WindowMonthlyID r)
    (r_ReservedMicros r) (r_SettledMicros r) (r_ChargeSource r) (r_UsageStatus r)
    (r_InputBoundTokens r) (r_OutputCapTokens r) (r_ExtraBounds r) (r_LastError r) (r_UpdatedAt r)
    (Some t).
Definition set_w_Counters (used reserved : Microcredit) (w : QuotaWindow) : QuotaWindow :=
  mkWindow (w_ID w) (w_EntitlementID w) (w_Kind w) (w_Start w) (w_End w) (w_Limit w)
    used reserved (w_Voided w).
Definition set_w_Voided (w : QuotaWindow) : QuotaWindow :=
  mkWindow (w_ID w) (w_EntitlementID w) (w_Kind w) (w_Start w) (w_End w) (w_Limit w)
    (w_Used w) (w_Reserved w) true.
Definition set_rv_State (s : ReservationState) (r : Reservation) : Reservation :=
  mkReservation (rv_ID r) (rv_RequestID r) (rv_TargetKind r) (rv_WindowID r) (rv_APIKeyID r)
    (rv_Amount r) s.
Definition set_wh_State (s : ReservationState) (h : WalletHold) : WalletHold :=
  mkHold (wh_ID h) (wh_WalletID h) (wh_RequestID h) (wh_AmountMicros h) (wh_CashMicros h)
    (wh_BonusMicros h) (wh_PriceVersionID h) s.
Definition set_j_Status (s : JobStatus) (resolved : option instant) (detail : gmap string string)
    (j : ReconciliationJob) : ReconciliationJob :=
  mkJob (j_ID j) (j_RequestID j) (j_Reason j) s detail (j_DeadlineAt j) resolved.

(** A store with one active account and nothing else, where every reference
    to a table outside the model resolves; witnesses start from it. *)
Definition demo_db : DB :=
  mkDB {[ "acc" := BillingAccountActive ]} ∅ ∅ ∅ [] ∅ ∅ ∅ [] [] [] ∅ ∅ [] [] (fun _ _ => true).

Definition demo_request (id : string) : Request :=
  mkRequest id "acc" None "ent" "model" None None None "pol" None None None None None None None
    None None [] "" 0 None.

(** What a constraint that let a statement through says. *)
Lemma check_Ok b u : check b = Ok u -> b = true.
Proof. by destruct b. Qed.
Lemma unique_Ok b u : unique b = Ok u -> b = true.
Proof. by destruct b. Qed.
Lemma references_Ok b u : references b = Ok u -> b = true.
Proof. by destruct b. Qed.
Lemma insert_row_Ok {A} k (a : A) m m' : insert_row k a m = Ok m' -> m !! k = None /\ m' = <[k := a]> m.
Proof. unfold insert_row. destruct (m !! k); intros H; [done|]. by injection H. Qed.
Lemma has_true {A} (m : gmap string A) k : has m k = true <-> is_Some (m !! k).
Proof. apply bool_decide_eq_true. Qed.
