(* ===== verification/EntitlementStore.v ===== *)
(** * EntitlementStore: the entitlement, account and outbox tables

    [internal/inference/postgres/entitlement_repo.go] (grants, optimistic
    revisions, retirement, expiry), the account upsert of
    [billing_account_repo.go], and [outbox_repo.go] (the message queue between
    the payment domain and the benefit worker, and the reads of payment state).
    Constraints are those of migrations 026 and 030. *)

From Stdlib Require Import ZArith Lia Bool.
From stdpp Require Import base gmap strings list relations.
From S2P Require Import Prelude Domain Money Calendar WalletRules Principal Tables.

Local Open Scope Z_scope.
Local Open Scope go_scope.

(** ** Rows *)

Inductive PolicyStatus := PolicyDraft | PolicyPublished | PolicySuperseded | PolicyRetired.

#[global] Instance PolicyStatus_eq_dec : EqDecision PolicyStatus.
Proof. solve_decision. Defined.

(** [access.SubscriptionState] (statuses are texts) and the creation time its
    query orders by. *)
Record SubscriptionState := mkSub {
  ss_ID : string;
  ss_UserID : string;
  ss_PlanID : string;
  ss_ProductCode : string;
  ss_Status : string;
  ss_ExpiresAt : option instant;
}.

(** [access.OrderBenefitSnapshot]. *)
Record OrderBenefitSnapshot := mkSnapshot {
  ob_OrderID : string;
  ob_PolicyVersionID : string;
  ob_ModelIDs : list string;
  ob_GrantMode : string;
}.

(** A row of [orders]: who paid for which plan, and when it last changed. *)
Record OrderRow := mkOrder {
  or_Snapshot : option OrderBenefitSnapshot;
  or_UserID : string;
  or_PlanID : string;
  or_Status : string;
  or_UpdatedAt : instant;
  or_CreatedAt : instant;
}.

(** [access.EntitlementSyncMessage]. *)
Record EntitlementSyncMessage := mkSyncMessage {
  sm_UserID : string;
  sm_ProductCode : string;
  sm_Reason : string;
  sm_OrderID : string;
  sm_PaymentID : string;
  sm_RefundID : string;
  sm_SubscriptionID : string;
}.

Inductive OutboxStatus := OutboxPending | OutboxDelivered | OutboxFailed.

#[global] Instance OutboxStatus_eq_dec : EqDecision OutboxStatus.
Proof. solve_decision. Defined.

(** A payload that does not decode is [None]. *)
Record OutboxMessage := mkOutbox {
  ob_ID : Z;
  ob_Topic : string;
  ob_Payload : option EntitlementSyncMessage;
  ob_DedupKey : option string;
  ob_Status : OutboxStatus;
  ob_Attempts : Z;
  ob_NextRetryAt : option instant;
}.

Record BenefitDB := mkBenefitDB {
  bd_ents : gmap string Entitlement;
  bd_policies : gmap string PolicyStatus;
  (** [inference_billing_accounts] by its unique user. *)
  bd_accounts : gmap string string;
  bd_outbox : list OutboxMessage;
  (** subscriptions with their creation time, and orders: payment domain *)
  bd_subs : list (SubscriptionState * instant);
  bd_orders : list OrderRow;
}.

Definition set_ents (v : gmap string Entitlement) (db : BenefitDB) : BenefitDB :=
  mkBenefitDB v (bd_policies db) (bd_accounts db) (bd_outbox db) (bd_subs db) (bd_orders db).
Definition set_billing (v : gmap string string) (db : BenefitDB) : BenefitDB :=
  mkBenefitDB (bd_ents db) (bd_policies db) v (bd_outbox db) (bd_subs db) (bd_orders db).
Definition set_outbox (v : list OutboxMessage) (db : BenefitDB) : BenefitDB :=
  mkBenefitDB (bd_ents db) (bd_policies db) (bd_accounts db) v (bd_subs db) (bd_orders db).

(** ** Grants *)

Definition lockPolicyForGrantTx (policyVersionID : string) (db : BenefitDB) : res unit :=
  let? status := select_one policyVersionID (bd_policies db) in
  fail_if bool_decide (status = PolicyRetired) with EPolicyRetired policyVersionID;
  Ok tt.

Definition same_source (t : EntitlementSource) (id : string) (e : Entitlement) : bool :=
  bool_decide (e_SourceType e = t) && bool_decide (e_SourceID e = id).

(** UNIQUE (source_type, source_id, revision), for a row other than [id]. *)
Definition source_free (id : string) (e : Entitlement) (m : gmap string Entitlement) : bool :=
  forallb (fun p => bool_decide (p.1 = id) || negb (same_source (e_SourceType e) (e_SourceID e) p.2
                                                  && (e_Revision p.2 =? e_Revision e)))
    (map_to_list m).

Definition known_status (s : EntitlementStatus) : bool :=
  match s with EntitlementOther _ => false | _ => true end.
Definition known_source_type (s : EntitlementSource) : bool :=
  match s with SourceOther _ => false | _ => true end.

(** The CHECKs of the table. *)
Definition entitlement_row_ok (e : Entitlement) : bool :=
  known_source_type (e_SourceType e) && (0 <? e_Revision e) && known_status (e_Status e)
  && match e_EffectiveTo e with Some to => e_EffectiveFrom e <? to | None => true end.

(** The INSERT shared by the grant paths; status and revision default. *)
Definition new_row (newID : string) (now : instant) (e : Entitlement) : Entitlement :=
  mkEntitlement newID (e_BillingAccountID e) (e_SourceType e) (e_SourceID e) (e_ModelIDs e)
    (e_PolicyVersionID e) (e_AnchorAt e) (e_EffectiveFrom e) (e_EffectiveTo e)
    (if e_Revision e =? 0 then 1 else e_Revision e) (e_Stackable e)
    (if bool_decide (e_Status e = EntitlementOther "") then EntitlementActive else e_Status e) now now.

Definition has_account (id : string) (db : BenefitDB) : bool :=
  existsb (fun p => bool_decide (p.2 = id)) (map_to_list (bd_accounts db)).

Definition insert_entitlement (row : Entitlement) (db : BenefitDB) : res BenefitDB :=
  let? _ := check (entitlement_row_ok row) in
  let? m := insert_row (e_ID row) row (bd_ents db) in
  let? _ := unique (source_free (e_ID row) row (bd_ents db)) in
  let? _ := references (has_account (e_BillingAccountID row) db && has (bd_policies db) (e_PolicyVersionID row)) in
  Ok (set_ents m db).

Definition InsertEntitlementTx (newID : string) (now : instant) (e : Entitlement) (db : BenefitDB)
  : res (Entitlement * BenefitDB) :=
  let? _ := lockPolicyForGrantTx (e_PolicyVersionID e) db in
  let row := new_row newID now e in
  let? db := insert_entitlement row db in
  Ok (row, db).

(** ORDER BY revision DESC, created_at DESC LIMIT 1. *)
Definition newer (a b : Entitlement) : bool :=
  if negb (e_Revision a =? e_Revision b) then e_Revision b <? e_Revision a
  else e_CreatedAt b <? e_CreatedAt a.

Definition GetLatestEntitlementBySource (t : EntitlementSource) (id : string) (db : BenefitDB) : res Entitlement :=
  match stable_sort newer (rows (bd_ents db) (same_source t id)) with
  | e :: _ => Ok e
  | [] => db_fail ErrNoRows
  end.

(** [insertEntitlementOrReadWinnerTx]: the exact revision if it exists, else
    the insert. [ON CONFLICT DO NOTHING] cannot lose a race in one step. *)
Definition insertEntitlementOrReadWinnerTx (newID : string) (now : instant) (e : Entitlement) (db : BenefitDB)
  : res (Entitlement * BenefitDB) :=
  let row := new_row newID now e in
  match rows (bd_ents db) (fun x => same_source (e_SourceType e) (e_SourceID e) x && (e_Revision x =? e_Revision row)) with
  | x :: _ => Ok (x, db)
  | [] =>
      let? _ := lockPolicyForGrantTx (e_PolicyVersionID e) db in
      let? db := insert_entitlement row db in
      Ok (row, db)
  end.

(** ** Revisions *)

(** INT arithmetic raises beyond 32 bits. *)
Definition sql_int4 (z : Z) : res Z := if (- 2 ^ 31 <=? z) && (z <? 2 ^ 31) then Ok z else db_fail OtherDbError.

(** UPDATE of one row: its CHECKs, unique key and foreign keys. *)
Definition update_entitlement (row : Entitlement) (db : BenefitDB) : res BenefitDB :=
  let? _ := sql_int4 (e_Revision row) in
  let? _ := check (entitlement_row_ok row) in
  let? _ := unique (source_free (e_ID row) row (bd_ents db)) in
  let? _ := references (has (bd_policies db) (e_PolicyVersionID row)) in
  Ok (set_ents (<[e_ID row := row]> (bd_ents db)) db).

(** The SET list of revise and revive: COALESCE keeps what the patch omits. *)
Definition patched (patch : EntitlementPatch) (status : EntitlementStatus) (now : instant) (e : Entitlement)
  : Entitlement :=
  mkEntitlement (e_ID e) (e_BillingAccountID e) (e_SourceType e) (e_SourceID e)
    (default (e_ModelIDs e) (ep_ModelIDs patch)) (default (e_PolicyVersionID e) (ep_PolicyVersionID patch))
    (e_AnchorAt e) (e_EffectiveFrom e)
    (if ep_ClearEffectiveTo patch then None
     else match ep_EffectiveTo patch with Some to => Some to | None => e_EffectiveTo e end)
    (e_Revision e + 1) (e_Stackable e) status (e_CreatedAt e) now.

Definition is_retired (s : EntitlementStatus) : bool :=
  match s with EntitlementRevoked | EntitlementExpired => true | _ => false end.

Definition ReviseEntitlementTx (id : string) (patch : EntitlementPatch) (now : instant) (db : BenefitDB)
  : res (Entitlement * BenefitDB) :=
  match bd_ents db !! id with
  | None => Err (NewError CodeConflict)
  | Some e =>
      guard (e_Revision e =? ep_ExpectedRevision patch) && bool_decide (e_Status e = EntitlementActive)
        else NewError CodeConflict;
      let row := patched patch EntitlementActive now e in
      let? db := update_entitlement row db in
      Ok (row, db)
  end.

Definition ReviveEntitlementTx (id : string) (patch : EntitlementPatch) (now : instant) (db : BenefitDB)
  : res (Entitlement * BenefitDB) :=
  match bd_ents db !! id with
  | None => Err (NewError CodeConflict)
  | Some e =>
      guard (e_Revision e =? ep_ExpectedRevision patch) && is_retired (e_Status e) else NewError CodeConflict;
      let row := patched patch EntitlementActive now e in
      let? db := update_entitlement row db in
      Ok (row, db)
  end.

(** [ReviseEntitlement] outside a transaction: a missing row is not found. *)
Definition ReviseEntitlement (id : string) (patch : EntitlementPatch) (now : instant) (db : BenefitDB)
  : res (Entitlement * BenefitDB) :=
  match bd_ents db !! id with
  | None => db_fail ErrNoRows
  | Some _ => ReviseEntitlementTx id patch now db
  end.

Definition keep : EntitlementPatch := mkPatch 0 None None None false.

Definition RetireEntitlementTx (id : string) (expectedRevision : Z) (to : EntitlementStatus) (now : instant)
    (db : BenefitDB) : res BenefitDB :=
  guard match to with EntitlementRevoked | EntitlementExpired | EntitlementSuperseded => true | _ => false end
    else NewError CodeInvalidInput;
  match bd_ents db !! id with
  | None => Err (NewError CodeConflict)
  | Some e =>
      guard (e_Revision e =? expectedRevision) && bool_decide (e_Status e = EntitlementActive)
        else NewError CodeConflict;
      update_entitlement (patched keep to now e) db
  end.

(** [MarkExpiredEntitlements]: every row the WHERE clause selects, one by one. *)
Definition lapsed (now : instant) (e : Entitlement) : bool :=
  bool_decide (e_Status e = EntitlementActive)
  && match e_EffectiveTo e with Some to => to <=? now | None => false end.

Definition MarkExpiredEntitlements (now : instant) (db : BenefitDB) : res (Z * BenefitDB) :=
  let hit := rows (bd_ents db) (lapsed now) in
  let? db := rfold (fun db e => update_entitlement (patched keep EntitlementExpired now e) db) db hit in
  Ok (Z.of_nat (length hit), db).

Definition GetEntitlement (id : string) (db : BenefitDB) : res Entitlement := select_one id (bd_ents db).

(** WHERE account, active, in range; ORDER BY subscription first, created_at. *)
Definition ListActiveEntitlements (account : string) (at_ : instant) (db : BenefitDB) : list Entitlement :=
  let rank e := if bool_decide (e_SourceType e = SourceSubscription) then 0 else 1 in
  stable_sort (fun a b => if negb (rank a =? rank b) then rank a <? rank b else e_CreatedAt a <? e_CreatedAt b)
    (rows (bd_ents db) (fun e => bool_decide (e_BillingAccountID e = account)
        && bool_decide (e_Status e = EntitlementActive) && (e_EffectiveFrom e <=? at_)
        && match e_EffectiveTo e with Some to => at_ <? to | None => true end)).

(** ** Accounts *)

(** INSERT ... ON CONFLICT (user_id) DO NOTHING, else the existing row. *)
Definition EnsureBillingAccount (newID userID : string) (db : BenefitDB) : string * BenefitDB :=
  match bd_accounts db !! userID with
  | Some id => (id, db)
  | None => (newID, set_billing (<[userID := newID]> (bd_accounts db)) db)
  end.

(** ** The outbox *)

Definition EnqueueOutbox (topic : string) (payload : option EntitlementSyncMessage) (dedupKey : option string)
    (db : BenefitDB) : Z * BenefitDB :=
  if existsb (fun m => match dedupKey with Some k => bool_decide (ob_DedupKey m = Some k) | None => false end)
       (bd_outbox db)
  then (0, db)
  else let id := Z.of_nat (length (bd_outbox db)) + 1 in
       (id, set_outbox (bd_outbox db ++ [mkOutbox id topic payload dedupKey OutboxPending 0 None]) db).

Definition fetchPendingOutbox (topic : string) (limit : Z) (now : instant) (db : BenefitDB) : list OutboxMessage :=
  let limit := if limit <=? 0 then 100 else limit in
  firstn (Z.to_nat limit)
    (List.filter (fun m => bool_decide (ob_Status m = OutboxPending)
        && match ob_NextRetryAt m with Some t => t <=? now | None => true end
        && (bool_decide (topic = "") || bool_decide (ob_Topic m = topic))) (bd_outbox db)).

Definition on_message (id : Z) (f : OutboxMessage -> OutboxMessage) (db : BenefitDB) : BenefitDB :=
  set_outbox (map (fun m => if ob_ID m =? id then f m else m) (bd_outbox db)) db.

Definition MarkOutboxDeliveredTx (id : Z) (db : BenefitDB) : BenefitDB :=
  on_message id (fun m => mkOutbox (ob_ID m) (ob_Topic m) (ob_Payload m) (ob_DedupKey m) OutboxDelivered
                            (ob_Attempts m) (ob_NextRetryAt m)) db.

Definition MarkOutboxFailed (id : Z) (nextRetry : instant) (db : BenefitDB) : BenefitDB :=
  on_message id (fun m => mkOutbox (ob_ID m) (ob_Topic m) (ob_Payload m) (ob_DedupKey m) (ob_Status m)
                            (ob_Attempts m + 1) (Some nextRetry)) db.

(** ** Payment state *)

(** Active first, else the most recently created. *)
Definition GetSyncSubscription (userID productCode : string) (db : BenefitDB) : res SubscriptionState :=
  let rank s := if bool_decide (ss_Status s = "active") then 0 else 1 in
  match stable_sort (fun a b => if negb (rank a.1 =? rank b.1) then rank a.1 <? rank b.1 else b.2 <? a.2)
          (List.filter (fun p => bool_decide (ss_UserID p.1 = userID) && bool_decide (ss_ProductCode p.1 = productCode))
             (bd_subs db)) with
  | p :: _ => Ok p.1
  | [] => db_fail ErrNoRows
  end.

Definition GetLatestPaidBenefitOrder (userID planID : string) (db : BenefitDB) : res OrderBenefitSnapshot :=
  match stable_sort (fun a b => if negb (or_UpdatedAt a =? or_UpdatedAt b) then or_UpdatedAt b <? or_UpdatedAt a
                               else or_CreatedAt b <? or_CreatedAt a)
          (List.filter (fun o => bool_decide (or_UserID o = userID) && bool_decide (or_PlanID o = planID)
             && bool_decide (or_Status o = "paid") && bool_decide (is_Some (or_Snapshot o))) (bd_orders db)) with
  | o :: _ => match or_Snapshot o with Some s => Ok s | None => db_fail ErrNoRows end
  | [] => db_fail ErrNoRows
  end.
