(* ===== verification/BenefitRules.v ===== *)
(** * BenefitRules: from payment state to the entitlement it demands

    [internal/inference/access/benefit_grant.go]: the deduplication keys, the
    target entitlement of a subscription and its paying order, the action that
    moves the current row to the target, the activation period of a paid
    coding-plan order, and migration gifts. *)

From Stdlib Require Import ZArith Lia Bool.
From stdpp Require Import base gmap strings list.
From S2P Require Import Prelude Domain Calendar Window Principal Entitlements Tables EntitlementStore.

Local Open Scope Z_scope.
Local Open Scope go_scope.

Definition TopicEntitlementSync : string := "entitlement.sync".

Definition PaidSyncDedupKey (paymentID : string) : string := "benefit:paid:" +:+ paymentID.
Definition RefundSyncDedupKey (refundID : string) : string := "benefit:refund:" +:+ refundID.
Definition FailedSyncDedupKey (paymentID : string) : string := "benefit:failed:" +:+ paymentID.
Definition BundleGiftSourceID (subscriptionID : string) : string := "bundle:" +:+ subscriptionID.
Definition MigrationGiftSourceID (ruleID userID : string) : string := "migration:" +:+ ruleID +:+ ":" +:+ userID.

Definition BenefitGrantModeSubscription : string := "subscription".
Definition BenefitGrantModeGift : string := "gift".

(** ** The target *)

Record BenefitTarget := mkTarget {
  bt_SourceType : EntitlementSource;
  bt_SourceID : string;
  bt_PolicyVersionID : string;
  bt_ModelIDs : list string;
  bt_EffectiveTo : option instant;
  bt_Stackable : bool;
}.

(** [RetireAs]: the zero value of the Go field is [EntitlementOther ""]. *)
Record SyncDecision := mkDecision {
  sd_Reason : string;
  sd_Target : option BenefitTarget;
  sd_RetireAs : EntitlementStatus;
}.

Definition DecideSync (sub : option SubscriptionState) (paidOrder : option OrderBenefitSnapshot) (now : instant)
  : res SyncDecision :=
  match sub with
  | None => Ok (mkDecision "no_subscription" None EntitlementRevoked)
  | Some sub =>
      if negb (bool_decide (ss_Status sub = "active"))
      then Ok (mkDecision ("subscription_" +:+ ss_Status sub) None EntitlementRevoked) else
      if match ss_ExpiresAt sub with Some t => negb (now <? t) | None => false end
      then Ok (mkDecision "subscription_lapsed" None EntitlementExpired) else
      match paidOrder with
      | None => Ok (mkDecision "no_paid_order_evidence" None EntitlementRevoked)
      | Some o =>
          fail_if bool_decide (ob_PolicyVersionID o = "") with NewError CodeInvalidInput;
          let target t id := mkTarget t id (ob_PolicyVersionID o) (dedupeModels (ob_ModelIDs o))
                               (ss_ExpiresAt sub) false in
          if bool_decide (ob_GrantMode o = BenefitGrantModeSubscription)
          then Ok (mkDecision ("active_" +:+ ob_GrantMode o) (Some (target SourceSubscription (ss_ID sub)))
                     (EntitlementOther ""))
          else if bool_decide (ob_GrantMode o = BenefitGrantModeGift)
          then Ok (mkDecision ("active_" +:+ ob_GrantMode o)
                     (Some (target SourceGrant (BundleGiftSourceID (ss_ID sub)))) (EntitlementOther ""))
          else Err (NewError CodeInvalidInput)
      end
  end.

(** ** The action *)

(** [ConvergeAction]: the fields each operation code reads. *)
Inductive ConvergeAction :=
| ConvergeNoop
| ConvergeInsert (plan : PlanRevision) (anchor effectiveFrom : instant) (effectiveTo : option instant)
| ConvergeRevise (patch : EntitlementPatch)
| ConvergeRevive (patch : EntitlementPatch)
| ConvergeRetire (expectedRevision : Z) (retireAs : EntitlementStatus).

Definition sameEffectiveTo (a b : option instant) : bool :=
  match a, b with
  | Some x, Some y => x =? y
  | None, None => true
  | _, _ => false
  end.

Definition empty_patch (p : EntitlementPatch) : bool :=
  bool_decide (ep_PolicyVersionID p = None) && bool_decide (ep_ModelIDs p = None)
  && bool_decide (ep_EffectiveTo p = None) && negb (ep_ClearEffectiveTo p).

(** The patch that takes [current] to the target. *)
Definition converge_patch (current : Entitlement) (want : BenefitTarget) : res EntitlementPatch :=
  let policy := if bool_decide (bt_PolicyVersionID want = e_PolicyVersionID current) then None
                else Some (bt_PolicyVersionID want) in
  let models := if equalModelSets (bt_ModelIDs want) (e_ModelIDs current) then None
                else Some (dedupeModels (bt_ModelIDs want)) in
  if sameEffectiveTo (bt_EffectiveTo want) (e_EffectiveTo current)
  then Ok (mkPatch (e_Revision current) policy models None false) else
  match bt_EffectiveTo want with
  | None => Ok (mkPatch (e_Revision current) policy models None true)
  | Some to =>
      guard e_EffectiveFrom current <? to else NewError CodeInvalidInput;
      Ok (mkPatch (e_Revision current) policy models (Some to) false)
  end.

Definition Converge (current : option Entitlement) (decision : option SyncDecision) (now : instant)
  : res ConvergeAction :=
  match decision with
  | None => Err (NewError CodeInvalidInput)
  | Some decision =>
      match sd_Target decision with
      | None =>
          match current with
          | Some cur =>
              if bool_decide (e_Status cur = EntitlementActive)
              then let retireAs := if bool_decide (sd_RetireAs decision = EntitlementOther "")
                                      || bool_decide (sd_RetireAs decision = EntitlementActive)
                                   then EntitlementRevoked else sd_RetireAs decision in
                   Ok (ConvergeRetire (e_Revision cur) retireAs)
              else Ok ConvergeNoop
          | None => Ok ConvergeNoop
          end
      | Some want =>
          fail_if bool_decide (bt_PolicyVersionID want = "") with NewError CodeInvalidInput;
          match current with
          | None => Ok (ConvergeInsert (mkPlan (bt_SourceType want) (bt_SourceID want) (bt_ModelIDs want)
                                         (bt_PolicyVersionID want)) now now (bt_EffectiveTo want))
          | Some cur =>
              let? patch := converge_patch cur want in
              if negb (bool_decide (e_Status cur = EntitlementActive)) then Ok (ConvergeRevive patch)
              else if empty_patch patch then Ok ConvergeNoop
              else Ok (ConvergeRevise patch)
          end
      end
  end.

(** ** Activation of a paid order *)

Record CodingPlanActivation := mkActivation { cp_ExpiresAt : option instant; cp_Blocked : string }.

Definition day : duration := 24 * hour.
Definition maxIntervalDays : Z := 365 * 290.

Definition rollFrom (current : option instant) (intervalDays : Z) : option instant :=
  match current with
  | Some t => if intervalDays <=? 0 then None else Some (time_add t (mul64 (mul64 intervalDays 24) hour))
  | None => None
  end.

Definition freshFromNow (now : instant) (intervalDays : Z) : option instant :=
  if intervalDays <=? 0 then None else Some (time_add now (mul64 (mul64 intervalDays 24) hour)).

(** The hint, clamped into [now, now + interval], may only extend the base. *)
Definition clamp_hint (now : instant) (intervalDays : Z) (hint base : option instant) : option instant :=
  match hint, base with
  | Some c, Some b =>
      let c := if c <? now then now else c in
      let max := time_add now (mul64 (mul64 intervalDays 24) hour) in
      let c := if (0 <? intervalDays) && (max <? c) then max else c in
      if b <? c then Some c else Some b
  | _, _ => base
  end.

Definition sub_live (now : instant) (s : SubscriptionState) : bool :=
  bool_decide (ss_Status s = "active") && match ss_ExpiresAt s with Some t => now <? t | None => true end.

Inductive OrderKind := OrderKindNew | OrderKindRenewal | OrderKindUpgrade | OrderKindOther.

(** [None] is the blocked outcome. *)
Definition activation_base (kind : OrderKind) (intervalDays : Z) (upgradeFromPlanID : option string)
    (orderPlanID : string) (current : option SubscriptionState) (now : instant)
  : res (option (option instant)) :=
  let live := match current with Some s => if sub_live now s then Some s else None | None => None end in
  match kind with
  | OrderKindNew | OrderKindRenewal =>
      match live with
      | Some s => if negb (bool_decide (ss_PlanID s = orderPlanID)) then Ok None
                  else Ok (Some (rollFrom (ss_ExpiresAt s) intervalDays))
      | None => Ok (Some (freshFromNow now intervalDays))
      end
  | OrderKindUpgrade =>
      match live with
      | Some s =>
          if bool_decide (upgradeFromPlanID = Some (ss_PlanID s)) then Ok (Some (freshFromNow now intervalDays))
          else if bool_decide (ss_PlanID s = orderPlanID) then Ok (Some (rollFrom (ss_ExpiresAt s) intervalDays))
          else Ok None
      | None => Ok (Some (freshFromNow now intervalDays))
      end
  | OrderKindOther => Err (NewError CodeInvalidInput)
  end.

Definition ResolveCodingPlanActivation (kind : OrderKind) (intervalDays : Z) (upgradeFromPlanID : option string)
    (orderPlanID : string) (current : option SubscriptionState) (hint : option instant) (now : instant)
  : res CodingPlanActivation :=
  fail_if maxIntervalDays <? intervalDays with NewError CodeInvalidInput;
  let? base := activation_base kind intervalDays upgradeFromPlanID orderPlanID current now in
  match base with
  | None => Ok (mkActivation None "conflict_existing_other_plan")
  | Some base => Ok (mkActivation (clamp_hint now intervalDays hint base) "")
  end.

(** ** Migration gifts *)

Definition MigrationGift (ruleID userID : string) (modelIDs : list string) (policyVersionID : string)
    (anchor effectiveFrom : instant) (effectiveTo : option instant) : res Entitlement :=
  fail_if bool_decide (ruleID = "") || bool_decide (userID = "") with NewError CodeInvalidInput;
  GrantFromPlan (mkPlan SourceGrant (MigrationGiftSourceID ruleID userID) modelIDs policyVersionID)
    anchor effectiveFrom effectiveTo.

(** ** Activation, in closed form *)

(** An interval of days, as a duration. *)
Definition interval (intervalDays : Z) : duration := intervalDays * day.

Lemma interval_exact d : 0 < d <= maxIntervalDays -> mul64 (mul64 d 24) hour = interval d /\ 0 < interval d.
Proof.
  unfold maxIntervalDays, interval, day, hour, minute, second, mul64. intros H.
  rewrite (wrap64_id (d * 24)), wrap64_id; unfold in_int64, min_int64, max_int64; lia.
Qed.

Lemma freshFromNow_exact now d : d <= maxIntervalDays ->
  freshFromNow now d = if 0 <? d then Some (now + interval d) else None.
Proof.
  intros H. unfold freshFromNow, time_add. rewrite Z.leb_antisym. destruct (Z.ltb_spec 0 d); [|done].
  simpl. by rewrite (proj1 (interval_exact d ltac:(lia))).
Qed.

Lemma rollFrom_exact current d : d <= maxIntervalDays ->
  rollFrom current d = if 0 <? d then (fun t => t + interval d) <$> current else None.
Proof.
  intros H. unfold rollFrom, time_add. rewrite Z.leb_antisym. destruct current as [t|]; [|by destruct (0 <? d)].
  destruct (Z.ltb_spec 0 d); [|done]. simpl. by rewrite (proj1 (interval_exact d ltac:(lia))).
Qed.

(** A base that lies at least one interval ahead leaves no room for a hint. *)
Lemma clamp_hint_id now d hint base : 0 < d <= maxIntervalDays ->
  (forall b, base = Some b -> now + interval d <= b) -> clamp_hint now d hint base = base.
Proof.
  intros Hd Hb. unfold clamp_hint, time_add. destruct hint as [c|], base as [b|]; try done.
  specialize (Hb b eq_refl). destruct (interval_exact d Hd) as [-> Hp]. cbv zeta. rewrite (proj2 (Z.ltb_lt 0 d)) by lia. cbn [andb].
  destruct (Z.ltb_spec c now);
    repeat match goal with |- context [?a <? ?b] => destruct (Z.ltb_spec a b) end; done || lia.
Qed.

(** The live subscription of the order's customer. *)
Definition live_sub (current : option SubscriptionState) (now : instant) : option SubscriptionState :=
  match current with Some s => if sub_live now s then Some s else None | None => None end.

(** An upgrade that replaces the plan it was bought from. *)
Definition replaces (kind : OrderKind) (upgradeFromPlanID : option string) (s : SubscriptionState) : bool :=
  match kind with OrderKindUpgrade => bool_decide (upgradeFromPlanID = Some (ss_PlanID s)) | _ => false end.

(** ACTIVATION OF A PAID ORDER, EXACTLY. Below the safety cap no duration
    overflows and every known order kind resolves: without a live subscription,
    or when an upgrade replaces the plan it names, the period is exactly the
    order's days from now; a live subscription to the ordered plan is extended
    by exactly those days from its own end, so nothing already paid is lost; a
    live subscription to another plan blocks; a lifetime order or an open-ended
    subscription stays open-ended. The channel's expiry hint never changes the
    outcome. *)
Theorem activation_exact kind d from order current hint now : d <= maxIntervalDays -> kind <> OrderKindOther ->
  let fresh := mkActivation (if 0 <? d then Some (now + interval d) else None) "" in
  ResolveCodingPlanActivation kind d from order current hint now =
    Ok (match live_sub current now with
        | None => fresh
        | Some s =>
            if replaces kind from s then fresh
            else if bool_decide (ss_PlanID s = order)
            then mkActivation (if 0 <? d then (fun t => t + interval d) <$> ss_ExpiresAt s else None) ""
            else mkActivation None "conflict_existing_other_plan"
        end).
Proof.
  intros Hd Hk fresh. unfold ResolveCodingPlanActivation, activation_base. fold (live_sub current now).
  rewrite (proj2 (Z.ltb_ge _ _) Hd). cbn [rbind]. rewrite (freshFromNow_exact now d Hd).
  assert (forall base, (0 < d -> forall b, base = Some b -> now + interval d <= b) ->
    clamp_hint now d hint (if 0 <? d then base else None) = if 0 <? d then base else None) as Hc.
  { intros base Hb. destruct (Z.ltb_spec 0 d); [apply clamp_hint_id; [lia|auto]|by destruct hint]. }
  pose proof (Hc (Some (now + interval d)) ltac:(intros _ b [= <-]; lia)) as Hfresh.
  assert (forall s, live_sub current now = Some s -> clamp_hint now d hint (rollFrom (ss_ExpiresAt s) d) =
    if 0 <? d then (fun t => t + interval d) <$> ss_ExpiresAt s else None) as Hroll.
  { intros s Hs. rewrite rollFrom_exact by done. apply Hc. intros _ b Hb.
    apply fmap_Some in Hb as (t & Ht & ->). unfold live_sub, sub_live in Hs. destruct current as [x|]; [|done].
    destruct (bool_decide _ && _) eqn:E; [|done]. injection Hs as ->. rewrite Ht in E.
    apply andb_true_iff in E as [_ E%Z.ltb_lt]. lia. }
  unfold replaces, fresh. destruct (live_sub current now) as [s|].
  - specialize (Hroll s eq_refl). destruct kind; try done; repeat case_bool_decide; simpl; try done;
      by rewrite ?Hfresh, ?Hroll.
  - destruct kind; try done; simpl; by rewrite Hfresh.
Qed.

(** A renewal with ten days left, under a hint in the past. *)
Lemma activation_exact_witness :
  ResolveCodingPlanActivation OrderKindRenewal 30 None "pro"
    (Some (mkSub "s1" "u1" "pro" "coding-plan" "active" (Some (10 * day)))) (Some (-5)) 0
  = Ok (mkActivation (Some (40 * day)) "").
Proof. rewrite activation_exact; [by vm_compute|by vm_compute|done]. Defined.
