(* ===== verification/BenefitSync.v ===== *)
(** * BenefitSync: the worker that turns payments into entitlements

    [internal/inference/workers/entitlement_sync.go]: planning the converge
    actions of a (user, product) pair from the current state, applying them in
    one transaction with the delivery mark, retries, and migration gifts; with
    the pay-as-you-go upsert of [postgres/wallet_repo.go]. Reading of the clock
    and everything the database generates are arguments; the reads of one
    planning step see one state, the transaction may see a later one. *)

From Stdlib Require Import ZArith Lia Bool Sorted.
From stdpp Require Import base gmap strings list relations.
From S2P Require Import Prelude Domain Money Calendar Window WalletRules Principal Entitlements Tables.
From S2P Require Import EntitlementStore BenefitRules.

Local Open Scope Z_scope.
Local Open Scope go_scope.

(** What one message draws from outside. *)
Record SyncEnv := mkSyncEnv {
  (** successive readings of the worker's clock *)
  se_clock : nat -> instant;
  se_accountID : string;
  se_entID : nat -> string;
  (** the database's [now()] *)
  se_now : instant;
  se_begin : option error;
  se_commit : CommitOutcome;
  (** whether the statement that reschedules a message goes through *)
  se_marks : bool;
}.

Record sourcePlan := mkSourcePlan {
  sp_sourceType : EntitlementSource;
  sp_sourceID : string;
  sp_entitlementID : string;
  sp_action : ConvergeAction;
}.

(** A missing row is [nil], any other error is returned. *)
Definition found {A} (r : res A) : res (option A) :=
  match r with
  | Ok a => Ok (Some a)
  | Err e => if bool_decide (CodeOf e = CodeNotFound) then Ok None else Err e
  end.

(** One candidate source: converge its latest row to the target if it is the
    target's own source, to nothing otherwise. *)
Definition plan_source (decision : SyncDecision) (src : EntitlementSource * string) (now : instant) (db : BenefitDB)
  : res (list sourcePlan) :=
  let? current := found (GetLatestEntitlementBySource src.1 src.2 db) in
  let target := match sd_Target decision with
                | Some t => if bool_decide (bt_SourceType t = src.1) && bool_decide (bt_SourceID t = src.2)
                            then Some t else None
                | None => None end in
  let? action := Converge current (Some (mkDecision (sd_Reason decision) target (sd_RetireAs decision))) now in
  match action with
  | ConvergeNoop => Ok []
  | _ => Ok [mkSourcePlan src.1 src.2 (match current with Some e => e_ID e | None => "" end) action]
  end.

Definition planSync (clock : nat -> instant) (userID productCode subscriptionIDHint : string) (db : BenefitDB)
  : res (list sourcePlan) :=
  fail_if bool_decide (userID = "") || bool_decide (productCode = "") with NewError CodeInvalidInput;
  let? sub := found (GetSyncSubscription userID productCode db) in
  let? paidOrder := match sub with
                    | Some s => if bool_decide (ss_Status s = "active")
                                then found (GetLatestPaidBenefitOrder userID (ss_PlanID s) db) else Ok None
                    | None => Ok None end in
  let? decision := DecideSync sub paidOrder (clock 0%nat) in
  let subID := match sub with Some s => ss_ID s | None => subscriptionIDHint end in
  if bool_decide (subID = "") then Ok [] else
  let? p1 := plan_source decision (SourceSubscription, subID) (clock 1%nat) db in
  let? p2 := plan_source decision (SourceGrant, BundleGiftSourceID subID) (clock 2%nat) db in
  Ok (p1 ++ p2).

(** ** Applying *)

(** A conflict is a lost race ([Ok None]), any other error is returned. *)
Definition racing {A} (r : res A) : res (option A) :=
  match r with
  | Ok a => Ok (Some a)
  | Err e => if bool_decide (CodeOf e = CodeConflict) then Ok None else Err e
  end.

Definition with_account (account : string) (e : Entitlement) : Entitlement :=
  mkEntitlement (e_ID e) account (e_SourceType e) (e_SourceID e) (e_ModelIDs e) (e_PolicyVersionID e)
    (e_AnchorAt e) (e_EffectiveFrom e) (e_EffectiveTo e) (e_Revision e) (e_Stackable e) (e_Status e)
    (e_CreatedAt e) (e_UpdatedAt e).

(** A retired policy is permanent, never a benign race. *)
Definition insert_racing (newID : string) (now : instant) (e : Entitlement) (db : BenefitDB) : res (option BenefitDB) :=
  match InsertEntitlementTx newID now e db with
  | Err (EPolicyRetired p) => Err (EPolicyRetired p)
  | r => racing (let? (_, db) := r in Ok db)
  end.

Definition apply_plan (env : SyncEnv) (accountID : string) (i : nat) (p : sourcePlan) (db : BenefitDB)
  : res (option BenefitDB) :=
  match sp_action p with
  | ConvergeNoop => Ok (Some db)
  | ConvergeInsert plan anchor from to =>
      let? ent := GrantFromPlan plan anchor from to in
      insert_racing (se_entID env i) (se_now env) (with_account accountID ent) db
  | ConvergeRevise patch =>
      racing (let? (_, db) := ReviseEntitlementTx (sp_entitlementID p) patch (se_now env) db in Ok db)
  | ConvergeRevive patch =>
      racing (let? (_, db) := ReviveEntitlementTx (sp_entitlementID p) patch (se_now env) db in Ok db)
  | ConvergeRetire rev to => racing (RetireEntitlementTx (sp_entitlementID p) rev to (se_now env) db)
  end.

Fixpoint apply_each (env : SyncEnv) (accountID : string) (i : nat) (plans : list sourcePlan) (db : BenefitDB)
  : res (option BenefitDB) :=
  match plans with
  | [] => Ok (Some db)
  | p :: plans =>
      let? r := apply_plan env accountID i p db in
      match r with
      | Some db => apply_each env accountID (S i) plans db
      | None => Ok None
      end
  end.

Definition is_insert (p : sourcePlan) : bool :=
  match sp_action p with ConvergeInsert _ _ _ _ => true | _ => false end.

Definition deliver (outboxID : option Z) (db : BenefitDB) : BenefitDB :=
  match outboxID with Some id => MarkOutboxDeliveredTx id db | None => db end.

(** Begin, the body, Commit; an error or a lost race rolls back. *)
Definition in_tx (env : SyncEnv) (body : BenefitDB -> res (option BenefitDB)) (db : BenefitDB)
  : BenefitDB * res bool :=
  match se_begin env with
  | Some e => (db, Err e)
  | None =>
      match body db with
      | Err e => (db, Err e)
      | Ok None => (db, Ok true)
      | Ok (Some db') =>
          match se_commit env with
          | Committed => (db', Ok false)
          | CommitFailed e persisted => (if persisted then db' else db, Err e)
          end
      end
  end.

(** Returns whether an optimistic guard was lost. *)
Definition applyPlans (env : SyncEnv) (userID : string) (plans : list sourcePlan) (outboxID : option Z)
    (db : BenefitDB) : BenefitDB * res bool :=
  match plans, outboxID with
  | [], None => (db, Ok false)
  | [], Some _ => in_tx env (fun db => Ok (Some (deliver outboxID db))) db
  | _, _ =>
      let '(accountID, db) := if existsb is_insert plans then EnsureBillingAccount (se_accountID env) userID db
                              else ("", db) in
      in_tx env (fun db => let? r := apply_each env accountID 0 plans db in
                           Ok (match r with Some db => Some (deliver outboxID db) | None => None end)) db
  end.

(** ** Messages *)

Record EntitlementSyncConfig := mkSyncConfig { cf_BatchLimit : Z; cf_MaxBackoff : duration }.

(** [withDefaults]; the pass interval is only the ticker's. *)
Definition withDefaults (c : EntitlementSyncConfig) : EntitlementSyncConfig :=
  mkSyncConfig (if cf_BatchLimit c <=? 0 then 100 else cf_BatchLimit c)
    (if cf_MaxBackoff c <=? 0 then 10 * minute else cf_MaxBackoff c).

(** 5s doubled per attempt, capped. *)
Definition backoff (cfg : EntitlementSyncConfig) (attempts : Z) : duration :=
  let b := wrap64 (Z.shiftl (5 * second) (Z.min attempts 10)) in
  if (cf_MaxBackoff cfg <? b) || (b <? 0) then cf_MaxBackoff cfg else b.

Definition mark_failed (env : SyncEnv) (id : Z) (at_ : instant) (db : BenefitDB) : BenefitDB :=
  if se_marks env then MarkOutboxFailed id at_ db else db.

Definition reschedule (cfg : EntitlementSyncConfig) (env : SyncEnv) (msg : OutboxMessage) (db : BenefitDB) : BenefitDB :=
  mark_failed env (ob_ID msg) (time_add (se_clock env 3%nat) (backoff cfg (ob_Attempts msg))) db.

Definition rescheduleSoon (env : SyncEnv) (msg : OutboxMessage) (db : BenefitDB) : BenefitDB :=
  mark_failed env (ob_ID msg) (se_clock env 3%nat) db.

Inductive MessageOutcome := MsgDelivered | MsgRacing | MsgFailed.

(** [others]: what other transactions commit between planning and applying. *)
Definition processMessage (cfg : EntitlementSyncConfig) (env : SyncEnv) (others : BenefitDB -> BenefitDB)
    (msg : OutboxMessage) (db : BenefitDB) : BenefitDB * MessageOutcome :=
  match ob_Payload msg with
  | None => (reschedule cfg env msg db, MsgFailed)
  | Some m =>
      match planSync (se_clock env) (sm_UserID m) (sm_ProductCode m) (sm_SubscriptionID m) db with
      | Err _ => (reschedule cfg env msg db, MsgFailed)
      | Ok plans =>
          let '(db, r) := applyPlans env (sm_UserID m) plans (Some (ob_ID msg)) (others db) in
          match r with
          | Err _ => (reschedule cfg env msg db, MsgFailed)
          | Ok true => (rescheduleSoon env msg db, MsgRacing)
          | Ok false => (db, MsgDelivered)
          end
      end
  end.

(** One batch, fetched once; each message with its own surroundings. *)
Fixpoint process_all (cfg : EntitlementSyncConfig) (env : nat -> SyncEnv) (others : nat -> BenefitDB -> BenefitDB)
    (i : nat) (msgs : list OutboxMessage) (db : BenefitDB) : BenefitDB :=
  match msgs with
  | [] => db
  | m :: msgs => process_all cfg env others (S i) msgs (processMessage cfg (env i) (others i) m db).1
  end.

Definition RunPass (cfg : EntitlementSyncConfig) (env : nat -> SyncEnv) (others : nat -> BenefitDB -> BenefitDB)
    (db : BenefitDB) : BenefitDB :=
  let cfg := withDefaults cfg in
  process_all cfg env others 0 (fetchPendingOutbox TopicEntitlementSync (cf_BatchLimit cfg) (se_now (env 0%nat)) db) db.

Definition SyncUserProduct (env : SyncEnv) (others : BenefitDB -> BenefitDB)
    (userID productCode subscriptionIDHint : string) (db : BenefitDB) : BenefitDB * res Z :=
  match planSync (se_clock env) userID productCode subscriptionIDHint db with
  | Err e => (db, Err e)
  | Ok plans =>
      let '(db, r) := applyPlans env userID plans None (others db) in
      (db, let? _ := r in Ok (Z.of_nat (length plans)))
  end.

(** Whether a gift was granted by this call. *)
Definition IssueMigrationGift (env : SyncEnv) (userID ruleID : string) (modelIDs : list string)
    (policyVersionID : string) (effectiveTo : option instant) (db : BenefitDB) : BenefitDB * res bool :=
  if bool_decide (userID = "") || bool_decide (ruleID = "") then (db, Err (NewError CodeInvalidInput)) else
  let '(account, db) := EnsureBillingAccount (se_accountID env) userID db in
  let now := se_clock env 0%nat in
  match MigrationGift ruleID userID modelIDs policyVersionID now now effectiveTo with
  | Err e => (db, Err e)
  | Ok ent =>
      let '(db, r) := in_tx env (insert_racing (se_entID env 0%nat) (se_now env) (with_account account ent)) db in
      (db, let? lost := r in Ok (negb lost))
  end.

(** ** Pay-as-you-go *)

Definition PAYGEntitlementSourceID (billingAccountID : string) : string := "payg:" +:+ billingAccountID.

(** [EnsurePAYGEntitlementTx]: [locked] is the outcome of locking the account,
    [cfg] the published default (models and policy), rows of other tables. *)
Definition EnsurePAYGEntitlementTx (newID : string) (now : instant) (locked : res unit)
    (cfg : res (list string * string)) (accountID : string) (at_ : instant) (db : BenefitDB)
  : res (Entitlement * BenefitDB) :=
  let? _ := locked in
  let? (models, policy) := cfg in
  let srcID := PAYGEntitlementSourceID accountID in
  match GetLatestEntitlementBySource SourcePAYG srcID db with
  | Ok existing =>
      if bool_decide (e_Status existing = EntitlementActive) then Ok (existing, db)
      else ReviveEntitlementTx (e_ID existing) (mkPatch (e_Revision existing) None None None false) now db
  | Err e =>
      fail_if negb (bool_decide (CodeOf e = CodeNotFound)) with e;
      let? ent := GrantFromPlan (mkPlan SourcePAYG srcID models policy) at_ at_ None in
      insertEntitlementOrReadWinnerTx newID now (with_account accountID ent) db
  end.

(** ** The latest row of a source *)

(** Rows sit under their id; a source has one row per revision. *)
Record ents_ok (db : BenefitDB) : Prop := {
  eo_id : forall id e, bd_ents db !! id = Some e -> e_ID e = id;
  eo_unique : forall id id' e e', bd_ents db !! id = Some e -> bd_ents db !! id' = Some e' ->
    e_SourceType e = e_SourceType e' -> e_SourceID e = e_SourceID e' -> e_Revision e = e_Revision e' -> id = id';
}.

Definition of_source (src : EntitlementSource * string) (e : Entitlement) : Prop :=
  e_SourceType e = src.1 /\ e_SourceID e = src.2.

Lemma same_source_spec t id e : same_source t id e = true <-> of_source (t, id) e.
Proof. unfold same_source, of_source. by rewrite andb_true_iff, !bool_decide_eq_true. Qed.

Definition is_latest (src : EntitlementSource * string) (db : BenefitDB) (o : option Entitlement) : Prop :=
  match o with
  | Some e => (exists id, bd_ents db !! id = Some e) /\ of_source src e /\
      forall id x, bd_ents db !! id = Some x -> of_source src x -> e_Revision x <= e_Revision e
  | None => forall id x, bd_ents db !! id = Some x -> ~ of_source src x
  end.

Lemma newer_irr a : newer a a = false.
Proof. unfold newer. rewrite Z.eqb_refl. apply Z.ltb_irrefl. Qed.

Lemma newer_false a b : newer a b = false <->
  e_Revision a < e_Revision b \/ e_Revision a = e_Revision b /\ e_CreatedAt a <= e_CreatedAt b.
Proof. unfold newer. destruct (Z.eqb_spec (e_Revision a) (e_Revision b)); simpl; rewrite Z.ltb_ge; lia. Qed.

Lemma latest_of_source src db : exists o, found (GetLatestEntitlementBySource src.1 src.2 db) = Ok o /\ is_latest src db o.
Proof.
  unfold GetLatestEntitlementBySource. set (l := rows _ _).
  assert (forall e, e ∈ l <-> of_source src e /\ exists id, bd_ents db !! id = Some e) as Hl.
  { intros e. unfold l, rows. rewrite list_elem_of_In, List.filter_In, <- list_elem_of_In, same_source_spec.
    rewrite list_elem_of_fmap. destruct src. split.
    - intros [([k x] & -> & Hk%elem_of_map_to_list) Hp]. eauto.
    - intros [Hp [k Hk]]. split; [|done]. exists (k, e). by rewrite elem_of_map_to_list. }
  pose proof (stable_sort_order newer) as Hord.
  assert (in_order newer (stable_sort newer l)) as Hso.
  { apply Hord; intros *; rewrite !newer_false; [lia|]. unfold newer.
    destruct (Z.eqb_spec (e_Revision a) (e_Revision b)); simpl; rewrite Z.ltb_lt; lia. }
  destruct (stable_sort newer l) as [|e s] eqn:E.
  - exists None. split; [done|]. intros id x Hx Hs. assert (x ∈ l) as Hin by (apply Hl; eauto).
    rewrite <- (stable_sort_Permutation newer), E in Hin. by apply elem_of_nil in Hin.
  - exists (Some e). split; [done|]. assert (e ∈ l) as [Hs Hid]%Hl by (rewrite <- (stable_sort_Permutation newer), E; set_solver).
    split_and!; [done..|]. intros id x Hx Hsx. assert (x ∈ l) as Hin by (apply Hl; eauto).
    rewrite <- (stable_sort_Permutation newer), E in Hin. apply StronglySorted_inv in Hso as [_ Hso].
    apply elem_of_cons in Hin as [->|Hin]; [lia|]. rewrite Forall_forall in Hso.
    specialize (Hso _ Hin). apply newer_false in Hso. lia.
Qed.

Lemma is_latest_unique src db o o' : ents_ok db -> is_latest src db o -> is_latest src db o' -> o = o'.
Proof.
  intros [_ Hu]. destruct o as [e|], o' as [e'|]; simpl; [|naive_solver..].
  intros ([id Hid] & [S1 S2] & M) ([id' Hid'] & [S1' S2'] & M').
  assert (id = id') as ->; [|congruence]. eapply Hu; [exact Hid|exact Hid'|congruence..|].
  specialize (M _ _ Hid' (conj S1' S2')). specialize (M' _ _ Hid (conj S1 S2)). lia.
Qed.

(** A statement that writes one row of one source. *)
Definition writes_row (row : Entitlement) (db db' : BenefitDB) : Prop :=
  db' = set_ents (<[e_ID row := row]> (bd_ents db)) db /\
  forall id x, bd_ents db !! id = Some x -> id <> e_ID row ->
    e_SourceType x = e_SourceType row -> e_SourceID x = e_SourceID row -> e_Revision x <> e_Revision row.

Lemma source_free_spec row (m : gmap string Entitlement) : source_free (e_ID row) row m = true ->
  forall id x, m !! id = Some x -> id <> e_ID row ->
    e_SourceType x = e_SourceType row -> e_SourceID x = e_SourceID row -> e_Revision x <> e_Revision row.
Proof.
  unfold source_free. intros H id x Hx Hne Ht Hs Hr. rewrite forallb_forall in H.
  specialize (H (id, x)). simpl in H. rewrite <- list_elem_of_In, elem_of_map_to_list in H. specialize (H Hx).
  rewrite bool_decide_eq_false_2 in H by done. simpl in H. unfold same_source in H.
  rewrite !bool_decide_eq_true_2, (proj2 (Z.eqb_eq _ _)) in H by done. done.
Qed.

Lemma insert_entitlement_Ok row db db' : insert_entitlement row db = Ok db' ->
  bd_ents db !! e_ID row = None /\ entitlement_row_ok row = true /\ writes_row row db db'.
Proof.
  unfold insert_entitlement. intros H. apply rbind_Ok in H as ([] & Hc & H). apply rbind_Ok in H as (m & Hm & H).
  apply rbind_Ok in H as ([] & Hu & H). apply rbind_Ok in H as ([] & _ & [= <-]).
  unfold insert_row in Hm. destruct (bd_ents db !! e_ID row) eqn:E; [done|]. injection Hm as <-.
  unfold check, unique in *. destruct (entitlement_row_ok row); [|done]. destruct (source_free _ _ _) eqn:F; [|done].
  split_and!; [done..|]. split; [done|]. by apply source_free_spec.
Qed.

Lemma update_entitlement_Ok row db db' : update_entitlement row db = Ok db' ->
  entitlement_row_ok row = true /\ writes_row row db db'.
Proof.
  unfold update_entitlement. intros H. apply rbind_Ok in H as (r & _ & H). apply rbind_Ok in H as ([] & Hc & H).
  apply rbind_Ok in H as ([] & Hu & H). apply rbind_Ok in H as ([] & _ & [= <-]).
  unfold check, unique in *. destruct (entitlement_row_ok row); [|done]. destruct (source_free _ _ _) eqn:F; [|done].
  split; [done|]. split; [done|]. by apply source_free_spec.
Qed.

Lemma ents_ok_write row db db' : writes_row row db db' -> ents_ok db -> ents_ok db'.
Proof.
  intros [-> Hu] [I U]. split; simpl.
  - intros id e [[<- <-]|[_ ?]]%lookup_insert_Some; eauto.
  - intros id id' e e' [[<- <-]|[Hne He]]%lookup_insert_Some [[<- <-]|[Hne' He']]%lookup_insert_Some Ht Hs Hr; [done| | |eauto].
    + exfalso. by eapply (Hu id' e').
    + exfalso. by eapply (Hu id e).
Qed.

(** The written row becomes the latest of its source when its revision is the
    largest; other sources keep theirs. *)
Lemma latest_write src row db db' o : ents_ok db -> writes_row row db db' -> of_source src row ->
  (forall x, bd_ents db !! e_ID row = Some x -> of_source src x) ->
  is_latest src db o -> (forall e, o = Some e -> e_Revision e < e_Revision row) -> is_latest src db' (Some row).
Proof.
  intros [I U] [-> _] Hs Hsame Ho Hr. simpl. split_and!; [exists (e_ID row); by rewrite lookup_insert_eq|done|].
  intros id x [[<- <-]|[_ Hx]]%lookup_insert_Some Hsx; [lia|].
  destruct o as [e|]; simpl in Ho; [|by destruct (Ho _ _ Hx)].
  destruct Ho as (_ & _ & M). specialize (M _ _ Hx Hsx). specialize (Hr e eq_refl). lia.
Qed.

Lemma latest_write_other src src' row db db' o : writes_row row db db' -> of_source src row ->
  (forall x, bd_ents db !! e_ID row = Some x -> of_source src x) -> src <> src' ->
  is_latest src' db o -> is_latest src' db' o.
Proof.
  intros [-> _] Hs Hsame Hne Ho.
  assert (forall x, of_source src' x -> of_source src x -> False) as Hdis.
  { intros x [H3 H4] [H1 H2]. apply Hne. destruct src, src'. simpl in *. congruence. }
  destruct o as [e|]; simpl in *.
  - destruct Ho as ([id Hid] & Hse & M). split_and!; [|done|].
    + exists id. rewrite lookup_insert_ne; [done|]. intros <-. by apply (Hdis e), Hsame.
    + intros id' x [[<- <-]|[_ Hx]]%lookup_insert_Some Hsx; [by exfalso; apply (Hdis row)|eauto].
  - intros id x [[<- <-]|[_ Hx]]%lookup_insert_Some Hsx; [by apply (Hdis row)|by eapply Ho].
Qed.

(** ** One action settles its source *)

Lemma racing_Some {A} (r : res A) a : racing r = Ok (Some a) -> r = Ok a.
Proof. unfold racing. destruct r as [x|e]; [by intros [= ->]|]. by case_bool_decide. Qed.

Lemma insert_racing_Ok newID now e db db' : insert_racing newID now e db = Ok (Some db') ->
  insert_entitlement (new_row newID now e) db = Ok db'.
Proof.
  unfold insert_racing. assert (forall r : res BenefitDB, racing r = Ok (Some db') -> r = Ok db') as Hr by (intros; by apply racing_Some).
  destruct (InsertEntitlementTx newID now e db) as [[x d]|err] eqn:E.
  - intros H%Hr. simpl in H. injection H as ->. unfold InsertEntitlementTx in E.
    apply rbind_Ok in E as ([] & _ & E). apply rbind_Ok in E as (d1 & E & [= _ ->]). done.
  - destruct err; intros H; try (by apply Hr in H). done.
Qed.

Lemma ReviseEntitlementTx_Ok id patch now db e db' : ReviseEntitlementTx id patch now db = Ok (e, db') ->
  exists cur, bd_ents db !! id = Some cur /\ e_Revision cur = ep_ExpectedRevision patch /\
    e_Status cur = EntitlementActive /\ e = patched patch EntitlementActive now cur /\ update_entitlement e db = Ok db'.
Proof.
  unfold ReviseEntitlementTx. destruct (bd_ents db !! id) as [cur|]; [|done]. destruct (_ && _) eqn:G; [|done].
  apply andb_true_iff in G as [Hr%Z.eqb_eq Hs%bool_decide_eq_true]. intros H.
  apply rbind_Ok in H as (d & H & [= <- <-]). eauto 10.
Qed.

Lemma ReviveEntitlementTx_Ok id patch now db e db' : ReviveEntitlementTx id patch now db = Ok (e, db') ->
  exists cur, bd_ents db !! id = Some cur /\ e_Revision cur = ep_ExpectedRevision patch /\
    e_Status cur <> EntitlementActive /\ e = patched patch EntitlementActive now cur /\ update_entitlement e db = Ok db'.
Proof.
  unfold ReviveEntitlementTx. destruct (bd_ents db !! id) as [cur|]; [|done]. destruct (_ && _) eqn:G; [|done].
  apply andb_true_iff in G as [Hr%Z.eqb_eq Hs]. intros H.
  apply rbind_Ok in H as (d & H & [= <- <-]). exists cur. split_and!; try done. by intros Ha; rewrite Ha in Hs.
Qed.

Lemma RetireEntitlementTx_Ok id rev to now db db' : RetireEntitlementTx id rev to now db = Ok db' ->
  to <> EntitlementActive /\ exists cur, bd_ents db !! id = Some cur /\ e_Revision cur = rev /\
    update_entitlement (patched keep to now cur) db = Ok db'.
Proof.
  unfold RetireEntitlementTx. intros H. destruct to; try done;
    (split; [done|]; destruct (bd_ents db !! id) as [cur|]; [|done]; destruct (_ && _) eqn:G; [|done];
     apply andb_true_iff in G as [Hr%Z.eqb_eq _]; eauto).
Qed.

(** The row after a patch computed for a target needs no further patch. *)
Definition target_ok (t : BenefitTarget) : Prop :=
  bt_PolicyVersionID t <> "" /\ dedupeModels (bt_ModelIDs t) = bt_ModelIDs t.

Lemma equalModelSets_refl a : equalModelSets a a = true.
Proof. by apply equalModelSets_spec. Qed.

Lemma sameEffectiveTo_spec a b : sameEffectiveTo a b = true <-> a = b.
Proof. destruct a, b; simpl; try done. rewrite Z.eqb_eq. split; congruence. Qed.

(** A row that says what the target says. *)
Definition matches (t : BenefitTarget) (e : Entitlement) : Prop :=
  e_PolicyVersionID e = bt_PolicyVersionID t /\ e_ModelIDs e ≡ₚ bt_ModelIDs t /\ e_EffectiveTo e = bt_EffectiveTo t.

Lemma converge_patch_matches cur t patch s now : target_ok t -> converge_patch cur t = Ok patch ->
  matches t (patched patch s now cur) /\ ep_ExpectedRevision patch = e_Revision cur.
Proof.
  intros [_ Hd] H. unfold converge_patch in H.
  assert (default (e_PolicyVersionID cur) (if bool_decide (bt_PolicyVersionID t = e_PolicyVersionID cur) then None
            else Some (bt_PolicyVersionID t)) = bt_PolicyVersionID t /\
          default (e_ModelIDs cur) (if equalModelSets (bt_ModelIDs t) (e_ModelIDs cur) then None
            else Some (dedupeModels (bt_ModelIDs t))) ≡ₚ bt_ModelIDs t) as [Hp Hm].
  { split; [by case_bool_decide|]. destruct (equalModelSets _ _) eqn:E; simpl; [|by rewrite Hd].
    apply equalModelSets_spec in E. by rewrite E. }
  destruct (sameEffectiveTo _ _) eqn:E.
  - injection H as <-. apply sameEffectiveTo_spec in E. unfold matches, patched. simpl. rewrite Hp. done.
  - destruct (bt_EffectiveTo t) as [to|] eqn:Et; [destruct (e_EffectiveFrom cur <? to); [|done]|];
      injection H as <-; unfold matches, patched; simpl; rewrite Hp, Et; done.
Qed.

Lemma converge_patch_matched cur t : matches t cur ->
  converge_patch cur t = Ok (mkPatch (e_Revision cur) None None None false).
Proof.
  intros (Hp & Hm & He). unfold converge_patch. rewrite He, (proj2 (sameEffectiveTo_spec _ _)) by done.
  rewrite bool_decide_eq_true_2 by done. by rewrite (proj2 (equalModelSets_spec _ _)).
Qed.

(** Nothing to do: exactly when the source is as the target wants it. *)
Definition settled (target : option BenefitTarget) (o : option Entitlement) : Prop :=
  match target with
  | Some t => exists e, o = Some e /\ e_Status e = EntitlementActive /\ matches t e
  | None => forall e, o = Some e -> e_Status e <> EntitlementActive
  end.

Lemma Converge_settled target o reason ra now : (forall t, target = Some t -> target_ok t) ->
  Converge o (Some (mkDecision reason target ra)) now = Ok ConvergeNoop <-> settled target o.
Proof.
  intros Ht. unfold Converge. simpl. destruct target as [t|]; simpl.
  - destruct (Ht t eq_refl) as [Hp Hd]. rewrite bool_decide_eq_false_2 by done. destruct o as [e|].
    + split.
      * intros H. apply rbind_Ok in H as (patch & Hc & H). case_bool_decide as Hs; [|done]. simpl in H.
        destruct (empty_patch patch) eqn:Ee; [|done]. exists e. split_and!; try done.
        pose proof (converge_patch_matches _ _ _ EntitlementActive 0 (conj Hp Hd) Hc) as [(M1 & M2 & M3) _].
        unfold empty_patch in Ee. destruct patch as [pr pp pm pe pc]. simpl in *.
        repeat case_bool_decide; try done. destruct pc; [done|]. subst. by split_and!.
      * intros (e' & [= <-] & Hs & Hm). rewrite (converge_patch_matched _ _ Hm). simpl.
        by rewrite bool_decide_eq_true_2.
    + split; [done|]. by intros (e & ? & _).
  - destruct o as [e|]; [|by split]. case_bool_decide as Hs; (split; [intros H|intros H]); try done.
    + exfalso. by apply (H e). + by intros ? [= <-].
Qed.

Definition target_for (d : SyncDecision) (src : EntitlementSource * string) : option BenefitTarget :=
  match sd_Target d with
  | Some t => if bool_decide (bt_SourceType t = src.1) && bool_decide (bt_SourceID t = src.2) then Some t else None
  | None => None
  end.

Lemma target_for_Some d src t : target_for d src = Some t ->
  sd_Target d = Some t /\ bt_SourceType t = src.1 /\ bt_SourceID t = src.2.
Proof.
  unfold target_for. destruct (sd_Target d) as [x|]; [|done]. destruct (_ && _) eqn:E; [|done]. intros [= <-].
  apply andb_true_iff in E as [?%bool_decide_eq_true ?%bool_decide_eq_true]. done.
Qed.

Lemma GrantFromPlan_Ok plan a f to e : GrantFromPlan plan a f to = Ok e ->
  e_SourceType e = pl_SourceType plan /\ e_SourceID e = pl_SourceID plan /\ e_ModelIDs e = dedupeModels (pl_ModelIDs plan) /\
  e_PolicyVersionID e = pl_PolicyVersionID plan /\ e_EffectiveTo e = to /\ e_Revision e = 1 /\ e_Status e = EntitlementActive /\
  e_AnchorAt e <= e_EffectiveFrom e.
Proof.
  unfold GrantFromPlan. intros H. destruct (known_source _); [|done]. do 2 (case_bool_decide; [done|]).
  cbv zeta in H. destruct (f <? _) eqn:Ha; [done|]. apply Z.ltb_ge in Ha.
  destruct (match to with Some _ => _ | None => _ end); [done|]. injection H as <-. done.
Qed.

(** The rows a statement leaves, with everything else as it was. *)
Definition touches (src : EntitlementSource * string) (o : option Entitlement) (db db' : BenefitDB) (row : Entitlement) : Prop :=
  ents_ok db' /\ bd_subs db' = bd_subs db /\ bd_orders db' = bd_orders db /\ is_latest src db' (Some row) /\
  forall src' o', src' <> src -> is_latest src' db o' -> is_latest src' db' o'.

Lemma write_touches src o row db db' : ents_ok db -> writes_row row db db' -> of_source src row ->
  (forall x, bd_ents db !! e_ID row = Some x -> of_source src x) ->
  is_latest src db o -> (forall e, o = Some e -> e_Revision e < e_Revision row) -> touches src o db db' row.
Proof.
  intros I W Hs Hsame Ho Hr. split_and!; [by eapply ents_ok_write|by destruct W as [-> _]|by destruct W as [-> _]| |].
  - by eapply latest_write.
  - intros src' o' Hne. by eapply latest_write_other.
Qed.

(** A patch of the latest row of a source. *)
Lemma patch_touches src e s patch now db db' : ents_ok db -> is_latest src db (Some e) ->
  update_entitlement (patched patch s now e) db = Ok db' -> touches src (Some e) db db' (patched patch s now e).
Proof.
  intros I Ho [_ W]%update_entitlement_Ok. destruct Ho as ([id Hid] & Hs & M).
  apply (write_touches src (Some e)); try done.
  - intros x. simpl. rewrite (eo_id _ I _ _ Hid), Hid. intros [= <-]. done.
  - simpl. split_and!; eauto.
  - intros ? [= <-]. simpl. lia.
Qed.

Lemma plan_touches env acc i d src now db p db' : ents_ok db -> (forall t, sd_Target d = Some t -> target_ok t) ->
  plan_source d src now db = Ok [p] -> apply_plan env acc i p db = Ok (Some db') ->
  exists o row, is_latest src db o /\ touches src o db db' row /\ settled (target_for d src) (Some row).
Proof.
  intros I Ht Hp Ha. destruct (latest_of_source src db) as (o & Hf & Ho). unfold plan_source in Hp. rewrite Hf in Hp.
  simpl in Hp. fold (target_for d src) in Hp. apply rbind_Ok in Hp as (action & Hc & Hp).
  assert (forall t, target_for d src = Some t -> target_ok t) as Ht' by (intros t [? _]%target_for_Some; eauto).
  assert (action <> ConvergeNoop /\ p = mkSourcePlan src.1 src.2 (match o with Some e => e_ID e | None => "" end) action)
    as [Hne ->] by (destruct action; naive_solver).
  exists o. unfold Converge in Hc. simpl in Hc. destruct (target_for d src) as [t|] eqn:Et.
  - destruct (Ht' t eq_refl) as [Hpol Hd]. destruct (target_for_Some _ _ _ Et) as (_ & S1 & S2).
    rewrite bool_decide_eq_false_2 in Hc by done. destruct o as [e|].
    + apply rbind_Ok in Hc as (patch & Hpatch & Hc).
      assert (forall s now', matches t (patched patch s now' e)) as Hm
        by (intros; by eapply converge_patch_matches).
      exists (patched patch EntitlementActive (se_now env) e).
      assert (exists db1, update_entitlement (patched patch EntitlementActive (se_now env) e) db = Ok db1 /\ db1 = db') as (? & Hu & ->).
      { destruct Ho as ([id Hid] & _). case_bool_decide; simpl in Hc; [destruct (empty_patch patch); injection Hc as <-; [done|]|injection Hc as <-];
          unfold apply_plan in Ha; simpl in Ha; apply racing_Some, rbind_Ok in Ha as ([e' d1] & Ha & [= ->]).
        - apply ReviseEntitlementTx_Ok in Ha as (cur & Hcur & _ & _ & -> & Hu).
          rewrite (eo_id _ I _ _ Hid), Hid in Hcur. injection Hcur as <-. eauto.
        - apply ReviveEntitlementTx_Ok in Ha as (cur & Hcur & _ & _ & -> & Hu).
          rewrite (eo_id _ I _ _ Hid), Hid in Hcur. injection Hcur as <-. eauto. }
      split_and!; [done|by apply patch_touches|]. simpl. eauto.
    + injection Hc as <-. unfold apply_plan in Ha. simpl in Ha. apply rbind_Ok in Ha as (ent & Hg & Ha).
      apply GrantFromPlan_Ok in Hg as (G1 & G2 & G3 & G4 & G5 & G6 & G7 & _). simpl in *.
      apply insert_racing_Ok, insert_entitlement_Ok in Ha as (Hnew & _ & W).
      exists (new_row (se_entID env i) (se_now env) (with_account acc ent)). split_and!; [done| |].
      * apply (write_touches src None); try done.
        -- split; simpl; congruence.
        -- intros x Hx. simpl in Hnew, Hx. congruence.
      * eexists. split; [done|]. unfold matches. simpl. rewrite G7. split; [by rewrite bool_decide_eq_false_2|].
        rewrite G3, G4, G5, Hd. done.
  - destruct o as [e|]; [|by injection Hc as <-]. case_bool_decide as Hs; [|by injection Hc as <-].
    injection Hc as <-. unfold apply_plan in Ha. simpl in Ha.
    apply racing_Some, RetireEntitlementTx_Ok in Ha as (Hto & cur & Hcur & _ & Hu).
    assert (cur = e) as ->.
    { destruct Ho as ([id Hid] & _). rewrite (eo_id _ I _ _ Hid), Hid in Hcur. congruence. }
    eexists. split_and!; [done|by apply patch_touches|]. intros x [= <-]. done.
Qed.

Lemma plan_source_cases d src now db ps : plan_source d src now db = Ok ps -> ps = [] \/ exists p, ps = [p].
Proof.
  unfold plan_source. intros H. apply rbind_Ok in H as (o & _ & H). apply rbind_Ok in H as (a & _ & H).
  destruct a; injection H as <-; eauto.
Qed.

Lemma plan_source_nil d src now db : ents_ok db -> (forall t, sd_Target d = Some t -> target_ok t) ->
  plan_source d src now db = Ok [] <-> exists o, is_latest src db o /\ settled (target_for d src) o.
Proof.
  intros I Ht. destruct (latest_of_source src db) as (o & Hf & Ho). unfold plan_source. rewrite Hf. cbn [rbind].
  fold (target_for d src).
  assert (forall t, target_for d src = Some t -> target_ok t) as Ht' by (intros t [? _]%target_for_Some; eauto).
  pose proof (Converge_settled _ o (sd_Reason d) (sd_RetireAs d) now Ht') as [Hn Hs]. split.
  - intros H. apply rbind_Ok in H as (a & Ha & H). exists o. split; [done|]. apply Hn. by destruct a.
  - intros (o' & Ho' & H). assert (o' = o) as -> by by eapply is_latest_unique. by rewrite (Hs H).
Qed.

Lemma plan_source_stable d src now db db' o : ents_ok db -> ents_ok db' -> is_latest src db o -> is_latest src db' o ->
  plan_source d src now db' = plan_source d src now db.
Proof.
  intros I I' H H'. destruct (latest_of_source src db) as (o1 & F1 & L1), (latest_of_source src db') as (o2 & F2 & L2).
  assert (o1 = o) as -> by by eapply (is_latest_unique src db).
  assert (o2 = o) as -> by by eapply (is_latest_unique src db').
  unfold plan_source. by rewrite F1, F2.
Qed.

(** A source is where the decision wants it. *)
Definition source_settled (d : SyncDecision) (db : BenefitDB) (src : EntitlementSource * string) : Prop :=
  exists o, is_latest src db o /\ settled (target_for d src) o.

(** What the entitlement writes of one transaction leave alone. *)
Definition same_payments (db db' : BenefitDB) : Prop := bd_subs db' = bd_subs db /\ bd_orders db' = bd_orders db.

(** Applying what was planned for one source: it is settled, other sources
    keep their rows. *)
Lemma apply_source env acc i d src now db ps rest db' : ents_ok db -> (forall t, sd_Target d = Some t -> target_ok t) ->
  plan_source d src now db = Ok ps -> apply_each env acc i (ps ++ rest) db = Ok (Some db') ->
  exists db1 j, apply_each env acc j rest db1 = Ok (Some db') /\ ents_ok db1 /\ same_payments db db1 /\
    source_settled d db1 src /\ forall src' o, src' <> src -> is_latest src' db o -> is_latest src' db1 o.
Proof.
  intros I Ht Hp Ha. destruct (plan_source_cases _ _ _ _ _ Hp) as [->|[p ->]]; simpl in Ha.
  - exists db, i. split_and!; try done. by apply (plan_source_nil d src now).
  - apply rbind_Ok in Ha as ([db1|] & Hp1 & Ha); [|done].
    destruct (plan_touches _ _ _ _ _ _ _ _ _ I Ht Hp Hp1) as (o & row & _ & (I1 & E1 & E2 & L & Ho) & Hs).
    exists db1, (S i). split_and!; [done..|by exists (Some row)|done].
Qed.

(** ** The decision *)

(** What the payment state of the pair demands at an instant. *)
Definition demand (userID productCode : string) (t : instant) (db : BenefitDB)
  : res (option SubscriptionState * SyncDecision) :=
  let? sub := found (GetSyncSubscription userID productCode db) in
  let? paidOrder := match sub with
                    | Some s => if bool_decide (ss_Status s = "active")
                                then found (GetLatestPaidBenefitOrder userID (ss_PlanID s) db) else Ok None
                    | None => Ok None end in
  let? decision := DecideSync sub paidOrder t in
  Ok (sub, decision).

(** The two sources a subscription can grant through. *)
Definition candidates (subID : string) : list (EntitlementSource * string) :=
  [(SourceSubscription, subID); (SourceGrant, BundleGiftSourceID subID)].

Definition subject (sub : option SubscriptionState) (hint : string) : string :=
  match sub with Some s => ss_ID s | None => hint end.

Lemma planSync_demand clock userID productCode hint db : planSync clock userID productCode hint db =
  fail_if bool_decide (userID = "") || bool_decide (productCode = "") with NewError CodeInvalidInput;
  let? (sub, d) := demand userID productCode (clock 0%nat) db in
  if bool_decide (subject sub hint = "") then Ok [] else
  let? p1 := plan_source d (SourceSubscription, subject sub hint) (clock 1%nat) db in
  let? p2 := plan_source d (SourceGrant, BundleGiftSourceID (subject sub hint)) (clock 2%nat) db in
  Ok (p1 ++ p2).
Proof.
  unfold planSync, demand. destruct (_ || _); [done|]. destruct (found _) as [sub|]; [|done]. simpl.
  destruct (match sub with Some s => _ | None => _ end) as [o|]; [|done]. simpl. by destruct (DecideSync _ _ _).
Qed.

Lemma DecideSync_target sub o now d t : DecideSync sub o now = Ok d -> sd_Target d = Some t -> target_ok t.
Proof.
  unfold DecideSync, target_ok. destruct sub as [s|]; [|by intros [= <-]].
  destruct (negb _); [by intros [= <-]|]. destruct (match ss_ExpiresAt s with Some _ => _ | None => _ end); [by intros [= <-]|].
  destruct o as [o|]; [|by intros [= <-]]. case_bool_decide as Hp; [done|]. cbv zeta.
  case_bool_decide; [|case_bool_decide; [|done]]; intros [= <-] [= <-]; simpl; by rewrite dedupeModels_idem.
Qed.

Lemma demand_target userID productCode now db sub d t : demand userID productCode now db = Ok (sub, d) ->
  sd_Target d = Some t -> target_ok t.
Proof.
  unfold demand. intros H. apply rbind_Ok in H as (s & _ & H). apply rbind_Ok in H as (o & _ & H).
  apply rbind_Ok in H as (d' & H & [= <- <-]). by eapply DecideSync_target.
Qed.

Lemma demand_payments userID productCode now db db' : same_payments db db' ->
  demand userID productCode now db' = demand userID productCode now db.
Proof. intros [E1 E2]. unfold demand, GetSyncSubscription, GetLatestPaidBenefitOrder. by rewrite E1, E2. Qed.

(** ** Transactions leave what they do not write *)

Lemma deliver_ents o db : bd_ents (deliver o db) = bd_ents db /\ same_payments db (deliver o db).
Proof. by destruct o. Qed.

Lemma EnsureBillingAccount_ents id userID db :
  bd_ents (EnsureBillingAccount id userID db).2 = bd_ents db /\ same_payments db (EnsureBillingAccount id userID db).2.
Proof. unfold EnsureBillingAccount. by destruct (bd_accounts db !! userID). Qed.

Lemma same_payments_trans a b c : same_payments a b -> same_payments b c -> same_payments a c.
Proof. intros [H1 H2] [H3 H4]. split; congruence. Qed.

Lemma in_tx_won env body db db' : in_tx env body db = (db', Ok false) -> body db = Ok (Some db').
Proof.
  unfold in_tx. destruct (se_begin env); [done|]. destruct (body db) as [[d|]|e]; [|done..].
  destruct (se_commit env); [|by destruct persisted]. by intros [= ->].
Qed.

Lemma ents_ok_ents db db' : bd_ents db' = bd_ents db -> ents_ok db -> ents_ok db'.
Proof. intros E [? ?]. by split; rewrite E. Qed.

Lemma is_latest_ents src o db db' : bd_ents db' = bd_ents db -> is_latest src db o -> is_latest src db' o.
Proof. unfold is_latest. by intros ->. Qed.

Lemma applyPlans_won env userID plans outboxID db db' : applyPlans env userID plans outboxID db = (db', Ok false) ->
  exists acc db0 db1, apply_each env acc 0 plans db0 = Ok (Some db1) /\
    bd_ents db0 = bd_ents db /\ same_payments db db0 /\ bd_ents db' = bd_ents db1 /\ same_payments db1 db'.
Proof.
  unfold applyPlans. destruct plans as [|p ps].
  - exists "", db, db. destruct outboxID as [id|].
    + apply in_tx_won in H as [= <-]. done.
    + by injection H as <-.
  - destruct (if existsb is_insert (p :: ps) then _ else _) as [acc db0] eqn:E. intros H%in_tx_won.
    apply rbind_Ok in H as ([db1|] & H & [= <-]). exists acc, db0, db1.
    assert (bd_ents db0 = bd_ents db /\ same_payments db db0) as [? ?].
    { destruct (existsb is_insert (p :: ps)); [|by injection E as _ <-].
      pose proof (EnsureBillingAccount_ents (se_accountID env) userID db) as Ha. by rewrite E in Ha. }
    destruct (deliver_ents outboxID db1). done.
Qed.

Lemma sources_differ id : (SourceGrant, BundleGiftSourceID id) <> (SourceSubscription, id).
Proof. done. Qed.

Lemma source_settled_keep d src db db' : (forall o, is_latest src db o -> is_latest src db' o) ->
  source_settled d db src -> source_settled d db' src.
Proof. intros H (o & ? & ?). exists o. auto. Qed.

(** No other transaction rewrote the entitlements of the subscription. *)
Definition sources_kept (subID : string) (db dbm : BenefitDB) : Prop :=
  forall src o, src ∈ candidates subID -> is_latest src db o -> is_latest src dbm o.

(** Plans read at [db] and applied, unraced, at [dbm]. *)
Lemma apply_converges env clock userID productCode hint outboxID db dbm plans db' sub d :
  ents_ok db -> ents_ok dbm -> sources_kept (subject sub hint) db dbm ->
  planSync clock userID productCode hint db = Ok plans -> demand userID productCode (clock 0%nat) db = Ok (sub, d) ->
  applyPlans env userID plans outboxID dbm = (db', Ok false) ->
  same_payments dbm db' /\
  (subject sub hint <> "" -> ents_ok db' /\ Forall (source_settled d db') (candidates (subject sub hint))).
Proof.
  intros I Im Hkeep Hp Hd Ha. rewrite planSync_demand in Hp.
  destruct (bool_decide (userID = "") || bool_decide (productCode = "")); [done|]. rewrite Hd in Hp. simpl in Hp.
  apply applyPlans_won in Ha as (acc & db0 & db1 & Ha & E0 & S0 & E1 & S1).
  set (id := subject sub hint) in *. assert (forall t, sd_Target d = Some t -> target_ok t) as Ht by (intros; by eapply demand_target).
  destruct (decide (id = "")) as [Hid|Hid].
  { rewrite bool_decide_eq_true_2 in Hp by done. injection Hp as <-. injection Ha as <-. split; [|done]. by eapply same_payments_trans. }
  rewrite bool_decide_eq_false_2 in Hp by done.
  apply rbind_Ok in Hp as (p1 & P1 & Hp). apply rbind_Ok in Hp as (p2 & P2 & [= <-]).
  assert (ents_ok db0) as I0 by by eapply ents_ok_ents.
  destruct (latest_of_source (SourceSubscription, id) db) as (o1 & _ & L1).
  destruct (latest_of_source (SourceGrant, BundleGiftSourceID id) db) as (o2 & _ & L2).
  assert (is_latest (SourceSubscription, id) db0 o1) as M1 by (eapply is_latest_ents; [exact E0|apply Hkeep; [by left|done]]).
  assert (is_latest (SourceGrant, BundleGiftSourceID id) db0 o2) as M2 by (eapply is_latest_ents; [exact E0|apply Hkeep; [right; by left|done]]).
  rewrite <- (plan_source_stable _ _ _ db db0 o1) in P1 by done.
  destruct (apply_source _ _ _ _ _ _ _ _ _ _ I0 Ht P1 Ha) as (dba & j & Hb & Ia & Ya & Sa & Ka).
  assert (is_latest (SourceGrant, BundleGiftSourceID id) dba o2) as L2' by by apply Ka.
  rewrite <- (plan_source_stable _ _ _ db dba o2) in P2 by done. rewrite <- (app_nil_r p2) in Hb.
  destruct (apply_source _ _ _ _ _ _ _ _ _ _ Ia Ht P2 Hb) as (dbb & j' & [= ->] & Ib & Yb & Sb & Kb).
  split; [by eauto using same_payments_trans|]. intros _. split; [by eapply ents_ok_ents|]. repeat constructor.
  - apply (source_settled_keep _ _ dba); [|done]. intros o Ho. eapply is_latest_ents; [done|]. by apply Kb.
  - apply (source_settled_keep _ _ db1); [|done]. intros o Ho. by eapply is_latest_ents.
Qed.

(** C13: SYNCHRONISATION CONVERGES. A message that is delivered, whatever else
    commits between its plan and its transaction except a rewrite of the same
    entitlements: both entitlement sources of the subscription are then exactly
    as the payment state demanded when the plan was read (the demanded source
    has an active latest row with the order's policy, the order's models and the
    subscription's end; the other candidate has no active latest row). If no
    payment or subscription changed in between, that is what the payment state
    demands at the commit; a change in between, such as a refund, is not seen
    and is left to the message it enqueued. Any synchronisation that reads the
    same demand, at any later clock, plans nothing: the state is a fixed
    point. *)
Theorem sync_converges cfg env others msg m db db' :
  ents_ok db -> ents_ok (others db) -> ob_Payload msg = Some m ->
  processMessage cfg env others msg db = (db', MsgDelivered) ->
  (forall sub d, demand (sm_UserID m) (sm_ProductCode m) (se_clock env 0%nat) db = Ok (sub, d) ->
     sources_kept (subject sub (sm_SubscriptionID m)) db (others db)) ->
  exists sub d, demand (sm_UserID m) (sm_ProductCode m) (se_clock env 0%nat) db = Ok (sub, d) /\
    (subject sub (sm_SubscriptionID m) <> "" -> Forall (source_settled d db') (candidates (subject sub (sm_SubscriptionID m)))) /\
    (same_payments db (others db) -> demand (sm_UserID m) (sm_ProductCode m) (se_clock env 0%nat) db' = Ok (sub, d)) /\
    forall clock', demand (sm_UserID m) (sm_ProductCode m) (clock' 0%nat) db' = Ok (sub, d) ->
      planSync clock' (sm_UserID m) (sm_ProductCode m) (sm_SubscriptionID m) db' = Ok [].
Proof.
  unfold processMessage. intros I Im -> H Hkeep. destruct (planSync _ _ _ _ db) as [plans|] eqn:Hp; [|done].
  destruct (applyPlans _ _ _ _ _) as [dbx r] eqn:Ha. destruct r as [[]|]; [done| |done]. injection H as ->.
  pose proof Hp as Hp'. rewrite planSync_demand in Hp'.
  destruct (bool_decide (sm_UserID m = "") || bool_decide (sm_ProductCode m = "")) eqn:Hin; [done|].
  apply rbind_Ok in Hp' as ([sub d] & Hd & _). exists sub, d. split; [done|].
  edestruct apply_converges as [Hpay Hs]; [exact I|exact Im|exact (Hkeep _ _ Hd)|exact Hp|exact Hd|exact Ha|].
  split; [by intros [_ ?]%Hs|]. split.
  { intros Hq. rewrite <- Hd. apply demand_payments. by eapply same_payments_trans. }
  intros clock' Hd'. rewrite planSync_demand, Hin, Hd'. clear Hin. simpl.
  case_bool_decide as Hid; [done|]. destruct (Hs Hid) as [I' Hf].
  assert (forall t, sd_Target d = Some t -> target_ok t) as Ht by (intros; by eapply demand_target).
  unfold candidates in Hf. rewrite Forall_cons, Forall_singleton in Hf. destruct Hf as [F1 F2].
  by rewrite (proj2 (plan_source_nil d (SourceSubscription, _) (clock' 1%nat) db' I' Ht) F1),
    (proj2 (plan_source_nil d (SourceGrant, BundleGiftSourceID _) (clock' 2%nat) db' I' Ht) F2).
Qed.

Module BenefitSyncDemo.

Definition clock (n : nat) : instant := 1000 + Z.of_nat n.
Definition env := mkSyncEnv clock "acct-1" (fun n => match n with O => "ent-1" | _ => "ent-2" end) 1000 None Committed true.

Definition sync_message : EntitlementSyncMessage := mkSyncMessage "u1" "coding-plan" "paid" "o1" "pay1" "" "s1".
Definition message : OutboxMessage :=
  mkOutbox 1 TopicEntitlementSync (Some sync_message) (Some (PaidSyncDedupKey "pay1")) OutboxPending 0 None.

Definition payment : BenefitDB :=
  mkBenefitDB ∅ {[ "p1" := PolicyPublished ]} ∅ [message]
    [(mkSub "s1" "u1" "plan-m" "coding-plan" "active" (Some 9000), 900)]
    [mkOrder (Some (mkSnapshot "o1" "p1" ["m1"; "m2"; "m1"] BenefitGrantModeGift)) "u1" "plan-m" "paid" 950 940].

Definition plans : list sourcePlan :=
  match planSync clock "u1" "coding-plan" "" payment with Ok p => p | Err _ => [] end.

Definition synced : BenefitDB := (applyPlans env "u1" plans (Some 1) payment).1.

End BenefitSyncDemo.

Lemma ents_ok_empty db : bd_ents db = ∅ -> ents_ok db.
Proof. intros E. split; rewrite E; [intros id e H|intros id id' e e' H]; by rewrite lookup_empty in H. Qed.

(** A paid gift order: one grant is planned and applied, and a later pass has
    nothing left to do. *)
Lemma sync_converges_witness :
  length BenefitSyncDemo.plans = 1%nat /\ map_size (bd_ents BenefitSyncDemo.synced) = 1%nat /\
  planSync (fun _ => 5000) "u1" "coding-plan" "s1" BenefitSyncDemo.synced = Ok [].
Proof.
  split; [by vm_compute|]. split; [by vm_compute|].
  destruct (sync_converges (mkSyncConfig 100 minute) BenefitSyncDemo.env (fun d => d) BenefitSyncDemo.message BenefitSyncDemo.sync_message
    BenefitSyncDemo.payment BenefitSyncDemo.synced) as (sub & d & Hd & _ & _ & H).
  - by apply ents_ok_empty.
  - by apply ents_ok_empty.
  - reflexivity.
  - by vm_compute.
  - intros sub d _ src o _ Ho. exact Ho.
  - apply H. rewrite <- Hd. by vm_compute.
Defined.
