(* ===== verification/EntitlementHistory.v ===== *)
(** * EntitlementHistory: what every interleaving of entitlement writes keeps

    A step relation over the transactions that write [inference_entitlements]
    ([postgres/entitlement_repo.go], the pay-as-you-go upsert of
    [wallet_repo.go] and the worker of [workers/entitlement_sync.go], whose
    reads may be arbitrarily stale), the invariant of its runs, and what a
    repeated migration gift does. *)

From Stdlib Require Import ZArith Lia Bool.
From stdpp Require Import base gmap strings list relations.
From S2P Require Import Prelude Domain Money Calendar WalletRules Principal Entitlements Tables.
From S2P Require Import EntitlementStore BenefitRules BenefitSync.

Local Open Scope Z_scope.
Local Open Scope go_scope.

(** One statement or transaction against the tables. The synchroniser's
    planning only reads, so its transaction may carry any plans. *)
Inductive ent_step (db : BenefitDB) : BenefitDB -> Prop :=
| step_grant newID now e r db' : InsertEntitlementTx newID now e db = Ok (r, db') -> ent_step db db'
| step_grant_or_read newID now e r db' : insertEntitlementOrReadWinnerTx newID now e db = Ok (r, db') -> ent_step db db'
| step_revise id patch now r db' : ReviseEntitlement id patch now db = Ok (r, db') -> ent_step db db'
| step_revive id patch now r db' : ReviveEntitlementTx id patch now db = Ok (r, db') -> ent_step db db'
| step_retire id rev to now db' : RetireEntitlementTx id rev to now db = Ok db' -> ent_step db db'
| step_expire now n db' : MarkExpiredEntitlements now db = Ok (n, db') -> ent_step db db'
| step_payg newID now locked cfg account at_ r db' :
    EnsurePAYGEntitlementTx newID now locked cfg account at_ db = Ok (r, db') -> ent_step db db'
| step_sync env userID plans outboxID : ent_step db (applyPlans env userID plans outboxID db).1
| step_gift env userID ruleID models policy to : ent_step db (IssueMigrationGift env userID ruleID models policy to db).1
| step_account id userID : ent_step db (EnsureBillingAccount id userID db).2
| step_outbox topic payload key : ent_step db (EnqueueOutbox topic payload key db).2
| step_failed id at_ : ent_step db (MarkOutboxFailed id at_ db).

(** What identifies a grant and never changes once written. *)
Definition same_grant (e e' : Entitlement) : Prop :=
  e_ID e' = e_ID e /\ e_BillingAccountID e' = e_BillingAccountID e /\
  e_SourceType e' = e_SourceType e /\ e_SourceID e' = e_SourceID e /\
  e_AnchorAt e' = e_AnchorAt e /\ e_EffectiveFrom e' = e_EffectiveFrom e /\
  e_Stackable e' = e_Stackable e /\ e_CreatedAt e' = e_CreatedAt e.

(** The later version of a row: the same grant, and a higher revision unless
    it is the very same row. *)
Definition later_row (e e' : Entitlement) : Prop :=
  same_grant e e' /\ (e' = e \/ e_Revision e < e_Revision e').

Definition grows (db db' : BenefitDB) : Prop :=
  ents_ok db' /\
  (forall id e, bd_ents db !! id = Some e -> exists e', bd_ents db' !! id = Some e' /\ later_row e e') /\
  (forall user acc, bd_accounts db !! user = Some acc -> bd_accounts db' !! user = Some acc).

Lemma later_row_refl e : later_row e e.
Proof. split; [done|by left]. Qed.

Lemma later_row_trans e1 e2 e3 : later_row e1 e2 -> later_row e2 e3 -> later_row e1 e3.
Proof.
  intros [S1 [->|R1]] [S2 [->|R2]]; (split; [unfold same_grant in *; intuition congruence|]); auto.
  right. lia.
Qed.

Lemma grows_refl db : ents_ok db -> grows db db.
Proof. intros I. split_and!; [done| |done]. intros id e He. exists e. split; [done|apply later_row_refl]. Qed.

Lemma grows_trans a b c : grows a b -> grows b c -> grows a c.
Proof.
  intros (_ & R1 & A1) (I & R2 & A2). split_and!; [done| |auto].
  intros id e He. destruct (R1 _ _ He) as (e' & He' & L1). destruct (R2 _ _ He') as (e'' & He'' & L2).
  exists e''. split; [done|by eapply later_row_trans].
Qed.

Lemma grows_ents db db' : bd_ents db' = bd_ents db ->
  (forall user acc, bd_accounts db !! user = Some acc -> bd_accounts db' !! user = Some acc) ->
  ents_ok db -> grows db db'.
Proof.
  intros E A I. split_and!; [by eapply ents_ok_ents| |done].
  intros id e He. exists e. rewrite E. split; [done|apply later_row_refl].
Qed.

Lemma later_patched patch s now e : later_row e (patched patch s now e).
Proof. split; [by split_and!|right; simpl; lia]. Qed.

(** One written row: new, or a later version of the row under its id. *)
Lemma grows_write row db db' : ents_ok db -> writes_row row db db' ->
  (forall e, bd_ents db !! e_ID row = Some e -> later_row e row) -> grows db db'.
Proof.
  intros I W Hl. split_and!; [by eapply ents_ok_write| |by destruct W as [-> _]]. destruct W as [-> _]. simpl.
  intros id e He. destruct (decide (e_ID row = id)) as [<-|Hne].
  - exists row. rewrite lookup_insert_eq. auto.
  - exists e. rewrite lookup_insert_ne by done. split; [done|apply later_row_refl].
Qed.

Lemma grows_insert row db db' : ents_ok db -> insert_entitlement row db = Ok db' -> grows db db'.
Proof.
  intros I (Hnew & _ & W)%insert_entitlement_Ok. apply (grows_write row); [done..|]. intros e He. simpl in *. congruence.
Qed.

Lemma grows_patch e patch s now db db' : ents_ok db -> bd_ents db !! e_ID e = Some e ->
  update_entitlement (patched patch s now e) db = Ok db' -> grows db db'.
Proof.
  intros I He [_ W]%update_entitlement_Ok. apply (grows_write (patched patch s now e)); [done..|].
  simpl. rewrite He. intros ? [= <-]. apply later_patched.
Qed.

Lemma ents_id db id e : ents_ok db -> bd_ents db !! id = Some e -> bd_ents db !! e_ID e = Some e.
Proof. intros I H. by rewrite (eo_id _ I _ _ H). Qed.

(** ** Each transaction grows the table *)

Lemma grant_grows newID now e r db db' : ents_ok db -> InsertEntitlementTx newID now e db = Ok (r, db') -> grows db db'.
Proof.
  intros I H. apply rbind_Ok in H as ([] & _ & H). apply rbind_Ok in H as (d & H & [= _ <-]). by eapply grows_insert.
Qed.

Lemma grant_or_read_grows newID now e r db db' : ents_ok db ->
  insertEntitlementOrReadWinnerTx newID now e db = Ok (r, db') -> grows db db'.
Proof.
  intros I. unfold insertEntitlementOrReadWinnerTx. destruct (rows _ _); [|intros [= _ <-]; by apply grows_refl].
  intros H. apply rbind_Ok in H as ([] & _ & H). apply rbind_Ok in H as (d & H & [= _ <-]). by eapply grows_insert.
Qed.

Lemma revise_grows id patch now r db db' : ents_ok db -> ReviseEntitlementTx id patch now db = Ok (r, db') -> grows db db'.
Proof.
  intros I (cur & Hc & _ & _ & -> & H)%ReviseEntitlementTx_Ok. eapply grows_patch; [done| |done]. by eapply ents_id.
Qed.

Lemma revive_grows id patch now r db db' : ents_ok db -> ReviveEntitlementTx id patch now db = Ok (r, db') -> grows db db'.
Proof.
  intros I (cur & Hc & _ & _ & -> & H)%ReviveEntitlementTx_Ok. eapply grows_patch; [done| |done]. by eapply ents_id.
Qed.

Lemma retire_grows id rev to now db db' : ents_ok db -> RetireEntitlementTx id rev to now db = Ok db' -> grows db db'.
Proof.
  intros I (_ & cur & Hc & _ & H)%RetireEntitlementTx_Ok. eapply grows_patch; [done| |done]. by eapply ents_id.
Qed.

(** The expiry statement rewrites each selected row once. *)
Lemma expire_each now hit db db' : ents_ok db -> NoDup (e_ID <$> hit) ->
  (forall e, e ∈ hit -> bd_ents db !! e_ID e = Some e) ->
  rfold (fun db e => update_entitlement (patched keep EntitlementExpired now e) db) db hit = Ok db' -> grows db db'.
Proof.
  revert db. induction hit as [|e hit IH]; intros db I Hnd Hin H; simpl in H.
  - injection H as <-. by apply grows_refl.
  - apply rbind_Ok in H as (d & H1 & H). apply NoDup_cons in Hnd as [Hni Hnd].
    assert (grows db d) as G by (eapply grows_patch; [done|apply Hin; by left|done]).
    apply (grows_trans _ d); [done|]. apply IH; [apply G|done| |done].
    intros x Hx. apply update_entitlement_Ok in H1 as [_ [-> _]]. simpl. rewrite lookup_insert_ne; [apply Hin; by right|].
    intros E. apply Hni. rewrite E. by apply list_elem_of_fmap_2.
Qed.

Lemma entitlement_rows (m : gmap string Entitlement) p : (forall id e, m !! id = Some e -> e_ID e = id) ->
  NoDup (e_ID <$> rows m p) /\ forall e, e ∈ rows m p -> m !! e_ID e = Some e /\ p e = true.
Proof.
  intros Hid. unfold rows. pose proof (NoDup_fst_map_to_list m) as Hnd.
  assert (forall x, x ∈ map_to_list m -> m !! e_ID x.2 = Some x.2 /\ e_ID x.2 = x.1) as Hl.
  { intros [id e] He%elem_of_map_to_list. simpl. by rewrite (Hid _ _ He). }
  induction (map_to_list m) as [|[id e] l IH]; simpl in *; [split; [constructor|set_solver]|].
  apply NoDup_cons in Hnd as [Hni Hnd].
  destruct IH as [IH1 IH2]; [done|intros; apply Hl; set_solver|]. destruct (p e) eqn:Ep; [|done].
  rewrite fmap_cons. split.
  - constructor; [|done]. intros (x & Ex & Hx)%list_elem_of_fmap. apply Hni.
    apply list_elem_of_In, List.filter_In in Hx as [Hx%list_elem_of_In _].
    apply list_elem_of_fmap in Hx as ([k y] & -> & Hy). simpl in *. apply list_elem_of_fmap. exists (k, y).
    destruct (Hl (id, e)) as [_ E1]; [set_solver|]. destruct (Hl (k, y)) as [_ E2]; [set_solver|]. simpl in *.
    split; [congruence|done].
  - intros x [->|Hx]%elem_of_cons; [|by apply IH2]. split; [|done]. destruct (Hl (id, e)) as [? _]; [set_solver|done].
Qed.

Lemma expire_grows now n db db' : ents_ok db -> MarkExpiredEntitlements now db = Ok (n, db') -> grows db db'.
Proof.
  intros I H. apply rbind_Ok in H as (d & H & [= _ <-]).
  destruct (entitlement_rows (bd_ents db) (lapsed now) (eo_id _ I)) as [Hnd Hin].
  eapply expire_each; [done..| |done]. intros e He. by apply Hin.
Qed.

Lemma payg_grows newID now locked cfg account at_ r db db' : ents_ok db ->
  EnsurePAYGEntitlementTx newID now locked cfg account at_ db = Ok (r, db') -> grows db db'.
Proof.
  intros I H. apply rbind_Ok in H as ([] & _ & H). apply rbind_Ok in H as ([ms p] & _ & H). cbv zeta in H.
  destruct (GetLatestEntitlementBySource _ _ db) as [x|er].
  - case_bool_decide; [injection H as _ <-; by apply grows_refl|]. by eapply revive_grows.
  - destruct (negb _); [done|]. apply rbind_Ok in H as (g & _ & H). by eapply grant_or_read_grows.
Qed.

Lemma plan_grows env acc i p db db' : ents_ok db -> apply_plan env acc i p db = Ok (Some db') -> grows db db'.
Proof.
  intros I. unfold apply_plan. destruct (sp_action p) as [|plan a f t|patch|patch|rev to].
  - intros [= <-]. by apply grows_refl.
  - intros H. apply rbind_Ok in H as (g & _ & H%insert_racing_Ok). by eapply grows_insert.
  - intros ([e d] & H & [= <-])%racing_Some%rbind_Ok. by eapply revise_grows.
  - intros ([e d] & H & [= <-])%racing_Some%rbind_Ok. by eapply revive_grows.
  - intros H%racing_Some. by eapply retire_grows.
Qed.

Lemma each_grows env acc plans : forall i db db', ents_ok db -> apply_each env acc i plans db = Ok (Some db') -> grows db db'.
Proof.
  induction plans as [|p ps IH]; intros i db db' I H; simpl in H; [injection H as <-; by apply grows_refl|].
  apply rbind_Ok in H as ([d|] & H1 & H); [|done]. apply plan_grows in H1; [|done].
  apply (grows_trans _ d); [done|]. eapply IH; [apply H1|done].
Qed.

(** A transaction keeps its body's result or nothing. *)
Lemma in_tx_grows env body db : ents_ok db -> (forall db', body db = Ok (Some db') -> grows db db') ->
  grows db (in_tx env body db).1.
Proof.
  intros I H. unfold in_tx. destruct (se_begin env); [by apply grows_refl|].
  destruct (body db) as [[d|]|e]; [|by apply grows_refl..].
  destruct (se_commit env) as [|e []]; simpl; auto using grows_refl.
Qed.

Lemma account_grows id userID db : ents_ok db -> grows db (EnsureBillingAccount id userID db).2.
Proof.
  intros I. unfold EnsureBillingAccount. destruct (bd_accounts db !! userID) eqn:E; [by apply grows_refl|].
  apply grows_ents; [done| |done]. intros user acc H. simpl.
  rewrite lookup_insert_ne; [done|]. intros ->. congruence.
Qed.

Lemma deliver_grows o db db' : grows db db' -> grows db (deliver o db').
Proof.
  intros G. apply (grows_trans _ db'); [done|]. destruct o; [|apply grows_refl, G]. apply grows_ents; [done..|apply G].
Qed.

Lemma sync_grows env userID plans outboxID db : ents_ok db -> grows db (applyPlans env userID plans outboxID db).1.
Proof.
  intros I. assert (forall acc ps d, grows db d -> grows db (in_tx env (fun x => let? r := apply_each env acc 0 ps x in
    Ok (match r with Some x => Some (deliver outboxID x) | None => None end)) d).1) as Htx.
  { intros acc ps d G. eapply grows_trans; [done|]. apply in_tx_grows; [apply G|]. intros d'.
    destruct (apply_each env acc 0 ps d) as [[x|]|e] eqn:E; simpl; [|done..]. intros [= <-].
    apply deliver_grows. eapply each_grows; [apply G|done]. }
  unfold applyPlans. destruct plans as [|p ps].
  - destruct outboxID as [id|]; [|by apply grows_refl]. apply in_tx_grows; [done|]. intros d [= <-].
    apply (deliver_grows (Some id) db db). by apply grows_refl.
  - destruct (if existsb is_insert (p :: ps) then _ else _) as [acc d] eqn:E. apply Htx.
    destruct (existsb is_insert (p :: ps)); [|injection E as _ <-; by apply grows_refl].
    pose proof (account_grows (se_accountID env) userID db I) as G. by rewrite E in G.
Qed.

Lemma gift_grows env userID ruleID models policy to db : ents_ok db ->
  grows db (IssueMigrationGift env userID ruleID models policy to db).1.
Proof.
  intros I. unfold IssueMigrationGift. destruct (_ || _); [by apply grows_refl|].
  pose proof (account_grows (se_accountID env) userID db I) as G.
  destruct (EnsureBillingAccount (se_accountID env) userID db) as [acc d]. simpl in G.
  destruct (MigrationGift _ _ _ _ _ _ _) as [ent|e]; [|done].
  destruct (in_tx env _ d) as [d' r] eqn:E. simpl. eapply grows_trans; [done|].
  change d' with (d', r).1. rewrite <- E. apply in_tx_grows; [apply G|].
  intros x H%insert_racing_Ok. eapply grows_insert; [apply G|done].
Qed.

Lemma step_grows db db' : ents_ok db -> ent_step db db' -> grows db db'.
Proof.
  intros I []; eauto using grant_grows, grant_or_read_grows, revive_grows, retire_grows, expire_grows, payg_grows,
    sync_grows, gift_grows, account_grows.
  - unfold ReviseEntitlement in *. destruct (bd_ents db !! id); [|done]. by eapply revise_grows.
  - apply grows_ents; [| |done]; unfold EnqueueOutbox; by destruct (existsb _ _).
  - by apply grows_ents.
Qed.

(** A GRANT NEVER CHANGES ITS SUBJECT. Through any interleaving of grants,
    revisions, retirements, expiry passes, synchronisations planned on stale
    reads, migration gifts and pay-as-you-go upserts: rows stay under their
    own id with one row per source and revision; no row disappears; every row
    keeps its account, source, anchor and effective start; its revision never
    decreases, and a row with an unchanged revision is unchanged altogether,
    so an optimistic guard on the revision detects every intervening write; a
    user's billing account is never rebound. *)
Theorem subject_never_changes db db' : ents_ok db -> rtc ent_step db db' ->
  ents_ok db' /\
  (forall id e, bd_ents db !! id = Some e -> exists e', bd_ents db' !! id = Some e' /\ same_grant e e' /\
     e_Revision e <= e_Revision e' /\ (e_Revision e' = e_Revision e -> e' = e)) /\
  (forall user acc, bd_accounts db !! user = Some acc -> bd_accounts db' !! user = Some acc).
Proof.
  intros I H. assert (grows db db') as (I' & R & A).
  { induction H as [db|db d db' Hs H IH]; [by apply grows_refl|]. apply step_grows in Hs; [|done].
    eapply grows_trans; [done|]. apply IH, Hs. }
  split_and!; [done| |done]. intros id e He. destruct (R _ _ He) as (e' & He' & S & Hr).
  exists e'. split_and!; [done..| |]; destruct Hr as [->|Hr]; [lia|lia|done|lia].
Qed.

(** A message handled while other transactions commit is a run of steps. *)
Lemma processMessage_steps cfg env others msg db : rtc ent_step db (others db) ->
  rtc ent_step db (processMessage cfg env others msg db).1.
Proof.
  intros Ho. unfold processMessage. assert (forall at_ d, rtc ent_step d (mark_failed env (ob_ID msg) at_ d)) as Hm.
  { intros at_ d. unfold mark_failed. destruct (se_marks env); [|done]. apply rtc_once, step_failed. }
  destruct (ob_Payload msg) as [m|]; [|apply Hm]. destruct (planSync _ _ _ _ db) as [plans|e]; [|apply Hm].
  pose proof (step_sync (others db) env (sm_UserID m) plans (Some (ob_ID msg))) as Hs.
  destruct (applyPlans _ _ _ _ _) as [d r]. simpl in Hs.
  assert (rtc ent_step db d) as Hd by (eapply rtc_r; done).
  destruct r as [[]|e]; simpl; [etrans; [done|apply Hm]|done|etrans; [done|apply Hm]].
Qed.

(** A synchronisation, an expiry pass and a renewal. *)
Lemma subject_never_changes_witness :
  exists db', rtc ent_step BenefitSyncDemo.synced db' /\
    exists e, bd_ents db' !! "ent-1" = Some e /\ e_Revision e = 2 /\ e_Status e = EntitlementExpired.
Proof.
  set (db' := match MarkExpiredEntitlements 9500 BenefitSyncDemo.synced with Ok (_, d) => d | Err _ => BenefitSyncDemo.synced end).
  assert (rtc ent_step BenefitSyncDemo.synced db') as H.
  { apply rtc_once, (step_expire _ 9500 1). by vm_compute. }
  exists db'. split; [exact H|].
  destruct (subject_never_changes BenefitSyncDemo.synced db') as (_ & R & _).
  - apply (sync_grows BenefitSyncDemo.env "u1" BenefitSyncDemo.plans (Some 1) BenefitSyncDemo.payment).
    by apply ents_ok_empty.
  - exact H.
  - destruct (bd_ents BenefitSyncDemo.synced !! "ent-1") as [e|] eqn:E; [|by vm_compute in E].
    destruct (R _ _ E) as (e' & He' & _). exists e'. split; [exact He'|]. vm_compute in He'. injection He' as <-. done.
Defined.

(** ** Repeating a migration gift *)

Lemma source_free_false row m : source_free (e_ID row) row m = false <->
  exists id x, m !! id = Some x /\ id <> e_ID row /\ of_source (e_SourceType row, e_SourceID row) x /\ e_Revision x = e_Revision row.
Proof.
  unfold source_free. rewrite <- not_true_iff_false, forallb_forall. split.
  - intros H. destruct (existsb (fun p => negb (bool_decide (p.1 = e_ID row)) && same_source (e_SourceType row) (e_SourceID row) p.2
                         && (e_Revision p.2 =? e_Revision row)) (map_to_list m)) eqn:E.
    + apply existsb_exists in E as ([id x] & Hin & Hx). apply list_elem_of_In, elem_of_map_to_list in Hin. simpl in Hx.
      apply andb_true_iff in Hx as [[Hx H1]%andb_true_iff H2%Z.eqb_eq]. apply same_source_spec in H1.
      apply negb_true_iff, bool_decide_eq_false in Hx. eauto 10.
    + exfalso. apply H. intros p Hp. rewrite <- not_true_iff_false, existsb_exists in E.
      destruct (bool_decide (p.1 = e_ID row)) eqn:E1; [done|]. simpl. apply negb_true_iff, not_true_iff_false. intros E2.
      apply E. exists p. by rewrite E1.
  - intros (id & x & Hx & Hne & Hs & Hr) H. specialize (H (id, x)). rewrite <- list_elem_of_In, elem_of_map_to_list in H.
    specialize (H Hx). simpl in H. rewrite bool_decide_eq_false_2, (proj2 (same_source_spec _ _ _) Hs), Hr, Z.eqb_refl in H by done.
    done.
Qed.

Definition gift_plan (ruleID userID : string) (models : list string) (policy : string) : PlanRevision :=
  mkPlan SourceGrant (MigrationGiftSourceID ruleID userID) models policy.

(** WHEN A REPEATED MIGRATION GIFT IS A NO-OP. With the account and the
    policy in place, issuing the migration gift of a (rule, user) pair leaves
    every table alone exactly while the earlier grant is still at revision 1,
    the revision of the insert; once that row has been revised, retired,
    revived or expired, its UNIQUE (source, revision) key is free again, and
    the same call grants a second active entitlement, although it is
    documented as a no-op. *)
Theorem migration_gift_reissued env userID ruleID models policy to acc ent db :
  userID <> "" -> ruleID <> "" -> bd_accounts db !! userID = Some acc ->
  bd_policies db !! policy = Some PolicyPublished -> bd_ents db !! se_entID env 0%nat = None ->
  se_begin env = None -> se_commit env = Committed ->
  GrantFromPlan (gift_plan ruleID userID models policy) (se_clock env 0%nat) (se_clock env 0%nat) to = Ok ent ->
  ((exists id x, bd_ents db !! id = Some x /\ of_source (SourceGrant, MigrationGiftSourceID ruleID userID) x /\ e_Revision x = 1) ->
     IssueMigrationGift env userID ruleID models policy to db = (db, Ok false)) /\
  ((forall id x, bd_ents db !! id = Some x -> of_source (SourceGrant, MigrationGiftSourceID ruleID userID) x -> e_Revision x <> 1) ->
     exists row, e_Status row = EntitlementActive /\ of_source (SourceGrant, MigrationGiftSourceID ruleID userID) row /\
       IssueMigrationGift env userID ruleID models policy to db =
         (set_ents (<[se_entID env 0%nat := row]> (bd_ents db)) db, Ok true)).
Proof.
  intros Hu Hr Ha Hp Hfresh Hb Hc Hg. unfold IssueMigrationGift, MigrationGift, EnsureBillingAccount.
  rewrite !bool_decide_eq_false_2, Ha by done. cbn [orb]. unfold gift_plan in Hg. rewrite Hg. cbv zeta.
  set (row := new_row (se_entID env 0%nat) (se_now env) (with_account acc ent)).
  assert (Hins : InsertEntitlementTx (se_entID env 0%nat) (se_now env) (with_account acc ent) db =
    if source_free (e_ID row) row (bd_ents db)
    then Ok (row, set_ents (<[se_entID env 0%nat := row]> (bd_ents db)) db) else db_fail UniqueViolation).
  { assert (e_PolicyVersionID ent = policy /\ entitlement_row_ok row = true) as [Hpol Hrow].
    { unfold GrantFromPlan in Hg. cbn [known_source pl_SourceType gift_plan] in Hg. do 2 (case_bool_decide; [done|]). cbv zeta in Hg.
      destruct (_ <? _); [done|]. destruct to as [t|]; [destruct (se_clock env 0%nat <? t) eqn:Et|];
        simpl in Hg; rewrite ?Et in Hg; simpl in Hg; try done; injection Hg as <-; split; done. }
    unfold InsertEntitlementTx, lockPolicyForGrantTx, insert_entitlement, select_one. fold row.
    simpl e_PolicyVersionID at 1. rewrite Hpol, Hp. simpl. rewrite Hrow. unfold insert_row. simpl. rewrite Hfresh. simpl.
    unfold unique. destruct (source_free _ _ _); [|done]. simpl. unfold references, has_account, has.
    rewrite Hpol, Hp, bool_decide_eq_true_2, andb_true_r by done.
    rewrite (proj2 (existsb_exists _ _)); [done|]. exists (userID, acc). rewrite <- list_elem_of_In, elem_of_map_to_list.
    by rewrite bool_decide_eq_true_2. }
  assert (of_source (SourceGrant, MigrationGiftSourceID ruleID userID) row /\ e_Revision row = 1 /\ e_Status row = EntitlementActive)
    as (Hs & Hrev & Hst).
  { apply GrantFromPlan_Ok in Hg as (G1 & G2 & _ & _ & _ & G6 & G7 & _). unfold of_source. subst row. simpl.
    rewrite G6, G7. by rewrite bool_decide_eq_false_2. }
  unfold in_tx. rewrite Hb, Hc. unfold insert_racing. rewrite Hins. pose proof Hs as [Hs1 Hs2]. cbn [fst snd] in Hs1, Hs2. split.
  - intros (id & x & Hx & Hsx & Hrx). rewrite (proj2 (source_free_false row _)); [done|].
    exists id, x. rewrite Hs1, Hs2, Hrev. split_and!; try done. intros ->. simpl in Hx. congruence.
  - intros Hno. exists row. destruct (source_free _ _ _) eqn:E; [by split_and!|].
    apply source_free_false in E as (id & x & Hx & _ & Hsx & Hrx). rewrite Hs1, Hs2, Hrev in *. by destruct (Hno _ _ Hx Hsx).
Qed.

Module MigrationDemo.

Definition env (n : nat) (t : instant) : SyncEnv :=
  mkSyncEnv (fun _ => t) "acct-1" (fun _ => match n with O => "gift-1" | _ => "gift-2" end) t None Committed true.

Definition start : BenefitDB := mkBenefitDB ∅ {[ "p1" := PolicyPublished ]} {[ "u1" := "acct-1" ]} [] [] [].
Definition issue (n : nat) (t : instant) (db : BenefitDB) : BenefitDB * res bool :=
  IssueMigrationGift (env n t) "u1" "rule-7" ["m1"] "p1" (Some (t + 100)) db.

Definition first : BenefitDB := (issue 0 1000 start).1.
Definition expired : BenefitDB := match MarkExpiredEntitlements 1200 first with Ok (_, d) => d | Err _ => first end.

Definition gifts (db : BenefitDB) : list (string * Z) :=
  map (fun e => (e_ID e, e_Revision e)) (rows (bd_ents db) (same_source SourceGrant (MigrationGiftSourceID "rule-7" "u1"))).

End MigrationDemo.

(** Issued again at once: nothing. Issued again after the expiry pass: a second grant. *)
Lemma migration_gift_reissued_witness :
  MigrationDemo.issue 1 1050 MigrationDemo.first = (MigrationDemo.first, Ok false) /\
  (MigrationDemo.issue 1 1300 MigrationDemo.expired).2 = Ok true /\
  length (MigrationDemo.gifts (MigrationDemo.issue 1 1300 MigrationDemo.expired).1) = 2%nat.
Proof.
  split.
  - destruct (GrantFromPlan (gift_plan "rule-7" "u1" ["m1"] "p1") 1050 1050 (Some 1150)) as [ent|e] eqn:Hg; [|by vm_compute in Hg].
    destruct (migration_gift_reissued (MigrationDemo.env 1 1050) "u1" "rule-7" ["m1"] "p1" (Some 1150) "acct-1" ent MigrationDemo.first)
      as [H _]; [done|done|by vm_compute..|exact Hg|].
    apply H. destruct (bd_ents MigrationDemo.first !! "gift-1") as [x|] eqn:E; [|by vm_compute in E].
    exists "gift-1", x. split; [exact E|]. vm_compute in E. injection E as <-.
    split; [split|]; reflexivity.
  - split; vm_compute; reflexivity.
Defined.
