(* ===== verification/RequestStore.v ===== *)
(** * RequestStore: logical requests, attempts and metering facts

    [internal/inference/postgres/request_repo.go] and the revision read of
    [usage_repo.go], with the constraints of [inference_requests],
    [inference_attempts] and [inference_usage_records]. *)

From Stdlib Require Import ZArith Lia Bool.
From stdpp Require Import base gmap strings list.
From S2P Require Import Prelude Domain Money WalletRules Tables.

Local Open Scope Z_scope.
Local Open Scope go_scope.

Definition opt_ge (lo : Z) (v : option Z) : bool :=
  match v with Some v => lo <=? v | None => true end.

(** [chargeSourceOf]: anything but wallet is plan. *)
Definition chargeSourceOf (r : Request) : ChargeSource :=
  if bool_decide (r_ChargeSource r = Some ChargeSourceWallet) then ChargeSourceWallet
  else ChargeSourcePlan.

(** The row [insertRequest] writes: empty statuses take their defaults; the
    settled amount, error text and completion time are column defaults. *)
Definition request_row (r : Request) (now : instant) : Request :=
  mkRequest (r_ID r) (r_BillingAccountID r) (r_APIKeyID r) (r_EntitlementID r) (r_ModelID r)
    (Some (default ReqAuthenticated (r_Status r))) (r_AdmittedAt r) (r_PriceVersionID r)
    (r_PolicyVersionID r) (r_WindowFiveHourID r) (r_WindowWeeklyID r) (r_WindowMonthlyID r)
    (r_ReservedMicros r) None (Some (chargeSourceOf r))
    (Some (default UsagePending (r_UsageStatus r)))
    (r_InputBoundTokens r) (r_OutputCapTokens r) (r_ExtraBounds r) "" now None.

Definition insertRequest (r : Request) (now : instant) (db : DB) : res DB :=
  let? _ := check (opt_ge 0 (r_ReservedMicros r) && opt_ge 0 (r_InputBoundTokens r)
                   && opt_ge 1 (r_OutputCapTokens r)) in
  let? reqs := insert_row (r_ID r) (request_row r now) (requests db) in
  let? _ := references (has (accounts db) (r_BillingAccountID r) && has_opt (keys db) (r_APIKeyID r)
                        && extern db TEntitlements (r_EntitlementID r)
                        && extern db TModels (r_ModelID r)
                        && match r_PriceVersionID r with
                           | Some p => extern db TPriceVersions p | None => true end
                        && extern db TPolicyVersions (r_PolicyVersionID r)
                        && has_opt (windows db) (r_WindowFiveHourID r)
                        && has_opt (windows db) (r_WindowWeeklyID r)
                        && has_opt (windows db) (r_WindowMonthlyID r)) in
  Ok (set_requests reqs db).

Definition updateRequestStatus (id : string) (s : RequestStatus) (lastErr : string) (now : instant)
    (db : DB) : res DB :=
  match requests db !! id with
  | None => db_fail ErrNoRows
  | Some r => Ok (set_requests (<[id := set_r_LastError lastErr (set_r_Status s now r)]> (requests db)) db)
  end.

(** Attempts: UNIQUE(request_id, attempt_no); a cost needs a basis. *)
Definition insertAttempt (a : Attempt) (db : DB) : res DB :=
  let a := mkAttempt (at_ID a) (at_RequestID a) (at_AttemptNo a)
             (if bool_decide (at_Status a = "") then "dispatching" else at_Status a)
             (at_UpstreamRequestID a) "" (at_Cost a) (at_Basis a) (at_StartedAt a) (at_FinishedAt a) in
  let? _ := check ((0 <? at_AttemptNo a)
                   && bool_decide (at_Status a ∈ ["dispatching"; "streaming"; "completed"; "failed";
                                                  "cancelled"; "unknown"])
                   && match at_Cost a with
                      | Some m => (0 <=? Micros m) && validCurrency (Currency m)
                                  && match at_Basis a with Some _ => true | None => false end
                      | None => true end) in
  let? ats := insert_row (at_ID a) a (attempts db) in
  let? _ := unique (forallb (fun b => negb (bool_decide (at_RequestID b = at_RequestID a)
                                            && (at_AttemptNo b =? at_AttemptNo a)))
                      (map_to_list (attempts db)).*2) in
  let? _ := references (has (requests db) (at_RequestID a)) in
  Ok (set_attempts ats db).

Definition FinishAttempt (id status errorKind upstreamRequestID : string) (finishedAt : instant)
    (db : DB) : res DB :=
  match attempts db !! id with
  | None => db_fail ErrNoRows
  | Some a =>
      let? _ := check (bool_decide (status ∈ ["dispatching"; "streaming"; "completed"; "failed";
                                              "cancelled"; "unknown"])) in
      Ok (set_attempts (<[id := mkAttempt (at_ID a) (at_RequestID a) (at_AttemptNo a) status
            upstreamRequestID errorKind (at_Cost a) (at_Basis a) (at_StartedAt a) (Some finishedAt)]>
            (attempts db)) db)
  end.

(** Metering facts: UNIQUE(attempt_id, revision); revision 0 is stored as 1. *)
Definition usage_row (u : UsageRecord) : UsageRecord :=
  mkUsage (u_RequestID u) (u_AttemptID u) (u_Source u) (u_Buckets u)
    (if u_Revision u =? 0 then 1 else u_Revision u).

Definition insertUsageRecord (u : UsageRecord) (db : DB) : res DB :=
  let u := usage_row u in
  let b := u_Buckets u in
  let? _ := check (negb (bool_decide (u_Source u = UsagePending))
                   && opt_ge 0 (InputTokens b) && opt_ge 0 (CacheReadTokens b)
                   && opt_ge 0 (CacheWriteTokens b) && opt_ge 0 (OutputTokens b)
                   && opt_ge 0 (ReasoningTokens b) && (0 <? u_Revision u)
                   && (negb (bool_decide (u_Source u = UsageUnknown))
                       || bool_decide (InputTokens b = None))) in
  let? _ := unique (forallb (fun v => negb (bool_decide (u_AttemptID v = u_AttemptID u)
                                            && (u_Revision v =? u_Revision u))) (usage db)) in
  let? _ := references (has (requests db) (u_RequestID u) && has (attempts db) (u_AttemptID u)) in
  Ok (set_usage (usage db ++ [u]) db).

(** [SELECT MAX(revision) ... WHERE attempt_id = $1]. *)
Definition LatestUsageRevision (attemptID : string) (db : DB) : Z :=
  foldr Z.max 0 (map u_Revision (List.filter (fun u => bool_decide (u_AttemptID u = attemptID)) (usage db))).
