(* ===== verification/QuotaStore.v ===== *)
(** * QuotaStore: windows, reservations and their life cycle

    [internal/inference/postgres/quota_repo.go] (window activation and the
    atomic reservation) and [reservation_repo.go] (release and the revocation
    of an unused five-hour window). *)

From Stdlib Require Import ZArith Lia Bool.
From stdpp Require Import base gmap strings list.
From S2P Require Import Prelude Domain Money Calendar Window WalletRules Tables RequestStore.

Local Open Scope Z_scope.
Local Open Scope go_scope.

(** ** Windows *)

(** [tstzrange(a) && tstzrange(b)] on half-open, non-empty ranges. *)
Definition ranges_overlap (a b : QuotaWindow) : bool :=
  (w_Start a <? w_End b) && (w_Start b <? w_End a).

Definition same_subject (a b : QuotaWindow) : bool :=
  bool_decide (w_EntitlementID a = w_EntitlementID b) && bool_decide (w_Kind a = w_Kind b).

Definition insertQuotaWindow (newID : string) (w : QuotaWindow) (db : DB) : res (QuotaWindow * DB) :=
  let w := mkWindow (if bool_decide (w_ID w = "") then newID else w_ID w) (w_EntitlementID w) (w_Kind w)
             (w_Start w) (w_End w) (w_Limit w) (w_Used w) (w_Reserved w) (w_Voided w) in
  let? _ := check ((0 <=? w_Limit w) && (0 <=? w_Used w) && (0 <=? w_Reserved w)
                   && (w_Start w <? w_End w)) in
  let? ws := insert_row (w_ID w) w (windows db) in
  (* UNIQUE (entitlement_id, kind, window_start), over all rows *)
  let? _ := unique (forallb (fun v => negb (same_subject v w && (w_Start v =? w_Start w)))
                      (map_to_list (windows db)).*2) in
  (* EXCLUDE (entitlement_id =, kind =, range &&) WHERE state = 'active' *)
  if negb (w_Voided w)
     && existsb (fun v => negb (w_Voided v) && same_subject v w && ranges_overlap v w)
          (map_to_list (windows db)).*2
  then db_fail ExclusionViolation
  else
    let? _ := references (extern db TEntitlements (w_EntitlementID w)) in
    Ok (w, set_windows ws db).

Definition LoadWindows (entitlementID : string) (kinds : list WindowKind) (db : DB) : list QuotaWindow :=
  let kinds := match kinds with [] => WindowOrder | _ => kinds end in
  rows (windows db) (fun w => bool_decide (w_EntitlementID w = entitlementID) && negb (w_Voided w)
                              && bool_decide (w_Kind w ∈ kinds)).

Definition windowOrderKey (k : ReservationTargetKind) : Z :=
  match k with
  | TargetWindowFiveHour => 0
  | TargetWindowWeekly => 1
  | TargetWindowMonthly => 2
  | TargetKeyBudget => 3
  | TargetWallet => 4
  end.

Definition windowKindOfTarget (t : ReservationTargetKind) : option WindowKind :=
  match t with
  | TargetWindowFiveHour => Some WindowFiveHour
  | TargetWindowWeekly => Some WindowWeekly
  | TargetWindowMonthly => Some WindowMonthly
  | TargetKeyBudget | TargetWallet => None
  end.

Definition lockAccountTx (accountID : string) (db : DB) : res unit :=
  let? status := select_one accountID (accounts db) in
  guard bool_decide (status = BillingAccountActive) else NewError CodeInvalidKey;
  Ok tt.

(** ** Activation *)

Record ActivateWindowsCommand := mkActivate {
  aw_BillingAccountID : string;
  aw_EntitlementID : string;
  aw_Anchor : instant;
  aw_At : instant;
  aw_Limits : WindowKind -> option Microcredit;
}.

(** One kind of the loop: state is the active rows, the output and the store. *)
Definition activate_kind (newID : WindowKind -> string) (cmd : ActivateWindowsCommand)
    (st : list QuotaWindow * list QuotaWindow * DB) (kind : WindowKind)
  : res (list QuotaWindow * list QuotaWindow * DB) :=
  let '(active, out, db) := st in
  match aw_Limits cmd kind with
  | None => Ok st
  | Some limit =>
      let? (iv, activate) := ConsumptionWindow kind (aw_Anchor cmd) active (aw_At cmd) in
      if (activate : bool) then
        let nw := mkWindow "" (aw_EntitlementID cmd) kind (iv_Start iv) (iv_End iv) limit 0 0 false in
        match insertQuotaWindow (newID kind) nw db with
        | Ok (nw, db) => Ok (active ++ [nw], out ++ [nw], db)
        | Err e => if bool_decide (CodeOf e = CodeConflict)
                   then Err (EActivationConflict kind (iv_Start iv)) else Err e
        end
      else
        match List.find (live_row kind (aw_At cmd)) active with
        | Some a => Ok (active, out ++ [a], db)
        | None => Ok st
        end
  end.

Definition ActivateWindowsTx (newID : WindowKind -> string) (cmd : ActivateWindowsCommand) (db : DB)
  : res (list QuotaWindow * DB) :=
  let? _ := lockAccountTx (aw_BillingAccountID cmd) db in
  let active := rows (windows db) (fun w => bool_decide (w_EntitlementID w = aw_EntitlementID cmd)
                                            && negb (w_Voided w)) in
  let? (_, out, db) := rfold (activate_kind newID cmd) (active, [], db) WindowOrder in
  Ok (out, db).

(** ** Reservation *)

Record HoldSpec := mkHoldSpec {
  h_TargetKind : ReservationTargetKind;
  h_WindowID : option string;
  h_APIKeyID : option string;
  h_WalletID : option string;
  h_Amount : Microcredit;
}.

Record ReserveCommand := mkReserve {
  rc_Request : Request;
  rc_Holds : list HoldSpec;
  rc_AdmittedAt : instant;
}.

(** The variables of the hold loop. *)
Record HoldLoop := mkLoop {
  hl_db : DB;
  hl_blocked : list WindowBlock;
  hl_keyBlocked : bool;
  hl_deficit : Microcredit;
  hl_amount : Microcredit;
}.

(** [if d := amount - avail; avail < amount && d > deficit { deficit = d }]. *)
Definition raise_deficit (deficit avail amount : Z) : Z :=
  if avail <? amount
  then let d := sub64 amount avail in if deficit <? d then d else deficit
  else deficit.

(** [UPDATE inference_api_keys SET used = used + $2 WHERE ... <= limit]. *)
Definition hold_key (id : string) (amount : Z) (db : DB) : res (option DB) :=
  match keys db !! id with
  | None => Ok None
  | Some k =>
      let? used := sql_int (k_BudgetUsed k + amount) in
      if match k_BudgetLimit k with None => true | Some l => used <=? l end
      then Ok (Some (set_keys (<[id := mkKey (k_BudgetLimit k) used]> (keys db)) db))
      else Ok None
  end.

(** [UPDATE inference_quota_windows SET reserved = reserved + $2 WHERE active
    AND used + reserved + $2 <= limit]. *)
Definition hold_window (id : string) (amount : Z) (db : DB) : res (option DB) :=
  match windows db !! id with
  | None => Ok None
  | Some w =>
      if w_Voided w then Ok None else
      let? s := sql_int (w_Used w + w_Reserved w) in
      let? total := sql_int (s + amount) in
      if total <=? w_Limit w
      then Ok (Some (set_windows (<[id := set_w_Counters (w_Used w) (w_Reserved w + amount) w]>
                                    (windows db)) db))
      else Ok None
  end.

Definition apply_hold (st : HoldLoop) (h : HoldSpec) : res HoldLoop :=
  let amount := h_Amount h in
  let db := hl_db st in
  fail_if amount <? 0 with WrapError CodeInvalidInput (ESentinel ErrNegativeValue);
  let reserveAmount := if hl_amount st <? amount then amount else hl_amount st in
  match h_TargetKind h with
  | TargetKeyBudget =>
      match h_APIKeyID h with
      | None => Err (NewError CodeInvalidInput)
      | Some id =>
          let? r := hold_key id amount db in
          match r with
          | Some db => Ok (mkLoop db (hl_blocked st) (hl_keyBlocked st) (hl_deficit st) reserveAmount)
          | None =>
              let deficit := match keys db !! id with
                | Some (mkKey (Some lim) used) => raise_deficit (hl_deficit st) (sub64 lim used) amount
                | _ => hl_deficit st end in
              Ok (mkLoop db (hl_blocked st) true deficit (hl_amount st))
          end
      end
  | t =>
      match h_WindowID h with
      | None => Err (NewError CodeInvalidInput)
      | Some id =>
          let? r := hold_window id amount db in
          match r with
          | Some db => Ok (mkLoop db (hl_blocked st) (hl_keyBlocked st) (hl_deficit st) reserveAmount)
          | None =>
              let kind := windowKindOfTarget t in
              match windows db !! id with
              | Some w =>
                  let block := mkBlock kind (w_Limit w) (w_Used w) (w_Reserved w) (Some (w_End w)) in
                  let avail := sub64 (sub64 (w_Limit w) (w_Used w)) (w_Reserved w) in
                  Ok (mkLoop db (hl_blocked st ++ [block]) (hl_keyBlocked st)
                        (raise_deficit (hl_deficit st) avail amount) (hl_amount st))
              | None =>
                  Ok (mkLoop db (hl_blocked st ++ [mkBlock kind 0 0 0 None]) (hl_keyBlocked st)
                        (hl_deficit st) (hl_amount st))
              end
          end
      end
  end.

(** The request row Reserve persists: the bound windows come from the holds. *)
Definition bind_window (r : Request) (h : HoldSpec) : Request :=
  let f five week month :=
    mkRequest (r_ID r) (r_BillingAccountID r) (r_APIKeyID r) (r_EntitlementID r) (r_ModelID r)
      (r_Status r) (r_AdmittedAt r) (r_PriceVersionID r) (r_PolicyVersionID r) five week month
      (r_ReservedMicros r) (r_SettledMicros r) (r_ChargeSource r) (r_UsageStatus r)
      (r_InputBoundTokens r) (r_OutputCapTokens r) (r_ExtraBounds r) (r_LastError r) (r_UpdatedAt r)
      (r_CompletedAt r) in
  match h_TargetKind h with
  | TargetWindowFiveHour => f (h_WindowID h) (r_WindowWeeklyID r) (r_WindowMonthlyID r)
  | TargetWindowWeekly => f (r_WindowFiveHourID r) (h_WindowID h) (r_WindowMonthlyID r)
  | TargetWindowMonthly => f (r_WindowFiveHourID r) (r_WindowWeeklyID r) (h_WindowID h)
  | TargetKeyBudget | TargetWallet => r
  end.

Definition admit_request (r : Request) (at_ : instant) (reserved : Microcredit)
    (source : option ChargeSource) (price : option string) : Request :=
  mkRequest (r_ID r) (r_BillingAccountID r) (r_APIKeyID r) (r_EntitlementID r) (r_ModelID r)
    (Some ReqReserved) (Some at_) price (r_PolicyVersionID r)
    (r_WindowFiveHourID r) (r_WindowWeeklyID r) (r_WindowMonthlyID r)
    (Some reserved) (r_SettledMicros r) source (r_UsageStatus r)
    (r_InputBoundTokens r) (r_OutputCapTokens r) (r_ExtraBounds r) (r_LastError r) (r_UpdatedAt r)
    (r_CompletedAt r).

(** INSERT INTO inference_reservations, with its CHECKs and unique keys. *)
Definition target_refs_ok (rv : Reservation) : bool :=
  match rv_TargetKind rv, rv_WindowID rv, rv_APIKeyID rv with
  | (TargetWindowFiveHour | TargetWindowWeekly | TargetWindowMonthly), Some _, None => true
  | TargetKeyBudget, None, Some _ => true
  | TargetWallet, None, None => true
  | _, _, _ => false
  end.

Definition insert_reservation (rv : Reservation) (db : DB) : res DB :=
  let? _ := check ((0 <=? rv_Amount rv) && target_refs_ok rv) in
  let? rvs := insert_row (rv_ID rv) rv (reservations db) in
  let? _ := unique (forallb (fun o => negb (bool_decide (rv_RequestID o = rv_RequestID rv)
                                            && bool_decide (rv_TargetKind o = rv_TargetKind rv)))
                      (map_to_list (reservations db)).*2) in
  let? _ := references (has (requests db) (rv_RequestID rv) && has_opt (windows db) (rv_WindowID rv)
                        && has_opt (keys db) (rv_APIKeyID rv)) in
  Ok (set_reservations rvs db).

Definition reservation_of (newID : ReservationTargetKind -> string) (req : string) (h : HoldSpec)
  : Reservation :=
  mkReservation (newID (h_TargetKind h)) req (h_TargetKind h) (h_WindowID h) (h_APIKeyID h)
    (h_Amount h) ReservationHeld.

Record Admission := mkAdmission { adm_RequestID : string; adm_Holds : list Reservation }.

Definition Reserve (newID : ReservationTargetKind -> string) (now : instant) (cmd : ReserveCommand)
    (db : DB) : res (Admission * DB) :=
  let? _ := lockAccountTx (r_BillingAccountID (rc_Request cmd)) db in
  let holds := sort_by (fun h => windowOrderKey (h_TargetKind h)) (rc_Holds cmd) in
  let? st := rfold apply_hold (mkLoop db [] false 0 0) holds in
  fail_if negb (bool_decide (hl_blocked st = [])) || hl_keyBlocked st
    with EQuotaExceeded (hl_blocked st) (hl_keyBlocked st)
           (if 0 <? hl_deficit st then Some (hl_deficit st) else None);
  let req := admit_request (rc_Request cmd) (rc_AdmittedAt cmd) (hl_amount st)
               (r_ChargeSource (rc_Request cmd)) (r_PriceVersionID (rc_Request cmd)) in
  let req := foldl bind_window req holds in
  let? db := insertRequest req now (hl_db st) in
  let rvs := map (reservation_of newID (r_ID req)) holds in
  let? db := rfold (fun db rv => insert_reservation rv db) db rvs in
  Ok (mkAdmission (r_ID req) rvs, db).

(** ** Release *)

Definition loadHeldReservations (requestID : string) (db : DB) : list Reservation :=
  sort_by (fun rv => windowOrderKey (rv_TargetKind rv))
    (rows (reservations db) (fun rv => bool_decide (rv_RequestID rv = requestID)
                                       && bool_decide (rv_State rv = ReservationHeld))).

(** [UPDATE inference_reservations SET state WHERE id = $1 AND state = 'held']. *)
Definition flip_reservation (id : string) (s : ReservationState) (db : DB) : res DB :=
  match reservations db !! id with
  | Some rv =>
      guard bool_decide (rv_State rv = ReservationHeld) else NewError CodeConflict;
      Ok (set_reservations (<[id := set_rv_State s rv]> (reservations db)) db)
  | None => Err (NewError CodeConflict)
  end.

(** [releaseWalletLocked] of wallet_repo.go: the hold of the request, if held. *)
Definition releaseWalletLocked (requestID : string) (db : DB) : res DB :=
  let held := fun h => bool_decide (wh_RequestID h = requestID) && bool_decide (wh_State h = ReservationHeld) in
  match rows (holds db) held with
  | [] => Err (NewError CodeConflict)
  | _ => Ok (set_holds ((fun h => if held h then set_wh_State ReservationReleased h else h)
                          <$> holds db) db)
  end.

(** [*p] of a nil pointer panics in Go; the CHECK on the row excludes it. *)
Definition deref (p : option string) : res string :=
  match p with Some s => Ok s | None => Err EForeign end.

Definition release_target (requestID : string) (rv : Reservation) (db : DB) : res DB :=
  match rv_TargetKind rv with
  | TargetKeyBudget =>
      let? id := deref (rv_APIKeyID rv) in
      match keys db !! id with
      | Some k =>
          guard rv_Amount rv <=? k_BudgetUsed k else NewError CodeConflict;
          Ok (set_keys (<[id := mkKey (k_BudgetLimit k) (k_BudgetUsed k - rv_Amount rv)]> (keys db)) db)
      | None => Err (NewError CodeConflict)
      end
  | TargetWallet => releaseWalletLocked requestID db
  | _ =>
      let? id := deref (rv_WindowID rv) in
      match windows db !! id with
      | Some w =>
          guard rv_Amount rv <=? w_Reserved w else NewError CodeConflict;
          Ok (set_windows (<[id := set_w_Counters (w_Used w) (w_Reserved w - rv_Amount rv) w]>
                             (windows db)) db)
      | None => Err (NewError CodeConflict)
      end
  end.

Definition release_one (requestID : string) (db : DB) (rv : Reservation) : res DB :=
  let? db := release_target requestID rv db in
  flip_reservation (rv_ID rv) ReservationReleased db.

Definition voidUnusedFiveHourWindow (windowID : string) (db : DB) : res DB :=
  let? w := select_one windowID (windows db) in
  if w_Voided w || negb (w_Used w =? 0) || negb (w_Reserved w =? 0) then Ok db else
  let held := rows (reservations db) (fun rv => bool_decide (rv_WindowID rv = Some windowID)
                                                && bool_decide (rv_State rv = ReservationHeld)) in
  if negb (bool_decide (held = [])) then Ok db else
  Ok (set_windows (<[windowID := set_w_Voided w]> (windows db)) db).

(** The five-hour window of the released holds ([fiveHourWindow]). *)
Definition five_hour_of (rvs : list Reservation) : option string :=
  foldl (fun acc rv => if bool_decide (rv_TargetKind rv = TargetWindowFiveHour)
                       then rv_WindowID rv else acc) None rvs.

Definition job_open (j : ReconciliationJob) : bool :=
  bool_decide (j_Status j = JobPending) || bool_decide (j_Status j = JobRunning).

(** Resolves the open jobs of a request that satisfy [p]. *)
Definition resolve_jobs (requestID : string) (p : ReconciliationJob -> bool)
    (note : gmap string string) (now : instant) (db : DB) : DB :=
  set_jobs (map (fun j => if bool_decide (j_RequestID j = Some requestID) && job_open j && p j
                          then set_j_Status JobResolved (Some now) (note ∪ j_Detail j) j
                          else j) (jobs db)) db.

Definition releaseLocked (requestID : string) (fromReconciliation : bool) (now : instant) (db : DB)
  : res DB :=
  let? r := select_one requestID (requests db) in
  let? _ := lockAccountTx (r_BillingAccountID r) db in
  fail_if bool_decide (r_Status r = Some ReqSettled) || bool_decide (r_Status r = Some ReqReleased)
    with NewError CodeConflict;
  fail_if bool_decide (r_Status r = Some ReqReconciliationRequired) && negb fromReconciliation
    with NewError CodeConflict;
  let rvs := loadHeldReservations requestID db in
  fail_if bool_decide (rvs = []) with NewError CodeConflict;
  let? db := rfold (release_one requestID) db rvs in
  let? db := match five_hour_of rvs with
             | Some wid => voidUnusedFiveHourWindow wid db
             | None => Ok db
             end in
  let db := if fromReconciliation
            then resolve_jobs requestID (fun _ => true)
                   {[ "schema_version" := "1";
                      "resolution" := json_string "zero consumption proven by attempt evidence" ]} now db
            else db in
  updateRequestStatus requestID ReqReleased "" now db.

Definition Release (requestID : string) (now : instant) (db : DB) : res DB :=
  releaseLocked requestID false now db.
Definition ReleaseFromReconciliation (requestID : string) (now : instant) (db : DB) : res DB :=
  releaseLocked requestID true now db.
