(* ===== verification/WalletStore.v ===== *)
(** * WalletStore: the prepaid wallet on the ledger

    [internal/inference/postgres/wallet_repo.go]: there is no balance column;
    every balance is derived from the append-only entries and the held
    freezes. *)

From Stdlib Require Import ZArith Lia Bool.
From stdpp Require Import base gmap strings pretty list.
From S2P Require Import Prelude Domain Money Calendar Window WalletRules Tables RequestStore.
From S2P Require Import QuotaStore.

Local Open Scope Z_scope.
Local Open Scope go_scope.

(** ** Reads *)

Definition Settings (w : Wallet) : OverageSettings :=
  mkOverage (wa_OverageEnabled w) (wa_MonthlySpendLimitMicros w).

Definition find_wallet (accountID currency : string) (db : DB) : option Wallet :=
  head (rows (wallets db) (fun w => bool_decide (wa_BillingAccountID w = accountID)
                                    && bool_decide (wa_Currency w = currency))).

Definition GetWalletByAccount (accountID currency : string) (db : DB) : res Wallet :=
  match find_wallet accountID currency db with Some w => Ok w | None => db_fail ErrNoRows end.

(** [SUM(amount_micros)] of the wallet's entries with a source and direction;
    the numeric sum is scanned into an [int64]. *)
Definition entry_in (walletID : string) (src : WalletSource) (dir : WalletDirection) (e : WalletEntry)
  : bool :=
  bool_decide (we_WalletID e = walletID) && bool_decide (we_Source e = src)
  && bool_decide (we_Direction e = dir).

Definition entry_sum (walletID : string) (src : WalletSource) (dir : WalletDirection) (db : DB) : Z :=
  lsum we_AmountMicros (List.filter (entry_in walletID src dir) (entries db)).

Definition hold_on (walletID : string) (h : WalletHold) : bool :=
  bool_decide (wh_WalletID h = walletID) && bool_decide (wh_State h = ReservationHeld).

Definition held_sum (f : WalletHold -> Z) (walletID : string) (db : DB) : Z :=
  msum (fun _ h => if hold_on walletID h then f h else 0) (holds db).

Definition walletSumsLocked (walletID : string) (db : DB) : res WalletSums :=
  let? cc := sql_int (entry_sum walletID WalletCash DirCredit db) in
  let? cd := sql_int (entry_sum walletID WalletCash DirDebit db) in
  let? bc := sql_int (entry_sum walletID WalletBonus DirCredit db) in
  let? bd := sql_int (entry_sum walletID WalletBonus DirDebit db) in
  let? hc := sql_int (held_sum wh_CashMicros walletID db) in
  let? hb := sql_int (held_sum wh_BonusMicros walletID db) in
  Ok (mkSums cc cd bc bd hc hb).

(** The entry an entry reverses ([LEFT JOIN ... ON e.reverses_entry_id = o.id]). *)
Definition reversed_entry (e : WalletEntry) (db : DB) : option WalletEntry :=
  match we_ReversesEntryID e with
  | None => None
  | Some id => List.find (fun o => we_ID o =? id) (entries db)
  end.

Definition spend_of (db : DB) (e : WalletEntry) : Z :=
  if bool_decide (we_EntryType e = EntryConsume) && bool_decide (we_Direction e = DirDebit)
  then we_AmountMicros e
  else if bool_decide (we_EntryType e = EntryReversal) && bool_decide (we_Direction e = DirCredit)
          && match reversed_entry e db with
             | Some o => bool_decide (we_EntryType o = EntryConsume) | None => false end
       then - we_AmountMicros e
       else 0.

Definition month_spend (walletID : string) (start end_ : instant) (db : DB) : Z :=
  lsum (spend_of db)
    (List.filter (fun e => bool_decide (we_WalletID e = walletID) && (start <=? we_CreatedAt e)
                           && (we_CreatedAt e <? end_)) (entries db)).

Definition monthSpendLocked (walletID : string) (start end_ : instant) (db : DB) : res Z :=
  sql_int (month_spend walletID start end_ db).

(** [Store.WalletBalance]: settings, derived balance, month spend. *)
Definition WalletBalanceView (accountID currency : string) (at_ : instant) (db : DB)
  : res (Wallet * WalletBalance * Z) :=
  let? w := GetWalletByAccount accountID currency db in
  let? sums := walletSumsLocked (wa_ID w) db in
  let? bal := DeriveWalletBalance (wa_Currency w) sums in
  let (start, end_) := MonthBoundsUTC at_ in
  let? spent := monthSpendLocked (wa_ID w) start end_ db in
  Ok (w, bal, spent).

(** ** Wallet rows and settings *)

Definition getOrCreateWalletLocked (newID accountID currency changedBy : string) (db : DB)
  : res (Wallet * bool * DB) :=
  let? _ := check (validCurrency currency) in
  match find_wallet accountID currency db with
  | Some w => Ok (w, false, db)
  | None =>
      let w := mkWallet newID accountID currency false None in
      let? ws := insert_row newID w (wallets db) in
      let? _ := references (has (accounts db) accountID) in
      let audit := (newID, mkAudit WalletAuditCreate changedBy None (Some false) None None) in
      Ok (w, true, set_audits (audits db ++ [audit]) (set_wallets ws db))
  end.

Definition lockWalletTx (walletID : string) (db : DB) : res Wallet := select_one walletID (wallets db).

Definition SetOverageTx (newID accountID currency : string) (enabled : bool) (limit : option Z)
    (changedBy : string) (db : DB) : res (Wallet * DB) :=
  let next := mkOverage enabled limit in
  let? _ := OverageValidate next in
  let? _ := lockAccountTx accountID db in
  let? (wallet, created, db) := getOrCreateWalletLocked newID accountID currency changedBy db in
  let? _ := lockWalletTx (wa_ID wallet) db in
  let specs := List.filter (fun s => negb (bool_decide (a_Action s = WalletAuditCreate)))
                 (AuditForChange created (Settings wallet) next changedBy) in
  let db := set_audits (audits db ++ map (fun s => (wa_ID wallet, s)) specs) db in
  let w' := mkWallet (wa_ID wallet) (wa_BillingAccountID wallet) (wa_Currency wallet) enabled limit in
  Ok (w', set_wallets (<[wa_ID wallet := w']> (wallets db)) db).

(** ** Entries *)

Definition entry_type_ok (e : WalletEntry) : bool :=
  match we_EntryType e with
  | EntryTopup => bool_decide (we_Direction e = DirCredit) && bool_decide (we_Source e = WalletCash)
  | EntryBonus => bool_decide (we_Direction e = DirCredit) && bool_decide (we_Source e = WalletBonus)
  | EntryConsume => bool_decide (we_Direction e = DirDebit)
  | EntryRefund => bool_decide (we_Direction e = DirDebit) && bool_decide (we_Source e = WalletCash)
  | EntryAdjustment | EntryReversal => true
  | EntryOther => false
  end.

Definition entry_row_ok (e : WalletEntry) : bool :=
  (0 <? we_AmountMicros e) && validCurrency (we_Currency e)
  && negb (bool_decide (we_Source e = WalletSourceOther)) && entry_type_ok e.

(** INSERT INTO inference_wallet_entries: the new row takes the next id. *)
Definition insert_entry (e : WalletEntry) (db : DB) : res DB :=
  let? _ := check (entry_row_ok e) in
  let? _ := unique (forallb (fun o => negb (bool_decide (we_BusinessKey o = we_BusinessKey e))) (entries db)) in
  let? _ := unique (match we_ReversesEntryID e with
                    | None => true
                    | Some id => forallb (fun o => negb (bool_decide (we_ReversesEntryID o = Some id))) (entries db)
                    end) in
  let? _ := references (has (wallets db) (we_WalletID e) && has_opt (requests db) (we_RequestID e)
                        && has_opt (holds db) (we_HoldID e)
                        && match we_AdjustmentID e with
                           | None => true
                           | Some a => existsb (fun x => bool_decide (ad_ID x = a)) (adjustments db) end
                        && match we_ReversesEntryID e with
                           | None => true
                           | Some id => existsb (fun o => we_ID o =? id) (entries db) end) in
  Ok (set_entries (entries db ++ [e]) db).

(** ** Freeze *)

Record ReserveWalletCommand := mkReserveWallet {
  rw_Request : Request;
  rw_WalletID : string;
  rw_HoldMicros : Z;
  rw_PriceVersionID : string;
  rw_AdmittedAt : instant;
  rw_MonthStart : instant;
  rw_MonthEnd : instant;
}.

Definition insert_hold (h : WalletHold) (db : DB) : res DB :=
  fail_if bool_decide (wh_PriceVersionID h = "") with mapError InvalidSyntax;
  let? _ := check ((0 <=? wh_AmountMicros h) && (0 <=? wh_CashMicros h) && (0 <=? wh_BonusMicros h)
                   && (wh_CashMicros h + wh_BonusMicros h =? wh_AmountMicros h)) in
  let? hs := insert_row (wh_ID h) h (holds db) in
  let? _ := unique (forallb (fun o => negb (bool_decide (wh_RequestID o = wh_RequestID h)))
                      (map_to_list (holds db)).*2) in
  let? _ := references (has (wallets db) (wh_WalletID h) && has (requests db) (wh_RequestID h)
                        && extern db TPriceVersions (wh_PriceVersionID h)) in
  Ok (set_holds hs db).

Definition ReserveWallet (holdID rvID : string) (now : instant) (cmd : ReserveWalletCommand) (db : DB)
  : res (Admission * DB) :=
  let r := rw_Request cmd in
  let hold := rw_HoldMicros cmd in
  fail_if hold <? 0 with WrapError CodeInvalidInput (ESentinel ErrNegativeValue);
  let? _ := lockAccountTx (r_BillingAccountID r) db in
  let? wallet := lockWalletTx (rw_WalletID cmd) db in
  guard bool_decide (wa_BillingAccountID wallet = r_BillingAccountID r) else NewError CodeInvalidInput;
  let? sums := walletSumsLocked (wa_ID wallet) db in
  let? spent := monthSpendLocked (wa_ID wallet) (rw_MonthStart cmd) (rw_MonthEnd cmd) db in
  let? _ := CheckWalletSpend (Settings wallet) (add64 (add64 spent (HeldCash sums)) (HeldBonus sums)) hold in
  let? bal := DeriveWalletBalance (wa_Currency wallet) sums in
  let? (cash, bonus) :=
    if 0 <? hold then SplitFreeze (BonusAvailable bal) (CashAvailable bal) hold else Ok (0, 0) in
  let price := if bool_decide (rw_PriceVersionID cmd = "") then r_PriceVersionID r
               else Some (rw_PriceVersionID cmd) in
  let req := admit_request r (rw_AdmittedAt cmd) hold (Some ChargeSourceWallet) price in
  let? db := insertRequest req now db in
  let? db := insert_hold (mkHold holdID (wa_ID wallet) (r_ID req) hold cash bonus
                            (rw_PriceVersionID cmd) ReservationHeld) db in
  let rv := mkReservation rvID (r_ID req) TargetWallet None None hold ReservationHeld in
  let? db := insert_reservation rv db in
  Ok (mkAdmission (r_ID req) [rv], db).

(** ** Settlement of a freeze *)

Definition find_hold (requestID : string) (db : DB) : option WalletHold :=
  head (rows (holds db) (fun h => bool_decide (wh_RequestID h = requestID))).

(** [write] of settleWalletLocked: a zero part leaves no row. *)
Definition write_consume (h : WalletHold) (currency : string) (now : instant) (src : WalletSource)
    (micros : Z) (db : DB) : res DB :=
  if micros =? 0 then Ok db else
  let? m := NewMoney micros currency in
  let? _ := ValidateWalletEntry (mkSpec EntryConsume DirDebit src m) in
  insert_entry (mkEntry (next_serial (entries db)) (wh_WalletID h) EntryConsume DirDebit src micros currency
                  (Some (wh_RequestID h)) (Some (wh_ID h)) None None None None
                  (WalletConsumeKey (wh_RequestID h) src) "system" now) db.

Definition settleWalletLocked (requestID : string) (charge : Money) (now : instant) (db : DB) : res DB :=
  match find_hold requestID db with
  | None => db_fail ErrNoRows
  | Some h =>
      let? w := select_one (wh_WalletID h) (wallets db) in
      guard bool_decide (Currency charge = wa_Currency w)
        else WrapError CodeInvalidInput (ESentinel ErrCurrencyMismatch);
      let? (consumeCash, consumeBonus, extraCash) :=
        SplitConsume (wh_CashMicros h) (wh_BonusMicros h) (Micros charge) in
      let? db := write_consume h (wa_Currency w) now WalletBonus consumeBonus db in
      let? db := write_consume h (wa_Currency w) now WalletCash (add64 consumeCash extraCash) db in
      guard bool_decide (wh_State h = ReservationHeld) else NewError CodeConflict;
      Ok (set_holds (<[wh_ID h := set_wh_State ReservationSettled h]> (holds db)) db)
  end.

(** ** Payments *)

Record WalletTopupCommand := mkTopup {
  wt_AccountID : string; wt_Currency : string; wt_AmountMicros : Z; wt_PaymentID : string;
  wt_OrderID : string;
}.

Definition CreditTopupTx (newID : string) (now : instant) (cmd : WalletTopupCommand) (db : DB) : res DB :=
  let? m := NewMoney (wt_AmountMicros cmd) (wt_Currency cmd) in
  fail_if Micros m <=? 0 with WrapError CodeInvalidInput (ESentinel ErrNegativeValue);
  let? _ := ValidateWalletEntry (mkSpec EntryTopup DirCredit WalletCash m) in
  let? _ := lockAccountTx (wt_AccountID cmd) db in
  let by_ := "payment:" +:+ wt_PaymentID cmd in
  let? (wallet, _, db) := getOrCreateWalletLocked newID (wt_AccountID cmd) (wt_Currency cmd) by_ db in
  let? _ := lockWalletTx (wa_ID wallet) db in
  insert_entry (mkEntry (next_serial (entries db)) (wa_ID wallet) EntryTopup DirCredit WalletCash
                  (Micros m) (Currency m) None None (Some (wt_PaymentID cmd)) None None None
                  (WalletTopupKey (wt_PaymentID cmd)) by_ now) db.

Record WalletRefundCommand := mkRefund {
  wf_AccountID : string; wf_Currency : string; wf_AmountMicros : Z; wf_RefundID : string; wf_PaymentID : string;
}.

Definition RefundWalletTx (now : instant) (cmd : WalletRefundCommand) (db : DB) : res DB :=
  let? m := NewMoney (wf_AmountMicros cmd) (wf_Currency cmd) in
  fail_if Micros m <=? 0 with WrapError CodeInvalidInput (ESentinel ErrNegativeValue);
  let? _ := ValidateWalletEntry (mkSpec EntryRefund DirDebit WalletCash m) in
  let? _ := lockAccountTx (wf_AccountID cmd) db in
  let? row := GetWalletByAccount (wf_AccountID cmd) (wf_Currency cmd) db in
  insert_entry (mkEntry (next_serial (entries db)) (wa_ID row) EntryRefund DirDebit WalletCash
                  (Micros m) (Currency m) None None (Some (wf_PaymentID cmd)) (Some (wf_RefundID cmd))
                  None None (WalletRefundKey (wf_RefundID cmd)) ("refund:" +:+ wf_RefundID cmd) now) db.

(** ** Operator adjustments and reversals *)

(** INSERT INTO inference_adjustments: amount > 0, currency iff money,
    UNIQUE(idempotency_key). *)
Definition insert_adjustment (a : Adjustment) (db : DB) : res DB :=
  let? _ := check ((0 <? ad_AmountMicros a)
                   && match ad_Unit a, ad_Currency a with
                      | UnitMicrocredit, None => true
                      | UnitMicromoney, Some c => validCurrency c
                      | _, _ => false end
                   && negb (bool_decide (ad_Source a = Some WalletSourceOther))) in
  let? _ := unique (forallb (fun o => negb (bool_decide (ad_ID o = ad_ID a))
                                      && negb (bool_decide (ad_IdempotencyKey o = ad_IdempotencyKey a)))
                      (adjustments db)) in
  let? _ := references (has (accounts db) (ad_BillingAccountID a) && has_opt (requests db) (ad_RequestID a)) in
  Ok (set_adjustments (adjustments db ++ [a]) db).

Record WalletAdjustmentCommand := mkWalletAdjustment {
  wj_AccountID : string; wj_Currency : string; wj_Source : WalletSource; wj_Direction : WalletDirection;
  wj_AmountMicros : Z; wj_Reason : string; wj_OperatorSubject : string; wj_ServiceSubject : string;
  wj_IdempotencyKey : string;
}.

Definition ApplyWalletAdjustmentTx (newWalletID adjID : string) (now : instant)
    (cmd : WalletAdjustmentCommand) (db : DB) : res (Adjustment * DB) :=
  fail_if bool_decide (wj_Reason cmd = "") || bool_decide (wj_OperatorSubject cmd = "")
          || bool_decide (wj_IdempotencyKey cmd = "") with NewError CodeInvalidInput;
  let? m := NewMoney (wj_AmountMicros cmd) (wj_Currency cmd) in
  fail_if Micros m <=? 0 with WrapError CodeInvalidInput (ESentinel ErrNegativeValue);
  let? _ := ValidateWalletEntry (mkSpec EntryAdjustment (wj_Direction cmd) (wj_Source cmd) m) in
  let? _ := lockAccountTx (wj_AccountID cmd) db in
  let by_ := "operator:" +:+ wj_OperatorSubject cmd in
  let? (wallet, _, db) := getOrCreateWalletLocked newWalletID (wj_AccountID cmd) (wj_Currency cmd) by_ db in
  let? _ := lockWalletTx (wa_ID wallet) db in
  let adj := mkAdjustment adjID (wj_AccountID cmd) None (wj_Reason cmd) (Micros m) (wj_Direction cmd)
               UnitMicromoney (Some (Currency m)) (Some (wj_Source cmd)) (wj_OperatorSubject cmd)
               (wj_ServiceSubject cmd) (wj_IdempotencyKey cmd) in
  let? db := insert_adjustment adj db in
  let? db := insert_entry (mkEntry (next_serial (entries db)) (wa_ID wallet) EntryAdjustment
                             (wj_Direction cmd) (wj_Source cmd) (Micros m) (Currency m) None None None None
                             (Some adjID) None (WalletAdjustmentKey (wj_IdempotencyKey cmd)) by_ now) db in
  Ok (adj, db).

Definition ReverseWalletEntryTx (accountID : string) (entryID : Z) (operatorSubject : string)
    (now : instant) (db : DB) : res DB :=
  let? _ := lockAccountTx accountID db in
  match List.find (fun e => we_ID e =? entryID) (entries db) with
  | None => db_fail ErrNoRows
  | Some orig =>
      let? w := select_one (we_WalletID orig) (wallets db) in
      guard bool_decide (wa_BillingAccountID w = accountID) else NewError CodeInvalidInput;
      let? m := NewMoney (we_AmountMicros orig) (we_Currency orig) in
      let? rev := ReversalOf (mkSpec (we_EntryType orig) (we_Direction orig) (we_Source orig) m) in
      let? _ := lockWalletTx (we_WalletID orig) db in
      insert_entry (mkEntry (next_serial (entries db)) (we_WalletID orig) EntryReversal (s_Direction rev)
                      (s_Source rev) (Micros m) (Currency m) None None None None None (Some entryID)
                      (WalletReversalKey entryID) ("operator:" +:+ operatorSubject) now) db
  end.
