(* ===== verification/LedgerStore.v ===== *)
(** * LedgerStore: settlement, parking, corrections and the ledger

    [internal/inference/postgres/ledger_repo.go] (settlement on both charge
    sources, parking for reconciliation, operator adjustments) and
    [reconciliation_repo.go] (the job queue, corrections of a settled estimate,
    and the rebuild of window aggregates from the ledger). *)

From Stdlib Require Import ZArith Lia Bool.
From stdpp Require Import base gmap strings pretty list.
From S2P Require Import Prelude Domain Money Calendar Window Pricing WalletRules Tables.
From S2P Require Import RequestStore QuotaStore WalletStore.

Local Open Scope Z_scope.
Local Open Scope go_scope.

(** ** The ledger table *)

Definition is_charge_of (requestID : string) (e : LedgerEntry) : bool :=
  bool_decide (le_EntryType e = LedgerCharge) && bool_decide (le_RequestID e = Some requestID).

(** INSERT INTO inference_ledger_entries, with the partial unique index on
    charges and the amount CHECK of migration 031. *)
Definition insert_ledger (e : LedgerEntry) (db : DB) : res DB :=
  let? _ := check ((if bool_decide (le_EntryType e = LedgerCharge) then 0 <=? le_AmountMicros e
                    else 0 <? le_AmountMicros e)
                   && match le_Unit e, le_Currency e with
                      | UnitMicrocredit, None => true
                      | UnitMicromoney, Some c => validCurrency c
                      | _, _ => false end) in
  let? _ := unique (negb (bool_decide (le_EntryType e = LedgerCharge))
                    || match le_RequestID e with
                       | None => true
                       | Some r => forallb (fun o => negb (is_charge_of r o)) (ledger db) end) in
  let? _ := references (has (accounts db) (le_BillingAccountID e) && has_opt (requests db) (le_RequestID e)
                        && match le_PriceVersionID e with
                           | Some p => extern db TPriceVersions p | None => true end
                        && match le_AdjustmentID e with
                           | None => true
                           | Some a => existsb (fun x => bool_decide (ad_ID x = a)) (adjustments db) end
                        && match le_ReversesEntryID e with
                           | None => true
                           | Some id => existsb (fun o => le_ID o =? id) (ledger db) end) in
  Ok (set_ledger (ledger db ++ [e]) db).

(** ** Settlement *)

Record SettleCommand := mkSettle {
  sc_RequestID : string;
  sc_Usage : UsageRecord;
  sc_ChargeMicros : Microcredit;
  sc_WalletCharge : option Money;
  sc_AttemptID : option string;
  sc_AttemptCost : option Money;
  sc_CostBasis : option CostBasis;
  sc_SettledAt : instant;
}.

Definition finalized (r : Request) : bool :=
  bool_decide (r_Status r = Some ReqSettled) || bool_decide (r_Status r = Some ReqReleased).

(** Key budget: [used - hold + charge], never negative. *)
Definition settle_key (id : string) (hold charge : Z) (db : DB) : res DB :=
  match keys db !! id with
  | None => Err (WrapError CodeConflict EForeign)
  | Some k =>
      let? a := sql_int (k_BudgetUsed k - hold) in
      let? used := sql_int (a + charge) in
      guard 0 <=? used else WrapError CodeConflict EForeign;
      Ok (set_keys (<[id := mkKey (k_BudgetLimit k) used]> (keys db)) db)
  end.

(** Window: reserved to used, by the actual charge. *)
Definition settle_window (id : string) (hold charge : Z) (db : DB) : res DB :=
  match windows db !! id with
  | None => Err (WrapError CodeConflict EForeign)
  | Some w =>
      guard negb (w_Voided w) && (hold <=? w_Reserved w) else WrapError CodeConflict EForeign;
      let? used := sql_int (w_Used w + charge) in
      Ok (set_windows (<[id := set_w_Counters used (w_Reserved w - hold) w]> (windows db)) db)
  end.

Definition settle_target (charge : Z) (rv : Reservation) (db : DB) : res DB :=
  match rv_TargetKind rv with
  | TargetKeyBudget => let? id := deref (rv_APIKeyID rv) in settle_key id (rv_Amount rv) charge db
  | _ => let? id := deref (rv_WindowID rv) in settle_window id (rv_Amount rv) charge db
  end.

Definition settle_one (charge : Z) (db : DB) (rv : Reservation) : res DB :=
  let? db := settle_target charge rv db in
  flip_reservation (rv_ID rv) ReservationSettled db.

(** The optional attempt-cost UPDATE; a missing attempt changes nothing. *)
Definition settle_attempt_cost (cmd : SettleCommand) (db : DB) : res DB :=
  match sc_AttemptID cmd, sc_AttemptCost cmd, sc_CostBasis cmd with
  | Some id, Some m, Some b =>
      match attempts db !! id with
      | None => Ok db
      | Some a =>
          let? _ := check ((0 <=? Micros m) && validCurrency (Currency m)) in
          Ok (set_attempts (<[id := mkAttempt (at_ID a) (at_RequestID a) (at_AttemptNo a) (at_Status a)
                (at_UpstreamRequestID a) (at_ErrorKind a) (Some m) (Some b) (at_StartedAt a)
                (at_FinishedAt a)]> (attempts db)) db)
      end
  | _, _, _ => Ok db
  end.

(** The terminal UPDATE of the request row. *)
Definition settle_request (cmd : SettleCommand) (charge : Z) (now : instant) (db : DB) : res DB :=
  let? _ := check (0 <=? charge) in
  Ok (set_requests (alter (fun r => set_r_CompletedAt (sc_SettledAt cmd)
                              (set_r_Usage (Some charge) (u_Source (sc_Usage cmd))
                                 (set_r_Status ReqSettled now r)))
                          (sc_RequestID cmd) (requests db)) db).

(** [UPDATE ... WHERE request_id AND target_kind = 'wallet' AND state = 'held']. *)
Definition settle_wallet_reservation (requestID : string) (db : DB) : res DB :=
  let p := fun rv => bool_decide (rv_RequestID rv = requestID)
                     && bool_decide (rv_TargetKind rv = TargetWallet)
                     && bool_decide (rv_State rv = ReservationHeld) in
  match rows (reservations db) p with
  | [] => Err (NewError CodeConflict)
  | _ => Ok (set_reservations ((fun rv => if p rv then set_rv_State ReservationSettled rv else rv)
                                 <$> reservations db) db)
  end.

Definition settleWallet (cmd : SettleCommand) (r : Request) (now : instant) (db : DB) : res DB :=
  fail_if sc_ChargeMicros cmd <? 0 with WrapError CodeInvalidInput (ESentinel ErrNegativeValue);
  let? db := insertUsageRecord (sc_Usage cmd) db in
  let? charge := match sc_WalletCharge cmd with
    | Some m => Ok m
    | None =>
        match find_hold (sc_RequestID cmd) db with
        | None => db_fail ErrNoRows
        | Some h => let? w := select_one (wh_WalletID h) (wallets db) in
                    NewMoney (sc_ChargeMicros cmd) (wa_Currency w)
        end
    end in
  guard Micros charge =? sc_ChargeMicros cmd else NewError CodeInvalidInput;
  let? db := insert_ledger (mkLedger (next_serial (ledger db)) (r_BillingAccountID r)
               (Some (sc_RequestID cmd)) LedgerCharge (Micros charge) UnitMicromoney
               (Some (Currency charge)) (r_PriceVersionID r) None None "system") db in
  let? db := settleWalletLocked (sc_RequestID cmd) charge now db in
  let? db := settle_wallet_reservation (sc_RequestID cmd) db in
  let? db := settle_attempt_cost cmd db in
  settle_request cmd (Micros charge) now db.

Definition settlePlan (cmd : SettleCommand) (r : Request) (now : instant) (db : DB) : res DB :=
  let? db := insertUsageRecord (sc_Usage cmd) db in
  let? db := insert_ledger (mkLedger (next_serial (ledger db)) (r_BillingAccountID r)
               (Some (sc_RequestID cmd)) LedgerCharge (sc_ChargeMicros cmd) UnitMicrocredit None
               (r_PriceVersionID r) None None "system") db in
  let rvs := loadHeldReservations (sc_RequestID cmd) db in
  fail_if bool_decide (rvs = []) with NewError CodeConflict;
  let? db := rfold (settle_one (sc_ChargeMicros cmd)) db rvs in
  let? db := settle_attempt_cost cmd db in
  settle_request cmd (sc_ChargeMicros cmd) now db.

Definition Settle (cmd : SettleCommand) (now : instant) (db : DB) : res DB :=
  fail_if sc_ChargeMicros cmd <? 0 with WrapError CodeInvalidInput (ESentinel ErrNegativeValue);
  let? r := select_one (sc_RequestID cmd) (requests db) in
  fail_if finalized r with NewError CodeConflict;
  if bool_decide (r_ChargeSource r = Some ChargeSourceWallet)
  then settleWallet cmd r now db
  else settlePlan cmd r now db.

(** ** Reconciliation jobs *)

Definition job_reasons : list string :=
  ["unknown_usage"; "crash_recovery"; "ledger_mismatch"; "manual"; "settlement_overage"].

Record EnqueueReconciliationCommand := mkEnqueue {
  eq_RequestID : option string;
  eq_WindowID : string;
  eq_Reason : string;
  eq_Detail : gmap string string;
  eq_Deadline : instant;
}.

Definition default_detail : gmap string string := {[ "schema_version" := "1" ]}.

(** [a || b] of jsonb objects: the keys of [b] win. *)
Definition merge_detail (a b : gmap string string) : gmap string string := b ∪ a.

(** The ON CONFLICT (request_id) branch: a new reason reopens a closed job. *)
Definition refresh_job (cmd : EnqueueReconciliationCommand) (j : ReconciliationJob) : ReconciliationJob :=
  let reopen := (bool_decide (j_Status j = JobResolved) || bool_decide (j_Status j = JobEscalated))
                && negb (bool_decide (j_Reason j = eq_Reason cmd)) in
  mkJob (j_ID j) (j_RequestID j) (if reopen then eq_Reason cmd else j_Reason j)
    (if reopen then JobPending else j_Status j) (merge_detail (j_Detail j) (eq_Detail cmd))
    (Z.max (j_DeadlineAt j) (eq_Deadline cmd)) (if reopen then None else j_ResolvedAt j).

Definition mergeWindowDetail (detail : gmap string string) (windowID : string) : gmap string string :=
  <["window_id" := json_string windowID]> (detail ∪ default_detail).

Definition window_job (reason windowID : string) (j : ReconciliationJob) : bool :=
  bool_decide (j_RequestID j = None) && bool_decide (j_Reason j = reason)
  && bool_decide (j_Detail j !! "window_id" = Some (json_string windowID)) && job_open j.

Definition EnqueueReconciliationJobTx (newID : string) (cmd : EnqueueReconciliationCommand) (db : DB)
  : res DB :=
  let detail := if bool_decide (eq_Detail cmd = ∅) then default_detail else eq_Detail cmd in
  let cmd := mkEnqueue (eq_RequestID cmd) (eq_WindowID cmd) (eq_Reason cmd) detail (eq_Deadline cmd) in
  let? _ := check (bool_decide (eq_Reason cmd ∈ job_reasons)) in
  match eq_RequestID cmd with
  | Some rid =>
      let? _ := references (has (requests db) rid) in
      if existsb (fun j => bool_decide (j_RequestID j = Some rid)) (jobs db)
      then Ok (set_jobs (map (fun j => if bool_decide (j_RequestID j = Some rid)
                                       then refresh_job cmd j else j) (jobs db)) db)
      else Ok (set_jobs (jobs db ++ [mkJob newID (Some rid) (eq_Reason cmd) JobPending detail
                                       (eq_Deadline cmd) None]) db)
  | None =>
      fail_if bool_decide (eq_WindowID cmd = "") with NewError CodeInvalidInput;
      let windowed := mergeWindowDetail detail (eq_WindowID cmd) in
      if existsb (window_job (eq_Reason cmd) (eq_WindowID cmd)) (jobs db)
      then Ok (set_jobs (map (fun j => if window_job (eq_Reason cmd) (eq_WindowID cmd) j
                                       then set_j_Status (j_Status j) (j_ResolvedAt j)
                                              (merge_detail (j_Detail j) windowed) j
                                       else j) (jobs db)) db)
      else if existsb (window_job "ledger_mismatch" (eq_WindowID cmd)) (jobs db)
              && bool_decide (eq_Reason cmd = "ledger_mismatch")
           then Ok db
           else Ok (set_jobs (jobs db ++ [mkJob newID None (eq_Reason cmd) JobPending windowed
                                            (eq_Deadline cmd) None]) db)
  end.

Definition MarkReconciliationRequired (newID requestID reason : string) (deadline now : instant) (db : DB)
  : res DB :=
  match requests db !! requestID with
  | None => db_fail ErrNoRows
  | Some r =>
      if finalized r then Ok db else
      let r' := set_r_LastError reason
                  (set_r_Usage (r_SettledMicros r) UsageUnknown (set_r_Status ReqReconciliationRequired now r)) in
      EnqueueReconciliationJobTx newID (mkEnqueue (Some requestID) "" reason ∅ deadline)
        (set_requests (<[requestID := r']> (requests db)) db)
  end.

(** The overdue open jobs, oldest deadline first, at most [limit]. *)
Definition overdue_ids (now : instant) (limit : Z) (db : DB) : list string :=
  let limit := if limit <=? 0 then 100 else limit in
  map j_ID (take (Z.to_nat limit)
    (sort_by j_DeadlineAt (List.filter (fun j => job_open j && (j_DeadlineAt j <=? now)) (jobs db)))).

Definition EscalateOverdueReconciliationJobs (now : instant) (limit : Z) (db : DB) : list string * DB :=
  let ids := overdue_ids now limit db in
  (ids, set_jobs (map (fun j => if bool_decide (j_ID j ∈ ids)
                                then set_j_Status JobEscalated (j_ResolvedAt j) (j_Detail j) j else j)
                    (jobs db)) db).

Definition ResolveReconciliationJob (id note : string) (now : instant) (db : DB) : res DB :=
  let p := fun j => bool_decide (j_ID j = id) && negb (bool_decide (j_Status j = JobResolved)) in
  guard existsb p (jobs db) else NewError CodeConflict;
  Ok (set_jobs (map (fun j => if p j then set_j_Status JobResolved (Some now)
                                            (merge_detail (j_Detail j)
                                               {[ "schema_version" := "1"; "resolution" := json_string note ]}) j
                              else j) (jobs db)) db).

(** ** Operator adjustments *)

Definition AppendAdjustment (newID : string) (adj : Adjustment) (db : DB) : res (Adjustment * DB) :=
  let adj := mkAdjustment (if bool_decide (ad_ID adj = "") then newID else ad_ID adj)
               (ad_BillingAccountID adj) (ad_RequestID adj) (ad_Reason adj) (ad_AmountMicros adj)
               (ad_Direction adj) (ad_Unit adj) (ad_Currency adj) None (ad_OperatorSubject adj)
               (ad_ServiceSubject adj) (ad_IdempotencyKey adj) in
  let? db := insert_adjustment adj db in
  let? db := insert_ledger (mkLedger (next_serial (ledger db)) (ad_BillingAccountID adj) (ad_RequestID adj)
               LedgerAdjustment (ad_AmountMicros adj) (ad_Unit adj) (ad_Currency adj) None None
               (Some (ad_ID adj)) ("operator:" +:+ ad_OperatorSubject adj)) db in
  Ok (adj, db).

(** ** Correction of a settled estimate *)

Record CorrectionCommand := mkCorrection {
  cc_RequestID : string;
  cc_Corrected : UsageRecord;
  cc_CorrectedMicros : Microcredit;
  cc_Reason : string;
  cc_OperatorSubject : string;
  cc_IdempotencyKey : string;
  cc_At : instant;
}.

(** [used + delta], refused below zero. *)
Definition correct_window (signed : Z) (db : DB) (id : option string) : res DB :=
  match id with
  | None => Ok db
  | Some id =>
      match windows db !! id with
      | None => Err (NewError CodeConflict)
      | Some w =>
          let? used := sql_int (w_Used w + signed) in
          guard 0 <=? used else NewError CodeConflict;
          Ok (set_windows (<[id := set_w_Counters used (w_Reserved w) w]> (windows db)) db)
      end
  end.

Definition correct_key (signed : Z) (id : option string) (db : DB) : res DB :=
  match id with
  | None => Ok db
  | Some id =>
      match keys db !! id with
      | None => Err (NewError CodeConflict)
      | Some k =>
          let? used := sql_int (k_BudgetUsed k + signed) in
          guard 0 <=? used else NewError CodeConflict;
          Ok (set_keys (<[id := mkKey (k_BudgetLimit k) used]> (keys db)) db)
      end
  end.

Definition evidence_job (j : ReconciliationJob) : bool :=
  bool_decide (j_Reason j ∈ ["crash_recovery"; "unknown_usage"]).
Definition overage_job (j : ReconciliationJob) : bool := bool_decide (j_Reason j = "settlement_overage").

(** Step 9: the hold re-check. [clock] is the system time used when [At] is zero. *)
Definition correct_overage (newID : string) (cmd : CorrectionCommand) (reserved : option Z)
    (clock now : instant) (db : DB) : res DB :=
  match reserved with
  | None => Ok db
  | Some resv =>
      if resv <? cc_CorrectedMicros cmd
      then
        let detail : gmap string string :=
          {[ "schema_version" := "1"; "reserved_micros" := pretty resv;
             "charge_micros" := pretty (cc_CorrectedMicros cmd);
             "over_micros" := pretty (sub64 (cc_CorrectedMicros cmd) resv);
             "origin" := json_string "correction" ]} in
        let deadline := time_add (if IsZero (cc_At cmd) then clock else cc_At cmd) (24 * hour) in
        EnqueueReconciliationJobTx newID (mkEnqueue (Some (cc_RequestID cmd)) "" "settlement_overage"
                                            detail deadline) db
      else Ok (resolve_jobs (cc_RequestID cmd) overage_job
                 {[ "resolution" := json_string ("correction brought the charge within the hold: "
                                                +:+ cc_Reason cmd) ]} now db)
  end.

Definition CorrectSettlement (adjID jobID : string) (clock now : instant) (cmd : CorrectionCommand) (db : DB)
  : res DB :=
  fail_if bool_decide (cc_IdempotencyKey cmd = "") || bool_decide (cc_OperatorSubject cmd = "")
          || bool_decide (cc_Reason cmd = "") with NewError CodeInvalidInput;
  fail_if existsb (fun a => bool_decide (ad_IdempotencyKey a = cc_IdempotencyKey cmd)) (adjustments db)
    with NewError CodeConflict;
  let? r := select_one (cc_RequestID cmd) (requests db) in
  fail_if bool_decide (r_ChargeSource r = Some ChargeSourceWallet) with NewError CodeInvalidInput;
  guard bool_decide (r_Status r = Some ReqSettled) else NewError CodeConflict;
  match r_SettledMicros r with
  | None => Err (NewError CodeConflict)
  | Some base =>
      let? (direction, delta) := CorrectionDelta base (cc_CorrectedMicros cmd) in
      match List.find (is_charge_of (cc_RequestID cmd)) (ledger db) with
      | None => db_fail ErrNoRows
      | Some charge =>
          let u := cc_Corrected cmd in
          let? db := insertUsageRecord (mkUsage (cc_RequestID cmd) (u_AttemptID u) (u_Source u) (u_Buckets u)
                       (LatestUsageRevision (u_AttemptID u) db + 1)) db in
          let dir := match direction with DirectionDebit => DirDebit | DirectionCredit => DirCredit end in
          let? db := insert_adjustment (mkAdjustment adjID (r_BillingAccountID r) (Some (cc_RequestID cmd))
                       (cc_Reason cmd) delta dir UnitMicrocredit None None (cc_OperatorSubject cmd)
                       "inference-reconciliation" (cc_IdempotencyKey cmd)) db in
          let by_ := "system:" +:+ cc_OperatorSubject cmd in
          let? db := insert_ledger
            (if (cc_CorrectedMicros cmd =? 0) && (0 <? base)
             then mkLedger (next_serial (ledger db)) (r_BillingAccountID r) (Some (cc_RequestID cmd))
                    LedgerReversal base UnitMicrocredit None None (Some (le_ID charge)) (Some adjID) by_
             else mkLedger (next_serial (ledger db)) (r_BillingAccountID r) (Some (cc_RequestID cmd))
                    LedgerAdjustment delta UnitMicrocredit None None None (Some adjID) by_) db in
          let signed := match direction with DirectionDebit => delta | DirectionCredit => neg64 delta end in
          let? db := rfold (correct_window signed) db
                       [r_WindowFiveHourID r; r_WindowWeeklyID r; r_WindowMonthlyID r] in
          let? db := correct_key signed (r_APIKeyID r) db in
          let? _ := check (0 <=? cc_CorrectedMicros cmd) in
          let r' := mkRequest (r_ID r) (r_BillingAccountID r) (r_APIKeyID r) (r_EntitlementID r) (r_ModelID r)
                      (r_Status r) (r_AdmittedAt r) (r_PriceVersionID r) (r_PolicyVersionID r)
                      (r_WindowFiveHourID r) (r_WindowWeeklyID r) (r_WindowMonthlyID r)
                      (r_ReservedMicros r) (Some (cc_CorrectedMicros cmd)) (r_ChargeSource r)
                      (Some (u_Source u)) (r_InputBoundTokens r) (r_OutputCapTokens r) (r_ExtraBounds r)
                      (r_LastError r) now (r_CompletedAt r) in
          let db := set_requests (<[cc_RequestID cmd := r']> (requests db)) db in
          let db := resolve_jobs (cc_RequestID cmd) evidence_job
                      {[ "resolution" := json_string ("corrected by real evidence: " +:+ cc_Reason cmd) ]}
                      now db in
          correct_overage jobID cmd (r_ReservedMicros r) clock now db
      end
  end.

(** ** Rebuilding the aggregates *)

Definition bound_to (wid : string) (r : Request) : bool :=
  bool_decide (r_WindowFiveHourID r = Some wid) || bool_decide (r_WindowWeeklyID r = Some wid)
  || bool_decide (r_WindowMonthlyID r = Some wid).

(** The CASE of the rebuild query; the adjustment row gives the sign. *)
Definition ledger_effect (adjs : list Adjustment) (e : LedgerEntry) : Z :=
  if negb (bool_decide (le_Unit e = UnitMicrocredit)) then 0 else
  match le_EntryType e with
  | LedgerCharge => le_AmountMicros e
  | LedgerReversal => - le_AmountMicros e
  | LedgerAdjustment =>
      match List.find (fun a => bool_decide (le_AdjustmentID e = Some (ad_ID a))) adjs with
      | Some a => match ad_Direction a with DirDebit => le_AmountMicros e | DirCredit => - le_AmountMicros e end
      | None => 0
      end
  end.

Definition ledger_net (db : DB) (requestID : string) : Z :=
  lsum (fun e => if bool_decide (le_RequestID e = Some requestID) then ledger_effect (adjustments db) e else 0)
    (ledger db).

Definition rebuilt_used (db : DB) (wid : string) : Z :=
  msum (fun id r => if bound_to wid r then ledger_net db id else 0) (requests db).

(** (window id, kind, stored, rebuilt) of every active window. *)
Definition ReconcileWindowAggregates (db : DB) : list (string * WindowKind * Z * Z) :=
  map (fun '(wid, w) => (wid, w_Kind w, w_Used w, rebuilt_used db wid))
    (List.filter (fun '(wid, w) => negb (w_Voided w)) (map_to_list (windows db))).
