(* ===== verification/Conservation.v ===== *)
(** * Conservation: the counters of windows and keys are sums of reservations

    The quota tables keep running counters (a window's used and reserved
    micros, a key's spent budget) beside the reservation rows. This file
    states what ties them together and shows that every statement of the
    store keeps it: the target of a reservation, the amount it holds or has
    spent there, and the conservation law [core]. *)

From Stdlib Require Import ZArith Lia Bool.
From stdpp Require Import base gmap strings list.
From S2P Require Import Prelude Domain Money Calendar Window WalletRules Tables RequestStore.
From S2P Require Import QuotaStore WalletStore LedgerStore.

Local Open Scope Z_scope.
Local Open Scope go_scope.

(** ** Targets *)

Inductive Target := TWindow (wid : string) | TKey (kid : string).

#[global] Instance Target_eq_dec : EqDecision Target.
Proof. solve_decision. Defined.

Definition target_of (rv : Reservation) : option Target :=
  match rv_TargetKind rv with
  | TargetKeyBudget => TKey <$> rv_APIKeyID rv
  | TargetWallet => None
  | _ => TWindow <$> rv_WindowID rv
  end.

Definition hold_target (h : HoldSpec) : option Target :=
  match h_TargetKind h with
  | TargetKeyBudget => TKey <$> h_APIKeyID h
  | _ => TWindow <$> h_WindowID h
  end.

(** What a reservation holds, and what a settled one has spent, at a target. *)
Definition held_at (t : Target) (_ : string) (rv : Reservation) : Z :=
  if bool_decide (target_of rv = Some t) && bool_decide (rv_State rv = ReservationHeld)
  then rv_Amount rv else 0.
Definition spent_at (paid : string -> Z) (t : Target) (_ : string) (rv : Reservation) : Z :=
  if bool_decide (target_of rv = Some t) && bool_decide (rv_State rv = ReservationSettled)
  then paid (rv_RequestID rv) else 0.
Definition pending_at (t : Target) (h : HoldSpec) : Z :=
  if bool_decide (hold_target h = Some t) then h_Amount h else 0.

(** Everything held at a target, by rows and by holds whose rows are not yet
    inserted; everything spent there by settled requests, which [paid] what. *)
Definition held (pend : list HoldSpec) (rvs : gmap string Reservation) (t : Target) : Z :=
  msum (held_at t) rvs + lsum (pending_at t) pend.
Definition spent (paid : string -> Z) (rvs : gmap string Reservation) (t : Target) : Z :=
  msum (spent_at paid t) rvs.

(** ** The law between counters and sums *)

Record law (H S : Target -> Z) (ws : gmap string QuotaWindow) (ks : gmap string ApiKeyRow) : Prop := {
  law_reserved : forall wid w, ws !! wid = Some w -> w_Reserved w = H (TWindow wid);
  law_used : forall wid w, ws !! wid = Some w -> w_Used w = S (TWindow wid);
  law_budget : forall kid k, ks !! kid = Some k -> k_BudgetUsed k = H (TKey kid) + S (TKey kid);
}.

(** A change of [d] at one target. *)
Definition at_target (t0 : Target) (d : Z) (t : Target) : Z := if decide (t = t0) then d else 0.

Lemma at_target_eq t d : at_target t d t = d.
Proof. unfold at_target. by rewrite decide_True. Qed.
Lemma at_target_ne t0 d t : t <> t0 -> at_target t0 d t = 0.
Proof. intros. unfold at_target. by rewrite decide_False. Qed.

Lemma law_ext H S H' S' ws ks :
  (forall t, H' t = H t) -> (forall t, S' t = S t) -> law H S ws ks -> law H' S' ws ks.
Proof. intros HH HS []. split; intros; rewrite ?HH, ?HS; eauto. Qed.

Lemma law_window H S H' S' ws ks wid w dU dR :
  law H S ws ks -> ws !! wid = Some w ->
  (forall t, H' t = H t + at_target (TWindow wid) dR t) ->
  (forall t, S' t = S t + at_target (TWindow wid) dU t) ->
  law H' S' (<[wid := set_w_Counters (w_Used w + dU) (w_Reserved w + dR) w]> ws) ks.
Proof.
  intros [Lr Lu Lk] Hw HH HS. split; intros *.
  - rewrite HH. intros [[<- <-]|[Hne Hl]]%lookup_insert_Some; simpl.
    + rewrite at_target_eq, (Lr _ _ Hw). done.
    + rewrite at_target_ne, (Lr _ _ Hl) by congruence. lia.
  - rewrite HS. intros [[<- <-]|[Hne Hl]]%lookup_insert_Some; simpl.
    + rewrite at_target_eq, (Lu _ _ Hw). done.
    + rewrite at_target_ne, (Lu _ _ Hl) by congruence. lia.
  - intros Hl. rewrite HH, HS, !at_target_ne, (Lk _ _ Hl) by done. lia.
Qed.

Lemma law_key H S H' S' ws ks kid k dS dH :
  law H S ws ks -> ks !! kid = Some k ->
  (forall t, H' t = H t + at_target (TKey kid) dH t) ->
  (forall t, S' t = S t + at_target (TKey kid) dS t) ->
  law H' S' ws (<[kid := mkKey (k_BudgetLimit k) (k_BudgetUsed k + dH + dS)]> ks).
Proof.
  intros [Lr Lu Lk] Hk HH HS. split; intros *.
  - intros Hl. rewrite HH, at_target_ne, (Lr _ _ Hl) by done. lia.
  - intros Hl. rewrite HS, at_target_ne, (Lu _ _ Hl) by done. lia.
  - rewrite HH, HS. intros [[<- <-]|[Hne Hl]]%lookup_insert_Some; simpl.
    + rewrite !at_target_eq, (Lk _ _ Hk). lia.
    + rewrite !at_target_ne, (Lk _ _ Hl) by congruence. lia.
Qed.

(** ** The rows *)

(** [act] tells which windows exist and are voided, [kd] which keys exist. *)
Record rows_ok (act : gmap string bool) (kd : gset string) (pend : list HoldSpec)
    (rvs : gmap string Reservation) : Prop := {
  row_wf : forall id rv, rvs !! id = Some rv ->
    rv_ID rv = id /\ 0 <= rv_Amount rv /\ target_refs_ok rv = true;
  row_window : forall id rv wid, rvs !! id = Some rv -> target_of rv = Some (TWindow wid) ->
    exists v, act !! wid = Some v /\ (rv_State rv = ReservationHeld -> v = false);
  row_key : forall id rv kid, rvs !! id = Some rv -> target_of rv = Some (TKey kid) -> kid ∈ kd;
  row_pend : forall h wid, h ∈ pend -> hold_target h = Some (TWindow wid) -> act !! wid = Some false;
  row_pend_amount : forall h, h ∈ pend -> 0 <= h_Amount h;
}.

Definition core (paid : string -> Z) (pend : list HoldSpec) (ws : gmap string QuotaWindow)
    (ks : gmap string ApiKeyRow) (rvs : gmap string Reservation) : Prop :=
  law (held pend rvs) (spent paid rvs) ws ks /\ rows_ok (w_Voided <$> ws) (dom ks) pend rvs.

(** Updating counters leaves the shape of the tables. *)
Lemma shape_counters (ws : gmap string QuotaWindow) wid w u r : ws !! wid = Some w ->
  w_Voided <$> (<[wid := set_w_Counters u r w]> ws) = w_Voided <$> ws.
Proof.
  intros Hw. rewrite fmap_insert. apply insert_id. rewrite lookup_fmap, Hw. done.
Qed.

Lemma dom_update (ks : gmap string ApiKeyRow) kid k k' : ks !! kid = Some k ->
  dom (<[kid := k']> ks) = dom ks.
Proof. intros Hk. apply dom_insert_lookup_L. eauto. Qed.

(** The CHECK on a row makes its columns agree with its target. *)
Lemma refs_target rv : target_refs_ok rv = true ->
  (forall wid, rv_WindowID rv = Some wid <-> target_of rv = Some (TWindow wid)) /\
  (forall kid, rv_APIKeyID rv = Some kid <-> target_of rv = Some (TKey kid)).
Proof.
  unfold target_refs_ok, target_of. destruct rv as [i r k w a m s]; simpl.
  destruct k, w, a; simpl; intros; try done; split; intros; split; congruence.
Qed.

Lemma core_paid_ext paid paid' pend ws ks rvs :
  (forall id rv, rvs !! id = Some rv -> rv_State rv = ReservationSettled ->
     paid' (rv_RequestID rv) = paid (rv_RequestID rv)) ->
  core paid pend ws ks rvs -> core paid' pend ws ks rvs.
Proof.
  intros Hp [L R]. split; [|done]. eapply law_ext; [done| |exact L].
  intros t. apply msum_ext. intros id rv Hl. unfold spent_at.
  case_bool_decide; [|done]. case_bool_decide; [|done]. simpl. eauto.
Qed.

Lemma core_pend_perm paid pend pend' ws ks rvs :
  pend ≡ₚ pend' -> core paid pend ws ks rvs -> core paid pend' ws ks rvs.
Proof.
  intros HP [L []]. split.
  - eapply law_ext; [|done|exact L]. intros t. unfold held. by rewrite HP.
  - split; try done; intros h; intros *; rewrite <- HP; eauto.
Qed.

(** ** How the sums move *)

Lemma held_cons pend rvs h t0 : hold_target h = Some t0 ->
  forall t, held (h :: pend) rvs t = held pend rvs t + at_target t0 (h_Amount h) t.
Proof.
  intros Ht t. unfold held, at_target. simpl. unfold pending_at at 1. rewrite Ht.
  destruct (decide (t = t0)) as [->|]; [rewrite bool_decide_eq_true_2 by done; lia|].
  rewrite bool_decide_eq_false_2 by congruence. lia.
Qed.

(** Moving a held row to another state. *)
Lemma held_flip pend rvs id rv s t0 :
  rvs !! id = Some rv -> rv_State rv = ReservationHeld -> s <> ReservationHeld ->
  target_of rv = Some t0 ->
  forall t, held pend (<[id := set_rv_State s rv]> rvs) t = held pend rvs t + at_target t0 (- rv_Amount rv) t.
Proof.
  intros Hl Hs Hne Ht t. unfold held. rewrite (msum_update _ _ _ _ _ Hl).
  unfold held_at, at_target. change (target_of (set_rv_State s rv)) with (target_of rv). rewrite Ht, Hs.
  change (rv_State (set_rv_State s rv)) with s. change (rv_Amount (set_rv_State s rv)) with (rv_Amount rv).
  repeat case_bool_decide; case_decide; simplify_eq; simpl; lia.
Qed.

Lemma spent_flip paid rvs id rv s t0 :
  rvs !! id = Some rv -> rv_State rv = ReservationHeld -> target_of rv = Some t0 ->
  forall t, spent paid (<[id := set_rv_State s rv]> rvs) t
    = spent paid rvs t
      + at_target t0 (if bool_decide (s = ReservationSettled) then paid (rv_RequestID rv) else 0) t.
Proof.
  intros Hl Hs Ht t. unfold spent. rewrite (msum_update _ _ _ _ _ Hl).
  unfold spent_at, at_target. change (target_of (set_rv_State s rv)) with (target_of rv). rewrite Ht, Hs.
  change (rv_State (set_rv_State s rv)) with s. change (rv_RequestID (set_rv_State s rv)) with (rv_RequestID rv).
  repeat case_bool_decide; case_decide; simplify_eq; simpl; lia.
Qed.

(** A wallet row holds nothing at a window or key. *)
Lemma sums_flip_none paid pend rvs id rv s :
  rvs !! id = Some rv -> target_of rv = None ->
  (forall t, held pend (<[id := set_rv_State s rv]> rvs) t = held pend rvs t) /\
  (forall t, spent paid (<[id := set_rv_State s rv]> rvs) t = spent paid rvs t).
Proof.
  intros Hl Ht. split; intros t; unfold held, spent; rewrite (msum_update _ _ _ _ _ Hl);
    unfold held_at, spent_at; change (target_of (set_rv_State s rv)) with (target_of rv); rewrite Ht;
    rewrite bool_decide_eq_false_2 by done; simpl; lia.
Qed.

(** Inserting the row of a pending hold, or a row without a target. *)
Lemma held_insert pend rvs h newID req :
  rvs !! newID (h_TargetKind h) = None -> target_refs_ok (reservation_of newID req h) = true ->
  hold_target h <> None ->
  forall t, held pend (<[newID (h_TargetKind h) := reservation_of newID req h]> rvs) t = held (h :: pend) rvs t.
Proof.
  intros Hf Hok Hn t. unfold held. rewrite msum_insert by done. simpl.
  assert (target_of (reservation_of newID req h) = hold_target h) as Heq.
  { unfold target_refs_ok, target_of, hold_target in *. simpl in *. destruct (h_TargetKind h); try done.
    destruct (h_WindowID h); done. }
  unfold held_at at 1, pending_at at 2. rewrite Heq. simpl.
  repeat case_bool_decide; simpl; lia.
Qed.

Lemma spent_insert paid rvs id rv :
  rvs !! id = None -> rv_State rv = ReservationHeld ->
  forall t, spent paid (<[id := rv]> rvs) t = spent paid rvs t.
Proof.
  intros Hf Hs t. unfold spent. rewrite msum_insert by done. unfold spent_at at 1. rewrite Hs.
  rewrite (bool_decide_eq_false_2 (ReservationHeld = _)), andb_false_r by done. lia.
Qed.

(** The rows after a flip. *)
Lemma rows_flip act kd pend rvs id rv s :
  rvs !! id = Some rv -> s <> ReservationHeld -> rows_ok act kd pend rvs ->
  rows_ok act kd pend (<[id := set_rv_State s rv]> rvs).
Proof.
  intros Hl Hs []. split; try done.
  - intros i r [[<- <-]|[_ Hi]]%lookup_insert_Some; [|eauto]. apply (row_wf0 _ _ Hl).
  - intros i r wid [[<- <-]|[_ Hi]]%lookup_insert_Some Ht; [|eauto].
    destruct (row_window0 _ _ wid Hl Ht) as (v & ? & _). exists v. split; [done|]. simpl. congruence.
  - intros i r kid [[<- <-]|[_ Hi]]%lookup_insert_Some Ht; [|eauto]. exact (row_key0 _ _ kid Hl Ht).
Qed.

(** ** Statements on the store *)

Definition conserved (paid : string -> Z) (pend : list HoldSpec) (db : DB) : Prop :=
  core paid pend (windows db) (keys db) (reservations db).

(** Only the counters of windows and keys differ. *)
Definition counters_only (db db' : DB) : Prop :=
  db' = set_windows (windows db') (set_keys (keys db') db) /\
  w_Voided <$> windows db' = w_Voided <$> windows db /\ dom (keys db') = dom (keys db).

Lemma counters_only_refl db : counters_only db db.
Proof. split; [by destruct db|done]. Qed.

Lemma counters_only_trans db1 db2 db3 :
  counters_only db1 db2 -> counters_only db2 db3 -> counters_only db1 db3.
Proof.
  intros (E1 & S1 & D1) (E2 & S2 & D2). split; [|by rewrite S2, D2].
  rewrite E2. rewrite E1. by destruct db1.
Qed.

Lemma sql_int_Ok z y : sql_int z = Ok y -> y = z /\ in_int64 z.
Proof.
  unfold sql_int, db_fail. intros H. inv_ok. by apply is_int64_true in E.
Qed.

(** A hold on a window: the row is live and has room. *)
Lemma hold_window_Some wid amount db db' :
  hold_window wid amount db = Ok (Some db') ->
  exists w, windows db !! wid = Some w /\ w_Voided w = false /\
    w_Used w + w_Reserved w + amount <= w_Limit w /\
    db' = set_windows (<[wid := set_w_Counters (w_Used w) (w_Reserved w + amount) w]> (windows db)) db.
Proof.
  unfold hold_window. intros H. destruct (windows db !! wid) as [w|] eqn:Hw; [|done].
  destruct (w_Voided w) eqn:Hv; [done|]. inv_ok.
  apply sql_int_Ok in E as [-> _]. apply sql_int_Ok in E0 as [-> _]. bool_prop. injection H as <-.
  by exists w.
Qed.

Lemma hold_key_Some kid amount db db' :
  hold_key kid amount db = Ok (Some db') ->
  exists k, keys db !! kid = Some k /\
    (forall l, k_BudgetLimit k = Some l -> k_BudgetUsed k + amount <= l) /\
    db' = set_keys (<[kid := mkKey (k_BudgetLimit k) (k_BudgetUsed k + amount)]> (keys db)) db.
Proof.
  unfold hold_key. intros H. destruct (keys db !! kid) as [k|] eqn:Hk; [|done]. inv_ok.
  apply sql_int_Ok in E as [-> _]. injection H as <-. exists k. split_and!; [done| |done].
  intros l Hl. rewrite Hl in E0. by bool_prop.
Qed.

(** The hold of [h] moved a counter at its target. *)
Lemma conserved_hold paid pend h db db' :
  0 <= h_Amount h ->
  (exists wid, hold_target h = Some (TWindow wid) /\ hold_window wid (h_Amount h) db = Ok (Some db')) \/
  (exists kid, hold_target h = Some (TKey kid) /\ hold_key kid (h_Amount h) db = Ok (Some db')) ->
  counters_only db db' /\ (conserved paid pend db -> conserved paid (h :: pend) db').
Proof.
  intros Ha [(wid & Ht & H)|(kid & Ht & H)].
  - apply hold_window_Some in H as (w & Hw & Hv & _ & ->). split.
    { split_and!; [by destruct db|simpl; by apply shape_counters|done]. }
    intros [L R]. split; simpl.
    + rewrite <- (Z.add_0_r (w_Used w)). eapply law_window; [exact L|done|by apply held_cons|].
      intros t. unfold at_target. case_decide; lia.
    + rewrite shape_counters by done. destruct R. split; try done.
      * intros h' wid' [->|?]%elem_of_cons; [|eauto]. intros ?. simplify_eq.
        by rewrite lookup_fmap, Hw, <- Hv.
      * intros h' [->|?]%elem_of_cons; eauto.
  - apply hold_key_Some in H as (k & Hk & _ & ->). split.
    { split_and!; [by destruct db|done|simpl; by eapply dom_update]. }
    intros [L R]. split; simpl.
    + rewrite <- (Z.add_0_r (k_BudgetUsed k + _)). eapply law_key; [exact L|done|by apply held_cons|].
      intros t. unfold at_target. case_decide; lia.
    + erewrite dom_update by done. destruct R. split; try done.
      * intros h' wid' [->|?]%elem_of_cons; [congruence|eauto].
      * intros h' [->|?]%elem_of_cons; eauto.
Qed.

(** [h] was applied: its conditional UPDATE hit a row. *)
Definition applied (h : HoldSpec) (db db' : DB) : Prop :=
  (exists wid, hold_target h = Some (TWindow wid) /\ hold_window wid (h_Amount h) db = Ok (Some db')) \/
  (exists kid, hold_target h = Some (TKey kid) /\ hold_key kid (h_Amount h) db = Ok (Some db')).

(** One turn of the hold loop either records a block or applies the hold. *)
Lemma apply_hold_applied h st st' :
  apply_hold st h = Ok st' -> hl_blocked st' = [] -> hl_keyBlocked st' = false ->
  hl_blocked st = [] /\ hl_keyBlocked st = false /\ 0 <= h_Amount h /\ applied h (hl_db st) (hl_db st').
Proof.
  unfold apply_hold. intros H Hb Hk. destruct (h_Amount h <? 0) eqn:Hamt; [done|]. bool_prop.
  assert (forall db1, applied h (hl_db st) db1 ->
           hl_db st' = db1 -> hl_blocked st' = hl_blocked st -> hl_keyBlocked st' = hl_keyBlocked st ->
           hl_blocked st = [] /\ hl_keyBlocked st = false /\ 0 <= h_Amount h /\
           applied h (hl_db st) (hl_db st')) as Hyes by (intros db1 Hh -> <- <-; done).
  unfold applied, hold_target in Hyes |- *.
  destruct (h_TargetKind h); simpl in H;
    repeat match goal with
    | H : match ?m with Some _ => _ | None => _ end = Ok _ |- _ =>
        let E := fresh "E" in destruct m eqn:E; [|done]
    end;
    apply rbind_Ok in H as ([db1|] & Hr & H);
    try (injection H as <-; eapply (Hyes db1); [|reflexivity..];
         first [by left; exists s | by right; exists s]).
  all: try (destruct (windows (hl_db st) !! s); injection H as <-; simpl in Hb;
            by apply app_eq_nil in Hb as [_ ?]).
  by injection H as <-.
Qed.

Lemma apply_hold_step paid pend h st st' :
  apply_hold st h = Ok st' -> hl_blocked st' = [] -> hl_keyBlocked st' = false ->
  hl_blocked st = [] /\ hl_keyBlocked st = false /\ 0 <= h_Amount h /\ hold_target h <> None /\
  counters_only (hl_db st) (hl_db st') /\
  (conserved paid pend (hl_db st) -> conserved paid (h :: pend) (hl_db st')).
Proof.
  intros H Hb Hk. destruct (apply_hold_applied _ _ _ H Hb Hk) as (? & ? & Ha & Hap).
  destruct (conserved_hold paid pend h _ _ Ha Hap) as [? ?]. split_and!; try done.
  by destruct Hap as [(? & -> & _)|(? & -> & _)].
Qed.

Lemma apply_holds paid hs pend st st' :
  rfold apply_hold st hs = Ok st' -> hl_blocked st' = [] -> hl_keyBlocked st' = false ->
  hl_blocked st = [] /\ hl_keyBlocked st = false /\
  Forall (fun h => 0 <= h_Amount h /\ hold_target h <> None) hs /\
  counters_only (hl_db st) (hl_db st') /\
  (conserved paid pend (hl_db st) -> conserved paid (hs ++ pend) (hl_db st')).
Proof.
  revert st pend. induction hs as [|h hs IH]; intros st pend H Hb Hk; simpl in H.
  - inv_ok. split_and!; auto using counters_only_refl.
  - apply rbind_Ok in H as (st1 & H1 & H2).
    destruct (IH st1 (h :: pend) H2 Hb Hk) as (Hb1 & Hk1 & Hf & Hc & HC).
    destruct (apply_hold_step paid pend h _ _ H1 Hb1 Hk1) as (? & ? & ? & ? & Hc1 & HC1).
    split_and!; [done..|by constructor|by eapply counters_only_trans|].
    intros HC0. eapply core_pend_perm; [|exact (HC (HC1 HC0))]. simpl. by rewrite Permutation_middle.
Qed.

(** ** Inserting the rows of applied holds *)

Lemma forallb_map {A} (p : A -> bool) (m : gmap string A) :
  forallb p (map_to_list m).*2 = true <-> forall k a, m !! k = Some a -> p a = true.
Proof.
  rewrite forallb_forall. split.
  - intros H k a Hk. apply H, list_elem_of_In, list_elem_of_fmap. exists (k, a).
    by rewrite elem_of_map_to_list.
  - intros H a Ha. apply list_elem_of_In, list_elem_of_fmap in Ha as ((k & a') & -> & Ha).
    apply elem_of_map_to_list in Ha. eauto.
Qed.

Lemma insert_reservation_Ok rv db db' :
  insert_reservation rv db = Ok db' ->
  0 <= rv_Amount rv /\ target_refs_ok rv = true /\ reservations db !! rv_ID rv = None /\
  (forall id o, reservations db !! id = Some o ->
     rv_RequestID o = rv_RequestID rv -> rv_TargetKind o <> rv_TargetKind rv) /\
  is_Some (requests db !! rv_RequestID rv) /\
  (forall wid, rv_WindowID rv = Some wid -> is_Some (windows db !! wid)) /\
  (forall kid, rv_APIKeyID rv = Some kid -> is_Some (keys db !! kid)) /\
  db' = set_reservations (<[rv_ID rv := rv]> (reservations db)) db.
Proof.
  unfold insert_reservation. intros H. inv_ok.
  apply check_Ok in E. apply insert_row_Ok in E0 as [? ->]. apply unique_Ok in E1.
  apply references_Ok in E2. bool_prop. rewrite has_true in *. split_and!; try done.
  - intros id o Hl Hr Hk. pose proof (proj1 (forallb_map _ _) E1 _ _ Hl) as Hn. simpl in Hn.
    by rewrite !bool_decide_eq_true_2 in Hn by done.
  - intros wid Hw. rewrite Hw in *. simpl in *. by apply has_true.
  - intros kid Hk. rewrite Hk in *. simpl in *. by apply has_true.
Qed.

Lemma conserved_insert paid pend newID req h db db' :
  insert_reservation (reservation_of newID req h) db = Ok db' -> hold_target h <> None ->
  conserved paid (h :: pend) db -> conserved paid pend db'.
Proof.
  intros H Hn [L R]. apply insert_reservation_Ok in H as (Ha & Hok & Hf & _ & _ & Hw & Hk & ->).
  simpl in Hf. split; simpl.
  - eapply law_ext; [| |exact L].
    + intros t. by rewrite held_insert.
    + by apply spent_insert.
  - destruct R. destruct (refs_target _ Hok) as [Tw Tk]. split.
    + intros id rv [[<- <-]|[_ Hl]]%lookup_insert_Some; eauto.
    + intros id rv wid [[<- <-]|[_ Hl]]%lookup_insert_Some Ht; [|eauto].
      exists false. split; [|done]. eapply row_pend0; [by left|].
      apply Tw in Ht. simpl in Ht. unfold target_refs_ok, hold_target in *. simpl in *.
      destruct (h_TargetKind h); try (by rewrite Ht); by rewrite Ht in Hok.
    + intros id rv kid [[<- <-]|[_ Hl]]%lookup_insert_Some Ht; [|eauto].
      apply Tk, Hk in Ht. by apply elem_of_dom.
    + intros; eapply row_pend0; [|done]; by right.
    + intros; apply row_pend_amount0; by right.
Qed.

(** Rows without a window or key (wallet freezes) change nothing. *)
Lemma conserved_insert_wallet paid pend rv db db' :
  insert_reservation rv db = Ok db' -> rv_TargetKind rv = TargetWallet -> rv_State rv = ReservationHeld ->
  conserved paid pend db -> conserved paid pend db'.
Proof.
  intros H Ht Hs [L R]. apply insert_reservation_Ok in H as (Ha & Hok & Hf & _ & _ & Hw & Hk & ->).
  assert (target_of rv = None) as Hn by (unfold target_of; by rewrite Ht).
  split; simpl.
  - eapply law_ext; [| |exact L]; [|by apply spent_insert].
    intros t. unfold held. rewrite msum_insert by done. unfold held_at at 1. rewrite Hn.
    rewrite bool_decide_eq_false_2 by done. simpl. lia.
  - destruct R. split; try done.
    + intros id r [[<- <-]|[_ Hl]]%lookup_insert_Some; eauto.
    + intros id r wid [[<- <-]|[_ Hl]]%lookup_insert_Some ?; [congruence|eauto].
    + intros id r kid [[<- <-]|[_ Hl]]%lookup_insert_Some ?; [congruence|eauto].
Qed.

(** ** Moving held rows *)

Lemma flip_reservation_Ok id s db db' :
  flip_reservation id s db = Ok db' ->
  exists rv, reservations db !! id = Some rv /\ rv_State rv = ReservationHeld /\
    db' = set_reservations (<[id := set_rv_State s rv]> (reservations db)) db.
Proof.
  unfold flip_reservation. intros H. destruct (reservations db !! id) as [rv|]; [|done].
  inv_ok. bool_prop. eauto.
Qed.

(** The row a loop handles is still the held row of the table. *)
Definition held_row (db : DB) (rv : Reservation) : Prop :=
  reservations db !! rv_ID rv = Some rv /\ rv_State rv = ReservationHeld.

(** What a held row becomes worth at its target when it moves to [s]. *)
Definition moved (paid : string -> Z) (s : ReservationState) (rv : Reservation) : Z :=
  if bool_decide (s = ReservationSettled) then paid (rv_RequestID rv) else 0.

Lemma core_move_window paid rv s wid w db :
  held_row db rv -> s <> ReservationHeld -> target_of rv = Some (TWindow wid) ->
  windows db !! wid = Some w -> conserved paid [] db ->
  core paid [] (<[wid := set_w_Counters (w_Used w + moved paid s rv) (w_Reserved w - rv_Amount rv) w]> (windows db))
    (keys db) (<[rv_ID rv := set_rv_State s rv]> (reservations db)).
Proof.
  intros [Hl Hs] Hne Ht Hw [L R]. split.
  - unfold Z.sub. eapply law_window; [exact L|done| |].
    + by apply held_flip.
    + by apply spent_flip.
  - rewrite shape_counters by done. by apply rows_flip.
Qed.

Lemma core_move_key paid rv s kid k db :
  held_row db rv -> s <> ReservationHeld -> target_of rv = Some (TKey kid) ->
  keys db !! kid = Some k -> conserved paid [] db ->
  core paid [] (windows db)
    (<[kid := mkKey (k_BudgetLimit k) (k_BudgetUsed k - rv_Amount rv + moved paid s rv)]> (keys db))
    (<[rv_ID rv := set_rv_State s rv]> (reservations db)).
Proof.
  intros [Hl Hs] Hne Ht Hk [L R]. split.
  - unfold Z.sub. eapply law_key; [exact L|done| |].
    + by apply held_flip.
    + by apply spent_flip.
  - erewrite dom_update by done. by apply rows_flip.
Qed.

Lemma core_move_none paid rv s db :
  held_row db rv -> s <> ReservationHeld -> target_of rv = None -> conserved paid [] db ->
  core paid [] (windows db) (keys db) (<[rv_ID rv := set_rv_State s rv]> (reservations db)).
Proof.
  intros [Hl Hs] Hne Ht [L R]. destruct (sums_flip_none paid [] _ _ _ s Hl Ht) as [HH HS].
  split; [by eapply law_ext; [..|exact L]|by apply rows_flip].
Qed.

(** Which table a release statement touched. *)
Lemma release_target_Ok requestID rv db db1 :
  release_target requestID rv db = Ok db1 ->
  (exists wid w, target_of rv = Some (TWindow wid) /\ windows db !! wid = Some w /\
     rv_Amount rv <= w_Reserved w /\
     db1 = set_windows (<[wid := set_w_Counters (w_Used w) (w_Reserved w - rv_Amount rv) w]> (windows db)) db) \/
  (exists kid k, target_of rv = Some (TKey kid) /\ keys db !! kid = Some k /\
     rv_Amount rv <= k_BudgetUsed k /\
     db1 = set_keys (<[kid := mkKey (k_BudgetLimit k) (k_BudgetUsed k - rv_Amount rv)]> (keys db)) db) \/
  (target_of rv = None /\ rv_TargetKind rv = TargetWallet /\ exists hs, db1 = set_holds hs db).
Proof.
  unfold release_target, target_of, deref, releaseWalletLocked. intros H.
  destruct (rv_TargetKind rv);
    [destruct (rv_WindowID rv)|destruct (rv_WindowID rv)|destruct (rv_WindowID rv)|destruct (rv_APIKeyID rv)|];
    simpl in H; try done.
  1-3: left; inv_ok; bool_prop; eauto 10.
  - right; left. inv_ok; bool_prop; eauto 10.
  - right; right. destruct (rows (holds db) _); [done|]. inv_ok. eauto.
Qed.

Lemma conserved_release_one paid requestID rv db db' :
  release_one requestID db rv = Ok db' -> held_row db rv ->
  conserved paid [] db -> conserved paid [] db'.
Proof.
  intros H Hh C. unfold release_one in H. apply rbind_Ok in H as (db1 & H1 & H2).
  apply flip_reservation_Ok in H2 as (rv' & Hl' & _ & ->). unfold conserved.
  assert (forall s, s = ReservationReleased -> moved paid s rv = 0) as Hm by (intros s ->; done).
  apply release_target_Ok in H1 as [(wid & w & Ht & Hw & _ & ->)|[(kid & k & Ht & Hk & _ & ->)|(Ht & _ & hs & ->)]];
    simpl in *; rewrite (proj1 Hh) in Hl'; injection Hl' as <-.
  - rewrite <- (Z.add_0_r (w_Used w)). by apply (core_move_window paid rv ReservationReleased).
  - rewrite <- (Z.add_0_r (k_BudgetUsed k - _)). by apply (core_move_key paid rv ReservationReleased).
  - by apply core_move_none.
Qed.

Lemma settle_target_Ok charge rv db db1 :
  settle_target charge rv db = Ok db1 ->
  (exists wid w, rv_WindowID rv = Some wid /\ rv_TargetKind rv <> TargetKeyBudget /\ windows db !! wid = Some w /\
     rv_Amount rv <= w_Reserved w /\ w_Voided w = false /\
     db1 = set_windows (<[wid := set_w_Counters (w_Used w + charge) (w_Reserved w - rv_Amount rv) w]> (windows db)) db) \/
  (exists kid k, target_of rv = Some (TKey kid) /\ keys db !! kid = Some k /\
     db1 = set_keys (<[kid := mkKey (k_BudgetLimit k) (k_BudgetUsed k - rv_Amount rv + charge)]> (keys db)) db).
Proof.
  unfold settle_target, target_of, deref, settle_window, settle_key. intros H.
  destruct (rv_TargetKind rv);
    [destruct (rv_WindowID rv) as [i|]|destruct (rv_WindowID rv) as [i|]|destruct (rv_WindowID rv) as [i|]|
     destruct (rv_APIKeyID rv) as [i|]|destruct (rv_WindowID rv) as [i|]];
    simpl in H; try done.
  all: try (left; destruct (windows db !! i) as [w|] eqn:Hw; [|done]; inv_ok; bool_prop;
            match goal with E : sql_int _ = Ok _ |- _ => apply sql_int_Ok in E as [-> _] end;
            exists i, w; split_and!; done).
  right. destruct (keys db !! i) as [k|] eqn:Hk; [|done]. inv_ok.
  apply sql_int_Ok in E as [-> _]. apply sql_int_Ok in E0 as [-> _]. exists i, k. done.
Qed.

Lemma conserved_settle_one paid charge rv db db' :
  settle_one charge db rv = Ok db' -> held_row db rv -> paid (rv_RequestID rv) = charge ->
  conserved paid [] db -> conserved paid [] db'.
Proof.
  intros H Hh Hp C. unfold settle_one in H. apply rbind_Ok in H as (db1 & H1 & H2).
  apply flip_reservation_Ok in H2 as (rv' & Hl' & _ & ->). unfold conserved.
  assert (moved paid ReservationSettled rv = charge) as Hm by done.
  apply settle_target_Ok in H1 as [(wid & w & Hwid & _ & Hw & _ & _ & ->)|(kid & k & Ht & Hk & ->)];
    simpl in *; rewrite (proj1 Hh) in Hl'; injection Hl' as <-; rewrite <- Hm.
  - apply core_move_window; try done. eapply refs_target, Hwid.
    destruct C as [_ []]. by apply (row_wf0 _ _ (proj1 Hh)).
  - by apply core_move_key.
Qed.

(** ** Windows come and go *)

Lemma voidUnused_Ok wid db db' :
  voidUnusedFiveHourWindow wid db = Ok db' ->
  db' = db \/
  exists w, windows db !! wid = Some w /\ w_Voided w = false /\ w_Used w = 0 /\ w_Reserved w = 0 /\
    (forall id rv, reservations db !! id = Some rv -> rv_WindowID rv = Some wid ->
       rv_State rv <> ReservationHeld) /\
    db' = set_windows (<[wid := set_w_Voided w]> (windows db)) db.
Proof.
  unfold voidUnusedFiveHourWindow, select_one. intros H.
  destruct (windows db !! wid) as [w|] eqn:Hw; [|done]. simpl in H.
  destruct (_ || _) eqn:E in H; [inv_ok; by left|].
  destruct (negb _) eqn:E2 in H; [inv_ok; by left|]. inv_ok. bool_prop. right.
  exists w. split_and!; try done; [lia..|].
  intros id rv Hl Hrw Hs. assert (rv ∈ []) as []%not_elem_of_nil. rewrite <- E2.
  unfold rows. apply list_elem_of_In, filter_In. split.
  - apply list_elem_of_In, list_elem_of_fmap. exists (id, rv). by rewrite elem_of_map_to_list.
  - by rewrite !bool_decide_eq_true_2.
Qed.

Lemma conserved_void paid wid db db' :
  voidUnusedFiveHourWindow wid db = Ok db' -> conserved paid [] db -> conserved paid [] db'.
Proof.
  intros [->|(w & Hw & Hv & Hu & Hr & Hnone & ->)]%voidUnused_Ok; [done|]. intros [[Lr Lu Lk] R].
  split; simpl.
  - split; try done.
    + intros wid' w' [[<- <-]|[_ Hl]]%lookup_insert_Some; simpl; eauto.
    + intros wid' w' [[<- <-]|[_ Hl]]%lookup_insert_Some; simpl; eauto.
  - destruct R. rewrite fmap_insert. split; try done; [|set_solver].
    intros id rv wid' Hl Ht. destruct (row_wf0 _ _ Hl) as (_ & _ & Hok).
    destruct (decide (wid = wid')) as [<-|Hne].
    + rewrite lookup_insert_eq. eexists; split; [done|]. intros Hs. exfalso. eapply Hnone; [done| |done].
      by apply refs_target.
    + rewrite lookup_insert_ne by done. eauto.
Qed.

Lemma insertQuotaWindow_Ok newID w db w' db' :
  insertQuotaWindow newID w db = Ok (w', db') ->
  w' = mkWindow (if bool_decide (w_ID w = "") then newID else w_ID w) (w_EntitlementID w) (w_Kind w)
         (w_Start w) (w_End w) (w_Limit w) (w_Used w) (w_Reserved w) (w_Voided w) /\
  windows db !! w_ID w' = None /\ 0 <= w_Limit w' /\ w_Start w' < w_End w' /\
  (forall id v, windows db !! id = Some v -> w_EntitlementID v = w_EntitlementID w' -> w_Kind v = w_Kind w' ->
     w_Start v <> w_Start w' /\
     (w_Voided v = false -> w_Voided w' = false -> w_End v <= w_Start w' \/ w_End w' <= w_Start v)) /\
  db' = set_windows (<[w_ID w' := w']> (windows db)) db.
Proof.
  unfold insertQuotaWindow, db_fail. cbv zeta. set (w0 := mkWindow _ _ _ _ _ _ _ _ _).
  change (w_Voided w) with (w_Voided w0). generalize w0. clear w0. intros w0 H. inv_ok.
  apply check_Ok in E. apply insert_row_Ok in E0 as [? ->]. apply unique_Ok in E1. inv_ok. bool_prop.
  split_and!; try done.
  intros id v Hl He Hk. pose proof (proj1 (forallb_map _ _) E1 _ _ Hl) as Hu. simpl in Hu.
  assert (same_subject v w' = true) as Hsame by (unfold same_subject; by rewrite !bool_decide_eq_true_2).
  rewrite Hsame in Hu. simpl in Hu. bool_prop. split; [done|]. intros Hv Hv'.
  destruct E2 as [E2|E2]; [by rewrite Hv' in E2|].
  destruct (Z_le_gt_dec (w_End v) (w_Start w')); [by left|]. right.
  destruct (Z_le_gt_dec (w_End w') (w_Start v)); [done|]. exfalso.
  apply not_true_iff_false in E2. apply E2. apply existsb_exists. exists v. split.
  - apply list_elem_of_In, list_elem_of_fmap. exists (id, v). by rewrite elem_of_map_to_list.
  - rewrite Hv, Hsame. unfold ranges_overlap. simpl. apply andb_true_iff. split; apply Z.ltb_lt; lia.
Qed.

Lemma conserved_new_window paid newID w db w' db' :
  insertQuotaWindow newID w db = Ok (w', db') -> w_Used w = 0 -> w_Reserved w = 0 ->
  conserved paid [] db -> conserved paid [] db'.
Proof.
  intros (Hw' & Hf & _ & _ & _ & ->)%insertQuotaWindow_Ok Hu Hr [[Lr Lu Lk] R].
  assert (forall id rv, reservations db !! id = Some rv -> target_of rv <> Some (TWindow (w_ID w'))) as Hno.
  { intros id rv Hl Ht. destruct R. destruct (row_window0 _ _ _ Hl Ht) as (v & Hv & _).
    rewrite lookup_fmap, Hf in Hv. done. }
  split; simpl.
  - split; try done.
    + intros wid v [[<- <-]|[_ Hl]]%lookup_insert_Some; [|eauto].
      unfold held. rewrite msum_zero; [subst w'; done|]. intros id rv Hl. unfold held_at.
      rewrite bool_decide_eq_false_2; [done|by eauto].
    + intros wid v [[<- <-]|[_ Hl]]%lookup_insert_Some; [|eauto].
      unfold spent. rewrite msum_zero; [subst w'; done|]. intros id rv Hl. unfold spent_at.
      rewrite bool_decide_eq_false_2; [done|by eauto].
  - destruct R. rewrite fmap_insert. split; try done; [|set_solver].
    intros id rv wid Hl Ht. rewrite lookup_insert_ne; [eauto|]. intros <-. by eapply Hno.
Qed.
