(* ===== verification/StoreInv.v ===== *)
(** * StoreInv: the invariant of the quota and ledger tables

    Beside the conservation law of [Conservation], the rows of a request, its
    settled amount and its ledger charge move together: a request is charged
    at most once, its reservations are settled exactly when it is, and each
    reservation sits at the target the request is bound to. *)

From Stdlib Require Import ZArith Lia Bool.
From stdpp Require Import base gmap strings list.
From S2P Require Import Prelude Domain Money Calendar Window Pricing WalletRules Tables.
From S2P Require Import RequestStore QuotaStore WalletStore LedgerStore Conservation.

Local Open Scope Z_scope.
Local Open Scope go_scope.

(** ** What the invariant reads of a request *)

Record RCore := mkRCore {
  c_ID : string;
  c_Key : option string;
  c_FiveHour : option string;
  c_Weekly : option string;
  c_Monthly : option string;
  c_Source : option ChargeSource;
  c_Settled : option Microcredit;
}.

Definition rcore (r : Request) : RCore :=
  mkRCore (r_ID r) (r_APIKeyID r) (r_WindowFiveHourID r) (r_WindowWeeklyID r) (r_WindowMonthlyID r)
    (r_ChargeSource r) (r_SettledMicros r).

(** The target a request is bound to, per kind. *)
Definition bound_target (c : RCore) (k : ReservationTargetKind) : option Target :=
  match k with
  | TargetWindowFiveHour => TWindow <$> c_FiveHour c
  | TargetWindowWeekly => TWindow <$> c_Weekly c
  | TargetWindowMonthly => TWindow <$> c_Monthly c
  | TargetKeyBudget => TKey <$> c_Key c
  | TargetWallet => None
  end.

Definition walletRequest (c : RCore) : Prop := c_Source c = Some ChargeSourceWallet.

Definition charged (led : list LedgerEntry) (rid : string) : Prop :=
  exists e, e ∈ led /\ is_charge_of rid e = true.

Record requests_ok (cs : gmap string RCore) (rvs : gmap string Reservation) (led : list LedgerEntry)
  : Prop := {
  ro_id : forall rid c, cs !! rid = Some c -> c_ID c = rid;
  ro_row : forall id rv, rvs !! id = Some rv -> exists c, cs !! rv_RequestID rv = Some c /\
    (rv_State rv = ReservationSettled <-> c_Settled c <> None) /\
    (rv_TargetKind rv = TargetWallet <-> walletRequest c) /\
    target_of rv = bound_target c (rv_TargetKind rv);
  ro_bound : forall rid c k t, cs !! rid = Some c -> ~ walletRequest c -> bound_target c k = Some t ->
    exists id rv, rvs !! id = Some rv /\ rv_RequestID rv = rid /\ rv_TargetKind rv = k;
  ro_charge : forall rid, charged led rid <-> exists c, cs !! rid = Some c /\ c_Settled c <> None;
  ro_paid : forall rid c m, cs !! rid = Some c -> c_Settled c = Some m -> 0 <= m <= max_int64;
  ro_unique : forall i1 i2 rv1 rv2, rvs !! i1 = Some rv1 -> rvs !! i2 = Some rv2 ->
    rv_RequestID rv1 = rv_RequestID rv2 -> rv_TargetKind rv1 = rv_TargetKind rv2 -> i1 = i2;
  ro_uniform : forall i1 i2 rv1 rv2, rvs !! i1 = Some rv1 -> rvs !! i2 = Some rv2 ->
    rv_RequestID rv1 = rv_RequestID rv2 -> rv_State rv1 = rv_State rv2;
}.

Definition cores (db : DB) : gmap string RCore := rcore <$> requests db.

(** What a request has been settled for. *)
Definition paid_of (cs : gmap string RCore) (rid : string) : Z :=
  match cs !! rid with Some c => default 0 (c_Settled c) | None => 0 end.

Record store_inv (db : DB) : Prop := {
  si_conserved : conserved (paid_of (cores db)) [] db;
  si_requests : requests_ok (cores db) (reservations db) (ledger db);
}.

(** Operations that leave the five tables the invariant reads. *)
Definition same_quota (db db' : DB) : Prop :=
  windows db' = windows db /\ keys db' = keys db /\ reservations db' = reservations db /\
  cores db' = cores db /\ ledger db' = ledger db.

Lemma store_inv_frame db db' : same_quota db db' -> store_inv db -> store_inv db'.
Proof.
  intros (Hw & Hk & Hr & Hc & Hl) [C R]. split.
  - unfold conserved. by rewrite Hw, Hk, Hr, Hc.
  - by rewrite Hc, Hr, Hl.
Qed.

Lemma same_quota_refl db : same_quota db db.
Proof. done. Qed.
Lemma same_quota_trans db1 db2 db3 : same_quota db1 db2 -> same_quota db2 db3 -> same_quota db1 db3.
Proof. unfold same_quota. intros (?&?&?&?&?) (?&?&?&?&?). split_and!; congruence. Qed.

(** Updating columns of a request the invariant does not read. *)
Lemma cores_update db rid r r' : requests db !! rid = Some r -> rcore r' = rcore r ->
  cores (set_requests (<[rid := r']> (requests db)) db) = cores db.
Proof.
  intros Hr He. unfold cores. simpl. rewrite fmap_insert, He. apply insert_id.
  by rewrite lookup_fmap, Hr.
Qed.

Lemma cores_lookup db rid r : requests db !! rid = Some r -> cores db !! rid = Some (rcore r).
Proof. intros Hr. unfold cores. by rewrite lookup_fmap, Hr. Qed.

Lemma updateRequestStatus_frame id s e now db db' :
  updateRequestStatus id s e now db = Ok db' -> same_quota db db'.
Proof.
  unfold updateRequestStatus. intros H. destruct (requests db !! id) as [r|] eqn:Hr; [|done].
  inv_ok. split_and!; try done. by eapply cores_update.
Qed.

(** ** Held rows of a request *)

Definition held_of (rid : string) (rv : Reservation) : bool :=
  bool_decide (rv_RequestID rv = rid) && bool_decide (rv_State rv = ReservationHeld).

Lemma rows_elem {A} (m : gmap string A) p a : a ∈ rows m p <-> p a = true /\ exists k, m !! k = Some a.
Proof.
  unfold rows. rewrite list_elem_of_In, filter_In, <- list_elem_of_In, list_elem_of_fmap.
  split.
  - intros [((k & a') & -> & Hk) Hp]. apply elem_of_map_to_list in Hk. eauto.
  - intros [Hp [k Hk]]. split; [|done]. exists (k, a). by rewrite elem_of_map_to_list.
Qed.

Lemma loadHeld_elem rid db rv :
  rv ∈ loadHeldReservations rid db <-> held_of rid rv = true /\ exists id, reservations db !! id = Some rv.
Proof. unfold loadHeldReservations. rewrite sort_by_Permutation. apply rows_elem. Qed.

Lemma rows_NoDup (m : gmap string Reservation) p :
  (forall id rv, m !! id = Some rv -> rv_ID rv = id) -> NoDup (rv_ID <$> rows m p).
Proof.
  intros Hid. unfold rows.
  assert (forall l : list (string * Reservation), (forall id rv, (id, rv) ∈ l -> rv_ID rv = id) ->
    NoDup l.*1 -> NoDup (rv_ID <$> List.filter p l.*2)) as Hl.
  { induction l as [|[id rv] l IH]; intros Hwf Hnd; simpl; [constructor|].
    apply NoDup_cons in Hnd as [Hn Hnd].
    assert (NoDup (rv_ID <$> List.filter p l.*2)) as HIH by (apply IH; [set_solver|done]).
    destruct (p rv); [|done]. simpl. constructor; [|done].
    intros (rv' & Heq & Hin)%list_elem_of_fmap. apply Hn.
    apply list_elem_of_In, filter_In in Hin as [Hin _].
    apply list_elem_of_In, list_elem_of_fmap in Hin as ([id' rv''] & -> & Hin). simpl in *.
    apply list_elem_of_fmap. exists (id', rv''). split; [|done]. simpl.
    rewrite <- (Hwf id rv), <- (Hwf id' rv''), <- Heq by set_solver. done. }
  apply Hl; [|apply NoDup_fst_map_to_list].
  intros id rv ?%elem_of_map_to_list. eauto.
Qed.

Lemma loadHeld_rows paid rid db : conserved paid [] db ->
  NoDup (rv_ID <$> loadHeldReservations rid db) /\ Forall (held_row db) (loadHeldReservations rid db).
Proof.
  intros [_ R]. assert (forall id rv, reservations db !! id = Some rv -> rv_ID rv = id) as Hid
    by (intros id rv Hl; by destruct (row_wf _ _ _ _ R _ _ Hl)).
  split.
  - unfold loadHeldReservations. rewrite sort_by_Permutation. by apply rows_NoDup.
  - apply Forall_forall. intros rv (Hh & id & Hl)%loadHeld_elem. unfold held_of in Hh. bool_prop.
    split; [|done]. by rewrite (Hid _ _ Hl).
Qed.

(** Moving every held row of a request to a state. *)
Definition flip_all (rid : string) (s : ReservationState) (rvs : gmap string Reservation)
  : gmap string Reservation :=
  (fun rv => if held_of rid rv then set_rv_State s rv else rv) <$> rvs.

(** The loops of settlement and release: a body that flips the row it is
    given and keeps [P] flips exactly the rows of the list. *)
Lemma flip_loop (f : DB -> Reservation -> res DB) (s : ReservationState) (P : DB -> Prop)
    (Hf : forall db rv db', f db rv = Ok db' -> held_row db rv ->
       reservations db' = <[rv_ID rv := set_rv_State s rv]> (reservations db) /\
       requests db' = requests db /\ ledger db' = ledger db /\ (P db -> P db')) l db db' :
  NoDup (rv_ID <$> l) -> Forall (held_row db) l -> rfold f db l = Ok db' ->
  (forall rv, rv ∈ l -> reservations db' !! rv_ID rv = Some (set_rv_State s rv)) /\
  (forall id, id ∉ (rv_ID <$> l) -> reservations db' !! id = reservations db !! id) /\
  requests db' = requests db /\ ledger db' = ledger db /\ (P db -> P db').
Proof.
  revert db. induction l as [|rv l IH]; intros db Hnd Hall H; simpl in H.
  - inv_ok. split_and!; try done. set_solver.
  - apply rbind_Ok in H as (db1 & H1 & H2). apply NoDup_cons in Hnd as [Hn Hnd].
    apply Forall_cons in Hall as [Hh Hall]. destruct (Hf _ _ _ H1 Hh) as (Hr1 & Hq1 & Hl1 & HP1).
    assert (Forall (held_row db1) l) as Hall1.
    { rewrite Forall_forall in *. intros rv' Hin. destruct (Hall rv' Hin) as [Hl Hs].
      split; [|done]. rewrite Hr1, lookup_insert_ne; [done|]. intros He. apply Hn, list_elem_of_fmap. eauto. }
    destruct (IH db1 Hnd Hall1 H2) as (Hin & Hout & Hq & Hl & HP).
    split_and!; [| |congruence..|auto].
    + intros rv' [->|Hrv]%elem_of_cons; [|eauto].
      rewrite Hout, Hr1 by done. by rewrite lookup_insert_eq.
    + intros id Hid. apply not_elem_of_cons in Hid as [? ?]. rewrite Hout, Hr1 by done.
      by rewrite lookup_insert_ne.
Qed.

Lemma flip_loop_all (f : DB -> Reservation -> res DB) s (P : DB -> Prop) rid db db' :
  (forall db rv db', f db rv = Ok db' -> held_row db rv -> rv_RequestID rv = rid ->
     reservations db' = <[rv_ID rv := set_rv_State s rv]> (reservations db) /\
     requests db' = requests db /\ ledger db' = ledger db /\ (P db -> P db')) ->
  (exists paid, conserved paid [] db) ->
  rfold f db (loadHeldReservations rid db) = Ok db' ->
  reservations db' = flip_all rid s (reservations db) /\
  requests db' = requests db /\ ledger db' = ledger db /\ (P db -> P db').
Proof.
  intros Hf [paid C] H. destruct (loadHeld_rows paid rid db C) as [Hnd Hall].
  assert (Forall (fun rv => rv_RequestID rv = rid) (loadHeldReservations rid db)) as Hrid.
  { apply Forall_forall. intros rv (Hh & _)%loadHeld_elem. unfold held_of in Hh. by bool_prop. }
  destruct (flip_loop (fun db rv => if bool_decide (rv_RequestID rv = rid) then f db rv else Err EForeign)
    s P) with (l := loadHeldReservations rid db) (db := db) (db' := db') as (Hin & Hout & Hq & Hl & HP);
    try done.
  - intros d rv d' Hd Hh. inv_ok. bool_prop. eauto.
  - rewrite <- H. apply rfold_ext. intros rv d Hin. rewrite Forall_forall in Hrid.
    by rewrite bool_decide_eq_true_2 by auto.
  - split_and!; try done. apply map_eq. intros id. unfold flip_all. rewrite lookup_fmap.
    assert (forall rv, reservations db !! id = Some rv -> rv_ID rv = id) as Hid
      by (intros rv Hrv; destruct C as [_ R]; by destruct (row_wf _ _ _ _ R _ _ Hrv)).
    destruct (reservations db !! id) as [rv|] eqn:Hrv; simpl.
    + destruct (held_of rid rv) eqn:Hh.
      * rewrite <- (Hid rv), Hin by (try apply loadHeld_elem; eauto). done.
      * rewrite Hout; [done|]. intros (rv' & Heq & Hin')%list_elem_of_fmap.
        rewrite Forall_forall in Hall. destruct (Hall _ Hin') as [Hl' _]. rewrite <- Heq, Hrv in Hl'.
        injection Hl' as ->. apply loadHeld_elem in Hin' as [? _]. congruence.
    + rewrite Hout; [done|]. intros (rv' & Heq & Hin')%list_elem_of_fmap.
      rewrite Forall_forall in Hall. destruct (Hall _ Hin') as [Hl' _]. congruence.
Qed.

Lemma flip_all_lookup rid s rvs id rv' :
  flip_all rid s rvs !! id = Some rv' ->
  exists rv, rvs !! id = Some rv /\ rv_RequestID rv' = rv_RequestID rv /\
    rv_TargetKind rv' = rv_TargetKind rv /\ target_of rv' = target_of rv /\
    (held_of rid rv = true /\ rv_State rv' = s \/ held_of rid rv = false /\ rv' = rv).
Proof.
  unfold flip_all. rewrite lookup_fmap. intros (rv & Heq & Hl)%fmap_Some. exists rv.
  destruct (held_of rid rv); subst; split_and!; auto.
Qed.

Lemma flip_all_lookup_Some rid s rvs id rv :
  rvs !! id = Some rv -> exists rv', flip_all rid s rvs !! id = Some rv' /\
    rv_RequestID rv' = rv_RequestID rv /\ rv_TargetKind rv' = rv_TargetKind rv.
Proof.
  intros Hl. unfold flip_all. rewrite lookup_fmap, Hl. simpl. eexists; split; [done|].
  by destruct (held_of rid rv).
Qed.

(** A request's held rows move to [s] together with its settled amount. *)
Section Flip.
Context (cs cs' : gmap string RCore) (rvs : gmap string Reservation) (led led' : list LedgerEntry)
  (rid : string) (s : ReservationState) (c c' : RCore).
Hypotheses (Hc : cs !! rid = Some c) (Hc' : cs' !! rid = Some c')
  (Hother : forall r, r <> rid -> cs' !! r = cs !! r)
  (Hid : c_ID c' = c_ID c) (Hsrc : c_Source c' = c_Source c)
  (Hbnd : forall k, bound_target c' k = bound_target c k)
  (Hsettled : s = ReservationSettled <-> c_Settled c' <> None) (Hs : s <> ReservationHeld)
  (Hpaid : forall m, c_Settled c' = Some m -> 0 <= m <= max_int64)
  (Hledo : forall r, r <> rid -> charged led' r <-> charged led r)
  (Hledr : charged led' rid <-> c_Settled c' <> None)
  (Hheld : exists id rv, rvs !! id = Some rv /\ held_of rid rv = true).

Lemma flip_lookup_core r c0 : cs' !! r = Some c0 ->
  exists c1, cs !! r = Some c1 /\ c_ID c0 = c_ID c1 /\ c_Source c0 = c_Source c1 /\
    (forall k, bound_target c0 k = bound_target c1 k) /\ (r <> rid -> c0 = c1) /\ (r = rid -> c0 = c').
Proof using Hbnd Hc Hc' Hid Hother Hsrc.
  intros Hl. destruct (decide (r = rid)) as [->|Hne].
  - rewrite Hc' in Hl. injection Hl as <-. exists c. split_and!; auto; congruence.
  - rewrite Hother in Hl by done. exists c0. split_and!; auto; congruence.
Qed.

(** Every row of the request was held. *)
Lemma flip_all_held (R : requests_ok cs rvs led) id rv :
  rvs !! id = Some rv -> (held_of rid rv = true <-> rv_RequestID rv = rid).
Proof using Hheld.
  intros Hl. unfold held_of. split; intros H; bool_prop; [done|].
  destruct Hheld as (i0 & rv0 & Hl0 & H0). unfold held_of in H0. bool_prop.
  rewrite !bool_decide_eq_true_2; [done| |done].
  rewrite <- (ro_uniform _ _ _ R _ _ _ _ Hl0 Hl); congruence.
Qed.

Lemma requests_ok_flip : requests_ok cs rvs led -> requests_ok cs' (flip_all rid s rvs) led'.
Proof using All.
  intros R. pose proof (flip_all_held R) as Hall. destruct R as [R1 R2 R3 R4 R5 R6 R7]. split.
  - intros r c0 (c1 & Hl & -> & _)%flip_lookup_core. eauto.
  - intros id rv' (rv & Hl & Hr & Hk & Ht & Hst)%flip_all_lookup.
    destruct (R2 _ _ Hl) as (c0 & Hc0 & Hset & Hwal & Htgt). rewrite Hr, Hk, Ht.
    destruct (decide (rv_RequestID rv = rid)) as [He|Hne].
    + rewrite He in *. rewrite Hc in Hc0. injection Hc0 as <-.
      exists c'. split_and!; [done| |unfold walletRequest; by rewrite Hsrc|by rewrite Hbnd].
      destruct Hst as [[_ ->]|[Hh _]]; [done|]. apply (proj2 (Hall _ _ Hl)) in He. congruence.
    + exists c0. rewrite Hother by done. split_and!; try done.
      destruct Hst as [[Hh _]|[_ ->]]; [|done]. by apply (Hall _ _ Hl) in Hh.
  - intros r c0 k t (c1 & Hl & _ & Hsrc' & Hb & _)%flip_lookup_core Hnw Hbt.
    unfold walletRequest in *. rewrite Hsrc' in Hnw. rewrite Hb in Hbt.
    destruct (R3 _ _ _ _ Hl Hnw Hbt) as (id & rv & Hrv & He & Hk).
    destruct (flip_all_lookup_Some rid s _ _ _ Hrv) as (rv' & ? & ? & ?). exists id, rv'. split_and!; congruence.
  - intros r. destruct (decide (r = rid)) as [->|Hne].
    + rewrite Hledr, Hc'. split; [eauto|]. by intros (? & [= <-] & ?).
    + by rewrite Hledo, Hother.
  - intros r c0 m Hl Hm. destruct (decide (r = rid)) as [->|Hne].
    + rewrite Hc' in Hl. injection Hl as <-. eauto.
    + rewrite Hother in Hl by done. eauto.
  - intros i1 i2 rv1 rv2 (?&Hl1&?&?&_)%flip_all_lookup (?&Hl2&?&?&_)%flip_all_lookup ??.
    eapply R6; [exact Hl1|exact Hl2|congruence..].
  - intros i1 i2 rv1 rv2 (a1&Hl1&Hr1&?&_&Hs1)%flip_all_lookup (a2&Hl2&Hr2&?&_&Hs2)%flip_all_lookup He.
    destruct Hs1 as [[? ->]|[? ->]], Hs2 as [[? ->]|[? ->]]; try done.
    + assert (rv_RequestID a1 = rid) by by apply (Hall _ _ Hl1).
      assert (held_of rid a2 = true); [|congruence]. apply (Hall _ _ Hl2). congruence.
    + assert (rv_RequestID a2 = rid) by by apply (Hall _ _ Hl2).
      assert (held_of rid a1 = true); [|congruence]. apply (Hall _ _ Hl1). congruence.
    + eapply R7; [exact Hl1|exact Hl2|congruence].
Qed.
End Flip.

(** ** Release *)

Lemma loadHeld_nonempty rid db : loadHeldReservations rid db <> [] ->
  exists id rv, reservations db !! id = Some rv /\ held_of rid rv = true.
Proof.
  intros (rv & (Hh & id & Hl)%loadHeld_elem)%list_nonempty_elem. eauto.
Qed.

Lemma release_one_frame rid db rv db' :
  release_one rid db rv = Ok db' -> held_row db rv ->
  reservations db' = <[rv_ID rv := set_rv_State ReservationReleased rv]> (reservations db) /\
  requests db' = requests db /\ ledger db' = ledger db.
Proof.
  intros H [Hl Hs]. unfold release_one in H. apply rbind_Ok in H as (db1 & H1 & H2).
  apply flip_reservation_Ok in H2 as (rv' & Hl' & _ & ->).
  apply release_target_Ok in H1 as [(?&?&_&_&_&->)|[(?&?&_&_&_&->)|(_&_&?&->)]];
    simpl in *; rewrite Hl in Hl'; by injection Hl' as <-.
Qed.

(** What a successful release did: the caller's row was open, and every held
    reservation of the request moved to released. *)
Lemma releaseLocked_Ok rid fromRec now db db' :
  releaseLocked rid fromRec now db = Ok db' -> store_inv db ->
  exists r, requests db !! rid = Some r /\ finalized r = false /\
    (r_Status r = Some ReqReconciliationRequired -> fromRec = true) /\
    (exists id rv, reservations db !! id = Some rv /\ held_of rid rv = true) /\
    reservations db' = flip_all rid ReservationReleased (reservations db) /\
    cores db' = cores db /\ ledger db' = ledger db /\ conserved (paid_of (cores db)) [] db'.
Proof.
  unfold releaseLocked, select_one. intros H [C R].
  destruct (requests db !! rid) as [r|] eqn:Hr; [|done]. simpl in H.
  apply rbind_Ok in H as ([] & _ & H).
  destruct (_ || _) eqn:Hfin in H; [done|]. destruct (_ && _) eqn:Hrec in H; [done|].
  destruct (bool_decide (loadHeldReservations rid db = [])) eqn:Hne; [done|].
  apply bool_decide_eq_false in Hne. apply andb_false_iff in Hrec.
  apply rbind_Ok in H as (db1 & H1 & H). apply rbind_Ok in H as (db2 & H2 & H3).
  destruct (flip_loop_all (release_one rid) ReservationReleased (conserved (paid_of (cores db)) []) rid db db1)
    as (Hrv1 & Hq1 & Hl1 & HC1).
  { intros d rv d' Hd Hh _. destruct (release_one_frame _ _ _ _ Hd Hh) as (?&?&?). split_and!; try done.
    by eapply conserved_release_one. }
  { eauto. } { exact H1. }
  assert (reservations db2 = reservations db1 /\ requests db2 = requests db1 /\ ledger db2 = ledger db1 /\
          conserved (paid_of (cores db)) [] db2) as (Hrv2 & Hq2 & Hl2 & HC2).
  { destruct (five_hour_of _) as [wid|]; [|inv_ok; auto].
    pose proof (conserved_void _ _ _ _ H2 (HC1 C)).
    apply voidUnused_Ok in H2 as [->|(w & _ & _ & _ & _ & _ & ->)]; auto. }
  exists r. split_and!; try done.
  { intros Hst. rewrite Hst in Hrec. destruct Hrec as [Hf|Hf]; [done|]. by bool_prop. }
  { by apply loadHeld_nonempty. }
  all: apply updateRequestStatus_frame in H3 as (Hw3 & Hk3 & Hrv3 & Hc3 & Hl3).
  all: destruct fromRec; simpl in *.
  all: try congruence.
  all: try (unfold cores in *; simpl in *; congruence).
  all: unfold conserved in *; simpl in *; rewrite Hw3, Hk3, Hrv3; exact HC2.
Qed.

Lemma store_inv_release rid fromRec now db db' :
  releaseLocked rid fromRec now db = Ok db' -> store_inv db -> store_inv db'.
Proof.
  intros H I. destruct (releaseLocked_Ok _ _ _ _ _ H I) as (r & Hr & _ & _ & Hex & Hrv & Hc & Hl & C).
  destruct I as [_ R]. split; [by rewrite Hc|]. rewrite Hc, Hrv, Hl.
  assert (cores db !! rid = Some (rcore r)) as Hcr by by apply cores_lookup.
  assert (c_Settled (rcore r) = None) as Hn.
  { destruct Hex as (id & rv & Hlk & Hh). unfold held_of in Hh. bool_prop.
    destruct (ro_row _ _ _ R _ _ Hlk) as (c & Hcc & Hst & _). subst rid. rewrite Hcc in Hcr.
    injection Hcr as ->. destruct (c_Settled (rcore r)); [|done].
    assert (rv_State rv = ReservationSettled) by by apply Hst. congruence. }
  eapply (requests_ok_flip (cores db) (cores db) _ (ledger db)); eauto; try done.
  - by rewrite Hn.
  - rewrite (ro_charge _ _ _ R), Hcr. split; [|eauto]. by intros (? & [= <-] & ?).
Qed.

(** ** Settlement *)

Lemma insertUsageRecord_frame u db db' : insertUsageRecord u db = Ok db' ->
  db' = set_usage (usage db') db /\ is_Some (requests db !! u_RequestID u).
Proof.
  unfold insertUsageRecord. intros H. inv_ok. split; [by destruct db|].
  apply references_Ok in E1. bool_prop. by apply has_true.
Qed.

Lemma charged_app led e r : charged (led ++ [e]) r <-> charged led r \/ is_charge_of r e = true.
Proof.
  unfold charged. split.
  - intros (x & [Hx|Hx%list_elem_of_singleton]%elem_of_app & Hc); subst; eauto.
  - intros [(x & Hx & Hc)|Hc]; [exists x|exists e]; split; try done; set_solver.
Qed.

Lemma insert_ledger_Ok e db db' :
  insert_ledger e db = Ok db' ->
  db' = set_ledger (ledger db ++ [e]) db /\
  (forall r, is_charge_of r e = true -> ~ charged (ledger db) r /\ is_Some (requests db !! r)).
Proof.
  unfold insert_ledger. intros H. inv_ok. split; [done|].
  apply check_Ok in E. apply unique_Ok in E0. apply references_Ok in E1.
  intros r Hc. unfold is_charge_of in Hc. bool_prop. rewrite H0 in *.
  rewrite (bool_decide_eq_true_2 (le_EntryType e = _)) in E0 by done. simpl in E0. split.
  - intros (y & Hx & Hxc). destruct E0 as [|E0]; [done|]. rewrite forallb_forall in E0.
    apply list_elem_of_In, E0 in Hx. by rewrite Hxc in Hx.
  - simpl in *. by apply has_true.
Qed.

Lemma settle_attempt_cost_frame cmd db db' :
  settle_attempt_cost cmd db = Ok db' -> db' = set_attempts (attempts db') db.
Proof.
  unfold settle_attempt_cost. intros H.
  destruct (sc_AttemptID cmd), (sc_AttemptCost cmd), (sc_CostBasis cmd); inv_ok;
    by repeat match goal with d : DB |- _ => destruct d end.
Qed.

Definition settle_core (m : Z) (c : RCore) : RCore :=
  mkRCore (c_ID c) (c_Key c) (c_FiveHour c) (c_Weekly c) (c_Monthly c) (c_Source c) (Some m).

Lemma settle_request_Ok cmd charge now db db' r :
  settle_request cmd charge now db = Ok db' -> requests db !! sc_RequestID cmd = Some r ->
  0 <= charge /\ cores db' = <[sc_RequestID cmd := settle_core charge (rcore r)]> (cores db) /\
  db' = set_requests (requests db') db /\
  exists r', requests db' !! sc_RequestID cmd = Some r' /\ r_Status r' = Some ReqSettled.
Proof.
  unfold settle_request. intros H Hr. inv_ok. apply check_Ok in E. bool_prop.
  split_and!; [done| |by destruct db|].
  - unfold cores. simpl. apply map_eq. intros i. rewrite lookup_fmap.
    destruct (decide (i = sc_RequestID cmd)) as [->|Hne].
    + by rewrite lookup_alter_eq, lookup_insert_eq, Hr.
    + by rewrite lookup_alter_ne, lookup_insert_ne, lookup_fmap by done.
  - simpl. rewrite lookup_alter_eq, Hr. simpl. eauto.
Qed.

Lemma settle_one_frame charge db rv db' :
  settle_one charge db rv = Ok db' -> held_row db rv ->
  reservations db' = <[rv_ID rv := set_rv_State ReservationSettled rv]> (reservations db) /\
  requests db' = requests db /\ ledger db' = ledger db.
Proof.
  intros H [Hl Hs]. unfold settle_one in H. apply rbind_Ok in H as (db1 & H1 & H2).
  apply flip_reservation_Ok in H2 as (rv' & Hl' & _ & ->).
  apply settle_target_Ok in H1 as [(?&?&_&_&_&_&_&->)|(?&?&_&_&->)];
    simpl in *; rewrite Hl in Hl'; by injection Hl' as <-.
Qed.

(** The amounts after request [rid] settles for [m]. *)
Definition paid_with (cs : gmap string RCore) (rid : string) (m : Z) (r : string) : Z :=
  if decide (r = rid) then m else paid_of cs r.

Lemma paid_with_of cs rid m c r :
  paid_of (<[rid := settle_core m c]> cs) r = paid_with cs rid m r.
Proof.
  unfold paid_of, paid_with. destruct (decide (r = rid)) as [->|Hne].
  - by rewrite lookup_insert_eq.
  - by rewrite lookup_insert_ne.
Qed.

(** No row of a request is settled before its charge exists. *)
Lemma uncharged_rows db rid : store_inv db -> ~ charged (ledger db) rid ->
  forall id rv, reservations db !! id = Some rv -> rv_RequestID rv = rid -> rv_State rv <> ReservationSettled.
Proof.
  intros [_ R] Hn id rv Hl <- Hs. apply Hn. apply (ro_charge _ _ _ R).
  destruct (ro_row _ _ _ R _ _ Hl) as (c & Hc & Hst & _). apply Hst in Hs. eauto.
Qed.

Lemma conserved_paid_with db rid m : store_inv db -> ~ charged (ledger db) rid ->
  conserved (paid_with (cores db) rid m) [] db.
Proof.
  intros I Hn. eapply core_paid_ext; [|apply I]. intros id rv Hl Hs.
  unfold paid_with. case_decide; [|done]. exfalso. by eapply uncharged_rows.
Qed.

Lemma settlePlan_Ok cmd r now db db' :
  settlePlan cmd r now db = Ok db' -> requests db !! sc_RequestID cmd = Some r -> store_inv db ->
  ~ charged (ledger db) (sc_RequestID cmd) /\
  (exists id rv, reservations db !! id = Some rv /\ held_of (sc_RequestID cmd) rv = true) /\
  reservations db' = flip_all (sc_RequestID cmd) ReservationSettled (reservations db) /\
  0 <= sc_ChargeMicros cmd /\
  cores db' = <[sc_RequestID cmd := settle_core (sc_ChargeMicros cmd) (rcore r)]> (cores db) /\
  (exists e, ledger db' = ledger db ++ [e] /\ is_charge_of (sc_RequestID cmd) e = true /\
     le_AmountMicros e = sc_ChargeMicros cmd /\ le_Unit e = UnitMicrocredit) /\
  conserved (paid_with (cores db) (sc_RequestID cmd) (sc_ChargeMicros cmd)) [] db'.
Proof.
  unfold settlePlan. intros H Hr I. set (rid := sc_RequestID cmd) in *. set (m := sc_ChargeMicros cmd) in *.
  apply rbind_Ok in H as (db1 & H1 & H). apply insertUsageRecord_frame in H1 as [F1 _].
  apply rbind_Ok in H as (db2 & H2 & H). apply insert_ledger_Ok in H2 as [F2 Hch].
  destruct (Hch rid) as [Hunch _].
  { unfold is_charge_of. simpl. by rewrite bool_decide_eq_true_2. }
  assert (ledger db1 = ledger db) as Hl1 by (by rewrite F1). rewrite Hl1 in *.
  destruct (bool_decide _) eqn:Hne in H; [done|]. apply bool_decide_eq_false in Hne.
  apply rbind_Ok in H as (db3 & H3 & H). apply rbind_Ok in H as (db4 & H4 & H5).
  assert (reservations db2 = reservations db /\ requests db2 = requests db /\
          windows db2 = windows db /\ keys db2 = keys db) as (Hrv2 & Hq2 & Hw2 & Hk2)
    by (rewrite F2, F1; done).
  pose proof (conserved_paid_with db rid m I Hunch) as C0.
  destruct (flip_loop_all (settle_one m) ReservationSettled (conserved (paid_with (cores db) rid m) []) rid db2 db3)
    as (Hrv3 & Hq3 & Hl3 & HC3).
  { intros d rv d' Hd Hh Hrid. destruct (settle_one_frame _ _ _ _ Hd Hh) as (?&?&?). split_and!; try done.
    eapply conserved_settle_one; [done..|]. rewrite Hrid. unfold paid_with. by rewrite decide_True. }
  { exists (paid_with (cores db) rid m). unfold conserved. by rewrite Hw2, Hk2, Hrv2. }
  { exact H3. }
  apply settle_attempt_cost_frame in H4.
  eapply settle_request_Ok in H5 as (Hm & Hc5 & F5 & _); [|rewrite H4; simpl; by rewrite Hq3, Hq2].
  assert (reservations db' = reservations db3 /\ ledger db' = ledger db3 /\ windows db' = windows db3 /\
          keys db' = keys db3 /\ cores db4 = cores db) as (Hrv' & Hl' & Hw' & Hk' & Hc4).
  { rewrite F5, H4. unfold cores. simpl. split_and!; try done. by rewrite Hq3, Hq2. }
  split_and!; try done.
  - destruct (loadHeld_nonempty _ _ Hne) as (id & rv & Hl & Hh). exists id, rv. by rewrite <- Hrv2.
  - by rewrite Hrv', Hrv3, Hrv2.
  - by rewrite Hc5, Hc4.
  - rewrite Hl', Hl3, F2. simpl. eexists. split_and!; [done| |done..].
    unfold is_charge_of. simpl. by rewrite bool_decide_eq_true_2.
  - unfold conserved. rewrite Hw', Hk', Hrv'. apply HC3. unfold conserved. by rewrite Hw2, Hk2, Hrv2.
Qed.

(** The request-level half of a settlement, for either charge source. *)
Lemma requests_ok_settle db rid r m led' :
  store_inv db -> requests db !! rid = Some r -> 0 <= m <= max_int64 -> ~ charged (ledger db) rid ->
  (exists e, led' = ledger db ++ [e] /\ is_charge_of rid e = true) ->
  (exists id rv, reservations db !! id = Some rv /\ held_of rid rv = true) ->
  requests_ok (<[rid := settle_core m (rcore r)]> (cores db))
    (flip_all rid ReservationSettled (reservations db)) led'.
Proof.
  intros [_ R] Hr Hm Hn (e & -> & He) Hex.
  eapply (requests_ok_flip (cores db)); [by apply cores_lookup|apply lookup_insert_eq|..|exact R]; try done.
  - intros. by rewrite lookup_insert_ne.
  - intros m' [= <-]. done.
  - intros r' Hne. rewrite charged_app. split; [|by left]. intros [|Hx]; [done|].
    unfold is_charge_of in *. bool_prop. congruence.
  - rewrite charged_app. split; [done|]. by right.
Qed.

(** ** Wallet settlement *)

Lemma insert_entry_frame e db db' : insert_entry e db = Ok db' ->
  db' = set_entries (entries db ++ [e]) db.
Proof. unfold insert_entry. intros H. by inv_ok. Qed.

Lemma write_consume_frame h cur now src m db db' :
  write_consume h cur now src m db = Ok db' -> db' = set_entries (entries db') db.
Proof.
  unfold write_consume. intros H. destruct (m =? 0); [inv_ok; by destruct db'|].
  inv_ok. apply insert_entry_frame in H. subst. by destruct db.
Qed.

Lemma settleWalletLocked_frame rid charge now db db' :
  settleWalletLocked rid charge now db = Ok db' ->
  db' = set_holds (holds db') (set_entries (entries db') db).
Proof.
  unfold settleWalletLocked. intros H. destruct (find_hold rid db) as [h|]; [|done].
  apply rbind_Ok in H as (w & _ & H). destruct (bool_decide _) in H; [|done].
  apply rbind_Ok in H as ([[cc cb] ec] & _ & H).
  apply rbind_Ok in H as (d1 & H1%write_consume_frame & H).
  apply rbind_Ok in H as (d2 & H2%write_consume_frame & H). inv_ok.
  rewrite H2, H1. by destruct db.
Qed.

Lemma msum_flip_all (f : Reservation -> Z) rid s rvs :
  (forall rv, held_of rid rv = true -> (exists id, rvs !! id = Some rv) -> f (set_rv_State s rv) = f rv) ->
  msum (fun _ => f) (flip_all rid s rvs) = msum (fun _ => f) rvs.
Proof.
  intros Hf. unfold flip_all. rewrite msum_fmap. fold (msum (fun _ rv => f (if held_of rid rv then set_rv_State s rv else rv)) rvs).
  apply msum_ext. intros id rv Hl. destruct (held_of rid rv) eqn:E; eauto.
Qed.

(** Moving rows that have no window or key target. *)
Lemma conserved_flip_wallet paid rid s db rvs' :
  conserved paid [] db -> s <> ReservationHeld ->
  (forall id rv, reservations db !! id = Some rv -> held_of rid rv = true -> target_of rv = None) ->
  rvs' = flip_all rid s (reservations db) ->
  core paid [] (windows db) (keys db) rvs'.
Proof.
  intros [L R] Hs Hn ->. split.
  - eapply law_ext; [| |exact L]; intros t.
    + unfold held. f_equal. apply (msum_flip_all (held_at t "")). intros rv Hh (id & Hl).
      unfold held_at. change (target_of (set_rv_State s rv)) with (target_of rv).
      by rewrite (Hn _ _ Hl Hh), bool_decide_eq_false_2.
    + unfold spent. apply (msum_flip_all (spent_at paid t "")). intros rv Hh (id & Hl).
      unfold spent_at. change (target_of (set_rv_State s rv)) with (target_of rv).
      by rewrite (Hn _ _ Hl Hh), bool_decide_eq_false_2.
  - destruct R as [R1 R2 R3 R4 R5]. split; try done.
    + intros id rv'. unfold flip_all. rewrite lookup_fmap. intros (rv & Hl & ->)%fmap_Some.
      destruct (held_of rid rv); apply (R1 _ _ Hl).
    + intros id rv' wid (rv & Hl & _ & _ & Ht & Hst)%flip_all_lookup. rewrite Ht. intros Ht'.
      destruct (R2 _ _ _ Hl Ht') as (v & ? & Hv). exists v. split; [done|].
      destruct Hst as [[Hh _]|[_ ->]]; [|done]. rewrite (Hn _ _ Hl Hh) in Ht'. done.
    + intros id rv' kid (rv & Hl & _ & _ & -> & _)%flip_all_lookup. eauto.
Qed.

Lemma settle_wallet_reservation_Ok rid db db' c led :
  settle_wallet_reservation rid db = Ok db' -> requests_ok (cores db) (reservations db) led ->
  cores db !! rid = Some c -> walletRequest c ->
  db' = set_reservations (flip_all rid ReservationSettled (reservations db)) db /\
  (exists id rv, reservations db !! id = Some rv /\ held_of rid rv = true) /\
  (forall id rv, reservations db !! id = Some rv -> held_of rid rv = true -> target_of rv = None).
Proof.
  unfold settle_wallet_reservation. cbv zeta.
  set (p := fun rv => bool_decide (rv_RequestID rv = rid) && bool_decide (rv_TargetKind rv = TargetWallet)
                      && bool_decide (rv_State rv = ReservationHeld)). intros H R Hc Hw.
  assert (forall id rv, reservations db !! id = Some rv -> rv_RequestID rv = rid -> rv_TargetKind rv = TargetWallet)
    as Hkind.
  { intros id rv Hl Hr. destruct (ro_row _ _ _ R _ _ Hl) as (c0 & Hc0 & _ & Hwal & _).
    apply Hwal. rewrite Hr, Hc in Hc0. by injection Hc0 as <-. }
  assert (forall id rv, reservations db !! id = Some rv -> p rv = held_of rid rv) as Hp.
  { intros id rv Hl. unfold p, held_of. destruct (decide (rv_RequestID rv = rid)) as [He|Hne].
    - rewrite (bool_decide_eq_true_2 (rv_TargetKind rv = _)) by eauto. by rewrite andb_true_r.
    - by rewrite bool_decide_eq_false_2. }
  destruct (rows (reservations db) p) as [|rv0 l] eqn:Hrows; [done|]. inv_ok. split_and!.
  - f_equal. apply map_eq. intros id. unfold flip_all. rewrite !lookup_fmap.
    destruct (reservations db !! id) as [rv|] eqn:Hl; simpl; [|done]. by rewrite <- (Hp _ _ Hl).
  - assert (rv0 ∈ rows (reservations db) p) as (Hpr & id & Hl)%rows_elem by (rewrite Hrows; set_solver).
    exists id, rv0. split; [done|]. by rewrite <- (Hp _ _ Hl).
  - intros id rv Hl Hh. unfold held_of in Hh. bool_prop. unfold target_of. by rewrite (Hkind _ _ Hl).
Qed.

Lemma settleWallet_Ok cmd r now db db' :
  settleWallet cmd r now db = Ok db' -> requests db !! sc_RequestID cmd = Some r ->
  r_ChargeSource r = Some ChargeSourceWallet -> store_inv db ->
  ~ charged (ledger db) (sc_RequestID cmd) /\
  (exists id rv, reservations db !! id = Some rv /\ held_of (sc_RequestID cmd) rv = true) /\
  reservations db' = flip_all (sc_RequestID cmd) ReservationSettled (reservations db) /\
  0 <= sc_ChargeMicros cmd /\
  cores db' = <[sc_RequestID cmd := settle_core (sc_ChargeMicros cmd) (rcore r)]> (cores db) /\
  (exists e, ledger db' = ledger db ++ [e] /\ is_charge_of (sc_RequestID cmd) e = true /\
     le_AmountMicros e = sc_ChargeMicros cmd /\ le_Unit e = UnitMicromoney) /\
  conserved (paid_with (cores db) (sc_RequestID cmd) (sc_ChargeMicros cmd)) [] db'.
Proof.
  unfold settleWallet. intros H Hr Hwal I. set (rid := sc_RequestID cmd) in *.
  destruct (sc_ChargeMicros cmd <? 0); [done|].
  apply rbind_Ok in H as (db1 & H1 & H). apply insertUsageRecord_frame in H1 as [F1 _].
  apply rbind_Ok in H as (charge & _ & H). destruct (_ =? _) eqn:Hm in H; [|done]. apply Z.eqb_eq in Hm.
  rewrite <- Hm. set (m := Micros charge) in *.
  apply rbind_Ok in H as (db2 & H2 & H). apply insert_ledger_Ok in H2 as [F2 Hch].
  destruct (Hch rid) as [Hunch _].
  { unfold is_charge_of. simpl. by rewrite bool_decide_eq_true_2. }
  assert (ledger db1 = ledger db) as Hl1 by (by rewrite F1). rewrite Hl1 in *.
  apply rbind_Ok in H as (db3 & F3%settleWalletLocked_frame & H). apply rbind_Ok in H as (db4 & H4 & H).
  apply rbind_Ok in H as (db5 & F5%settle_attempt_cost_frame & H6).
  assert (reservations db3 = reservations db /\ requests db3 = requests db /\ windows db3 = windows db /\
          keys db3 = keys db /\ cores db3 = cores db) as (Hrv3 & Hq3 & Hw3 & Hk3 & Hc3)
    by (rewrite F3, F2, F1; done).
  assert (ledger db3 = ledger db2) as Hl3 by (by rewrite F3).
  pose proof (conserved_paid_with db rid m I Hunch) as C0.
  assert (cores db !! rid = Some (rcore r)) as Hcr by by apply cores_lookup.
  destruct (settle_wallet_reservation_Ok rid db3 db4 (rcore r) (ledger db)) as (F4 & Hex & Hnone);
    [done|by rewrite Hc3, Hrv3; apply I|by rewrite Hc3|done|].
  eapply settle_request_Ok in H6 as (Hm6 & Hc6 & F6 & _); [|rewrite F5, F4; simpl; by rewrite Hq3].
  assert (reservations db' = flip_all rid ReservationSettled (reservations db) /\ ledger db' = ledger db2 /\
          windows db' = windows db /\ keys db' = keys db /\ cores db5 = cores db) as (Hrv' & Hl' & Hw' & Hk' & Hc5).
  { rewrite F6, F5, F4. unfold cores. simpl. rewrite Hq3, Hrv3. split_and!; congruence. }
  rewrite Hrv3 in *. split_and!; try done.
  - by rewrite Hc6, Hc5.
  - rewrite Hl', F2. simpl. eexists. split_and!; [done| |done..].
    unfold is_charge_of. simpl. by rewrite bool_decide_eq_true_2.
  - unfold conserved. rewrite Hw', Hk'. by eapply (conserved_flip_wallet _ rid ReservationSettled).
Qed.

(** Either way a settlement succeeds, it moves the request, its rows and the
    ledger as one. *)
Lemma Settle_Ok cmd now db db' :
  Settle cmd now db = Ok db' -> store_inv db ->
  exists r, requests db !! sc_RequestID cmd = Some r /\ finalized r = false /\
  ~ charged (ledger db) (sc_RequestID cmd) /\
  (exists id rv, reservations db !! id = Some rv /\ held_of (sc_RequestID cmd) rv = true) /\
  reservations db' = flip_all (sc_RequestID cmd) ReservationSettled (reservations db) /\
  0 <= sc_ChargeMicros cmd /\
  cores db' = <[sc_RequestID cmd := settle_core (sc_ChargeMicros cmd) (rcore r)]> (cores db) /\
  (exists e, ledger db' = ledger db ++ [e] /\ is_charge_of (sc_RequestID cmd) e = true /\
     le_AmountMicros e = sc_ChargeMicros cmd /\
     le_Unit e = (if bool_decide (r_ChargeSource r = Some ChargeSourceWallet) then UnitMicromoney
                  else UnitMicrocredit)) /\
  conserved (paid_with (cores db) (sc_RequestID cmd) (sc_ChargeMicros cmd)) [] db'.
Proof.
  unfold Settle, select_one. intros H I. destruct (sc_ChargeMicros cmd <? 0); [done|].
  destruct (requests db !! sc_RequestID cmd) as [r|] eqn:Hr; [|done]. simpl in H.
  destruct (finalized r) eqn:Hf; [done|]. exists r. split; [done|]. split; [done|].
  destruct (bool_decide _) eqn:Hs; [apply bool_decide_eq_true in Hs|].
  - by apply (settleWallet_Ok _ _ _ _ _ H Hr Hs I).
  - by apply (settlePlan_Ok _ _ _ _ _ H Hr I).
Qed.

Lemma store_inv_settle cmd now db db' :
  Settle cmd now db = Ok db' -> in_int64 (sc_ChargeMicros cmd) -> store_inv db -> store_inv db'.
Proof.
  intros H Hrange I. destruct (Settle_Ok _ _ _ _ H I) as (r & Hr & _ & Hn & Hex & Hrv & Hm & Hc & (e & Hl & He & _) & C).
  split.
  - eapply core_paid_ext; [|exact C]. intros. rewrite Hc. apply paid_with_of.
  - rewrite Hc, Hrv, Hl. apply requests_ok_settle; eauto. i64.
Qed.

(** ** Reservation *)

Lemma insertRequest_Ok r now db db' : insertRequest r now db = Ok db' ->
  requests db !! r_ID r = None /\
  db' = set_requests (<[r_ID r := request_row r now]> (requests db)) db.
Proof. unfold insertRequest. intros H. inv_ok. by apply insert_row_Ok in E0 as [? ->]. Qed.

Lemma insert_rows paid newID rid hs pend db db' :
  rfold (fun db rv => insert_reservation rv db) db (map (reservation_of newID rid) hs) = Ok db' ->
  db' = set_reservations (reservations db') db /\
  (forall id rv, reservations db' !! id = Some rv <->
     reservations db !! id = Some rv \/
     exists h, h ∈ hs /\ rv = reservation_of newID rid h /\ id = newID (h_TargetKind h)) /\
  NoDup (h_TargetKind <$> hs) /\
  Forall (fun h => target_refs_ok (reservation_of newID rid h) = true /\
                   forall id o, reservations db !! id = Some o -> rv_RequestID o = rid ->
                     rv_TargetKind o <> h_TargetKind h) hs /\
  (Forall (fun h => hold_target h <> None) hs ->
   conserved paid (hs ++ pend) db -> conserved paid pend db').
Proof.
  revert db. induction hs as [|h hs IH]; intros db H; simpl in H.
  - inv_ok. split_and!; [by destruct db'| |constructor|constructor|done]. set_solver.
  - apply rbind_Ok in H as (db1 & H1 & H2).
    destruct (IH db1 H2) as (F & Hrows & Hnd & Hall & HC).
    pose proof (insert_reservation_Ok _ _ _ H1) as (_ & Hok & Hfresh & Huniq & _ & _ & _ & F1). simpl in *.
    assert (forall id rv, reservations db1 !! id = Some rv <->
              reservations db !! id = Some rv \/
              rv = reservation_of newID rid h /\ id = newID (h_TargetKind h)) as Hrows1.
    { intros id rv. rewrite F1. simpl. rewrite lookup_insert_Some. split.
      - intros [[<- <-]|[_ ?]]; auto.
      - intros [Hl|[-> ->]]; [|by left]. right. split; [|done]. intros <-. congruence. }
    rewrite Forall_forall in Hall. split_and!.
    + rewrite F, F1. done.
    + intros id rv. rewrite Hrows, Hrows1. split.
      * intros [[?|[-> ->]]|(h' & ? & -> & ->)]; [by left| |]; right; eexists; (split; [|done]); set_solver.
      * intros [?|(h' & [->|?]%elem_of_cons & -> & ->)]; [by left; left|by left; right|]. right. eauto.
    + apply NoDup_cons. split; [|done]. intros (h' & Hk & Hin)%list_elem_of_fmap.
      destruct (Hall _ Hin) as [_ Hx]. eapply (Hx (newID (h_TargetKind h)) (reservation_of newID rid h)).
      * apply Hrows1. by right.
      * done.
      * done.
    + constructor; [split; [done|]|].
      { intros id o Hl Hr Hk. by eapply Huniq. }
      apply Forall_forall. intros h' Hin. destruct (Hall _ Hin) as [? Hx]. split; [done|].
      intros id o Hl. apply (Hx id). apply Hrows1. by left.
    + intros [Hn Hns]%Forall_cons C. apply HC; [done|]. by eapply conserved_insert.
Qed.

(** The windows a request is bound to come from its holds. *)
Lemma bound_bind r h k : h_TargetKind h <> k ->
  bound_target (rcore (bind_window r h)) k = bound_target (rcore r) k.
Proof. unfold bind_window. destruct (h_TargetKind h) eqn:E, k; simpl; congruence. Qed.

Lemma bound_fold_out hs r k : (forall h, h ∈ hs -> h_TargetKind h <> k) ->
  bound_target (rcore (foldl bind_window r hs)) k = bound_target (rcore r) k.
Proof.
  revert r. induction hs as [|h hs IH]; intros r Hk; simpl; [done|].
  rewrite IH by set_solver. apply bound_bind. set_solver.
Qed.

Lemma bound_fold_in hs r h : NoDup (h_TargetKind <$> hs) -> h ∈ hs ->
  h_TargetKind h <> TargetKeyBudget -> h_TargetKind h <> TargetWallet ->
  bound_target (rcore (foldl bind_window r hs)) (h_TargetKind h) = hold_target h.
Proof.
  revert r. induction hs as [|h0 hs IH]; intros r Hnd Hin Hk Hw; [set_solver|].
  apply NoDup_cons in Hnd as [Hn Hnd]. apply elem_of_cons in Hin as [->|Hin]; simpl; [|by apply IH].
  rewrite bound_fold_out.
  - unfold bind_window, hold_target. by destruct (h_TargetKind h0).
  - intros h' Hin' He. apply Hn. rewrite <- He. apply list_elem_of_fmap. eauto.
Qed.

Lemma bound_fold_key hs r : r_APIKeyID (foldl bind_window r hs) = r_APIKeyID r /\
  r_ID (foldl bind_window r hs) = r_ID r /\
  chargeSourceOf (foldl bind_window r hs) = chargeSourceOf r.
Proof.
  revert r. induction hs as [|h hs IH]; intros r; simpl; [done|].
  destruct (IH (bind_window r h)) as (-> & -> & ->). unfold bind_window. by destruct (h_TargetKind h).
Qed.

(** How the admission service calls [Reserve]: a plan request, not yet bound
    to windows, whose key hold (if any) is on the request's own key. *)
Definition plan_reserve (cmd : ReserveCommand) : Prop :=
  let r := rc_Request cmd in
  r_ChargeSource r <> Some ChargeSourceWallet /\
  r_WindowFiveHourID r = None /\ r_WindowWeeklyID r = None /\ r_WindowMonthlyID r = None /\
  (forall h, h ∈ rc_Holds cmd -> h_TargetKind h = TargetKeyBudget -> h_APIKeyID h = r_APIKeyID r) /\
  (r_APIKeyID r <> None -> exists h, h ∈ rc_Holds cmd /\ h_TargetKind h = TargetKeyBudget).

Lemma requests_ok_reserve cs rvs rvs' led newID hs req now :
  requests_ok cs rvs led -> cs !! r_ID req = None ->
  (forall id rv, rvs' !! id = Some rv <-> rvs !! id = Some rv \/
     exists h, h ∈ hs /\ rv = reservation_of newID (r_ID req) h /\ id = newID (h_TargetKind h)) ->
  NoDup (h_TargetKind <$> hs) ->
  Forall (fun h => target_refs_ok (reservation_of newID (r_ID req) h) = true) hs ->
  Forall (fun h => hold_target h <> None) hs ->
  chargeSourceOf req = ChargeSourcePlan ->
  (forall h, h ∈ hs -> bound_target (rcore req) (h_TargetKind h) = hold_target h) ->
  (forall k t, bound_target (rcore req) k = Some t -> exists h, h ∈ hs /\ h_TargetKind h = k) ->
  requests_ok (<[r_ID req := rcore (request_row req now)]> cs) rvs' led.
Proof.
  intros R Hf Hrows Hnd Href Hnn Hsrc Hin Hbound. rewrite Forall_forall in Href, Hnn.
  assert (forall k, bound_target (rcore (request_row req now)) k = bound_target (rcore req) k) as Hb by by intros [].
  assert (forall id rv, rvs !! id = Some rv -> rv_RequestID rv <> r_ID req) as Hold.
  { intros id rv Hl He. destruct (ro_row _ _ _ R _ _ Hl) as (c & Hc & _). rewrite He, Hf in Hc. done. }
  assert (forall h, h ∈ hs -> target_of (reservation_of newID (r_ID req) h) = hold_target h
                              /\ h_TargetKind h <> TargetWallet) as Htgt.
  { intros h Hh. specialize (Href _ Hh). specialize (Hnn _ Hh).
    unfold target_refs_ok, target_of, hold_target in *. simpl in *.
    destruct (h_TargetKind h); try done. by destruct (h_WindowID h). }
  destruct R as [R1 R2 R3 R4 R5 R6 R7]. split.
  - intros rid c [[<- <-]|[_ Hl]]%lookup_insert_Some; [done|eauto].
  - intros id rv [Hl|(h & Hh & -> & ->)]%Hrows.
    + rewrite lookup_insert_ne by (intros He; by eapply Hold). eauto.
    + simpl. rewrite lookup_insert_eq. eexists. split; [done|].
      destruct (Htgt _ Hh) as [Ht Hw]. rewrite Ht, Hb, Hin by done. unfold walletRequest. simpl. rewrite Hsrc.
      split_and!; [split; congruence|split; congruence|done].
  - intros rid c k t [[<- <-]|[Hne Hl]]%lookup_insert_Some Hnw.
    + rewrite Hb. intros (h & Hh & <-)%Hbound. exists (newID (h_TargetKind h)), (reservation_of newID (r_ID req) h).
      split_and!; try done. apply Hrows. eauto.
    + intros Hbt. destruct (R3 _ _ _ _ Hl Hnw Hbt) as (id & rv & ? & ?). exists id, rv.
      split; [|done]. apply Hrows. by left.
  - intros rid. rewrite R4. split.
    + intros (c & Hl & ?). exists c. split; [|done]. rewrite lookup_insert_ne; [done|congruence].
    + intros (c & [[<- <-]|[_ Hl]]%lookup_insert_Some & ?); [done|eauto].
  - intros rid c m [[<- <-]|[_ Hl]]%lookup_insert_Some; [done|eauto].
  - intros i1 i2 rv1 rv2 [Hl1|(h1 & Hh1 & -> & ->)]%Hrows [Hl2|(h2 & Hh2 & -> & ->)]%Hrows; simpl; intros He Hk.
    + eauto.
    + by apply Hold in Hl1.
    + symmetry in He. by apply Hold in Hl2.
    + by rewrite Hk.
  - intros i1 i2 rv1 rv2 [Hl1|(h1 & Hh1 & -> & ->)]%Hrows [Hl2|(h2 & Hh2 & -> & ->)]%Hrows; simpl; intros He.
    + eauto.
    + by apply Hold in Hl1.
    + symmetry in He. by apply Hold in Hl2.
    + done.
Qed.

(** What a successful reservation did. *)
Lemma Reserve_Ok newID now cmd db adm db' :
  Reserve newID now cmd db = Ok (adm, db') ->
  let hs := sort_by (fun h => windowOrderKey (h_TargetKind h)) (rc_Holds cmd) in
  exists st req,
    rfold apply_hold (mkLoop db [] false 0 0) hs = Ok st /\ hl_blocked st = [] /\ hl_keyBlocked st = false /\
    req = foldl bind_window (admit_request (rc_Request cmd) (rc_AdmittedAt cmd) (hl_amount st)
             (r_ChargeSource (rc_Request cmd)) (r_PriceVersionID (rc_Request cmd))) hs /\
    adm = mkAdmission (r_ID req) (map (reservation_of newID (r_ID req)) hs) /\
    exists db1, insertRequest req now (hl_db st) = Ok db1 /\
    rfold (fun db rv => insert_reservation rv db) db1 (map (reservation_of newID (r_ID req)) hs) = Ok db'.
Proof.
  unfold Reserve. cbv zeta. intros H. apply rbind_Ok in H as ([] & _ & H).
  apply rbind_Ok in H as (st & Hst & H). destruct (_ || _) eqn:Hb in H; [done|].
  apply orb_false_iff in Hb as [Hb Hkb]. apply negb_false_iff, bool_decide_eq_true in Hb.
  apply rbind_Ok in H as (db1 & H1 & H). apply rbind_Ok in H as (db2 & H2 & H). inv_ok.
  eexists st, _. split_and!; try done. eauto.
Qed.

Lemma store_inv_reserve newID now cmd db adm db' :
  Reserve newID now cmd db = Ok (adm, db') -> plan_reserve cmd -> store_inv db -> store_inv db'.
Proof.
  intros H (Hsrc & H5 & HW & HM & Hkey & Hkeyex) [C R].
  apply Reserve_Ok in H as (st & req & Hloop & Hb & Hk & Hreq & _ & db1 & Hins & Hrows).
  set (hs := sort_by _ _) in *.
  assert (forall h, h ∈ hs <-> h ∈ rc_Holds cmd) as Hhs by (intros h; unfold hs; by rewrite sort_by_Permutation).
  destruct (apply_holds (paid_of (cores db)) hs [] _ _ Hloop Hb Hk) as (_ & _ & Hf & (F & _) & HC). simpl in F, HC.
  assert (Forall (fun h => hold_target h <> None) hs) as Hnn by (eapply Forall_impl; [exact Hf|by intros ? []]).
  apply insertRequest_Ok in Hins as [Hfresh F1].
  destruct (insert_rows (paid_of (cores db)) newID (r_ID req) hs [] db1 db' Hrows)
    as (F' & Hrv & Hnd & Hall & HC').
  assert (requests (hl_db st) = requests db /\ ledger (hl_db st) = ledger db /\
          reservations (hl_db st) = reservations db) as (Hq & Hl & Hr) by (by rewrite F).
  assert (cores db' = <[r_ID req := rcore (request_row req now)]> (cores db)) as Hc'.
  { unfold cores. rewrite F', F1. simpl. by rewrite fmap_insert, Hq. }
  split.
  - eapply core_paid_ext; [|apply HC'; [done|]].
    + intros id rv Hlk Hs. rewrite Hc'. unfold paid_of. rewrite lookup_insert_ne; [done|].
      apply Hrv in Hlk as [Hlk|(h & _ & -> & _)]; [|done]. rewrite F1 in Hlk. simpl in Hlk. rewrite Hr in Hlk.
      destruct (ro_row _ _ _ R _ _ Hlk) as (c & Hcc & _). intros He. rewrite <- He in Hcc.
      unfold cores in Hcc. by rewrite lookup_fmap, <- Hq, Hfresh in Hcc.
    + unfold conserved. rewrite F1. simpl. by apply HC.
  - rewrite Hc'. replace (ledger db') with (ledger db) by (rewrite F', F1; simpl; done).
    destruct (bound_fold_key hs (admit_request (rc_Request cmd) (rc_AdmittedAt cmd) (hl_amount st)
             (r_ChargeSource (rc_Request cmd)) (r_PriceVersionID (rc_Request cmd)))) as (Bk & Bi & Bs).
    rewrite <- Hreq in Bk, Bi, Bs. simpl in Bk.
    eapply requests_ok_reserve; [exact R| |..|exact Hnn| | |].
    + unfold cores. by rewrite lookup_fmap, <- Hq, Hfresh.
    + intros id rv. rewrite Hrv, F1. simpl. by rewrite Hr.
    + done.
    + eapply Forall_impl; [exact Hall|by intros ? []].
    + rewrite Bs. unfold chargeSourceOf. simpl. by rewrite bool_decide_eq_false_2.
    + intros h Hh. destruct (decide (h_TargetKind h = TargetKeyBudget)) as [He|Hne].
      * rewrite He. simpl. unfold hold_target. rewrite He, Bk. f_equal. symmetry. apply Hkey; [by apply Hhs|done].
      * rewrite Hreq. apply bound_fold_in; try done. intros He.
        rewrite Forall_forall in Hall, Hnn. destruct (Hall _ Hh) as [Hok _]. specialize (Hnn _ Hh).
        unfold target_refs_ok, hold_target in *. simpl in *. rewrite He in *. by destruct (h_WindowID h).
    + intros k t Hbt. destruct (decide (k = TargetKeyBudget)) as [->|Hne].
      * simpl in Hbt. rewrite Bk in Hbt. destruct Hkeyex as (h & Hh & He).
        { intros Hn. by rewrite Hn in Hbt. } exists h. by rewrite Hhs.
      * destruct (decide (Exists (fun h => h_TargetKind h = k) hs)) as [Hex|Hno]; [by apply Exists_exists|].
        rewrite Exists_exists in Hno. rewrite Hreq, bound_fold_out in Hbt by eauto. simpl in Hbt.
        destruct k; simpl in Hbt; rewrite ?H5, ?HW, ?HM in Hbt; done.
Qed.
