(* ===== verification/LeaseStore.v ===== *)
(** * LeaseStore: database concurrency leases with fencing

    [internal/inference/postgres/lease_repo.go]. A lease is owned by the exact
    (owner token, fencing token) pair while its row is held; reclamation of
    timed-out leases happens inside acquisition. *)

From Stdlib Require Import ZArith Lia Bool.
From stdpp Require Import base gmap strings list relations.
From S2P Require Import Prelude Domain Money Calendar WalletRules Tables RequestStore Conservation.

Local Open Scope Z_scope.
Local Open Scope go_scope.

Record AcquireLeaseCommand := mkAcquire {
  al_Scope : LeaseScope;
  al_ScopeID : string;
  al_RequestID : string;
  al_OwnerToken : string;
  al_Limit : Z;
  al_TTL : duration;
  al_Now : instant;
}.

Definition in_scope (s : LeaseScope) (id : string) (l : ConcurrencyLease) : bool :=
  bool_decide (l_Scope l = s) && bool_decide (l_ScopeID l = id).

Definition is_held (l : ConcurrencyLease) : bool := bool_decide (l_State l = LeaseHeld).

Definition set_l_State (s : LeaseState) (released : option instant) (l : ConcurrencyLease) : ConcurrencyLease :=
  mkLease (l_ID l) (l_Scope l) (l_ScopeID l) (l_RequestID l) (l_OwnerToken l) (l_FencingToken l) s
    (l_AcquiredAt l) (l_ExpiresAt l) released.

(** [UPDATE ... SET state = 'expired' WHERE scope AND held AND expires_at <= now]. *)
Definition reclaim (s : LeaseScope) (id : string) (now : instant) (ls : gmap string ConcurrencyLease)
  : gmap string ConcurrencyLease :=
  (fun l => if in_scope s id l && is_held l && (l_ExpiresAt l <=? now)
            then set_l_State LeaseExpired (l_ReleasedAt l) l else l) <$> ls.

Definition held_in (s : LeaseScope) (id : string) (ls : gmap string ConcurrencyLease) : list ConcurrencyLease :=
  rows ls (fun l => in_scope s id l && is_held l).

(** [COALESCE(MAX(fencing_token), 0)]. *)
Definition max_fencing (s : LeaseScope) (id : string) (ls : gmap string ConcurrencyLease) : Z :=
  foldr Z.max 0 (map l_FencingToken (rows ls (in_scope s id))).

Definition insert_lease (l : ConcurrencyLease) (db : DB) : res DB :=
  let? _ := check ((0 <? l_FencingToken l) && (l_AcquiredAt l <? l_ExpiresAt l)) in
  let? ls := insert_row (l_ID l) l (leases db) in
  let? _ := unique (forallb (fun o => negb (in_scope (l_Scope l) (l_ScopeID l) o
                                            && bool_decide (l_RequestID o = l_RequestID l)))
                      (map_to_list (leases db)).*2) in
  let? _ := references (has (requests db) (l_RequestID l)) in
  Ok (set_leases ls db).

(** [newID] and [newOwner] are drawn by [uuid.NewString]; [clock] is read when
    the command carries no time. *)
Definition AcquireLeaseTx (newID newOwner : string) (clock : instant) (cmd : AcquireLeaseCommand) (db : DB)
  : res (ConcurrencyLease * DB) :=
  guard 0 <? al_Limit cmd else NewError CodeInvalidInput;
  guard 0 <? al_TTL cmd else NewError CodeInvalidInput;
  let owner := if bool_decide (al_OwnerToken cmd = "") then newOwner else al_OwnerToken cmd in
  let now := if IsZero (al_Now cmd) then clock else al_Now cmd in
  let ls := reclaim (al_Scope cmd) (al_ScopeID cmd) now (leases db) in
  let live := Z.of_nat (length (held_in (al_Scope cmd) (al_ScopeID cmd) ls)) in
  let maxFencing := max_fencing (al_Scope cmd) (al_ScopeID cmd) ls in
  fail_if al_Limit cmd <=? live with NewError CodeInsufficientCapacity;
  let row := mkLease newID (al_Scope cmd) (al_ScopeID cmd) (al_RequestID cmd) owner (add64 maxFencing 1)
               LeaseHeld now (time_add now (al_TTL cmd)) None in
  let? db := insert_lease row (set_leases ls db) in
  Ok (row, db).

Definition owns (owner : string) (fencing : Z) (l : ConcurrencyLease) : bool :=
  bool_decide (l_OwnerToken l = owner) && (l_FencingToken l =? fencing) && is_held l.

Definition RenewLease (leaseID owner : string) (fencing : Z) (newExpiresAt : instant) (db : DB) : res DB :=
  match leases db !! leaseID with
  | Some l =>
      guard owns owner fencing l else NewError CodeConflict;
      let? _ := check (l_AcquiredAt l <? newExpiresAt) in
      Ok (set_leases (<[leaseID := mkLease (l_ID l) (l_Scope l) (l_ScopeID l) (l_RequestID l) (l_OwnerToken l)
            (l_FencingToken l) (l_State l) (l_AcquiredAt l) newExpiresAt (l_ReleasedAt l)]> (leases db)) db)
  | None => Err (NewError CodeConflict)
  end.

Definition ReleaseLease (leaseID owner : string) (fencing : Z) (now : instant) (db : DB) : res DB :=
  match leases db !! leaseID with
  | Some l =>
      guard owns owner fencing l else NewError CodeConflict;
      Ok (set_leases (<[leaseID := set_l_State LeaseReleased (Some now) l]> (leases db)) db)
  | None => Err (NewError CodeConflict)
  end.

Definition CheckLease (leaseID owner : string) (fencing : Z) (now clock : instant) (db : DB) : res unit :=
  let? l := select_one leaseID (leases db) in
  let t := if IsZero now then clock else now in
  guard owns owner fencing l else NewError CodeConflict;
  guard t <? l_ExpiresAt l else NewError CodeConflict;
  Ok tt.

Definition terminal_at (l : ConcurrencyLease) : instant := default (l_ExpiresAt l) (l_ReleasedAt l).

(** The oldest terminal rows before the cutoff, at most [limit]. *)
Definition reap_ids (cutoff : instant) (limit : Z) (ls : gmap string ConcurrencyLease) : list string :=
  let limit := if (limit <=? 0) || (1000 <? limit) then 100 else limit in
  (take (Z.to_nat limit)
     (sort_by (fun p => terminal_at p.2)
        (List.filter (fun p => negb (is_held p.2) && (terminal_at p.2 <? cutoff)) (map_to_list ls)))).*1.

Definition DeleteTerminalLeases (cutoff : instant) (limit : Z) (db : DB) : Z * DB :=
  let ids := reap_ids cutoff limit (leases db) in
  (Z.of_nat (length ids), set_leases (foldr delete (leases db) ids) db).

(** ** Lemmas *)

Lemma max_fencing_ge s id ls k l :
  ls !! k = Some l -> in_scope s id l = true -> l_FencingToken l <= max_fencing s id ls.
Proof.
  intros Hl Hs. unfold max_fencing.
  assert (l ∈ rows ls (in_scope s id)) as Hin.
  { unfold rows. apply list_elem_of_In, filter_In. split; [|done].
    apply list_elem_of_In, list_elem_of_fmap. exists (k, l). by rewrite elem_of_map_to_list. }
  clear Hl Hs. induction (rows ls (in_scope s id)) as [|x xs IH]; [by apply not_elem_of_nil in Hin|].
  simpl. apply elem_of_cons in Hin as [->|Hin]; [lia|]. specialize (IH Hin). lia.
Qed.

Lemma max_fencing_bound s id ls B :
  0 <= B -> (forall k l, ls !! k = Some l -> l_FencingToken l <= B) -> 0 <= max_fencing s id ls <= B.
Proof.
  intros HB Hall. unfold max_fencing.
  assert (forall l, l ∈ rows ls (in_scope s id) -> l_FencingToken l <= B) as Hrows.
  { intros l Hin. unfold rows in Hin. apply list_elem_of_In, filter_In in Hin as [Hin _].
    apply list_elem_of_In, list_elem_of_fmap in Hin as ((k & l') & -> & Hin).
    apply elem_of_map_to_list in Hin. eauto. }
  induction (rows ls (in_scope s id)) as [|x xs IH]; simpl; [lia|].
  assert (l_FencingToken x <= B) by (apply Hrows; set_solver).
  assert (0 <= foldr Z.max 0 (map l_FencingToken xs) <= B) by (apply IH; set_solver). lia.
Qed.

Lemma reclaim_lookup s id now ls k l :
  reclaim s id now ls !! k = Some l <-> exists l0, ls !! k = Some l0 /\
    l = if in_scope s id l0 && is_held l0 && (l_ExpiresAt l0 <=? now)
        then set_l_State LeaseExpired (l_ReleasedAt l0) l0 else l0.
Proof. unfold reclaim. rewrite lookup_fmap, fmap_Some. done. Qed.

(** Reclamation keeps identities, owners and tokens. *)
Lemma reclaim_same s id now ls k l :
  reclaim s id now ls !! k = Some l -> exists l0, ls !! k = Some l0 /\ l_Scope l = l_Scope l0 /\
    l_ScopeID l = l_ScopeID l0 /\ l_OwnerToken l = l_OwnerToken l0 /\ l_FencingToken l = l_FencingToken l0 /\
    (is_held l = true -> is_held l0 = true /\ l = l0).
Proof.
  intros (l0 & Hl & ->)%reclaim_lookup. exists l0.
  destruct (in_scope s id l0 && is_held l0 && (l_ExpiresAt l0 <=? now)); split_and!; try done.
Qed.

Lemma held_in_elem s id ls l :
  l ∈ held_in s id ls <-> (in_scope s id l = true /\ is_held l = true) /\ exists k, ls !! k = Some l.
Proof.
  unfold held_in, rows. rewrite list_elem_of_In, filter_In, <- list_elem_of_In, list_elem_of_fmap, andb_true_iff.
  split.
  - intros [((k & a) & -> & Hk) Hp]. apply elem_of_map_to_list in Hk. eauto.
  - intros [Hp [k Hk]]. split; [|done]. exists (k, l). by rewrite elem_of_map_to_list.
Qed.

(** What a successful acquisition did. *)
Lemma AcquireLeaseTx_Ok newID newOwner clk cmd db l db' :
  AcquireLeaseTx newID newOwner clk cmd db = Ok (l, db') ->
  let now := if IsZero (al_Now cmd) then clk else al_Now cmd in
  let ls := reclaim (al_Scope cmd) (al_ScopeID cmd) now (leases db) in
  Z.of_nat (length (held_in (al_Scope cmd) (al_ScopeID cmd) ls)) < al_Limit cmd /\
  leases db !! newID = None /\ l_ID l = newID /\ in_scope (al_Scope cmd) (al_ScopeID cmd) l = true /\
  l_State l = LeaseHeld /\ l_ExpiresAt l = time_add now (al_TTL cmd) /\ now < l_ExpiresAt l /\
  l_FencingToken l = add64 (max_fencing (al_Scope cmd) (al_ScopeID cmd) ls) 1 /\ 0 < l_FencingToken l /\
  is_Some (requests db !! al_RequestID cmd) /\ l_RequestID l = al_RequestID cmd /\
  db' = set_leases (<[newID := l]> ls) db.
Proof.
  unfold AcquireLeaseTx. cbv zeta. intros H. destruct (0 <? al_Limit cmd); [|done].
  destruct (0 <? al_TTL cmd); [|done]. destruct (_ <=? _) eqn:Hlim in H; [done|]. apply Z.leb_gt in Hlim.
  apply rbind_Ok in H as (db1 & H1 & H). unfold insert_lease in H1.
  apply rbind_Ok in H1 as ([] & E1%check_Ok & H1). apply rbind_Ok in H1 as (ls & [E2 ->]%insert_row_Ok & H1).
  apply rbind_Ok in H1 as ([] & _ & H1). apply rbind_Ok in H1 as ([] & E4%references_Ok & H1).
  injection H1 as <-. injection H as <- <-. simpl in *. apply andb_true_iff in E1 as [E1a E1b].
  apply Z.ltb_lt in E1a. apply Z.ltb_lt in E1b. apply has_true in E4. split_and!; try done.
  - unfold reclaim in E2. rewrite lookup_fmap in E2. by apply fmap_None in E2.
  - unfold in_scope. simpl. by rewrite !bool_decide_eq_true_2.
Qed.

Lemma rows_insert_length (ls : gmap string ConcurrencyLease) k l p :
  ls !! k = None -> p l = true -> length (rows (<[k := l]> ls) p) = S (length (rows ls p)).
Proof.
  intros Hk Hp. unfold rows. assert (Permutation (map_to_list (<[k := l]> ls)).*2 (l :: (map_to_list ls).*2)) as HP.
  { by rewrite map_to_list_insert. }
  assert (forall xs ys : list ConcurrencyLease, Permutation xs ys ->
            length (List.filter p xs) = length (List.filter p ys)) as Hlen.
  { intros xs ys Hxy. induction Hxy as [|x xs ys _ IH|x y xs|xs ys zs _ IH1 _ IH2]; simpl; try congruence.
    - destruct (p x); simpl; congruence.
    - by destruct (p x), (p y). }
  rewrite (Hlen _ _ HP). simpl. by rewrite Hp.
Qed.

(** The lease of [id], if its row still exists, is not held. *)
Definition dead (id : string) (db : DB) : Prop :=
  forall l, leases db !! id = Some l -> is_held l = false.

(** Lease traffic that does not draw the identifier [id] again. *)
Inductive lease_step (id : string) (db : DB) : DB -> Prop :=
| ls_acquire newID newOwner clk cmd l db' :
    newID <> id -> AcquireLeaseTx newID newOwner clk cmd db = Ok (l, db') -> lease_step id db db'
| ls_renew leaseID owner f t db' : RenewLease leaseID owner f t db = Ok db' -> lease_step id db db'
| ls_release leaseID owner f t db' : ReleaseLease leaseID owner f t db = Ok db' -> lease_step id db db'
| ls_reap cutoff limit : lease_step id db (DeleteTerminalLeases cutoff limit db).2.

Lemma dead_step id db db' : lease_step id db db' -> dead id db -> dead id db'.
Proof.
  intros Hs Hd. destruct Hs as [newID newOwner clk cmd l db' Hne H|leaseID owner f t db' H|leaseID owner f t db' H|cutoff limit].
  - apply AcquireLeaseTx_Ok in H as (_ & _ & _ & _ & _ & _ & _ & _ & _ & _ & _ & ->).
    intros l'. simpl. rewrite lookup_insert_ne by done. intros (l0 & Hl & _ & _ & _ & _ & Hh)%reclaim_same.
    specialize (Hd _ Hl). destruct (is_held l'); [|done]. destruct Hh; [done|]. congruence.
  - unfold RenewLease in H. destruct (leases db !! leaseID) as [l|] eqn:Hl; [|done]. inv_ok. unfold owns in E. bool_prop.
    intros l'. simpl. intros [[<- <-]|[_ ?]]%lookup_insert_Some; [|eauto]. specialize (Hd _ Hl). congruence.
  - unfold ReleaseLease in H. destruct (leases db !! leaseID) as [l|] eqn:Hl; [|done]. inv_ok.
    intros l'. simpl. intros [[<- <-]|[_ ?]]%lookup_insert_Some; [done|eauto].
  - unfold DeleteTerminalLeases. intros l'. simpl. intros Hl. apply (Hd l'). revert Hl.
    induction (reap_ids cutoff limit (leases db)) as [|i ids IH]; simpl; [done|].
    intros [_ ?]%lookup_delete_Some. auto.
Qed.

(** ** Properties *)

(** An acquisition that succeeds leaves at most the limit of held
    leases in its scope, and hands out a positive fencing token strictly above
    every token the scope's rows carry. *)
Theorem lease_within_limit (newID newOwner : string) (clk : instant) (cmd : AcquireLeaseCommand) (db : DB)
    (l : ConcurrencyLease) (db' : DB)
    (Htok : forall k x, leases db !! k = Some x -> l_FencingToken x < max_int64)
    (Hok : AcquireLeaseTx newID newOwner clk cmd db = Ok (l, db')) :
  Z.of_nat (length (held_in (al_Scope cmd) (al_ScopeID cmd) (leases db'))) <= al_Limit cmd /\
  leases db' !! newID = Some l /\ is_held l = true /\
  (forall k x, leases db' !! k = Some x -> k <> newID -> in_scope (al_Scope cmd) (al_ScopeID cmd) x = true ->
     l_FencingToken x < l_FencingToken l).
Proof.
  apply AcquireLeaseTx_Ok in Hok as (Hlim & Hf & Hid & Hsc & Hst & _ & _ & Htk & _ & _ & _ & ->). simpl.
  set (ls := reclaim _ _ _ (leases db)) in *.
  assert (ls !! newID = None) as Hf' by (unfold ls, reclaim; by rewrite lookup_fmap, Hf).
  assert (is_held l = true) as Hh by (unfold is_held; by rewrite Hst).
  assert (forall k x, ls !! k = Some x -> l_FencingToken x <= max_int64 - 1) as Hb.
  { intros k x (x0 & Hx & _ & _ & _ & -> & _)%reclaim_same. specialize (Htok _ _ Hx). lia. }
  pose proof (max_fencing_bound (al_Scope cmd) (al_ScopeID cmd) ls (max_int64 - 1) ltac:(i64) Hb) as Hmax.
  split_and!; [|by rewrite lookup_insert_eq|done|].
  - unfold held_in in *. rewrite rows_insert_length; [lia|done|by rewrite Hsc, Hh].
  - intros k x [[<- _]|[_ Hx]]%lookup_insert_Some Hne Hs; [done|].
    rewrite Htk. unfold add64. rewrite wrap64_id by i64. pose proof (max_fencing_ge _ _ _ _ _ Hx Hs). lia.
Qed.

(** Reclamation never overlaps authorizations: once an acquisition in
    a scope runs at or after a lease's expiry, that lease is no longer held,
    and whatever lease traffic follows, its holder's renewals, releases and
    use-point checks all fail. *)
Theorem reclaimed_lease_is_fenced (id newID newOwner : string) (clk : instant) (cmd : AcquireLeaseCommand)
    (db db1 db2 : DB) (old l : ConcurrencyLease)
    (Hold : leases db !! id = Some old)
    (Hscope : in_scope (al_Scope cmd) (al_ScopeID cmd) old = true)
    (Hexp : l_ExpiresAt old <= (if IsZero (al_Now cmd) then clk else al_Now cmd))
    (Hacq : AcquireLeaseTx newID newOwner clk cmd db = Ok (l, db1))
    (Hlater : rtc (lease_step id) db1 db2) :
  forall owner fencing t t',
    is_ok (RenewLease id owner fencing t db2) = false /\
    is_ok (ReleaseLease id owner fencing t db2) = false /\
    is_ok (CheckLease id owner fencing t t' db2) = false.
Proof.
  assert (dead id db1) as Hd.
  { apply AcquireLeaseTx_Ok in Hacq as (_ & Hf & _ & _ & _ & _ & _ & _ & _ & _ & _ & ->).
    intros l'. simpl. rewrite lookup_insert_ne by congruence. intros (l0 & Hl & ->)%reclaim_lookup.
    rewrite Hold in Hl. injection Hl as <-. rewrite Hscope.
    destruct (l_ExpiresAt old <=? _) eqn:E; [simpl; by destruct (is_held old) eqn:Hh|].
    apply Z.leb_gt in E. destruct (Z.lt_irrefl _ (Z.lt_le_trans _ _ _ E Hexp)). }
  assert (dead id db2) as Hd2 by (clear -Hd Hlater; induction Hlater; eauto using dead_step).
  intros owner fencing t t'. unfold RenewLease, ReleaseLease, CheckLease, select_one, owns, db_fail.
  destruct (leases db2 !! id) as [x|] eqn:Hx; [|done].
  cbn [rbind]. rewrite (Hd2 _ Hx). by rewrite !andb_false_r.
Qed.

Definition demo_leases : DB :=
  set_requests {[ "r1" := demo_request "r1"; "r2" := demo_request "r2" ]} demo_db.
Definition demo_acquire (req : string) (now : instant) : AcquireLeaseCommand :=
  mkAcquire LeaseScopeBillingAccount "acc" req "me" 1 minute now.

(** The store after one lease of a one-slot scope. *)
Definition demo_held : DB :=
  match AcquireLeaseTx "L1" "" 0 (demo_acquire "r1" hour) demo_leases with Ok (_, db) => db | Err _ => demo_db end.

Lemma lease_within_limit_witness : exists l db',
  AcquireLeaseTx "L1" "" 0 (demo_acquire "r1" hour) demo_leases = Ok (l, db') /\
  Z.of_nat (length (held_in LeaseScopeBillingAccount "acc" (leases db'))) <= 1.
Proof.
  eexists _, _. split; [vm_compute; reflexivity|].
  eapply proj1, (lease_within_limit "L1" "" 0 (demo_acquire "r1" hour) demo_leases); [|vm_compute; reflexivity].
  intros k x Hx. discriminate Hx.
Defined.

Lemma reclaimed_lease_is_fenced_witness :
  is_ok (RenewLease "L1" "me" 1 (3 * hour) demo_held) = true /\
  exists l db', AcquireLeaseTx "L2" "" 0 (demo_acquire "r2" (2 * hour)) demo_held = Ok (l, db') /\
    is_ok (RenewLease "L1" "me" 1 (3 * hour) db') = false.
Proof.
  split; [vm_compute; reflexivity|].
  eexists _, _. split; [vm_compute; reflexivity|].
  eapply (reclaimed_lease_is_fenced "L1" "L2" "" 0 (demo_acquire "r2" (2 * hour)) demo_held);
    [vm_compute; reflexivity|vm_compute; reflexivity|vm_compute; discriminate|vm_compute; reflexivity|apply rtc_refl|exact 0].
Defined.

(** TOKEN. A fencing token identifies an acquisition only while its row is
    kept: after the terminal rows of a scope are reaped, the next acquisition
    hands out a token already used. *)
Theorem fencing_restarts_after_reap :
  exists l1 db1 db2 l2 db4,
    AcquireLeaseTx "L1" "" 0 (demo_acquire "r1" hour) demo_leases = Ok (l1, db1) /\
    ReleaseLease "L1" "me" (l_FencingToken l1) (2 * hour) db1 = Ok db2 /\
    AcquireLeaseTx "L2" "" 0 (demo_acquire "r2" (4 * hour)) (DeleteTerminalLeases (3 * hour) 10 db2).2 = Ok (l2, db4) /\
    l_FencingToken l2 = l_FencingToken l1.
Proof.
  eexists _, _, _, _, _. split; [vm_compute; reflexivity|]. split; [vm_compute; reflexivity|].
  split; [vm_compute; reflexivity|]. reflexivity.
Qed.
