(* ===== verification/StoreSteps.v ===== *)
(** * StoreSteps: every transaction of the store keeps the invariant

    The remaining transactions (wallet freezes, window activation, parking,
    corrections, adjustments, wallet movements), the step relation they form,
    and the properties that hold of every reachable store. *)

From Stdlib Require Import ZArith Lia Bool.
From stdpp Require Import base gmap strings list relations.
From S2P Require Import Prelude Domain Money Calendar Window Pricing WalletRules Tables.
From S2P Require Import RequestStore QuotaStore WalletStore LedgerStore Conservation StoreInv.
From S2P Require Import LeaseStore.

Local Open Scope Z_scope.
Local Open Scope go_scope.

(** ** Wallet freezes *)

Lemma insert_hold_frame h db db' : insert_hold h db = Ok db' ->
  db' = set_holds (<[wh_ID h := h]> (holds db)) db /\ holds db !! wh_ID h = None /\
  0 <= wh_CashMicros h /\ 0 <= wh_BonusMicros h /\ wh_CashMicros h + wh_BonusMicros h = wh_AmountMicros h /\
  (forall id o, holds db !! id = Some o -> wh_RequestID o <> wh_RequestID h).
Proof.
  unfold insert_hold. intros H. destruct (bool_decide _) in H; [done|]. inv_ok.
  apply check_Ok in E. apply insert_row_Ok in E0 as [? ->]. apply unique_Ok in E1. bool_prop.
  split_and!; try done.
  intros id o Hl He. pose proof (proj1 (forallb_map _ _) E1 _ _ Hl) as Hn. simpl in Hn.
  by rewrite bool_decide_eq_true_2 in Hn.
Qed.

(** What a successful freeze did. *)
Lemma ReserveWallet_Ok holdID rvID now cmd db adm db' :
  ReserveWallet holdID rvID now cmd db = Ok (adm, db') ->
  let r := rw_Request cmd in let hold := rw_HoldMicros cmd in
  0 <= hold /\
  exists wallet sums spent bal cash bonus req,
    wallets db !! rw_WalletID cmd = Some wallet /\ wa_BillingAccountID wallet = r_BillingAccountID r /\
    walletSumsLocked (wa_ID wallet) db = Ok sums /\
    monthSpendLocked (wa_ID wallet) (rw_MonthStart cmd) (rw_MonthEnd cmd) db = Ok spent /\
    CheckWalletSpend (Settings wallet) (add64 (add64 spent (HeldCash sums)) (HeldBonus sums)) hold = Ok tt /\
    DeriveWalletBalance (wa_Currency wallet) sums = Ok bal /\
    (if 0 <? hold then SplitFreeze (BonusAvailable bal) (CashAvailable bal) hold else Ok (0, 0))
      = Ok (cash, bonus) /\
    r_ID req = r_ID r /\ chargeSourceOf req = ChargeSourceWallet /\ adm_RequestID adm = r_ID r /\
    requests db !! r_ID r = None /\
    let h := mkHold holdID (wa_ID wallet) (r_ID r) hold cash bonus (rw_PriceVersionID cmd) ReservationHeld in
    let db1 := set_requests (<[r_ID r := request_row req now]> (requests db)) db in
    insert_hold h db1 = Ok (set_holds (<[holdID := h]> (holds db)) db1) /\
    insert_reservation (mkReservation rvID (r_ID r) TargetWallet None None hold ReservationHeld)
      (set_holds (<[holdID := h]> (holds db)) db1) = Ok db'.
Proof.
  unfold ReserveWallet. cbv zeta. intros H. destruct (_ <? 0) eqn:Hneg in H; [done|]. apply Z.ltb_ge in Hneg.
  split; [done|]. apply rbind_Ok in H as ([] & _ & H). apply rbind_Ok in H as (wallet & Hw & H).
  unfold lockWalletTx, select_one in Hw. destruct (wallets db !! _) eqn:Hw' in Hw; [|done]. injection Hw as ->.
  destruct (bool_decide _) eqn:Hacc in H; [|done]. apply bool_decide_eq_true in Hacc.
  apply rbind_Ok in H as (sums & Hsums & H). apply rbind_Ok in H as (spent & Hspent & H).
  apply rbind_Ok in H as ([] & Hchk & H). apply rbind_Ok in H as (bal & Hbal & H).
  apply rbind_Ok in H as ([cash bonus] & Hsplit & H).
  set (req := admit_request _ _ _ _ _) in H.
  apply rbind_Ok in H as (db1 & H1 & H). apply insertRequest_Ok in H1 as [Hf ->].
  apply rbind_Ok in H as (db2 & H2 & H). pose proof (insert_hold_frame _ _ _ H2) as [-> _].
  apply rbind_Ok in H as (db3 & H3 & H). injection H as <- <-.
  exists wallet, sums, spent, bal, cash, bonus, req. split_and!; done.
Qed.

Lemma requests_ok_reserve_wallet cs rvs led req now rvID hold :
  requests_ok cs rvs led -> cs !! r_ID req = None -> rvs !! rvID = None ->
  chargeSourceOf req = ChargeSourceWallet ->
  requests_ok (<[r_ID req := rcore (request_row req now)]> cs)
    (<[rvID := mkReservation rvID (r_ID req) TargetWallet None None hold ReservationHeld]> rvs) led.
Proof.
  intros R Hf Hfr Hsrc.
  assert (forall id rv, rvs !! id = Some rv -> rv_RequestID rv <> r_ID req) as Hold.
  { intros id rv Hl He. destruct (ro_row _ _ _ R _ _ Hl) as (c & Hc & _). rewrite He, Hf in Hc. done. }
  destruct R as [R1 R2 R3 R4 R5 R6 R7]. split.
  - intros rid c [[<- <-]|[_ Hl]]%lookup_insert_Some; [done|eauto].
  - intros id rv [[<- <-]|[_ Hl]]%lookup_insert_Some.
    + simpl. rewrite lookup_insert_eq. eexists. split; [done|]. unfold walletRequest. simpl. rewrite Hsrc.
      split_and!; [split; congruence|done|done].
    + rewrite lookup_insert_ne by (intros He; by eapply Hold). eauto.
  - intros rid c k t [[<- <-]|[Hne Hl]]%lookup_insert_Some Hnw Hb.
    + destruct Hnw. unfold walletRequest. simpl. by rewrite Hsrc.
    + destruct (R3 _ _ _ _ Hl Hnw Hb) as (id & rv & Hrv & ? & ?). exists id, rv. split_and!; try done.
      rewrite lookup_insert_ne; [done|congruence].
  - intros rid. rewrite R4. split.
    + intros (c & Hl & ?). exists c. split; [|done]. rewrite lookup_insert_ne; [done|congruence].
    + intros (c & [[<- <-]|[_ Hl]]%lookup_insert_Some & ?); [done|eauto].
  - intros rid c m [[<- <-]|[_ Hl]]%lookup_insert_Some; [done|eauto].
  - intros i1 i2 rv1 rv2 [[<- <-]|[_ Hl1]]%lookup_insert_Some [[<- <-]|[_ Hl2]]%lookup_insert_Some; simpl; intros He Hk.
    + done.
    + symmetry in He. by apply Hold in Hl2.
    + by apply Hold in Hl1.
    + eauto.
  - intros i1 i2 rv1 rv2 [[<- <-]|[_ Hl1]]%lookup_insert_Some [[<- <-]|[_ Hl2]]%lookup_insert_Some; simpl; intros He.
    + done.
    + symmetry in He. by apply Hold in Hl2.
    + by apply Hold in Hl1.
    + eauto.
Qed.

Lemma store_inv_reserve_wallet holdID rvID now cmd db adm db' :
  ReserveWallet holdID rvID now cmd db = Ok (adm, db') -> store_inv db -> store_inv db'.
Proof.
  intros H [C R]. apply ReserveWallet_Ok in H
    as (_ & w & sums & sp & bal & cash & bonus & req & _ & _ & _ & _ & _ & _ & _ & Hid & Hsrc & _ & Hf & _ & Hrv).
  pose proof (insert_reservation_Ok _ _ _ Hrv) as (_ & _ & Hfr & _ & _ & _ & _ & F). simpl in Hfr.
  assert (cores db' = <[r_ID req := rcore (request_row req now)]> (cores db)) as Hc.
  { rewrite F. unfold cores. simpl. by rewrite fmap_insert, Hid. }
  assert (cores db !! r_ID req = None) as Hf' by (unfold cores; by rewrite lookup_fmap, Hid, Hf).
  split.
  - eapply core_paid_ext; [|eapply conserved_insert_wallet; [exact Hrv|done..|exact C]].
    intros id rv Hl Hs. rewrite Hc. unfold paid_of. rewrite lookup_insert_ne; [done|]. intros He.
    rewrite F in Hl. simpl in Hl. apply lookup_insert_Some in Hl as [[_ <-]|[_ Hl]]; [done|].
    destruct (ro_row _ _ _ R _ _ Hl) as (c & Hcc & _). congruence.
  - rewrite Hc, F. simpl. rewrite <- Hid. by apply requests_ok_reserve_wallet.
Qed.

(** ** Window activation *)

Lemma activate_kind_frame newID cmd st kind st' paid :
  activate_kind newID cmd st kind = Ok st' ->
  st'.2 = set_windows (windows st'.2) st.2 /\ (conserved paid [] st.2 -> conserved paid [] st'.2).
Proof.
  destruct st as [[active out] db]. unfold activate_kind. intros H.
  destruct (aw_Limits cmd kind) as [limit|]; [|inv_ok; split; [by destruct db|done]].
  apply rbind_Ok in H as ([iv act] & _ & H). destruct act.
  - destruct (insertQuotaWindow _ _ db) as [[nw db1]|e] eqn:E; [|by destruct (bool_decide _) in H].
    inv_ok. simpl. pose proof (insertQuotaWindow_Ok _ _ _ _ _ E) as (_ & _ & _ & _ & _ & ->).
    split; [by destruct db|]. by eapply conserved_new_window.
  - destruct (List.find _ _) in H; inv_ok; split; try done; by destruct db.
Qed.

Lemma activate_kinds_frame newID cmd kinds st st' paid :
  rfold (activate_kind newID cmd) st kinds = Ok st' ->
  st'.2 = set_windows (windows st'.2) st.2 /\ (conserved paid [] st.2 -> conserved paid [] st'.2).
Proof.
  revert st. induction kinds as [|k ks IH]; intros st H; simpl in H.
  - inv_ok. split; [by destruct st'.2|done].
  - apply rbind_Ok in H as (st1 & H1 & H2). destruct (activate_kind_frame _ _ _ _ _ paid H1) as [F1 C1].
    destruct (IH st1 H2) as [F2 C2]. split; [|auto]. rewrite F2, F1. by destruct st.2.
Qed.

Lemma store_inv_activate newID cmd db out db' :
  ActivateWindowsTx newID cmd db = Ok (out, db') -> store_inv db -> store_inv db'.
Proof.
  unfold ActivateWindowsTx. intros H [C R]. apply rbind_Ok in H as ([] & _ & H).
  apply rbind_Ok in H as ([[act out'] db1] & H & H'). inv_ok.
  assert (db' = set_windows (windows db') db /\ conserved (paid_of (cores db)) [] db') as [F C'].
  { apply activate_kinds_frame with (paid := paid_of (cores db)) in H as [F HC]. auto. }
  split; rewrite F; [|done]. unfold conserved in *. rewrite F in C'. done.
Qed.

(** ** Transactions that leave the quota tables alone *)

Ltac frame := unfold same_quota, cores; simpl; done.

Lemma resolve_jobs_frame rid p note now db : same_quota db (resolve_jobs rid p note now db).
Proof. frame. Qed.

Lemma EnqueueReconciliationJobTx_frame newID cmd db db' :
  EnqueueReconciliationJobTx newID cmd db = Ok db' -> db' = set_jobs (jobs db') db.
Proof.
  unfold EnqueueReconciliationJobTx. cbv zeta. intros H. apply rbind_Ok in H as ([] & _ & H).
  simpl in H. destruct (eq_RequestID cmd) as [rid|].
  - apply rbind_Ok in H as ([] & _ & H). destruct (existsb _ _) in H; by inv_ok.
  - destruct (bool_decide _) in H; [done|].
    repeat (destruct (existsb _ _) in H; simpl in H; try (by inv_ok)).
    + destruct (bool_decide _) in H; inv_ok; [by destruct db'|done].
Qed.

Lemma MarkReconciliationRequired_frame newID rid reason deadline now db db' :
  MarkReconciliationRequired newID rid reason deadline now db = Ok db' -> same_quota db db'.
Proof.
  unfold MarkReconciliationRequired. intros H. destruct (requests db !! rid) as [r|] eqn:Hr; [|done].
  destruct (finalized r); [by inv_ok|].
  apply EnqueueReconciliationJobTx_frame in H. rewrite H. split_and!; try done. simpl.
  by apply (cores_update _ _ _ _ Hr).
Qed.

Lemma getOrCreateWalletLocked_frame newID acc cur by_ db w b db' :
  getOrCreateWalletLocked newID acc cur by_ db = Ok (w, b, db') ->
  db' = set_audits (audits db') (set_wallets (wallets db') db).
Proof.
  unfold getOrCreateWalletLocked. intros H. apply rbind_Ok in H as ([] & _ & H).
  destruct (find_wallet acc cur db); [inv_ok; by destruct db'|]. by inv_ok.
Qed.

(** Adjustment rows are only ever appended. *)
Definition adjs_grow (db db' : DB) : Prop := exists l, adjustments db' = adjustments db ++ l.

(** The wallet tables only; adjustments and entries are appended. *)
Definition wallet_only (db db' : DB) : Prop :=
  db' = set_adjustments (adjustments db') (set_entries (entries db') (set_audits (audits db')
          (set_wallets (wallets db') db))) /\ adjs_grow db db' /\ exists l, entries db' = entries db ++ l.

Lemma wallet_only_frame db db' : wallet_only db db' -> same_quota db db'.
Proof. intros [-> _]. frame. Qed.

Lemma adjs_same db db' : adjustments db' = adjustments db -> adjs_grow db db'.
Proof. intros H. exists []. by rewrite H, app_nil_r. Qed.

Ltac wallet_frame := split_and!;
  [reflexivity | first [by apply adjs_same | by eexists] | first [by exists []; rewrite app_nil_r | by eexists]].

Lemma SetOverageTx_wallet newID acc cur en lim by_ db w db' :
  SetOverageTx newID acc cur en lim by_ db = Ok (w, db') -> wallet_only db db'.
Proof.
  unfold SetOverageTx. intros H. apply rbind_Ok in H as ([] & _ & H). apply rbind_Ok in H as ([] & _ & H).
  apply rbind_Ok in H as ([[w0 b] db1] & F%getOrCreateWalletLocked_frame & H).
  apply rbind_Ok in H as (w1 & _ & H). inv_ok. rewrite F. wallet_frame.
Qed.
Lemma SetOverageTx_frame newID acc cur en lim by_ db w db' :
  SetOverageTx newID acc cur en lim by_ db = Ok (w, db') -> same_quota db db'.
Proof. eauto using wallet_only_frame, SetOverageTx_wallet. Qed.

Lemma CreditTopupTx_wallet newID now cmd db db' :
  CreditTopupTx newID now cmd db = Ok db' -> wallet_only db db'.
Proof.
  unfold CreditTopupTx. intros H. apply rbind_Ok in H as (m & _ & H). destruct (_ <=? _) in H; [done|].
  apply rbind_Ok in H as ([] & _ & H). apply rbind_Ok in H as ([] & _ & H).
  apply rbind_Ok in H as ([[w0 b] db1] & F%getOrCreateWalletLocked_frame & H).
  apply rbind_Ok in H as (w1 & _ & H%insert_entry_frame). rewrite H, F. wallet_frame.
Qed.
Lemma CreditTopupTx_frame newID now cmd db db' :
  CreditTopupTx newID now cmd db = Ok db' -> same_quota db db'.
Proof. eauto using wallet_only_frame, CreditTopupTx_wallet. Qed.

Lemma RefundWalletTx_wallet now cmd db db' :
  RefundWalletTx now cmd db = Ok db' -> wallet_only db db'.
Proof.
  unfold RefundWalletTx. intros H. apply rbind_Ok in H as (m & _ & H). destruct (_ <=? _) in H; [done|].
  apply rbind_Ok in H as ([] & _ & H). apply rbind_Ok in H as ([] & _ & H).
  apply rbind_Ok in H as (w & _ & H%insert_entry_frame). rewrite H. wallet_frame.
Qed.
Lemma RefundWalletTx_frame now cmd db db' :
  RefundWalletTx now cmd db = Ok db' -> same_quota db db'.
Proof. eauto using wallet_only_frame, RefundWalletTx_wallet. Qed.

Lemma insert_adjustment_frame a db db' : insert_adjustment a db = Ok db' ->
  db' = set_adjustments (adjustments db ++ [a]) db /\ 0 < ad_AmountMicros a /\
  (forall o, o ∈ adjustments db -> ad_ID o <> ad_ID a /\ ad_IdempotencyKey o <> ad_IdempotencyKey a).
Proof.
  unfold insert_adjustment. intros H. inv_ok. apply check_Ok in E. apply unique_Ok in E0. bool_prop.
  split_and!; try done.
  intros o Ho. rewrite forallb_forall in E0. apply list_elem_of_In, E0 in Ho. by bool_prop.
Qed.

Lemma ApplyWalletAdjustmentTx_wallet w a now cmd db adj db' :
  ApplyWalletAdjustmentTx w a now cmd db = Ok (adj, db') -> wallet_only db db'.
Proof.
  unfold ApplyWalletAdjustmentTx. cbv zeta. intros H. destruct (_ || _) in H; [done|].
  apply rbind_Ok in H as (m & _ & H). destruct (_ <=? _) in H; [done|].
  apply rbind_Ok in H as ([] & _ & H). apply rbind_Ok in H as ([] & _ & H).
  apply rbind_Ok in H as ([[w0 b] db1] & F%getOrCreateWalletLocked_frame & H).
  apply rbind_Ok in H as (w1 & _ & H). apply rbind_Ok in H as (db2 & (F2 & _)%insert_adjustment_frame & H).
  apply rbind_Ok in H as (db3 & F3%insert_entry_frame & H). injection H as _ <-. rewrite F3, F2, F. wallet_frame.
Qed.
Lemma ApplyWalletAdjustmentTx_frame w a now cmd db adj db' :
  ApplyWalletAdjustmentTx w a now cmd db = Ok (adj, db') -> same_quota db db'.
Proof. eauto using wallet_only_frame, ApplyWalletAdjustmentTx_wallet. Qed.

Lemma ReverseWalletEntryTx_wallet acc eid op now db db' :
  ReverseWalletEntryTx acc eid op now db = Ok db' -> wallet_only db db'.
Proof.
  unfold ReverseWalletEntryTx. intros H. apply rbind_Ok in H as ([] & _ & H).
  destruct (List.find _ _) as [orig|] in H; [|done].
  apply rbind_Ok in H as (w & _ & H). destruct (bool_decide _) in H; [|done].
  apply rbind_Ok in H as (m & _ & H). apply rbind_Ok in H as (rev & _ & H).
  apply rbind_Ok in H as (w' & _ & H%insert_entry_frame). rewrite H. wallet_frame.
Qed.
Lemma ReverseWalletEntryTx_frame acc eid op now db db' :
  ReverseWalletEntryTx acc eid op now db = Ok db' -> same_quota db db'.
Proof. eauto using wallet_only_frame, ReverseWalletEntryTx_wallet. Qed.

Lemma insertAttempt_frame a db db' : insertAttempt a db = Ok db' -> same_quota db db'.
Proof. unfold insertAttempt. cbv zeta. intros H. inv_ok. frame. Qed.

Lemma FinishAttempt_frame id st ek up t db db' : FinishAttempt id st ek up t db = Ok db' -> same_quota db db'.
Proof. unfold FinishAttempt. intros H. destruct (attempts db !! id); [|done]. inv_ok. frame. Qed.

(** An adjustment adds a ledger row that is not a charge. *)
Lemma requests_ok_ledger cs rvs led e :
  le_EntryType e <> LedgerCharge -> requests_ok cs rvs led -> requests_ok cs rvs (led ++ [e]).
Proof.
  intros Ht [R1 R2 R3 R4 R5 R6 R7]. split; try done. intros rid. rewrite charged_app, <- R4. split; [|by left].
  intros [|Hc]; [done|]. unfold is_charge_of in Hc. by bool_prop.
Qed.

Lemma store_inv_adjustment newID a db a' db' :
  AppendAdjustment newID a db = Ok (a', db') -> store_inv db -> store_inv db'.
Proof.
  unfold AppendAdjustment. cbv zeta. intros H [C R].
  apply rbind_Ok in H as (db1 & (F1 & _)%insert_adjustment_frame & H).
  apply rbind_Ok in H as (db2 & (F2 & _)%insert_ledger_Ok & H). injection H as _ <-.
  split; rewrite F2, F1; [done|]. simpl. by apply requests_ok_ledger.
Qed.

(** ** Corrections *)

(** The counters a correction moves: one target per binding of the request. *)
Definition at_opt (o : option Target) (d : Z) (t : Target) : Z :=
  match o with Some t0 => at_target t0 d t | None => 0 end.

Definition kinds4 : list ReservationTargetKind :=
  [TargetWindowFiveHour; TargetWindowWeekly; TargetWindowMonthly; TargetKeyBudget].

Lemma law_correct_window H S db d o db' :
  correct_window d db o = Ok db' -> law H S (windows db) (keys db) ->
  counters_only db db' /\ law H (fun t => S t + at_opt (TWindow <$> o) d t) (windows db') (keys db').
Proof.
  unfold correct_window. intros Hc L. destruct o as [wid|]; simpl.
  - destruct (windows db !! wid) as [w|] eqn:Hw; [|done]. inv_ok. apply sql_int_Ok in E as [-> _]. split.
    { split_and!; [by destruct db|simpl; by apply shape_counters|done]. }
    simpl. rewrite <- (Z.add_0_r (w_Reserved w)). eapply law_window; [exact L|done| |done].
    intros t. unfold at_target. case_decide; lia.
  - inv_ok. split; [apply counters_only_refl|]. eapply law_ext; [done| |exact L]. intros; simpl; lia.
Qed.

Lemma law_correct_key H S db d o db' :
  correct_key d o db = Ok db' -> law H S (windows db) (keys db) ->
  counters_only db db' /\ law H (fun t => S t + at_opt (TKey <$> o) d t) (windows db') (keys db').
Proof.
  unfold correct_key. intros Hc L. destruct o as [kid|]; simpl.
  - destruct (keys db !! kid) as [k|] eqn:Hk; [|done]. inv_ok. apply sql_int_Ok in E as [-> _]. split.
    { split_and!; [by destruct db|done|simpl; by eapply dom_update]. }
    simpl. replace (k_BudgetUsed k + d) with (k_BudgetUsed k + 0 + d) by lia.
    eapply law_key; [exact L|done| |done]. intros t. unfold at_target. case_decide; lia.
  - inv_ok. split; [apply counters_only_refl|]. eapply law_ext; [done| |exact L]. intros; simpl; lia.
Qed.

(** Changing what one settled request paid moves the spent sums at exactly
    its bound targets. *)
Lemma spent_correct cs rvs led rid c m d :
  requests_ok cs rvs led -> cs !! rid = Some c -> ~ walletRequest c -> c_Settled c = Some m ->
  forall t, spent (paid_of (<[rid := settle_core (m + d) c]> cs)) rvs t
    = spent (paid_of cs) rvs t + lsum (fun k => at_opt (bound_target c k) d t) kinds4.
Proof.
  intros R Hc Hnw Hm t.
  set (row k := fun rv => bool_decide (rv_RequestID rv = rid) && bool_decide (rv_TargetKind rv = k)
                          && bool_decide (target_of rv = Some t)).
  assert (forall k, msum (fun _ rv => if row k rv then 1 else 0) rvs * d = at_opt (bound_target c k) d t) as Hcount.
  { intros k. unfold at_opt. destruct (bound_target c k) as [t0|] eqn:Hb; [unfold at_target; case_decide as Ht|].
    - subst t0. destruct (ro_bound _ _ _ R _ _ _ _ Hc Hnw Hb) as (id & rv & Hl & Hr & Hk).
      rewrite (msum_one (row k) _ id rv); [lia|done| |].
      + unfold row. rewrite !bool_decide_eq_true_2; try done.
        destruct (ro_row _ _ _ R _ _ Hl) as (c0 & Hc0 & _ & _ & ->). rewrite Hr, Hc in Hc0. injection Hc0 as <-.
        by rewrite Hk.
      + intros id' rv' Hl' Hrow. unfold row in Hrow. bool_prop. eapply (ro_unique _ _ _ R); [done..|congruence|congruence].
    - rewrite msum_zero; [lia|]. intros id rv Hl. destruct (row k rv) eqn:Hrow; [|done]. exfalso.
      unfold row in Hrow. bool_prop. destruct (ro_row _ _ _ R _ _ Hl) as (c0 & Hc0 & _ & _ & He). congruence.
    - rewrite msum_zero; [lia|]. intros id rv Hl. destruct (row k rv) eqn:Hrow; [|done]. exfalso.
      unfold row in Hrow. bool_prop. destruct (ro_row _ _ _ R _ _ Hl) as (c0 & Hc0 & _ & _ & He). congruence. }
  unfold spent.
  rewrite (msum_add _ (spent_at (paid_of cs) t) (fun _ rv =>
    (if row TargetWindowFiveHour rv then 1 else 0) * d + (if row TargetWindowWeekly rv then 1 else 0) * d +
    (if row TargetWindowMonthly rv then 1 else 0) * d + (if row TargetKeyBudget rv then 1 else 0) * d)).
  - f_equal. cbn [lsum foldr kinds4]. rewrite <- !Hcount. rewrite Z.add_0_r, !Z.add_assoc.
    by rewrite !msum_plus, !msum_scale.
  - intros id rv Hl. unfold spent_at, row, paid_of.
    destruct (ro_row _ _ _ R _ _ Hl) as (c0 & Hc0 & Hst & Hwal & Htgt).
    destruct (decide (rv_RequestID rv = rid)) as [He|Hne].
    + rewrite He in *. rewrite Hc in Hc0. injection Hc0 as <-. rewrite lookup_insert_eq, Hc. simpl. rewrite Hm. simpl.
      rewrite (bool_decide_eq_true_2 (rid = rid)) by done.
      rewrite (bool_decide_eq_true_2 (rv_State rv = _)) by (apply Hst; congruence).
      destruct (rv_TargetKind rv) eqn:Hk; [..|by destruct Hnw; apply Hwal];
        repeat (case_bool_decide; simpl; try done; try lia).
    + rewrite lookup_insert_ne by done. rewrite (bool_decide_eq_false_2 (rv_RequestID rv = rid)) by done. simpl. lia.
Qed.

Lemma law_correct_windows H S db d os db' :
  rfold (correct_window d) db os = Ok db' -> law H S (windows db) (keys db) ->
  counters_only db db' /\
  law H (fun t => S t + lsum (fun o => at_opt (TWindow <$> o) d t) os) (windows db') (keys db').
Proof.
  revert S db. induction os as [|o os IH]; intros S db Hf L; simpl in Hf.
  - inv_ok. split; [apply counters_only_refl|]. eapply law_ext; [done| |exact L]. intros; simpl; lia.
  - apply rbind_Ok in Hf as (db1 & H1 & H2). destruct (law_correct_window _ _ _ _ _ _ H1 L) as [F1 L1].
    destruct (IH _ _ H2 L1) as [F2 L2]. split; [by eapply counters_only_trans|].
    eapply law_ext; [done| |exact L2]. intros t. simpl. lia.
Qed.

Lemma correct_overage_frame newID cmd resv clk now db db' :
  correct_overage newID cmd resv clk now db = Ok db' -> db' = set_jobs (jobs db') db.
Proof.
  unfold correct_overage. intros H. destruct resv as [z|]; [|inv_ok; by destruct db'].
  destruct (_ <? _); [by apply EnqueueReconciliationJobTx_frame in H|]. inv_ok. done.
Qed.

Lemma CorrectionDelta_signed base corrected dir delta :
  0 <= base <= max_int64 -> corrected <= max_int64 ->
  CorrectionDelta base corrected = Ok (dir, delta) ->
  0 <= corrected /\ 0 < delta <= max_int64 /\
  match dir with DirectionDebit => delta | DirectionCredit => neg64 delta end = corrected - base.
Proof.
  intros Hb Hc H. unfold CorrectionDelta, sub64 in H.
  destruct (Z.ltb_spec corrected 0); [done|].
  destruct (Z.ltb_spec base corrected); [|destruct (Z.ltb_spec corrected base); [|done]];
    injection H as <- <-; rewrite ?(wrap64_id (corrected - base)), ?(wrap64_id (base - corrected)) by i64.
  - i64.
  - unfold neg64. rewrite wrap64_id by i64. i64.
Qed.

(** What a successful correction did to the quota tables. *)
Lemma CorrectSettlement_Ok adjID jobID clk now cmd db db' :
  CorrectSettlement adjID jobID clk now cmd db = Ok db' -> store_inv db ->
  cc_CorrectedMicros cmd <= max_int64 ->
  exists r base, requests db !! cc_RequestID cmd = Some r /\ r_SettledMicros r = Some base /\
    r_ChargeSource r <> Some ChargeSourceWallet /\ 0 <= cc_CorrectedMicros cmd /\
    cores db' = <[cc_RequestID cmd := settle_core (cc_CorrectedMicros cmd) (rcore r)]> (cores db) /\
    reservations db' = reservations db /\
    (exists e a, ledger db' = ledger db ++ [e] /\ adjustments db' = adjustments db ++ [a] /\
       le_EntryType e <> LedgerCharge /\ le_RequestID e = Some (cc_RequestID cmd) /\
       (forall o, o ∈ adjustments db -> ad_ID o <> ad_ID a) /\
       ledger_effect (adjustments db ++ [a]) e = cc_CorrectedMicros cmd - base) /\
    w_Voided <$> windows db' = w_Voided <$> windows db /\ dom (keys db') = dom (keys db) /\
    law (held [] (reservations db))
      (fun t => spent (paid_of (cores db)) (reservations db) t
                + lsum (fun k => at_opt (bound_target (rcore r) k) (cc_CorrectedMicros cmd - base) t) kinds4)
      (windows db') (keys db').
Proof.
  unfold CorrectSettlement, select_one. intros H [C R] Hmax. destruct (_ || _) in H; [done|].
  destruct (existsb _ _) in H; [done|].
  destruct (requests db !! cc_RequestID cmd) as [r|] eqn:Hr; [|done].
  apply rbind_Ok in H as (r' & [= <-] & H).
  destruct (bool_decide (r_ChargeSource r = _)) eqn:Hsrc; [done|]. apply bool_decide_eq_false in Hsrc.
  destruct (bool_decide (r_Status r = _)) in H; [|done].
  destruct (r_SettledMicros r) as [base|] eqn:Hbase; [|done].
  apply rbind_Ok in H as ([dir delta] & Hd & H).
  assert (cores db !! cc_RequestID cmd = Some (rcore r)) as Hcr by by apply cores_lookup.
  assert (0 <= base <= max_int64) as Hb by (apply (ro_paid _ _ _ R _ _ _ Hcr); done).
  destruct (CorrectionDelta_signed _ _ _ _ Hb Hmax Hd) as (Hc0 & Hdpos & Hsig). rewrite Hsig in H.
  destruct (List.find _ _) as [ch|] in H; [|done].
  apply rbind_Ok in H as (db1 & [F1 _]%insertUsageRecord_frame & H).
  apply rbind_Ok in H as (db2 & (F2 & _ & Hadj)%insert_adjustment_frame & H).
  set (a := mkAdjustment _ _ _ _ _ _ _ _ _ _ _ _) in *.
  set (e := if _ && _ then _ else _) in H.
  apply rbind_Ok in H as (db3 & [F3 _]%insert_ledger_Ok & H).
  apply rbind_Ok in H as (db4 & H4 & H). apply rbind_Ok in H as (db5 & H5 & H).
  apply rbind_Ok in H as ([] & _ & H). apply correct_overage_frame in H.
  assert (adjustments db1 = adjustments db) as Ha1 by by rewrite F1. rewrite Ha1 in *.
  assert (windows db3 = windows db /\ keys db3 = keys db) as [Hw3 Hk3] by (rewrite F3, F2, F1; done).
  destruct C as [L _]. rewrite <- Hw3, <- Hk3 in L.
  destruct (law_correct_windows _ _ _ _ _ _ H4 L) as [(F4 & S4 & D4) L4].
  destruct (law_correct_key _ _ _ _ _ _ H5 L4) as [(F5 & S5 & D5) L5].
  exists r, base. split_and!; try done.
  - rewrite H. unfold cores. simpl. rewrite fmap_insert. f_equal.
    rewrite F5. simpl. rewrite F4. simpl. by rewrite F3, F2, F1.
  - rewrite H. simpl. rewrite F5. simpl. rewrite F4. simpl. by rewrite F3, F2, F1.
  - exists e, a. split_and!.
    + rewrite H. simpl. rewrite F5. simpl. rewrite F4. simpl. by rewrite F3, F2, F1.
    + rewrite H. simpl. rewrite F5. simpl. rewrite F4. simpl. rewrite F3. simpl. by rewrite F2.
    + unfold e. by destruct (_ && _).
    + unfold e. by destruct (_ && _).
    + intros o Ho. by apply Hadj.
    + assert (List.find (fun x => bool_decide (le_AdjustmentID e = Some (ad_ID x))) (adjustments db ++ [a]) = Some a) as Hf.
      { assert (le_AdjustmentID e = Some adjID) as He by (unfold e; by destruct (_ && _)).
        rewrite He. apply find_snoc; [|by apply bool_decide_eq_true].
        intros o Ho. apply bool_decide_eq_false. intros [= Heq]. by destruct (Hadj o Ho). }
      unfold ledger_effect. rewrite Hf. unfold e. destruct (_ && _) eqn:Hz; simpl.
      * apply andb_true_iff in Hz as [Hz _]. apply Z.eqb_eq in Hz. rewrite Hz. lia.
      * destruct dir; [done|]. rewrite <- Hsig. unfold neg64.
        rewrite wrap64_id by i64. done.
  - rewrite H. simpl. by rewrite S5, S4, Hw3.
  - rewrite H. simpl. by rewrite D5, D4, Hk3.
  - rewrite H. simpl. eapply law_ext; [| |exact L5].
    + done.
    + intros t. simpl. lia.
Qed.

Lemma store_inv_correct adjID jobID clk now cmd db db' :
  CorrectSettlement adjID jobID clk now cmd db = Ok db' -> cc_CorrectedMicros cmd <= max_int64 ->
  store_inv db -> store_inv db'.
Proof.
  intros H Hmax I. destruct (CorrectSettlement_Ok _ _ _ _ _ _ _ H I Hmax)
    as (r & base & Hr & Hb & Hsrc & Hpos & Hc & Hrv & (e & a & Hl & _ & Het & _) & Hsh & Hdom & L).
  destruct I as [[_ Rows] R]. pose proof (cores_lookup _ _ _ Hr) as Hcr. split.
  - split; [|rewrite Hsh, Hdom, Hrv; exact Rows]. rewrite Hrv. eapply law_ext; [done| |exact L].
    intros t. rewrite Hc. replace (cc_CorrectedMicros cmd) with (base + (cc_CorrectedMicros cmd - base)) at 1 by lia.
    by apply (spent_correct _ _ _ _ _ _ _ R Hcr Hsrc Hb).
  - rewrite Hc, Hrv, Hl. apply requests_ok_ledger; [done|]. destruct R as [R1 R2 R3 R4 R5 R6 R7].
    set (c := rcore r) in *. assert (c_Settled c = Some base) as Hcb by done.
    split; try done.
    + intros rid c0 [[<- <-]|[_ ?]]%lookup_insert_Some; [exact (R1 _ _ Hcr)|eauto].
    + intros id rv Hlk. destruct (R2 _ _ Hlk) as (c0 & Hc0 & Hst & Hw & Ht).
      destruct (decide (rv_RequestID rv = cc_RequestID cmd)) as [He|Hne].
      * rewrite He in *. rewrite Hcr in Hc0. injection Hc0 as <-. rewrite lookup_insert_eq. eexists. split; [done|].
        split_and!; [|done|by rewrite Ht; destruct (rv_TargetKind rv)]. rewrite Hst, Hcb. simpl. done.
      * rewrite lookup_insert_ne by done. eauto.
    + intros rid c0 k t [[<- <-]|[_ Hl0]]%lookup_insert_Some Hnw Hbt; [|eauto].
      apply (R3 _ c k t Hcr Hnw). by destruct k.
    + intros rid. rewrite R4. split.
      * intros (c0 & Hl0 & Hn). destruct (decide (rid = cc_RequestID cmd)) as [->|Hne];
          [rewrite lookup_insert_eq; by eexists|rewrite lookup_insert_ne by done; eauto].
      * intros (c0 & [[<- <-]|[_ Hl0]]%lookup_insert_Some & Hn); [|eauto]. exists c. by rewrite Hcb.
    + intros rid c0 m [[<- <-]|[_ Hl0]]%lookup_insert_Some; [intros [= <-]; lia|eauto].
Qed.

(** ** The step relation *)

(** Leases live in their own table. *)
Lemma AcquireLeaseTx_frame newID o clk cmd db l db' :
  AcquireLeaseTx newID o clk cmd db = Ok (l, db') -> same_quota db db'.
Proof. intros (_ & _ & _ & _ & _ & _ & _ & _ & _ & _ & _ & ->)%AcquireLeaseTx_Ok. frame. Qed.
Lemma RenewLease_frame id o f t db db' : RenewLease id o f t db = Ok db' -> same_quota db db'.
Proof. unfold RenewLease. intros H. destruct (leases db !! id); [|done]. inv_ok. frame. Qed.
Lemma ReleaseLease_frame id o f t db db' : ReleaseLease id o f t db = Ok db' -> same_quota db db'.
Proof. unfold ReleaseLease. intros H. destruct (leases db !! id); [|done]. inv_ok. frame. Qed.

(** One committed transaction. Amounts arrive as [int64]; account and key rows
    are written by the access component: a new key has an unspent budget, and
    only its limit changes afterwards. *)
Inductive store_step (db : DB) : DB -> Prop :=
| st_activate newID cmd out db' : ActivateWindowsTx newID cmd db = Ok (out, db') -> store_step db db'
| st_reserve newID now cmd adm db' :
    plan_reserve cmd -> Reserve newID now cmd db = Ok (adm, db') -> store_step db db'
| st_reserve_wallet h rv now cmd adm db' : ReserveWallet h rv now cmd db = Ok (adm, db') -> store_step db db'
| st_release rid rec_ now db' : releaseLocked rid rec_ now db = Ok db' -> store_step db db'
| st_settle cmd now db' :
    in_int64 (sc_ChargeMicros cmd) -> Settle cmd now db = Ok db' -> store_step db db'
| st_correct a j clk now cmd db' :
    cc_CorrectedMicros cmd <= max_int64 ->
    CorrectSettlement a j clk now cmd db = Ok db' -> store_step db db'
| st_park newID rid reason deadline now db' :
    MarkReconciliationRequired newID rid reason deadline now db = Ok db' -> store_step db db'
| st_status rid s e now db' : updateRequestStatus rid s e now db = Ok db' -> store_step db db'
| st_attempt a db' : insertAttempt a db = Ok db' -> store_step db db'
| st_finish id s k u t db' : FinishAttempt id s k u t db = Ok db' -> store_step db db'
| st_enqueue newID cmd db' : EnqueueReconciliationJobTx newID cmd db = Ok db' -> store_step db db'
| st_adjust newID a a' db' : AppendAdjustment newID a db = Ok (a', db') -> store_step db db'
| st_overage newID acc cur en lim by_ w db' :
    SetOverageTx newID acc cur en lim by_ db = Ok (w, db') -> store_step db db'
| st_topup newID now cmd db' : CreditTopupTx newID now cmd db = Ok db' -> store_step db db'
| st_refund now cmd db' : RefundWalletTx now cmd db = Ok db' -> store_step db db'
| st_wallet_adjust w a now cmd adj db' :
    ApplyWalletAdjustmentTx w a now cmd db = Ok (adj, db') -> store_step db db'
| st_reverse acc eid op now db' : ReverseWalletEntryTx acc eid op now db = Ok db' -> store_step db db'
| st_acquire newID o clk cmd l db' : AcquireLeaseTx newID o clk cmd db = Ok (l, db') -> store_step db db'
| st_renew id o f t db' : RenewLease id o f t db = Ok db' -> store_step db db'
| st_lease_release id o f t db' : ReleaseLease id o f t db = Ok db' -> store_step db db'
| st_reap cutoff limit : store_step db (DeleteTerminalLeases cutoff limit db).2
| st_account id s : store_step db (set_accounts (<[id := s]> (accounts db)) db)
| st_new_key kid lim : keys db !! kid = None ->
    store_step db (set_keys (<[kid := mkKey lim 0]> (keys db)) db)
| st_key_limit kid k lim : keys db !! kid = Some k ->
    store_step db (set_keys (<[kid := mkKey lim (k_BudgetUsed k)]> (keys db)) db).

Lemma store_inv_new_key kid lim db : keys db !! kid = None -> store_inv db ->
  store_inv (set_keys (<[kid := mkKey lim 0]> (keys db)) db).
Proof.
  intros Hk [[[Lr Lu Lk] [W1 W2 W3 W4 W5]] R]. split; [|done]. split; simpl.
  - assert (forall id rv, reservations db !! id = Some rv -> target_of rv <> Some (TKey kid)) as Hno.
    { intros id rv Hl Ht. apply (W3 _ _ _ Hl), elem_of_dom in Ht as [k Hk']. congruence. }
    split; try done. intros kid' k [[<- <-]|[_ ?]]%lookup_insert_Some; [|eauto].
    unfold held, spent. rewrite !msum_zero; [done|..]; intros id rv Hl;
      unfold held_at, spent_at; (rewrite bool_decide_eq_false_2; [done|by eauto]).
  - split; try done. intros id rv kid' Hl Ht. rewrite dom_insert. apply elem_of_union_r. eauto.
Qed.

Lemma store_inv_key_limit kid k lim db : keys db !! kid = Some k -> store_inv db ->
  store_inv (set_keys (<[kid := mkKey lim (k_BudgetUsed k)]> (keys db)) db).
Proof.
  intros Hk [[[Lr Lu Lk] Rw] R]. split; [|done]. split; simpl.
  - split; try done. intros kid' k' [[<- <-]|[_ ?]]%lookup_insert_Some; simpl; eauto.
  - erewrite dom_update by done. done.
Qed.

Lemma store_inv_step db db' : store_step db db' -> store_inv db -> store_inv db'.
Proof.
  intros Hs I. destruct Hs; eauto using store_inv_activate, store_inv_reserve, store_inv_reserve_wallet,
    store_inv_release, store_inv_settle, store_inv_correct, store_inv_adjustment, store_inv_new_key,
    store_inv_key_limit; eapply store_inv_frame; try exact I.
  all: eauto using MarkReconciliationRequired_frame, updateRequestStatus_frame, insertAttempt_frame,
    FinishAttempt_frame, SetOverageTx_frame, CreditTopupTx_frame, RefundWalletTx_frame,
    ApplyWalletAdjustmentTx_frame, ReverseWalletEntryTx_frame, AcquireLeaseTx_frame, RenewLease_frame,
    ReleaseLease_frame.
  - match goal with H : EnqueueReconciliationJobTx _ _ _ = _ |- _ => apply EnqueueReconciliationJobTx_frame in H;
      rewrite H end. frame.
  - frame.
  - frame.
Qed.

(** ** Which tables a transaction touches *)

(** Neither entries, freezes nor wallets change; adjustments at most grow. *)
Definition quiet (db db' : DB) : Prop :=
  entries db' = entries db /\ holds db' = holds db /\ adjs_grow db db' /\ wallets db' = wallets db.

#[global] Instance adjs_grow_preorder : PreOrder adjs_grow.
Proof.
  split; [intros db; exists []; by rewrite app_nil_r|].
  intros d1 d2 d3 [l1 H1] [l2 H2]. exists (l1 ++ l2). by rewrite H2, H1, app_assoc.
Qed.
#[global] Instance quiet_preorder : PreOrder quiet.
Proof.
  split; [done|]. intros ??? (? & ? & ? & ?) (? & ? & ? & ?). split_and!; [congruence..|by etrans|congruence].
Qed.

Lemma quiet_same db db' : entries db' = entries db -> holds db' = holds db ->
  adjustments db' = adjustments db -> wallets db' = wallets db -> quiet db db'.
Proof. intros. split_and!; [done..|by apply adjs_same|done]. Qed.

Lemma CorrectSettlement_quiet a j clk now cmd db db' : CorrectSettlement a j clk now cmd db = Ok db' -> quiet db db'.
Proof.
  unfold CorrectSettlement. intros H. destruct (_ || _) in H; [done|]. destruct (existsb _ _) in H; [done|].
  apply rbind_Ok in H as (r & _ & H). destruct (bool_decide _) in H; [done|].
  destruct (bool_decide _) in H; [|done]. destruct (r_SettledMicros r) as [base|]; [|done].
  apply rbind_Ok in H as ([dir delta] & _ & H). destruct (List.find _ _) as [c|] in H; [|done].
  apply rbind_Ok in H as (db1 & [F1 _]%insertUsageRecord_frame & H).
  apply rbind_Ok in H as (db2 & (F2 & _)%insert_adjustment_frame & H).
  apply rbind_Ok in H as (db3 & [F3 _]%insert_ledger_Ok & H).
  apply rbind_Ok in H as (db4 & H4 & H). apply rbind_Ok in H as (db5 & H5 & H).
  apply rbind_Ok in H as ([] & _ & H). apply correct_overage_frame in H.
  transitivity db3; [split_and!; [by rewrite F3, F2, F1..| |by rewrite F3, F2, F1]; eexists; by rewrite F3, F2, F1|].
  transitivity db4.
  { eapply rfold_rel; [intros ?; reflexivity|intros ???; by etrans| |exact H4]. intros o d d' _ Ho.
    unfold correct_window in Ho. destruct o; [|by inv_ok]. destruct (windows d !! s); [|done]. inv_ok. by apply quiet_same. }
  transitivity db5; [|apply quiet_same; by rewrite H].
  unfold correct_key in H5. destruct (r_APIKeyID r); [|by inv_ok]. destruct (keys db4 !! s); [|done]. inv_ok. by apply quiet_same.
Qed.

Lemma Reserve_quiet newID now cmd db adm db' : Reserve newID now cmd db = Ok (adm, db') -> quiet db db'.
Proof.
  intros H. apply Reserve_Ok in H as (st & req & Hloop & Hb & Hk & _ & _ & db1 & [_ F1]%insertRequest_Ok & Hrows).
  destruct (apply_holds (fun _ => 0) _ [] _ _ Hloop Hb Hk) as (_ & _ & _ & (F & _) & _).
  destruct (insert_rows (fun _ => 0) _ _ _ [] _ _ Hrows) as (F' & _). simpl in F.
  apply quiet_same; rewrite F', F1; simpl; by rewrite F.
Qed.

Lemma ActivateWindowsTx_quiet newID cmd db out db' : ActivateWindowsTx newID cmd db = Ok (out, db') -> quiet db db'.
Proof.
  unfold ActivateWindowsTx. intros H. apply rbind_Ok in H as ([] & _ & H).
  apply rbind_Ok in H as ([[? ?] db1] & H & H'). injection H' as _ <-.
  apply activate_kinds_frame with (paid := fun _ => 0) in H as [F _]. simpl in F. apply quiet_same; by rewrite F.
Qed.

Lemma AppendAdjustment_quiet newID a db a' db' : AppendAdjustment newID a db = Ok (a', db') -> quiet db db'.
Proof.
  unfold AppendAdjustment. cbv zeta. intros H.
  apply rbind_Ok in H as (db1 & (F1 & _)%insert_adjustment_frame & H).
  apply rbind_Ok in H as (db2 & (F2 & _)%insert_ledger_Ok & H). injection H as _ <-.
  split_and!; [by rewrite F2, F1..| |by rewrite F2, F1]. eexists. by rewrite F2, F1.
Qed.

(** The transactions on a wallet alone. *)
Inductive wallet_tx (db db' : DB) : Prop :=
| wt_overage newID acc cur en lim by_ w : SetOverageTx newID acc cur en lim by_ db = Ok (w, db') -> wallet_tx db db'
| wt_topup newID now cmd : CreditTopupTx newID now cmd db = Ok db' -> wallet_tx db db'
| wt_refund now cmd : RefundWalletTx now cmd db = Ok db' -> wallet_tx db db'
| wt_adjust w a now cmd adj : ApplyWalletAdjustmentTx w a now cmd db = Ok (adj, db') -> wallet_tx db db'
| wt_reverse acc eid op now : ReverseWalletEntryTx acc eid op now db = Ok db' -> wallet_tx db db'.

Lemma wallet_tx_only db db' : wallet_tx db db' -> wallet_only db db'.
Proof.
  intros []; eauto using SetOverageTx_wallet, CreditTopupTx_wallet, RefundWalletTx_wallet,
    ApplyWalletAdjustmentTx_wallet, ReverseWalletEntryTx_wallet.
Qed.

(** Money moves only in four kinds of transactions. *)
Lemma step_cases db db' : store_step db db' ->
  quiet db db' \/ wallet_tx db db' \/
  (exists h rv now cmd adm, ReserveWallet h rv now cmd db = Ok (adm, db')) \/
  (exists rid b now, releaseLocked rid b now db = Ok db') \/
  (exists cmd now, in_int64 (sc_ChargeMicros cmd) /\ Settle cmd now db = Ok db').
Proof.
  intros Hs. destruct Hs; try (by left; apply quiet_same);
    try (left; by eauto using CorrectSettlement_quiet, Reserve_quiet, ActivateWindowsTx_quiet, AppendAdjustment_quiet);
    try (right; left; by econstructor; eassumption);
    try (right; right; by eauto 10); left.
  - unfold MarkReconciliationRequired in H. destruct (_ !! _) as [r|] in H; [|done].
    destruct (finalized r); [by inv_ok|]. apply EnqueueReconciliationJobTx_frame in H. apply quiet_same; by rewrite H.
  - unfold updateRequestStatus in H. destruct (_ !! _) in H; [|done]. inv_ok. by apply quiet_same.
  - unfold insertAttempt in H. inv_ok. by apply quiet_same.
  - unfold FinishAttempt in H. destruct (attempts db !! id); [|done]. inv_ok. by apply quiet_same.
  - apply EnqueueReconciliationJobTx_frame in H. apply quiet_same; by rewrite H.
  - apply AcquireLeaseTx_Ok in H as (_ & _ & _ & _ & _ & _ & _ & _ & _ & _ & _ & ->). by apply quiet_same.
  - unfold RenewLease in H. destruct (leases db !! id); [|done]. inv_ok. by apply quiet_same.
  - unfold ReleaseLease in H. destruct (leases db !! id); [|done]. inv_ok. by apply quiet_same.
Qed.

Lemma step_shape db db' : store_step db db' ->
  quiet db db' \/ wallet_only db db' \/
  (exists h rv now cmd adm, ReserveWallet h rv now cmd db = Ok (adm, db')) \/
  (exists rid b now, releaseLocked rid b now db = Ok db') \/
  (exists cmd now, in_int64 (sc_ChargeMicros cmd) /\ Settle cmd now db = Ok db').
Proof. intros [?|[?%wallet_tx_only|?]]%step_cases; tauto. Qed.

(** A store before any traffic. *)
Definition initial (db : DB) : Prop :=
  windows db = ∅ /\ requests db = ∅ /\ reservations db = ∅ /\ ledger db = [] /\
  (forall kid k, keys db !! kid = Some k -> k_BudgetUsed k = 0) /\ holds db = ∅ /\ entries db = [].

Definition reachable (db : DB) : Prop := exists db0, initial db0 /\ rtc store_step db0 db.

Lemma store_inv_initial db : initial db -> store_inv db.
Proof.
  intros (Hw & Hq & Hr & Hl & Hk & _). split.
  - unfold conserved. rewrite Hw, Hr. split; split; try (by intros *; rewrite lookup_empty);
      try (intros *; rewrite elem_of_nil; done).
    intros kid k Hkk. unfold held, spent. rewrite !msum_empty. simpl. by rewrite (Hk _ _ Hkk).
  - unfold cores. rewrite Hq, Hr, Hl, fmap_empty. split; try (by intros *; rewrite lookup_empty).
    intros rid. split; [by intros (e & ?%not_elem_of_nil & _)|]. intros (c & Hc & _). by rewrite lookup_empty in Hc.
Qed.

Lemma store_inv_steps db db' : rtc store_step db db' -> store_inv db -> store_inv db'.
Proof. induction 1; eauto using store_inv_step. Qed.

Lemma reachable_inv db : reachable db -> store_inv db.
Proof. intros (db0 & Hi & Hs). eauto using store_inv_steps, store_inv_initial. Qed.

(** ** A sample run

    One account with a budgeted key: two windows are activated, a request is
    reserved on them and settled below its hold. The witnesses evaluate on it. *)

Definition ok_or {A} (d : A) (r : res A) : A := match r with Ok a => a | Err _ => d end.

Definition run0 : DB := set_keys {[ "key" := mkKey (Some 1000) 0 ]} demo_db.

Definition run_kind_id (k : WindowKind) : string :=
  match k with WindowFiveHour => "w5" | WindowWeekly => "w7" | WindowMonthly => "w30" end.
Definition run_limits (k : WindowKind) : option Microcredit :=
  match k with WindowFiveHour => Some 50 | WindowWeekly => Some 100 | WindowMonthly => None end.
Definition run_activate : ActivateWindowsCommand :=
  mkActivate "acc" "ent" (Date 2024 1 31 10 0 0 0) (Date 2024 2 2 10 0 0 0) run_limits.
Definition run1 : DB := (ok_or ([], run0) (ActivateWindowsTx run_kind_id run_activate run0)).2.

Definition run_rv_id (req : string) (k : ReservationTargetKind) : string :=
  req +:+ match k with TargetWindowFiveHour => "-5" | TargetWindowWeekly => "-7" | TargetWindowMonthly => "-30"
          | TargetKeyBudget => "-k" | TargetWallet => "-w" end.
Definition run_request (id : string) : Request :=
  mkRequest id "acc" (Some "key") "ent" "model" None None (Some "price") "pol" None None None None None
    (Some ChargeSourcePlan) None (Some 10) (Some 10) [] "" 0 None.
Definition run_reserve (id : string) (amount : Z) : ReserveCommand :=
  mkReserve (run_request id)
    [mkHoldSpec TargetWindowFiveHour (Some "w5") None None amount;
     mkHoldSpec TargetWindowWeekly (Some "w7") None None amount;
     mkHoldSpec TargetKeyBudget None (Some "key") None amount] (Date 2024 2 2 10 0 0 0).
Definition run2 : DB := (ok_or (mkAdmission "" [], run1) (Reserve (run_rv_id "r1") 0 (run_reserve "r1" 30) run1)).2.
Definition run_attempt : Attempt := mkAttempt "a1" "r1" 1 "" "" "" None None None None.
Definition run3 : DB := ok_or run2 (insertAttempt run_attempt run2).

Definition run_settle : SettleCommand :=
  mkSettle "r1" (mkUsage "r1" "a1" UsageReported (mkBuckets (Some 5) None None (Some 3) None) 1) 20 None
    None None None (Date 2024 2 2 10 5 0 0).
Definition run4 : DB := ok_or run3 (Settle run_settle 0 run3).

Lemma run_plan id amount : plan_reserve (run_reserve id amount).
Proof.
  split_and!; try done.
  - intros h Hh Hk. simpl in Hh. repeat (apply elem_of_cons in Hh as [->|Hh]; [done|]). by apply not_elem_of_nil in Hh.
  - intros _. eexists. split; [do 2 right; left|done].
Qed.

Lemma run_initial : initial run0.
Proof.
  split_and!; try done. intros kid k. unfold run0. simpl. intros [<- <-]%lookup_singleton_Some. done.
Qed.

Lemma run_steps : store_step run0 run1 /\ store_step run1 run2 /\ store_step run2 run3 /\ store_step run3 run4.
Proof.
  split_and!.
  - eapply (st_activate _ run_kind_id run_activate). vm_compute. reflexivity.
  - eapply (st_reserve _ (run_rv_id "r1") 0 (run_reserve "r1" 30)); [apply run_plan|]. vm_compute. reflexivity.
  - eapply (st_attempt _ run_attempt). vm_compute. reflexivity.
  - eapply (st_settle _ run_settle 0); [by apply is_int64_true|]. vm_compute. reflexivity.
Qed.

Lemma run_reachable : reachable run1 /\ reachable run2 /\ reachable run3 /\ reachable run4.
Proof.
  pose proof run_initial as Hi. destruct run_steps as (H1 & H2 & H3 & H4).
  split_and!; exists run0; (split; [exact Hi|]); eauto using rtc_l, rtc_refl.
Qed.
