(* ===== verification/StoreProps.v ===== *)
(** * StoreProps: what holds of every reachable store

    Conservation, at-most-once charging, exact reservations, the release round
    trip, no over-admission, disjoint windows and the ledger rebuild. *)

From Stdlib Require Import ZArith Lia Bool.
From stdpp Require Import base gmap strings list relations.
From S2P Require Import Prelude Domain Money Calendar Window Pricing WalletRules Tables.
From S2P Require Import RequestStore QuotaStore WalletStore LedgerStore Conservation StoreInv.
From S2P Require Import LeaseStore StoreSteps.

Local Open Scope Z_scope.
Local Open Scope go_scope.

(** ** Lemmas *)

Lemma paid_nonneg db rid : store_inv db -> 0 <= paid_of (cores db) rid.
Proof.
  intros [_ R]. unfold paid_of. destruct (cores db !! rid) as [c|] eqn:Hc; [|lia].
  destruct (c_Settled c) as [m|] eqn:Hm; simpl; [|lia]. by apply (ro_paid _ _ _ R _ _ _ Hc Hm).
Qed.

Lemma held_nonneg db t : store_inv db -> 0 <= held [] (reservations db) t.
Proof.
  intros [[_ W] _]. unfold held. simpl. rewrite Z.add_0_r. apply msum_nonneg. intros id rv Hl.
  unfold held_at. destruct (row_wf _ _ _ _ W _ _ Hl) as (_ & ? & _). destruct (_ && _); lia.
Qed.

Lemma spent_nonneg db t : store_inv db -> 0 <= spent (paid_of (cores db)) (reservations db) t.
Proof.
  intros I. unfold spent. apply msum_nonneg. intros id rv _. unfold spent_at.
  destruct (_ && _); [by apply paid_nonneg|lia].
Qed.

(** The ledger only grows, and never by a second charge of a request. *)
Lemma ledger_step db db' : store_step db db' -> store_inv db ->
  ledger db' = ledger db \/
  exists e, ledger db' = ledger db ++ [e] /\ forall rid, is_charge_of rid e = true -> ~ charged (ledger db) rid.
Proof.
  intros Hs I.
  assert (forall db', same_quota db db' -> ledger db' = ledger db) as Hsame by (intros ? (?&?&?&?&?); done).
  destruct Hs; try (left; apply Hsame; by eauto using MarkReconciliationRequired_frame,
    updateRequestStatus_frame, insertAttempt_frame, FinishAttempt_frame, SetOverageTx_frame,
    CreditTopupTx_frame, RefundWalletTx_frame, ApplyWalletAdjustmentTx_frame, ReverseWalletEntryTx_frame,
    AcquireLeaseTx_frame, RenewLease_frame, ReleaseLease_frame); try by left.
  - left. unfold ActivateWindowsTx in *. apply rbind_Ok in H as ([] & _ & H).
    apply rbind_Ok in H as ([[? ?] db1] & H & H'). injection H' as _ <-.
    apply activate_kinds_frame with (paid := fun _ => 0) in H as [F _]. simpl in F. by rewrite F.
  - left. apply Reserve_Ok in H0 as (st & req & Hloop & Hb & Hk & _ & _ & db1 & [_ F1]%insertRequest_Ok & Hrows).
    destruct (apply_holds (fun _ => 0) _ [] _ _ Hloop Hb Hk) as (_ & _ & _ & (F & _) & _).
    destruct (insert_rows (fun _ => 0) _ _ _ [] _ _ Hrows) as (F' & _). simpl in F.
    rewrite F', F1. simpl. by rewrite F.
  - left. apply ReserveWallet_Ok in H as (_ & ? & ? & ? & ? & ? & ? & ? & _ & _ & _ & _ & _ & _ & _ & _ & _ & _ & _ & _ & Hrv).
    apply insert_reservation_Ok in Hrv as (_ & _ & _ & _ & _ & _ & _ & ->). done.
  - left. by destruct (releaseLocked_Ok _ _ _ _ _ H I) as (?&?&?&?&?&?&?&?&?).
  - right. destruct (Settle_Ok _ _ _ _ H0 I) as (r & _ & _ & Hn & _ & _ & _ & _ & (e & Hl & He & _) & _).
    exists e. split; [done|]. intros rid Hc. unfold is_charge_of in *. bool_prop. congruence.
  - right. destruct (CorrectSettlement_Ok _ _ _ _ _ _ _ H0 I H) as (? & ? & _ & _ & _ & _ & _ & _ & (e & ? & Hl & _ & Het & _) & _).
    exists e. split; [done|]. intros rid Hc. unfold is_charge_of in Hc. bool_prop. done.
  - left. apply EnqueueReconciliationJobTx_frame in H. by rewrite H.
  - right. unfold AppendAdjustment in H. cbv zeta in H.
    apply rbind_Ok in H as (db1 & (F1 & _)%insert_adjustment_frame & H).
    apply rbind_Ok in H as (db2 & (F2 & _)%insert_ledger_Ok & H). injection H as _ <-.
    rewrite F2, F1. simpl. eexists. split; [done|]. done.
Qed.

Definition charges (led : list LedgerEntry) (rid : string) : list LedgerEntry := List.filter (is_charge_of rid) led.

Lemma charges_one led rid : charged led rid -> (length (charges led rid) <= 1)%nat ->
  exists e, charges led rid = [e].
Proof.
  intros (e & Hin & He) Hlen.
  assert (e ∈ charges led rid) as Hin' by (apply list_elem_of_In, filter_In; by rewrite <- list_elem_of_In).
  destruct (charges led rid) as [|x [|y l]]; simpl in Hlen; [by apply not_elem_of_nil in Hin'|eauto|lia].
Qed.

Lemma uncharged_nil led rid : ~ charged led rid -> charges led rid = [].
Proof.
  intros Hn. unfold charges. destruct (List.filter _ led) as [|x l] eqn:E; [done|]. destruct Hn. exists x.
  assert (In x (List.filter (is_charge_of rid) led)) as [? ?]%filter_In by (rewrite E; by left).
  by rewrite list_elem_of_In.
Qed.

Lemma charges_app led e rid :
  charges (led ++ [e]) rid = charges led rid ++ (if is_charge_of rid e then [e] else []).
Proof. unfold charges. rewrite List.filter_app. simpl. done. Qed.

Lemma charges_steps db db' rid : rtc store_step db db' -> store_inv db -> (length (charges (ledger db) rid) <= 1)%nat ->
  (exists l, charges (ledger db') rid = charges (ledger db) rid ++ l) /\ (length (charges (ledger db') rid) <= 1)%nat.
Proof.
  induction 1 as [db|db db1 db2 Hs _ IH]; intros I Hlen; [split; [exists []; by rewrite app_nil_r|done]|].
  assert ((exists l, charges (ledger db1) rid = charges (ledger db) rid ++ l) /\
          (length (charges (ledger db1) rid) <= 1)%nat) as [(l1 & Hl1) Hlen1].
  { destruct (ledger_step _ _ Hs I) as [->|(e & -> & Hc)]; [split; [exists []; by rewrite app_nil_r|done]|].
    rewrite charges_app. split; [eauto|]. destruct (is_charge_of rid e) eqn:He; [|by rewrite app_nil_r].
    rewrite uncharged_nil by auto. done. }
  destruct (IH (store_inv_step _ _ Hs I) Hlen1) as [(l2 & Hl2) Hlen2].
  split; [|done]. exists (l1 ++ l2). by rewrite Hl2, Hl1, app_assoc.
Qed.

Lemma reachable_charges db rid : reachable db -> (length (charges (ledger db) rid) <= 1)%nat.
Proof.
  intros (db0 & Hi & Hs). apply (charges_steps db0 db rid Hs (store_inv_initial _ Hi)).
  destruct Hi as (_ & _ & _ & -> & _). simpl. lia.
Qed.

Lemma charged_nonempty led rid : charged led rid <-> charges led rid <> [].
Proof.
  split.
  - intros (e & Hin & He) Hn. assert (e ∈ charges led rid) as Hx
      by (apply list_elem_of_In, filter_In; by rewrite <- list_elem_of_In).
    rewrite Hn in Hx. by apply not_elem_of_nil in Hx.
  - intros (e & [Hin He]%list_elem_of_In%filter_In)%list_nonempty_elem. exists e. by rewrite list_elem_of_In.
Qed.

(** A charged request can be neither settled nor released. *)
Lemma charged_final db rid : store_inv db -> charged (ledger db) rid ->
  (forall cmd now, sc_RequestID cmd = rid -> is_ok (Settle cmd now db) = false) /\
  (forall fromRec now, is_ok (releaseLocked rid fromRec now db) = false).
Proof.
  intros I Hc. split.
  - intros cmd now <-. destruct (Settle cmd now db) as [db'|] eqn:H; [|done].
    by destruct (Settle_Ok _ _ _ _ H I) as (r & _ & _ & Hn & _).
  - intros fromRec now. destruct (releaseLocked rid fromRec now db) as [db'|] eqn:H; [|done].
    destruct (releaseLocked_Ok _ _ _ _ _ H I) as (r & Hr & _ & _ & (id & rv & Hl & Hh) & _).
    destruct I as [_ R]. apply (ro_charge _ _ _ R) in Hc as (c & Hcc & Hn).
    unfold held_of in Hh. bool_prop. destruct (ro_row _ _ _ R _ _ Hl) as (c' & Hcc' & Hst & _).
    subst rid. rewrite Hcc in Hcc'. injection Hcc' as <-.
    assert (rv_State rv = ReservationSettled) by by apply Hst. congruence.
Qed.

(** The exact effect of an unblocked hold loop. *)
Lemma apply_holds_exact hs st st' :
  rfold apply_hold st hs = Ok st' -> hl_blocked st' = [] -> hl_keyBlocked st' = false ->
  (forall wid w, windows (hl_db st) !! wid = Some w ->
     windows (hl_db st') !! wid
       = Some (set_w_Counters (w_Used w) (w_Reserved w + lsum (pending_at (TWindow wid)) hs) w) /\
     ((exists h, h ∈ hs /\ hold_target h = Some (TWindow wid)) ->
       w_Voided w = false /\ w_Used w + w_Reserved w + lsum (pending_at (TWindow wid)) hs <= w_Limit w)) /\
  (forall kid k, keys (hl_db st) !! kid = Some k ->
     keys (hl_db st') !! kid
       = Some (mkKey (k_BudgetLimit k) (k_BudgetUsed k + lsum (pending_at (TKey kid)) hs)) /\
     ((exists h, h ∈ hs /\ hold_target h = Some (TKey kid)) -> forall l, k_BudgetLimit k = Some l ->
       k_BudgetUsed k + lsum (pending_at (TKey kid)) hs <= l)).
Proof.
  revert st. induction hs as [|h hs IH]; intros st H Hb Hk; simpl in H.
  - inv_ok. split.
    + intros wid w Hw. simpl. rewrite Z.add_0_r. split; [by destruct w|]. by intros (h & ?%not_elem_of_nil & _).
    + intros kid k Hw. simpl. rewrite Z.add_0_r. split; [by destruct k|]. by intros (h & ?%not_elem_of_nil & _).
  - apply rbind_Ok in H as (st1 & H1 & H2). destruct (IH st1 H2 Hb Hk) as [IHw IHk].
    destruct (apply_holds (fun _ => 0) hs [] _ _ H2 Hb Hk) as (Hb1 & Hk1 & Hpos & _).
    assert (forall t, 0 <= lsum (pending_at t) hs) as Hge.
    { intros t. apply lsum_nonneg. intros x Hx. rewrite Forall_forall in Hpos.
      unfold pending_at. destruct (Hpos _ Hx). case_bool_decide; lia. }
    destruct (apply_hold_applied _ _ _ H1 Hb1 Hk1) as (_ & _ & Ha & [(w0 & Ht & Hh)|(k0 & Ht & Hh)]).
    + apply hold_window_Some in Hh as (w1 & Hw1 & Hv1 & Hfit & Hdb). rewrite Hdb in IHw, IHk. simpl in *. split.
      * intros wid w Hw. unfold pending_at at 1 3. rewrite Ht.
        destruct (decide (w0 = wid)) as [->|Hne].
        -- rewrite Hw1 in Hw. injection Hw as <-. rewrite bool_decide_eq_true_2 by done.
           destruct (IHw wid _ (lookup_insert_eq _ _ _)) as [Hl Hex]. simpl in Hl, Hex. rewrite Hl. split.
           { f_equal. unfold set_w_Counters. simpl. f_equal. lia. }
           intros _. split; [done|]. destruct (decide (Exists (fun h => hold_target h = Some (TWindow wid)) hs)) as [Hx|Hx].
           { apply Exists_exists in Hx. destruct (Hex Hx). lia. }
           assert (lsum (pending_at (TWindow wid)) hs = 0) as Hz; [|lia].
           rewrite (lsum_ext _ (fun _ => 0)); [clear; induction hs; simpl; lia|].
           intros x Hxin. unfold pending_at. rewrite bool_decide_eq_false_2; [done|]. intros Heq. apply Hx, Exists_exists. eauto.
        -- rewrite bool_decide_eq_false_2 by congruence. simpl.
           destruct (IHw wid w) as [Hl Hex]; [by rewrite lookup_insert_ne|]. split; [exact Hl|].
           intros (h' & [->|Hin]%elem_of_cons & Ht'); [congruence|]. rewrite Z.add_0_l in *. eauto.
      * intros kid k Hkk. unfold pending_at at 1 3. rewrite Ht, bool_decide_eq_false_2 by done.
        destruct (IHk kid k Hkk) as [Hl Hex]. split; [exact Hl|].
        intros (h' & [->|Hin]%elem_of_cons & Ht'); [congruence|]. rewrite Z.add_0_l in *. eauto.
    + apply hold_key_Some in Hh as (k1 & Hk1' & Hfit & Hdb). rewrite Hdb in IHw, IHk. simpl in *. split.
      * intros wid w Hw. unfold pending_at at 1 3. rewrite Ht, bool_decide_eq_false_2 by done.
        destruct (IHw wid w Hw) as [Hl Hex]. split; [exact Hl|].
        intros (h' & [->|Hin]%elem_of_cons & Ht'); [congruence|]. rewrite Z.add_0_l in *. eauto.
      * intros kid k Hkk. unfold pending_at at 1 3. rewrite Ht.
        destruct (decide (k0 = kid)) as [->|Hne].
        -- rewrite Hk1' in Hkk. injection Hkk as <-. rewrite bool_decide_eq_true_2 by done.
           destruct (IHk kid _ (lookup_insert_eq _ _ _)) as [Hl Hex]. simpl in Hl, Hex. rewrite Hl. split.
           { f_equal. f_equal. lia. }
           intros _ l Hlim. destruct (decide (Exists (fun h => hold_target h = Some (TKey kid)) hs)) as [Hx|Hx].
           { apply Exists_exists in Hx. specialize (Hex Hx _ Hlim). lia. }
           assert (lsum (pending_at (TKey kid)) hs = 0) as Hz; [|specialize (Hfit _ Hlim); lia].
           rewrite (lsum_ext _ (fun _ => 0)); [clear; induction hs; simpl; lia|].
           intros x Hxin. unfold pending_at. rewrite bool_decide_eq_false_2; [done|]. intros Heq. apply Hx, Exists_exists. eauto.
        -- rewrite bool_decide_eq_false_2 by congruence. simpl.
           destruct (IHk kid k) as [Hl Hex]; [by rewrite lookup_insert_ne|]. split; [exact Hl|].
           intros (h' & [->|Hin]%elem_of_cons & Ht'); [congruence|]. rewrite Z.add_0_l in *. eauto.
Qed.

(** Inserting rows adds their terms to any sum over the table. *)
Lemma insert_rows_sum (f : string -> Reservation -> Z) newID rid hs db db' :
  rfold (fun db rv => insert_reservation rv db) db (map (reservation_of newID rid) hs) = Ok db' ->
  msum f (reservations db') = msum f (reservations db)
    + lsum (fun h => f (newID (h_TargetKind h)) (reservation_of newID rid h)) hs.
Proof.
  revert db. induction hs as [|h hs IH]; intros db H; simpl in H.
  - inv_ok. simpl. lia.
  - apply rbind_Ok in H as (db1 & H1 & H2). rewrite (IH _ H2).
    apply insert_reservation_Ok in H1 as (_ & _ & Hf & _ & _ & _ & _ & ->). simpl in *.
    rewrite msum_insert by done. lia.
Qed.

(** The windows and keys tables after a reservation. *)
Lemma Reserve_tables newID now cmd db adm db' :
  Reserve newID now cmd db = Ok (adm, db') ->
  exists st, rfold apply_hold (mkLoop db [] false 0 0)
      (sort_by (fun h => windowOrderKey (h_TargetKind h)) (rc_Holds cmd)) = Ok st /\
    hl_blocked st = [] /\ hl_keyBlocked st = false /\
    windows db' = windows (hl_db st) /\ keys db' = keys (hl_db st).
Proof.
  intros (st & req & Hl & Hb & Hk & _ & _ & db1 & [_ F1]%insertRequest_Ok & Hrows)%Reserve_Ok.
  destruct (insert_rows (fun _ => 0) _ _ _ [] _ _ Hrows) as (F & _).
  exists st. split_and!; try done; by rewrite F, F1.
Qed.

(** What the holds of a command take at a target. *)
Definition asked (cmd : ReserveCommand) (t : Target) : Z := lsum (pending_at t) (rc_Holds cmd).
Definition asks (cmd : ReserveCommand) (t : Target) : Prop :=
  exists h, h ∈ rc_Holds cmd /\ hold_target h = Some t.

Lemma Reserve_exact newID now cmd db adm db' :
  Reserve newID now cmd db = Ok (adm, db') ->
  (forall wid w, windows db !! wid = Some w ->
     windows db' !! wid = Some (set_w_Counters (w_Used w) (w_Reserved w + asked cmd (TWindow wid)) w) /\
     (asks cmd (TWindow wid) ->
        w_Voided w = false /\ w_Used w + w_Reserved w + asked cmd (TWindow wid) <= w_Limit w)) /\
  (forall kid k, keys db !! kid = Some k ->
     keys db' !! kid = Some (mkKey (k_BudgetLimit k) (k_BudgetUsed k + asked cmd (TKey kid))) /\
     (asks cmd (TKey kid) -> forall l, k_BudgetLimit k = Some l ->
        k_BudgetUsed k + asked cmd (TKey kid) <= l)).
Proof.
  intros (st & Hl & Hb & Hk & Hw & Hke)%Reserve_tables. unfold asked, asks. rewrite Hw, Hke.
  destruct (apply_holds_exact _ _ _ Hl Hb Hk) as [Xw Xk]. simpl in *.
  set (hs := sort_by _ _) in *.
  assert (forall t, lsum (pending_at t) hs = lsum (pending_at t) (rc_Holds cmd)) as Hs
    by (intros t; unfold hs; by rewrite sort_by_Permutation).
  assert (forall t, (exists h, h ∈ hs /\ hold_target h = Some t) <->
                    (exists h, h ∈ rc_Holds cmd /\ hold_target h = Some t)) as He
    by (intros t; unfold hs; setoid_rewrite sort_by_Permutation; done).
  split.
  - intros wid w Hlk. destruct (Xw _ _ Hlk) as [H1 H2]. rewrite Hs in H1, H2. split; [done|]. rewrite <- He. done.
  - intros kid k Hlk. destruct (Xk _ _ Hlk) as [H1 H2]. rewrite Hs in H1, H2. split; [done|]. rewrite <- He. done.
Qed.

(** ** How windows and keys evolve *)

(** The fixed columns of a window; voiding is final. *)
Definition same_window (w w' : QuotaWindow) : Prop :=
  w_ID w' = w_ID w /\ w_EntitlementID w' = w_EntitlementID w /\ w_Kind w' = w_Kind w /\
  w_Start w' = w_Start w /\ w_End w' = w_End w /\ w_Limit w' = w_Limit w /\
  (w_Voided w = true -> w_Voided w' = true).

(** Every row is kept and related by [R]; no row appears. *)
Definition ws_rel (R : QuotaWindow -> QuotaWindow -> Prop) (db db' : DB) : Prop :=
  dom (windows db') = dom (windows db) /\
  forall wid w w', windows db !! wid = Some w -> windows db' !! wid = Some w' -> R w w'.

Definition occupied (w : QuotaWindow) : Z := w_Used w + w_Reserved w.
(** Same window, no more of it taken. *)
Definition no_fuller (w w' : QuotaWindow) : Prop := same_window w w' /\ occupied w' <= occupied w.

Definition ks_same (db db' : DB) : Prop :=
  dom (keys db') = dom (keys db) /\
  forall kid k k', keys db !! kid = Some k -> keys db' !! kid = Some k' -> k_BudgetLimit k' = k_BudgetLimit k.

Lemma same_window_refl w : same_window w w.
Proof. done. Qed.
Lemma no_fuller_refl w : no_fuller w w.
Proof. split; [done|lia]. Qed.
Lemma no_fuller_trans w1 w2 w3 : no_fuller w1 w2 -> no_fuller w2 w3 -> no_fuller w1 w3.
Proof. intros [(?&?&?&?&?&?&?) ?] [(?&?&?&?&?&?&?) ?]. repeat split; try congruence; auto. lia. Qed.

#[global] Instance same_window_preorder : PreOrder same_window.
Proof.
  split; [done|]. intros w1 w2 w3 (?&?&?&?&?&?&?) (?&?&?&?&?&?&?). repeat split; try congruence. auto.
Qed.
#[global] Instance no_fuller_preorder : PreOrder no_fuller.
Proof. split; [exact no_fuller_refl|exact no_fuller_trans]. Qed.

#[global] Instance ws_rel_preorder R `{!PreOrder R} : PreOrder (ws_rel R).
Proof.
  split.
  - intros db. split; [done|]. intros wid w w' ? ?. by simplify_eq.
  - intros db1 db2 db3 [D1 R1] [D2 R2]. split; [congruence|]. intros wid w w' H1 H3.
    assert (is_Some (windows db2 !! wid)) as [w2 H2] by (apply elem_of_dom; rewrite D1; by eapply elem_of_dom_2).
    etrans; eauto.
Qed.
#[global] Instance ks_same_preorder : PreOrder ks_same.
Proof.
  split; [intros db; split; [done|]; intros; by simplify_eq|].
  intros db1 db2 db3 [D1 R1] [D2 R2]. split; [congruence|]. intros kid k k' H1 H3.
  assert (is_Some (keys db2 !! kid)) as [k2 H2] by (apply elem_of_dom; rewrite D1; by eapply elem_of_dom_2).
  rewrite (R2 _ _ _ H2 H3). eauto.
Qed.

(** Both relations, for the statements that only give room back. *)
Definition gives_back (db db' : DB) : Prop := ws_rel no_fuller db db' /\ ks_same db db'.
#[global] Instance gives_back_preorder : PreOrder gives_back.
Proof.
  split; [intros db; by split|]. intros d1 d2 d3 [? ?] [? ?]. split; by etrans.
Qed.

Lemma gives_back_keeps db db' : gives_back db db' -> ws_rel same_window db db'.
Proof. intros [[D R] _]. split; [done|]. intros wid w w' H H'. by destruct (R _ _ _ H H'). Qed.

Lemma ws_rel_same R `{!PreOrder R} db db' : windows db' = windows db -> ws_rel R db db'.
Proof. intros Hw. split; rewrite Hw; [done|]. intros; by simplify_eq. Qed.
Lemma gives_back_same db db' : windows db' = windows db -> keys db' = keys db -> gives_back db db'.
Proof.
  intros Hw Hk. split; [by apply (ws_rel_same no_fuller)|].
  split; rewrite Hk; [done|]. intros; by simplify_eq.
Qed.

Lemma ws_rel_window R `{!PreOrder R} db wid w w' db' :
  windows db !! wid = Some w -> R w w' -> windows db' = <[wid := w']> (windows db) -> ws_rel R db db'.
Proof.
  intros Hw Hn Hws. split.
  - rewrite Hws. apply dom_insert_lookup_L. eauto.
  - rewrite Hws. intros i a a' Ha [[<- <-]|[_ ?]]%lookup_insert_Some; by simplify_eq.
Qed.

Lemma gives_back_window db wid w w' db' :
  windows db !! wid = Some w -> no_fuller w w' -> windows db' = <[wid := w']> (windows db) -> keys db' = keys db ->
  gives_back db db'.
Proof.
  intros Hw Hn Hws Hks. split; [by eapply (ws_rel_window no_fuller)|].
  split; rewrite Hks; [done|intros; by simplify_eq].
Qed.

Lemma gives_back_key db kid k k' db' :
  keys db !! kid = Some k -> k_BudgetLimit k' = k_BudgetLimit k -> keys db' = <[kid := k']> (keys db) ->
  windows db' = windows db -> gives_back db db'.
Proof.
  intros Hk Hl Hks Hws. split; [by apply (ws_rel_same no_fuller)|]. split.
  - rewrite Hks. by eapply dom_update.
  - rewrite Hks. intros i a a' Ha [[<- <-]|[_ ?]]%lookup_insert_Some; simplify_eq; done.
Qed.

Lemma no_fuller_counters w u r : u + r <= occupied w -> no_fuller w (set_w_Counters u r w).
Proof. intros H. split; [by repeat split|]. done. Qed.

Lemma release_one_gives_back rid db rv db' :
  release_one rid db rv = Ok db' -> 0 <= rv_Amount rv -> gives_back db db'.
Proof.
  intros H Ha. unfold release_one in H. apply rbind_Ok in H as (db1 & H1 & H2).
  apply flip_reservation_Ok in H2 as (rv' & _ & _ & ->).
  apply release_target_Ok in H1 as [(wid & w & _ & Hw & _ & ->)|[(kid & k & _ & Hk & _ & ->)|(_ & _ & hs & ->)]].
  - eapply gives_back_window; [exact Hw| |done..]. apply no_fuller_counters. unfold occupied. lia.
  - eapply gives_back_key; [exact Hk| |done..]. done.
  - by apply gives_back_same.
Qed.

Lemma settle_one_gives_back charge db rv db' :
  settle_one charge db rv = Ok db' -> charge <= rv_Amount rv -> gives_back db db'.
Proof.
  intros H Ha. unfold settle_one in H. apply rbind_Ok in H as (db1 & H1 & H2).
  apply flip_reservation_Ok in H2 as (rv' & _ & _ & ->).
  apply settle_target_Ok in H1 as [(wid & w & _ & _ & Hw & _ & _ & ->)|(kid & k & _ & Hk & ->)].
  - eapply gives_back_window; [exact Hw| |done..]. apply no_fuller_counters. unfold occupied. lia.
  - eapply gives_back_key; [exact Hk| |done..]. done.
Qed.

Lemma void_gives_back wid db db' : voidUnusedFiveHourWindow wid db = Ok db' -> gives_back db db'.
Proof.
  intros [->|(w & Hw & Hv & _ & _ & _ & ->)]%voidUnused_Ok; [reflexivity|].
  eapply gives_back_window; [exact Hw| |done..]. split; [by repeat split|]. unfold occupied. simpl. lia.
Qed.

Lemma loadHeld_amount rid db rv : store_inv db -> rv ∈ loadHeldReservations rid db -> 0 <= rv_Amount rv.
Proof.
  intros [[_ W] _] (_ & id & Hl)%loadHeld_elem. by destruct (row_wf _ _ _ _ W _ _ Hl) as (_ & ? & _).
Qed.

Lemma release_gives_back rid fromRec now db db' :
  releaseLocked rid fromRec now db = Ok db' -> store_inv db -> gives_back db db'.
Proof.
  unfold releaseLocked. intros H I. apply rbind_Ok in H as (r & _ & H). apply rbind_Ok in H as ([] & _ & H).
  destruct (_ || _) in H; [done|]. destruct (_ && _) in H; [done|].
  destruct (bool_decide _) in H; [done|].
  apply rbind_Ok in H as (db1 & H1 & H). apply rbind_Ok in H as (db2 & H2 & H3).
  apply updateRequestStatus_frame in H3 as (Hw3 & Hk3 & _).
  etrans; [|apply (gives_back_same db2); [rewrite Hw3|rewrite Hk3]; by destruct fromRec].
  etrans.
  - eapply rfold_rel; [reflexivity|intros ???; by etrans| |exact H1].
    intros rv d d' Hin Hd. eapply release_one_gives_back; [done|]. by eapply loadHeld_amount.
  - destruct (five_hour_of _); [by eapply void_gives_back|]. inv_ok. reflexivity.
Qed.

(** The sums after a request is reserved and all its rows are released. *)
Lemma held_after_round_trip newID now cmd db adm db1 :
  Reserve newID now cmd db = Ok (adm, db1) -> plan_reserve cmd -> store_inv db ->
  let rvs := flip_all (adm_RequestID adm) ReservationReleased (reservations db1) in
  (forall t, held [] rvs t = held [] (reservations db) t) /\
  (forall t, spent (paid_of (cores db1)) rvs t = spent (paid_of (cores db)) (reservations db) t).
Proof.
  intros H Hplan [_ R]. apply Reserve_Ok in H
    as (st & req & Hl & Hb & Hkb & _ & -> & d & [Hf F1]%insertRequest_Ok & Hrows). simpl.
  destruct (insert_rows (fun _ => 0) _ _ _ [] _ _ Hrows) as (F & _).
  destruct (apply_holds (fun _ => 0) _ [] _ _ Hl Hb Hkb) as (_ & _ & _ & (Fs & _) & _). simpl in Fs.
  assert (reservations d = reservations db /\ requests (hl_db st) = requests db) as [Hr Hq] by (by rewrite F1, Fs).
  assert (forall id rv, reservations db !! id = Some rv -> rv_RequestID rv <> r_ID req) as Hold.
  { intros id rv Hlk He. destruct (ro_row _ _ _ R _ _ Hlk) as (c & Hc & _). unfold cores in Hc.
    by rewrite He, lookup_fmap, <- Hq, Hf in Hc. }
  assert (forall id rv, reservations db !! id = Some rv -> held_of (r_ID req) rv = false) as Hno.
  { intros id rv Hlk. unfold held_of. rewrite bool_decide_eq_false_2; [done|by eapply Hold]. }
  assert (forall f : string -> Reservation -> Z, (forall id rv, rv_State rv = ReservationReleased -> f id rv = 0) ->
    msum f (flip_all (r_ID req) ReservationReleased (reservations db1)) = msum f (reservations db)) as Hsum.
  { intros f Hz. unfold flip_all. rewrite msum_fmap.
    pose proof (insert_rows_sum (fun k v => f k (if held_of (r_ID req) v then set_rv_State ReservationReleased v else v))
      _ _ _ _ _ Hrows) as HX. unfold msum at 1 in HX. rewrite HX, Hr.
    rewrite (lsum_ext _ (fun _ => 0)).
    - rewrite (msum_ext _ f); [clear; induction (sort_by _ _); simpl; lia|].
      intros k v Hlk. by rewrite (Hno _ _ Hlk).
    - intros h _. unfold held_of. simpl. rewrite !bool_decide_eq_true_2 by done. simpl. by apply Hz. }
  split; intros t.
  - unfold held. f_equal. apply Hsum. intros id rv Hs. unfold held_at. rewrite Hs.
    by rewrite andb_false_r.
  - unfold spent. rewrite Hsum.
    + apply msum_ext. intros id rv Hlk. unfold spent_at. destruct (_ && _); [|done].
      unfold paid_of, cores. rewrite F, F1. simpl. rewrite fmap_insert, lookup_insert_ne, Hq; [done|].
      intros He. by eapply Hold.
    + intros id rv Hs. unfold spent_at. rewrite Hs. by rewrite andb_false_r.
Qed.

(** ** Conservation *)

(** C1: CONSERVE. In every reachable store the running counters are exactly the
    sums of the rows: a window's reserved micros are the amounts of the held
    reservations bound to it, its used micros are what the settled requests
    bound to it were charged, a key's spent budget is both, and none of them
    is negative. *)
Theorem counters_are_sums (db : DB) (Hr : reachable db) :
  (forall wid w, windows db !! wid = Some w ->
     w_Reserved w = held [] (reservations db) (TWindow wid) /\
     w_Used w = spent (paid_of (cores db)) (reservations db) (TWindow wid) /\
     0 <= w_Reserved w /\ 0 <= w_Used w) /\
  (forall kid k, keys db !! kid = Some k ->
     k_BudgetUsed k = held [] (reservations db) (TKey kid)
                      + spent (paid_of (cores db)) (reservations db) (TKey kid) /\
     0 <= k_BudgetUsed k).
Proof.
  apply reachable_inv in Hr. pose proof (fun t => held_nonneg db t Hr) as Hh.
  pose proof (fun t => spent_nonneg db t Hr) as Hsp. destruct Hr as [[[Lr Lu Lk] _] _]. split.
  - intros wid w Hw. rewrite (Lr _ _ Hw), (Lu _ _ Hw). auto.
  - intros kid k Hk. rewrite (Lk _ _ Hk). split; [done|]. pose proof (Hh (TKey kid)). pose proof (Hsp (TKey kid)). lia.
Qed.

Lemma counters_are_sums_witness :
  exists w, windows run2 !! "w5" = Some w /\ w_Reserved w = 30 /\
    w_Reserved w = held [] (reservations run2) (TWindow "w5").
Proof.
  eexists. split; [vm_compute; reflexivity|]. split; [reflexivity|].
  eapply proj1, (proj1 (counters_are_sums run2 (proj1 (proj2 run_reachable)))). vm_compute. reflexivity.
Defined.

(** C7: ONCE. A settlement is final: from the moment it commits, through any
    later traffic, the ledger carries exactly one charge of the request, for
    the settled amount, and every further settlement or release of the request
    fails. *)
Theorem settled_exactly_once (db db1 db2 : DB) (cmd : SettleCommand) (now : instant)
    (Hreach : reachable db) (Hrange : in_int64 (sc_ChargeMicros cmd))
    (Hok : Settle cmd now db = Ok db1) (Hlater : rtc store_step db1 db2) :
  (exists e, charges (ledger db2) (sc_RequestID cmd) = [e] /\ le_AmountMicros e = sc_ChargeMicros cmd) /\
  (forall cmd' now', sc_RequestID cmd' = sc_RequestID cmd -> is_ok (Settle cmd' now' db2) = false) /\
  (forall fromRec now', is_ok (releaseLocked (sc_RequestID cmd) fromRec now' db2) = false).
Proof.
  pose proof (reachable_inv _ Hreach) as I.
  destruct (Settle_Ok _ _ _ _ Hok I) as (r & _ & _ & Hn & _ & _ & _ & _ & (e & Hl & He & Hamt & _) & _).
  assert (store_inv db1) as I1 by by eapply store_inv_settle.
  assert (charges (ledger db1) (sc_RequestID cmd) = [e]) as Hc1.
  { by rewrite Hl, charges_app, He, uncharged_nil. }
  destruct (charges_steps _ _ (sc_RequestID cmd) Hlater I1) as [(l & Hl2) Hlen]; [by rewrite Hc1|].
  rewrite Hc1 in Hl2. assert (l = []) as -> by (rewrite Hl2 in Hlen; destruct l; simpl in Hlen; [done|lia]).
  split; [by exists e|]. apply charged_final; [by eapply store_inv_steps|].
  apply charged_nonempty. by rewrite Hl2.
Qed.

Lemma settled_exactly_once_witness :
  Settle run_settle 0 run3 = Ok run4 /\ is_ok (Settle run_settle 1 run4) = false /\
  is_ok (releaseLocked "r1" true 1 run4) = false.
Proof.
  assert (Settle run_settle 0 run3 = Ok run4) as H by (vm_compute; reflexivity). split; [exact H|].
  destruct (settled_exactly_once run3 run4 run4 run_settle 0) as (_ & H1 & H2);
    [apply run_reachable|by apply is_int64_true|exact H|apply rtc_refl|].
  split; [by apply H1|by apply (H2 true)].
Defined.

(** A reservation that succeeds has taken every hold at once: each
    window it asks is live and still within its limit, each budgeted key within
    its budget, exactly the asked amounts moved; the request is persisted as
    reserved and the reservation table gains one held row per hold. *)
Theorem reservation_fits (newID : ReservationTargetKind -> string) (now : instant) (cmd : ReserveCommand)
    (db : DB) (adm : Admission) (db' : DB)
    (Hok : Reserve newID now cmd db = Ok (adm, db')) :
  (forall wid w, windows db !! wid = Some w ->
     windows db' !! wid = Some (set_w_Counters (w_Used w) (w_Reserved w + asked cmd (TWindow wid)) w) /\
     (asks cmd (TWindow wid) ->
        w_Voided w = false /\ w_Used w + w_Reserved w + asked cmd (TWindow wid) <= w_Limit w)) /\
  (forall kid k, keys db !! kid = Some k ->
     keys db' !! kid = Some (mkKey (k_BudgetLimit k) (k_BudgetUsed k + asked cmd (TKey kid))) /\
     (asks cmd (TKey kid) -> forall l, k_BudgetLimit k = Some l ->
        k_BudgetUsed k + asked cmd (TKey kid) <= l)) /\
  (exists r, requests db' = <[adm_RequestID adm := r]> (requests db) /\
     requests db !! adm_RequestID adm = None /\ r_Status r = Some ReqReserved) /\
  (forall id rv, reservations db' !! id = Some rv <-> reservations db !! id = Some rv \/
     exists h, h ∈ rc_Holds cmd /\ id = newID (h_TargetKind h) /\
       rv = mkReservation id (adm_RequestID adm) (h_TargetKind h) (h_WindowID h) (h_APIKeyID h)
              (h_Amount h) ReservationHeld).
Proof.
  destruct (Reserve_exact _ _ _ _ _ _ Hok) as [Hw Hk].
  apply Reserve_Ok in Hok as (st & req & Hl & Hb & Hkb & Hreq & -> & db1 & [Hf F1]%insertRequest_Ok & Hrows).
  destruct (insert_rows (fun _ => 0) _ _ _ [] _ _ Hrows) as (F & Hrv & _).
  destruct (apply_holds (fun _ => 0) _ [] _ _ Hl Hb Hkb) as (_ & _ & _ & (Fs & _) & _). simpl in Fs.
  split; [exact Hw|]. split; [exact Hk|]. split; simpl.
  - exists (request_row req now). rewrite F, F1, Fs in *. simpl in *. split_and!; try done.
    rewrite Hreq. clear. generalize (rc_Holds cmd). intros l. f_equal.
    set (r0 := admit_request _ _ _ _ _). assert (r_Status r0 = Some ReqReserved) as H0 by done.
    revert H0. generalize r0. generalize (sort_by (fun h => windowOrderKey (h_TargetKind h)) l).
    induction l0 as [|h hs IH]; intros r Hr; simpl; [by rewrite Hr|]. apply IH. unfold bind_window.
    by destruct (h_TargetKind h).
  - intros id rv. rewrite Hrv, F1, Fs. simpl. setoid_rewrite sort_by_Permutation. unfold reservation_of.
    split; (intros [?|(h & ? & ? & ?)]; [by left|right; exists h; subst; done]).
Qed.

Lemma reservation_fits_witness :
  exists w', windows run2 !! "w5" = Some w' /\ w_Reserved w' = 30 /\ 0 + 0 + 30 <= 50.
Proof.
  destruct (reservation_fits (run_rv_id "r1") 0 (run_reserve "r1" 30) run1
    (ok_or (mkAdmission "" [], run1) (Reserve (run_rv_id "r1") 0 (run_reserve "r1" 30) run1)).1 run2) as (Hw & _);
    [vm_compute; reflexivity|].
  edestruct (Hw "w5") as [Hl Hle]; [vm_compute; reflexivity|].
  eexists. split; [exact Hl|]. split; [vm_compute; reflexivity|].
  eapply proj2, Hle. eexists. split; [left|reflexivity].
Defined.

(** Reserving and then releasing a request gives every window and
    key budget back exactly what the reservation took; only the voiding of an
    unused five-hour window may remain. *)
Theorem release_undoes_reserve (newID : ReservationTargetKind -> string) (now now' : instant)
    (cmd : ReserveCommand) (fromRec : bool) (db db1 db2 : DB) (adm : Admission)
    (Hreach : reachable db) (Hplan : plan_reserve cmd)
    (Hres : Reserve newID now cmd db = Ok (adm, db1))
    (Hrel : releaseLocked (adm_RequestID adm) fromRec now' db1 = Ok db2) :
  (forall wid w, windows db !! wid = Some w -> exists w2, windows db2 !! wid = Some w2 /\
     w_Used w2 = w_Used w /\ w_Reserved w2 = w_Reserved w /\ w_Limit w2 = w_Limit w) /\
  (forall kid k, keys db !! kid = Some k -> exists k2, keys db2 !! kid = Some k2 /\
     k_BudgetUsed k2 = k_BudgetUsed k /\ k_BudgetLimit k2 = k_BudgetLimit k).
Proof.
  pose proof (reachable_inv _ Hreach) as I0.
  pose proof (store_inv_reserve _ _ _ _ _ _ Hres Hplan I0) as I1.
  pose proof (store_inv_release _ _ _ _ _ Hrel I1) as I2.
  destruct (release_gives_back _ _ _ _ _ Hrel I1) as [[Dw Rw] [Dk Rk]].
  destruct (releaseLocked_Ok _ _ _ _ _ Hrel I1) as (_ & _ & _ & _ & _ & Hrv2 & Hc2 & _ & _).
  destruct (Reserve_exact _ _ _ _ _ _ Hres) as [Xw Xk].
  destruct (held_after_round_trip _ _ _ _ _ _ Hres Hplan I0) as [HH HS].
  rewrite <- Hrv2, <- Hc2 in *. destruct I0 as [[[Lr Lu Lk] _] _], I2 as [[[Lr2 Lu2 Lk2] _] _]. split.
  - intros wid w Hw. destruct (Xw _ _ Hw) as [Hw1 _].
    assert (is_Some (windows db2 !! wid)) as [w2 Hw2] by (apply elem_of_dom; rewrite Dw; by eapply elem_of_dom_2).
    exists w2. destruct (Rw _ _ _ Hw1 Hw2) as [(_ & _ & _ & _ & _ & Hlim & _) _].
    by rewrite (Lr2 _ _ Hw2), (Lu2 _ _ Hw2), (Lr _ _ Hw), (Lu _ _ Hw), HH, HS, Hlim.
  - intros kid k Hk. destruct (Xk _ _ Hk) as [Hk1 _].
    assert (is_Some (keys db2 !! kid)) as [k2 Hk2] by (apply elem_of_dom; rewrite Dk; by eapply elem_of_dom_2).
    exists k2. by rewrite (Lk2 _ _ Hk2), (Lk _ _ Hk), HH, HS, (Rk _ _ _ Hk1 Hk2).
Qed.

Lemma release_undoes_reserve_witness :
  exists db2 w2, Release "r1" 1 run2 = Ok db2 /\ windows db2 !! "w7" = Some w2 /\ w_Reserved w2 = 0.
Proof.
  assert (exists db2, releaseLocked "r1" false 1 run2 = Ok db2) as [db2 H2] by (eexists; vm_compute; reflexivity).
  destruct (release_undoes_reserve (run_rv_id "r1") 0 1 (run_reserve "r1" 30) false run1 run2 db2
    (ok_or (mkAdmission "" [], run1) (Reserve (run_rv_id "r1") 0 (run_reserve "r1" 30) run1)).1) as [Hw _];
    [apply run_reachable|apply run_plan|vm_compute; reflexivity|exact H2|].
  edestruct (Hw "w7") as (w2 & Hl & _ & Hr & _); [vm_compute; reflexivity|]. exists db2, w2.
  split; [exact H2|]. split; [exact Hl|exact Hr].
Defined.

(** ** No over-admission *)

Lemma correct_window_gives_back d db o db' : correct_window d db o = Ok db' -> d <= 0 -> gives_back db db'.
Proof.
  unfold correct_window. intros H Hd. destruct o as [wid|]; [|inv_ok; reflexivity].
  destruct (windows db !! wid) as [w|] eqn:Hw; [|done]. inv_ok. apply sql_int_Ok in E as [-> _].
  eapply gives_back_window; [exact Hw| |done..]. apply no_fuller_counters. unfold occupied. lia.
Qed.

Lemma correct_key_gives_back d o db db' : correct_key d o db = Ok db' -> gives_back db db'.
Proof.
  unfold correct_key. intros H. destruct o as [kid|]; [|inv_ok; reflexivity].
  destruct (keys db !! kid) as [k|] eqn:Hk; [|done]. inv_ok. eapply gives_back_key; [exact Hk| |done..]. done.
Qed.

(** A correction relates the stores its window updates relate. *)
Lemma correct_rel (R : DB -> DB -> Prop) `{!PreOrder R} a j clk now cmd db db' :
  (forall d d', windows d' = windows d -> ks_same d d' -> R d d') ->
  (forall d d' o base, (exists r, requests db !! cc_RequestID cmd = Some r /\ r_SettledMicros r = Some base) ->
     correct_window (cc_CorrectedMicros cmd - base) d o = Ok d' -> R d d') ->
  store_inv db -> cc_CorrectedMicros cmd <= max_int64 ->
  CorrectSettlement a j clk now cmd db = Ok db' -> R db db'.
Proof.
  unfold CorrectSettlement, select_one. intros Hsame Hstep [_ I] Hmax H. destruct (_ || _) in H; [done|].
  destruct (existsb _ _) in H; [done|]. destruct (requests db !! cc_RequestID cmd) as [r|] eqn:Hr; [|done].
  apply rbind_Ok in H as (r' & [= <-] & H).
  destruct (bool_decide _) in H; [done|]. destruct (bool_decide _) in H; [|done].
  destruct (r_SettledMicros r) as [base|] eqn:Hbase; [|done].
  apply rbind_Ok in H as ([dir delta] & Hd & H).
  assert (0 <= base <= max_int64) as Hb by (by apply (ro_paid _ _ _ I _ _ _ (cores_lookup _ _ _ Hr))).
  destruct (CorrectionDelta_signed _ _ _ _ Hb Hmax Hd) as (_ & _ & Hsig). rewrite Hsig in H.
  destruct (List.find _ _) in H; [|done].
  apply rbind_Ok in H as (db1 & [F1 _]%insertUsageRecord_frame & H).
  apply rbind_Ok in H as (db2 & (F2 & _)%insert_adjustment_frame & H).
  apply rbind_Ok in H as (db3 & [F3 _]%insert_ledger_Ok & H).
  apply rbind_Ok in H as (db4 & H4 & H). apply rbind_Ok in H as (db5 & H5 & H).
  apply rbind_Ok in H as ([] & _ & H). apply correct_overage_frame in H.
  assert (forall d d', windows d' = windows d -> keys d' = keys d -> R d d') as Hsame'.
  { intros d d' Hw Hk. apply Hsame; [done|]. split; rewrite Hk; [done|]. intros; by simplify_eq. }
  etrans; [apply (Hsame' db db3); by rewrite F3, F2, F1|].
  etrans.
  { eapply rfold_rel; [intros ?; reflexivity|intros ???; by etrans| |exact H4].
    intros o d d' _ Ho. eapply Hstep; [|exact Ho]. eauto. }
  etrans; [apply (Hsame db4 db5)|by apply Hsame'; rewrite H].
  - unfold correct_key in H5. destruct (r_APIKeyID r); [|by inv_ok]. destruct (keys db4 !! s); [|done]. by inv_ok.
  - by destruct (correct_key_gives_back _ _ _ _ H5).
Qed.

(** Corrections downwards only give room back. *)
Lemma correct_gives_back a j clk now cmd db db' r base :
  CorrectSettlement a j clk now cmd db = Ok db' -> store_inv db -> cc_CorrectedMicros cmd <= max_int64 ->
  requests db !! cc_RequestID cmd = Some r -> r_SettledMicros r = Some base -> cc_CorrectedMicros cmd <= base ->
  gives_back db db'.
Proof.
  intros H I Hmax Hr Hb Hle. eapply (correct_rel gives_back); [| |exact I|exact Hmax|exact H].
  - intros d d' Hw Hk. split; [by apply (ws_rel_same no_fuller)|done].
  - intros d d' o base' (r' & Hr' & Hb') Ho. simplify_eq. eapply correct_window_gives_back; [exact Ho|lia].
Qed.

(** A settlement relates the stores its loop body relates. *)
Lemma settle_rel (R : DB -> DB -> Prop) `{!PreOrder R} cmd now db db' :
  (forall d d', windows d' = windows d -> keys d' = keys d -> R d d') ->
  (forall d d' id rv, reservations db !! id = Some rv -> held_of (sc_RequestID cmd) rv = true ->
     settle_one (sc_ChargeMicros cmd) d rv = Ok d' -> R d d') ->
  Settle cmd now db = Ok db' -> R db db'.
Proof.
  unfold Settle, select_one. intros Hsame Hstep H. destruct (_ <? _) in H; [done|].
  apply rbind_Ok in H as (r & _ & H). destruct (finalized r); [done|]. destruct (bool_decide _) in H.
  - unfold settleWallet in H. destruct (_ <? _) in H; [done|].
    apply rbind_Ok in H as (db1 & [F1 _]%insertUsageRecord_frame & H).
    apply rbind_Ok in H as (charge & _ & H). destruct (_ =? _) in H; [|done].
    apply rbind_Ok in H as (db2 & [F2 _]%insert_ledger_Ok & H).
    apply rbind_Ok in H as (db3 & F3%settleWalletLocked_frame & H). apply rbind_Ok in H as (db4 & H4 & H).
    apply rbind_Ok in H as (db5 & F5%settle_attempt_cost_frame & H6).
    unfold settle_wallet_reservation in H4. destruct (rows _ _) in H4; [done|]. injection H4 as F4.
    unfold settle_request in H6. apply rbind_Ok in H6 as ([] & _ & [= F6]).
    by apply Hsame; rewrite <- F6; simpl; rewrite F5; simpl; rewrite <- F4; simpl; rewrite F3; simpl; rewrite F2, F1.
  - unfold settlePlan in H. apply rbind_Ok in H as (db1 & [F1 _]%insertUsageRecord_frame & H).
    apply rbind_Ok in H as (db2 & [F2 _]%insert_ledger_Ok & H). destruct (bool_decide _) in H; [done|].
    apply rbind_Ok in H as (db3 & H3 & H). apply rbind_Ok in H as (db4 & F4%settle_attempt_cost_frame & H5).
    unfold settle_request in H5. apply rbind_Ok in H5 as ([] & _ & [= F5]).
    assert (reservations db2 = reservations db) as Hrv by (by rewrite F2, F1).
    etrans; [apply (Hsame db db2); by rewrite F2, F1|].
    etrans; [|by apply (Hsame db3); rewrite <- F5; simpl; rewrite F4].
    eapply rfold_rel; [intros ?; reflexivity|intros ???; by etrans| |exact H3].
    intros rv d d' (Hh & id & Hl)%loadHeld_elem Hd. rewrite Hrv in Hl. eauto.
Qed.

(** Settlements within the hold only give room back. *)
Lemma settle_gives_back cmd now db db' :
  Settle cmd now db = Ok db' ->
  (forall id rv, reservations db !! id = Some rv -> held_of (sc_RequestID cmd) rv = true ->
     sc_ChargeMicros cmd <= rv_Amount rv) ->
  gives_back db db'.
Proof.
  intros H Hcap. eapply (settle_rel gives_back); [exact gives_back_same| |exact H].
  intros d d' id rv Hl Hh Hd. eapply settle_one_gives_back; eauto.
Qed.

(** Activation keeps every row and opens empty ones. *)
Definition opened (w : QuotaWindow) : Prop := w_Used w = 0 /\ w_Reserved w = 0 /\ 0 <= w_Limit w.
Definition opens (db db' : DB) : Prop :=
  forall wid w, windows db' !! wid = Some w -> windows db !! wid = Some w \/ opened w.

Lemma activate_opens newID cmd db out db' : ActivateWindowsTx newID cmd db = Ok (out, db') -> opens db db'.
Proof.
  unfold ActivateWindowsTx. intros H. apply rbind_Ok in H as ([] & _ & H).
  apply rbind_Ok in H as ([[act out'] db1] & H & [= _ <-]).
  change (opens (rows (windows db) (fun w => bool_decide (w_EntitlementID w = aw_EntitlementID cmd)
            && negb (w_Voided w)), [] : list QuotaWindow, db).2 (act, out', db1).2).
  eapply (rfold_rel (fun s s' => opens s.2 s'.2)); [| | |exact H].
  - intros s wid w. by left.
  - intros s1 s2 s3 H1 H2 wid w Hw. destruct (H2 _ _ Hw); [by apply H1|by right].
  - intros kind [[a o] d] s2 _ Hs. unfold activate_kind in Hs.
    destruct (aw_Limits cmd kind) as [limit|]; [|inv_ok; by left].
    apply rbind_Ok in Hs as ([iv b] & _ & Hs). destruct b.
    + destruct (insertQuotaWindow _ _ d) as [[nw d1]|e] eqn:E; [|by destruct (bool_decide _) in Hs].
      injection Hs as <-. apply insertQuotaWindow_Ok in E as (-> & _ & Hlim & _ & _ & ->). simpl in *.
      intros wid w. simpl. intros [[<- <-]|[_ ?]]%lookup_insert_Some; [by right|by left].
    + destruct (List.find _ _) in Hs; inv_ok; by left.
Qed.

(** The two transactions that can take more than was held or admitted: a
    settlement above a hold of its request, and a correction upwards. *)
Inductive over_step (db db' : DB) : Prop :=
| over_settle cmd now id rv :
    in_int64 (sc_ChargeMicros cmd) -> Settle cmd now db = Ok db' ->
    reservations db !! id = Some rv -> held_of (sc_RequestID cmd) rv = true ->
    rv_Amount rv < sc_ChargeMicros cmd -> over_step db db'
| over_correct a j clk now cmd r base :
    cc_CorrectedMicros cmd <= max_int64 -> CorrectSettlement a j clk now cmd db = Ok db' ->
    requests db !! cc_RequestID cmd = Some r -> r_SettledMicros r = Some base ->
    base < cc_CorrectedMicros cmd -> over_step db db'.

(** Any transaction but those two. *)
Definition capped_step (db db' : DB) : Prop := store_step db db' /\ ~ over_step db db'.

Definition within_limits (db : DB) : Prop :=
  forall wid w, windows db !! wid = Some w -> w_Used w + w_Reserved w <= w_Limit w.

Lemma within_gives_back db db' : gives_back db db' -> within_limits db -> within_limits db'.
Proof.
  intros [[D R] _] Hin wid w' Hw'.
  assert (is_Some (windows db !! wid)) as [w Hw] by (apply elem_of_dom; rewrite <- D; by eapply elem_of_dom_2).
  destruct (R _ _ _ Hw Hw') as [(_ & _ & _ & _ & _ & Hl & _) Ho]. specialize (Hin _ _ Hw). unfold occupied in Ho. lia.
Qed.

Lemma within_same db db' : windows db' = windows db -> within_limits db -> within_limits db'.
Proof. intros Hw H wid w. rewrite Hw. apply H. Qed.

Lemma within_reserve newID now cmd db adm db' :
  Reserve newID now cmd db = Ok (adm, db') -> within_limits db -> within_limits db'.
Proof.
  intros H Hin wid w' Hw'. destruct (Reserve_exact _ _ _ _ _ _ H) as [X _].
  destruct (Reserve_tables _ _ _ _ _ _ H) as (st & Hl & Hb & Hk & Hws & _).
  destruct (apply_holds (fun _ => 0) _ [] _ _ Hl Hb Hk) as (_ & _ & _ & (_ & Hsh & _) & _). simpl in Hsh.
  assert (is_Some (windows db !! wid)) as [w Hw].
  { apply elem_of_dom. rewrite <- (dom_fmap_L w_Voided), <- Hsh, dom_fmap_L, <- Hws. by eapply elem_of_dom_2. }
  destruct (X _ _ Hw) as [Hw2 Hask]. rewrite Hw' in Hw2. injection Hw2 as ->. simpl.
  destruct (decide (Exists (fun h => hold_target h = Some (TWindow wid)) (rc_Holds cmd))) as [Hx|Hx].
  - apply Exists_exists in Hx. destruct (Hask Hx). lia.
  - assert (asked cmd (TWindow wid) = 0) as ->; [|specialize (Hin _ _ Hw); lia].
    unfold asked. rewrite (lsum_ext _ (fun _ => 0)); [clear; induction (rc_Holds cmd); simpl; lia|].
    intros h Hh. unfold pending_at. rewrite bool_decide_eq_false_2; [done|]. intros He. apply Hx, Exists_exists. eauto.
Qed.

Lemma ledger_grows {A} (l : list A) e : l ++ [e] <> l.
Proof. intros H. apply (f_equal length) in H. rewrite length_app in H. simpl in H. lia. Qed.

Lemma within_step db db' : capped_step db db' -> store_inv db -> within_limits db -> within_limits db'.
Proof.
  intros [Hs Hover] I Hin.
  assert (forall db', same_quota db db' -> within_limits db') as Hsame
    by (intros ? (?&?&?&?&?); by eapply within_same).
  destruct Hs; try (apply Hsame; by eauto using MarkReconciliationRequired_frame,
    updateRequestStatus_frame, insertAttempt_frame, FinishAttempt_frame, SetOverageTx_frame,
    CreditTopupTx_frame, RefundWalletTx_frame, ApplyWalletAdjustmentTx_frame, ReverseWalletEntryTx_frame,
    AcquireLeaseTx_frame, RenewLease_frame, ReleaseLease_frame); try done.
  - intros wid w Hw. destruct (activate_opens _ _ _ _ _ H _ _ Hw) as [|(?&?&?)]; [eauto|lia].
  - by eapply within_reserve.
  - apply ReserveWallet_Ok in H as (_ & ? & ? & ? & ? & ? & ? & ? & _ & _ & _ & _ & _ & _ & _ & _ & _ & _ & _ & _ & Hrv).
    apply insert_reservation_Ok in Hrv as (_ & _ & _ & _ & _ & _ & _ & ->). done.
  - eapply within_gives_back; [|done]. by eapply release_gives_back.
  - eapply within_gives_back; [|done]. eapply settle_gives_back; [exact H0|]. intros id rv Hl Hh.
    apply Z.nlt_ge. intros Hlt. apply Hover. by eapply over_settle.
  - eapply within_gives_back; [|done]. destruct (CorrectSettlement_Ok _ _ _ _ _ _ _ H0 I H) as (r & base & Hr & Hb & _).
    eapply correct_gives_back; try done. apply Z.nlt_ge. intros Hlt. apply Hover. by eapply over_correct.
  - apply EnqueueReconciliationJobTx_frame in H. by rewrite H.
  - unfold AppendAdjustment in H. cbv zeta in H.
    apply rbind_Ok in H as (db1 & (F1 & _)%insert_adjustment_frame & H).
    apply rbind_Ok in H as (db2 & (F2 & _)%insert_ledger_Ok & H). injection H as _ <-.
    eapply within_same; [|done]. by rewrite F2, F1.
Qed.

(** *** Steps that are not over *)

Lemma not_over_quiet db db' : store_inv db -> ledger db' = ledger db -> ~ over_step db db'.
Proof.
  intros I Hl [cmd now id rv _ H|a j clk now cmd r base Hm H].
  - destruct (Settle_Ok _ _ _ _ H I) as (? & _ & _ & _ & _ & _ & _ & _ & (e & He & _) & _).
    rewrite He in Hl. by apply ledger_grows in Hl.
  - destruct (CorrectSettlement_Ok _ _ _ _ _ _ _ H I Hm) as (? & ? & _ & _ & _ & _ & _ & _ & (e & ? & He & _) & _).
    rewrite He in Hl. by apply ledger_grows in Hl.
Qed.

(** A charge within every hold of its request. *)
Lemma not_over_charge db db' e rid : store_inv db -> ledger db' = ledger db ++ [e] ->
  le_EntryType e = LedgerCharge -> le_RequestID e = Some rid ->
  map_Forall (fun _ rv => held_of rid rv = true -> le_AmountMicros e <= rv_Amount rv) (reservations db) -> ~ over_step db db'.
Proof.
  intros I Hl Ht Hrid Hall [cmd now id rv _ H Hrv Hh Hlt|a j clk now cmd r base Hm H].
  - destruct (Settle_Ok _ _ _ _ H I) as (? & _ & _ & _ & _ & _ & _ & _ & (e' & He & Hc & Ha & _) & _).
    rewrite Hl in He. apply app_inj_2 in He as [_ [= <-]]; [|done]. unfold is_charge_of in Hc. bool_prop. simplify_eq.
    specialize (Hall _ _ Hrv Hh). simpl in Hall. lia.
  - destruct (CorrectSettlement_Ok _ _ _ _ _ _ _ H I Hm) as (? & ? & _ & _ & _ & _ & _ & _ & (e' & ? & He & _ & Hn & _) & _).
    rewrite Hl in He. by apply app_inj_2 in He as [_ [= <-]].
Qed.

(** Another entry that adds nothing to what a request was charged. *)
Lemma not_over_entry db db' e : store_inv db -> ledger db' = ledger db ++ [e] -> le_EntryType e <> LedgerCharge ->
  (le_RequestID e = None \/ ledger_effect (adjustments db') e <= 0) -> ~ over_step db db'.
Proof.
  intros I Hl Ht Hle [cmd now id rv _ H|a j clk now cmd r base Hm H Hr Hb Hlt].
  - destruct (Settle_Ok _ _ _ _ H I) as (? & _ & _ & _ & _ & _ & _ & _ & (e' & He & Hc & _) & _).
    rewrite Hl in He. apply app_inj_2 in He as [_ [= <-]]; [|done]. unfold is_charge_of in Hc. by bool_prop.
  - destruct (CorrectSettlement_Ok _ _ _ _ _ _ _ H I Hm) as (r' & b' & Hr' & Hb' & _ & _ & _ & _ & (e' & adj & He & Ha & _ & Hrid & _ & Heff) & _).
    rewrite Hl in He. apply app_inj_2 in He as [_ [= <-]]; [|done]. rewrite <- Ha in Heff. simplify_eq.
    destruct Hle as [Hle|Hle]; [congruence|lia].
Qed.

(** C8: LIMIT. In every store reached from an initial one by any sequence of
    transactions - activations, reservations, settlements, releases,
    corrections, adjustments, wallet movements, leases, jobs - of which no
    settlement charged more than a hold of its request and no correction raised
    a charge, used plus reserved of every window is within its limit. *)
Theorem no_over_admission (db0 db : DB) (Hinit : initial db0)
    (Hsteps : rtc (fun d d' => store_step d d' /\ ~ over_step d d') db0 db) :
  within_limits db.
Proof.
  assert (within_limits db0) as Hin by (intros wid w; destruct Hinit as (-> & _); by rewrite lookup_empty).
  assert (store_inv db0) as I by by apply store_inv_initial.
  clear Hinit. induction Hsteps as [|db0 db1 db2 Hs _ IH]; [done|].
  apply IH; [by eapply within_step|eapply store_inv_step; [by apply Hs|done]].
Qed.

(** The sample run, an adjustment, and a correction downwards. *)
Definition run_adjustment : Adjustment :=
  mkAdjustment "" "acc" None "goodwill" 7 DirCredit UnitMicrocredit None None "op" "svc" "adj-1".
Definition run5 : DB := (ok_or (run_adjustment, run4) (AppendAdjustment "adj" run_adjustment run4)).2.
Definition run_correction : CorrectionCommand :=
  mkCorrection "r1" (mkUsage "r1" "a1" UsageReported (mkBuckets (Some 4) None None (Some 2) None) 2) 15 "recount" "op" "cor-1"
    (Date 2024 2 2 11 0 0 0).
Definition run6 : DB := ok_or run5 (CorrectSettlement "adj2" "job" 0 0 run_correction run5).

Lemma run_adjusted : store_step run4 run5 /\ store_step run5 run6 /\ store_inv run5.
Proof.
  assert (store_step run4 run5) as H5 by (eapply (st_adjust _ "adj" run_adjustment); vm_compute; reflexivity).
  split_and!; [exact H5| |].
  - eapply (st_correct _ "adj2" "job" 0 0 run_correction); [by apply Z.leb_le|vm_compute; reflexivity].
  - eapply store_inv_step; [exact H5|]. apply reachable_inv, run_reachable.
Qed.

Lemma no_over_admission_witness : within_limits run6 /\ (w_Used <$> windows run6 !! "w5") = Some 15.
Proof.
  split; [|vm_compute; reflexivity]. apply (no_over_admission run0 run6 run_initial).
  destruct run_steps as (H1 & H2 & H3 & H4). destruct run_adjusted as (H5 & H6 & I5).
  destruct run_reachable as (R1 & R2 & R3 & R4).
  eapply rtc_l; [split; [exact H1|apply not_over_quiet; [apply store_inv_initial, run_initial|vm_compute; reflexivity]]|].
  eapply rtc_l; [split; [exact H2|apply not_over_quiet; [by apply reachable_inv|vm_compute; reflexivity]]|].
  eapply rtc_l; [split; [exact H3|apply not_over_quiet; [by apply reachable_inv|vm_compute; reflexivity]]|].
  eapply rtc_l; [split; [exact H4|eapply not_over_charge; [by apply reachable_inv|vm_compute; reflexivity..|]]|].
  { apply (bool_decide_unpack _). vm_compute. exact I. }
  eapply rtc_l; [split; [exact H5|eapply not_over_entry; [by apply reachable_inv|vm_compute; reflexivity|done|by left]]|].
  eapply rtc_l; [split; [exact H6|eapply not_over_entry; [exact I5|vm_compute; reflexivity|done|right; vm_compute; discriminate]]|].
  apply rtc_refl.
Defined.
