(* ===== verification/WindowHistory.v ===== *)
(** * WindowHistory: the quota windows over the life of a store

    Every transaction keeps the fixed columns of every window and never revives
    a voided one; rows appear only through activation, whose exclusion
    constraint keeps the live periods of one entitlement and kind disjoint. *)

From Stdlib Require Import ZArith Lia Bool.
From stdpp Require Import base gmap strings list relations.
From S2P Require Import Prelude Domain Money Calendar Window Pricing WalletRules Tables.
From S2P Require Import RequestStore QuotaStore WalletStore LedgerStore Conservation StoreInv.
From S2P Require Import LeaseStore StoreSteps StoreProps.

Local Open Scope Z_scope.
Local Open Scope go_scope.

(** ** Which transactions create windows *)

Lemma Reserve_windows newID now cmd db adm db' :
  Reserve newID now cmd db = Ok (adm, db') -> ws_rel same_window db db'.
Proof.
  intros H. destruct (Reserve_exact _ _ _ _ _ _ H) as [X _]. split.
  - destruct (Reserve_tables _ _ _ _ _ _ H) as (st & Hl & Hb & Hk & Hws & _).
    destruct (apply_holds (fun _ => 0) _ [] _ _ Hl Hb Hk) as (_ & _ & _ & (_ & Hsh & _) & _). simpl in Hsh.
    rewrite Hws. by rewrite <- (dom_fmap_L w_Voided), Hsh, dom_fmap_L.
  - intros wid w w' Hw Hw'. destruct (X _ _ Hw) as [Hw2 _]. rewrite Hw' in Hw2. injection Hw2 as ->. done.
Qed.

Lemma settle_one_windows charge db rv db' : settle_one charge db rv = Ok db' -> ws_rel same_window db db'.
Proof.
  intros H. unfold settle_one in H. apply rbind_Ok in H as (db1 & H1 & H2).
  apply flip_reservation_Ok in H2 as (rv' & _ & _ & ->).
  apply settle_target_Ok in H1 as [(wid & w & _ & _ & Hw & _ & _ & ->)|(kid & k & _ & Hk & ->)].
  - eapply (ws_rel_window same_window); [exact Hw| |reflexivity]. by repeat split.
  - by apply (ws_rel_same same_window).
Qed.

Lemma correct_window_windows d db o db' : correct_window d db o = Ok db' -> ws_rel same_window db db'.
Proof.
  unfold correct_window. intros H. destruct o as [wid|]; [|inv_ok; reflexivity].
  destruct (windows db !! wid) as [w|] eqn:Hw; [|done]. inv_ok.
  eapply (ws_rel_window same_window); [exact Hw| |reflexivity]. by repeat split.
Qed.

(** A transaction keeps the windows as they are, or it is an activation. *)
Lemma windows_step db db' : store_step db db' -> store_inv db ->
  ws_rel same_window db db' \/ exists newID cmd out, ActivateWindowsTx newID cmd db = Ok (out, db').
Proof.
  intros Hs I.
  assert (forall db', same_quota db db' -> ws_rel same_window db db') as Hsame
    by (intros ? (?&?&?&?&?); by apply (ws_rel_same same_window)).
  destruct Hs; try (left; apply Hsame; by eauto using MarkReconciliationRequired_frame,
    updateRequestStatus_frame, insertAttempt_frame, FinishAttempt_frame, SetOverageTx_frame,
    CreditTopupTx_frame, RefundWalletTx_frame, ApplyWalletAdjustmentTx_frame, ReverseWalletEntryTx_frame,
    AcquireLeaseTx_frame, RenewLease_frame, ReleaseLease_frame);
    try (left; by apply (ws_rel_same same_window)).
  - right. eauto.
  - left. by eapply Reserve_windows.
  - left. apply ReserveWallet_Ok in H as (_ & ? & ? & ? & ? & ? & ? & ? & _ & _ & _ & _ & _ & _ & _ & _ & _ & _ & _ & _ & Hrv).
    apply insert_reservation_Ok in Hrv as (_ & _ & _ & _ & _ & _ & _ & ->). by apply (ws_rel_same same_window).
  - left. by eapply gives_back_keeps, release_gives_back.
  - left. eapply (settle_rel (ws_rel same_window)); [| |exact H0].
    + intros. by apply (ws_rel_same same_window).
    + intros. by eapply settle_one_windows.
  - left. eapply (correct_rel (ws_rel same_window)); [| |exact I|exact H|exact H0].
    + intros. by apply (ws_rel_same same_window).
    + intros. by eapply correct_window_windows.
  - left. apply EnqueueReconciliationJobTx_frame in H. rewrite H. by apply (ws_rel_same same_window).
  - left. unfold AppendAdjustment in H. cbv zeta in H.
    apply rbind_Ok in H as (db1 & (F1 & _)%insert_adjustment_frame & H).
    apply rbind_Ok in H as (db2 & (F2 & _)%insert_ledger_Ok & H). injection H as _ <-.
    apply (ws_rel_same same_window). by rewrite F2, F1.
Qed.

(** ** Disjoint periods *)

Definition apart (v w : QuotaWindow) : Prop := w_End v <= w_Start w \/ w_End w <= w_Start v.

Record periods_ok (ws : gmap string QuotaWindow) : Prop := {
  po_row : forall id w, ws !! id = Some w -> w_ID w = id /\ w_Start w < w_End w /\ 0 <= w_Limit w;
  po_apart : forall i j v w, ws !! i = Some v -> ws !! j = Some w -> i <> j ->
    w_EntitlementID v = w_EntitlementID w -> w_Kind v = w_Kind w ->
    w_Start v <> w_Start w /\ (w_Voided v = false -> w_Voided w = false -> apart v w);
}.

Lemma periods_ok_same db db' : ws_rel same_window db db' -> periods_ok (windows db) -> periods_ok (windows db').
Proof.
  intros [D R] [P A].
  assert (forall id w', windows db' !! id = Some w' -> exists w, windows db !! id = Some w /\ same_window w w') as Hback.
  { intros id w' Hw'. assert (is_Some (windows db !! id)) as [w Hw]
      by (apply elem_of_dom; rewrite <- D; by eapply elem_of_dom_2). eauto. }
  split.
  - intros id w' (w & Hw & -> & _ & _ & -> & -> & -> & _)%Hback. by apply P.
  - intros i j v' w' (v & Hv & _ & Ev & Kv & Sv & Nv & _ & Vv)%Hback (w & Hw & _ & Ew & Kw & Sw & Nw & _ & Vw)%Hback Hne He Hk.
    destruct (A i j v w Hv Hw Hne) as [Hst Hap]; [congruence..|]. split; [congruence|]. intros Hv0 Hw0.
    unfold apart. rewrite Sv, Nv, Sw, Nw. apply Hap.
    + destruct (w_Voided v); [by rewrite Vv in Hv0|done].
    + destruct (w_Voided w); [by rewrite Vw in Hw0|done].
Qed.

Lemma periods_ok_insert newID w db w' db' :
  insertQuotaWindow newID w db = Ok (w', db') -> periods_ok (windows db) -> periods_ok (windows db').
Proof.
  intros (_ & Hnew & Hlim & Hord & Hnone & ->)%insertQuotaWindow_Ok [P A]. simpl. split.
  - intros id v [[<- <-]|[_ ?]]%lookup_insert_Some; [done|by apply P].
  - assert (forall id v, windows db !! id = Some v -> w_EntitlementID v = w_EntitlementID w' -> w_Kind v = w_Kind w' ->
      w_Start v <> w_Start w' /\ (w_Voided v = false -> w_Voided w' = false -> apart v w')) as Hnew' by exact Hnone.
    intros i j v u [[<- <-]|[Hi Hv]]%lookup_insert_Some [[<- <-]|[Hj Hu]]%lookup_insert_Some Hne He Hk; [done| | |by eapply A].
    + destruct (Hnew' _ _ Hu) as [Hs Ha]; [done..|]. split; [done|]. intros. destruct (Ha ltac:(done) ltac:(done)); [by right|by left].
    + by eapply Hnew'.
Qed.

Lemma periods_ok_activate newID cmd db out db' :
  ActivateWindowsTx newID cmd db = Ok (out, db') -> periods_ok (windows db) -> periods_ok (windows db').
Proof.
  unfold ActivateWindowsTx. intros H. apply rbind_Ok in H as ([] & _ & H).
  apply rbind_Ok in H as ([[act out'] db1] & H & [= _ <-]).
  set (s0 := (_, [] : list QuotaWindow, db)) in H.
  change (periods_ok (windows s0.2) -> periods_ok (windows (act, out', db1).2)).
  eapply (rfold_rel (fun s s' => periods_ok (windows s.2) -> periods_ok (windows s'.2))); [| | |exact H].
  - done.
  - auto.
  - intros kind [[a o] d] s2 _ Hs. unfold activate_kind in Hs.
    destruct (aw_Limits cmd kind) as [limit|]; [|by inv_ok].
    apply rbind_Ok in Hs as ([iv b] & _ & Hs). destruct b.
    + destruct (insertQuotaWindow _ _ d) as [[nw d1]|e] eqn:E; [|by destruct (bool_decide _) in Hs].
      injection Hs as <-. by apply (periods_ok_insert _ _ _ _ _ E).
    + destruct (List.find _ _) in Hs; by inv_ok.
Qed.

Lemma periods_ok_steps db db' : rtc store_step db db' -> store_inv db -> periods_ok (windows db) ->
  periods_ok (windows db').
Proof.
  induction 1 as [|d1 d2 d3 Hs _ IH]; [done|]. intros I P. apply IH; [by eapply store_inv_step|].
  destruct (windows_step _ _ Hs I) as [?|(? & ? & ? & ?)]; [by eapply periods_ok_same|by eapply periods_ok_activate].
Qed.

Lemma periods_ok_reachable db : reachable db -> periods_ok (windows db).
Proof.
  intros (db0 & Hi & Hs). eapply periods_ok_steps; [exact Hs|by apply store_inv_initial|].
  destruct Hi as (-> & _). split; intros *; by rewrite lookup_empty.
Qed.

Lemma find_unique {A} (p : A -> bool) (l l' : list A) :
  (forall a b, a ∈ l -> b ∈ l -> p a = true -> p b = true -> a = b) -> l ≡ₚ l' -> List.find p l = List.find p l'.
Proof.
  intros Hu Hp. destruct (List.find p l) as [a|] eqn:E, (List.find p l') as [b|] eqn:E'; [|exfalso..|done].
  - apply List.find_some in E as [Ha Pa], E' as [Hb Pb]. f_equal. apply Hu; try done; [by apply list_elem_of_In|].
    apply list_elem_of_In in Hb. by rewrite Hp.
  - apply List.find_some in E as [Ha Pa]. apply list_elem_of_In in Ha. rewrite Hp in Ha. apply list_elem_of_In in Ha.
    by rewrite (List.find_none _ _ E' _ Ha) in Pa.
  - apply List.find_some in E' as [Ha Pa]. apply list_elem_of_In in Ha. rewrite <- Hp in Ha. apply list_elem_of_In in Ha.
    by rewrite (List.find_none _ _ E _ Ha) in Pa.
Qed.

Lemma elem_rows {A} (m : gmap string A) p a : a ∈ rows m p <-> p a = true /\ exists k, m !! k = Some a.
Proof.
  unfold rows. rewrite list_elem_of_In, List.filter_In, <- list_elem_of_In, list_elem_of_fmap. split.
  - intros [([k b] & -> & Hk%elem_of_map_to_list) Hp]. eauto.
  - intros [Hp [k Hk]]. split; [|done]. exists (k, a). by rewrite elem_of_map_to_list.
Qed.

(** In every reachable store no two windows of one entitlement
    and kind start together and the live ones do not overlap, so an instant
    lies in at most one live window of a kind: every lookup of the current
    window, whatever order the rows come in, finds the same row. *)
Theorem current_window_unique (db : DB) (Hr : reachable db) :
  (forall i j v w, windows db !! i = Some v -> windows db !! j = Some w -> i <> j ->
     w_EntitlementID v = w_EntitlementID w -> w_Kind v = w_Kind w ->
     w_Start v <> w_Start w /\ (w_Voided v = false -> w_Voided w = false -> ranges_overlap v w = false)) /\
  (forall kind ent t ws, ws ≡ₚ LoadWindows ent [] db ->
     List.find (live_row kind t) ws = List.find (live_row kind t) (LoadWindows ent [] db)).
Proof.
  apply periods_ok_reachable in Hr as [P A]. split.
  - intros i j v w Hv Hw Hne He Hk. destruct (A _ _ _ _ Hv Hw Hne He Hk) as [Hs Ha]. split; [done|].
    intros Hvv Hww. unfold ranges_overlap. destruct (Ha Hvv Hww); apply andb_false_iff; [right|left]; lia.
  - intros kind ent t ws Hp. symmetry. apply find_unique; [|done].
    intros v w [Hv [i Hi]]%elem_rows [Hw [j Hj]]%elem_rows Lv Lw. bool_prop.
    unfold live_row, Contains, interval_of in *. simpl in *. bool_prop.
    destruct (decide (i = j)) as [->|Hne]; [congruence|]. exfalso.
    destruct (A _ _ _ _ Hi Hj Hne) as [_ Ha]; [congruence..|].
    destruct Ha; [done|done|lia|lia].
Qed.

Lemma current_window_unique_witness :
  List.find (live_row WindowWeekly (Date 2024 2 2 10 0 0 0)) (LoadWindows "ent" [] run4)
  = windows run4 !! "w7".
Proof.
  rewrite <- (proj2 (current_window_unique run4 (proj2 (proj2 (proj2 run_reachable)))) _ _ _
    (reverse (LoadWindows "ent" [] run4))) by apply reverse_Permutation. vm_compute. reflexivity.
Defined.
