(* ===== verification/Rebuild.v ===== *)
(** * Rebuild: the window aggregates can be recomputed from the ledger

    [Store.ReconcileWindowAggregates] sums, for every live window, the ledger
    entries of the requests bound to it and compares the sum with the running
    counter. The ledger is an independent record (append-only, one charge per
    request, signed corrections); here it is shown to determine the counters. *)

From Stdlib Require Import ZArith Lia Bool Ascii String.
From stdpp Require Import base gmap strings list relations.
From S2P Require Import Prelude Domain Money Calendar Window Pricing WalletRules Tables.
From S2P Require Import RequestStore QuotaStore WalletStore LedgerStore Conservation StoreInv.
From S2P Require Import LeaseStore StoreSteps StoreProps WindowHistory.

Local Open Scope Z_scope.
Local Open Scope go_scope.

(** ** The audit tables of a transaction *)

Definition same_audit (db db' : DB) : Prop := ledger db' = ledger db /\ adjustments db' = adjustments db.

#[global] Instance same_audit_preorder : PreOrder same_audit.
Proof. split; [done|]. intros ??? [? ?] [? ?]. split; congruence. Qed.

Lemma same_audit_grow db db' : same_audit db db' -> adjs_grow db db'.
Proof. intros [_ H]. by apply adjs_same. Qed.

Lemma settle_one_audit charge db rv db' : settle_one charge db rv = Ok db' -> same_audit db db'.
Proof.
  intros H. unfold settle_one in H. apply rbind_Ok in H as (db1 & H1 & H2).
  apply flip_reservation_Ok in H2 as (rv' & _ & _ & ->).
  by apply settle_target_Ok in H1 as [(wid & w & _ & _ & Hw & _ & _ & ->)|(kid & k & _ & Hk & ->)].
Qed.

Lemma release_one_audit rid db rv db' : release_one rid db rv = Ok db' -> same_audit db db'.
Proof.
  intros H. unfold release_one in H. apply rbind_Ok in H as (db1 & H1 & H2).
  apply flip_reservation_Ok in H2 as (rv' & _ & _ & ->).
  by apply release_target_Ok in H1 as [(wid & w & _ & Hw & _ & ->)|[(kid & k & _ & Hk & _ & ->)|(_ & _ & hs & ->)]].
Qed.

Lemma correct_window_audit d db o db' : correct_window d db o = Ok db' -> same_audit db db'.
Proof.
  unfold correct_window. intros H. destruct o; [|by inv_ok]. destruct (windows db !! s); [|done]. by inv_ok.
Qed.

Lemma correct_key_audit d o db db' : correct_key d o db = Ok db' -> same_audit db db'.
Proof. unfold correct_key. intros H. destruct o; [|by inv_ok]. destruct (keys db !! s); [|done]. by inv_ok. Qed.

Lemma rfold_audit {A} (f : DB -> A -> res DB) xs db db' :
  (forall d d' x, f d x = Ok d' -> same_audit d d') -> rfold f db xs = Ok db' -> same_audit db db'.
Proof.
  intros Hf H. eapply rfold_rel; [intros ?; reflexivity|intros ???; by etrans| |exact H]. intros. by eapply Hf.
Qed.

(** A settlement appends one system charge and no adjustment. *)
Lemma Settle_entry cmd now db db' : Settle cmd now db = Ok db' ->
  exists e, ledger db' = ledger db ++ [e] /\ le_CreatedBy e = "system" /\ le_AdjustmentID e = None /\
    adjustments db' = adjustments db.
Proof.
  unfold Settle. intros H. destruct (_ <? _) in H; [done|].
  apply rbind_Ok in H as (r & _ & H). destruct (finalized r); [done|]. destruct (bool_decide _) in H.
  - unfold settleWallet in H. destruct (_ <? _) in H; [done|].
    apply rbind_Ok in H as (db1 & [F1 _]%insertUsageRecord_frame & H).
    apply rbind_Ok in H as (charge & _ & H). destruct (_ =? _) in H; [|done].
    apply rbind_Ok in H as (db2 & [F2 _]%insert_ledger_Ok & H).
    apply rbind_Ok in H as (db3 & F3%settleWalletLocked_frame & H). apply rbind_Ok in H as (db4 & H4 & H).
    apply rbind_Ok in H as (db5 & F5%settle_attempt_cost_frame & H6).
    unfold settle_wallet_reservation in H4. destruct (rows _ _) in H4; [done|]. injection H4 as F4.
    unfold settle_request in H6. apply rbind_Ok in H6 as ([] & _ & [= F6]).
    eexists. rewrite <- F6. simpl. rewrite F5. simpl. rewrite <- F4. simpl. rewrite F3. simpl. rewrite F2, F1. simpl.
    split_and!; done.
  - unfold settlePlan in H. apply rbind_Ok in H as (db1 & [F1 _]%insertUsageRecord_frame & H).
    apply rbind_Ok in H as (db2 & [F2 _]%insert_ledger_Ok & H). destruct (bool_decide _) in H; [done|].
    apply rbind_Ok in H as (db3 & H3 & H). apply rbind_Ok in H as (db4 & F4%settle_attempt_cost_frame & H5).
    unfold settle_request in H5. apply rbind_Ok in H5 as ([] & _ & [= F5]).
    apply rfold_audit in H3 as [Hl Ha]; [|intros *; apply settle_one_audit].
    eexists. rewrite <- F5. simpl. rewrite F4. simpl. rewrite Hl, Ha, F2, F1. simpl. split_and!; done.
Qed.

(** A correction's entry names the adjustment row written with it. *)
Lemma CorrectSettlement_entry a j clk now cmd db db' : CorrectSettlement a j clk now cmd db = Ok db' ->
  exists e adj, ledger db' = ledger db ++ [e] /\ adjustments db' = adjustments db ++ [adj] /\
    le_CreatedBy e = "system:" +:+ cc_OperatorSubject cmd /\ le_AdjustmentID e = Some (ad_ID adj).
Proof.
  unfold CorrectSettlement. intros H. destruct (_ || _) in H; [done|]. destruct (existsb _ _) in H; [done|].
  apply rbind_Ok in H as (r & _ & H). destruct (bool_decide _) in H; [done|].
  destruct (bool_decide _) in H; [|done]. destruct (r_SettledMicros r) as [base|]; [|done].
  apply rbind_Ok in H as ([dir delta] & _ & H). destruct (List.find _ _) as [c|] in H; [|done].
  apply rbind_Ok in H as (db1 & [F1 _]%insertUsageRecord_frame & H).
  apply rbind_Ok in H as (db2 & (F2 & _)%insert_adjustment_frame & H).
  apply rbind_Ok in H as (db3 & [F3 _]%insert_ledger_Ok & H).
  apply rbind_Ok in H as (db4 & H4 & H). apply rbind_Ok in H as (db5 & [L5 A5]%correct_key_audit & H).
  apply rbind_Ok in H as ([] & _ & H). apply correct_overage_frame in H.
  apply rfold_audit in H4 as [L4 A4]; [|intros *; apply correct_window_audit].
  do 2 eexists. rewrite H. simpl. rewrite L5, L4, A5, A4, F3, F2, F1. simpl. split_and!; try done; by destruct (_ && _).
Qed.

Lemma release_audit rid b now db db' : releaseLocked rid b now db = Ok db' -> same_audit db db'.
Proof.
  unfold releaseLocked. intros H. apply rbind_Ok in H as (r & _ & H). apply rbind_Ok in H as ([] & _ & H).
  destruct (_ || _) in H; [done|]. destruct (_ && _) in H; [done|]. destruct (bool_decide _) in H; [done|].
  apply rbind_Ok in H as (db1 & H1 & H). apply rbind_Ok in H as (db2 & H2 & H3).
  apply rfold_audit in H1; [|intros *; apply release_one_audit]. etrans; [exact H1|].
  assert (same_audit db1 db2) as HA.
  { destruct (five_hour_of _); [|by inv_ok]. by apply voidUnused_Ok in H2 as [->|(w & _ & _ & _ & _ & _ & ->)]. }
  etrans; [exact HA|]. unfold updateRequestStatus in H3. destruct (_ !! _) in H3; [|done].
  injection H3 as <-. by destruct b.
Qed.

Lemma adjs_step db db' : store_step db db' -> adjs_grow db db'.
Proof.
  intros [(_ & _ & ? & _)|[(_ & ? & _)|[(h & rv & now & cmd & adm & H)|[(rid & b & now & H)|(cmd & now & _ & H)]]]]%step_shape; try done.
  - apply ReserveWallet_Ok in H as (_ & ? & ? & ? & ? & ? & ? & ? & _ & _ & _ & _ & _ & _ & _ & _ & _ & _ & _ & _ & Hrv).
    apply insert_reservation_Ok in Hrv as (_ & _ & _ & _ & _ & _ & _ & ->). by apply adjs_same.
  - by eapply same_audit_grow, release_audit.
  - apply Settle_entry in H as (? & _ & _ & _ & ?). by apply adjs_same.
Qed.

(** ** What the ledger says of a request *)

(** Entries an operator wrote with [AppendAdjustment]. *)
Definition by_operator (e : LedgerEntry) : bool := String.prefix "operator:" (le_CreatedBy e).

(** The net of the entries of a request that satisfy [p]. *)
Definition net_of (p : LedgerEntry -> bool) (db : DB) (rid : string) : Z :=
  lsum (fun e => if bool_decide (le_RequestID e = Some rid) && p e then ledger_effect (adjustments db) e else 0)
    (ledger db).

Definition operator_net : DB -> string -> Z := net_of by_operator.
Definition system_net : DB -> string -> Z := net_of (fun e => negb (by_operator e)).

(** What the plan owes for a request: wallet requests are charged in money. *)
Definition owed (cs : gmap string RCore) (rid : string) : Z :=
  match cs !! rid with
  | Some c => if bool_decide (walletRequest c) then 0 else default 0 (c_Settled c)
  | None => 0
  end.

Record audit_ok (db : DB) : Prop := {
  au_net : forall rid, system_net db rid = owed (cores db) rid;
  au_ref : forall e a, e ∈ ledger db -> le_AdjustmentID e = Some a -> exists x, x ∈ adjustments db /\ ad_ID x = a;
}.

Lemma ledger_net_split db rid : ledger_net db rid = system_net db rid + operator_net db rid.
Proof.
  unfold ledger_net, system_net, operator_net, net_of. induction (ledger db) as [|e l IH]; simpl; [done|].
  rewrite IH. destruct (bool_decide _), (by_operator e); simpl; lia.
Qed.

(** Appended adjustments do not change what a resolved entry counts. *)
Lemma ledger_effect_grow adjs l e :
  (forall a, le_AdjustmentID e = Some a -> exists x, x ∈ adjs /\ ad_ID x = a) ->
  ledger_effect (adjs ++ l) e = ledger_effect adjs e.
Proof.
  intros Href. unfold ledger_effect. destruct (negb _); [done|]. destruct (le_EntryType e); [done..|].
  destruct (le_AdjustmentID e) as [a|] eqn:Ha.
  - destruct (Href a eq_refl) as (x & Hx & <-). 
    destruct (List.find (fun b => bool_decide (Some (ad_ID x) = Some (ad_ID b))) adjs) as [y|] eqn:E.
    + by rewrite (find_app_l _ _ _ _ E).
    + apply list_elem_of_In in Hx. pose proof (List.find_none _ _ E _ Hx) as Hn. simpl in Hn. by bool_prop.
  - assert (forall q : list Adjustment, List.find (fun x => bool_decide (None = Some (ad_ID x))) q = None) as Hn
      by (induction q; done). by rewrite !Hn.
Qed.

Lemma net_same p db db' rid : ledger db' = ledger db -> adjs_grow db db' -> audit_ok db ->
  net_of p db' rid = net_of p db rid.
Proof.
  intros Hl [l Ha] [_ Href]. unfold net_of. rewrite Hl, Ha. apply lsum_ext. intros e He.
  destruct (_ && _); [|done]. apply ledger_effect_grow. intros a. by apply Href.
Qed.

Lemma net_snoc p db db' e rid : ledger db' = ledger db ++ [e] -> adjs_grow db db' -> audit_ok db ->
  net_of p db' rid = net_of p db rid +
    (if bool_decide (le_RequestID e = Some rid) && p e then ledger_effect (adjustments db') e else 0).
Proof.
  intros Hl [l Ha] [_ Href]. unfold net_of. rewrite Hl, lsum_app. f_equal; [|simpl; lia]. apply lsum_ext. intros o Ho.
  destruct (_ && _); [|done]. rewrite Ha. apply ledger_effect_grow. intros a. by apply Href.
Qed.

Lemma refs_grow db db' (P : LedgerEntry -> Prop) : adjs_grow db db' ->
  (forall e a, P e -> le_AdjustmentID e = Some a -> exists x, x ∈ adjustments db /\ ad_ID x = a) ->
  (forall e a, P e -> le_AdjustmentID e = Some a -> exists x, x ∈ adjustments db' /\ ad_ID x = a).
Proof.
  intros [l Ha] H e a He Hid. destruct (H e a He Hid) as (x & Hx & ?). exists x. rewrite Ha.
  split; [|done]. apply elem_of_app. by left.
Qed.

Lemma audit_same db db' : ledger db' = ledger db -> adjs_grow db db' ->
  (forall rid, owed (cores db') rid = owed (cores db) rid) -> audit_ok db -> audit_ok db'.
Proof.
  intros Hl Hg Ho Hok. pose proof Hok as [Hn Href]. split.
  - intros rid. unfold system_net. rewrite (net_same _ _ _ _ Hl Hg Hok), Ho. apply Hn.
  - rewrite Hl. by apply (refs_grow db).
Qed.

Lemma audit_snoc db db' e : ledger db' = ledger db ++ [e] -> adjs_grow db db' ->
  (forall a, le_AdjustmentID e = Some a -> exists x, x ∈ adjustments db' /\ ad_ID x = a) ->
  (forall rid, owed (cores db') rid = owed (cores db) rid +
     (if bool_decide (le_RequestID e = Some rid) && negb (by_operator e) then ledger_effect (adjustments db') e else 0)) ->
  audit_ok db -> audit_ok db'.
Proof.
  intros Hl Hg He Ho Hok. pose proof Hok as [Hn Href]. split.
  - intros rid. unfold system_net. rewrite (net_snoc _ _ _ _ _ Hl Hg Hok), Ho. f_equal. apply Hn.
  - rewrite Hl. intros o a [Hi|Hi%list_elem_of_singleton]%elem_of_app; [|subst; apply He].
    by apply (refs_grow db db' (fun o => o ∈ ledger db)).
Qed.

(** A new request owes nothing. *)
Lemma owed_new r now db rid : requests db !! r_ID r = None ->
  owed (rcore <$> <[r_ID r := request_row r now]> (requests db)) rid = owed (cores db) rid.
Proof.
  intros Hf. unfold owed, cores. rewrite fmap_insert. destruct (decide (rid = r_ID r)) as [->|Hne].
  - rewrite lookup_insert_eq, lookup_fmap, Hf. simpl. by destruct (bool_decide _).
  - by rewrite lookup_insert_ne.
Qed.

Lemma owed_settle cs rid c m x : cs !! rid = Some c -> ~ walletRequest c ->
  owed (<[rid := settle_core m c]> cs) x = owed cs x + (if decide (x = rid) then m - owed cs rid else 0).
Proof.
  intros Hc Hw. unfold owed. destruct (decide (x = rid)) as [->|Hne].
  - rewrite lookup_insert_eq, Hc. assert (~ walletRequest (settle_core m c)) as Hw' by done.
    rewrite !bool_decide_eq_false_2 by done. simpl. lia.
  - rewrite lookup_insert_ne by done. lia.
Qed.

Lemma owed_settle_wallet cs rid c m x : cs !! rid = Some c -> walletRequest c ->
  owed (<[rid := settle_core m c]> cs) x = owed cs x.
Proof.
  intros Hc Hw. unfold owed. destruct (decide (x = rid)) as [->|Hne]; [|by rewrite lookup_insert_ne].
  rewrite lookup_insert_eq, Hc. assert (walletRequest (settle_core m c)) as Hw' by done.
  by rewrite !bool_decide_eq_true_2.
Qed.

Lemma audit_settle cmd now db db' : Settle cmd now db = Ok db' -> store_inv db -> audit_ok db -> audit_ok db'.
Proof.
  intros H I. destruct (Settle_entry _ _ _ _ H) as (e & Hl & Hby & Hadj & Ha).
  destruct (Settle_Ok _ _ _ _ H I) as (r & Hr & _ & Hnc & _ & _ & _ & Hc & (e' & Hl' & He & Hamt & Hu) & _).
  rewrite Hl in Hl'. apply app_inj_tail in Hl' as [_ <-].
  apply (audit_snoc _ _ e Hl); [by apply adjs_same|by rewrite Hadj|]. intros rid.
  unfold is_charge_of in He. bool_prop. unfold by_operator. rewrite Hby. simpl.
  pose proof (cores_lookup _ _ _ Hr) as Hcr. rewrite Hc, H1, andb_true_r. unfold ledger_effect. rewrite Hu, H0, Hamt.
  destruct (decide (r_ChargeSource r = Some ChargeSourceWallet)) as [Hs|Hs].
  - rewrite (bool_decide_eq_true_2 _ Hs), (owed_settle_wallet _ _ _ _ _ Hcr) by done. simpl. destruct (bool_decide (Some _ = _)); lia.
  - rewrite (bool_decide_eq_false_2 _ Hs), (owed_settle _ _ _ _ _ Hcr) by done. simpl.
    assert (owed (cores db) (sc_RequestID cmd) = 0) as ->.
    { unfold owed. rewrite Hcr. destruct (bool_decide _); [done|]. destruct (c_Settled (rcore r)) eqn:Hset; [|done].
      destruct Hnc. apply (ro_charge _ _ _ (si_requests _ I)). exists (rcore r). by rewrite Hset. }
    destruct (decide (rid = _)) as [->|Hne]; [rewrite bool_decide_eq_true_2 by done; lia|].
    rewrite bool_decide_eq_false_2 by congruence. lia.
Qed.

Lemma audit_correct a j clk now cmd db db' :
  CorrectSettlement a j clk now cmd db = Ok db' -> cc_CorrectedMicros cmd <= max_int64 -> store_inv db ->
  audit_ok db -> audit_ok db'.
Proof.
  intros H Hmax I. destruct (CorrectSettlement_entry _ _ _ _ _ _ _ H) as (e & adj & Hl & Ha & Hby & Hadj).
  destruct (CorrectSettlement_Ok _ _ _ _ _ _ _ H I Hmax)
    as (r & base & Hr & Hb & Hs & _ & Hc & _ & (e' & adj' & Hl' & Ha' & _ & Hrid & _ & Heff) & _).
  rewrite Hl in Hl'. apply app_inj_tail in Hl' as [_ <-]. rewrite Ha in Ha'. apply app_inj_tail in Ha' as [_ <-].
  apply (audit_snoc _ _ e Hl); [by eexists| |].
  - rewrite Hadj, Ha. intros x [= <-]. exists adj. split; [|done]. apply elem_of_app. right. by apply list_elem_of_singleton.
  - intros rid. pose proof (cores_lookup _ _ _ Hr) as Hcr.
    rewrite Hc, Ha, Heff, Hrid, (owed_settle _ _ _ _ _ Hcr) by done. unfold by_operator. rewrite Hby. simpl.
    rewrite andb_true_r. unfold owed at 2. rewrite Hcr, (bool_decide_eq_false_2 (walletRequest _)) by done.
    simpl. rewrite Hb. simpl.
    destruct (decide (rid = _)) as [->|Hne]; [by rewrite bool_decide_eq_true_2|].
    by rewrite bool_decide_eq_false_2 by congruence.
Qed.

Lemma prefix_app p s : String.prefix p (p +:+ s) = true.
Proof. induction p as [|c p IH]; simpl; [by destruct s|]. by destruct (ascii_dec c c). Qed.

Lemma audit_adjust newID a a' db db' : AppendAdjustment newID a db = Ok (a', db') -> audit_ok db -> audit_ok db'.
Proof.
  unfold AppendAdjustment. cbv zeta. intros H.
  apply rbind_Ok in H as (db1 & (F1 & _)%insert_adjustment_frame & H).
  apply rbind_Ok in H as (db2 & (F2 & _)%insert_ledger_Ok & H). injection H as _ <-.
  eapply audit_snoc.
  - rewrite F2, F1. reflexivity.
  - eexists. by rewrite F2, F1.
  - intros x [= <-]. rewrite F2, F1. simpl. eexists.
    split; [apply elem_of_app; right; by apply list_elem_of_singleton|done].
  - intros rid. unfold by_operator. simpl. rewrite prefix_app, andb_false_r, Z.add_0_r, F2, F1. done.
Qed.

Lemma audit_step db db' : store_step db db' -> store_inv db -> audit_ok db -> audit_ok db'.
Proof.
  intros Hs I. pose proof (adjs_step _ _ Hs) as Hg.
  assert (same_quota db db' -> audit_ok db -> audit_ok db') as Hsame.
  { intros (_ & _ & _ & Hc & Hl). apply audit_same; [done..|]. intros rid. by rewrite Hc. }
  destruct Hs; try (apply Hsame; by eauto using MarkReconciliationRequired_frame,
    updateRequestStatus_frame, insertAttempt_frame, FinishAttempt_frame, SetOverageTx_frame,
    CreditTopupTx_frame, RefundWalletTx_frame, ApplyWalletAdjustmentTx_frame, ReverseWalletEntryTx_frame,
    AcquireLeaseTx_frame, RenewLease_frame, ReleaseLease_frame); try (by apply audit_same).
  - unfold ActivateWindowsTx in H. apply rbind_Ok in H as ([] & _ & H).
    apply rbind_Ok in H as ([[? ?] db1] & H & H'). injection H' as _ <-.
    apply activate_kinds_frame with (paid := fun _ => 0) in H as [F _]. simpl in F.
    apply audit_same; [by rewrite F|done|]. unfold cores. by rewrite F.
  - apply Reserve_Ok in H0 as (st & req & Hloop & Hb & Hk & _ & _ & db1 & [Hf F1]%insertRequest_Ok & Hrows).
    destruct (apply_holds (fun _ => 0) _ [] _ _ Hloop Hb Hk) as (_ & _ & _ & (F & _) & _).
    destruct (insert_rows (fun _ => 0) _ _ _ [] _ _ Hrows) as (F' & _). simpl in F.
    apply audit_same; [by rewrite F', F1; simpl; rewrite F|done|]. intros rid.
    unfold cores at 1. rewrite F', F1. simpl. rewrite owed_new by done. unfold cores. by rewrite F.
  - apply ReserveWallet_Ok in H as (_ & ? & ? & ? & ? & ? & ? & req & _ & _ & _ & _ & _ & _ & _ & Hid & _ & _ & Hf & _ & Hrv).
    apply insert_reservation_Ok in Hrv as (_ & _ & _ & _ & _ & _ & _ & ->). apply audit_same; [done..|].
    intros rid. unfold cores at 1. simpl. rewrite <- Hid. apply owed_new. by rewrite Hid.
  - destruct (releaseLocked_Ok _ _ _ _ _ H I) as (?&?&?&?&?&?&Hc&Hl&?).
    apply audit_same; [done..|]. intros. by rewrite Hc.
  - by eapply audit_settle.
  - by eapply audit_correct.
  - apply EnqueueReconciliationJobTx_frame in H. apply audit_same; [by rewrite H|done|]. unfold cores. by rewrite H.
  - by eapply audit_adjust.
Qed.

Lemma audit_reachable db : reachable db -> audit_ok db.
Proof.
  intros (db0 & Hi & Hs). assert (audit_ok db0) as A.
  { destruct Hi as (_ & Hq & _ & Hl & _). split; unfold system_net, net_of, owed, cores; rewrite ?Hl, ?Hq; [done|].
    by intros ? ? ?%not_elem_of_nil. }
  pose proof (store_inv_initial _ Hi) as I. clear Hi.
  induction Hs as [|d1 d2 d3 Hs1 _ IH]; [done|]. eauto using audit_step, store_inv_step.
Qed.

(** ** From requests to windows *)

Lemma msum_at {V} (f : string -> V -> Z) (m : gmap string V) k v :
  m !! k = Some v -> (forall k' v', m !! k' = Some v' -> k' <> k -> f k' v' = 0) -> msum f m = f k v.
Proof.
  intros Hk Hz. rewrite (msum_delete _ _ _ _ Hk), msum_zero; [lia|].
  intros k' v' [Hne Hk']%lookup_delete_Some. by apply Hz.
Qed.

(** Rows of a table grouped by the request they belong to. *)
Lemma msum_group {A V} (owner : V -> string) (f : string -> V -> Z) (rs : gmap string A) (m : gmap string V) :
  (forall k v, m !! k = Some v -> is_Some (rs !! owner v)) ->
  msum f m = msum (fun rid _ => msum (fun k v => if decide (owner v = rid) then f k v else 0) m) rs.
Proof.
  induction m as [|k v m Hk IH] using map_ind; intros Hown.
  - rewrite msum_empty, msum_zero; [done|]. intros. apply msum_empty.
  - rewrite msum_insert by done. destruct (Hown k v) as [a Ha]; [by rewrite lookup_insert_eq|].
    rewrite IH; [|intros k' v' Hk'; apply (Hown k'); rewrite lookup_insert_ne; [done|congruence]].
    symmetry. etrans.
    + apply (msum_add _ (fun rid _ => if decide (owner v = rid) then f k v else 0)
        (fun rid _ => msum (fun k v => if decide (owner v = rid) then f k v else 0) m)).
      intros rid a' _. by rewrite msum_insert.
    + f_equal. rewrite (msum_at _ rs (owner v) a Ha); [by rewrite decide_True|].
      intros rid a' _ Hne. by rewrite decide_False.
Qed.

(** Every window reservation is on a window of its own kind. *)
Definition bindings_ok (db : DB) : Prop :=
  forall id rv wid w, reservations db !! id = Some rv -> target_of rv = Some (TWindow wid) ->
    windows db !! wid = Some w -> windowKindOfTarget (rv_TargetKind rv) = Some (w_Kind w).

Lemma bound_to_target wid r : bound_to wid r = true <-> exists k, bound_target (rcore r) k = Some (TWindow wid).
Proof.
  unfold bound_to. rewrite !orb_true_iff, !bool_decide_eq_true. split.
  - intros [[H|H]|H]; [exists TargetWindowFiveHour|exists TargetWindowWeekly|exists TargetWindowMonthly];
      simpl; by rewrite H.
  - intros [[] H]; simpl in H; try done.
    + destruct (r_WindowFiveHourID r); simplify_eq/=. by left; left.
    + destruct (r_WindowWeeklyID r); simplify_eq/=. by left; right.
    + destruct (r_WindowMonthlyID r); simplify_eq/=. by right.
    + by destruct (r_APIKeyID r).
Qed.

Lemma window_target_kind k1 k2 wk : windowKindOfTarget k1 = Some wk -> windowKindOfTarget k2 = Some wk -> k1 = k2.
Proof. by destruct k1, k2; simpl; intros; simplify_eq. Qed.

(** What one request contributes to a window. *)
Lemma request_spent db rid r wid w : store_inv db -> bindings_ok db ->
  requests db !! rid = Some r -> windows db !! wid = Some w ->
  msum (fun k rv => if decide (rv_RequestID rv = rid) then spent_at (paid_of (cores db)) (TWindow wid) k rv else 0)
    (reservations db) = if bound_to wid r then owed (cores db) rid else 0.
Proof.
  intros [_ R] Hb Hr Hw. pose proof (cores_lookup _ _ _ Hr) as Hc.
  destruct (decide (walletRequest (rcore r))) as [Hwal|Hwal].
  { assert (owed (cores db) rid = 0) as -> by (unfold owed; by rewrite Hc, bool_decide_eq_true_2).
    rewrite msum_zero; [by destruct (bound_to _ _)|]. intros id rv Hl. destruct (decide _) as [He|]; [|done].
    destruct (ro_row _ _ _ R _ _ Hl) as (c & Hc' & _ & Hk & _). rewrite He, Hc in Hc'. injection Hc' as <-.
    apply Hk in Hwal. unfold spent_at, target_of. by rewrite Hwal. }
  assert (owed (cores db) rid = paid_of (cores db) rid) as ->
    by (unfold owed, paid_of; by rewrite Hc, bool_decide_eq_false_2).
  destruct (bound_to wid r) eqn:Hbt.
  - apply bound_to_target in Hbt as [k Hk].
    destruct (ro_bound _ _ _ R _ _ _ _ Hc Hwal Hk) as (id & rv & Hl & Hrid & Hkind).
    destruct (ro_row _ _ _ R _ _ Hl) as (c & Hc' & Hst & _ & Ht). rewrite Hrid, Hc in Hc'. injection Hc' as <-.
    rewrite Hkind, Hk in Ht. rewrite (msum_at _ _ _ _ Hl).
    + rewrite decide_True by done. unfold spent_at. rewrite Ht, (bool_decide_eq_true_2 (Some _ = _)) by done. simpl.
      destruct (bool_decide _) eqn:Hs; [by rewrite Hrid|].
      apply bool_decide_eq_false in Hs. rewrite Hst in Hs. unfold paid_of. rewrite Hc.
      by destruct (c_Settled (rcore r)); [destruct Hs|].
    + intros id' rv' Hl' Hne. destruct (decide _) as [He|]; [|done]. unfold spent_at.
      destruct (bool_decide (target_of rv' = _)) eqn:Ht'; [|done]. apply bool_decide_eq_true in Ht'.
      destruct Hne. eapply (ro_unique _ _ _ R); [done..|congruence|].
      eapply window_target_kind; [by eapply Hb|by eapply Hb].
  - rewrite msum_zero; [done|]. intros id rv Hl. destruct (decide _) as [He|]; [|done]. unfold spent_at.
    destruct (bool_decide (target_of rv = _)) eqn:Ht; [|done]. apply bool_decide_eq_true in Ht.
    destruct (ro_row _ _ _ R _ _ Hl) as (c & Hc' & _ & _ & Ht'). rewrite He, Hc in Hc'. injection Hc' as <-.
    assert (bound_to wid r = true); [|congruence]. apply bound_to_target. exists (rv_TargetKind rv). congruence.
Qed.

Lemma rebuilt_exact db wid w : reachable db -> bindings_ok db -> windows db !! wid = Some w ->
  rebuilt_used db wid = w_Used w + msum (fun rid r => if bound_to wid r then operator_net db rid else 0) (requests db).
Proof.
  intros Hr Hb Hw. pose proof (reachable_inv _ Hr) as I. pose proof (audit_reachable _ Hr) as [Hn _].
  pose proof I as [[[_ Lu _] _] R]. rewrite (Lu _ _ Hw). unfold spent, rebuilt_used.
  rewrite (msum_group rv_RequestID _ (requests db)), <- msum_plus.
  - apply msum_ext. intros rid r Hrq. rewrite (request_spent db rid r wid w I Hb Hrq Hw), ledger_net_split, Hn.
    by destruct (bound_to wid r).
  - intros id rv Hl. destruct (ro_row _ _ _ R _ _ Hl) as (c & Hc & _). unfold cores in Hc.
    rewrite lookup_fmap in Hc. destruct (requests db !! rv_RequestID rv); [eauto|done].
Qed.

(** C11: REBUILD. In every reachable store whose reservations sit on windows of
    their own kind, the sum the reconciler rebuilds from the ledger is the
    running counter of the window plus exactly the operator adjustments booked
    on the requests bound to it; so without such adjustments the nightly
    comparison reports no mismatch, whatever was reserved, released, settled
    and corrected before. *)
Theorem ledger_rebuilds_windows (db : DB) (Hr : reachable db) (Hb : bindings_ok db) :
  (forall wid w, windows db !! wid = Some w ->
     rebuilt_used db wid
     = w_Used w + msum (fun rid r => if bound_to wid r then operator_net db rid else 0) (requests db)) /\
  ((forall e, e ∈ ledger db -> by_operator e = true -> le_RequestID e = None) ->
   Forall (fun row => let '(_, _, stored, rebuilt) := row in rebuilt = stored) (ReconcileWindowAggregates db)).
Proof.
  split; [intros; by apply rebuilt_exact|]. intros Hop. unfold ReconcileWindowAggregates.
  apply List.Forall_map, Forall_forall. intros [wid w] Hin.
  apply list_elem_of_In, List.filter_In in Hin as [Hin _]. apply list_elem_of_In, elem_of_map_to_list in Hin.
  rewrite (rebuilt_exact _ _ _ Hr Hb Hin), msum_zero; [lia|]. intros rid r _. destruct (bound_to wid r); [|done].
  unfold operator_net, net_of. rewrite (lsum_ext _ (fun _ => 0)); [clear; induction (ledger db); simpl; lia|].
  intros e He. destruct (by_operator e) eqn:Ho; [|by rewrite andb_false_r]. by rewrite (Hop _ He Ho).
Qed.

Lemma ledger_rebuilds_windows_witness :
  rebuilt_used run4 "w5" = 20 /\
  Forall (fun row => let '(_, _, stored, rebuilt) := row in rebuilt = stored) (ReconcileWindowAggregates run4).
Proof.
  assert (bindings_ok run4) as Hb.
  { intros id rv wid w Hl Ht Hw.
    assert (map_Forall (fun _ rv => match target_of rv with
      | Some (TWindow wid) => bool_decide (windowKindOfTarget (rv_TargetKind rv) = w_Kind <$> (windows run4 !! wid))
      | _ => true end = true) (reservations run4)) as HF by (apply (bool_decide_unpack _); vm_compute; exact I).
    specialize (HF _ _ Hl). cbv beta in HF. rewrite Ht, Hw in HF. exact (proj1 (bool_decide_eq_true _) HF). }
  destruct (ledger_rebuilds_windows run4 (proj2 (proj2 (proj2 run_reachable))) Hb) as [_ H].
  split; [vm_compute; reflexivity|]. apply H.
  refine (proj1 (Forall_forall (fun e => by_operator e = true -> le_RequestID e = None) _) _).
  apply (bool_decide_unpack _). vm_compute. exact I.
Defined.
