(* ===== verification/WalletProps.v ===== *)
(** * WalletProps: the wallet never loses or invents money

    The balance of a wallet is derived from its entries and held freezes; these
    theorems say by how much each transaction of [wallet_repo.go] moves it. *)

From Stdlib Require Import ZArith Lia Bool.
From stdpp Require Import base gmap strings list relations.
From S2P Require Import Prelude Domain Money Calendar Window Pricing WalletRules Tables.
From S2P Require Import RequestStore QuotaStore WalletStore LedgerStore Conservation StoreInv.
From S2P Require Import LeaseStore StoreSteps.

Local Open Scope Z_scope.
Local Open Scope go_scope.

(** ** Balances as sums *)

(** What an entry adds to a source of a wallet. *)
Definition entry_effect (wid : string) (src : WalletSource) (e : WalletEntry) : Z :=
  if bool_decide (we_WalletID e = wid) && bool_decide (we_Source e = src)
  then match we_Direction e with DirCredit => we_AmountMicros e | DirDebit => - we_AmountMicros e end
  else 0.

(** Credits minus debits, held or not. *)
Definition ledger_value (wid : string) (src : WalletSource) (db : DB) : Z :=
  lsum (entry_effect wid src) (entries db).

Definition part (src : WalletSource) (h : WalletHold) : Z :=
  match src with WalletCash => wh_CashMicros h | WalletBonus => wh_BonusMicros h | WalletSourceOther => 0 end.

Definition frozen (wid : string) (src : WalletSource) (db : DB) : Z := held_sum (part src) wid db.

Definition available (wid : string) (src : WalletSource) (db : DB) : Z :=
  ledger_value wid src db - frozen wid src db.

Lemma ledger_value_sums wid src db :
  ledger_value wid src db = entry_sum wid src DirCredit db - entry_sum wid src DirDebit db.
Proof.
  unfold ledger_value, entry_sum. induction (entries db) as [|e l IH]; simpl; [done|]. rewrite IH.
  unfold entry_effect, entry_in. destruct (bool_decide _), (bool_decide _); simpl; try lia.
  destruct (we_Direction e); simpl; lia.
Qed.

Lemma ledger_value_snoc wid src db db' e :
  entries db' = entries db ++ [e] -> ledger_value wid src db' = ledger_value wid src db + entry_effect wid src e.
Proof. intros H. unfold ledger_value. rewrite H, lsum_app. simpl. lia. Qed.

(** The balance the code derives is the available one, when it fits. *)
Lemma derived_balance wid cur db sums bal :
  walletSumsLocked wid db = Ok sums -> DeriveWalletBalance cur sums = Ok bal ->
  (forall src, in_int64 (ledger_value wid src db) /\ in_int64 (available wid src db)) ->
  CashAvailable bal = available wid WalletCash db /\ BonusAvailable bal = available wid WalletBonus db /\
  HeldCash sums = frozen wid WalletCash db /\ HeldBonus sums = frozen wid WalletBonus db.
Proof.
  unfold walletSumsLocked, DeriveWalletBalance. intros Hs Hb Hfit.
  repeat (apply rbind_Ok in Hs as (? & [-> _]%sql_int_Ok & Hs)). injection Hs as <-.
  apply rbind_Ok in Hb as (_ & _ & [= <-]). simpl.
  pose proof (Hfit WalletCash) as [H1 H2]. pose proof (Hfit WalletBonus) as [H3 H4].
  unfold available in *. rewrite !ledger_value_sums in *. unfold sub64.
  rewrite !(wrap64_id (_ - entry_sum _ _ _ _)) by done. by rewrite !wrap64_id.
Qed.

(** ** Freezing *)

(** The amounts a freeze is decided on are representable. *)
Definition freeze_fits (wid : string) (start end_ : instant) (hold : Z) (db : DB) : Prop :=
  (forall src, in_int64 (ledger_value wid src db) /\ in_int64 (available wid src db)) /\
  in_int64 (available wid WalletBonus db + available wid WalletCash db) /\
  in_int64 (month_spend wid start end_ db + frozen wid WalletCash db) /\
  in_int64 (month_spend wid start end_ db + frozen wid WalletCash db + frozen wid WalletBonus db) /\
  in_int64 (month_spend wid start end_ db + frozen wid WalletCash db + frozen wid WalletBonus db + hold) /\
  in_int64 hold.

Lemma held_sum_insert f wid db db' h : holds db !! wh_ID h = None ->
  holds db' = <[wh_ID h := h]> (holds db) ->
  held_sum f wid db' = held_sum f wid db + (if hold_on wid h then f h else 0).
Proof. intros Hn Hh. unfold held_sum. rewrite Hh, msum_insert by done. lia. Qed.

Lemma held_sum_update f wid db db' id h h' : holds db !! id = Some h -> holds db' = <[id := h']> (holds db) ->
  held_sum f wid db' = held_sum f wid db - (if hold_on wid h then f h else 0) + (if hold_on wid h' then f h' else 0).
Proof. intros Hn Hh. unfold held_sum. by rewrite Hh, (msum_update _ _ _ _ _ Hn). Qed.

Lemma available_new_hold db db' h o src :
  holds db !! wh_ID h = None -> wh_State h = ReservationHeld ->
  holds db' = <[wh_ID h := h]> (holds db) -> entries db' = entries db ->
  available o src db' = available o src db - (if decide (o = wh_WalletID h) then part src h else 0).
Proof.
  intros Hn Hs Hh He. unfold available, frozen, ledger_value. rewrite (held_sum_insert _ _ _ _ _ Hn Hh), He.
  unfold hold_on. rewrite Hs. rewrite (bool_decide_eq_true_2 (ReservationHeld = _)), andb_true_r by done.
  destruct (decide (o = _)) as [->|]; [rewrite bool_decide_eq_true_2 by done|rewrite bool_decide_eq_false_2 by congruence]; lia.
Qed.

(** A wallet admission freezes exactly the hold and nothing else:
    the wallet has opted in with a monthly limit, this month's spend plus
    everything frozen plus the hold stays within it, each source gives at most
    what it has available, bonus first, and each available balance drops by
    exactly its part. *)
Theorem wallet_freeze_exact (holdID rvID : string) (now : instant) (cmd : ReserveWalletCommand)
    (db : DB) (adm : Admission) (db' : DB) (wallet : Wallet)
    (Hok : ReserveWallet holdID rvID now cmd db = Ok (adm, db'))
    (Hw : wallets db !! rw_WalletID cmd = Some wallet)
    (Hfit : freeze_fits (wa_ID wallet) (rw_MonthStart cmd) (rw_MonthEnd cmd) (rw_HoldMicros cmd) db) :
  let wid := wa_ID wallet in
  exists cash bonus limit,
    Settings wallet = mkOverage true (Some limit) /\
    month_spend wid (rw_MonthStart cmd) (rw_MonthEnd cmd) db
      + frozen wid WalletCash db + frozen wid WalletBonus db + rw_HoldMicros cmd <= limit /\
    cash + bonus = rw_HoldMicros cmd /\
    0 <= cash <= Z.max 0 (available wid WalletCash db) /\
    0 <= bonus <= Z.max 0 (available wid WalletBonus db) /\
    (cash = 0 \/ bonus = Z.max 0 (available wid WalletBonus db)) /\
    available wid WalletCash db' = available wid WalletCash db - cash /\
    available wid WalletBonus db' = available wid WalletBonus db - bonus /\
    (forall other src, other <> wid -> available other src db' = available other src db).
Proof.
  intros wid. pose proof Hok as Hok'.
  apply ReserveWallet_Ok in Hok as (Hh & w & sums & sp & bal & cash & bonus & req & Hw' & _ & Hs & Hsp & Hchk & Hbal
    & Hsplit & _ & _ & _ & _ & Hins & Hrv).
  rewrite Hw in Hw'. injection Hw' as <-. fold wid in Hs, Hsp, Hins, Hrv, Hfit.
  destruct Hfit as (Hav & Htot & Hm1 & Hm2 & Hm3 & Hhold).
  destruct (derived_balance _ _ _ _ _ Hs Hbal Hav) as (Ec & Eb & Hc & Hb).
  apply sql_int_Ok in Hsp as [-> _]. rewrite Hc, Hb in Hchk. unfold add64 in Hchk. 
  rewrite (wrap64_id (_ + frozen wid WalletCash db)) in Hchk by done. rewrite wrap64_id in Hchk by done.
  apply CheckWalletSpend_iff in Hchk as (limit & Hset & _ & _ & Hle); [|done].
  assert (cash + bonus = rw_HoldMicros cmd /\ 0 <= cash <= Z.max 0 (available wid WalletCash db) /\
    0 <= bonus <= Z.max 0 (available wid WalletBonus db) /\
    (cash = 0 \/ bonus = Z.max 0 (available wid WalletBonus db))) as (H1 & H2 & H3 & H4).
  { destruct (Z.ltb_spec 0 (rw_HoldMicros cmd)) in Hsplit; [|injection Hsplit as <- <-; lia].
    rewrite Ec, Eb in Hsplit. apply SplitFreeze_Ok in Hsplit as (_ & _ & ? & ? & ? & ?); [lia|apply Hav..|done|i64]. }
  exists cash, bonus, limit. split; [done|]. split; [lia|]. do 4 (split; [done|]).
  set (h := mkHold _ _ _ _ _ _ _ _) in *. apply insert_hold_frame in Hins as (_ & Hnew & _).
  apply insert_reservation_Ok in Hrv as (_ & _ & _ & _ & _ & _ & _ & Hdb).
  assert (forall o src, available o src db' = available o src db - (if decide (o = wid) then part src h else 0)) as Hav'.
  { intros o src. apply (available_new_hold db db' h o src Hnew); [done|by rewrite Hdb..]. }
  split; [|split].
  - rewrite Hav', decide_True by done. done.
  - rewrite Hav', decide_True by done. done.
  - intros o src Hne. rewrite Hav', decide_False by done. lia.
Qed.

(** ** Freezes over the life of a store *)

Record holds_ok (hs : gmap string WalletHold) : Prop := {
  ho_row : forall id h, hs !! id = Some h -> wh_ID h = id /\ 0 <= wh_CashMicros h /\ 0 <= wh_BonusMicros h /\
    wh_CashMicros h + wh_BonusMicros h = wh_AmountMicros h;
  ho_unique : forall i j h k, hs !! i = Some h -> hs !! j = Some k -> wh_RequestID h = wh_RequestID k -> i = j;
}.

(** Everything of a freeze but its state. *)
Definition wh_core (h : WalletHold) : WalletHold := set_wh_State ReservationHeld h.

Lemma holds_ok_core hs hs' : wh_core <$> hs' = wh_core <$> hs -> holds_ok hs -> holds_ok hs'.
Proof.
  intros Hc [HR HU].
  assert (forall id h', hs' !! id = Some h' -> exists h, hs !! id = Some h /\ wh_core h' = wh_core h) as Hback.
  { intros id h' Hh'. apply (f_equal (.!! id)) in Hc. rewrite !lookup_fmap, Hh' in Hc. simpl in Hc.
    destruct (hs !! id) as [h|]; [|done]. simpl in Hc. injection Hc. intros. exists h. split; [done|].
    unfold wh_core, set_wh_State. congruence. }
  split.
  - intros id h' (h & Hh & [=])%Hback. specialize (HR _ _ Hh). intuition congruence.
  - intros i j h' k' (h & Hh & [=])%Hback (k & Hk & [=])%Hback He. apply (HU i j h k); congruence.
Qed.

Definition held_by (rid : string) (h : WalletHold) : bool :=
  bool_decide (wh_RequestID h = rid) && bool_decide (wh_State h = ReservationHeld).
Definition free (rid : string) (h : WalletHold) : WalletHold :=
  if held_by rid h then set_wh_State ReservationReleased h else h.

Lemma release_target_holds rid rv db db' : release_target rid rv db = Ok db' ->
  entries db' = entries db /\
  if bool_decide (rv_TargetKind rv = TargetWallet)
  then (exists id h, holds db !! id = Some h /\ held_by rid h = true) /\ holds db' = free rid <$> holds db
  else holds db' = holds db.
Proof.
  unfold release_target. intros H. destruct (rv_TargetKind rv) eqn:E;
    [rewrite bool_decide_eq_false_2 by done; destruct (deref _) in H; [|done]; simpl in H;
     destruct (_ !! _) in H; [|done]; by inv_ok..|].
  rewrite bool_decide_eq_true_2 by done. unfold releaseWalletLocked in H.
  destruct (rows (holds db) _) as [|h l] eqn:Er in H; [done|]. injection H as <-. split; [done|]. split; [|done].
  assert (h ∈ rows (holds db) (held_by rid)) as Hin by (unfold held_by; rewrite Er; by left).
  unfold rows in Hin. apply list_elem_of_In, List.filter_In in Hin as [Hin Hp].
  apply list_elem_of_In, list_elem_of_fmap in Hin as ([id h'] & -> & Hin%elem_of_map_to_list). eauto.
Qed.

Lemma free_core rid (hs : gmap string WalletHold) : wh_core <$> (free rid <$> hs) = wh_core <$> hs.
Proof.
  rewrite <- map_fmap_compose. apply map_fmap_ext. intros id h _. simpl. unfold free. by destruct (held_by rid h).
Qed.

Lemma release_one_holds rid db rv db' : release_one rid db rv = Ok db' ->
  entries db' = entries db /\
  if bool_decide (rv_TargetKind rv = TargetWallet)
  then (exists id h, holds db !! id = Some h /\ held_by rid h = true) /\ holds db' = free rid <$> holds db
  else holds db' = holds db.
Proof.
  unfold release_one. intros H. apply rbind_Ok in H as (db1 & H1%release_target_holds & H2).
  by apply flip_reservation_Ok in H2 as (rv' & _ & _ & ->).
Qed.

(** After the loop of a release the freezes are those of the loop. *)
Lemma release_loop rid b now db db' : releaseLocked rid b now db = Ok db' ->
  exists db1, rfold (release_one rid) db (loadHeldReservations rid db) = Ok db1 /\
    loadHeldReservations rid db <> [] /\ entries db' = entries db1 /\ holds db' = holds db1.
Proof.
  unfold releaseLocked. intros H. apply rbind_Ok in H as (r & _ & H). apply rbind_Ok in H as ([] & _ & H).
  destruct (_ || _) in H; [done|]. destruct (_ && _) in H; [done|].
  destruct (bool_decide _) eqn:Hne in H; [done|]. apply bool_decide_eq_false in Hne.
  apply rbind_Ok in H as (db1 & H1 & H). apply rbind_Ok in H as (db2 & H2 & H3). exists db1. do 2 (split; [done|]).
  assert (entries db2 = entries db1 /\ holds db2 = holds db1) as [<- <-].
  { destruct (five_hour_of _); [|by injection H2 as ->].
    by apply voidUnused_Ok in H2 as [->|(w & _ & _ & _ & _ & _ & ->)]. }
  unfold updateRequestStatus in H3. destruct (_ !! _) in H3; [|done]. injection H3 as <-. by destruct b.
Qed.

Lemma release_same_holds rid b now db db' : releaseLocked rid b now db = Ok db' ->
  entries db' = entries db /\ wh_core <$> holds db' = wh_core <$> holds db.
Proof.
  intros (db1 & H & _ & -> & ->)%release_loop.
  eapply (rfold_rel (fun d d' => entries d' = entries d /\ wh_core <$> holds d' = wh_core <$> holds d)); [| | |exact H].
  - done.
  - intros ??? [? ?] [? ?]. split; congruence.
  - intros rv d d' _ [He Hh]%release_one_holds. split; [done|].
    destruct (bool_decide _); [|by rewrite Hh]. destruct Hh as [_ ->]. apply free_core.
Qed.

(** ** Settling a freeze *)

Lemma find_hold_Some rid db h : find_hold rid db = Some h ->
  wh_RequestID h = rid /\ exists id, holds db !! id = Some h.
Proof.
  unfold find_hold. intros H. assert (h ∈ rows (holds db) (fun h => bool_decide (wh_RequestID h = rid))) as Hin.
  { destruct (rows _ _); [done|]. injection H as ->. by left. }
  unfold rows in Hin. apply list_elem_of_In, List.filter_In in Hin as [Hin Hp]. bool_prop.
  apply list_elem_of_In, list_elem_of_fmap in Hin as ([id h'] & -> & Hin%elem_of_map_to_list). eauto.
Qed.

(** A consumption part debits its source of the hold's wallet. *)
Lemma write_consume_value h cur now src m db db' :
  write_consume h cur now src m db = Ok db' ->
  holds db' = holds db /\
  forall wid s, ledger_value wid s db' = ledger_value wid s db
    - (if decide (wid = wh_WalletID h /\ s = src) then m else 0).
Proof.
  unfold write_consume. intros H. destruct (Z.eqb_spec m 0) as [->|Hm].
  - injection H as <-. split; [done|]. intros. destruct (decide _); lia.
  - apply rbind_Ok in H as (mm & _ & H). apply rbind_Ok in H as ([] & _ & H%insert_entry_frame). subst db'.
    split; [done|]. intros wid s. erewrite ledger_value_snoc; [|reflexivity]. unfold entry_effect. simpl.
    destruct (decide _) as [[-> ->]|Hne]; [by rewrite !bool_decide_eq_true_2|].
    destruct (decide (wh_WalletID h = wid)) as [E1|E1]; [|rewrite bool_decide_eq_false_2 by done; simpl; lia].
    destruct (decide (src = s)) as [E2|E2]; [by destruct Hne|].
    rewrite (bool_decide_eq_false_2 (src = s)), andb_false_r by done. lia.
Qed.

Lemma settleWalletLocked_value rid charge now db db' :
  settleWalletLocked rid charge now db = Ok db' -> holds_ok (holds db) -> Micros charge <= max_int64 ->
  exists h bonus, holds db !! wh_ID h = Some h /\ wh_RequestID h = rid /\ wh_State h = ReservationHeld /\
    holds db' = <[wh_ID h := set_wh_State ReservationSettled h]> (holds db) /\
    0 <= Micros charge /\ bonus = Z.min (Micros charge) (wh_BonusMicros h) /\
    forall wid src, ledger_value wid src db' = ledger_value wid src db
      - (if decide (wid = wh_WalletID h) then
           match src with WalletBonus => bonus | WalletCash => Micros charge - bonus | _ => 0 end else 0).
Proof.
  unfold settleWalletLocked. intros H [HR _] Hmax. destruct (find_hold rid db) as [h|] eqn:Hf; [|done].
  apply find_hold_Some in Hf as (Hrid & id & Hl). destruct (HR _ _ Hl) as (<- & Hc & Hb & _).
  apply rbind_Ok in H as (w & _ & H). destruct (bool_decide _) in H; [|done].
  apply rbind_Ok in H as ([[cc cb] ec] & Hs & H).
  assert (cb = Z.min (Micros charge) (wh_BonusMicros h)) as Hcb by (unfold SplitConsume in Hs; by inv_ok).
  apply SplitConsume_Ok in Hs as (Hch & Hsum & Hcc & Hcb' & Hec & _); [|done..].
  assert (add64 cc ec = Micros charge - cb) as Hadd by (unfold add64; rewrite wrap64_id by i64; lia).
  apply rbind_Ok in H as (d1 & [Hh1 Hv1]%write_consume_value & H).
  apply rbind_Ok in H as (d2 & [Hh2 Hv2]%write_consume_value & H).
  destruct (bool_decide _) eqn:Hst in H; [|done]. apply bool_decide_eq_true in Hst. injection H as <-.
  exists h, cb. split_and!; try done; [by simpl; rewrite Hh2, Hh1|].
  intros wid src. transitivity (ledger_value wid src d2); [done|]. rewrite Hv2, Hv1, Hadd.
  destruct (decide (wid = wh_WalletID h)) as [->|Hne].
  - destruct src; clear -Hcc; repeat case_decide; try lia; exfalso; intuition done.
  - rewrite !decide_False by (by intros []). lia.
Qed.

Lemma settle_one_quiet charge db rv db' : settle_one charge db rv = Ok db' -> quiet db db'.
Proof.
  intros H. unfold settle_one in H. apply rbind_Ok in H as (db1 & H1 & H2).
  apply flip_reservation_Ok in H2 as (rv' & _ & _ & ->).
  apply settle_target_Ok in H1 as [(wid & w & _ & _ & Hw & _ & _ & ->)|(kid & k & _ & Hk & ->)]; by apply quiet_same.
Qed.

(** A settlement touches the wallet only on the wallet's charge source. *)
Lemma Settle_wallet cmd now db db' : Settle cmd now db = Ok db' ->
  exists r, requests db !! sc_RequestID cmd = Some r /\
  if bool_decide (r_ChargeSource r = Some ChargeSourceWallet)
  then exists charge d1 d2, Micros charge = sc_ChargeMicros cmd /\
    settleWalletLocked (sc_RequestID cmd) charge now d1 = Ok d2 /\
    holds d1 = holds db /\ entries d1 = entries db /\ holds db' = holds d2 /\ entries db' = entries d2
  else holds db' = holds db /\ entries db' = entries db.
Proof.
  unfold Settle, select_one. intros H. destruct (_ <? _) in H; [done|].
  destruct (requests db !! sc_RequestID cmd) as [r|]; [|done]. exists r. split; [done|]. simpl in H.
  destruct (finalized r); [done|]. destruct (bool_decide _).
  - unfold settleWallet in H. destruct (_ <? _) in H; [done|].
    apply rbind_Ok in H as (db1 & [F1 _]%insertUsageRecord_frame & H).
    apply rbind_Ok in H as (charge & _ & H). destruct (_ =? _) eqn:Hc in H; [|done]. apply Z.eqb_eq in Hc.
    apply rbind_Ok in H as (db2 & [F2 _]%insert_ledger_Ok & H).
    apply rbind_Ok in H as (db3 & H3 & H). apply rbind_Ok in H as (db4 & H4 & H).
    apply rbind_Ok in H as (db5 & F5%settle_attempt_cost_frame & H6).
    unfold settle_wallet_reservation in H4. destruct (rows _ _) in H4; [done|]. injection H4 as F4.
    unfold settle_request in H6. apply rbind_Ok in H6 as ([] & _ & [= F6]).
    exists charge, db2, db3. rewrite <- F6. simpl. rewrite F5. simpl. rewrite <- F4.
    by split_and!; try done; rewrite F2, F1.
  - unfold settlePlan in H. apply rbind_Ok in H as (db1 & [F1 _]%insertUsageRecord_frame & H).
    apply rbind_Ok in H as (db2 & [F2 _]%insert_ledger_Ok & H). destruct (bool_decide _) in H; [done|].
    apply rbind_Ok in H as (db3 & H3 & H). apply rbind_Ok in H as (db4 & F4%settle_attempt_cost_frame & H5).
    unfold settle_request in H5. apply rbind_Ok in H5 as ([] & _ & [= F5]).
    assert (quiet db2 db3) as (He & Hh & _).
    { eapply rfold_rel; [intros ?; reflexivity|intros ???; by etrans| |exact H3]. intros. by eapply settle_one_quiet. }
    rewrite <- F5. simpl. rewrite F4. simpl. by rewrite Hh, He, F2, F1.
Qed.

Lemma holds_ok_step db db' : store_step db db' -> holds_ok (holds db) -> holds_ok (holds db').
Proof.
  intros [(_ & H & _)|[[H _]|[(h & rv & now & cmd & adm & H)|[(rid & b & now & H)|(cmd & now & Hr & H)]]]]%step_shape Hok.
  - by rewrite H.
  - rewrite H. done.
  - apply ReserveWallet_Ok in H as (_ & ? & ? & ? & ? & ? & ? & ? & _ & _ & _ & _ & _ & _ & _ & _ & _ & _ & _ & Hins & Hrv).
    apply insert_hold_frame in Hins as (_ & Hn & ? & ? & ? & Hu).
    apply insert_reservation_Ok in Hrv as (_ & _ & _ & _ & _ & _ & _ & ->). simpl in *. destruct Hok as [HR HU]. split.
    + intros id k [[<- <-]|[_ ?]]%lookup_insert_Some; [done|by apply HR].
    + intros i j h1 h2 [[<- <-]|[_ L1]]%lookup_insert_Some [[<- <-]|[_ L2]]%lookup_insert_Some He; simpl in He; eauto.
      * by destruct (Hu _ _ L2).
      * by destruct (Hu _ _ L1).
  - apply release_same_holds in H as [_ H]. by eapply holds_ok_core.
  - apply Settle_wallet in H as (r & _ & H). destruct (bool_decide _); [|by destruct H as [-> _]].
    destruct H as (charge & d1 & d2 & Hc & Hs & Hh1 & _ & -> & _). rewrite <- Hh1 in Hok.
    destruct (settleWalletLocked_value _ _ _ _ _ Hs Hok) as (h & b & Hl & _ & _ & -> & _); [i64|].
    eapply holds_ok_core; [|exact Hok]. rewrite fmap_insert. apply insert_id. by rewrite lookup_fmap, Hl.
Qed.

Lemma holds_ok_reachable db : reachable db -> holds_ok (holds db).
Proof.
  intros (db0 & (_ & _ & _ & _ & _ & Hh & _) & Hs).
  assert (holds_ok (holds db0)) as Hok by (rewrite Hh; split; intros *; by rewrite lookup_empty).
  clear Hh. induction Hs; eauto using holds_ok_step.
Qed.

(** C12: SETTLED. Settling a wallet request debits its wallet by exactly the
    charge (bonus up to the frozen bonus, the rest cash) and dissolves its
    freeze, so the available total moves by the freeze minus the charge; no
    other wallet moves, and a plan-charged request moves none. *)
Theorem wallet_settle_exact (db db' : DB) (cmd : SettleCommand) (now : instant) (r : Request)
    (Hreach : reachable db) (Hrange : in_int64 (sc_ChargeMicros cmd))
    (Hr : requests db !! sc_RequestID cmd = Some r) (Hok : Settle cmd now db = Ok db') :
  if bool_decide (r_ChargeSource r = Some ChargeSourceWallet) then
    exists h, holds db !! wh_ID h = Some h /\ wh_RequestID h = sc_RequestID cmd /\ wh_State h = ReservationHeld /\
      let wid := wh_WalletID h in let bonus := Z.min (sc_ChargeMicros cmd) (wh_BonusMicros h) in
      available wid WalletBonus db' = available wid WalletBonus db + wh_BonusMicros h - bonus /\
      available wid WalletCash db' = available wid WalletCash db + wh_CashMicros h - (sc_ChargeMicros cmd - bonus) /\
      available wid WalletCash db' + available wid WalletBonus db'
      = available wid WalletCash db + available wid WalletBonus db + wh_AmountMicros h - sc_ChargeMicros cmd /\
      (forall other src, other <> wid -> available other src db' = available other src db)
  else forall wid src, available wid src db' = available wid src db.
Proof.
  apply holds_ok_reachable in Hreach as Hh. destruct (Settle_wallet _ _ _ _ Hok) as (r' & Hr' & H).
  rewrite Hr in Hr'. injection Hr' as <-. destruct (bool_decide _).
  - destruct H as (charge & d1 & d2 & Hc & Hs & Hh1 & He1 & Hh' & He'). rewrite <- Hh1 in Hh.
    destruct (settleWalletLocked_value _ _ _ _ _ Hs Hh) as (h & b & Hl & Hrid & Hst & Hu & _ & Hb & Hv); [i64|].
    rewrite Hh1 in Hl. destruct (ho_row _ Hh (wh_ID h) h) as (_ & _ & _ & Hsum); [by rewrite Hh1|].
    assert (forall o src, available o src db' = available o src db + (if decide (o = wh_WalletID h) then
      part src h - match src with WalletBonus => b | WalletCash => Micros charge - b | _ => 0 end else 0)) as Hav.
    { intros o src. unfold available, frozen. erewrite (held_sum_update _ _ db db'); [|exact Hl|by rewrite Hh', Hu, Hh1].
      assert (ledger_value o src db' = ledger_value o src d2) as -> by (unfold ledger_value; by rewrite He').
      assert (ledger_value o src d1 = ledger_value o src db) as E1 by (unfold ledger_value; by rewrite He1).
      rewrite Hv, E1. unfold hold_on. rewrite Hst. simpl. rewrite andb_false_r, andb_true_r.
      destruct (decide (o = _)) as [->|]; [rewrite bool_decide_eq_true_2 by done|rewrite bool_decide_eq_false_2 by congruence]; lia. }
    rewrite Hc in Hav, Hb. exists h. do 3 (split; [done|]). cbv zeta. rewrite !Hav, !decide_True by done. simpl.
    split_and!; [lia..|]. intros o src Hne. rewrite Hav, decide_False by done. lia.
  - intros wid src. destruct H as [Hh' He']. unfold available, frozen, ledger_value, held_sum. by rewrite Hh', He'.
Qed.

(** ** Releasing a freeze *)

Lemma free_one rid hs id h : holds_ok hs -> hs !! id = Some h -> held_by rid h = true ->
  free rid <$> hs = <[id := set_wh_State ReservationReleased h]> hs.
Proof.
  intros [_ HU] Hl Hh. apply map_eq. intros j. rewrite lookup_fmap. destruct (decide (j = id)) as [->|Hne].
  - rewrite Hl, lookup_insert_eq. simpl. unfold free. by rewrite Hh.
  - rewrite lookup_insert_ne by done. destruct (hs !! j) as [k|] eqn:Hk; [|done]. simpl. unfold free.
    destruct (held_by rid k) eqn:E; [|done]. unfold held_by in *. bool_prop. destruct Hne. eapply HU; [done..|congruence].
Qed.

Lemma free_idem rid (hs : gmap string WalletHold) : free rid <$> (free rid <$> hs) = free rid <$> hs.
Proof.
  rewrite <- map_fmap_compose. apply map_fmap_ext. intros id h _. simpl. unfold free.
  destruct (held_by rid h) eqn:E; [|by rewrite E]. unfold held_by. simpl. by rewrite andb_false_r.
Qed.

(** Every held row of a wallet request is the wallet's. *)
Lemma release_wallet_loop rid rvs db db1 : rvs <> [] -> (forall rv, rv ∈ rvs -> rv_TargetKind rv = TargetWallet) ->
  rfold (release_one rid) db rvs = Ok db1 ->
  (exists id h, holds db !! id = Some h /\ held_by rid h = true) /\
  holds db1 = free rid <$> holds db /\ entries db1 = entries db.
Proof.
  intros Hne Hk H. destruct rvs as [|rv rvs]; [done|]. simpl in H. apply rbind_Ok in H as (d & H1 & H).
  apply release_one_holds in H1 as [He H1]. rewrite bool_decide_eq_true_2 in H1 by (apply Hk; by left).
  destruct H1 as [Hex Hh]. split; [done|]. rewrite <- Hh, <- He. clear He Hne Hex.
  assert (free rid <$> holds d = holds d) as Hfix by (rewrite Hh; apply free_idem). clear Hh db.
  revert d Hfix H. induction rvs as [|v rvs IH]; intros d Hfix H; simpl in H; [injection H as <-; done|].
  apply rbind_Ok in H as (d' & [He Hh]%release_one_holds & H).
  rewrite bool_decide_eq_true_2 in Hh by (apply Hk; right; by left). destruct Hh as [_ Hh]. rewrite Hfix in Hh.
  assert (forall rv0, rv0 ∈ rv :: rvs -> rv_TargetKind rv0 = TargetWallet) as Hk'.
  { intros x [->|Hx]%elem_of_cons; apply Hk; [by left|]. by do 2 right. }
  destruct (IH Hk' d') as [-> ->]; [by rewrite Hh|done|]. by rewrite Hh, He.
Qed.

(** Releasing a wallet request gives its wallet back exactly the
    frozen composition, source by source, and moves no other wallet. *)
Theorem wallet_release_exact (db db' : DB) (rid : string) (fromRec : bool) (now : instant) (r : Request)
    (Hreach : reachable db) (Hr : requests db !! rid = Some r)
    (Hw : r_ChargeSource r = Some ChargeSourceWallet)
    (Hok : releaseLocked rid fromRec now db = Ok db') :
  exists h, holds db !! wh_ID h = Some h /\ wh_RequestID h = rid /\ wh_State h = ReservationHeld /\
    forall wid src, available wid src db'
      = available wid src db + (if decide (wid = wh_WalletID h) then part src h else 0).
Proof.
  apply holds_ok_reachable in Hreach as Hh. apply reachable_inv in Hreach as [_ R].
  apply release_loop in Hok as (db1 & Hloop & Hne & He' & Hh').
  apply release_wallet_loop in Hloop as ((id & h & Hl & Hb) & Hfree & He); [|done|].
  2:{ intros rv (Hheld & i & Hi)%loadHeld_elem. destruct (ro_row _ _ _ R _ _ Hi) as (c & Hc & _ & Hk & _).
      apply Hk. unfold held_of in Hheld. bool_prop. rewrite H, (cores_lookup _ _ _ Hr) in Hc. by injection Hc as <-. }
  rewrite (free_one _ _ _ _ Hh Hl Hb) in Hfree. destruct (ho_row _ Hh _ _ Hl) as (Hid & _).
  unfold held_by in Hb. bool_prop. exists h. rewrite Hid. do 3 (split; [done|]). intros wid src.
  unfold available, frozen, ledger_value. rewrite He', He.
  erewrite (held_sum_update _ _ db db'); [|exact Hl|by rewrite Hh'].
  unfold hold_on. simpl. rewrite H0. simpl. rewrite andb_false_r, andb_true_r.
  destruct (decide (wid = _)) as [->|]; [rewrite bool_decide_eq_true_2 by done|rewrite bool_decide_eq_false_2 by congruence]; lia.
Qed.

(** ** Entries over the life of a store *)

Definition entries_grow (db db' : DB) : Prop := exists l, entries db' = entries db ++ l.

#[global] Instance entries_grow_preorder : PreOrder entries_grow.
Proof.
  split; [intros db; exists []; by rewrite app_nil_r|].
  intros d1 d2 d3 [l1 H1] [l2 H2]. exists (l1 ++ l2). by rewrite H2, H1, app_assoc.
Qed.

Lemma entries_same db db' : entries db' = entries db -> entries_grow db db'.
Proof. intros H. exists []. by rewrite H, app_nil_r. Qed.

Lemma write_consume_grow h cur now src m db db' : write_consume h cur now src m db = Ok db' -> entries_grow db db'.
Proof.
  unfold write_consume. intros H. destruct (m =? 0); [injection H as <-; reflexivity|].
  apply rbind_Ok in H as (mm & _ & H). apply rbind_Ok in H as ([] & _ & ->%insert_entry_frame). by eexists.
Qed.

Lemma settleWalletLocked_grow rid charge now db db' : settleWalletLocked rid charge now db = Ok db' -> entries_grow db db'.
Proof.
  unfold settleWalletLocked. intros H. destruct (find_hold rid db) as [h|]; [|done].
  apply rbind_Ok in H as (w & _ & H). destruct (bool_decide _) in H; [|done].
  apply rbind_Ok in H as ([[cc cb] ec] & _ & H).
  apply rbind_Ok in H as (d1 & H1%write_consume_grow & H). apply rbind_Ok in H as (d2 & H2%write_consume_grow & H).
  destruct (bool_decide _) in H; [|done]. injection H as <-. etrans; [exact H1|exact H2].
Qed.

(** The entry table is append-only. *)
Lemma entries_step db db' : store_step db db' -> entries_grow db db'.
Proof.
  intros [(H & _ & _)|[(_ & _ & H)|[(h & rv & now & cmd & adm & H)|[(rid & b & now & H)|(cmd & now & Hr & H)]]]]%step_shape.
  - by apply entries_same.
  - done.
  - apply ReserveWallet_Ok in H as (_ & ? & ? & ? & ? & ? & ? & ? & _ & _ & _ & _ & _ & _ & _ & _ & _ & _ & _ & _ & Hrv).
    apply insert_reservation_Ok in Hrv as (_ & _ & _ & _ & _ & _ & _ & ->). by apply entries_same.
  - apply release_same_holds in H as [H _]. by apply entries_same.
  - apply Settle_wallet in H as (r & _ & H). destruct (bool_decide _); [|destruct H as [_ H]; by apply entries_same].
    destruct H as (charge & d1 & d2 & _ & [l Hl]%settleWalletLocked_grow & _ & He1 & _ & He).
    exists l. by rewrite He, Hl, He1.
Qed.

Lemma entries_steps db db' : rtc store_step db db' -> entries_grow db db'.
Proof. induction 1; [reflexivity|]. etrans; [by apply entries_step|done]. Qed.

(** An entry with a key is there. *)
Definition booked (key : string) (db : DB) : Prop := exists e, e ∈ entries db /\ we_BusinessKey e = key.

Lemma booked_later key db db' : booked key db -> entries_grow db db' -> booked key db'.
Proof. intros (e & He & ?) [l Hl]. exists e. rewrite Hl. split; [|done]. apply elem_of_app. by left. Qed.

Lemma insert_entry_booked e db db' : insert_entry e db = Ok db' -> ~ booked (we_BusinessKey e) db /\ booked (we_BusinessKey e) db'.
Proof.
  intros H. split.
  - intros (o & Ho & Hk). unfold insert_entry in H. apply rbind_Ok in H as ([] & _ & H).
    apply rbind_Ok in H as ([] & Hu%unique_Ok & _). rewrite forallb_forall in Hu.
    apply list_elem_of_In, Hu in Ho. by rewrite Hk, bool_decide_eq_true_2 in Ho.
  - apply insert_entry_frame in H as ->. exists e. split; [|done]. apply elem_of_app. right. by apply list_elem_of_singleton.
Qed.

(** The key each money movement books under. *)
Lemma CreditTopupTx_key newID now cmd db db' : CreditTopupTx newID now cmd db = Ok db' ->
  ~ booked (WalletTopupKey (wt_PaymentID cmd)) db /\ booked (WalletTopupKey (wt_PaymentID cmd)) db'.
Proof.
  unfold CreditTopupTx. intros H. apply rbind_Ok in H as (m & _ & H). destruct (_ <=? _) in H; [done|].
  apply rbind_Ok in H as ([] & _ & H). apply rbind_Ok in H as ([] & _ & H).
  apply rbind_Ok in H as ([[w0 b] db1] & F%getOrCreateWalletLocked_frame & H).
  apply rbind_Ok in H as (w1 & _ & [Hn Hb]%insert_entry_booked). split; [|done]. simpl in Hn.
  intros Hk. apply Hn. destruct Hk as (e & He & ?). exists e. rewrite F. done.
Qed.

Lemma RefundWalletTx_key now cmd db db' : RefundWalletTx now cmd db = Ok db' ->
  ~ booked (WalletRefundKey (wf_RefundID cmd)) db /\ booked (WalletRefundKey (wf_RefundID cmd)) db'.
Proof.
  unfold RefundWalletTx. intros H. apply rbind_Ok in H as (m & _ & H). destruct (_ <=? _) in H; [done|].
  apply rbind_Ok in H as ([] & _ & H). apply rbind_Ok in H as ([] & _ & H).
  by apply rbind_Ok in H as (w & _ & H%insert_entry_booked).
Qed.

Lemma ApplyWalletAdjustmentTx_key w a now cmd db adj db' : ApplyWalletAdjustmentTx w a now cmd db = Ok (adj, db') ->
  ~ booked (WalletAdjustmentKey (wj_IdempotencyKey cmd)) db /\ booked (WalletAdjustmentKey (wj_IdempotencyKey cmd)) db'.
Proof.
  unfold ApplyWalletAdjustmentTx. cbv zeta. intros H. destruct (_ || _) in H; [done|].
  apply rbind_Ok in H as (m & _ & H). destruct (_ <=? _) in H; [done|].
  apply rbind_Ok in H as ([] & _ & H). apply rbind_Ok in H as ([] & _ & H).
  apply rbind_Ok in H as ([[w0 b] db1] & F%getOrCreateWalletLocked_frame & H).
  apply rbind_Ok in H as (w1 & _ & H). apply rbind_Ok in H as (db2 & (F2 & _)%insert_adjustment_frame & H).
  apply rbind_Ok in H as (db3 & [Hn Hb]%insert_entry_booked & H). injection H as _ <-. split; [|done]. simpl in Hn.
  intros Hk. apply Hn. destruct Hk as (e & He & ?). exists e. rewrite F2, F. done.
Qed.

(** What a reversal writes. *)
Lemma ReverseWalletEntryTx_Ok acc eid op now db db' : ReverseWalletEntryTx acc eid op now db = Ok db' ->
  ~ booked (WalletReversalKey eid) db /\ booked (WalletReversalKey eid) db' /\
  exists o e, List.find (fun e => we_ID e =? eid) (entries db) = Some o /\ we_EntryType o <> EntryReversal /\
    entries db' = entries db ++ [e] /\ holds db' = holds db /\ we_EntryType e = EntryReversal /\
    we_ReversesEntryID e = Some eid /\ forall wid src, entry_effect wid src e = - entry_effect wid src o.
Proof.
  unfold ReverseWalletEntryTx. intros H. apply rbind_Ok in H as ([] & _ & H).
  destruct (List.find _ _) as [o|] in H |- *; [|done].
  apply rbind_Ok in H as (w & _ & H). destruct (bool_decide _) in H; [|done].
  apply rbind_Ok in H as (m & Hm & H). apply rbind_Ok in H as (rev & Hrev & H).
  apply rbind_Ok in H as (w' & _ & H). pose proof (insert_entry_booked _ _ _ H) as [Hn Hb].
  apply insert_entry_frame in H. split; [exact Hn|]. split; [exact Hb|]. exists o. eexists.
  assert (Micros m = we_AmountMicros o) as Hamt by (unfold NewMoney in Hm; by inv_ok).
  unfold ReversalOf in Hrev. simpl in Hrev. destruct (bool_decide _) eqn:Ht in Hrev; [done|].
  apply bool_decide_eq_false in Ht. injection Hrev as <-. simpl in H.
  do 2 (split; [done|]). split; [by rewrite H|]. split; [by rewrite H|]. do 2 (split; [done|]).
  intros wid src. unfold entry_effect. simpl. rewrite Hamt. destruct (_ && _); [|lia]. destruct (we_Direction o); lia.
Qed.

(** Money moves once per business event: after a top-up of a
    payment, a refund, an adjustment under an idempotency key or a reversal of
    an entry has committed, a repetition fails in every later store, whatever
    happened in between; the entry written stays in the table. *)
Theorem wallet_events_once (db db1 db2 : DB) (Hlater : rtc store_step db1 db2) :
  (forall id now cmd, CreditTopupTx id now cmd db = Ok db1 ->
     booked (WalletTopupKey (wt_PaymentID cmd)) db2 /\
     forall id' now' cmd', wt_PaymentID cmd' = wt_PaymentID cmd -> is_ok (CreditTopupTx id' now' cmd' db2) = false) /\
  (forall now cmd, RefundWalletTx now cmd db = Ok db1 ->
     booked (WalletRefundKey (wf_RefundID cmd)) db2 /\
     forall now' cmd', wf_RefundID cmd' = wf_RefundID cmd -> is_ok (RefundWalletTx now' cmd' db2) = false) /\
  (forall w a now cmd adj, ApplyWalletAdjustmentTx w a now cmd db = Ok (adj, db1) ->
     booked (WalletAdjustmentKey (wj_IdempotencyKey cmd)) db2 /\
     forall w' a' now' cmd', wj_IdempotencyKey cmd' = wj_IdempotencyKey cmd ->
       is_ok (ApplyWalletAdjustmentTx w' a' now' cmd' db2) = false) /\
  (forall acc eid op now, ReverseWalletEntryTx acc eid op now db = Ok db1 ->
     booked (WalletReversalKey eid) db2 /\
     forall acc' op' now', is_ok (ReverseWalletEntryTx acc' eid op' now' db2) = false).
Proof.
  apply entries_steps in Hlater. split_and!.
  - intros id now cmd [_ Hb]%CreditTopupTx_key. apply (booked_later _ _ db2) in Hb; [|done]. split; [done|].
    intros id' now' cmd' He. destruct (CreditTopupTx _ _ _ db2) eqn:E; [|done].
    apply CreditTopupTx_key in E as [Hn _]. by rewrite He in Hn.
  - intros now cmd [_ Hb]%RefundWalletTx_key. apply (booked_later _ _ db2) in Hb; [|done]. split; [done|].
    intros now' cmd' He. destruct (RefundWalletTx _ _ db2) eqn:E; [|done].
    apply RefundWalletTx_key in E as [Hn _]. by rewrite He in Hn.
  - intros w a now cmd adj [_ Hb]%ApplyWalletAdjustmentTx_key. apply (booked_later _ _ db2) in Hb; [|done]. split; [done|].
    intros w' a' now' cmd' He. destruct (ApplyWalletAdjustmentTx _ _ _ _ db2) as [[? ?]|] eqn:E; [|done].
    apply ApplyWalletAdjustmentTx_key in E as [Hn _]. by rewrite He in Hn.
  - intros acc eid op now (_ & Hb & _)%ReverseWalletEntryTx_Ok. apply (booked_later _ _ db2) in Hb; [|done]. split; [done|].
    intros acc' op' now'. destruct (ReverseWalletEntryTx _ _ _ _ db2) eqn:E; [|done].
    by apply ReverseWalletEntryTx_Ok in E as [Hn _].
Qed.

(** A reversal undoes one entry of the wallet exactly: every
    balance becomes what it would be had the entry not been written, the
    reversed entry is none itself, and nothing else changes. *)
Theorem reversal_undoes_entry (db db' : DB) (acc : string) (eid : Z) (op : string) (now : instant)
    (Hok : ReverseWalletEntryTx acc eid op now db = Ok db') :
  exists o, List.find (fun e => we_ID e =? eid) (entries db) = Some o /\ we_EntryType o <> EntryReversal /\
    forall wid src, available wid src db' = available wid src db - entry_effect wid src o.
Proof.
  apply ReverseWalletEntryTx_Ok in Hok as (_ & _ & o & e & Hf & Ht & He & Hh & _ & _ & Heff).
  exists o. do 2 (split; [done|]). intros wid src. unfold available, frozen, held_sum.
  rewrite (ledger_value_snoc _ _ _ _ _ He), Hh, Heff. lia.
Qed.

(** ** A sample wallet

    A top-up in January, an opt-in with a limit, a frozen request, its
    settlement, and the reversal of its consumption in February. *)

Definition jan : instant := Date 2024 1 20 0 0 0 0.
Definition feb : instant := Date 2024 2 5 0 0 0 0.

Definition purse_topup : WalletTopupCommand := mkTopup "acc" "USD" 100 "pay1" "order1".
Definition purse1 : DB := ok_or demo_db (CreditTopupTx "wal" jan purse_topup demo_db).
Definition purse2 : DB := (ok_or (mkWallet "" "" "" false None, purse1)
  (SetOverageTx "" "acc" "USD" true (Some 80) "user" purse1)).2.
Definition purse_request (id : string) : Request :=
  mkRequest id "acc" None "ent" "model" None None (Some "price") "pol" None None None None None
    None None (Some 10) (Some 10) [] "" 0 None.
Definition purse_reserve (id : string) (at_ : instant) (hold : Z) : ReserveWalletCommand :=
  mkReserveWallet (purse_request id) "wal" hold "price" at_ (MonthBoundsUTC at_).1 (MonthBoundsUTC at_).2.
Definition purse3 : DB :=
  (ok_or (mkAdmission "" [], purse2) (ReserveWallet "h1" "rv1" jan (purse_reserve "r1" jan 30) purse2)).2.
Definition purse_attempt : Attempt := mkAttempt "a1" "r1" 1 "" "" "" None None None None.
Definition purse4 : DB := ok_or purse3 (insertAttempt purse_attempt purse3).
Definition purse_settle : SettleCommand :=
  mkSettle "r1" (mkUsage "r1" "a1" UsageReported (mkBuckets (Some 5) None None (Some 3) None) 1) 20
    (Some (mkMoney 20 "USD")) None None None jan.
Definition purse5 : DB := ok_or purse4 (Settle purse_settle jan purse4).
Definition purse6 : DB := ok_or purse5 (ReverseWalletEntryTx "acc" 2 "ops" feb purse5).

Lemma purse_steps : initial demo_db /\ store_step demo_db purse1 /\ store_step purse1 purse2 /\
  store_step purse2 purse3 /\ store_step purse3 purse4 /\ store_step purse4 purse5 /\ store_step purse5 purse6.
Proof.
  split_and!.
  - split_and!; done.
  - eapply (st_topup _ "wal" jan purse_topup). vm_compute. reflexivity.
  - eapply (st_overage _ "" "acc" "USD" true (Some 80) "user"). vm_compute. reflexivity.
  - eapply (st_reserve_wallet _ "h1" "rv1" jan (purse_reserve "r1" jan 30)). vm_compute. reflexivity.
  - eapply (st_attempt _ purse_attempt). vm_compute. reflexivity.
  - eapply (st_settle _ purse_settle jan); [by apply is_int64_true|]. vm_compute. reflexivity.
  - eapply (st_reverse _ "acc" 2 "ops" feb). vm_compute. reflexivity.
Qed.

Lemma purse_reachable : reachable purse2 /\ reachable purse3 /\ reachable purse4 /\ reachable purse6.
Proof.
  destruct purse_steps as (Hi & H1 & H2 & H3 & H4 & H5 & H6).
  split_and!; exists demo_db; (split; [exact Hi|]); eauto 8 using rtc_l, rtc_refl.
Qed.

Lemma wallet_freeze_exact_witness : available "wal" WalletCash purse3 = 70.
Proof.
  destruct (wallet_freeze_exact "h1" "rv1" jan (purse_reserve "r1" jan 30) purse2
    (ok_or (mkAdmission "" [], purse2) (ReserveWallet "h1" "rv1" jan (purse_reserve "r1" jan 30) purse2)).1
    purse3 (mkWallet "wal" "acc" "USD" true (Some 80)))
    as (cash & bonus & limit & _ & _ & Hsum & Hc & Hb & _ & Hcash & _);
    [vm_compute; reflexivity|vm_compute; reflexivity| |].
  - split; [intros src; split; apply is_int64_true; by destruct src; vm_compute|].
    split_and!; apply is_int64_true; vm_compute; reflexivity.
  - change (wa_ID _) with "wal" in *. 
    assert (available "wal" WalletBonus purse2 = 0) as Eb by (vm_compute; reflexivity).
    assert (available "wal" WalletCash purse2 = 100) as Ec by (vm_compute; reflexivity).
    rewrite Eb in Hb. rewrite Hcash, Ec. change (rw_HoldMicros _) with 30 in Hsum. clear -Hsum Hb. lia.
Defined.

Lemma wallet_settle_exact_witness :
  exists h, wh_WalletID h = "wal" /\ available "wal" WalletCash purse5 + available "wal" WalletBonus purse5 = 80.
Proof.
  pose proof (wallet_settle_exact purse4 purse5 purse_settle jan
    (request_row (admit_request (purse_request "r1") jan 30 (Some ChargeSourceWallet) (Some "price")) jan)
    ltac:(apply purse_reachable) ltac:(by apply is_int64_true) ltac:(vm_compute; reflexivity)
    ltac:(vm_compute; reflexivity)) as H.
  change (bool_decide _) with true in H. destruct H as (h & Hl & _ & _ & _ & _ & Htot & _). exists h. assert (h = mkHold "h1" "wal" "r1" 30 30 0 "price" ReservationHeld) as ->.
  { assert (holds purse4 = {[ "h1" := mkHold "h1" "wal" "r1" 30 30 0 "price" ReservationHeld ]}) as E
      by (vm_compute; reflexivity).
    rewrite E in Hl. by apply lookup_singleton_Some in Hl as [_ ->]. }
  split; [reflexivity|]. etrans; [exact Htot|]. vm_compute. reflexivity.
Defined.

Definition purse_released : DB := ok_or purse3 (Release "r1" jan purse3).

Lemma wallet_release_exact_witness : available "wal" WalletCash purse_released = 100.
Proof.
  destruct (wallet_release_exact purse3 purse_released "r1" false jan
    (request_row (admit_request (purse_request "r1") jan 30 (Some ChargeSourceWallet) (Some "price")) jan))
    as (h & Hl & _ & _ & Hav);
    [apply purse_reachable|vm_compute; reflexivity|reflexivity|vm_compute; reflexivity|].
  assert (holds purse3 = {[ "h1" := mkHold "h1" "wal" "r1" 30 30 0 "price" ReservationHeld ]}) as E
    by (vm_compute; reflexivity).
  rewrite E in Hl. apply lookup_singleton_Some in Hl as [_ <-]. rewrite (Hav "wal" WalletCash). vm_compute. reflexivity.
Defined.

Lemma wallet_events_once_witness : is_ok (CreditTopupTx "other" feb purse_topup purse6) = false.
Proof.
  destruct purse_steps as (_ & _ & H2 & H3 & H4 & H5 & H6).
  apply (proj2 (proj1 (wallet_events_once demo_db purse1 purse6 ltac:(eauto 8 using rtc_l, rtc_refl))
    "wal" jan purse_topup ltac:(vm_compute; reflexivity))).
  reflexivity.
Defined.

Lemma reversal_undoes_entry_witness :
  available "wal" WalletCash purse5 = 80 /\ available "wal" WalletCash purse6 = 100.
Proof.
  split; [vm_compute; reflexivity|].
  destruct (reversal_undoes_entry purse5 purse6 "acc" 2 "ops" feb ltac:(vm_compute; reflexivity)) as (o & Hf & _ & Hav).
  rewrite Hav. vm_compute in Hf. injection Hf as <-. vm_compute. reflexivity.
Defined.

(** The reversal of a consumption counts in the month it is
    written, not in the month of the consumption: after a January consumption
    is reversed in February, the February spend of a wallet with 100 available
    is negative, the spend gate takes it for an invalid amount, and an
    admission of the wallet is refused as invalid input. The same admission
    is accepted when the consumption has not been reversed. *)
Theorem cross_month_reversal_blocks_wallet :
  reachable purse6 /\
  available "wal" WalletCash purse6 = 100 /\
  monthSpendLocked "wal" (MonthBoundsUTC feb).1 (MonthBoundsUTC feb).2 purse6 = Ok (-20) /\
  ReserveWallet "h2" "rv2" feb (purse_reserve "r2" feb 10) purse6
  = Err (WrapError CodeInvalidInput (ESentinel ErrNegativeValue)) /\
  is_ok (ReserveWallet "h2" "rv2" feb (purse_reserve "r2" feb 10) purse5) = true.
Proof. split; [apply purse_reachable|]. vm_compute. done. Qed.
