(* ===== verification/Admission.v ===== *)
(** * Admission: the quota gate in front of every upstream call

    [internal/inference/quota/service.go]: pricing the bounds of a call,
    resolving and activating its windows, reserving every hold and the account
    lease in one transaction, retrying a lost activation race, and releasing.

    The [Store] interface of the Go package is the class [Store]; what the
    service relies on is the class [StoreLaws], discharged for the tables of
    [Tables] at the end of the file. *)

From Stdlib Require Import ZArith Lia Bool.
From stdpp Require Import base gmap strings list relations.
From S2P Require Import Prelude Domain Money Calendar Window Policy Pricing WalletRules Principal Tables.
From S2P Require Import RequestStore QuotaStore WalletStore LedgerStore Conservation StoreInv LeaseStore.
From S2P Require Import StoreSteps StoreProps WindowHistory.

Local Open Scope Z_scope.
Local Open Scope go_scope.

(** [errors.Is(err, ErrWindowActivationConflict)]. *)
Fixpoint is_activation_conflict (e : error) : bool :=
  match e with
  | EActivationConflict _ _ => true
  | EWrapped _ cause => is_activation_conflict cause
  | _ => false
  end.

Definition maxActivationRetries : nat := 5.

(** [quota.Store]. [E] is what one transaction draws from outside the program:
    generated identifiers, [now()], and whether BEGIN and COMMIT go through. *)
Class Store (E S : Type) := {
  st_Begin : E -> option error;
  st_ActivateWindowsTx : E -> ActivateWindowsCommand -> S -> res (list QuotaWindow * S);
  st_Reserve : E -> ReserveCommand -> S -> res (Admission * S);
  st_Release : E -> string -> S -> res S;
  st_AcquireLeaseTx : E -> AcquireLeaseCommand -> S -> res (ConcurrencyLease * S);
  st_ReserveWallet : E -> ReserveWalletCommand -> S -> res (Admission * S);
  st_Commit : E -> CommitOutcome;
}.

(** ** Commands and results *)

Record AdmitCommand := mkAdmit {
  ac_Request : Request;
  ac_Entitlement : Entitlement;
  ac_Policy : Policy;
  ac_CreditPrice : PriceVersion;
  ac_Model : Model;
  ac_EstimatedInputTokens : Z;
  ac_ClientMaxTokens : option Z;
  ac_ExtraBounds : list (string * Z);
  ac_At : instant;
}.

Record AdmitWalletCommand := mkAdmitWallet {
  aw_Request : Request;
  aw_Entitlement : Entitlement;
  aw_Policy : Policy;
  aw_MoneyPrice : PriceVersion;
  aw_WalletID : string;
  aw_Model : Model;
  aw_EstimatedInputTokens : Z;
  aw_ClientMaxTokens : option Z;
  aw_ExtraBounds : list (string * Z);
  aw_WalletAt : instant;
}.

Record AdmissionResult := mkResult {
  ar_RequestID : string;
  ar_HoldMicros : Microcredit;
  ar_AdmittedAt : instant;
  ar_WindowIDs : WindowKind -> option string;
  ar_OutputCap : Z;
  ar_InputBound : Z;
  ar_PolicyID : string;
  ar_PriceID : string;
  ar_AccountLease : option ConcurrencyLease;
  ar_ChargeSource : option ChargeSource;
  ar_WalletID : string;
  ar_WalletCurrency : string;
}.

(** The configuration of the service; the store and the clock are arguments. *)
Record Service := mkService {
  sv_AccountLeaseTTL : duration;
  sv_OwnerToken : string;
}.

Definition NewService (ownerToken : string) : Service := mkService (10 * minute) ownerToken.

Definition firstNonEmpty (a b : string) : string := if bool_decide (a = "") then b else a.

(** The request as admitted: pinned revisions and bounds. *)
Definition pin_request (r : Request) (id policy price : string) (inputBound outputCap : Z)
    (extra : list (string * Z)) : Request :=
  mkRequest id (r_BillingAccountID r) (r_APIKeyID r) (r_EntitlementID r) (r_ModelID r) (r_Status r)
    (r_AdmittedAt r) (if bool_decide (price = "") then r_PriceVersionID r else Some price)
    (firstNonEmpty (r_PolicyVersionID r) policy)
    (r_WindowFiveHourID r) (r_WindowWeeklyID r) (r_WindowMonthlyID r) (r_ReservedMicros r)
    (r_SettledMicros r) (r_ChargeSource r) (r_UsageStatus r) (Some inputBound) (Some outputCap) extra
    (r_LastError r) (r_UpdatedAt r) (r_CompletedAt r).

Definition target_of_kind (k : WindowKind) : ReservationTargetKind :=
  match k with
  | WindowFiveHour => TargetWindowFiveHour
  | WindowWeekly => TargetWindowWeekly
  | WindowMonthly => TargetWindowMonthly
  end.

(** The loop variable is fresh in every turn (Go 1.22): [&w.ID] is the id of
    this window. *)
Definition window_hold (hold : Microcredit) (w : QuotaWindow) : HoldSpec :=
  mkHoldSpec (target_of_kind (w_Kind w)) (Some (w_ID w)) None None hold.

Definition window_ids (ws : list QuotaWindow) : WindowKind -> option string :=
  foldl (fun m w k => if bool_decide (k = w_Kind w) then Some (w_ID w) else m k) (fun _ => None) ws.

Definition key_hold (r : Request) (hold : Microcredit) : list HoldSpec :=
  match r_APIKeyID r with
  | Some kid => [mkHoldSpec TargetKeyBudget None (Some kid) None hold]
  | None => []
  end.

Definition limits_of (p : Policy) : WindowKind -> option Microcredit :=
  fun kind => if bool_decide (kind ∈ EnabledWindows p) then LimitFor p kind else None.

Definition with_lease (r : AdmissionResult) (l : option ConcurrencyLease) : AdmissionResult :=
  mkResult (ar_RequestID r) (ar_HoldMicros r) (ar_AdmittedAt r) (ar_WindowIDs r) (ar_OutputCap r)
    (ar_InputBound r) (ar_PolicyID r) (ar_PriceID r) l (ar_ChargeSource r) (ar_WalletID r)
    (ar_WalletCurrency r).

(** ** The service *)

Section Service.
Context {E S : Type} `{!Store E S} (svc : Service).

(** Begin, run, then Commit; every failure of the body rolls back. *)
Definition transact {A} (e : E) (body : S -> res (A * S)) (s : S) : S * res A :=
  match st_Begin e with
  | Some err => (s, Err err)
  | None =>
      match body s with
      | Err err => (s, Err err)
      | Ok (a, s') =>
          match st_Commit e with
          | Committed => (s', Ok a)
          | CommitFailed err persisted => (if persisted then s' else s, Err err)
          end
      end
  end.

(** The account-scope lease, when the policy limits concurrency. *)
Definition account_lease (e : E) (p : Policy) (account requestID : string) (at_ : instant) (s : S)
  : res (option ConcurrencyLease * S) :=
  match p_ConcurrencyLimit p with
  | None => Ok (None, s)
  | Some limit =>
      let? (l, s) := st_AcquireLeaseTx e (mkAcquire LeaseScopeBillingAccount account requestID
                       (sv_OwnerToken svc) limit (sv_AccountLeaseTTL svc) at_) s in
      Ok (Some l, s)
  end.

Definition admit_body (e : E) (cmd : AdmitCommand) (reqID : string) (at_ : instant) (hold : Microcredit)
    (inputBound outputCap : Z) (limits : WindowKind -> option Microcredit) (s : S)
  : res (AdmissionResult * S) :=
  let r := ac_Request cmd in
  let? (ws, s) := st_ActivateWindowsTx e (mkActivate (r_BillingAccountID r) (e_ID (ac_Entitlement cmd))
                    (e_AnchorAt (ac_Entitlement cmd)) at_ limits) s in
  match EvaluateAdmission (ac_Policy cmd) ws hold at_ with
  | Err err => Err (withDeficit err hold)
  | Ok _ =>
      let req := pin_request r reqID (e_PolicyVersionID (ac_Entitlement cmd)) (pv_ID (ac_CreditPrice cmd))
                   inputBound outputCap (ac_ExtraBounds cmd) in
      let holds := map (window_hold hold) ws ++ key_hold req hold in
      let? (adm, s) := st_Reserve e (mkReserve req holds at_) s in
      let result := mkResult (adm_RequestID adm) hold at_ (window_ids ws) outputCap inputBound
                      (r_PolicyVersionID req) (pv_ID (ac_CreditPrice cmd)) None None "" "" in
      let? (l, s) := account_lease e (ac_Policy cmd) (r_BillingAccountID r) (adm_RequestID adm) at_ s in
      Ok (with_lease result l, s)
  end.

Definition admitOnce (e : E) (cmd : AdmitCommand) (reqID : string) (at_ : instant) (hold : Microcredit)
    (inputBound outputCap : Z) (limits : WindowKind -> option Microcredit) (s : S)
  : S * res AdmissionResult :=
  transact e (admit_body e cmd reqID at_ hold inputBound outputCap limits) s.

(** The bounds of a call and the hold they price to. *)
Definition admit_bounds (estimated : Z) (client : option Z) (m : Model) : res (Z * Z) :=
  let? inputBound := InputBound estimated (m_ContextTokens m) in
  let? outputCap := EffectiveOutputCap client (m_MaxOutputTokens m) in
  Ok (inputBound, outputCap).

Definition admit_price (cmd : AdmitCommand) : res (Microcredit * Z * Z) :=
  let? (inputBound, outputCap) := admit_bounds (ac_EstimatedInputTokens cmd) (ac_ClientMaxTokens cmd)
                                    (ac_Model cmd) in
  let? hold := ReserveAmount (ac_CreditPrice cmd) (mkBounds inputBound outputCap (ac_ExtraBounds cmd)) in
  Ok (hold, inputBound, outputCap).

(** What the attempts of one call meet: attempt [n] runs with the outside
    inputs [env n] at clock reading [clock n], after other clients have moved
    the store by [others n]. *)
Section Attempts.
Context (env : nat -> E) (clock : nat -> instant) (others : nat -> S -> S).

Definition attempt_at (cmd : AdmitCommand) (n : nat) : instant :=
  if IsZero (ac_At cmd) then clock n else ac_At cmd.

Fixpoint admit_loop (cmd : AdmitCommand) (reqID : string) (hold : Microcredit) (inputBound outputCap : Z)
    (fuel n : nat) (lastErr : error) (s : S) : S * res AdmissionResult :=
  match fuel with
  | O => (s, Err lastErr)
  | Datatypes.S fuel =>
      let '(s, r) := admitOnce (env n) cmd reqID (attempt_at cmd n) hold inputBound outputCap
                       (limits_of (ac_Policy cmd)) (others n s) in
      match r with
      | Ok res => (s, Ok res)
      | Err err => if is_activation_conflict err
                   then admit_loop cmd reqID hold inputBound outputCap fuel (Datatypes.S n) err s
                   else (s, Err err)
      end
  end.

(** [lastErr] is overwritten by the first attempt. *)
Definition Admit (newID : string) (cmd : AdmitCommand) (s : S) : S * res AdmissionResult :=
  let reqID := if bool_decide (r_ID (ac_Request cmd) = "") then newID else r_ID (ac_Request cmd) in
  match admit_price cmd with
  | Err err => (s, Err err)
  | Ok (hold, inputBound, outputCap) =>
      admit_loop cmd reqID hold inputBound outputCap maxActivationRetries 0 EForeign s
  end.

End Attempts.

Definition wallet_body (e : E) (cmd : AdmitWalletCommand) (reqID : string) (at_ : instant) (hold : Money)
    (inputBound outputCap : Z) (s : S) : res (AdmissionResult * S) :=
  let r := aw_Request cmd in
  let '(monthStart, monthEnd) := MonthBoundsUTC at_ in
  let req := pin_request r reqID (e_PolicyVersionID (aw_Entitlement cmd)) (pv_ID (aw_MoneyPrice cmd))
               inputBound outputCap (aw_ExtraBounds cmd) in
  let? (adm, s) := st_ReserveWallet e (mkReserveWallet req (aw_WalletID cmd) (Micros hold)
                     (pv_ID (aw_MoneyPrice cmd)) at_ monthStart monthEnd) s in
  let result := mkResult (adm_RequestID adm) (Micros hold) at_ (fun _ => None) outputCap inputBound
                  (r_PolicyVersionID req) (pv_ID (aw_MoneyPrice cmd)) None (Some ChargeSourceWallet)
                  (aw_WalletID cmd) (Currency hold) in
  let? (l, s) := account_lease e (aw_Policy cmd) (r_BillingAccountID r) (adm_RequestID adm) at_ s in
  Ok (with_lease result l, s).

Definition AdmitWallet (e : E) (now : instant) (newID : string) (cmd : AdmitWalletCommand) (s : S)
  : S * res AdmissionResult :=
  let reqID := if bool_decide (r_ID (aw_Request cmd) = "") then newID else r_ID (aw_Request cmd) in
  let price := let? (inputBound, outputCap) := admit_bounds (aw_EstimatedInputTokens cmd)
                                                 (aw_ClientMaxTokens cmd) (aw_Model cmd) in
               let? hold := ReserveAmountMoney (aw_MoneyPrice cmd)
                              (mkBounds inputBound outputCap (aw_ExtraBounds cmd)) in
               Ok (hold, inputBound, outputCap) in
  match price with
  | Err err => (s, Err err)
  | Ok (hold, inputBound, outputCap) =>
      let at_ := if IsZero (aw_WalletAt cmd) then now else aw_WalletAt cmd in
      transact e (wallet_body e cmd reqID at_ hold inputBound outputCap) s
  end.

Definition ReleaseAdmission (e : E) (requestID : string) (s : S) : S * res unit :=
  transact e (fun s => let? s := st_Release e requestID s in Ok (tt, s)) s.

End Service.

(** ** Transactions and attempts *)

(** How a transaction can end. *)
Lemma transact_cases {E S A} `{!Store E S} (e : E) (body : S -> res (A * S)) s s' r :
  transact e body s = (s', r) ->
  (exists err, r = Err err /\ s' = s) \/
  (exists a s1, body s = Ok (a, s1) /\
     ((st_Commit e = Committed /\ r = Ok a /\ s' = s1) \/
      (exists err, st_Commit e = CommitFailed err true /\ r = Err err /\ s' = s1))).
Proof.
  unfold transact. destruct (st_Begin e) as [err|]; [intros [= <- <-]; left; eauto|].
  destruct (body s) as [[a s1]|err] eqn:Hb; [|intros [= <- <-]; left; eauto].
  destruct (st_Commit e) as [|err [|]] eqn:Hc; intros [= <- <-]; [right..|left; eauto]; exists a, s1; eauto 10.
Qed.

(** The store as the other clients leave it before attempt [n], when the
    attempts before it wrote nothing. *)
Definition drift {S} (others : nat -> S -> S) (n : nat) (s : S) : S :=
  foldl (fun s k => others k s) s (seq 0 n).

Lemma drift_S {S} (others : nat -> S -> S) n s :
  drift others (Datatypes.S n) s = others n (drift others n s).
Proof. unfold drift. by rewrite seq_S, foldl_app. Qed.

(** Commit errors come from the driver, never from the window activation. *)
Class CommitLaw (E S : Type) `{!Store E S} : Prop :=
  commit_error : forall e err p, st_Commit e = CommitFailed err p -> is_activation_conflict err = false.

Section Loop.
Context {E S : Type} `{!Store E S, !CommitLaw E S} (svc : Service).
Context (env : nat -> E) (clock : nat -> instant) (others : nat -> S -> S).
Context (cmd : AdmitCommand) (reqID : string) (hold : Microcredit) (inputBound outputCap : Z).

Let attempt (n : nat) (s : S) : S * res AdmissionResult :=
  admitOnce svc (env n) cmd reqID (attempt_at clock cmd n) hold inputBound outputCap
    (limits_of (ac_Policy cmd)) s.

(** A retried attempt wrote nothing. *)
Lemma conflict_writes_nothing n s s' err :
  attempt n s = (s', Err err) -> is_activation_conflict err = true -> s' = s.
Proof using CommitLaw0.
  intros H Hc. apply transact_cases in H as [(? & _ & ?)|(a & s1 & _ & [(_ & ? & _)|(err' & Hcm & [= <-] & _)])]; [done..|].
  apply commit_error in Hcm. congruence.
Qed.

Lemma admit_loop_attempt fuel n e0 s s' r :
  (0 < fuel)%nat ->
  admit_loop svc env clock others cmd reqID hold inputBound outputCap fuel n e0 (drift others n s) = (s', r) ->
  exists m, (n <= m < n + fuel)%nat /\ attempt m (drift others (Datatypes.S m) s) = (s', r) /\
    (forall k, (n <= k < m)%nat -> exists err, is_activation_conflict err = true /\
       attempt k (drift others (Datatypes.S k) s) = (drift others (Datatypes.S k) s, Err err)) /\
    (forall err, r = Err err -> is_activation_conflict err = true -> Datatypes.S m = (n + fuel)%nat).
Proof using CommitLaw0.
  revert n e0. induction fuel as [|fuel IH]; intros n e0 Hf H; [lia|].
  cbn [admit_loop] in H. rewrite <- drift_S in H. fold (attempt n (drift others (Datatypes.S n) s)) in H.
  destruct (attempt n (drift others (Datatypes.S n) s)) as [s1 r1] eqn:Ha.
  destruct r1 as [res|err].
  { injection H as <- <-. exists n. split_and!; [lia|lia|done|lia|done]. }
  destruct (is_activation_conflict err) eqn:Hc.
  2:{ injection H as <- <-. exists n. split_and!; [lia|lia|done|lia|]. intros ? [= <-]. congruence. }
  assert (s1 = drift others (Datatypes.S n) s) as -> by by eapply conflict_writes_nothing.
  destruct fuel as [|fuel].
  { injection H as <- <-. exists n. split_and!; [lia|lia|done|lia|lia]. }
  destruct (IH (Datatypes.S n) err) as (m & Hm & Hat & Hprev & Hlast); [lia|exact H|].
  exists m. split_and!; [lia|lia|done| |].
  - intros k Hk. destruct (decide (k = n)) as [->|]; [eauto|apply Hprev; lia].
  - intros err' He Hc'. rewrite (Hlast _ He Hc'). lia.
Qed.

End Loop.

(** ** What the service relies on *)

(** A request that enters the gate: no windows bound yet, not a wallet call. *)
Definition fresh_request (r : Request) : Prop :=
  r_ChargeSource r <> Some ChargeSourceWallet /\
  r_WindowFiveHourID r = None /\ r_WindowWeeklyID r = None /\ r_WindowMonthlyID r = None.

Class StoreLaws (E S : Type) `{!Store E S} := {
  (** What holds of every committed state. *)
  committed : S -> Prop;
  win_of : S -> gmap string QuotaWindow;
  key_of : S -> gmap string ApiKeyRow;
  req_of : S -> gmap string Request;
  lease_of : S -> gmap string ConcurrencyLease;
  (** Activation keeps every row and resolves at most one window per enabled
      kind; a row it adds is empty and carries the limit of the command. *)
  law_activate e cmd s ws s' :
    committed s -> st_ActivateWindowsTx e cmd s = Ok (ws, s') ->
    committed s' /\ key_of s' = key_of s /\ NoDup (w_Kind <$> ws) /\
    (forall id w, win_of s !! id = Some w -> win_of s' !! id = Some w) /\
    (forall w, w ∈ ws -> win_of s' !! w_ID w = Some w /\ w_EntitlementID w = aw_EntitlementID cmd /\
       (win_of s !! w_ID w = Some w \/
        win_of s !! w_ID w = None /\ w_Used w = 0 /\ w_Reserved w = 0 /\ aw_Limits cmd (w_Kind w) = Some (w_Limit w)));
  (** A reservation takes all its holds within the limits. *)
  law_reserve e cmd s adm s' :
    committed s -> plan_reserve cmd -> st_Reserve e cmd s = Ok (adm, s') ->
    committed s' /\ adm_RequestID adm = r_ID (rc_Request cmd) /\
    (forall id w, win_of s !! id = Some w ->
       win_of s' !! id = Some (set_w_Counters (w_Used w) (w_Reserved w + asked cmd (TWindow id)) w) /\
       (asks cmd (TWindow id) -> w_Used w + w_Reserved w + asked cmd (TWindow id) <= w_Limit w)) /\
    (forall id k, key_of s !! id = Some k ->
       key_of s' !! id = Some (mkKey (k_BudgetLimit k) (k_BudgetUsed k + asked cmd (TKey id))) /\
       (asks cmd (TKey id) -> forall l, k_BudgetLimit k = Some l -> k_BudgetUsed k + asked cmd (TKey id) <= l)) /\
    (exists r, req_of s' !! adm_RequestID adm = Some r /\ r_Status r = Some ReqReserved /\
       r_AdmittedAt r = Some (rc_AdmittedAt cmd) /\ r_PolicyVersionID r = r_PolicyVersionID (rc_Request cmd) /\
       r_PriceVersionID r = r_PriceVersionID (rc_Request cmd) /\
       r_InputBoundTokens r = r_InputBoundTokens (rc_Request cmd) /\
       r_OutputCapTokens r = r_OutputCapTokens (rc_Request cmd) /\
       (forall a, rc_Holds cmd <> [] -> Forall (fun h => h_Amount h = a) (rc_Holds cmd) ->
          r_ReservedMicros r = Some a));
  (** A lease touches neither windows, keys nor requests and respects its limit. *)
  law_lease e cmd s l s' :
    committed s -> st_AcquireLeaseTx e cmd s = Ok (l, s') ->
    committed s' /\ win_of s' = win_of s /\ key_of s' = key_of s /\ req_of s' = req_of s /\
    lease_of s' !! l_ID l = Some l /\ is_held l = true /\ l_RequestID l = al_RequestID cmd /\
    Z.of_nat (length (held_in (al_Scope cmd) (al_ScopeID cmd) (lease_of s'))) <= al_Limit cmd;
}.

(** The holds of one admission take the amount once at each window and key. *)
Section Holds.
Context (hold : Microcredit) (ws : list QuotaWindow) (r : Request) (at_ : instant).

Let cmd := mkReserve r (map (window_hold hold) ws ++ key_hold r hold) at_.

Lemma key_hold_window id : lsum (pending_at (TWindow id)) (key_hold r hold) = 0.
Proof using Type. unfold key_hold. destruct (r_APIKeyID r); [|done]. unfold lsum, pending_at. simpl. done. Qed.

Lemma hold_target_window w : hold_target (window_hold hold w) = Some (TWindow (w_ID w)).
Proof using Type. unfold hold_target, window_hold. simpl. by destruct (w_Kind w). Qed.

Lemma asked_other id : id ∉ w_ID <$> ws -> asked cmd (TWindow id) = 0.
Proof using Type.
  intros Hid. unfold asked, cmd. simpl. rewrite lsum_app, key_hold_window. clear -Hid.
  induction ws as [|w l IH]; [done|]. simpl in *. apply not_elem_of_cons in Hid as [Hne Hid]. specialize (IH Hid).
  unfold pending_at at 1. rewrite hold_target_window, bool_decide_eq_false_2 by congruence. lia.
Qed.

Lemma asked_window w : NoDup (w_ID <$> ws) -> w ∈ ws ->
  asked cmd (TWindow (w_ID w)) = hold /\ asks cmd (TWindow (w_ID w)).
Proof using Type.
  intros Hids Hw. split.
  - unfold asked, cmd. simpl. rewrite lsum_app, key_hold_window.
    induction Hw as [w l|w v l Hw IH]; simpl in *; apply NoDup_cons in Hids as [Hn Hd].
    + unfold pending_at at 1. rewrite hold_target_window, bool_decide_eq_true_2 by done. simpl.
      enough (lsum (pending_at (TWindow (w_ID w))) (map (window_hold hold) l) = 0) by lia.
      clear -Hn. induction l as [|v l IH]; [done|]. simpl in *. apply not_elem_of_cons in Hn as [Hne Hn].
      specialize (IH Hn). unfold pending_at at 1. rewrite hold_target_window, bool_decide_eq_false_2 by congruence. lia.
    + specialize (IH Hd). unfold pending_at at 1. rewrite hold_target_window, bool_decide_eq_false_2; [lia|].
      intros [= He]. apply Hn. rewrite He. by apply list_elem_of_fmap_2.
  - exists (window_hold hold w). split; [|apply hold_target_window]. unfold cmd. simpl.
    apply elem_of_app. left. rewrite list_elem_of_In. apply in_map. by rewrite <- list_elem_of_In.
Qed.

Lemma asked_key kid : r_APIKeyID r = Some kid -> asked cmd (TKey kid) = hold /\ asks cmd (TKey kid).
Proof using Type.
  intros Hk. split.
  - unfold asked, cmd. simpl. rewrite lsum_app. unfold key_hold. rewrite Hk.
    assert (lsum (pending_at (TKey kid)) (map (window_hold hold) ws) = 0) as ->.
    { clear. induction ws as [|w l IH]; [done|]. simpl. rewrite IH. unfold pending_at. by rewrite hold_target_window. }
    unfold lsum, pending_at. simpl. rewrite bool_decide_eq_true_2 by done. lia.
  - exists (mkHoldSpec TargetKeyBudget None (Some kid) None hold). split; [|done]. unfold cmd, key_hold. simpl.
    rewrite Hk. set_solver.
Qed.

Lemma holds_plan : fresh_request r -> plan_reserve cmd.
Proof using Type.
  intros (Hs & H5 & Hw & Hm). unfold plan_reserve, cmd. simpl. split_and!; try done.
  - intros h [Hin|Hin]%elem_of_app Ht.
    + apply list_elem_of_In, in_map_iff in Hin as (w & <- & _). simpl in Ht. by destruct (w_Kind w).
    + unfold key_hold in Hin. destruct (r_APIKeyID r); set_solver.
  - intros Hk. unfold key_hold. destruct (r_APIKeyID r) as [kid|]; [|done].
    eexists. split; [apply elem_of_app; right; by apply list_elem_of_singleton|done].
Qed.

Lemma holds_amount : Forall (fun h => h_Amount h = hold) (rc_Holds cmd).
Proof using Type.
  unfold cmd. simpl. apply Forall_app. split.
  - clear. induction ws; simpl; by constructor.
  - unfold key_hold. destruct (r_APIKeyID r); by repeat constructor.
Qed.

End Holds.

Lemma window_ids_snoc ws w : window_ids (ws ++ [w]) = fun k => if bool_decide (k = w_Kind w) then Some (w_ID w) else window_ids ws k.
Proof. unfold window_ids. by rewrite foldl_snoc. Qed.

Lemma window_ids_Some ws k id : window_ids ws k = Some id -> exists w, w ∈ ws /\ w_Kind w = k /\ w_ID w = id.
Proof.
  induction ws as [|w ws IH] using rev_ind; [done|]. rewrite window_ids_snoc. case_bool_decide.
  - intros [= <-]. exists w. set_solver.
  - intros (w' & ? & ? & ?)%IH. exists w'. set_solver.
Qed.

Lemma window_ids_in ws w : NoDup (w_Kind <$> ws) -> w ∈ ws -> window_ids ws (w_Kind w) = Some (w_ID w).
Proof.
  induction ws as [|v ws IH] using rev_ind; [set_solver|]. rewrite window_ids_snoc, fmap_app.
  intros (Hd & Hn & _)%NoDup_app Hw. simpl in Hn. case_bool_decide as Hk.
  - apply elem_of_app in Hw as [Hw|Hw%list_elem_of_singleton]; [|by subst].
    exfalso. eapply (Hn (w_Kind w)); [by apply list_elem_of_fmap_2|]. rewrite Hk. set_solver.
  - apply IH; [done|]. apply elem_of_app in Hw as [|Hw%list_elem_of_singleton]; [done|by subst].
Qed.

(** Same id, same row: the ids of resolved windows are as distinct as their kinds. *)
Lemma resolved_ids ws (m : gmap string QuotaWindow) :
  NoDup (w_Kind <$> ws) -> (forall w, w ∈ ws -> m !! w_ID w = Some w) -> NoDup (w_ID <$> ws).
Proof.
  induction ws as [|w ws IH]; simpl; [constructor|]. intros [Hn Hd]%NoDup_cons Hm. apply NoDup_cons. split.
  - intros (v & He & Hv)%list_elem_of_fmap. apply Hn. assert (v = w) as <-; [|by apply list_elem_of_fmap_2].
    assert (Some v = Some w); [|congruence]. rewrite <- (Hm w), He, <- (Hm v) by set_solver. done.
  - apply IH; [done|]. intros. apply Hm. set_solver.
Qed.

(** ** What an admission leaves behind *)

Section AdmittedState.
Context {E S : Type} `{!Store E S, !StoreLaws E S} (svc : Service).

Record admitted (cmd : AdmitCommand) (reqID : string) (at_ : instant) (hold : Microcredit)
    (inputBound outputCap : Z) (s s' : S) (res : AdmissionResult) : Prop := {
  ad_committed : committed s';
  ad_result : ar_RequestID res = reqID /\ ar_HoldMicros res = hold /\ ar_AdmittedAt res = at_ /\
    ar_InputBound res = inputBound /\ ar_OutputCap res = outputCap;
  (** every enabled window, live now, holds the amount within its limit *)
  ad_windows : forall kind limit, LimitFor (ac_Policy cmd) kind = Some limit -> exists w,
    ar_WindowIDs res kind = Some (w_ID w) /\ w_Kind w = kind /\ w_EntitlementID w = e_ID (ac_Entitlement cmd) /\
    w_Voided w = false /\ Contains (interval_of w) at_ = true /\
    (win_of s !! w_ID w = Some w \/
     win_of s !! w_ID w = None /\ w_Used w = 0 /\ w_Reserved w = 0 /\ w_Limit w = limit) /\
    win_of s' !! w_ID w = Some (set_w_Counters (w_Used w) (w_Reserved w + hold) w) /\
    w_Used w + w_Reserved w + hold <= w_Limit w;
  (** no other window moves *)
  ad_others : forall id w, win_of s !! id = Some w -> (forall kind, ar_WindowIDs res kind <> Some id) ->
    win_of s' !! id = Some w;
  ad_key : forall kid k, r_APIKeyID (ac_Request cmd) = Some kid -> key_of s !! kid = Some k ->
    key_of s' !! kid = Some (mkKey (k_BudgetLimit k) (k_BudgetUsed k + hold)) /\
    (forall l, k_BudgetLimit k = Some l -> k_BudgetUsed k + hold <= l);
  ad_request : exists r, req_of s' !! reqID = Some r /\ r_Status r = Some ReqReserved /\
    r_AdmittedAt r = Some at_ /\ r_InputBoundTokens r = Some inputBound /\ r_OutputCapTokens r = Some outputCap /\
    r_PolicyVersionID r = ar_PolicyID res /\
    (EnabledWindows (ac_Policy cmd) <> [] -> r_ReservedMicros r = Some hold);
  ad_lease : match p_ConcurrencyLimit (ac_Policy cmd) with
    | None => ar_AccountLease res = None
    | Some limit => exists l, ar_AccountLease res = Some l /\ lease_of s' !! l_ID l = Some l /\ is_held l = true /\
        l_RequestID l = reqID /\
        Z.of_nat (length (held_in LeaseScopeBillingAccount (r_BillingAccountID (ac_Request cmd)) (lease_of s'))) <= limit
    end;
}.

(** The lease step changes nothing an admission promised before it. *)
Lemma account_lease_Ok e p account reqID at_ s l s' :
  committed s -> account_lease svc e p account reqID at_ s = Ok (l, s') ->
  committed s' /\ win_of s' = win_of s /\ key_of s' = key_of s /\ req_of s' = req_of s /\
  match p_ConcurrencyLimit p with
  | None => l = None
  | Some limit => exists l0, l = Some l0 /\ lease_of s' !! l_ID l0 = Some l0 /\ is_held l0 = true /\
      l_RequestID l0 = reqID /\ Z.of_nat (length (held_in LeaseScopeBillingAccount account (lease_of s'))) <= limit
  end.
Proof.
  unfold account_lease. intros Hc H. destruct (p_ConcurrencyLimit p) as [limit|]; [|by injection H as <- <-].
  apply rbind_Ok in H as ([l0 s1] & H & [= <- <-]).
  destruct (law_lease _ _ _ _ _ Hc H) as (? & ? & ? & ? & ? & ? & ? & ?). split_and!; try done. eauto 10.
Qed.

Lemma limits_of_Some p k l : limits_of p k = Some l -> LimitFor p k = Some l.
Proof using Type. unfold limits_of. by case_bool_decide. Qed.

Lemma admit_body_Ok e cmd reqID at_ hold inputBound outputCap s res s' :
  committed s -> fresh_request (ac_Request cmd) ->
  admit_body svc e cmd reqID at_ hold inputBound outputCap (limits_of (ac_Policy cmd)) s = Ok (res, s') ->
  admitted cmd reqID at_ hold inputBound outputCap s s' res.
Proof.
  intros Hc Hf H. unfold admit_body in H. cbv zeta in H. apply rbind_Ok in H as ([ws s1] & Hact & H).
  destruct (EvaluateAdmission _ ws hold at_) as [[]|] eqn:Hev; [|done].
  set (req := pin_request _ _ _ _ _ _ _) in H.
  apply rbind_Ok in H as ([adm s2] & Hres & H). apply rbind_Ok in H as ([l s3] & Hl & H). injection H as <- <-.
  destruct (law_activate _ _ _ _ _ Hc Hact) as (Hc1 & Hk1 & Hnd & Hold & Hws). simpl in Hws.
  assert (plan_reserve (mkReserve req (map (window_hold hold) ws ++ key_hold req hold) at_)) as Hplan
    by (apply holds_plan; exact Hf).
  destruct (law_reserve _ _ _ _ _ Hc1 Hplan Hres) as (Hc2 & Hid & Hwin & Hkey & r & Hr & Hst & Hat & Hpol & _ & Hib & Hoc & Hrm).
  destruct (account_lease_Ok _ _ _ _ _ _ _ _ Hc2 Hl) as (Hc3 & Hw3 & Hk3 & Hr3 & Hlease).
  assert (NoDup (w_ID <$> ws)) as Hids by (eapply resolved_ids; [done|]; intros w Hw; by apply Hws).
  destruct (EvaluateAdmission_found _ _ _ _ Hev) as [_ Hfound]. simpl in Hid.
  split; simpl.
  - done.
  - done.
  - intros kind limit Hlim. destruct (Hfound kind limit Hlim) as (w & (Hw & Hkd & Hv & Hin)%findWindow_in).
    destruct (Hws w Hw) as (Hlk & Hent & Hor). exists w.
    destruct (asked_window hold ws req at_ w Hids Hw) as [Has Hask].
    destruct (Hwin _ _ Hlk) as [Hl2 Hfit]. specialize (Hfit Hask). rewrite Has in Hl2, Hfit. rewrite Hw3, <- Hkd.
    split_and!; try done; [by apply window_ids_in|].
    destruct Hor as [?|(? & ? & ? & Hlm)]; [by left|right]. split_and!; try done.
    apply limits_of_Some in Hlm. congruence.
  - intros id w Hw Hno. rewrite Hw3. destruct (Hwin _ _ (Hold _ _ Hw)) as [-> _].
    rewrite (asked_other hold ws req at_); [destruct w; unfold set_w_Counters; simpl; by rewrite Z.add_0_r|].
    intros (v & -> & Hv)%list_elem_of_fmap. by apply (Hno (w_Kind v)), window_ids_in.
  - intros kid k Hkid Hk. rewrite Hk3. rewrite <- Hk1 in Hk. destruct (Hkey _ _ Hk) as [Hl2 Hfit].
    destruct (asked_key hold ws req at_ kid Hkid) as [Has Hask]. specialize (Hfit Hask). by rewrite Has in Hl2, Hfit.
  - rewrite Hr3, <- Hid. exists r. split_and!; try done. intros Hen. apply Hrm; [|apply holds_amount].
    destruct (EnabledWindows (ac_Policy cmd)) as [|k ks] eqn:Ek; [done|].
    assert (k ∈ EnabledWindows (ac_Policy cmd)) as [lim Hlim]%EnabledWindows_spec by (rewrite Ek; set_solver).
    destruct (Hfound _ _ Hlim) as (w & (Hw & _)%findWindow_in). destruct ws; [set_solver|done].
  - rewrite Hid in Hlease. exact Hlease.
Qed.

End AdmittedState.

(** ** The tables implement the interface *)

(** What one transaction on the database draws from outside. *)
Record TxEnv := mkTx {
  tx_begin : option error;
  tx_windowID : WindowKind -> string;
  tx_reservationID : ReservationTargetKind -> string;
  tx_holdID : string;
  tx_leaseID : string;
  tx_leaseOwner : string;
  tx_now : instant;
  tx_clock : instant;
  (** [None]: committed; [Some b]: a driver error, applied or not. *)
  tx_commit : option bool;
}.

#[global] Instance db_store : Store TxEnv DB := {
  st_Begin e := tx_begin e;
  st_ActivateWindowsTx e := ActivateWindowsTx (tx_windowID e);
  st_Reserve e := Reserve (tx_reservationID e) (tx_now e);
  st_Release e rid := Release rid (tx_now e);
  st_AcquireLeaseTx e := AcquireLeaseTx (tx_leaseID e) (tx_leaseOwner e) (tx_clock e);
  st_ReserveWallet e := ReserveWallet (tx_holdID e) (tx_reservationID e TargetWallet) (tx_now e);
  st_Commit e := match tx_commit e with None => Committed | Some b => CommitFailed EForeign b end;
}.

#[global] Instance db_commit_law : CommitLaw TxEnv DB.
Proof. intros e err p. simpl. destruct (tx_commit e); [|done]. by intros [= <- _]. Qed.

(** The loop invariant of the activation, with the kinds still to come. *)
Record activating (cmd : ActivateWindowsCommand) (db0 : DB) (kinds : list WindowKind)
    (st : list QuotaWindow * list QuotaWindow * DB) : Prop := {
  av_keys : keys st.2 = keys db0;
  av_rows : forall id w, windows db0 !! id = Some w -> windows st.2 !! id = Some w;
  av_ids : forall id w, windows st.2 !! id = Some w -> w_ID w = id;
  av_active : forall w, w ∈ st.1.1 -> windows st.2 !! w_ID w = Some w /\ w_EntitlementID w = aw_EntitlementID cmd /\
    (windows db0 !! w_ID w = Some w \/
     windows db0 !! w_ID w = None /\ w_Used w = 0 /\ w_Reserved w = 0 /\ aw_Limits cmd (w_Kind w) = Some (w_Limit w));
  av_out : forall w, w ∈ st.1.2 -> w ∈ st.1.1 /\ w_Kind w ∉ kinds;
  av_kinds : NoDup (w_Kind <$> st.1.2);
}.

Lemma activating_kind newID cmd db0 k kinds st st' :
  k ∉ kinds -> activate_kind newID cmd st k = Ok st' ->
  activating cmd db0 (k :: kinds) st -> activating cmd db0 kinds st'.
Proof.
  intros Hk H [Hks Hrows Hids Hact Hout Hnd]. destruct st as [[active out] db]. simpl in *. unfold activate_kind in H.
  assert (activating cmd db0 kinds (active, out, db)) as Hskip
    by (split; simpl; try done; intros w Hw; destruct (Hout w Hw); set_solver).
  destruct (aw_Limits cmd k) as [limit|] eqn:Hlim; [|by injection H as <-].
  apply rbind_Ok in H as ([iv act] & _ & H). destruct act.
  - destruct (insertQuotaWindow _ _ db) as [[nw db1]|e] eqn:Hins; [|by destruct (bool_decide _) in H].
    injection H as <-. apply insertQuotaWindow_Ok in Hins as (Hnw & Hf & _ & _ & _ & ->).
    assert (w_Kind nw = k) as Hkn by by rewrite Hnw. split; simpl.
    + done.
    + intros id w Hw. rewrite lookup_insert_ne; [by apply Hrows|]. intros <-. apply Hrows in Hw. congruence.
    + intros id w [[<- <-]|[_ ?]]%lookup_insert_Some; [done|by apply Hids].
    + intros w [Hw|Hw%list_elem_of_singleton]%elem_of_app.
      * destruct (Hact w Hw) as (Hl & He & Hor). split_and!; try done. rewrite lookup_insert_ne; [done|congruence].
      * rewrite Hw, lookup_insert_eq. split_and!; [done|by rewrite Hnw|]. right.
        rewrite Hkn. split_and!; try (by rewrite Hnw). { apply eq_None_not_Some. intros [v Hv]. apply Hrows in Hv. congruence. }
    + intros w [Hw|Hw%list_elem_of_singleton]%elem_of_app; [destruct (Hout w Hw)|subst w]; set_solver.
    + rewrite fmap_app. apply NoDup_app. split_and!; [done| |apply NoDup_singleton].
      intros x (w & -> & Hw)%list_elem_of_fmap Hx%list_elem_of_singleton. destruct (Hout w Hw) as [_ Hn].
      rewrite Hx, Hkn in Hn. set_solver.
  - destruct (List.find _ active) as [a|] eqn:Hfind; [|by injection H as <-]. injection H as <-.
    apply find_live_row in Hfind as (Ha & Hka & _). split; simpl; try done.
    + intros w [Hw|Hw%list_elem_of_singleton]%elem_of_app; [destruct (Hout w Hw); set_solver|]. subst. done.
    + rewrite fmap_app. apply NoDup_app. split_and!; [done| |apply NoDup_singleton].
      intros x (w & -> & Hw)%list_elem_of_fmap Hx%list_elem_of_singleton. destruct (Hout w Hw) as [_ Hn].
      rewrite Hx, Hka in Hn. set_solver.
Qed.

Lemma activating_kinds newID cmd db0 kinds st st' :
  NoDup kinds -> rfold (activate_kind newID cmd) st kinds = Ok st' ->
  activating cmd db0 kinds st -> activating cmd db0 [] st'.
Proof.
  revert st. induction kinds as [|k kinds IH]; intros st Hnd H A; simpl in H; [by injection H as <-|].
  apply NoDup_cons in Hnd as [Hk Hnd]. apply rbind_Ok in H as (st1 & H1 & H2).
  eapply IH; [done|exact H2|]. by eapply activating_kind.
Qed.

Lemma db_law_activate newID cmd db ws db' :
  periods_ok (windows db) -> ActivateWindowsTx newID cmd db = Ok (ws, db') ->
  keys db' = keys db /\ NoDup (w_Kind <$> ws) /\
  (forall id w, windows db !! id = Some w -> windows db' !! id = Some w) /\
  (forall w, w ∈ ws -> windows db' !! w_ID w = Some w /\ w_EntitlementID w = aw_EntitlementID cmd /\
     (windows db !! w_ID w = Some w \/
      windows db !! w_ID w = None /\ w_Used w = 0 /\ w_Reserved w = 0 /\ aw_Limits cmd (w_Kind w) = Some (w_Limit w))).
Proof.
  intros [P _] H. unfold ActivateWindowsTx in H. apply rbind_Ok in H as ([] & _ & H).
  apply rbind_Ok in H as ([[act out] db1] & H & [= <- <-]).
  eapply (activating_kinds _ _ db) in H; [|apply (bool_decide_unpack _); vm_compute; exact I|].
  - destruct H as [Hk Hr _ Ha Ho Hnd]. simpl in *. split_and!; try done. intros w Hw. by apply Ha, Ho.
  - split; simpl; [done|done| | |intros w Hw; by apply elem_of_nil in Hw|constructor].
    + intros id w Hw. by destruct (P _ _ Hw).
    + intros w [[Hp%bool_decide_eq_true _]%andb_true_iff [id Hw]]%elem_rows.
      destruct (P _ _ Hw) as [Hid _]. rewrite Hid. eauto.
Qed.

(** The reserved amount of the request is the largest hold. *)
Lemma apply_hold_amount h st st' :
  apply_hold st h = Ok st' -> hl_blocked st' = [] -> hl_keyBlocked st' = false ->
  hl_amount st' = Z.max (hl_amount st) (h_Amount h).
Proof.
  unfold apply_hold. intros H Hb Hk. destruct (h_Amount h <? 0) eqn:Hamt; [done|]. cbv zeta in H.
  assert (forall db b k d, st' = mkLoop db b k d (if hl_amount st <? h_Amount h then h_Amount h else hl_amount st) ->
    hl_amount st' = Z.max (hl_amount st) (h_Amount h)) as Hyes.
  { intros db b k d ->. simpl. destruct (Z.ltb_spec (hl_amount st) (h_Amount h)); lia. }
  destruct (h_TargetKind h); [destruct (h_WindowID h) as [wid|]..|destruct (h_APIKeyID h) as [kid|]|
    destruct (h_WindowID h) as [wid|]]; try done; apply rbind_Ok in H as ([db1|] & _ & H);
    try (injection H as <-; exact (Hyes _ _ _ _ eq_refl));
    try (destruct (windows (hl_db st) !! wid); injection H as <-; simpl in Hb; by destruct (hl_blocked st)).
  all: try (injection H as <-; done).
Qed.

Lemma apply_holds_amount hs st st' a :
  rfold apply_hold st hs = Ok st' -> hl_blocked st' = [] -> hl_keyBlocked st' = false ->
  Forall (fun h => h_Amount h = a) hs -> hl_amount st' = if bool_decide (hs = []) then hl_amount st else Z.max (hl_amount st) a.
Proof.
  revert st. induction hs as [|h hs IH]; intros st H Hb Hk Ha; simpl in H; [by injection H as <-|].
  apply rbind_Ok in H as (st1 & H1 & H2). apply Forall_cons in Ha as [<- Ha].
  destruct (apply_holds (fun _ => 0) hs [] _ _ H2 Hb Hk) as (Hb1 & Hk1 & _).
  rewrite bool_decide_eq_false_2, (IH st1 H2 Hb Hk Ha) by done.
  rewrite (apply_hold_amount _ _ _ H1 Hb1 Hk1). case_bool_decide; lia.
Qed.

(** Binding windows changes nothing else of the request. *)
Lemma bind_windows_same {A} (f : Request -> A) hs r :
  (forall r h, f (bind_window r h) = f r) -> f (foldl bind_window r hs) = f r.
Proof. intros Hf. revert r. induction hs as [|h hs IH]; intros r; simpl; [done|]. by rewrite IH, Hf. Qed.

Lemma db_law_request newID now cmd db adm db' :
  Reserve newID now cmd db = Ok (adm, db') ->
  adm_RequestID adm = r_ID (rc_Request cmd) /\
  exists r, requests db' !! adm_RequestID adm = Some r /\ r_Status r = Some ReqReserved /\
    r_AdmittedAt r = Some (rc_AdmittedAt cmd) /\ r_PolicyVersionID r = r_PolicyVersionID (rc_Request cmd) /\
    r_PriceVersionID r = r_PriceVersionID (rc_Request cmd) /\
    r_InputBoundTokens r = r_InputBoundTokens (rc_Request cmd) /\
    r_OutputCapTokens r = r_OutputCapTokens (rc_Request cmd) /\
    (forall a, rc_Holds cmd <> [] -> Forall (fun h => h_Amount h = a) (rc_Holds cmd) -> r_ReservedMicros r = Some a).
Proof.
  intros (st & req & Hl & Hb & Hk & Hreq & -> & db1 & [_ F1]%insertRequest_Ok & Hrows)%Reserve_Ok. simpl.
  destruct (insert_rows (fun _ => 0) _ _ _ [] _ _ Hrows) as (F & _).
  destruct (apply_holds (fun _ => 0) _ [] _ _ Hl Hb Hk) as (_ & _ & Hpos & _).
  assert (forall {A} (f : Request -> A), (forall r h, f (bind_window r h) = f r) ->
    f req = f (admit_request (rc_Request cmd) (rc_AdmittedAt cmd) (hl_amount st)
      (r_ChargeSource (rc_Request cmd)) (r_PriceVersionID (rc_Request cmd)))) as Hf
    by (intros A f Hf; rewrite Hreq; by apply bind_windows_same).
  split; [by apply (Hf _ r_ID); intros ? []; destruct h_TargetKind|].
  exists (request_row req now). rewrite F, F1. simpl. rewrite lookup_insert_eq.
  split_and!; try done; simpl;
    try (rewrite (Hf _ r_Status) by (by intros ? [[] ?]); done);
    try (apply Hf; by intros ? [[] ?]).
  intros a Hne Ha. rewrite (Hf _ r_ReservedMicros) by (by intros ? [[] ?]). simpl. f_equal.
  set (hs := sort_by _ _) in *.
  assert (hs ≡ₚ rc_Holds cmd) as Hp by apply sort_by_Permutation.
  rewrite <- Hp in Ha. erewrite (apply_holds_amount hs _ _ a) by done. simpl.
  destruct hs as [|h hs]; [by apply Permutation_nil_l in Hp|].
  rewrite bool_decide_eq_false_2 by done. apply Forall_cons in Hpos as [[Hpos _] _], Ha as [<- _]. lia.
Qed.

Lemma reachable_step db db' : reachable db -> store_step db db' -> reachable db'.
Proof. intros (db0 & Hi & Hs) H. exists db0. split; [done|]. by eapply rtc_r. Qed.

#[global] Instance db_store_laws : StoreLaws TxEnv DB.
Proof.
  refine {| committed := reachable; win_of := windows; key_of := keys; req_of := requests; lease_of := leases |}.
  - intros e cmd s ws s' Hr H. split.
    { eapply reachable_step; [exact Hr|]. eapply st_activate. exact H. }
    eapply db_law_activate; [by apply periods_ok_reachable|exact H].
  - intros e cmd s adm s' Hr Hp H. split.
    { eapply reachable_step; [exact Hr|]. eapply st_reserve; [exact Hp|exact H]. }
    destruct (db_law_request _ _ _ _ _ _ H) as [Hid Hrq]. destruct (Reserve_exact _ _ _ _ _ _ H) as [Hw Hk].
    split_and!; try done. intros id w Hl. destruct (Hw _ _ Hl) as [? Hfit]. split; [done|]. intros Ha. by apply Hfit.
  - intros e cmd s l s' Hr H. split.
    { eapply reachable_step; [exact Hr|]. eapply st_acquire. exact H. }
    apply AcquireLeaseTx_Ok in H as (Hlim & Hf & Hid & Hsc & Hst & _ & _ & _ & _ & _ & Hreq & ->). simpl.
    assert (is_held l = true) as Hh by (unfold is_held; by rewrite Hst).
    split_and!; try done; [by rewrite Hid, lookup_insert_eq|].
    unfold held_in in *. rewrite rows_insert_length; [lia| |by rewrite Hsc, Hh].
    unfold reclaim. by rewrite lookup_fmap, Hf.
Defined.

(** ** Properties *)

Definition request_id (newID : string) (r : Request) : string :=
  if bool_decide (r_ID r = "") then newID else r_ID r.

(** C9: GATE. The gate fails closed. A call whose price cannot be bounded
    touches nothing. Otherwise it makes at most five attempts, each on the store
    as the other clients left it; only a lost activation race is retried, and
    such an attempt writes nothing. The last attempt decides: an error leaves the
    store as it was found, unless the database applied a COMMIT whose answer was
    lost; a result means that the whole transaction was committed. *)
Theorem admission_fails_closed {E S : Type} `{!Store E S, !CommitLaw E S} (svc : Service) (env : nat -> E)
    (clock : nat -> instant) (others : nat -> S -> S) (newID : string) (cmd : AdmitCommand) (s s' : S)
    (r : res AdmissionResult)
    (Hrun : Admit svc env clock others newID cmd s = (s', r)) :
  match admit_price cmd with
  | Err err => s' = s /\ r = Err err
  | Ok (hold, inputBound, outputCap) =>
      let body n := admit_body svc (env n) cmd (request_id newID (ac_Request cmd)) (attempt_at clock cmd n) hold
                      inputBound outputCap (limits_of (ac_Policy cmd)) in
      exists n, (n < 5)%nat /\
        (forall k, (k < n)%nat -> exists err, is_activation_conflict err = true /\
           transact (env k) (body k) (drift others (Datatypes.S k) s) = (drift others (Datatypes.S k) s, Err err)) /\
        match r with
        | Ok a => body n (drift others (Datatypes.S n) s) = Ok (a, s')
        | Err err => (is_activation_conflict err = true -> n = 4%nat) /\
            (s' = drift others (Datatypes.S n) s \/
             exists a, st_Commit (env n) = CommitFailed err true /\
               body n (drift others (Datatypes.S n) s) = Ok (a, s'))
        end
  end.
Proof.
  unfold Admit in Hrun. fold (request_id newID (ac_Request cmd)) in Hrun.
  destruct (admit_price cmd) as [[[hold ib] oc]|err]; [|by injection Hrun as <- <-]. cbv zeta.
  change s with (drift others 0 s) in Hrun at 1.
  apply admit_loop_attempt in Hrun as (n & Hn & Hat & Hprev & Hlast); [|unfold maxActivationRetries; lia].
  unfold maxActivationRetries in *. exists n. split; [lia|]. split; [intros k Hk; apply Hprev; lia|].
  apply transact_cases in Hat as [(err & -> & ->)|(a & s1 & Hb & [(_ & -> & ->)|(err & Hc & -> & ->)])].
  - split; [|by left]. intros Hcf. specialize (Hlast _ eq_refl Hcf). lia.
  - exact Hb.
  - split; [|right; eauto]. intros Hcf. apply commit_error in Hc. congruence.
Qed.

(** C10: ADMITTED. A call that is admitted on a reachable store, whatever other
    transactions run between its attempts, was admitted at one instant with the
    hold its bounds price to: every window kind its policy enables has a live
    window of the entitlement that now holds that amount within its limit, no
    other window moved, the key budget holds it too, the request is recorded as
    reserved with its bounds, the account holds at most its limit of leases,
    and the store is again reachable. *)
Theorem admission_binds_every_window (svc : Service) (env : nat -> TxEnv) (clock : nat -> instant)
    (others : nat -> DB -> DB) (newID : string) (cmd : AdmitCommand) (db db' : DB) (res : AdmissionResult)
    (Hreach : reachable db)
    (Hothers : forall n d, reachable d -> reachable (others n d))
    (Hfresh : fresh_request (ac_Request cmd))
    (Hrun : Admit svc env clock others newID cmd db = (db', Ok res)) :
  reachable db' /\
  exists n hold inputBound outputCap, (n < 5)%nat /\
    admit_price cmd = Ok (hold, inputBound, outputCap) /\
    admitted cmd (request_id newID (ac_Request cmd)) (attempt_at clock cmd n) hold inputBound outputCap
      (drift others (Datatypes.S n) db) db' res.
Proof.
  unfold Admit in Hrun. fold (request_id newID (ac_Request cmd)) in Hrun.
  destruct (admit_price cmd) as [[[hold ib] oc]|err] eqn:Hp; [|done].
  change db with (drift others 0 db) in Hrun at 1.
  apply admit_loop_attempt in Hrun as (n & Hn & Hat & _ & _); [|unfold maxActivationRetries; lia].
  unfold maxActivationRetries in Hn.
  apply transact_cases in Hat as [(? & ? & _)|(a & s1 & Hb & [(_ & [= <-] & ->)|(? & _ & ? & _)])]; [done| |done].
  assert (reachable (drift others (Datatypes.S n) db)) as Hd.
  { generalize (Datatypes.S n). intros m. clear Hb Hn. induction m as [|m IH]; [done|]. rewrite drift_S. by apply Hothers. }
  pose proof (admit_body_Ok svc _ _ _ _ _ _ _ _ _ _ Hd Hfresh Hb) as Hadm.
  split; [exact (ad_committed _ _ _ _ _ _ _ _ _ Hadm)|]. exists n, hold, ib, oc. split_and!; [lia|done|exact Hadm].
Qed.

(** The wallet gate and the release fail closed as well: an
    error leaves the store as found unless an applied COMMIT lost its answer.
    A wallet admission that returns has frozen, in one committed transaction on
    a reachable store, exactly the money its bounds price to, charged to the
    wallet with no window hold, with the spend of the calendar month of its
    instant checked; a release that returns has dropped the holds. *)
Theorem wallet_gate_fails_closed (svc : Service) (e : TxEnv) (now : instant) (newID requestID : string)
    (cmd : AdmitWalletCommand) (db db' : DB) :
  (forall r, AdmitWallet svc e now newID cmd db = (db', r) ->
     match r with
     | Err err => db' = db \/ st_Commit e = CommitFailed err true
     | Ok res => exists hold ib oc l,
         let at_ := if IsZero (aw_WalletAt cmd) then now else aw_WalletAt cmd in
         let req := pin_request (aw_Request cmd) (request_id newID (aw_Request cmd))
                      (e_PolicyVersionID (aw_Entitlement cmd)) (pv_ID (aw_MoneyPrice cmd)) ib oc (aw_ExtraBounds cmd) in
         ReserveAmountMoney (aw_MoneyPrice cmd) (mkBounds ib oc (aw_ExtraBounds cmd)) = Ok hold /\
         ar_HoldMicros res = Micros hold /\ ar_WalletCurrency res = Currency hold /\ ar_AccountLease res = l /\
         ar_ChargeSource res = Some ChargeSourceWallet /\ (forall k, ar_WindowIDs res k = None) /\
         (reachable db -> reachable db') /\
         exists adm db1,
           ReserveWallet (tx_holdID e) (tx_reservationID e TargetWallet) (tx_now e)
             (mkReserveWallet req (aw_WalletID cmd) (Micros hold) (pv_ID (aw_MoneyPrice cmd)) at_
                (MonthBoundsUTC at_).1 (MonthBoundsUTC at_).2) db = Ok (adm, db1) /\
           windows db' = windows db1 /\ keys db' = keys db1 /\ requests db' = requests db1 /\
           holds db' = holds db1 /\ entries db' = entries db1
     end) /\
  (forall r, ReleaseAdmission e requestID db = (db', r) ->
     match r with
     | Err err => db' = db \/ st_Commit e = CommitFailed err true
     | Ok _ => Release requestID (tx_now e) db = Ok db' /\ (reachable db -> reachable db')
     end).
Proof.
  split.
  - intros r. unfold AdmitWallet. fold (request_id newID (aw_Request cmd)). cbv zeta.
    destruct (rbind (admit_bounds _ _ _) _) as [[[hold ib] oc]|err] eqn:Hp; [|intros [= <- <-]; by left].
    apply rbind_Ok in Hp as ([ib' oc'] & _ & Hp). apply rbind_Ok in Hp as (hold' & Hhold & [= -> -> ->]).
    intros [(err & -> & ->)|(a & s1 & Hb & [(_ & -> & ->)|(err & Hc & -> & _)])]%transact_cases; [by left| |by right].
    unfold wallet_body in Hb. rewrite (surjective_pairing (MonthBoundsUTC _)) in Hb. cbv zeta in Hb.
    apply rbind_Ok in Hb as ([adm db1] & Hres & Hb). apply rbind_Ok in Hb as ([l db2] & Hl & [= <- <-]).
    exists hold, ib, oc, l. simpl. split_and!; try done.
    + intros Hr. assert (reachable db1) as Hr1 by (eapply reachable_step; [exact Hr|]; eapply st_reserve_wallet; exact Hres).
      exact (proj1 (account_lease_Ok svc _ _ _ _ _ _ _ _ Hr1 Hl)).
    + exists adm, db1. unfold account_lease in Hl. destruct (p_ConcurrencyLimit (aw_Policy cmd)) as [lim|].
      * apply rbind_Ok in Hl as ([l0 db3] & Hl & [= _ <-]). split; [exact Hres|].
        apply AcquireLeaseTx_Ok in Hl as (_ & _ & _ & _ & _ & _ & _ & _ & _ & _ & _ & ->). done.
      * injection Hl as _ <-. split; [exact Hres|done].
  - intros r [(err & -> & ->)|(a & s1 & Hb & [(_ & -> & ->)|(err & Hc & -> & _)])]%transact_cases; [by left| |by right].
    apply rbind_Ok in Hb as (db1 & Hrel & [= _ <-]). split; [exact Hrel|]. intros Hr.
    eapply reachable_step; [exact Hr|]. eapply (st_release _ requestID false). exact Hrel.
Qed.

(** A first call on the sample store: two windows are opened, one lease taken. *)
Definition gate_env (n : nat) : TxEnv :=
  mkTx None run_kind_id (run_rv_id "r1") "h1" "l1" "" 0 0 None.
Definition gate_policy : Policy :=
  mkPolicy "p" 1 ["model"] (Some 50000) (Some 100000) None None None (Some 2) OverageReject.
Definition gate_entitlement : Entitlement :=
  mkEntitlement "ent" "acc" SourceSubscription "sub" ["model"] "pol" (Date 2024 1 31 10 0 0 0)
    (Date 2024 1 31 10 0 0 0) None 1 false EntitlementActive 0 0.
Definition gate_model : Model := mkModel "model" "" LifecycleActive "" [] [] [] 128000 4096 [ProtocolOpenAIChat] false false.
Definition gate_key_db : DB := set_keys {[ "key" := mkKey (Some 100000) 0 ]} demo_db.
Definition gate_request : Request :=
  mkRequest "r1" "acc" (Some "key") "ent" "model" None None None "" None None None None None
    None None None None [] "" 0 None.
Definition gate_cmd : AdmitCommand :=
  mkAdmit gate_request gate_entitlement gate_policy sample_price gate_model 1000 (Some 512) []
    (Date 2024 2 2 10 0 0 0).
Definition gate_run : DB * res AdmissionResult :=
  Admit (NewService "me") gate_env (fun _ => 0) (fun _ d => d) "" gate_cmd gate_key_db.
Definition gate_result : AdmissionResult :=
  match gate_run.2 with Ok a => a | Err _ => mkResult "" 0 0 (fun _ => None) 0 0 "" "" None None "" "" end.

Lemma admission_fails_closed_witness : exists a, gate_run.2 = Ok a /\
  exists n, admit_body (NewService "me") (gate_env n) gate_cmd "r1" (Date 2024 2 2 10 0 0 0) 14730
              1000 512 (limits_of gate_policy) gate_key_db = Ok (a, gate_run.1).
Proof.
  exists gate_result. split; [vm_compute; reflexivity|].
  pose proof (admission_fails_closed (NewService "me") gate_env (fun _ => 0) (fun _ d => d) "" gate_cmd gate_key_db
                gate_run.1 gate_run.2 ltac:(unfold gate_run; apply surjective_pairing)) as H.
  assert (admit_price gate_cmd = Ok (14730, 1000, 512)) as Hp by (vm_compute; reflexivity).
  rewrite Hp in H. assert (gate_run.2 = Ok gate_result) as Hr by (vm_compute; reflexivity). rewrite Hr in H.
  destruct H as (n & _ & _ & H). exists n. unfold drift in H.
  assert (forall l, foldl (fun (s : DB) (_ : nat) => s) gate_key_db l = gate_key_db) as Hid
    by (intros l; induction l; [reflexivity|exact IHl]).
  rewrite Hid in H. exact H.
Defined.

Lemma admission_binds_every_window_witness : reachable gate_run.1.
Proof.
  refine (proj1 (admission_binds_every_window (NewService "me") gate_env (fun _ => 0) (fun _ d => d) "" gate_cmd
                   gate_key_db gate_run.1 gate_result _ (fun _ d H => H) _ _)).
  - exists gate_key_db. split; [|apply rtc_refl]. split_and!; try done.
    intros kid k. unfold gate_key_db. simpl. intros [<- <-]%lookup_singleton_Some. done.
  - vm_compute. repeat split; discriminate.
  - assert (gate_run.2 = Ok gate_result) as Hr by (vm_compute; reflexivity). rewrite <- Hr.
    unfold gate_run. apply surjective_pairing.
Defined.

(** Releasing the admitted request. *)
Lemma wallet_gate_fails_closed_witness :
  Release "r1" 0 gate_run.1 = Ok (ReleaseAdmission (gate_env 0) "r1" gate_run.1).1.
Proof.
  pose proof (proj2 (wallet_gate_fails_closed (NewService "me") (gate_env 0) 0 "" "r1"
                (mkAdmitWallet gate_request gate_entitlement gate_policy sample_price "" gate_model 0 None [] 0)
                gate_run.1 (ReleaseAdmission (gate_env 0) "r1" gate_run.1).1)
                (ReleaseAdmission (gate_env 0) "r1" gate_run.1).2 (surjective_pairing _)) as H.
  assert ((ReleaseAdmission (gate_env 0) "r1" gate_run.1).2 = Ok tt) as Hr by (vm_compute; reflexivity).
  rewrite Hr in H. exact (proj1 H).
Defined.
