(* ===== verification/Sessions.v ===== *)
(** * Sessions: upstream accounts and sticky-session bindings

    The account and binding tables of migrations 025 and 032 with the
    statements of [internal/inference/postgres/oauth_repo.go] and
    [accounts_repo.go] on them, the binder of
    [internal/inference/routing/session_binding.go], and the transaction with
    which [workers/upstream_health.go] retires an account. *)

From Stdlib Require Import ZArith Lia Bool.
From stdpp Require Import base gmap strings list relations.
From S2P Require Import Prelude Domain Money Calendar WalletRules Principal Entitlements Tables.

Local Open Scope Z_scope.
Local Open Scope go_scope.

(** ** Rows *)

Inductive UpstreamAccountStatus :=
| AccountActive | AccountRefreshing | AccountCooldown | AccountReauthRequired | AccountDisabled.

#[global] Instance UpstreamAccountStatus_eq_dec : EqDecision UpstreamAccountStatus.
Proof. solve_decision. Defined.

(** Every field is optional: unknown stays unknown. *)
Record UpstreamQuota := mkQuota {
  q_LimitMicros : option Microcredit;
  q_RemainingMicros : option Microcredit;
  q_ObservedAt : option instant;
  q_Source : option string;
  q_ResetAt : option instant;
}.

Record UpstreamAccount := mkAccount {
  a_ID : string;
  a_ProviderID : string;
  a_CredentialID : string;
  a_Status : UpstreamAccountStatus;
  a_ConcurrencyLimit : Z;
  a_Quota : UpstreamQuota;
  a_UpdatedAt : instant;
}.

Inductive SessionBindingStatus := BindingActive | BindingEnded.

#[global] Instance SessionBindingStatus_eq_dec : EqDecision SessionBindingStatus.
Proof. solve_decision. Defined.

Definition BindingEndedAccountInvalid : string := "account_invalid".
Definition BindingEndedMigrated : string := "migrated".
Definition BindingEndedExpired : string := "expired".
Definition BindingEndedOperator : string := "operator_end".

Record SessionBinding := mkBinding {
  b_ID : string;
  b_SessionKey : string;
  b_ModelID : string;
  b_AccountID : string;
  b_Status : SessionBindingStatus;
  b_EndedReason : option string;
  b_LastUsedAt : instant;
  b_ExpiresAt : instant;
}.

Record PoolDB := mkPoolDB {
  pd_accounts : gmap string UpstreamAccount;
  pd_bindings : gmap string SessionBinding;
  (** ids of [inference_models], a foreign key *)
  pd_models : list string;
}.

Definition set_pool_accounts (v : gmap string UpstreamAccount) (db : PoolDB) : PoolDB :=
  mkPoolDB v (pd_bindings db) (pd_models db).
Definition set_bindings (v : gmap string SessionBinding) (db : PoolDB) : PoolDB :=
  mkPoolDB (pd_accounts db) v (pd_models db).

Definition with_status (s : UpstreamAccountStatus) (now : instant) (a : UpstreamAccount) : UpstreamAccount :=
  mkAccount (a_ID a) (a_ProviderID a) (a_CredentialID a) s (a_ConcurrencyLimit a) (a_Quota a) now.
Definition ended (reason : string) (b : SessionBinding) : SessionBinding :=
  mkBinding (b_ID b) (b_SessionKey b) (b_ModelID b) (b_AccountID b) BindingEnded (Some reason)
    (b_LastUsedAt b) (b_ExpiresAt b).

(** ** Account statements *)

Definition GetUpstreamAccount (id : string) (db : PoolDB) : res UpstreamAccount := select_one id (pd_accounts db).

(** WHERE provider_id AND status = 'active' ORDER BY id. *)
Definition ListActiveUpstreamAccounts (providerID : string) (db : PoolDB) : list UpstreamAccount :=
  stable_sort (fun a b => string_before (a_ID a) (a_ID b))
    (rows (pd_accounts db) (fun a => bool_decide (a_ProviderID a = providerID) && bool_decide (a_Status a = AccountActive))).

Definition non_negative (m : option Z) : bool := match m with Some z => 0 <=? z | None => true end.
Definition known_quota_source (s : option string) : bool :=
  match s with Some s => bool_decide (s = "reported") || bool_decide (s = "estimated") | None => true end.

(** The CHECKs of the account table. *)
Definition account_row_ok (a : UpstreamAccount) : bool :=
  (0 <=? a_ConcurrencyLimit a) && non_negative (q_LimitMicros (a_Quota a))
  && non_negative (q_RemainingMicros (a_Quota a)) && known_quota_source (q_Source (a_Quota a)).

(** UNIQUE (provider_id, credential_id); the two foreign keys are to tables
    that are not modelled and are the argument [refs]. *)
Definition InsertUpstreamAccountTx (newID : string) (now : instant) (refs : bool) (a : UpstreamAccount) (db : PoolDB)
  : res PoolDB :=
  let row := mkAccount newID (a_ProviderID a) (a_CredentialID a) (a_Status a) (a_ConcurrencyLimit a) (a_Quota a) now in
  let? _ := check (account_row_ok row) in
  let? m := insert_row newID row (pd_accounts db) in
  let? _ := unique (bool_decide (rows (pd_accounts db) (fun x => bool_decide (a_ProviderID x = a_ProviderID a)
                                    && bool_decide (a_CredentialID x = a_CredentialID a)) = [])) in
  let? _ := references refs in
  Ok (set_pool_accounts m db).

(** [UPDATE ... WHERE id AND status = ANY(from)]; whether a row changed. *)
Definition SetUpstreamAccountStatusConditional (id : string) (from : list UpstreamAccountStatus)
    (to : UpstreamAccountStatus) (now : instant) (db : PoolDB) : bool * PoolDB :=
  match pd_accounts db !! id with
  | Some a => if bool_decide (a_Status a ∈ from)
              then (true, set_pool_accounts (<[id := with_status to now a]> (pd_accounts db)) db) else (false, db)
  | None => (false, db)
  end.

(** [SELECT status ... FOR SHARE] inside the dispatch transaction. *)
Definition GetUpstreamAccountStatusForUpdateTx (id : string) (db : PoolDB) : res UpstreamAccountStatus :=
  let? a := GetUpstreamAccount id db in Ok (a_Status a).

Definition of_credential (credentialID : string) (from : list UpstreamAccountStatus) (a : UpstreamAccount) : bool :=
  bool_decide (a_CredentialID a = credentialID) && bool_decide (a_Status a ∈ from).

(** Flips every matching account; the ids that changed. *)
Definition SetUpstreamAccountsStatusByCredentialTx (credentialID : string) (from : list UpstreamAccountStatus)
    (to : UpstreamAccountStatus) (now : instant) (db : PoolDB) : list string * PoolDB :=
  (map a_ID (rows (pd_accounts db) (of_credential credentialID from)),
   set_pool_accounts ((fun a => if of_credential credentialID from a then with_status to now a else a)
                        <$> pd_accounts db) db).

Definition disableUpstreamAccountsByCredential (credentialID : string) (now : instant) (db : PoolDB) : Z * PoolDB :=
  let '(ids, db) := SetUpstreamAccountsStatusByCredentialTx credentialID
                      [AccountActive; AccountRefreshing; AccountCooldown; AccountReauthRequired] AccountDisabled now db in
  (Z.of_nat (length ids), db).

(** COALESCE: an observation keeps what it does not mention. *)
Definition merge_quota (q old : UpstreamQuota) : UpstreamQuota :=
  let or_ {A} (a b : option A) := match a with Some _ => a | None => b end in
  mkQuota (or_ (q_LimitMicros q) (q_LimitMicros old)) (or_ (q_RemainingMicros q) (q_RemainingMicros old))
    (or_ (q_ObservedAt q) (q_ObservedAt old)) (or_ (q_Source q) (q_Source old)) (or_ (q_ResetAt q) (q_ResetAt old)).

(** The WHERE clause: no older observation, and none without an instant over
    one with. *)
Definition observation_fresh (q old : UpstreamQuota) : bool :=
  match q_ObservedAt q, q_ObservedAt old with
  | Some t, Some u => u <=? t
  | Some _, None => true
  | None, Some _ => false
  | None, None => true
  end.

Definition UpdateUpstreamAccountQuota (id : string) (q : UpstreamQuota) (now : instant) (db : PoolDB)
  : res (bool * PoolDB) :=
  match pd_accounts db !! id with
  | Some a =>
      if observation_fresh q (a_Quota a) then
        let row := mkAccount (a_ID a) (a_ProviderID a) (a_CredentialID a) (a_Status a) (a_ConcurrencyLimit a)
                     (merge_quota q (a_Quota a)) now in
        let? _ := check (account_row_ok row) in
        Ok (true, set_pool_accounts (<[id := row]> (pd_accounts db)) db)
      else Ok (false, db)
  | None => Ok (false, db)
  end.

(** Operator edits; the display name is not modelled. *)
Definition updateUpstreamAccountProfile (id : string) (concurrencyLimit : option Z) (now : instant) (db : PoolDB)
  : res PoolDB :=
  match pd_accounts db !! id with
  | Some a =>
      let row := mkAccount (a_ID a) (a_ProviderID a) (a_CredentialID a) (a_Status a)
                   (default (a_ConcurrencyLimit a) concurrencyLimit) (a_Quota a) now in
      let? _ := check (account_row_ok row) in
      Ok (set_pool_accounts (<[id := row]> (pd_accounts db)) db)
  | None => db_fail ErrNoRows
  end.

(** ORDER BY id LIMIT: the batch of one health pass. *)
Definition ListUpstreamAccountsForHealth (cooldownDueBefore : instant) (limit : Z) (db : PoolDB) : list UpstreamAccount :=
  let limit := if (limit <=? 0) || (500 <? limit) then 100 else limit in
  firstn (Z.to_nat limit)
    (stable_sort (fun a b => string_before (a_ID a) (a_ID b))
       (rows (pd_accounts db) (fun a => match a_Status a with
          | AccountActive | AccountRefreshing => true
          | AccountCooldown => a_UpdatedAt a <=? cooldownDueBefore
          | _ => false end))).

(** ** Binding statements *)

Definition same_pair (key model : string) (b : SessionBinding) : bool :=
  bool_decide (b_SessionKey b = key) && bool_decide (b_ModelID b = model).
Definition is_live (b : SessionBinding) : bool := bool_decide (b_Status b = BindingActive).

(** The partial unique index on (session_key, model_id) WHERE active. *)
Definition pair_free (key model : string) (m : gmap string SessionBinding) : bool :=
  bool_decide (rows m (fun b => same_pair key model b && is_live b) = []).

Definition insertSessionBinding (b : SessionBinding) (db : PoolDB) : res PoolDB :=
  let? m := insert_row (b_ID b) b (pd_bindings db) in
  let? _ := unique (negb (is_live b) || pair_free (b_SessionKey b) (b_ModelID b) (pd_bindings db)) in
  let? _ := references (bool_decide (b_ModelID b ∈ pd_models db) && has (pd_accounts db) (b_AccountID b)) in
  Ok (set_bindings m db).

(** Live at [now]: active and not past its end. *)
Definition GetActiveSessionBinding (key model : string) (now : instant) (db : PoolDB) : res SessionBinding :=
  match rows (pd_bindings db) (fun b => same_pair key model b && is_live b && (now <? b_ExpiresAt b)) with
  | b :: _ => Ok b
  | [] => db_fail ErrNoRows
  end.

Definition TouchSessionBinding (id : string) (now : instant) (db : PoolDB) : res PoolDB :=
  match pd_bindings db !! id with
  | Some b => if is_live b
              then Ok (set_bindings (<[id := mkBinding (b_ID b) (b_SessionKey b) (b_ModelID b) (b_AccountID b)
                        (b_Status b) (b_EndedReason b) now (b_ExpiresAt b)]> (pd_bindings db)) db)
              else db_fail ErrNoRows
  | None => db_fail ErrNoRows
  end.

Definition endSessionBinding (id reason : string) (db : PoolDB) : bool * PoolDB :=
  match pd_bindings db !! id with
  | Some b => if is_live b then (true, set_bindings (<[id := ended reason b]> (pd_bindings db)) db) else (false, db)
  | None => (false, db)
  end.

(** Ends every live binding that satisfies the WHERE clause; their ids. *)
Definition end_bindings (p : SessionBinding -> bool) (reason : string) (db : PoolDB) : list string * PoolDB :=
  (map b_ID (rows (pd_bindings db) (fun b => is_live b && p b)),
   set_bindings ((fun b => if is_live b && p b then ended reason b else b) <$> pd_bindings db) db).

Definition EndSessionBindingsForAccountTx (accountID reason : string) (db : PoolDB) : list string * PoolDB :=
  end_bindings (fun b => bool_decide (b_AccountID b = accountID)) reason db.

Definition EndSessionBindingsForCredentialTx (credentialID reason : string) (db : PoolDB) : Z * PoolDB :=
  let '(ids, db') := end_bindings (fun b => match pd_accounts db !! b_AccountID b with
                       | Some a => bool_decide (a_CredentialID a = credentialID) | None => false end) reason db in
  (Z.of_nat (length ids), db').

(** The sweep ends at most [limit] expired bindings, the oldest first. *)
Definition EndExpiredSessionBindings (now : instant) (limit : Z) (db : PoolDB) : Z * PoolDB :=
  let due := firstn (Z.to_nat limit)
               (sort_by b_ExpiresAt (rows (pd_bindings db) (fun b => is_live b && (b_ExpiresAt b <=? now)))) in
  let '(ids, db') := end_bindings (fun b => bool_decide (b_ID b ∈ map b_ID due)) BindingEndedExpired db in
  (Z.of_nat (length ids), db').

(** ** Schedulability *)

(** [quotaExhausted] of [routing/account_pool.go]. *)
Definition quotaExhausted (a : UpstreamAccount) (now : instant) : bool :=
  match q_RemainingMicros (a_Quota a) with
  | None => false
  | Some r => if 0 <? r then false else
              match q_ResetAt (a_Quota a) with None => true | Some t => now <? t end
  end.

(** ** The binder *)

Definition DefaultBindingTTL : duration := 24 * hour.

(** What one operation of the binder meets: successive clock readings, the
    database's [now()], a generated id, statements that fail on the way
    ([be_fail n], the n-th), what others commit before the n-th, and the
    outcome of BEGIN and COMMIT. *)
Record BindEnv := mkBindEnv {
  be_TTL : duration;
  be_clock : nat -> instant;
  be_now : instant;
  be_newID : string;
  be_fail : nat -> option error;
  be_others : nat -> PoolDB -> PoolDB;
  be_begin : option error;
  be_commit : CommitOutcome;
}.

Definition stmt {A} (env : BindEnv) (n : nat) (r : res A) : res A :=
  match be_fail env n with Some e => Err e | None => r end.

Definition binding_ttl (env : BindEnv) : duration := if be_TTL env <=? 0 then DefaultBindingTTL else be_TTL env.

Definition new_binding (env : BindEnv) (n : nat) (key model account : string) : SessionBinding :=
  mkBinding (be_newID env) key model account BindingActive None (be_now env) (time_add (be_clock env n) (binding_ttl env)).

Definition Bind (env : BindEnv) (key model account : string) (db : PoolDB) : PoolDB * res SessionBinding :=
  if bool_decide (key = "") || bool_decide (model = "") || bool_decide (account = "")
  then (db, Err (NewError CodeInvalidInput)) else
  let db := be_others env 0 db in
  match stmt env 0 (GetUpstreamAccount account db) with
  | Err e => (db, Err e)
  | Ok a =>
      if negb (bool_decide (a_Status a = AccountActive)) then (db, Err (NewError CodeConflict)) else
      let binding := new_binding env 0 key model account in
      let db := be_others env 1 db in
      match stmt env 1 (insertSessionBinding binding db) with
      | Err e => (db, Err e)
      | Ok db => (db, Ok binding)
      end
  end.

Definition Resolve (env : BindEnv) (key model : string) (db : PoolDB)
  : PoolDB * res (SessionBinding * UpstreamAccount) :=
  let db := be_others env 0 db in
  match stmt env 0 (GetActiveSessionBinding key model (be_clock env 0) db) with
  | Err e => (db, Err e)
  | Ok binding =>
      let db := be_others env 1 db in
      match stmt env 1 (GetUpstreamAccount (b_AccountID binding) db) with
      | Err e => (db, Err e)
      | Ok a =>
          if negb (bool_decide (a_Status a = AccountActive)) || quotaExhausted a (be_clock env 1)
          then (db, Err (NewError CodeConflict)) else
          let db := be_others env 2 db in
          match stmt env 2 (TouchSessionBinding (b_ID binding) (be_now env) db) with
          | Err e => (db, Err (if bool_decide (CodeOf e = CodeNotFound) then WrapError CodeConflict e else e))
          | Ok db => (db, Ok (binding, a))
          end
      end
  end.

(** The transaction of [Migrate]: end the old binding, insert the new one. *)
Definition migrate_tx (env : BindEnv) (key model newAccount : string) (old : option string) (db : PoolDB)
  : PoolDB * res SessionBinding :=
  let body := let? db1 := match old with
                          | Some id => stmt env 2 (Ok (endSessionBinding id BindingEndedMigrated db).2)
                          | None => Ok db end in
              let binding := new_binding env 1 key model newAccount in
              let? db2 := stmt env 3 (insertSessionBinding binding db1) in
              Ok (db2, binding) in
  match body with
  | Err e => (db, Err e)
  | Ok (db', binding) =>
      match be_commit env with
      | Committed => (db', Ok binding)
      | CommitFailed e persisted => (if persisted then db' else db, Err (WrapError CodeInternal e))
      end
  end.

(** The live binding is read outside the transaction that ends it. *)
Definition Migrate (env : BindEnv) (key model newAccount : string) (db : PoolDB) : PoolDB * res SessionBinding :=
  let db := be_others env 0 db in
  match stmt env 0 (GetUpstreamAccount newAccount db) with
  | Err e => (db, Err e)
  | Ok a =>
      if negb (bool_decide (a_Status a = AccountActive)) then (db, Err (NewError CodeConflict)) else
      match be_begin env with
      | Some e => (db, Err (WrapError CodeInternal e))
      | None =>
          let db := be_others env 1 db in
          match stmt env 1 (GetActiveSessionBinding key model (be_clock env 0) db) with
          | Err e =>
              if bool_decide (CodeOf e = CodeNotFound)
              then migrate_tx env key model newAccount None (be_others env 2 db) else (db, Err e)
          | Ok old => migrate_tx env key model newAccount (Some (b_ID old)) (be_others env 2 db)
          end
      end
  end.

Definition End_ (env : BindEnv) (key model reason : string) (db : PoolDB) : PoolDB * res bool :=
  let db := be_others env 0 db in
  match stmt env 0 (GetActiveSessionBinding key model (be_clock env 0) db) with
  | Err e => (db, if bool_decide (CodeOf e = CodeNotFound) then Ok false else Err e)
  | Ok binding =>
      let reason := if bool_decide (reason = "") then BindingEndedOperator else reason in
      let '(r, db') := endSessionBinding (b_ID binding) reason (be_others env 1 db) in
      match stmt env 1 (Ok r) with Err e => (be_others env 1 db, Err e) | Ok r => (db', Ok r) end
  end.

(** ** Retiring an account *)

(** [markAccountReauth] of [workers/upstream_health.go]: the status flip and
    the end of every binding of the account, in one transaction; [audited]
    tells whether the audit row of that transaction is written. *)
Definition schedulable_statuses : list UpstreamAccountStatus := [AccountActive; AccountCooldown; AccountRefreshing].

Definition reauth_tx (now : instant) (audited : res unit) (commit : CommitOutcome) (id : string) (db : PoolDB)
  : PoolDB * res unit :=
  let '(flipped, db1) := SetUpstreamAccountStatusConditional id schedulable_statuses AccountReauthRequired now db in
  if negb flipped then (db, Ok tt) else
  let '(_, db2) := EndSessionBindingsForAccountTx id BindingEndedAccountInvalid db1 in
  match audited with
  | Err e => (db, Err e)
  | Ok _ =>
      match commit with
      | Committed => (db2, Ok tt)
      | CommitFailed e persisted => (if persisted then db2 else db, Err (WrapError CodeInternal e))
      end
  end.

Definition markAccountReauth (env : BindEnv) (audited : res unit) (id : string) (db : PoolDB) : PoolDB * res unit :=
  match be_begin env with
  | Some e => (db, Err (WrapError CodeInternal e))
  | None => reauth_tx (be_now env) audited (be_commit env) id (be_others env 0 db)
  end.

Definition onHealthy (a : UpstreamAccount) (now : instant) (db : PoolDB) : PoolDB :=
  if bool_decide (a_Status a = AccountActive) then db
  else (SetUpstreamAccountStatusConditional (a_ID a) [AccountCooldown; AccountRefreshing] AccountActive now db).2.

Definition onRetryableFailure (a : UpstreamAccount) (now : instant) (db : PoolDB) : PoolDB :=
  if negb (bool_decide (a_Status a = AccountActive)) then db
  else (SetUpstreamAccountStatusConditional (a_ID a) [AccountActive] AccountCooldown now db).2.

(** ** Steps *)

(** One statement, or one transaction, against the pool. *)
Inductive pool_step (db : PoolDB) : PoolDB -> Prop :=
| ps_account_insert newID now refs a db' : InsertUpstreamAccountTx newID now refs a db = Ok db' -> pool_step db db'
| ps_account_status id from to now : pool_step db (SetUpstreamAccountStatusConditional id from to now db).2
| ps_account_credential c from to now : pool_step db (SetUpstreamAccountsStatusByCredentialTx c from to now db).2
| ps_account_quota id q now r db' : UpdateUpstreamAccountQuota id q now db = Ok (r, db') -> pool_step db db'
| ps_account_profile id l now db' : updateUpstreamAccountProfile id l now db = Ok db' -> pool_step db db'
| ps_bind b db' : insertSessionBinding b db = Ok db' -> pool_step db db'
| ps_touch id now db' : TouchSessionBinding id now db = Ok db' -> pool_step db db'
| ps_end id reason : pool_step db (endSessionBinding id reason db).2
| ps_end_all p reason : pool_step db (end_bindings p reason db).2
| ps_migrate env key model account old : pool_step db (migrate_tx env key model account old db).1 
| ps_reauth now audited commit id : pool_step db (reauth_tx now audited commit id db).1.

(** Rows sit under their id; a conversation has at most one live binding. *)
Record pool_ok (db : PoolDB) : Prop := {
  po_id : forall id b, pd_bindings db !! id = Some b -> b_ID b = id;
  po_one : forall id id' b b', pd_bindings db !! id = Some b -> pd_bindings db !! id' = Some b' ->
    is_live b = true -> is_live b' = true -> b_SessionKey b = b_SessionKey b' -> b_ModelID b = b_ModelID b' -> id = id';
}.

(** A binding as it may read later: same conversation, account and end; never
    live again once ended. *)
Definition later_binding (b b' : SessionBinding) : Prop :=
  b_ID b' = b_ID b /\ b_SessionKey b' = b_SessionKey b /\ b_ModelID b' = b_ModelID b /\
  b_AccountID b' = b_AccountID b /\ b_ExpiresAt b' = b_ExpiresAt b /\ (is_live b' = true -> is_live b = true).

Definition pool_later (db db' : PoolDB) : Prop :=
  pool_ok db' /\ forall id b, pd_bindings db !! id = Some b -> exists b', pd_bindings db' !! id = Some b' /\ later_binding b b'.

Lemma later_binding_refl b : later_binding b b.
Proof. by split_and!. Qed.

Lemma later_binding_ended reason b : later_binding b (ended reason b).
Proof. by split_and!. Qed.

Lemma later_binding_trans a b c : later_binding a b -> later_binding b c -> later_binding a c.
Proof. intros (? & ? & ? & ? & ? & ?) (? & ? & ? & ? & ? & ?). split_and!; try congruence. auto. Qed.

Lemma pool_later_refl db : pool_ok db -> pool_later db db.
Proof. intros I. split; [done|]. intros id b H. exists b. split; [done|apply later_binding_refl]. Qed.

Lemma pool_later_trans a b c : pool_later a b -> pool_later b c -> pool_later a c.
Proof.
  intros [_ H1] [I H2]. split; [done|]. intros id x Hx. destruct (H1 _ _ Hx) as (y & Hy & L1).
  destruct (H2 _ _ Hy) as (z & Hz & L2). exists z. split; [done|by eapply later_binding_trans].
Qed.

Lemma pool_same db db' : pd_bindings db' = pd_bindings db -> pool_ok db -> pool_later db db'.
Proof.
  intros E [I U]. split; [by split; rewrite E|]. intros id b H. exists b. rewrite E. split; [done|apply later_binding_refl].
Qed.

(** Rewriting rows in place, each to a later version of itself. *)
Lemma pool_map db m : pool_ok db ->
  (forall id b', m !! id = Some b' -> exists b, pd_bindings db !! id = Some b /\ later_binding b b') ->
  (forall id b, pd_bindings db !! id = Some b -> is_Some (m !! id)) -> pool_later db (set_bindings m db).
Proof.
  intros [I U] Hm Hd. split; [split|]; simpl.
  - intros id b' H. destruct (Hm _ _ H) as (b & Hb & E & _). rewrite E. by apply I.
  - intros id id' b b' H H' L L' E1 E2. destruct (Hm _ _ H) as (x & Hx & ? & ? & ? & _ & _ & Lx).
    destruct (Hm _ _ H') as (y & Hy & ? & ? & ? & _ & _ & Ly). eapply U; [exact Hx|exact Hy|auto..|congruence|congruence].
  - intros id b H. destruct (Hd _ _ H) as [b' Hb']. destruct (Hm _ _ Hb') as (x & Hx & L).
    assert (x = b) as -> by congruence. eauto.
Qed.

Lemma pool_update db id b b' : pool_ok db -> pd_bindings db !! id = Some b -> later_binding b b' ->
  pool_later db (set_bindings (<[id := b']> (pd_bindings db)) db).
Proof.
  intros I Hb L. apply pool_map; [done| |].
  - intros k x [[<- <-]|[_ Hx]]%lookup_insert_Some; [eauto|]. exists x. split; [done|apply later_binding_refl].
  - intros k x Hx. destruct (decide (id = k)) as [->|?]; [by rewrite lookup_insert_eq|by rewrite lookup_insert_ne].
Qed.

Lemma end_later id reason db : pool_ok db -> pool_later db (endSessionBinding id reason db).2.
Proof.
  intros I. unfold endSessionBinding. destruct (pd_bindings db !! id) as [b|] eqn:E; [|by apply pool_later_refl].
  destruct (is_live b); [|by apply pool_later_refl]. eapply pool_update; [done..|apply later_binding_ended].
Qed.

Lemma end_all_later p reason db : pool_ok db -> pool_later db (end_bindings p reason db).2.
Proof.
  intros I. apply pool_map; [done| |]; intros id b.
  - rewrite lookup_fmap, fmap_Some. intros (x & Hx & ->). exists x. split; [done|].
    destruct (_ && _); [apply later_binding_ended|apply later_binding_refl].
  - intros H. by rewrite lookup_fmap, H.
Qed.

Lemma rows_nil {A} (m : gmap string A) p : rows m p = [] <-> forall id a, m !! id = Some a -> p a = false.
Proof.
  unfold rows. split.
  - intros H id a Ha. destruct (p a) eqn:E; [|done]. exfalso.
    assert (In a (List.filter p (map_to_list m).*2)) as Hin; [|by rewrite H in Hin].
    apply List.filter_In. split; [|done]. apply list_elem_of_In, list_elem_of_fmap. exists (id, a).
    by rewrite elem_of_map_to_list.
  - intros H. destruct (List.filter p (map_to_list m).*2) as [|a l] eqn:E; [done|]. exfalso.
    assert (In a (List.filter p (map_to_list m).*2)) as Hin by (rewrite E; by left).
    apply List.filter_In in Hin as [Hin Hp]. apply list_elem_of_In, list_elem_of_fmap in Hin as ([k x] & -> & Hk).
    apply elem_of_map_to_list in Hk. simpl in *. rewrite (H _ _ Hk) in Hp. done.
Qed.

Lemma same_pair_spec key model b : same_pair key model b = true <-> b_SessionKey b = key /\ b_ModelID b = model.
Proof. unfold same_pair. by rewrite andb_true_iff, !bool_decide_eq_true. Qed.

Lemma insertSessionBinding_Ok b db db' : insertSessionBinding b db = Ok db' ->
  pd_bindings db !! b_ID b = None /\ db' = set_bindings (<[b_ID b := b]> (pd_bindings db)) db /\
  (is_live b = true -> forall id x, pd_bindings db !! id = Some x -> is_live x = true ->
     same_pair (b_SessionKey b) (b_ModelID b) x = false).
Proof.
  unfold insertSessionBinding. intros H. apply rbind_Ok in H as (m & Hm & H). apply rbind_Ok in H as ([] & Hu & H).
  apply rbind_Ok in H as ([] & _ & [= <-]). unfold insert_row in Hm. destruct (pd_bindings db !! b_ID b) eqn:E; [done|].
  injection Hm as <-. split_and!; [done..|]. intros Hl id x Hx Lx. unfold unique in Hu. rewrite Hl in Hu. simpl in Hu.
  unfold pair_free in Hu. case_bool_decide as Hr; [|done]. rewrite rows_nil in Hr. specialize (Hr _ _ Hx).
  by rewrite Lx, andb_true_r in Hr.
Qed.

Lemma bind_later b db db' : pool_ok db -> insertSessionBinding b db = Ok db' -> pool_later db db'.
Proof.
  intros [I U] (Hn & -> & Hf)%insertSessionBinding_Ok. split; [split|]; simpl.
  - intros id x [[<- <-]|[_ Hx]]%lookup_insert_Some; eauto.
  - intros id id' x y [[<- <-]|[Hne Hx]]%lookup_insert_Some [[<- <-]|[Hne' Hy]]%lookup_insert_Some Lx Ly E1 E2; [done| | |eauto].
    + specialize (Hf Lx _ _ Hy Ly). apply not_true_iff_false in Hf. destruct Hf. by apply same_pair_spec.
    + specialize (Hf Ly _ _ Hx Lx). apply not_true_iff_false in Hf. destruct Hf. by apply same_pair_spec.
  - intros id x Hx. exists x. split; [|apply later_binding_refl]. rewrite lookup_insert_ne; [done|]. congruence.
Qed.

Lemma touch_later id now db db' : pool_ok db -> TouchSessionBinding id now db = Ok db' -> pool_later db db'.
Proof.
  intros I. unfold TouchSessionBinding. destruct (pd_bindings db !! id) as [b|] eqn:E; [|done].
  destruct (is_live b) eqn:L; [|done]. intros [= <-]. eapply pool_update; [done..|]. by split_and!.
Qed.

Lemma migrate_later env key model account old db : pool_ok db ->
  pool_later db (migrate_tx env key model account old db).1.
Proof.
  intros I. unfold migrate_tx. destruct (match old with Some id => _ | None => _ end) as [db1|e] eqn:E1; [|by apply pool_later_refl].
  assert (pool_later db db1) as L1.
  { destruct old as [id|]; [|injection E1 as <-; by apply pool_later_refl].
    unfold stmt in E1. destruct (be_fail env 2); [done|]. injection E1 as <-. by apply end_later. }
  simpl. unfold stmt. destruct (be_fail env 3); [by apply pool_later_refl|].
  destruct (insertSessionBinding _ db1) as [db2|e] eqn:E2; simpl; [|by apply pool_later_refl].
  apply bind_later in E2; [|apply L1]. assert (pool_later db db2) as L by by eapply pool_later_trans.
  destruct (be_commit env) as [|e []]; simpl; auto using pool_later_refl.
Qed.

Lemma status_bindings id from to now db :
  pd_bindings (SetUpstreamAccountStatusConditional id from to now db).2 = pd_bindings db.
Proof. unfold SetUpstreamAccountStatusConditional. destruct (pd_accounts db !! id); [by case_bool_decide|done]. Qed.

Lemma reauth_later now audited commit id db : pool_ok db -> pool_later db (reauth_tx now audited commit id db).1.
Proof.
  intros I. unfold reauth_tx. pose proof (status_bindings id schedulable_statuses AccountReauthRequired now db) as Hb.
  destruct (SetUpstreamAccountStatusConditional _ _ _ _ db) as [[] db1]; cbn [fst snd negb] in *; [|by apply pool_later_refl].
  assert (pool_later db db1) as L1 by by apply pool_same.
  pose proof (end_all_later (fun b => bool_decide (b_AccountID b = id)) BindingEndedAccountInvalid db1 (proj1 L1)) as L2.
  unfold EndSessionBindingsForAccountTx. destruct (end_bindings _ _ db1) as [ids db2]. simpl in L2.
  assert (pool_later db db2) as L by by eapply pool_later_trans.
  destruct audited; simpl; [|by apply pool_later_refl].
  destruct commit as [|e []]; simpl; auto using pool_later_refl.
Qed.

Lemma step_later db db' : pool_ok db -> pool_step db db' -> pool_later db db'.
Proof.
  intros I []; eauto using bind_later, touch_later, end_later, end_all_later, migrate_later, reauth_later;
    apply pool_same; try done.
  - unfold InsertUpstreamAccountTx in *. repeat match goal with H : rbind _ _ = Ok _ |- _ => apply rbind_Ok in H as (? & ? & H) end.
    by match goal with H : Ok _ = Ok _ |- _ => injection H as <- end.
  - apply status_bindings.
  - unfold UpdateUpstreamAccountQuota in *. destruct (pd_accounts db !! id); [|naive_solver].
    destruct (observation_fresh _ _); [|naive_solver].
    match goal with H : rbind _ _ = Ok _ |- _ => apply rbind_Ok in H as (? & ? & H); by injection H as _ <- end.
  - unfold updateUpstreamAccountProfile in *. destruct (pd_accounts db !! id); [|done].
    match goal with H : rbind _ _ = Ok _ |- _ => apply rbind_Ok in H as (? & ? & H); by injection H as <- end.
Qed.

Lemma steps_later db db' : pool_ok db -> rtc pool_step db db' -> pool_later db db'.
Proof.
  intros I H. induction H as [db|db d db' Hs H IH]; [by apply pool_later_refl|].
  apply step_later in Hs; [|done]. eapply pool_later_trans; [done|]. apply IH, Hs.
Qed.

(** Operations of the binder are runs, whatever happens between their
    statements. *)
Section Runs.
Context (env : BindEnv) (Ho : forall n db, rtc pool_step db (be_others env n db)).

Lemma Bind_run key model account db : rtc pool_step db (Bind env key model account db).1.
Proof using Ho.
  unfold Bind. destruct (_ || _ || _); [done|]. pose proof (Ho 0%nat db) as H0. pose proof (Ho 1%nat (be_others env 0 db)) as H1.
  destruct (stmt env 0 _) as [a|e]; [|done]. destruct (negb _); [done|].
  destruct (stmt env 1 _) as [d|e] eqn:E; simpl; [|by etrans].
  etrans; [exact H0|]. eapply rtc_r; [exact H1|]. unfold stmt in E. destruct (be_fail env 1); [done|]. by eapply ps_bind.
Qed.

Lemma Resolve_run key model db : rtc pool_step db (Resolve env key model db).1.
Proof using Ho.
  unfold Resolve. pose proof (Ho 0%nat db) as H0. destruct (stmt env 0 _) as [b|e]; [|done].
  pose proof (Ho 1%nat (be_others env 0 db)) as H1. destruct (stmt env 1 _) as [a|e]; [|by etrans].
  destruct (_ || _); [by etrans|]. pose proof (Ho 2%nat (be_others env 1 (be_others env 0 db))) as H2.
  destruct (stmt env 2 _) as [d|e] eqn:E; simpl; [|by do 2 (etrans; [eassumption|])].
  etrans; [exact H0|]. etrans; [exact H1|]. eapply rtc_r; [exact H2|]. unfold stmt in E. destruct (be_fail env 2); [done|].
  by eapply ps_touch.
Qed.

Lemma Migrate_run key model account db : rtc pool_step db (Migrate env key model account db).1.
Proof using Ho.
  unfold Migrate. pose proof (Ho 0%nat db) as H0. destruct (stmt env 0 _) as [a|e]; [|done]. destruct (negb _); [done|].
  destruct (be_begin env); [done|]. pose proof (Ho 1%nat (be_others env 0 db)) as H1.
  pose proof (Ho 2%nat (be_others env 1 (be_others env 0 db))) as H2.
  assert (forall old, rtc pool_step db (migrate_tx env key model account old (be_others env 2 (be_others env 1 (be_others env 0 db)))).1) as Hm.
  { intros old. etrans; [exact H0|]. etrans; [exact H1|]. eapply rtc_r; [exact H2|]. apply ps_migrate. }
  destruct (stmt env 1 _) as [b|e]; [apply Hm|]. case_bool_decide; [apply Hm|by etrans].
Qed.
End Runs.

(** C14: A CONVERSATION IS NEVER SILENTLY SWITCHED. Through any interleaving of
    binder operations, account status changes, quota observations and sweeps:
    a (session, model) pair has at most one live binding; a binding keeps its
    conversation, account and end; and once ended it is never live again, so a
    live conversation reaches another account only through a new binding
    inserted after the old one has ended. *)
Theorem binding_never_switches db db' : pool_ok db -> rtc pool_step db db' ->
  pool_ok db' /\
  forall id b, pd_bindings db !! id = Some b -> exists b', pd_bindings db' !! id = Some b' /\ later_binding b b' /\
    forall id' c, pd_bindings db' !! id' = Some c -> is_live c = true -> is_live b' = true ->
      same_pair (b_SessionKey b) (b_ModelID b) c = true -> c = b' /\ b_AccountID c = b_AccountID b.
Proof.
  intros I H. destruct (steps_later _ _ I H) as [I' L]. split; [done|]. intros id b Hb.
  destruct (L _ _ Hb) as (b' & Hb' & Lb). exists b'. split_and!; [done..|]. intros id' c Hc Lc Lb' [E1 E2]%same_pair_spec.
  destruct Lb as (_ & K1 & K2 & K3 & _). assert (id' = id) as -> by (eapply (po_one _ I'); [exact Hc|exact Hb'|congruence..]).
  rewrite Hb' in Hc. injection Hc as <-. done.
Qed.

(** ** Migration *)

(** The conversation's only live binding is [b]. *)
Definition only_live (key model : string) (b : SessionBinding) (db : PoolDB) : Prop :=
  pd_bindings db !! b_ID b = Some b /\ is_live b = true /\ same_pair key model b = true /\
  forall id x, pd_bindings db !! id = Some x -> is_live x = true -> same_pair key model x = true -> x = b.

Lemma bound_only_live b db db' : insertSessionBinding b db = Ok db' -> is_live b = true ->
  only_live (b_SessionKey b) (b_ModelID b) b db'.
Proof.
  intros (Hn & -> & Hf)%insertSessionBinding_Ok L. split_and!; simpl; [by rewrite lookup_insert_eq|done|by apply same_pair_spec|].
  intros id x [[_ <-]|[_ Hx]]%lookup_insert_Some Lx Px; [done|]. by rewrite (Hf L _ _ Hx Lx) in Px.
Qed.

(** MIGRATION IS ATOMIC. A migration that succeeds leaves exactly one live
    binding of the conversation, on the new account, which was active; one
    that fails leaves the tables as the other clients made them, or, when the
    acknowledgement of a commit that took effect was lost, the completed
    migration: there is never a state with no live binding or two. *)
Theorem migrate_atomic env key model account db :
  let '(db', r) := Migrate env key model account db in
  match r with
  | Ok b => only_live key model b db' /\ b_AccountID b = account /\
      exists a, pd_accounts (be_others env 0 db) !! account = Some a /\ a_Status a = AccountActive
  | Err _ => db' = be_others env 0 db \/ db' = be_others env 1 (be_others env 0 db) \/
      db' = be_others env 2 (be_others env 1 (be_others env 0 db)) \/
      (exists e b, be_commit env = CommitFailed e true /\ only_live key model b db' /\ b_AccountID b = account)
  end.
Proof.
  unfold Migrate. destruct (stmt env 0 _) as [a|e] eqn:E0; [|by left]. destruct (negb _) eqn:Ea; [by left|].
  destruct (be_begin env); [by left|].
  assert (exists x, pd_accounts (be_others env 0 db) !! account = Some x /\ a_Status x = AccountActive) as Hacc.
  { unfold stmt in E0. destruct (be_fail env 0); [done|]. unfold GetUpstreamAccount, select_one in E0.
    destruct (pd_accounts _ !! account) as [x|]; [|done]. injection E0 as ->. exists a.
    apply negb_false_iff, bool_decide_eq_true in Ea. done. }
  assert (forall old d, let '(db', r) := migrate_tx env key model account old d in
    match r with
    | Ok b => only_live key model b db' /\ b_AccountID b = account
    | Err _ => db' = d \/ exists e b, be_commit env = CommitFailed e true /\ only_live key model b db' /\ b_AccountID b = account
    end) as Htx.
  { intros old d. unfold migrate_tx. destruct (match old with Some id => _ | None => _ end) as [d1|e]; [|by left]. simpl.
    unfold stmt. destruct (be_fail env 3); [by left|]. destruct (insertSessionBinding _ d1) as [d2|e] eqn:E2; simpl; [|by left].
    apply bound_only_live in E2; [|done]. simpl in E2.
    destruct (be_commit env) as [|e []] eqn:Ec; simpl; [done|right|by left]. eauto. }
  assert (forall old d, d = be_others env 2 (be_others env 1 (be_others env 0 db)) ->
    let '(db', r) := migrate_tx env key model account old d in
    match r with
    | Ok b => only_live key model b db' /\ b_AccountID b = account /\
        exists a, pd_accounts (be_others env 0 db) !! account = Some a /\ a_Status a = AccountActive
    | Err _ => db' = be_others env 0 db \/ db' = be_others env 1 (be_others env 0 db) \/ db' = d \/
        (exists e b, be_commit env = CommitFailed e true /\ only_live key model b db' /\ b_AccountID b = account)
    end) as Hall.
  { intros old d _. specialize (Htx old d). destruct (migrate_tx env key model account old d) as [db' [b|e]].
    - destruct Htx. by split_and!. - destruct Htx as [->|?]; auto. }
  destruct (stmt env 1 _) as [b|e]; [by apply Hall|].
  destruct (bool_decide (CodeOf e = CodeNotFound)); [by apply Hall|by right; left].
Qed.

(** ** The end of a binding's life *)

(** Nothing else happens and no statement fails on the way. *)
Definition calm (env : BindEnv) : Prop :=
  (forall n db, be_others env n db = db) /\ (forall n, be_fail env n = None) /\ be_begin env = None.

(** AN EXPIRED BINDING BLOCKS ITS CONVERSATION UNTIL IT IS SWEPT. Past its
    end a binding that no sweep has ended yet is not live for [Resolve] (not
    found), but still occupies the unique index: [Bind], which the comment on
    [Resolve] prescribes for that answer, and [Migrate] both fail with a
    conflict, on every account. *)
Theorem expired_binding_blocks env key model account db id b a :
  calm env -> pool_ok db -> key <> "" -> model <> "" -> account <> "" ->
  pd_bindings db !! id = Some b -> is_live b = true -> same_pair key model b = true -> b_ExpiresAt b <= be_clock env 0 ->
  pd_accounts db !! account = Some a -> a_Status a = AccountActive -> pd_bindings db !! be_newID env = None ->
  (exists e, Resolve env key model db = (db, Err e) /\ CodeOf e = CodeNotFound) /\
  (exists e, Bind env key model account db = (db, Err e) /\ CodeOf e = CodeConflict) /\
  (exists e, Migrate env key model account db = (db, Err e) /\ CodeOf e = CodeConflict).
Proof.
  intros (Ho & Hf & Hb) I Hk Hm Ha Hid L P Hx Hacc Hact Hfresh.
  assert (GetActiveSessionBinding key model (be_clock env 0) db = db_fail ErrNoRows) as Hget.
  { unfold GetActiveSessionBinding.
    assert (rows (pd_bindings db) (fun b => same_pair key model b && is_live b && (be_clock env 0 <? b_ExpiresAt b)) = []) as ->; [|done].
    apply rows_nil. intros k x Hkx. destruct (same_pair key model x && is_live x) eqn:E; [|done].
    apply andb_true_iff in E as [Px Lx]. apply same_pair_spec in Px as [P1 P2]. pose proof P as [Q1 Q2]%same_pair_spec.
    assert (k = id) as -> by (eapply (po_one _ I); [exact Hkx|exact Hid|congruence..]).
    rewrite Hid in Hkx. injection Hkx as <-. simpl. by apply Z.ltb_ge. }
  assert (forall n, insertSessionBinding (new_binding env n key model account) db = db_fail UniqueViolation) as Hins.
  { intros n. unfold insertSessionBinding, insert_row. simpl. rewrite Hfresh. simpl. unfold pair_free.
    rewrite bool_decide_eq_false_2; [done|]. rewrite rows_nil. intros H. specialize (H _ _ Hid). by rewrite P, L in H. }
  unfold Resolve, Bind, Migrate, migrate_tx, stmt, GetUpstreamAccount, select_one. rewrite !Ho, !Hf, Hget, Hb.
  rewrite !bool_decide_eq_false_2, Hacc, Hact by done. simpl.
  rewrite !Hins. simpl.
  split_and!; eexists; (split; [reflexivity|done]).
Qed.

Module SessionDemo.

Definition account (id : string) : UpstreamAccount :=
  mkAccount id "prov" ("cred-" +:+ id) AccountActive 2 (mkQuota None None None None None) 0.

Definition start : PoolDB :=
  mkPoolDB {[ "a1" := account "a1"; "a2" := account "a2" ]} ∅ ["m1"].

(** The binder at clock reading [t]; nothing fails. *)
Definition env (id : string) (t : instant) : BindEnv :=
  mkBindEnv 0 (fun _ => t) t id (fun _ => None) (fun _ db => db) None Committed.

Lemma env_calm id t : calm (env id t).
Proof. done. Qed.

Definition bound : PoolDB := (Bind (env "b1" 0) "chat" "m1" "a1" start).1.
Definition late : instant := 25 * hour.
Definition swept : PoolDB := (EndExpiredSessionBindings late 100 bound).2.

End SessionDemo.

(** The first turn binds, the account is disabled, its bindings end with it. *)
Lemma binding_never_switches_witness :
  let db' := (reauth_tx 5 (Ok tt) Committed "a1" SessionDemo.bound).1 in
  rtc pool_step SessionDemo.bound db' /\
  exists b', pd_bindings db' !! "b1" = Some b' /\ b_AccountID b' = "a1" /\ b_Status b' = BindingEnded.
Proof.
  set (db' := (reauth_tx 5 (Ok tt) Committed "a1" SessionDemo.bound).1). cbv zeta.
  assert (rtc pool_step SessionDemo.bound db') as H by apply rtc_once, ps_reauth. split; [exact H|].
  assert (pool_ok SessionDemo.start) as I by by split.
  destruct (binding_never_switches SessionDemo.bound db') as [_ L]; [|exact H|].
  - apply (steps_later SessionDemo.start); [exact I|]. apply (Bind_run (SessionDemo.env "b1" 0) (fun _ _ => rtc_refl _ _)).
  - destruct (pd_bindings SessionDemo.bound !! "b1") as [b|] eqn:E; [|by vm_compute in E].
    destruct (L _ _ E) as (b' & Hb' & _). exists b'. split; [exact Hb'|]. vm_compute in Hb'. injection Hb' as <-. done.
Defined.

(** One day after the first turn nothing works; after the sweep it does. *)
Lemma expired_binding_blocks_witness :
  (exists e, Bind (SessionDemo.env "b2" SessionDemo.late) "chat" "m1" "a1" SessionDemo.bound = (SessionDemo.bound, Err e)
     /\ CodeOf e = CodeConflict) /\
  is_ok (Bind (SessionDemo.env "b2" SessionDemo.late) "chat" "m1" "a1" SessionDemo.swept).2 = true.
Proof.
  split; [|by vm_compute].
  destruct (pd_bindings SessionDemo.bound !! "b1") as [b|] eqn:E; [|by vm_compute in E].
  destruct (expired_binding_blocks (SessionDemo.env "b2" SessionDemo.late) "chat" "m1" "a1" SessionDemo.bound "b1" b
    (SessionDemo.account "a1")) as (_ & H & _).
  - apply SessionDemo.env_calm.
  - apply (steps_later SessionDemo.start); [by split|]. apply (Bind_run (SessionDemo.env "b1" 0) (fun _ _ => rtc_refl _ _)).
  - done. - done. - done. - exact E.
  - vm_compute in E. by injection E as <-.
  - vm_compute in E. by injection E as <-.
  - vm_compute in E. by injection E as <-.
  - by vm_compute. - done. - by vm_compute.
  - exact H.
Defined.
