(* ===== verification/Headers.v ===== *)
(** * Headers: the boundary between operator headers and the gateway's own

    [internal/inference/domain/headers.go] (the blacklist of custom request
    headers), [net/textproto.CanonicalMIMEHeaderKey] with which
    [http.Header.Set] files a header, and the header map [Dispatch] of
    [providers/adapter.go] builds. *)

From Stdlib Require Import ZArith Lia Bool Ascii String.
From stdpp Require Import base gmap strings list.
From S2P Require Import Prelude Domain.

Local Open Scope Z_scope.
Local Open Scope go_scope.

(** ** Bytes *)

Definition lower_letter (c : ascii) : bool := let n := N_of_ascii c in (97 <=? n)%N && (n <=? 122)%N.
Definition upper_letter (c : ascii) : bool := let n := N_of_ascii c in (65 <=? n)%N && (n <=? 90)%N.
Definition to_upper (c : ascii) : ascii := if lower_letter c then ascii_of_N (N_of_ascii c - 32) else c.
Definition to_lower (c : ascii) : ascii := if upper_letter c then ascii_of_N (N_of_ascii c + 32) else c.
Definition hyphen (c : ascii) : bool := Ascii.eqb c "-"%char.

(** ** The blacklist *)

Definition reservedHeaders : list string :=
  ["X-Api-Key"; "X-Request-Id"; "Authorization"; "Proxy-Authorization"; "Host"].

(** [upper] holds at the start and after a hyphen; other letters are kept. *)
Fixpoint header_key_from (upper : bool) (s : string) : string :=
  match s with
  | EmptyString => EmptyString
  | String.String c s => String.String (if upper then to_upper c else c) (header_key_from (hyphen c) s)
  end.

Definition canonicalHeaderKey (s : string) : string := header_key_from true s.

Definition ValidateCustomHeaders (headers : list (string * string)) : res unit :=
  fail_if existsb (fun h => bool_decide (canonicalHeaderKey h.1 ∈ reservedHeaders)) headers with EForeign;
  Ok tt.

(** The decoded ["headers"] member of a deployment's configuration: absent,
    an object of strings, or something else. *)
Inductive HeaderConfig := HeadersAbsent | HeadersObject (headers : list (string * string)) | HeadersMalformed.

Definition ExtensionHeaders (cfg : HeaderConfig) : res (list (string * string)) :=
  match cfg with
  | HeadersAbsent => Ok []
  | HeadersObject hs => Ok hs
  | HeadersMalformed => Err (NewError CodeInvalidInput)
  end.

(** ** [http.Header] *)

(** RFC 7230 token bytes. *)
Definition valid_header_byte (c : ascii) : bool :=
  let n := N_of_ascii c in
  lower_letter c || upper_letter c || ((48 <=? n)%N && (n <=? 57)%N)
  || existsb (Ascii.eqb c) ["!"; "#"; "$"; "%"; "&"; "'"; "*"; "+"; "-"; "."; "^"; "_"; "`"; "|"; "~"]%char.

Fixpoint all_bytes (p : ascii -> bool) (s : string) : bool :=
  match s with EmptyString => true | String.String c s => p c && all_bytes p s end.

Fixpoint mime_key_from (upper : bool) (s : string) : string :=
  match s with
  | EmptyString => EmptyString
  | String.String c s => let c := if upper then to_upper c else to_lower c in String.String c (mime_key_from (hyphen c) s)
  end.

Definition CanonicalMIMEHeaderKey (s : string) : string :=
  if all_bytes valid_header_byte s then mime_key_from true s else s.

Definition header_set (h : gmap string string) (kv : string * string) : gmap string string :=
  <[CanonicalMIMEHeaderKey kv.1 := kv.2]> h.

(** The headers of one upstream call: content type and tracing id, then the
    adapter's authentication, then the operator's. [EForeign] stands for the
    text of the boundary error. *)
Definition request_headers (requestID : string) (auth extra : list (string * string)) : res (gmap string string) :=
  let h := header_set (header_set ∅ ("Content-Type", "application/json")) ("X-Request-Id", requestID) in
  let h := foldl header_set h auth in
  match extra with
  | [] => Ok h
  | _ => match ValidateCustomHeaders extra with
         | Err e => Err (WrapError CodeInternal e)
         | Ok _ => Ok (foldl header_set h extra)
         end
  end.

(** ** Where the two canonical forms agree *)

(** Letters after the first of each word are lower case. *)
Fixpoint lower_tails (upper : bool) (s : string) : bool :=
  match s with
  | EmptyString => true
  | String.String c s => (upper || negb (upper_letter c)) && lower_tails (hyphen c) s
  end.

Lemma to_upper_hyphen c : hyphen (to_upper c) = hyphen c.
Proof. by destruct c as [[] [] [] [] [] [] [] []]; vm_compute. Qed.

Lemma to_lower_id c : upper_letter c = false -> to_lower c = c.
Proof. unfold to_lower. by intros ->. Qed.

Lemma canonical_agree s : forall upper, lower_tails upper s = true -> header_key_from upper s = mime_key_from upper s.
Proof.
  induction s as [|c s IH]; intros upper H; simpl in *; [done|].
  apply andb_true_iff in H as [Hc Hs]. destruct upper; simpl in *.
  - by rewrite to_upper_hyphen, IH.
  - rewrite to_lower_id by by apply negb_true_iff. by rewrite IH.
Qed.

Lemma header_set_other k h kv : CanonicalMIMEHeaderKey kv.1 <> k -> header_set h kv !! k = h !! k.
Proof. intros Hne. unfold header_set. by rewrite lookup_insert_ne. Qed.

Lemma headers_set_other k l : forall h, Forall (fun kv => CanonicalMIMEHeaderKey kv.1 <> k) l ->
  foldl header_set h l !! k = h !! k.
Proof.
  induction l as [|kv l IH]; intros h H; [done|]. apply Forall_cons in H as [Hkv H]. simpl.
  rewrite IH by done. by apply header_set_other.
Qed.

Lemma ValidateCustomHeaders_Ok hs : ValidateCustomHeaders hs = Ok tt <->
  Forall (fun h => canonicalHeaderKey h.1 ∉ reservedHeaders) hs.
Proof.
  unfold ValidateCustomHeaders. rewrite Forall_forall. destruct (existsb _ hs) eqn:E.
  - apply existsb_exists in E as (h & Hh & Hr%bool_decide_eq_true). split; [done|]. intros H.
    destruct (H h); [by apply list_elem_of_In|done].
  - split; [|done]. intros _ h Hh Hr. rewrite <- not_true_iff_false, existsb_exists in E. apply E.
    exists h. rewrite bool_decide_eq_true. by rewrite <- list_elem_of_In.
Qed.

(** ** The boundary *)

(** HEADER BOUNDARY. Operator headers whose names have lower-case word
    tails pass the check only if filing them leaves every header the gateway
    manages as it was: the credential, the API key and the tracing id keep the
    gateway's values. Without that proviso the check is no boundary: it
    compares names without lower-casing their tails, so [AUTHORIZATION]
    passes, and filing it replaces the gateway's credential. *)
Theorem header_boundary (requestID : string) (auth : list (string * string)) :
  (forall extra h h0 k, request_headers requestID auth extra = Ok h -> request_headers requestID auth [] = Ok h0 ->
     Forall (fun kv => all_bytes valid_header_byte kv.1 = true /\ lower_tails true kv.1 = true) extra ->
     k ∈ reservedHeaders -> h !! k = h0 !! k) /\
  (forall v, exists h, request_headers requestID auth [("AUTHORIZATION", v)] = Ok h /\ h !! "Authorization" = Some v).
Proof.
  split.
  - intros extra h h0 k H [= <-] Hnames Hk. unfold request_headers in H. destruct extra as [|x extra].
    + by injection H as <-.
    + destruct (ValidateCustomHeaders (x :: extra)) as [[]|] eqn:Hok; [|done]. injection H as <-.
      apply ValidateCustomHeaders_Ok in Hok. apply (headers_set_other k (x :: extra)).
      rewrite Forall_forall in Hok |- *. rewrite Forall_forall in Hnames. intros kv Hkv Heq.
      destruct (Hnames kv Hkv) as [Hb Ht]. apply (Hok kv Hkv).
      unfold canonicalHeaderKey. rewrite (canonical_agree _ _ Ht).
      unfold CanonicalMIMEHeaderKey in Heq. rewrite Hb in Heq. by rewrite Heq.
  - intros v. eexists. split; [reflexivity|]. cbn [foldl]. unfold header_set at 1.
    change (CanonicalMIMEHeaderKey _) with "Authorization". apply lookup_insert_eq.
Qed.

Lemma header_boundary_witness :
  match request_headers "r1" [("Authorization", "Bearer k")] [("X-Region", "eu")] with
  | Ok h => h !! "Authorization" = Some "Bearer k"
  | Err _ => False
  end.
Proof.
  destruct (request_headers "r1" [("Authorization", "Bearer k")] [("X-Region", "eu")]) as [h|e] eqn:E; [|done].
  destruct (request_headers "r1" [("Authorization", "Bearer k")] []) as [h0|e] eqn:E0; [|done].
  rewrite (proj1 (header_boundary "r1" [("Authorization", "Bearer k")]) _ _ _ "Authorization" E E0).
  - injection E0 as <-. by vm_compute.
  - repeat constructor.
  - vm_compute. set_solver.
Defined.
