(* ===== verification/Catalog.v ===== *)
(** * Catalog: the publishable catalogue and its immutable snapshot

    [internal/inference/domain/model.go] (providers, deployments, routes,
    revisions), the validators and the lifecycle machine of
    [internal/inference/catalog/service.go], and the payload and snapshot of
    [internal/inference/catalog/revision.go].

    The domain types are Go strings; a payload carries the same strings, so the
    conversions of the source are identities here and a payload holds the typed
    values. [encoding/json] on plain structs is not modelled: a stored payload
    either decodes to a [catalogPayload] or does not. [net/url] and [net.ParseIP]
    are the argument [parse_url]. *)

From Stdlib Require Import ZArith Lia Bool Ascii String.
From stdpp Require Import base gmap strings list sorting.
From S2P Require Import Prelude Domain Money Calendar WalletRules Principal Entitlements Tables Headers.

Local Open Scope Z_scope.
Local Open Scope go_scope.

(** ** Data *)

Inductive AccessType := AccessOfficialAPI | AccessOAuthConnector | AccessSelfHosted | AccessOther (s : string).
Inductive DeploymentStatus :=
| DeploymentDraft | DeploymentActive | DeploymentDisabled | DeploymentOther (s : string).
Inductive PoolStrategy :=
| PoolUnset | PoolRoundRobin | PoolLeastLoaded | PoolSessionSticky | PoolOther (s : string).

#[global] Instance AccessType_eq_dec : EqDecision AccessType.
Proof. solve_decision. Defined.
#[global] Instance DeploymentStatus_eq_dec : EqDecision DeploymentStatus.
Proof. solve_decision. Defined.
#[global] Instance PoolStrategy_eq_dec : EqDecision PoolStrategy.
Proof. solve_decision. Defined.

(** The timestamps of these records are columns of the tables only. *)
Record Provider := mkProvider {
  pr_ID : string;
  pr_Code : string;
  pr_DisplayName : string;
  pr_AccessType : AccessType;
  pr_Status : string;
}.

(** [d_Config] is the decoded extension configuration: only its headers are read. *)
Record Deployment := mkDeployment {
  d_ID : string;
  d_ProviderID : string;
  d_UpstreamModel : string;
  d_BaseURL : string;
  d_Protocol : Protocol;
  d_Region : string;
  d_ConnectTimeout : duration;
  d_RequestTimeout : duration;
  d_ConfigVersion : Z;
  d_Config : HeaderConfig;
  d_Status : DeploymentStatus;
}.

Record ModelRoute := mkRoute {
  rt_ID : string;
  rt_ModelID : string;
  rt_DeploymentID : string;
  rt_Priority : Z;
  rt_Weight : Z;
  rt_Capabilities : list string;
  rt_PoolStrategy : PoolStrategy;
  rt_Enabled : bool;
}.

Definition millisecond : duration := 1000000.

(** ** Validation *)

Definition invalid {A} : res A := Err (NewError CodeInvalidInput).

Definition digit (c : ascii) : bool := let n := N_of_ascii c in (48 <=? n)%N && (n <=? 57)%N.
Definition slug_start (c : ascii) : bool := lower_letter c || digit c.
Definition model_id_char (c : ascii) : bool :=
  slug_start c || existsb (Ascii.eqb c) ["."; "_"; "-"]%char.
Definition provider_code_char (c : ascii) : bool := slug_start c || existsb (Ascii.eqb c) ["_"; "-"]%char.

(** [^[a-z0-9][...]{0,63}$]. *)
Definition slug (p : ascii -> bool) (s : string) : bool :=
  match s with
  | EmptyString => false
  | String.String c s => slug_start c && all_bytes p s && (String.length s <=? 63)%nat
  end.

Definition modelIDPattern : string -> bool := slug model_id_char.
Definition providerCodePattern : string -> bool := slug provider_code_char.

(** [strings.TrimSpace(s) == ""]. *)
Definition blank (s : string) : bool := bool_decide (TrimSpace (bytes_of s) = []).

Definition upstreamProtocols (p : Protocol) : bool :=
  match p with ProtocolOpenAIChat | ProtocolOpenAIResponses | ProtocolAnthropicMessage => true | _ => false end.

Definition lifecycleTransitions (l : Lifecycle) : option (list Lifecycle) :=
  match l with
  | LifecycleDraft => Some [LifecycleActive; LifecycleDeprecated; LifecycleRetired]
  | LifecycleActive => Some [LifecycleDeprecated; LifecycleRetired]
  | LifecycleDeprecated => Some [LifecycleActive; LifecycleRetired]
  | LifecycleRetired => Some []
  | LifecycleOther _ => None
  end.

(** The empty lifecycle, to be defaulted. *)
Definition LifecycleUnset : Lifecycle := LifecycleOther "".

Definition ValidateModel (m : Model) : res unit :=
  guard modelIDPattern (m_ID m) else NewError CodeInvalidInput;
  fail_if blank (m_DisplayName m) with NewError CodeInvalidInput;
  fail_if negb (bool_decide (m_Lifecycle m = LifecycleUnset))
          && negb (bool_decide (is_Some (lifecycleTransitions (m_Lifecycle m)))) with NewError CodeInvalidInput;
  fail_if m_ContextTokens m <=? 0 with NewError CodeInvalidInput;
  fail_if m_MaxOutputTokens m <=? 0 with NewError CodeInvalidInput;
  fail_if bool_decide (m_Protocols m = []) with NewError CodeInvalidInput;
  fail_if existsb (fun p => negb (bool_decide (p = ProtocolKayaChat)) && negb (upstreamProtocols p)) (m_Protocols m)
    with NewError CodeInvalidInput;
  fail_if existsb (fun v => negb (String.eqb v "text") && negb (String.eqb v "image")) (m_InputModalities m)
    with NewError CodeInvalidInput;
  fail_if bool_decide (m_OutputModalities m = []) with NewError CodeInvalidInput;
  Ok tt.

Definition ValidateProvider (p : Provider) : res unit :=
  guard providerCodePattern (pr_Code p) else NewError CodeInvalidInput;
  fail_if blank (pr_DisplayName p) with NewError CodeInvalidInput;
  guard bool_decide (pr_AccessType p ∈ [AccessOfficialAPI; AccessOAuthConnector; AccessSelfHosted])
    else NewError CodeInvalidInput;
  guard bool_decide (pr_Status p ∈ [""; "active"; "disabled"]) else NewError CodeInvalidInput;
  Ok tt.

(** An IP literal as the check reads it. *)
Record IP := mkIP { ip_Metadata : bool; ip_Loopback : bool; ip_Unspecified : bool }.
Record URL := mkURL { url_Scheme : string; url_Host : string; url_IP : option IP }.

Definition ValidateRoute (r : ModelRoute) : res unit :=
  fail_if String.eqb (rt_ModelID r) "" || String.eqb (rt_DeploymentID r) "" with NewError CodeInvalidInput;
  fail_if rt_Weight r <=? 0 with NewError CodeInvalidInput;
  guard bool_decide (rt_PoolStrategy r ∈ [PoolUnset; PoolRoundRobin; PoolLeastLoaded; PoolSessionSticky])
    else NewError CodeInvalidInput;
  Ok tt.

(** The process-wide recovery grace; [SetRecoveryGrace] ignores a non-positive value. *)
Definition default_grace : duration := 15 * minute.
Definition SetRecoveryGrace (d grace : duration) : duration := if 0 <? d then d else grace.

Definition ValidateDeploymentRecoveryWindow (grace : duration) (d : Deployment) : res unit :=
  fail_if grace <=? d_RequestTimeout d with NewError CodeInvalidInput; Ok tt.

Definition ValidateLifecycleTransition (from to : Lifecycle) : res unit :=
  guard bool_decide (to ∈ default [] (lifecycleTransitions from)) else NewError CodeInvalidInput; Ok tt.

Section Urls.
Context (parse_url : string -> option URL).

Definition validateBaseURL (raw : string) : res unit :=
  match parse_url raw with
  | None => invalid
  | Some u =>
      guard (String.eqb (url_Scheme u) "https" || String.eqb (url_Scheme u) "http")
            && negb (String.eqb (url_Host u) "") else NewError CodeInvalidInput;
      match url_IP u with
      | Some ip => fail_if ip_Metadata ip || ip_Loopback ip || ip_Unspecified ip with NewError CodeInvalidInput;
                   Ok tt
      | None => Ok tt
      end
  end.

Definition ValidateDeployment (d : Deployment) : res unit :=
  fail_if String.eqb (d_ProviderID d) "" with NewError CodeInvalidInput;
  fail_if blank (d_UpstreamModel d) with NewError CodeInvalidInput;
  guard upstreamProtocols (d_Protocol d) else NewError CodeInvalidInput;
  let? _ := validateBaseURL (d_BaseURL d) in
  let? headers := ExtensionHeaders (d_Config d) in
  guard is_ok (ValidateCustomHeaders headers) else NewError CodeInvalidInput;
  fail_if (d_ConnectTimeout d <=? 0) || (d_RequestTimeout d <=? 0) with NewError CodeInvalidInput;
  Ok tt.

(** Every alias names one model and is not itself a model id. *)
Definition alias_step (ids : gset string) (id : string) (owners : gmap string string) (a : string)
  : res (gmap string string) :=
  fail_if bool_decide (a ∈ ids) with NewError CodeInvalidInput;
  fail_if (match owners !! a with Some o => negb (String.eqb o id) | None => false end)
    with NewError CodeInvalidInput;
  Ok (<[a := id]> owners).

Definition validateModelAliasUniqueness (models : list Model) : res unit :=
  let ids := list_to_set (m_ID <$> models) in
  let? _ := rfold (fun owners m => rfold (alias_step ids (m_ID m)) owners (m_Aliases m)) ∅ models in
  Ok tt.

(** ** Payload and snapshot *)

Record payloadDeployment := mkPayloadDeployment {
  pd_ID : string;
  pd_ProviderID : string;
  pd_UpstreamModel : string;
  pd_BaseURL : string;
  pd_Protocol : Protocol;
  pd_Region : string;
  pd_ConnectTimeoutMs : Z;
  pd_RequestTimeoutMs : Z;
  pd_ConfigVersion : Z;
  pd_Config : HeaderConfig;
  pd_Status : DeploymentStatus;
}.

Record catalogPayload := mkPayload {
  cp_SchemaVersion : Z;
  cp_Models : list Model;
  cp_Providers : list Provider;
  cp_Deployments : list payloadDeployment;
  cp_Routes : list ModelRoute;
}.

Definition catalogPayloadSchemaVersion : Z := 1.

Definition by_id {A} (id : A -> string) : list A -> list A :=
  stable_sort (fun a b => string_before (id a) (id b)).

Definition payload_of_deployment (d : Deployment) : payloadDeployment :=
  mkPayloadDeployment (d_ID d) (d_ProviderID d) (d_UpstreamModel d) (d_BaseURL d) (d_Protocol d) (d_Region d)
    (Z.quot (d_ConnectTimeout d) millisecond) (Z.quot (d_RequestTimeout d) millisecond)
    (d_ConfigVersion d) (d_Config d) (d_Status d).

Definition BuildCatalogPayload (models : list Model) (providers : list Provider) (deployments : list Deployment)
    (routes : list ModelRoute) : catalogPayload :=
  mkPayload catalogPayloadSchemaVersion (by_id m_ID models) (by_id pr_ID providers)
    (map payload_of_deployment (by_id d_ID deployments)) (by_id rt_ID routes).

Record Snapshot := mkSnapshot {
  sn_RevisionID : Z;
  sn_Revision : Z;
  sn_PublishedAt : option instant;
  sn_Models : gmap string Model;
  sn_Providers : gmap string Provider;
  sn_Deployments : gmap string Deployment;
  sn_RoutesByModel : gmap string (list ModelRoute);
}.

Inductive ConfigScope := ScopeCatalog | ScopePricing | ScopePolicy.
Inductive RevisionStatus := RevisionDraft | RevisionPublished | RevisionSuperseded.

(** [rev_Payload]: what the stored JSON decodes to, [None] when it does not. *)
Record ConfigRevision := mkRevision {
  rev_ID : Z;
  rev_Scope : ConfigScope;
  rev_Revision : Z;
  rev_Payload : option catalogPayload;
  rev_Status : RevisionStatus;
  rev_IsActive : bool;
  rev_PublishedAt : option instant;
  rev_CreatedBy : string;
}.

Definition deployment_of_payload (p : payloadDeployment) : Deployment :=
  mkDeployment (pd_ID p) (pd_ProviderID p) (pd_UpstreamModel p) (pd_BaseURL p) (pd_Protocol p) (pd_Region p)
    (mul64 (pd_ConnectTimeoutMs p) millisecond) (mul64 (pd_RequestTimeoutMs p) millisecond)
    (pd_ConfigVersion p) (pd_Config p) (pd_Status p).

(** The order of the failover: priority, then weight, then id. *)
Definition route_before (a b : ModelRoute) : bool :=
  if negb (rt_Priority a =? rt_Priority b) then rt_Priority a <? rt_Priority b
  else if negb (rt_Weight a =? rt_Weight b) then rt_Weight b <? rt_Weight a
  else string_before (rt_ID a) (rt_ID b).

Definition parse_models (ms : list Model) : res (gmap string Model) :=
  rfold (fun acc m => let? _ := ValidateModel m in Ok (<[m_ID m := m]> acc)) ∅ ms.

Definition parse_deployments (ds : list payloadDeployment) : res (gmap string Deployment) :=
  rfold (fun acc p => let d := deployment_of_payload p in
                      let? _ := ValidateDeployment d in Ok (<[d_ID d := d]> acc)) ∅ ds.

Definition parse_route (models : gmap string Model) (deployments : gmap string Deployment)
    (acc : gmap string (list ModelRoute)) (r : ModelRoute) : res (gmap string (list ModelRoute)) :=
  let? _ := ValidateRoute r in
  guard has models (rt_ModelID r) else EForeign;
  guard has deployments (rt_DeploymentID r) else EForeign;
  Ok (<[rt_ModelID r := default [] (acc !! rt_ModelID r) ++ [r]]> acc).

Definition ParseSnapshot (rev : ConfigRevision) : res Snapshot :=
  match rev_Payload rev with
  | None => Err EForeign
  | Some p =>
      guard cp_SchemaVersion p =? catalogPayloadSchemaVersion else EForeign;
      let? models := parse_models (cp_Models p) in
      let? _ := validateModelAliasUniqueness (cp_Models p) in
      let providers := foldl (fun acc pr => <[pr_ID pr := pr]> acc) ∅ (cp_Providers p) in
      let? deployments := parse_deployments (cp_Deployments p) in
      let? routes := rfold (parse_route models deployments) ∅ (cp_Routes p) in
      Ok (mkSnapshot (rev_ID rev) (rev_Revision rev) (rev_PublishedAt rev) models providers deployments
            (stable_sort route_before <$> routes))
  end.

End Urls.

(** [Snapshot.Model]; [order] is the order in which Go happens to range over
    the map of models. *)
Definition SnapshotModel (order : list Model) (s : Snapshot) (idOrAlias : string) : option Model :=
  match sn_Models s !! idOrAlias with
  | Some m => Some m
  | None => List.find (fun m => existsb (String.eqb idOrAlias) (m_Aliases m)) order
  end.

Definition ActiveDeployments (s : Snapshot) (modelID : string) : list Deployment :=
  omap (fun r => if rt_Enabled r
                 then match sn_Deployments s !! rt_DeploymentID r with
                      | Some d => if bool_decide (d_Status d = DeploymentActive) then Some d else None
                      | None => None
                      end
                 else None) (default [] (sn_RoutesByModel s !! modelID)).

Definition Sellable (s : Snapshot) (modelID : string) : bool :=
  match sn_Models s !! modelID with
  | None => false
  | Some m => bool_decide (m_Lifecycle m = LifecycleActive)
              && negb (bool_decide (ActiveDeployments s modelID = []))
  end.

Definition ModelIDs (s : Snapshot) : list string :=
  stable_sort string_before (map_to_list (sn_Models s)).*1.

(** ** Tables by id *)

Definition index {A} (id : A -> string) (l : list A) : gmap string A := foldl (fun acc x => <[id x := x]> acc) ∅ l.

Lemma index_snoc {A} (id : A -> string) l x : index id (l ++ [x]) = <[id x := x]> (index id l).
Proof. unfold index. by rewrite foldl_app. Qed.

Lemma index_Some {A} (id : A -> string) l k x : index id l !! k = Some x -> x ∈ l /\ id x = k.
Proof.
  induction l as [|y l IH] using rev_ind; [done|]. rewrite index_snoc, lookup_insert_Some, elem_of_app.
  intros [[<- ->]|[_ H]]; [split; [right; by left|done]|]. apply IH in H as [? ?]. auto.
Qed.

Lemma index_is_Some {A} (id : A -> string) l x : x ∈ l -> exists y, index id l !! id x = Some y.
Proof.
  induction l as [|z l IH] using rev_ind; [set_solver|]. rewrite index_snoc, elem_of_app, list_elem_of_singleton.
  destruct (decide (id z = id x)) as [Hz|Hz]; [rewrite Hz, lookup_insert_eq; eauto|].
  rewrite lookup_insert_ne by done. intros [H| ->]; [auto|done].
Qed.

Lemma index_unique {A} (id : A -> string) l k x : NoDup (id <$> l) ->
  index id l !! k = Some x <-> x ∈ l /\ id x = k.
Proof.
  intros Hnd. split; [apply index_Some|]. intros [Hx <-]. destruct (index_is_Some id l x Hx) as [y Hy].
  rewrite Hy. f_equal. apply index_Some in Hy as [Hyl Hid].
  apply list_elem_of_lookup in Hx as [i Hi]. apply list_elem_of_lookup in Hyl as [j Hj].
  assert (i = j) as ->; [|congruence].
  eapply (NoDup_lookup _ i j (id x) Hnd); rewrite list_lookup_fmap; [by rewrite Hi|by rewrite Hj; simpl; f_equal].
Qed.

Lemma index_perm {A} (id : A -> string) l l' : NoDup (id <$> l) -> l ≡ₚ l' -> index id l = index id l'.
Proof.
  intros Hnd HP. assert (NoDup (id <$> l')) as Hnd' by by rewrite <- HP.
  apply map_eq. intros k. apply option_eq. intros x. rewrite !index_unique by done. by rewrite HP.
Qed.

(** A loop that checks each entry and files it. *)
Lemma checked_index {A} (check : A -> res unit) (id : A -> string) l (m acc : gmap string A) :
  rfold (fun acc x => let? _ := check x in Ok (<[id x := x]> acc)) acc l = Ok m <->
  Forall (fun x => check x = Ok tt) l /\ m = foldl (fun acc x => <[id x := x]> acc) acc l.
Proof.
  revert acc. induction l as [|x l IH]; intros acc; simpl.
  - split; [by intros [= ->]|by intros [_ ->]].
  - destruct (check x) as [[]|e] eqn:E; cbn [rbind].
    + rewrite IH, Forall_cons. naive_solver.
    + split; [done|]. intros [[Hx _]%Forall_cons _]. congruence.
Qed.

Lemma by_id_perm {A} (id : A -> string) l : by_id id l ≡ₚ l.
Proof. apply stable_sort_Permutation. Qed.

Section Parsing.
Context (parse_url : string -> option URL).

Lemma parse_models_Ok ms m :
  parse_models ms = Ok m <-> Forall (fun x => ValidateModel x = Ok tt) ms /\ m = index m_ID ms.
Proof. apply checked_index. Qed.

Lemma parse_deployments_Ok ds m :
  parse_deployments parse_url ds = Ok m <->
  Forall (fun x => ValidateDeployment parse_url x = Ok tt) (map deployment_of_payload ds) /\
  m = index d_ID (map deployment_of_payload ds).
Proof.
  unfold index. etrans; [|apply checked_index]. unfold parse_deployments.
  generalize (∅ : gmap string Deployment). induction ds as [|p ds IH]; intros acc; simpl; [done|].
  destruct (ValidateDeployment parse_url (deployment_of_payload p)); cbn [rbind]; [apply IH|done].
Qed.

(** ** Aliases *)

(** What the alias check promises. *)
Definition aliases_ok (ms : list Model) : Prop :=
  forall m m' a, m ∈ ms -> m' ∈ ms -> a ∈ m_Aliases m ->
    a <> m_ID m' /\ (a ∈ m_Aliases m' -> m_ID m' = m_ID m).

#[global] Instance aliases_ok_perm : Proper (Permutation ==> iff) aliases_ok.
Proof. intros l l' HP. unfold aliases_ok. by setoid_rewrite HP. Qed.

Definition owners_grow (o o' : gmap string string) : Prop := forall a i, o !! a = Some i -> o' !! a = Some i.

Lemma alias_step_grow ids id o a o' : alias_step ids id o a = Ok o' -> owners_grow o o'.
Proof.
  unfold alias_step. intros H b i Hb. inv_ok. destruct (decide (a = b)) as [->|]; [|by rewrite lookup_insert_ne].
  rewrite Hb in E0. apply negb_false_iff, String.eqb_eq in E0. rewrite lookup_insert_eq. by f_equal.
Qed.

Lemma aliases_grow ids id l o o' : rfold (alias_step ids id) o l = Ok o' -> owners_grow o o'.
Proof.
  apply (rfold_rel owners_grow); unfold owners_grow; [done|auto|]. intros x s1 s2 _. apply alias_step_grow.
Qed.

Lemma models_grow ids l o o' :
  rfold (fun o m => rfold (alias_step ids (m_ID m)) o (m_Aliases m)) o l = Ok o' -> owners_grow o o'.
Proof.
  apply (rfold_rel owners_grow); unfold owners_grow; [done|auto|]. intros x s1 s2 _. apply aliases_grow.
Qed.

Lemma alias_owner ids l o o' m a : m ∈ l -> a ∈ m_Aliases m ->
  rfold (fun o m => rfold (alias_step ids (m_ID m)) o (m_Aliases m)) o l = Ok o' ->
  a ∉ ids /\ o' !! a = Some (m_ID m).
Proof.
  intros Hm Ha H. destruct (rfold_elem _ _ _ _ _ Hm H) as (o1 & o2 & ys & H1 & H2 & _).
  destruct (rfold_elem _ _ _ _ _ Ha H1) as (o3 & o4 & zs & H3 & H4 & _).
  assert (Hg : owners_grow o4 o') by (intros b i Hb; eapply models_grow, aliases_grow; eauto).
  unfold alias_step in H3. inv_ok. apply bool_decide_eq_false in E. split; [done|].
  apply Hg. apply lookup_insert_eq.
Qed.

Lemma validateModelAliasUniqueness_Ok ms : validateModelAliasUniqueness ms = Ok tt <-> aliases_ok ms.
Proof.
  unfold validateModelAliasUniqueness. set (ids := list_to_set _). set (F := fun _ _ => _). split.
  - intros H. inv_ok. intros m m' a Hm Hm' Ha. destruct (alias_owner _ _ _ _ _ _ Hm Ha E) as [Hid Ho]. split.
    + intros ->. apply Hid. unfold ids. apply elem_of_list_to_set, list_elem_of_fmap. eauto.
    + intros Ha'. destruct (alias_owner _ _ _ _ _ _ Hm' Ha' E) as [_ Ho']. congruence.
  - intros Hok. set (P := fun o : gmap string string => forall a i, o !! a = Some i ->
                              exists m, m ∈ ms /\ a ∈ m_Aliases m /\ m_ID m = i).
    destruct (rfold_total P F ms ∅) as (o & -> & _); [|unfold P; intros ? ?; by rewrite lookup_empty|done].
    intros m o Hm Ho. apply rfold_total; [|done]. clear o Ho. intros a o Ha Ho. unfold alias_step.
    rewrite bool_decide_eq_false_2.
    2:{ unfold ids. rewrite elem_of_list_to_set, list_elem_of_fmap. intros (m' & -> & Hm').
        by destruct (Hok m m' (m_ID m') Hm Hm' Ha). }
    assert (match o !! a with Some o0 => negb (o0 =? m_ID m)%string | None => false end = false) as ->.
    { destruct (o !! a) as [i|] eqn:Hi; [|done]. destruct (Ho _ _ Hi) as (m' & Hm' & Ha' & <-).
      apply negb_false_iff, String.eqb_eq. by apply (Hok m m' a). }
    eexists. split; [done|]. intros b i [[<- <-]|[_ Hb]]%lookup_insert_Some; eauto.
Qed.

(** ** Routes *)

Definition routes_of (mid : string) (rs : list ModelRoute) : list ModelRoute :=
  List.filter (fun r => String.eqb (rt_ModelID r) mid) rs.

Definition route_ok (models : gmap string Model) (deployments : gmap string Deployment) (r : ModelRoute) : Prop :=
  ValidateRoute r = Ok tt /\ is_Some (models !! rt_ModelID r) /\ is_Some (deployments !! rt_DeploymentID r).

Lemma parse_route_Ok models ds acc r acc' :
  parse_route models ds acc r = Ok acc' <->
  route_ok models ds r /\ acc' = <[rt_ModelID r := default [] (acc !! rt_ModelID r) ++ [r]]> acc.
Proof.
  unfold parse_route, route_ok, has. destruct (ValidateRoute r) as [[]|]; cbn [rbind]; [|naive_solver].
  repeat case_bool_decide; naive_solver.
Qed.

Lemma parse_routes_Ok models ds rs acc acc' :
  rfold (parse_route models ds) acc rs = Ok acc' <->
  Forall (route_ok models ds) rs /\
  acc' = foldl (fun acc r => <[rt_ModelID r := default [] (acc !! rt_ModelID r) ++ [r]]> acc) acc rs.
Proof.
  revert acc. induction rs as [|r rs IH]; intros acc; simpl; [naive_solver|].
  rewrite rbind_Ok, Forall_cons. split.
  - intros (a & [Hr ->]%parse_route_Ok & [? ?]%IH). auto.
  - intros [[Hr Hrs] ->]. eexists. rewrite parse_route_Ok, IH. auto.
Qed.

Lemma grouped_routes rs acc mid :
  default [] (foldl (fun (acc : gmap string (list ModelRoute)) r =>
                       <[rt_ModelID r := default [] (acc !! rt_ModelID r) ++ [r]]> acc) acc rs !! mid)
  = default [] (acc !! mid) ++ routes_of mid rs.
Proof.
  revert acc. induction rs as [|r rs IH]; intros acc; simpl; [by rewrite app_nil_r|]. rewrite IH.
  destruct (String.eqb_spec (rt_ModelID r) mid) as [->|Hne].
  - rewrite lookup_insert_eq. simpl. by rewrite <- app_assoc.
  - by rewrite lookup_insert_ne.
Qed.

(** ** What a parsed snapshot is *)

Record parsed (p : catalogPayload) (s : Snapshot) : Prop := {
  ps_version : cp_SchemaVersion p = catalogPayloadSchemaVersion;
  ps_models_ok : Forall (fun m => ValidateModel m = Ok tt) (cp_Models p);
  ps_models : sn_Models s = index m_ID (cp_Models p);
  ps_aliases : aliases_ok (cp_Models p);
  ps_providers : sn_Providers s = index pr_ID (cp_Providers p);
  ps_deployments_ok :
    Forall (fun d => ValidateDeployment parse_url d = Ok tt) (map deployment_of_payload (cp_Deployments p));
  ps_deployments : sn_Deployments s = index d_ID (map deployment_of_payload (cp_Deployments p));
  ps_routes_ok : Forall (route_ok (sn_Models s) (sn_Deployments s)) (cp_Routes p);
  ps_routes mid : default [] (sn_RoutesByModel s !! mid) = stable_sort route_before (routes_of mid (cp_Routes p));
}.

Lemma default_fmap_sort (m : gmap string (list ModelRoute)) mid :
  default [] ((stable_sort route_before <$> m) !! mid) = stable_sort route_before (default [] (m !! mid)).
Proof. rewrite lookup_fmap. by destruct (m !! mid). Qed.

Lemma ParseSnapshot_Ok rev p s : rev_Payload rev = Some p -> ParseSnapshot parse_url rev = Ok s -> parsed p s.
Proof.
  intros Hp H. unfold ParseSnapshot in H. rewrite Hp in H. inv_ok. bool_prop.
  apply parse_models_Ok in E0 as [Hms ->]. destruct x0. apply validateModelAliasUniqueness_Ok in E1.
  apply parse_deployments_Ok in E2 as [Hds ->]. apply parse_routes_Ok in E3 as [Hrs ->].
  split; simpl; try done. intros mid. by rewrite default_fmap_sort, grouped_routes, lookup_empty.
Qed.

Lemma ParseSnapshot_complete rev p :
  rev_Payload rev = Some p -> cp_SchemaVersion p = catalogPayloadSchemaVersion ->
  Forall (fun m => ValidateModel m = Ok tt) (cp_Models p) -> aliases_ok (cp_Models p) ->
  Forall (fun d => ValidateDeployment parse_url d = Ok tt) (map deployment_of_payload (cp_Deployments p)) ->
  Forall (route_ok (index m_ID (cp_Models p)) (index d_ID (map deployment_of_payload (cp_Deployments p))))
    (cp_Routes p) ->
  exists s, ParseSnapshot parse_url rev = Ok s /\ sn_RevisionID s = rev_ID rev /\ sn_Revision s = rev_Revision rev.
Proof.
  intros Hp Hv Hms Hal Hds Hrs. unfold ParseSnapshot. rewrite Hp, Hv. cbn [Z.eqb]. rewrite Z.eqb_refl.
  rewrite (proj2 (parse_models_Ok _ _) (conj Hms eq_refl)). cbn [rbind].
  rewrite (proj2 (validateModelAliasUniqueness_Ok _) Hal). cbn [rbind].
  rewrite (proj2 (parse_deployments_Ok _ _) (conj Hds eq_refl)). cbn [rbind].
  rewrite (proj2 (parse_routes_Ok _ _ _ _ _) (conj Hrs eq_refl)). cbn [rbind]. eauto.
Qed.

End Parsing.

(** ** The properties *)

(** ALIAS RESOLUTION. A loaded snapshot resolves a name to a model exactly
    when the name is that model's id or one of its aliases, whatever order Go
    ranges over the map of models in: resolution is deterministic, no alias
    reaches two models and none is shadowed by an id. *)
Theorem alias_resolution (parse_url : string -> option URL) (rev : ConfigRevision) (s : Snapshot)
    (order : list Model) (name : string) (m : Model) :
  ParseSnapshot parse_url rev = Ok s -> order ≡ₚ (map_to_list (sn_Models s)).*2 ->
  SnapshotModel order s name = Some m <->
  sn_Models s !! m_ID m = Some m /\ (name = m_ID m \/ name ∈ m_Aliases m).
Proof.
  intros Hparse Horder. destruct (rev_Payload rev) as [p|] eqn:Hp.
  2:{ unfold ParseSnapshot in Hparse. by rewrite Hp in Hparse. }
  destruct (ParseSnapshot_Ok _ _ _ _ Hp Hparse) as [_ _ Hms Hal _ _ _ _ _].
  assert (Hin : forall x, x ∈ order <-> sn_Models s !! m_ID x = Some x).
  { intros x. rewrite Horder, list_elem_of_fmap. split.
    - intros ([k y] & -> & Hy%elem_of_map_to_list). simpl. rewrite Hms in Hy |- *.
      pose proof Hy as [_ <-]%index_Some. done.
    - intros Hx. exists (m_ID x, x). by rewrite elem_of_map_to_list. }
  assert (Hel : forall k x, sn_Models s !! k = Some x -> x ∈ cp_Models p /\ m_ID x = k)
    by (rewrite Hms; apply index_Some).
  unfold SnapshotModel. destruct (sn_Models s !! name) as [x|] eqn:Hx.
  - destruct (Hel _ _ Hx) as [Hxp Hid]. split; [intros [= ->]; rewrite Hid; auto|].
    intros [Hm [->|Ha]]; [congruence|]. destruct (Hel _ _ Hm) as [Hmp _].
    by destruct (Hal m x name Hmp Hxp Ha).
  - split.
    + intros [Hm Ha]%find_some. apply list_elem_of_In, Hin in Hm. split; [done|]. right.
      apply existsb_exists in Ha as (a & Ha & ->%String.eqb_eq). by apply list_elem_of_In.
    + intros [Hm [->|Ha]]; [congruence|]. destruct (List.find _ order) as [y|] eqn:Hf.
      * apply find_some in Hf as [Hy Ha']. apply list_elem_of_In, Hin in Hy. f_equal.
        apply existsb_exists in Ha' as (a & Ha' & <-%String.eqb_eq). apply list_elem_of_In in Ha'.
        destruct (Hel _ _ Hm) as [Hmp _], (Hel _ _ Hy) as [Hyp _].
        destruct (Hal m y name Hmp Hyp Ha) as [_ Heq]. rewrite (Heq Ha') in Hy. congruence.
      * apply Hin, list_elem_of_In in Hm. apply (find_none _ _ Hf) in Hm.
        apply not_true_iff_false in Hm. destruct Hm. apply existsb_exists. exists name.
        by rewrite <- list_elem_of_In, String.eqb_refl.
Qed.

(** ** Publishing *)

(** [validateCatalogForPublish]. *)
Definition validateCatalogForPublish (parse_url : string -> option URL) (models : list Model)
    (providers : list Provider) (deployments : list Deployment) : res unit :=
  let providerIDs : gset string := list_to_set (pr_ID <$> providers) in
  let? _ := rfold (fun _ p => ValidateProvider p) tt providers in
  let? _ := rfold (fun _ m => ValidateModel m) tt models in
  let? _ := validateModelAliasUniqueness models in
  rfold (fun _ d => let? _ := ValidateDeployment parse_url d in
                    guard bool_decide (d_ProviderID d ∈ providerIDs) else NewError CodeInvalidInput;
                    Ok tt) tt deployments.

Lemma all_checked {A} (check : A -> res unit) l :
  rfold (fun _ x => check x) tt l = Ok tt <-> Forall (fun x => check x = Ok tt) l.
Proof.
  induction l as [|x l IH]; simpl; [naive_solver|]. rewrite Forall_cons, <- IH.
  destruct (check x) as [[]|]; simpl; naive_solver.
Qed.

Record publishable (parse_url : string -> option URL) (ms : list Model) (ps : list Provider)
    (ds : list Deployment) : Prop := {
  pb_providers : Forall (fun p => ValidateProvider p = Ok tt) ps;
  pb_models : Forall (fun m => ValidateModel m = Ok tt) ms;
  pb_aliases : aliases_ok ms;
  pb_deployments : Forall (fun d => ValidateDeployment parse_url d = Ok tt /\ d_ProviderID d ∈ pr_ID <$> ps) ds;
}.

Lemma validateCatalogForPublish_Ok parse_url ms ps ds :
  validateCatalogForPublish parse_url ms ps ds = Ok tt <-> publishable parse_url ms ps ds.
Proof.
  unfold validateCatalogForPublish. split.
  - intros H. inv_ok. destruct x, x0, x1. apply all_checked in E, E0, H. apply validateModelAliasUniqueness_Ok in E1.
    split; [done..|]. eapply Forall_impl; [exact H|]. simpl. intros d Hd. inv_ok. destruct x. bool_prop.
    match goal with Hin : _ ∈ list_to_set _ |- _ => by apply elem_of_list_to_set in Hin end.
  - intros [Hp%all_checked Hm%all_checked Ha%validateModelAliasUniqueness_Ok Hd].
    rewrite Hp. cbn [rbind]. rewrite Hm. cbn [rbind]. rewrite Ha. cbn [rbind]. apply all_checked.
    eapply Forall_impl; [exact Hd|]. simpl. intros d [-> Hin]. cbn [rbind]. by rewrite bool_decide_eq_true_2 by by apply elem_of_list_to_set.
Qed.

Lemma route_before_asym a b : route_before a b = true -> route_before b a = false.
Proof.
  unfold route_before. rewrite (Z.eqb_sym (rt_Priority b)), (Z.eqb_sym (rt_Weight b)).
  destruct (rt_Priority a =? rt_Priority b); simpl; [|intros ?%Z.ltb_lt; apply Z.ltb_ge; lia].
  destruct (rt_Weight a =? rt_Weight b); simpl; [|intros ?%Z.ltb_lt; apply Z.ltb_ge; lia].
  apply string_before_asym.
Qed.

Lemma route_before_neg a b c : route_before b a = false -> route_before c b = false -> route_before c a = false.
Proof.
  unfold route_before.
  destruct (Z.eqb_spec (rt_Priority b) (rt_Priority a)), (Z.eqb_spec (rt_Priority c) (rt_Priority b)),
    (Z.eqb_spec (rt_Priority c) (rt_Priority a)); simpl; try lia;
  destruct (Z.eqb_spec (rt_Weight b) (rt_Weight a)), (Z.eqb_spec (rt_Weight c) (rt_Weight b)),
    (Z.eqb_spec (rt_Weight c) (rt_Weight a)); simpl; try lia;
  rewrite ?Z.ltb_ge; try lia; apply string_before_neg.
Qed.

(** A timeout column: a positive INT of milliseconds. *)
Definition whole_ms (t : duration) : Prop := exists k, 0 < k < 2 ^ 31 /\ t = k * millisecond.

Lemma whole_ms_back t : whole_ms t -> mul64 (Z.quot t millisecond) millisecond = t.
Proof.
  intros (k & Hk & ->). rewrite Z.quot_mul by done. unfold mul64, millisecond. rewrite wrap64_id; [done|].
  unfold in_int64, min_int64, max_int64. lia.
Qed.

Lemma deployment_back d : whole_ms (d_ConnectTimeout d) -> whole_ms (d_RequestTimeout d) ->
  deployment_of_payload (payload_of_deployment d) = d.
Proof.
  intros Hc Hr. destruct d. unfold deployment_of_payload, payload_of_deployment. simpl in *.
  by rewrite !whole_ms_back.
Qed.

Lemma deployments_back ds :
  Forall (fun d => whole_ms (d_ConnectTimeout d) /\ whole_ms (d_RequestTimeout d)) ds ->
  map deployment_of_payload (map payload_of_deployment ds) = ds.
Proof. induction 1 as [|d ds [Hc Hr] _ IH]; simpl; [done|]. by rewrite deployment_back, IH. Qed.

#[global] Instance routes_of_perm mid : Proper (Permutation ==> Permutation) (routes_of mid).
Proof.
  intros l l' HP. unfold routes_of. induction HP; simpl; [done| | |by etrans]; repeat case_match; auto.
  constructor.
Qed.

(** A catalogue that passes the publish gate,
    with the keys and columns its tables enforce, always loads again: the
    payload built from it parses, every model, provider and deployment comes
    back under its id exactly as published, timeouts included, and each model
    gets its routes in failover order. *)
Lemma published_loads (parse_url : string -> option URL) (rev : ConfigRevision) (ms : list Model)
    (ps : list Provider) (ds : list Deployment) (rs : list ModelRoute) :
  validateCatalogForPublish parse_url ms ps ds = Ok tt ->
  NoDup (m_ID <$> ms) -> NoDup (pr_ID <$> ps) -> NoDup (d_ID <$> ds) ->
  Forall (fun d => whole_ms (d_ConnectTimeout d) /\ whole_ms (d_RequestTimeout d)) ds ->
  Forall (fun r => ValidateRoute r = Ok tt /\ rt_ModelID r ∈ m_ID <$> ms /\ rt_DeploymentID r ∈ d_ID <$> ds) rs ->
  rev_Payload rev = Some (BuildCatalogPayload ms ps ds rs) ->
  exists s, ParseSnapshot parse_url rev = Ok s /\
    (forall k m, sn_Models s !! k = Some m <-> m ∈ ms /\ m_ID m = k) /\
    (forall k p, sn_Providers s !! k = Some p <-> p ∈ ps /\ pr_ID p = k) /\
    (forall k d, sn_Deployments s !! k = Some d <-> d ∈ ds /\ d_ID d = k) /\
    (forall mid, default [] (sn_RoutesByModel s !! mid) ≡ₚ routes_of mid rs /\
                 in_order route_before (default [] (sn_RoutesByModel s !! mid))).
Proof.
  intros Hok Hms Hps Hds Hto Hrs Hrev. apply validateCatalogForPublish_Ok in Hok as [_ Hm Ha Hd].
  set (p := BuildCatalogPayload ms ps ds rs) in *.
  assert (Hback : map deployment_of_payload (cp_Deployments p) = by_id d_ID ds)
    by (apply deployments_back; by rewrite by_id_perm).
  assert (Hdx : index d_ID (map deployment_of_payload (cp_Deployments p)) = index d_ID ds)
    by (rewrite Hback; symmetry; apply index_perm; [done|symmetry; apply by_id_perm]).
  assert (Hmx : index m_ID (cp_Models p) = index m_ID ms)
    by (symmetry; apply index_perm; [done|symmetry; apply by_id_perm]).
  destruct (ParseSnapshot_complete parse_url rev p) as (s & Hs & _ & _); try done.
  - simpl. by rewrite by_id_perm.
  - simpl. by rewrite by_id_perm.
  - rewrite Hback, by_id_perm. eapply Forall_impl; [exact Hd|]. by intros d [? _].
  - rewrite Hmx, Hdx. simpl. rewrite by_id_perm. eapply Forall_impl; [exact Hrs|]. unfold route_ok. simpl.
    intros r (Hv & (m & -> & Hin)%list_elem_of_fmap & (d & -> & Hind)%list_elem_of_fmap).
    split_and!; [done|by apply index_is_Some..].
  - exists s. destruct (ParseSnapshot_Ok _ _ _ _ Hrev Hs) as [_ _ Hsm _ Hsp _ Hsd _ Hsr].
    rewrite Hsm, Hsp, Hsd, Hmx, Hdx.
    assert (index pr_ID (cp_Providers p) = index pr_ID ps) as ->
      by (symmetry; apply index_perm; [done|symmetry; apply by_id_perm]).
    split_and!; [done|intros; by apply index_unique..|]. intros mid. rewrite Hsr. split.
    + rewrite stable_sort_Permutation. simpl. by rewrite by_id_perm.
    + apply stable_sort_order; [apply route_before_neg|apply route_before_asym].
Qed.


(** ** A concrete catalogue *)

Definition demo_parse_url (raw : string) : option URL :=
  if String.eqb raw "https://up/v1" then Some (mkURL "https" "up" None) else None.
Definition demo_model (id : string) (aliases : list string) : Model :=
  mkModel id "Demo" LifecycleActive "" aliases [] ["text"] 128000 4096 [ProtocolOpenAIChat] true false.
Definition demo_provider : Provider := mkProvider "p1" "vendor" "Vendor" AccessOfficialAPI "active".
Definition demo_deployment (id : string) : Deployment :=
  mkDeployment id "p1" "upstream" "https://up/v1" ProtocolOpenAIChat "" (5000 * millisecond) (600000 * millisecond)
    1 HeadersAbsent DeploymentActive.
Definition demo_route (id mid did : string) (priority : Z) : ModelRoute :=
  mkRoute id mid did priority 1 [] PoolRoundRobin true.
Definition demo_payload : catalogPayload :=
  BuildCatalogPayload [demo_model "m2" ["latest"]; demo_model "m1" []] [demo_provider]
    [demo_deployment "d2"; demo_deployment "d1"] [demo_route "r1" "m2" "d1" 1; demo_route "r2" "m2" "d2" 0].
Definition demo_revision : ConfigRevision :=
  mkRevision 7 ScopeCatalog 3 (Some demo_payload) RevisionPublished true (Some 0) "operator".

Definition demo_snapshot : Snapshot :=
  match ParseSnapshot demo_parse_url demo_revision with
  | Ok s => s
  | Err _ => mkSnapshot 0 0 None ∅ ∅ ∅ ∅
  end.

Lemma alias_resolution_witness :
  SnapshotModel [demo_model "m1" []; demo_model "m2" ["latest"]] demo_snapshot "latest"
    = Some (demo_model "m2" ["latest"]).
Proof.
  apply (alias_resolution demo_parse_url demo_revision).
  - by vm_compute.
  - assert (demo_model "m1" [] :: [demo_model "m2" ["latest"]] ≡ₚ (map_to_list (sn_Models demo_snapshot)).*2) as H.
    { assert ((map_to_list (sn_Models demo_snapshot)).*2 = [demo_model "m1" []; demo_model "m2" ["latest"]]
              \/ (map_to_list (sn_Models demo_snapshot)).*2 = [demo_model "m2" ["latest"]; demo_model "m1" []])
        as [-> | ->] by (vm_compute; auto); [done|constructor]. }
    exact H.
  - split; [by vm_compute|]. right. by left.
Defined.
