(* ===== verification/CatalogStore.v ===== *)
(** * CatalogStore: the catalogue tables

    The tables of migration 024 with the statements of
    [internal/inference/postgres/catalog_repo.go]: optimistic-lock edits,
    guarded deletes, keyset listings and the revision history. Rows whose
    [updated_at] is a lock token carry it beside the record; a deployment's
    token is its [config_version]. *)

From Stdlib Require Import ZArith Lia Bool Ascii String.
From stdpp Require Import base gmap strings list relations.
From S2P Require Import Prelude Domain Money Calendar WalletRules Principal Entitlements Tables Headers Catalog.

Local Open Scope Z_scope.
Local Open Scope go_scope.

Record CatalogDB := mkCatalogDB {
  cd_models : gmap string (Model * instant);
  cd_providers : gmap string (Provider * instant);
  cd_deployments : gmap string Deployment;
  cd_routes : gmap string (ModelRoute * instant);
  (** in the order of insertion *)
  cd_revisions : list ConfigRevision;
}.

Definition set_cd_models v (db : CatalogDB) : CatalogDB :=
  mkCatalogDB v (cd_providers db) (cd_deployments db) (cd_routes db) (cd_revisions db).
Definition set_cd_providers v (db : CatalogDB) : CatalogDB :=
  mkCatalogDB (cd_models db) v (cd_deployments db) (cd_routes db) (cd_revisions db).
Definition set_cd_deployments v (db : CatalogDB) : CatalogDB :=
  mkCatalogDB (cd_models db) (cd_providers db) v (cd_routes db) (cd_revisions db).
Definition set_cd_routes v (db : CatalogDB) : CatalogDB :=
  mkCatalogDB (cd_models db) (cd_providers db) (cd_deployments db) v (cd_revisions db).
Definition set_cd_revisions v (db : CatalogDB) : CatalogDB :=
  mkCatalogDB (cd_models db) (cd_providers db) (cd_deployments db) (cd_routes db) v.

(** An INT column. *)
Definition is_int4 (z : Z) : bool := (- 2 ^ 31 <=? z) && (z <? 2 ^ 31).
Definition int4 (z : Z) : res unit := if is_int4 z then Ok tt else db_fail OtherDbError.

(** [LIMIT]: the page size a listing uses. *)
Definition page_limit (limit : Z) : nat := if (limit <=? 0) || (500 <? limit) then 100%nat else Z.to_nat limit.

(** [WHERE id > after ORDER BY id LIMIT n], on rows already restricted. *)
Definition keyset {A} (id : A -> string) (after : string) (limit : Z) (l : list A) : list A :=
  take (page_limit limit) (by_id id (List.filter (fun x => string_before after (id x)) l)).

(** Where a first page has no cursor. *)
Definition keyset_opt {A} (id : A -> string) (after : string) (limit : Z) (l : list A) : list A :=
  if String.eqb after "" then take (page_limit limit) (by_id id l) else keyset id after limit l.

Definition table {A} (m : gmap string A) : list A := (map_to_list m).*2.

(** A stale token is a conflict, a missing row is not found. *)
Definition ensureUpdated {A} (exists_ : bool) : res A :=
  Err (NewError (if exists_ then CodeConflict else CodeNotFound)).

(** DELETE of a row; [referenced] stands for rows of tables outside the
    catalogue and is mapped to a conflict ([mapDeleteFK]). *)
Definition delete_row {A} (k : string) (referenced : bool) (m : gmap string A) : res (gmap string A) :=
  match m !! k with
  | None => db_fail ErrNoRows
  | Some _ => if referenced then Err (NewError CodeConflict) else Ok (delete k m)
  end.

(** ** Models *)

Definition model_row_ok (m : Model) : bool :=
  modelIDPattern (m_ID m) && bool_decide (is_Some (lifecycleTransitions (m_Lifecycle m)))
  && (0 <? m_ContextTokens m) && (0 <? m_MaxOutputTokens m).

Definition model_ints (m : Model) : res unit := let? _ := int4 (m_ContextTokens m) in int4 (m_MaxOutputTokens m).

Definition set_m_Lifecycle (l : Lifecycle) (m : Model) : Model :=
  mkModel (m_ID m) (m_DisplayName m) l (m_ModelVersion m) (m_Aliases m) (m_InputModalities m)
    (m_OutputModalities m) (m_ContextTokens m) (m_MaxOutputTokens m) (m_Protocols m) (m_SupportsTools m)
    (m_SupportsReasoning m).

Definition InsertModel (m : Model) (now : instant) (db : CatalogDB) : res CatalogDB :=
  let m := if bool_decide (m_Lifecycle m = LifecycleUnset) then set_m_Lifecycle LifecycleDraft m else m in
  let? _ := model_ints m in
  let? _ := check (model_row_ok m) in
  let? t := insert_row (m_ID m) (m, now) (cd_models db) in
  Ok (set_cd_models t db).

Definition GetModel (id : string) (db : CatalogDB) : res (Model * instant) := select_one id (cd_models db).

Definition lifecycle_is (l : option Lifecycle) (m : Model) : bool :=
  match l with Some l => bool_decide (m_Lifecycle m = l) | None => true end.

Definition ListModels (lifecycle : option Lifecycle) (after : string) (limit : Z) (db : CatalogDB) : list Model :=
  keyset m_ID after limit (List.filter (lifecycle_is lifecycle) (table (cd_models db)).*1).

Definition UpdateModel (m : Model) (token now : instant) (db : CatalogDB) : res CatalogDB :=
  let? _ := model_ints m in
  match cd_models db !! m_ID m with
  | Some (_, t) =>
      if t =? token then
        let? _ := check (model_row_ok m) in
        Ok (set_cd_models (<[m_ID m := (m, now)]> (cd_models db)) db)
      else ensureUpdated true
  | None => ensureUpdated false
  end.

(** The routes go in the same transaction. *)
Definition DeleteModel (id : string) (referenced : bool) (db : CatalogDB) : res CatalogDB :=
  let? t := delete_row id referenced (cd_models db) in
  let routes := filter (fun r : string * (ModelRoute * instant) => rt_ModelID r.2.1 <> id) (cd_routes db) in
  Ok (set_cd_models t (set_cd_routes routes db)).

(** ** Providers *)

Definition provider_row_ok (p : Provider) : bool :=
  providerCodePattern (pr_Code p)
  && bool_decide (pr_AccessType p ∈ [AccessOfficialAPI; AccessOAuthConnector; AccessSelfHosted])
  && bool_decide (pr_Status p ∈ ["active"; "disabled"]).

(** UNIQUE (code), the row itself apart. *)
Definition code_free (id code : string) (db : CatalogDB) : bool :=
  forallb (fun p : Provider => negb (String.eqb (pr_Code p) code) || String.eqb (pr_ID p) id)
    (table (cd_providers db)).*1.

Definition InsertProvider (newID : string) (p : Provider) (now : instant) (db : CatalogDB)
  : res (Provider * CatalogDB) :=
  let status := if String.eqb (pr_Status p) "" then "active" else pr_Status p in
  let p := mkProvider newID (pr_Code p) (pr_DisplayName p) (pr_AccessType p) status in
  let? _ := check (provider_row_ok p) in
  let? t := insert_row newID (p, now) (cd_providers db) in
  let? _ := unique (code_free newID (pr_Code p) db) in
  Ok (p, set_cd_providers t db).

Definition GetProvider (id : string) (db : CatalogDB) : res (Provider * instant) := select_one id (cd_providers db).

Definition GetProviderByCode (code : string) (db : CatalogDB) : res Provider :=
  match List.find (fun p => String.eqb (pr_Code p) code) (table (cd_providers db)).*1 with
  | Some p => Ok p
  | None => db_fail ErrNoRows
  end.

Definition ListProviders (after : string) (limit : Z) (db : CatalogDB) : list Provider :=
  keyset_opt pr_ID after limit (table (cd_providers db)).*1.

Definition UpdateProvider (p : Provider) (token now : instant) (db : CatalogDB) : res CatalogDB :=
  match cd_providers db !! pr_ID p with
  | Some (_, t) =>
      if t =? token then
        let? _ := check (provider_row_ok p) in
        let? _ := unique (code_free (pr_ID p) (pr_Code p) db) in
        Ok (set_cd_providers (<[pr_ID p := (p, now)]> (cd_providers db)) db)
      else ensureUpdated true
  | None => ensureUpdated false
  end.

Definition DeleteProvider (id : string) (referenced : bool) (db : CatalogDB) : res CatalogDB :=
  let used := existsb (fun d => String.eqb (d_ProviderID d) id) (table (cd_deployments db)) in
  let? t := delete_row id (referenced || used) (cd_providers db) in
  Ok (set_cd_providers t db).

(** ** Deployments *)

Definition deployment_row_ok (d : Deployment) : bool :=
  upstreamProtocols (d_Protocol d) && (0 <? d_ConnectTimeout d) && (0 <? d_RequestTimeout d)
  && (0 <? d_ConfigVersion d)
  && bool_decide (d_Status d ∈ [DeploymentDraft; DeploymentActive; DeploymentDisabled]).

(** The row a deployment is stored as: whole milliseconds. *)
Definition trunc_ms (t : duration) : duration := Z.quot t millisecond * millisecond.
Definition store_deployment (id : string) (version : Z) (status : DeploymentStatus) (d : Deployment) : Deployment :=
  mkDeployment id (d_ProviderID d) (d_UpstreamModel d) (d_BaseURL d) (d_Protocol d) (d_Region d)
    (trunc_ms (d_ConnectTimeout d)) (trunc_ms (d_RequestTimeout d)) version (d_Config d) status.

Definition deployment_ints (d : Deployment) : res unit :=
  let? _ := int4 (Z.quot (d_ConnectTimeout d) millisecond) in
  let? _ := int4 (Z.quot (d_RequestTimeout d) millisecond) in
  int4 (d_ConfigVersion d).

Definition same_upstream (a b : Deployment) : bool :=
  String.eqb (d_ProviderID a) (d_ProviderID b) && String.eqb (d_UpstreamModel a) (d_UpstreamModel b)
  && String.eqb (d_BaseURL a) (d_BaseURL b).

(** UNIQUE (provider_id, upstream_model, base_url), the row itself apart. *)
Definition upstream_free (d : Deployment) (db : CatalogDB) : bool :=
  forallb (fun x => negb (same_upstream x d) || String.eqb (d_ID x) (d_ID d)) (table (cd_deployments db)).

(** [fresh]: the primary key is not taken, for an INSERT. *)
Definition write_deployment (fresh : bool) (row : Deployment) (db : CatalogDB) : res CatalogDB :=
  let? _ := deployment_ints row in
  let? _ := check (deployment_row_ok row) in
  let? _ := unique (fresh && upstream_free row db) in
  let? _ := references (has (cd_providers db) (d_ProviderID row)) in
  Ok (set_cd_deployments (<[d_ID row := row]> (cd_deployments db)) db).

Definition InsertDeployment (newID : string) (d : Deployment) (db : CatalogDB) : res (Deployment * CatalogDB) :=
  let version := if d_ConfigVersion d =? 0 then 1 else d_ConfigVersion d in
  let status := if bool_decide (d_Status d = DeploymentOther "") then DeploymentDraft else d_Status d in
  let row := store_deployment newID version status d in
  let? db := write_deployment (negb (has (cd_deployments db) newID)) row db in
  Ok (row, db).

Definition GetDeployment (id : string) (db : CatalogDB) : res Deployment := select_one id (cd_deployments db).

Definition deployment_is (provider : string) (status : option DeploymentStatus) (d : Deployment) : bool :=
  (String.eqb provider "" || String.eqb (d_ProviderID d) provider)
  && match status with Some s => bool_decide (d_Status d = s) | None => true end.

Definition ListDeployments (provider : string) (status : option DeploymentStatus) (after : string) (limit : Z)
    (db : CatalogDB) : list Deployment :=
  keyset_opt d_ID after limit (List.filter (deployment_is provider status) (table (cd_deployments db))).

Definition FindDeployment (d : Deployment) (db : CatalogDB) : res Deployment :=
  match List.find (fun x => same_upstream x d) (table (cd_deployments db)) with
  | Some x => Ok x
  | None => db_fail ErrNoRows
  end.

(** [SET config_version = config_version + 1 WHERE config_version = $11]. *)
Definition UpdateDeployment (d : Deployment) (db : CatalogDB) : res CatalogDB :=
  let? _ := deployment_ints d in
  match cd_deployments db !! d_ID d with
  | Some old =>
      if d_ConfigVersion old =? d_ConfigVersion d
      then write_deployment true (store_deployment (d_ID d) (d_ConfigVersion old + 1) (d_Status d) d) db
      else ensureUpdated true
  | None => ensureUpdated false
  end.

Definition DeleteDeployment (id : string) (referenced : bool) (db : CatalogDB) : res CatalogDB :=
  let used := existsb (fun r => String.eqb (rt_DeploymentID r) id) (table (cd_routes db)).*1 in
  let? t := delete_row id (referenced || used) (cd_deployments db) in
  Ok (set_cd_deployments t db).

(** ** Routes *)

Definition route_row_ok (r : ModelRoute) : bool :=
  (0 <? rt_Weight r) && bool_decide (rt_PoolStrategy r ∈ [PoolRoundRobin; PoolLeastLoaded; PoolSessionSticky]).
Definition route_ints (r : ModelRoute) : res unit := let? _ := int4 (rt_Priority r) in int4 (rt_Weight r).

Definition table_routes (db : CatalogDB) : list ModelRoute := (table (cd_routes db)).*1.

(** UNIQUE (model_id, deployment_id). *)
Definition pair_unused (r : ModelRoute) (db : CatalogDB) : bool :=
  forallb (fun x => negb (String.eqb (rt_ModelID x) (rt_ModelID r)
                          && String.eqb (rt_DeploymentID x) (rt_DeploymentID r))) (table_routes db).

Definition InsertRoute (newID : string) (r : ModelRoute) (now : instant) (db : CatalogDB)
  : res (ModelRoute * CatalogDB) :=
  let strategy := if bool_decide (rt_PoolStrategy r = PoolUnset) then PoolRoundRobin else rt_PoolStrategy r in
  let row := mkRoute newID (rt_ModelID r) (rt_DeploymentID r) (rt_Priority r) (rt_Weight r) (rt_Capabilities r)
               strategy (rt_Enabled r) in
  let? _ := route_ints row in
  let? _ := check (route_row_ok row) in
  let? t := insert_row newID (row, now) (cd_routes db) in
  let? _ := unique (pair_unused row db) in
  let? _ := references (has (cd_models db) (rt_ModelID row) && has (cd_deployments db) (rt_DeploymentID row)) in
  Ok (row, set_cd_routes t db).

Definition GetRoute (id : string) (db : CatalogDB) : res (ModelRoute * instant) := select_one id (cd_routes db).

(** [ORDER BY priority ASC, weight DESC, id]: the operator's view. *)
Definition ListRoutes (modelID : string) (db : CatalogDB) : list ModelRoute :=
  stable_sort route_before (routes_of modelID (table_routes db)).

(** ... and the enabled ones only. *)
Definition RoutesForModel (modelID : string) (db : CatalogDB) : list ModelRoute :=
  stable_sort route_before (List.filter rt_Enabled (routes_of modelID (table_routes db))).

(** The edit leaves the model and the deployment of the route alone. *)
Definition UpdateRoute (r : ModelRoute) (token now : instant) (db : CatalogDB) : res CatalogDB :=
  let? _ := route_ints r in
  match cd_routes db !! rt_ID r with
  | Some (old, t) =>
      if t =? token then
        let row := mkRoute (rt_ID r) (rt_ModelID old) (rt_DeploymentID old) (rt_Priority r) (rt_Weight r)
                     (rt_Capabilities r) (rt_PoolStrategy r) (rt_Enabled r) in
        let? _ := check (route_row_ok row) in
        Ok (set_cd_routes (<[rt_ID r := (row, now)]> (cd_routes db)) db)
      else ensureUpdated true
  | None => ensureUpdated false
  end.

Definition DeleteRoute (id : string) (db : CatalogDB) : res CatalogDB :=
  let? t := delete_row id false (cd_routes db) in Ok (set_cd_routes t db).

(** ** Revisions *)

#[global] Instance ConfigScope_eq_dec : EqDecision ConfigScope.
Proof. solve_decision. Defined.
#[global] Instance RevisionStatus_eq_dec : EqDecision RevisionStatus.
Proof. solve_decision. Defined.

Definition in_rev_scope (s : ConfigScope) (r : ConfigRevision) : bool := bool_decide (rev_Scope r = s).
Definition active_in (s : ConfigScope) (r : ConfigRevision) : bool := in_rev_scope s r && rev_IsActive r.
Definition is_revision (s : ConfigScope) (n : Z) (r : ConfigRevision) : bool := in_rev_scope s r && (rev_Revision r =? n).

Definition superseded (r : ConfigRevision) : ConfigRevision :=
  mkRevision (rev_ID r) (rev_Scope r) (rev_Revision r) (rev_Payload r) RevisionSuperseded false (rev_PublishedAt r)
    (rev_CreatedBy r).
Definition published (now : instant) (r : ConfigRevision) : ConfigRevision :=
  mkRevision (rev_ID r) (rev_Scope r) (rev_Revision r) (rev_Payload r) RevisionPublished true (Some now)
    (rev_CreatedBy r).

Definition LatestRevision (s : ConfigScope) (db : CatalogDB) : Z :=
  foldr Z.max 0 (map rev_Revision (List.filter (in_rev_scope s) (cd_revisions db))).

Definition one_revision (p : ConfigRevision -> bool) (db : CatalogDB) : res ConfigRevision :=
  match List.find p (cd_revisions db) with Some r => Ok r | None => db_fail ErrNoRows end.

Definition GetRevision (s : ConfigScope) (n : Z) (db : CatalogDB) : res ConfigRevision := one_revision (is_revision s n) db.
Definition ActiveRevision (s : ConfigScope) (db : CatalogDB) : res ConfigRevision := one_revision (active_in s) db.
Definition ActiveRevisionHead (s : ConfigScope) (db : CatalogDB) : res (Z * Z) :=
  let? r := ActiveRevision s db in Ok (rev_ID r, rev_Revision r).

(** Metadata of a scope, newest first; the cursor is a revision number. *)
Definition ListRevisionMetas (s : ConfigScope) (after limit : Z) (db : CatalogDB) : list ConfigRevision :=
  take (page_limit limit)
    (sort_by (fun r => - rev_Revision r)
       (List.filter (fun r => in_rev_scope s r && ((after <=? 0) || (rev_Revision r <? after))) (cd_revisions db))).

(** [newID] is the next value of the BIGSERIAL. *)
Definition insertConfigRevision (newID : Z) (r : ConfigRevision) (db : CatalogDB) : res CatalogDB :=
  let row := mkRevision newID (rev_Scope r) (rev_Revision r) (rev_Payload r) (rev_Status r) false None
               (rev_CreatedBy r) in
  let? _ := int4 (rev_Revision row) in
  let? _ := check (0 <? rev_Revision row) in
  let? _ := unique (negb (existsb (fun x => (rev_ID x =? newID) || is_revision (rev_Scope row) (rev_Revision row) x)
                             (cd_revisions db))) in
  Ok (set_cd_revisions (cd_revisions db ++ [row]) db).

(** A publish runs at REPEATABLE READ: [seen] is the state its snapshot shows,
    [db] the state its writes meet. Superseding the active revision of the
    snapshot fails when another transaction has superseded it meanwhile; the
    partial unique index allows one active row per scope. *)
Definition superseding (s : ConfigScope) (seen : CatalogDB) (r : ConfigRevision) : bool :=
  bool_decide (rev_ID r ∈ map rev_ID (List.filter (active_in s) (cd_revisions seen))).

Definition activated_rows (s : ConfigScope) (n : Z) (now : instant) (seen : CatalogDB) (l : list ConfigRevision)
  : list ConfigRevision :=
  map (fun r => if is_revision s n r then published now r else r)
    (map (fun r => if superseding s seen r then superseded r else r) l).

Definition activateRevision (s : ConfigScope) (n : Z) (now : instant) (seen db : CatalogDB) : res CatalogDB :=
  fail_if existsb (fun r => superseding s seen r && negb (rev_IsActive r)) (cd_revisions db)
    with mapError OtherDbError;
  fail_if negb (existsb (is_revision s n) (cd_revisions db)) with mapError ErrNoRows;
  let l := activated_rows s n now seen (cd_revisions db) in
  let? _ := unique (length (List.filter (active_in s) l) <=? 1)%nat in
  Ok (set_cd_revisions l db).

Definition InsertAndActivateRevision (newID : Z) (now : instant) (r : ConfigRevision) (seen db : CatalogDB)
  : res CatalogDB :=
  let? db := insertConfigRevision newID r db in
  activateRevision (rev_Scope r) (rev_Revision r) now seen db.

(** ** What the tables enforce *)

Definition tables_keyed (db : CatalogDB) : Prop :=
  (forall k m t, cd_models db !! k = Some (m, t) -> m_ID m = k /\ model_row_ok m = true) /\
  (forall k p t, cd_providers db !! k = Some (p, t) -> pr_ID p = k /\ provider_row_ok p = true /\ k <> "") /\
  (forall k d, cd_deployments db !! k = Some d -> d_ID d = k /\ deployment_row_ok d = true /\ k <> "" /\
     whole_ms (d_ConnectTimeout d) /\ whole_ms (d_RequestTimeout d) /\
     is_Some (cd_providers db !! d_ProviderID d)) /\
  (forall k r t, cd_routes db !! k = Some (r, t) -> rt_ID r = k /\ route_row_ok r = true /\
     is_Some (cd_models db !! rt_ModelID r) /\ is_Some (cd_deployments db !! rt_DeploymentID r)).

(** The statements of the catalogue tables; a generated id is not empty. *)
Inductive table_step (db : CatalogDB) : CatalogDB -> Prop :=
| ts_insert_model m now db' : InsertModel m now db = Ok db' -> table_step db db'
| ts_update_model m token now db' : UpdateModel m token now db = Ok db' -> table_step db db'
| ts_delete_model id refd db' : DeleteModel id refd db = Ok db' -> table_step db db'
| ts_insert_provider newID p now p' db' : newID <> "" ->
    InsertProvider newID p now db = Ok (p', db') -> table_step db db'
| ts_update_provider p token now db' : UpdateProvider p token now db = Ok db' -> table_step db db'
| ts_delete_provider id refd db' : DeleteProvider id refd db = Ok db' -> table_step db db'
| ts_insert_deployment newID d d' db' : newID <> "" ->
    InsertDeployment newID d db = Ok (d', db') -> table_step db db'
| ts_update_deployment d db' : UpdateDeployment d db = Ok db' -> table_step db db'
| ts_delete_deployment id refd db' : DeleteDeployment id refd db = Ok db' -> table_step db db'
| ts_insert_route newID r now r' db' : InsertRoute newID r now db = Ok (r', db') -> table_step db db'
| ts_update_route r token now db' : UpdateRoute r token now db = Ok db' -> table_step db db'
| ts_delete_route id db' : DeleteRoute id db = Ok db' -> table_step db db'.

Lemma delete_row_Ok {A} k b (m m' : gmap string A) :
  delete_row k b m = Ok m' -> is_Some (m !! k) /\ b = false /\ m' = delete k m.
Proof. unfold delete_row. destruct (m !! k); [|done]. destruct b; [done|]. intros [= <-]. eauto. Qed.

Lemma trunc_ms_whole t : is_int4 (Z.quot (trunc_ms t) millisecond) = true -> 0 < trunc_ms t -> whole_ms (trunc_ms t).
Proof.
  unfold trunc_ms, whole_ms, is_int4, millisecond. rewrite Z.quot_mul by done. intros H Hp. bool_prop.
  exists (Z.quot t 1000000). lia.
Qed.

Lemma int4_Ok z u : int4 z = Ok u -> is_int4 z = true.
Proof. unfold int4. by destruct (is_int4 z). Qed.

(** Rows survive a table that only gains or rewrites rows. *)
Lemma some_insert {A} (m : gmap string A) k v x : is_Some (m !! x) -> is_Some (<[k := v]> m !! x).
Proof. intros H. destruct (decide (k = x)) as [->|]; [rewrite lookup_insert_eq; eauto|by rewrite lookup_insert_ne]. Qed.

(** A deployment write keeps the tables. *)
Lemma write_deployment_keyed fresh id v st d db db' :
  tables_keyed db -> id <> "" -> write_deployment fresh (store_deployment id v st d) db = Ok db' -> tables_keyed db'.
Proof.
  intros (Hm & Hp & Hd & Hr) Hid H. unfold write_deployment in H. inv_ok.
  apply check_Ok in E0. apply references_Ok, has_true in E2. unfold deployment_ints in E. inv_ok.
  apply int4_Ok in E3, E4. split_and!; simpl; [done..| |].
  - intros k row [[<- <-]|[_ Hx]]%lookup_insert_Some; [|by apply Hd].
    unfold deployment_row_ok in E0. simpl in *. bool_prop.
    split_and!; [done| |done|by apply trunc_ms_whole..|done].
    unfold deployment_row_ok. simpl. rewrite !andb_true_iff, !Z.ltb_lt, bool_decide_eq_true. auto.
  - intros k r t Hk. destruct (Hr _ _ _ Hk) as (? & ? & ? & ?). split_and!; [done..|by apply some_insert].
Qed.

Lemma insert_model_keyed m now db : tables_keyed db -> model_row_ok m = true ->
  tables_keyed (set_cd_models (<[m_ID m := (m, now)]> (cd_models db)) db).
Proof.
  intros (Hm & Hp & Hd & Hr) Hok. split_and!; simpl; [|done..|].
  - intros k x t [[<- [= <- <-]]|[_ Hx]]%lookup_insert_Some; eauto.
  - intros k r t Hk. destruct (Hr _ _ _ Hk) as (? & ? & ? & ?). split_and!; [done..|by apply some_insert|done].
Qed.

Lemma insert_provider_keyed p now db : tables_keyed db -> provider_row_ok p = true -> pr_ID p <> "" ->
  tables_keyed (set_cd_providers (<[pr_ID p := (p, now)]> (cd_providers db)) db).
Proof.
  intros (Hm & Hp & Hd & Hr) Hok Hid. split_and!; simpl; [done| | |done].
  - intros k x t [[<- [= <- <-]]|[_ Hx]]%lookup_insert_Some; eauto.
  - intros k d Hk. destruct (Hd _ _ Hk) as (? & ? & ? & ? & ? & ?). split_and!; [done..|by apply some_insert].
Qed.

Lemma insert_route_keyed r now db : tables_keyed db -> route_row_ok r = true ->
  is_Some (cd_models db !! rt_ModelID r) -> is_Some (cd_deployments db !! rt_DeploymentID r) ->
  tables_keyed (set_cd_routes (<[rt_ID r := (r, now)]> (cd_routes db)) db).
Proof.
  intros (Hm & Hp & Hd & Hr) Hok Hrm Hrd. split_and!; simpl; [done..|].
  intros k x t [[<- [= <- <-]]|[_ Hx]]%lookup_insert_Some; eauto.
Qed.

Lemma table_elem {A} (m : gmap string A) x : x ∈ table m <-> exists k, m !! k = Some x.
Proof.
  unfold table. rewrite list_elem_of_fmap. split.
  - intros ([k y] & -> & Hy%elem_of_map_to_list). eauto.
  - intros [k Hk]. exists (k, x). by rewrite elem_of_map_to_list.
Qed.

Lemma table_fst_elem {A} (m : gmap string (A * instant)) x : x ∈ (table m).*1 <-> exists k t, m !! k = Some (x, t).
Proof.
  rewrite list_elem_of_fmap. split.
  - intros ([y t] & -> & [k Hk]%table_elem). eauto.
  - intros (k & t & Hk). exists (x, t). split; [done|]. apply table_elem. eauto.
Qed.

(** Deletes. *)
Lemma delete_model_keyed id refd db db' : tables_keyed db -> DeleteModel id refd db = Ok db' -> tables_keyed db'.
Proof.
  intros (Hm & Hp & Hd & Hr) H. unfold DeleteModel in H. inv_ok. apply delete_row_Ok in E as (_ & _ & ->).
  split_and!; simpl; [|done..|].
  - intros k m t [_ Hk]%lookup_delete_Some. by apply (Hm _ _ _ Hk).
  - intros k r t [Hk Hne]%map_lookup_filter_Some. simpl in Hne. destruct (Hr _ _ _ Hk) as (? & ? & ? & ?).
    split_and!; [done..|by rewrite lookup_delete_ne|done].
Qed.

Lemma delete_provider_keyed id refd db db' : tables_keyed db -> DeleteProvider id refd db = Ok db' -> tables_keyed db'.
Proof.
  intros (Hm & Hp & Hd & Hr) H. unfold DeleteProvider in H. inv_ok. apply delete_row_Ok in E as (_ & Hu & ->).
  apply orb_false_iff in Hu as [_ Hu]. split_and!; simpl; [done| | |done].
  - intros k p t [_ Hk]%lookup_delete_Some. by apply (Hp _ _ _ Hk).
  - intros k d Hk. destruct (Hd _ _ Hk) as (? & ? & ? & ? & ? & ?). split_and!; [done..|].
    rewrite lookup_delete_ne; [done|]. intros ->. apply not_true_iff_false in Hu. destruct Hu.
    apply existsb_exists. exists d. rewrite String.eqb_refl, <- list_elem_of_In, table_elem. eauto.
Qed.

Lemma delete_deployment_keyed id refd db db' :
  tables_keyed db -> DeleteDeployment id refd db = Ok db' -> tables_keyed db'.
Proof.
  intros (Hm & Hp & Hd & Hr) H. unfold DeleteDeployment in H. inv_ok. apply delete_row_Ok in E as (_ & Hu & ->).
  apply orb_false_iff in Hu as [_ Hu]. split_and!; simpl; [done..| |].
  - intros k d [_ Hk]%lookup_delete_Some. by apply (Hd _ _ Hk).
  - intros k r t Hk. destruct (Hr _ _ _ Hk) as (? & ? & ? & ?). split_and!; [done..|].
    rewrite lookup_delete_ne; [done|]. intros ->. apply not_true_iff_false in Hu. destruct Hu.
    apply existsb_exists. exists r. rewrite String.eqb_refl, <- list_elem_of_In, table_fst_elem. eauto.
Qed.

Lemma delete_route_keyed id db db' : tables_keyed db -> DeleteRoute id db = Ok db' -> tables_keyed db'.
Proof.
  intros (Hm & Hp & Hd & Hr) H. unfold DeleteRoute in H. inv_ok. apply delete_row_Ok in E as (_ & _ & ->).
  split_and!; simpl; [done..|]. intros k r t [_ Hk]%lookup_delete_Some. by apply (Hr _ _ _ Hk).
Qed.

(** Every statement keeps the tables and the history. *)
Lemma table_step_keyed db db' : tables_keyed db -> table_step db db' -> tables_keyed db'.
Proof.
  intros Hk. pose proof Hk as (Hm & Hp & Hd & Hr). destruct 1 as [m now db' H|m token now db' H|id refd db' H
    |newID p now p' db' Hid H|p token now db' H|id refd db' H|newID d d' db' Hid H|d db' H|id refd db' H
    |newID r now r' db' H|r token now db' H|id db' H].
  - unfold InsertModel in H. inv_ok. apply insert_row_Ok in E1 as [_ ->]. apply check_Ok in E0.
    by apply insert_model_keyed.
  - unfold UpdateModel, ensureUpdated in H. inv_ok. destruct p. inv_ok. apply check_Ok in E2. by apply insert_model_keyed.
  - by eapply delete_model_keyed.
  - unfold InsertProvider in H. inv_ok. apply insert_row_Ok in E0 as [_ ->]. apply check_Ok in E.
    by apply (insert_provider_keyed (mkProvider newID _ _ _ _)).
  - unfold UpdateProvider, ensureUpdated in H. inv_ok. destruct p0. inv_ok. apply check_Ok in E1.
    destruct (Hp _ _ _ E) as (_ & _ & ?). by apply insert_provider_keyed.
  - by eapply delete_provider_keyed.
  - unfold InsertDeployment in H. inv_ok. by eapply write_deployment_keyed.
  - unfold UpdateDeployment, ensureUpdated in H. inv_ok. destruct (Hd _ _ E0) as (_ & _ & ? & _).
    by eapply write_deployment_keyed.
  - by eapply delete_deployment_keyed.
  - unfold InsertRoute in H. inv_ok. apply insert_row_Ok in E1 as [_ ->]. apply check_Ok in E0.
    apply references_Ok in E3. bool_prop. by apply (insert_route_keyed (mkRoute newID _ _ _ _ _ _ _)); try apply has_true.
  - unfold UpdateRoute, ensureUpdated in H. inv_ok. destruct p as [old t]. inv_ok. apply check_Ok in E2.
    destruct (Hr _ _ _ E0) as (_ & _ & ? & ?). by apply (insert_route_keyed (mkRoute (rt_ID r) _ _ _ _ _ _ _)).
  - by eapply delete_route_keyed.
Qed.

(** ... and only a publish writes revisions. *)
Lemma table_step_revisions db db' : table_step db db' -> cd_revisions db' = cd_revisions db.
Proof.
  destruct 1 as [? ? ? H|? ? ? ? H|? ? ? H|? ? ? ? ? _ H|? ? ? ? H|? ? ? H|? ? ? ? _ H|? ? H|? ? ? H
    |? ? ? ? ? H|? ? ? ? H|? ? H];
    unfold InsertModel, UpdateModel, DeleteModel, InsertProvider, UpdateProvider, DeleteProvider,
      InsertDeployment, UpdateDeployment, DeleteDeployment, InsertRoute, UpdateRoute, DeleteRoute,
      write_deployment, ensureUpdated in H; inv_ok; repeat case_match; inv_ok; done.
Qed.
