(* ===== verification/CatalogService.v ===== *)
(** * CatalogService: editing, publishing and serving the catalogue

    [internal/inference/catalog/service.go] over the tables of [CatalogStore]:
    validated edits, the paged drain and the publish gate, rollback, the
    published-model listing; and the snapshot cache of [catalog/revision.go].
    [CommitOutcome] says how a publishing transaction ends. *)

From Stdlib Require Import ZArith Lia Bool Ascii String.
From stdpp Require Import base gmap strings list relations sorting.
From S2P Require Import Prelude Domain Money Calendar WalletRules Principal Entitlements Tables Headers Catalog.
From S2P Require Import CatalogStore.

Local Open Scope Z_scope.
Local Open Scope go_scope.

(** ** Edits *)

Definition defaultModalities (m : Model) : Model :=
  match m_OutputModalities m with
  | [] => mkModel (m_ID m) (m_DisplayName m) (m_Lifecycle m) (m_ModelVersion m) (m_Aliases m) (m_InputModalities m)
            ["text"] (m_ContextTokens m) (m_MaxOutputTokens m) (m_Protocols m) (m_SupportsTools m)
            (m_SupportsReasoning m)
  | _ => m
  end.

Definition CreateModel (m : Model) (now : instant) (db : CatalogDB) : res CatalogDB :=
  let m := if bool_decide (m_Lifecycle m = LifecycleUnset) then set_m_Lifecycle LifecycleDraft m else m in
  guard bool_decide (m_Lifecycle m = LifecycleDraft) else NewError CodeInvalidInput;
  let m := defaultModalities m in
  let? _ := ValidateModel m in
  InsertModel m now db.

(** [token]: the [UpdatedAt] of the model the caller read. *)
Definition UpdateModel (m : Model) (token now : instant) (db : CatalogDB) : res CatalogDB :=
  fail_if bool_decide (m_Lifecycle m = LifecycleUnset) with NewError CodeInvalidInput;
  fail_if IsZero token with NewError CodeInvalidInput;
  let m := defaultModalities m in
  let? _ := ValidateModel m in
  CatalogStore.UpdateModel m token now db.

(** The read and the write are two statements: [seen] is what the read saw. *)
Definition SetModelLifecycle (id : string) (to : Lifecycle) (now : instant) (seen db : CatalogDB) : res CatalogDB :=
  let? (m, token) := GetModel id seen in
  let from := if bool_decide (m_Lifecycle m = LifecycleUnset) then LifecycleDraft else m_Lifecycle m in
  let? _ := ValidateLifecycleTransition from to in
  CatalogStore.UpdateModel (set_m_Lifecycle to m) token now db.

Definition CreateProvider (newID : string) (p : Provider) (now : instant) (db : CatalogDB) : res (Provider * CatalogDB) :=
  let? _ := ValidateProvider p in InsertProvider newID p now db.

Definition UpdateProvider (p : Provider) (token now : instant) (db : CatalogDB) : res CatalogDB :=
  fail_if IsZero token with NewError CodeInvalidInput;
  let? _ := ValidateProvider p in
  CatalogStore.UpdateProvider p token now db.

Section Service.
Context (parse_url : string -> option URL).

Definition with_timeouts (connect request : duration) (d : Deployment) : Deployment :=
  mkDeployment (d_ID d) (d_ProviderID d) (d_UpstreamModel d) (d_BaseURL d) (d_Protocol d) (d_Region d) connect request
    (d_ConfigVersion d) (d_Config d) (if bool_decide (d_Status d = DeploymentOther "") then DeploymentDraft else d_Status d).

Definition default_zero (dflt d : duration) : duration := if d =? 0 then dflt else d.

Definition CreateDeployment (grace : duration) (newID : string) (d : Deployment) (db : CatalogDB)
  : res (Deployment * CatalogDB) :=
  let d := with_timeouts (default_zero (5 * second) (d_ConnectTimeout d))
             (default_zero (600 * second) (d_RequestTimeout d)) d in
  let? _ := ValidateDeployment parse_url d in
  let? _ := ValidateDeploymentRecoveryWindow grace d in
  InsertDeployment newID d db.

Definition UpdateDeployment (grace : duration) (d : Deployment) (db : CatalogDB) : res CatalogDB :=
  fail_if d_ConfigVersion d <=? 0 with NewError CodeInvalidInput;
  let? _ := ValidateDeployment parse_url d in
  let? _ := ValidateDeploymentRecoveryWindow grace d in
  CatalogStore.UpdateDeployment d db.

Definition wrap_invalid {A} (r : res A) : res A :=
  match r with Ok a => Ok a | Err e => Err (WrapError CodeInvalidInput e) end.

Definition CreateRoute (newID : string) (r : ModelRoute) (now : instant) (db : CatalogDB) : res (ModelRoute * CatalogDB) :=
  let r := mkRoute (rt_ID r) (rt_ModelID r) (rt_DeploymentID r) (rt_Priority r) (rt_Weight r) (rt_Capabilities r)
             (if bool_decide (rt_PoolStrategy r = PoolUnset) then PoolRoundRobin else rt_PoolStrategy r) (rt_Enabled r) in
  let? _ := ValidateRoute r in
  let? _ := wrap_invalid (GetModel (rt_ModelID r) db) in
  let? _ := wrap_invalid (GetDeployment (rt_DeploymentID r) db) in
  InsertRoute newID r now db.

Definition UpdateRoute (r : ModelRoute) (token now : instant) (db : CatalogDB) : res CatalogDB :=
  fail_if IsZero token with NewError CodeInvalidInput;
  let? _ := ValidateRoute r in
  CatalogStore.UpdateRoute r token now db.

(** ** The drain *)

Definition publishPageSize : Z := 500.
Definition publishMaxEntities : Z := 20000.
(** Pages after which the drain has either ended or hit the bound. *)
Definition publishMaxPages : nat := 40.

Definition last_key {A} (key : A -> string) (l : list A) : string :=
  match last l with Some x => key x | None => "" end.

Fixpoint drain_loop {A} (page : string -> Z -> res (list A)) (key : A -> string) (fuel : nat) (out : list A)
    (after : string) : res (list A) :=
  match fuel with
  | O => Err EForeign
  | S fuel =>
      let? items := page after publishPageSize in
      let out := out ++ items in
      if Z.of_nat (length items) <? publishPageSize then Ok out
      else fail_if publishMaxEntities <=? Z.of_nat (length out) with NewError CodeInvalidInput;
           drain_loop page key fuel out (last_key key items)
  end.

Definition drainPages {A} (page : string -> Z -> res (list A)) (key : A -> string) : res (list A) :=
  drain_loop page key publishMaxPages [] "".

(** The reads of one snapshot. *)
Definition drainCatalogForPublish (seen : CatalogDB)
  : res (list Model * list Provider * list Deployment * list ModelRoute) :=
  let? models := drainPages (fun after limit => Ok (ListModels None after limit seen)) m_ID in
  let? providers := drainPages (fun after limit => Ok (ListProviders after limit seen)) pr_ID in
  let? deployments := drainPages (fun after limit => Ok (ListDeployments "" None after limit seen)) d_ID in
  let? _ := validateCatalogForPublish parse_url models providers deployments in
  Ok (models, providers, deployments, concat (map (fun m => ListRoutes (m_ID m) seen) models)).

(** ** Publish and rollback *)

Definition commit_tx {A} (c : CommitOutcome) (db : CatalogDB) (r : res (A * CatalogDB)) : CatalogDB * res A :=
  match r with
  | Err e => (db, Err e)
  | Ok (a, db') =>
      match c with
      | Committed => (db', Ok a)
      | CommitFailed e persisted => (if persisted then db' else db, Err e)
      end
  end.

Definition append_revision (newID : Z) (now : instant) (createdBy : string) (payload : option catalogPayload)
    (seen db : CatalogDB) : res (Z * CatalogDB) :=
  let n := LatestRevision ScopeCatalog seen + 1 in
  let? db := InsertAndActivateRevision newID now
               (mkRevision 0 ScopeCatalog n payload RevisionDraft false None createdBy) seen db in
  Ok (n, db).

Definition Publish (newID : Z) (now : instant) (createdBy : string) (commit : CommitOutcome) (seen db : CatalogDB)
  : CatalogDB * res Z :=
  commit_tx commit db (
    let? (models, providers, deployments, routes) := drainCatalogForPublish seen in
    append_revision newID now createdBy (Some (BuildCatalogPayload models providers deployments routes)) seen db).

Definition PublishPreview (seen : CatalogDB)
  : res (Z * list Model * list Provider * list Deployment * list ModelRoute) :=
  let? (models, providers, deployments, routes) := drainCatalogForPublish seen in
  Ok (LatestRevision ScopeCatalog seen + 1, models, providers, deployments, routes).

Definition Rollback (newID : Z) (now : instant) (toRevision : Z) (createdBy : string) (commit : CommitOutcome)
    (seen db : CatalogDB) : CatalogDB * res Z :=
  commit_tx commit db (
    let? target := GetRevision ScopeCatalog toRevision seen in
    guard bool_decide (rev_Status target ∈ [RevisionPublished; RevisionSuperseded]) else NewError CodeInvalidInput;
    let? _ := wrap_invalid (ParseSnapshot parse_url target) in
    append_revision newID now createdBy (rev_Payload target) seen db).

(** ** Listing *)

Definition LoadSnapshot (db : CatalogDB) : res Snapshot :=
  let? rev := ActiveRevision ScopeCatalog db in ParseSnapshot parse_url rev.

(** A hook may be missing; a missing price hook denies, a missing access hook
    is an error. *)
Definition list_published (s : Snapshot) (price : option (string -> res bool)) (access : string -> res bool)
    (out : list Model) (id : string) : res (list Model) :=
  if negb (Sellable s id) then Ok out
  else match price with
       | None => Ok out
       | Some price =>
           let? ok := price id in
           if negb ok then Ok out
           else let? ok := access id in
                if negb ok then Ok out
                else match sn_Models s !! id with Some m => Ok (out ++ [m]) | None => Ok out end
       end.

Definition ListPublishedModels (price : option (string -> res bool)) (access : option (string -> res bool))
    (db : CatalogDB) : res (list Model) :=
  match access with
  | None => Err (NewError CodeInvalidInput)
  | Some access =>
      let? s := LoadSnapshot db in
      rfold (list_published s price access) [] (ModelIDs s)
  end.

(** ** The snapshot cache *)

Definition headProbeTTL : duration := second.

Record SnapshotCache := mkCache { sc_current : option Snapshot; sc_lastProbe : option instant }.

(** What one call meets: its clock readings, and the answers of the store. *)
Record CacheEnv := mkCacheEnv {
  ce_Now : instant;
  ce_ProbeAt : instant;
  ce_Head : res (Z * Z);
  ce_Active : res ConfigRevision;
}.

(** Keep serving the verified snapshot and raise the alarm, or fail when there
    is none ([ErrNoVerifiedSnapshot], a foreign error). *)
Definition absorb (c : SnapshotCache) : SnapshotCache * res Snapshot * bool :=
  match sc_current c with
  | Some old => (c, Ok old, true)
  | None => (c, Err EForeign, false)
  end.

Definition probe_fresh (c : SnapshotCache) (now : instant) : bool :=
  match sc_current c, sc_lastProbe c with
  | Some _, Some t => time_sub now t <? headProbeTTL
  | _, _ => false
  end.

(** The cache, the answer, and whether [OnRefreshError] was called. *)
Definition Current (e : CacheEnv) (c : SnapshotCache) : SnapshotCache * res Snapshot * bool :=
  match sc_current c with
  | Some old => if probe_fresh c (ce_Now e) then (c, Ok old, false)
                else match ce_Head e with
                     | Err _ => absorb c
                     | Ok (headID, _) =>
                         if sn_RevisionID old =? headID
                         then (mkCache (Some old) (Some (ce_ProbeAt e)), Ok old, false)
                         else match (let? rev := ce_Active e in ParseSnapshot parse_url rev) with
                              | Err _ => absorb c
                              | Ok s => (mkCache (Some s) (sc_lastProbe c), Ok s, false)
                              end
                     end
  | None => match ce_Head e with
            | Err _ => absorb c
            | Ok _ => match (let? rev := ce_Active e in ParseSnapshot parse_url rev) with
                      | Err _ => absorb c
                      | Ok s => (mkCache (Some s) (sc_lastProbe c), Ok s, false)
                      end
            end
  end.

End Service.

(** ** Listings in strict key order *)

Section Strict.
Context {A : Type} (key : A -> string).

Definition key_lt (a b : A) : Prop := string_before (key a) (key b) = true.

Lemma string_before_irrefl s : string_before s s = false.
Proof using Type. unfold string_before. by rewrite string_compare_refl. Qed.

Lemma key_lt_trans a b c : key_lt a b -> key_lt b c -> key_lt a c.
Proof using Type.
  unfold key_lt. intros Hab Hbc. destruct (string_before (key a) (key c)) eqn:E; [done|].
  rewrite (string_before_neg (key c) (key a) (key b)) in Hbc; [done|done|]. by apply string_before_asym.
Qed.

(** Keys in strict order determine the list. *)
Lemma strict_unique l l' : StronglySorted key_lt l -> StronglySorted key_lt l' -> l ≡ₚ l' -> l = l'.
Proof using Type.
  revert l'. induction l as [|x l IH]; intros l' Hl Hl' HP; [by apply Permutation_nil in HP|].
  destruct l' as [|y l']; [by apply Permutation_sym, Permutation_nil in HP|].
  apply StronglySorted_inv in Hl as [Hl Hx], Hl' as [Hl' Hy]. rewrite Forall_forall in Hx. rewrite Forall_forall in Hy.
  assert (x = y) as ->.
  { assert (x ∈ y :: l') as [->|Hxl]%elem_of_cons by (rewrite <- HP; by left); [done|].
    assert (y ∈ x :: l) as [->|Hyl]%elem_of_cons by (rewrite HP; by left); [done|].
    specialize (Hx y Hyl). specialize (Hy x Hxl). unfold key_lt in *. apply string_before_asym in Hy. congruence. }
  f_equal. apply IH; [done..|]. by eapply Permutation_cons_inv.
Qed.

Lemma by_id_strict l : NoDup (key <$> l) -> StronglySorted key_lt (by_id key l).
Proof using Type.
  intros Hnd. assert (Hs : in_order (fun a b => string_before (key a) (key b)) (by_id key l)).
  { apply stable_sort_order; [intros a b c; apply string_before_neg|intros a b; apply string_before_asym]. }
  assert (Hnd' : NoDup (key <$> by_id key l)) by by rewrite by_id_perm. clear Hnd. unfold in_order in Hs.
  induction Hs as [|x l' Hl IH Hx]; [constructor|]. simpl in Hnd'. apply NoDup_cons in Hnd' as [Hn Hnd'].
  constructor; [by apply IH|]. rewrite Forall_forall in Hx |- *. intros y Hy. unfold key_lt.
  destruct (string_before (key x) (key y)) eqn:E; [done|]. destruct Hn.
  rewrite (string_before_total _ _ E (Hx y Hy)). by apply list_elem_of_fmap_2.
Qed.

Lemma strict_by_id l l' : StronglySorted key_lt l' -> l ≡ₚ l' -> by_id key l = l'.
Proof using Type.
  intros Hl' HP. apply strict_unique; [|done|by rewrite by_id_perm]. apply by_id_strict.
  rewrite HP. clear HP. induction Hl' as [|x l'' Hs IH Hx]; [constructor|]. simpl. constructor; [|done].
  intros (y & Hy & Hin)%list_elem_of_fmap. rewrite Forall_forall in Hx. specialize (Hx y Hin). unfold key_lt in Hx.
  by rewrite Hy, string_before_irrefl in Hx.
Qed.

Lemma strict_app l1 l2 : StronglySorted key_lt (l1 ++ l2) ->
  StronglySorted key_lt l1 /\ StronglySorted key_lt l2 /\ forall x y, x ∈ l1 -> y ∈ l2 -> key_lt x y.
Proof using Type.
  induction l1 as [|x l1 IH]; simpl; intros H; [split_and!; [constructor|done|set_solver]|].
  apply StronglySorted_inv in H as [H Hx]. destruct (IH H) as (H1 & H2 & H12). rewrite Forall_forall in Hx.
  split_and!; [|done|].
  - constructor; [done|]. rewrite Forall_forall. intros y Hy. apply Hx. set_solver.
  - intros a b [->|Ha]%elem_of_cons Hb; [apply Hx; set_solver|auto].
Qed.

(** The rows after the last one of a prefix are the rest. *)
Lemma rows_after l1 z l2 : StronglySorted key_lt (l1 ++ z :: l2) ->
  List.filter (fun x => string_before (key z) (key x)) (l1 ++ z :: l2) = l2.
Proof using Type.
  intros H. destruct (strict_app _ _ H) as (_ & Hz & H12). apply StronglySorted_inv in Hz as [_ Hz].
  rewrite Forall_forall in Hz. rewrite List.filter_app. cbn [List.filter]. rewrite string_before_irrefl.
  assert (List.filter (fun x => string_before (key z) (key x)) l1 = []) as ->.
  { clear Hz H. induction l1 as [|x l1 IH]; [done|]. simpl.
    rewrite (string_before_asym (key x) (key z)); [apply IH; intros; apply H12; set_solver|apply H12; set_solver]. }
  simpl. clear H H12. induction l2 as [|y l2 IH]; [done|]. simpl. rewrite (Hz y) by by left. f_equal.
  apply IH. intros. apply Hz. by right.
Qed.

Lemma filter_perm (p : A -> bool) l l' : l ≡ₚ l' -> List.filter p l ≡ₚ List.filter p l'.
Proof using Type. induction 1; simpl; [done| | |by etrans]; repeat case_match; auto. constructor. Qed.

Lemma strict_NoDup l : StronglySorted key_lt l -> NoDup (key <$> l).
Proof using Type.
  induction 1 as [|x l Hs IH Hx]; simpl; constructor; [|done].
  intros (y & Hy & Hin)%list_elem_of_fmap. rewrite Forall_forall in Hx. specialize (Hx y Hin). unfold key_lt in Hx.
  by rewrite Hy, string_before_irrefl in Hx.
Qed.

(** Every page of a listing in key order, whatever the order of the rows. *)
Lemma keyset_page l pre z rest limit : NoDup (key <$> l) -> by_id key l = pre ++ z :: rest ->
  keyset key (key z) limit l = take (page_limit limit) rest.
Proof using Type.
  intros Hnd Hs. unfold keyset. f_equal. pose proof (by_id_strict l Hnd) as Hst. rewrite Hs in Hst.
  apply strict_by_id; [by apply strict_app in Hst as (_ & [? _]%StronglySorted_inv & _)|].
  rewrite <- (rows_after pre z rest Hst), <- Hs. apply filter_perm. symmetry. apply by_id_perm.
Qed.

End Strict.

(** ** The drain reads everything *)

Section Drain.
Context {A : Type} (page : string -> Z -> res (list A)) (key : A -> string) (s : list A).
Hypothesis page_first : page "" publishPageSize = Ok (take 500 s).
Hypothesis page_next : forall pre z rest, s = pre ++ z :: rest -> page (key z) publishPageSize = Ok (take 500 rest).

Lemma last_key_snoc (l : list A) z : last_key key (l ++ [z]) = key z.
Proof using Type. unfold last_key. by rewrite last_snoc. Qed.

Lemma drain_loop_all fuel out rest after :
  s = out ++ rest -> page after publishPageSize = Ok (take 500 rest) ->
  Z.of_nat (length out) = 500 * (40 - Z.of_nat fuel) -> (0 < fuel <= 40)%nat ->
  drain_loop page key fuel out after =
    if Z.of_nat (length s) <? publishMaxEntities then Ok s else Err (NewError CodeInvalidInput).
Proof using page_next.
  revert out rest after. induction fuel as [|fuel IH]; intros out rest after Hs Hp Hlen Hf; [lia|].
  cbn [drain_loop]. rewrite Hp. cbn [rbind]. unfold publishPageSize, publishMaxEntities.
  assert (Hls : length s = (length out + length rest)%nat) by by rewrite Hs, length_app.
  destruct (Z.ltb_spec (Z.of_nat (length (take 500 rest))) 500) as [Hlt|Hge].
  - rewrite length_take in Hlt. assert (length rest < 500)%nat by lia. rewrite take_ge by lia.
    rewrite (proj2 (Z.ltb_lt _ _)) by lia. by rewrite Hs.
  - rewrite length_take in Hge. assert (Hr : (500 <= length rest)%nat) by lia.
    rewrite length_app, length_take. destruct (Z.leb_spec 20000 (Z.of_nat (length out + 500 `min` length rest))) as [Hbig|Hsmall].
    + rewrite (proj2 (Z.ltb_ge _ _)) by lia. done.
    + destruct (exists_last (l := take 500 rest)) as (r1 & z & Hr1).
      { intros Hnil. apply (f_equal length) in Hnil. rewrite length_take in Hnil. change (length (@nil A)) with 0%nat in Hnil. lia. }
      assert (Hrest : rest = r1 ++ z :: drop 500 rest).
      { rewrite <- (take_drop 500 rest) at 1. rewrite Hr1, <- app_assoc. done. }
      rewrite Hr1, last_key_snoc. apply (IH _ (drop 500 rest)).
      * rewrite Hs, Hrest at 1. by rewrite <- !app_assoc.
      * apply (page_next (out ++ r1)). rewrite Hs, Hrest at 1. by rewrite <- app_assoc.
      * apply (f_equal length) in Hr1. rewrite length_take in Hr1. rewrite length_app, <- Hr1. lia.
      * lia.
Qed.

Lemma drainPages_all :
  drainPages page key = if Z.of_nat (length s) <? publishMaxEntities then Ok s else Err (NewError CodeInvalidInput).
Proof using page_first page_next. apply (drain_loop_all publishMaxPages [] s ""); done || (unfold publishMaxPages; lia). Qed.

End Drain.

(** The three listings of a snapshot, drained. *)
Definition whole_list {A} (key : A -> string) (l : list A) : res (list A) :=
  if Z.of_nat (length l) <? publishMaxEntities then Ok (by_id key l) else Err (NewError CodeInvalidInput).

Lemma by_id_length {A} (key : A -> string) l : length (by_id key l) = length l.
Proof. by rewrite by_id_perm. Qed.

Lemma drain_keyset {A} (key : A -> string) l : NoDup (key <$> l) -> (forall x, x ∈ l -> key x <> "") ->
  drainPages (fun after limit => Ok (keyset key after limit l)) key = whole_list key l.
Proof.
  intros Hnd Hne. unfold whole_list. rewrite <- (by_id_length key l). apply drainPages_all.
  - unfold keyset. do 3 f_equal. clear Hnd. induction l as [|x l IH]; [done|]. simpl.
    assert (string_before "" (key x) = true) as ->.
    { specialize (Hne x ltac:(by left)). by destruct (key x). }
    f_equal. apply IH. intros. apply Hne. by right.
  - intros pre z rest Hs. by rewrite (keyset_page key l pre z rest).
Qed.

Lemma drain_keyset_opt {A} (key : A -> string) l : NoDup (key <$> l) -> (forall x, x ∈ l -> key x <> "") ->
  drainPages (fun after limit => Ok (keyset_opt key after limit l)) key = whole_list key l.
Proof.
  intros Hnd Hne. unfold whole_list. rewrite <- (by_id_length key l). apply drainPages_all; [done|].
  intros pre z rest Hs. unfold keyset_opt. destruct (String.eqb_spec (key z) "") as [Hz|_].
  - destruct (Hne z); [|done]. rewrite <- (by_id_perm key l), Hs. set_solver.
  - by rewrite (keyset_page key l pre z rest).
Qed.

(** ** Revisions *)

Definition same_content (x y : ConfigRevision) : Prop :=
  rev_ID x = rev_ID y /\ rev_Scope x = rev_Scope y /\ rev_Revision x = rev_Revision y /\
  rev_Payload x = rev_Payload y /\ rev_CreatedBy x = rev_CreatedBy y.

Lemma length_le_1_elem {A} (l : list A) x y : (length l <= 1)%nat -> x ∈ l -> y ∈ l -> x = y.
Proof. destruct l as [|a [|b l]]; simpl; [set_solver|set_solver|lia]. Qed.

(** Activation rewrites flags only, and leaves its revision the active one. *)
Lemma activated s n now seen db db' row :
  row ∈ cd_revisions db -> is_revision s n row = true -> activateRevision s n now seen db = Ok db' ->
  db' = set_cd_revisions (cd_revisions db') db /\
  published now row ∈ cd_revisions db' /\
  (forall y, y ∈ cd_revisions db' -> active_in s y = true -> y = published now row) /\
  (forall x, x ∈ cd_revisions db -> exists y, y ∈ cd_revisions db' /\ same_content x y).
Proof.
  intros Hrow Hn H. unfold activateRevision in H. inv_ok. apply unique_Ok, Nat.leb_le in E1. simpl.
  set (l := activated_rows s n now seen (cd_revisions db)) in *.
  assert (Hin : forall y, y ∈ l <-> exists x, x ∈ cd_revisions db /\
            y = let x' := if superseding s seen x then superseded x else x in
                if is_revision s n x' then published now x' else x').
  { intros y. unfold l, activated_rows. rewrite map_map, list_elem_of_In, in_map_iff.
    setoid_rewrite list_elem_of_In. naive_solver. }
  assert (Hp : published now row ∈ l).
  { apply Hin. exists row. split; [done|]. unfold is_revision, in_rev_scope in *.
    by destruct (superseding s seen row); simpl; rewrite Hn. }
  assert (Ha : active_in s (published now row) = true).
  { unfold is_revision in Hn. apply andb_true_iff in Hn as [Hs _]. unfold active_in, in_rev_scope in *. simpl.
    by rewrite Hs. }
  split_and!; [done|done| |].
  - intros y Hy Hya. apply (length_le_1_elem _ _ _ E1); by apply list_elem_of_In, filter_In;
      rewrite <- list_elem_of_In.
  - intros r Hr. eexists. split; [apply Hin; by exists r|]. unfold same_content. simpl.
    repeat case_match; done.
Qed.

Lemma appended newID now by_ payload seen db n db' :
  append_revision newID now by_ payload seen db = Ok (n, db') ->
  exists row, n = LatestRevision ScopeCatalog seen + 1 /\
  rev_Scope row = ScopeCatalog /\ rev_Revision row = n /\ rev_Payload row = payload /\ rev_ID row = newID /\
  db' = set_cd_revisions (cd_revisions db') db /\ published now row ∈ cd_revisions db' /\
  (forall y, y ∈ cd_revisions db' -> active_in ScopeCatalog y = true -> y = published now row) /\
  (forall x, x ∈ cd_revisions db -> exists y, y ∈ cd_revisions db' /\ same_content x y).
Proof.
  intros H. unfold append_revision, InsertAndActivateRevision, insertConfigRevision in H.
  set (m := LatestRevision ScopeCatalog seen + 1) in H.
  cbn [rev_Scope rev_Revision rev_Payload rev_Status rev_CreatedBy] in H. inv_ok.
  set (row := mkRevision newID _ _ _ _ _ _ _) in E. exists row.
  assert (Hn : is_revision ScopeCatalog m row = true).
  { unfold is_revision, in_rev_scope. simpl. by rewrite Z.eqb_refl. }
  eapply activated in E as (Hdb & Hp & Hu & Hh); [|simpl; apply elem_of_app; right; by left|exact Hn].
  split_and!; [done..| |done|done|].
  - rewrite Hdb. by destruct db.
  - intros x Hx. apply Hh. simpl. set_solver.
Qed.

Lemma ParseSnapshot_payload parse_url r r' :
  rev_Payload r = rev_Payload r' -> is_ok (ParseSnapshot parse_url r) = is_ok (ParseSnapshot parse_url r').
Proof.
  intros Hp. unfold ParseSnapshot. rewrite Hp. destruct (rev_Payload r') as [p|]; [|done].
  repeat case_match; simpl; try done. destruct (parse_models _); [|done]. cbn [rbind].
  destruct (validateModelAliasUniqueness _); [|done]. cbn [rbind].
  destruct (parse_deployments _ _); [|done]. cbn [rbind]. by destruct (rfold _ _ _).
Qed.

(** ** The drain of a snapshot *)

Lemma keyed_NoDup {A} (f : A -> string) (m : gmap string A) :
  (forall k x, m !! k = Some x -> f x = k) -> NoDup (f <$> table m).
Proof.
  intros Hk. unfold table. assert (f <$> (map_to_list m).*2 = (map_to_list m).*1) as ->;
    [|apply NoDup_fst_map_to_list].
  assert (Forall (fun kx => f kx.2 = kx.1) (map_to_list m)) as H.
  { rewrite Forall_forall. intros [k x] Hx%elem_of_map_to_list. by apply Hk. }
  induction H as [|kx l Hx _ IH]; [done|]. rewrite !fmap_cons. by f_equal.
Qed.

Lemma keyed_fst_NoDup {A} (f : A -> string) (m : gmap string (A * instant)) :
  (forall k x t, m !! k = Some (x, t) -> f x = k) -> NoDup (f <$> (table m).*1).
Proof.
  intros Hk. rewrite <- list_fmap_compose. apply (keyed_NoDup (f ∘ fst)). intros k [x t] Hx. by apply (Hk k x t).
Qed.

Lemma filter_all {A} (p : A -> bool) l : (forall x, p x = true) -> List.filter p l = l.
Proof. intros Hp. induction l as [|x l IH]; simpl; [done|]. by rewrite Hp, IH. Qed.

Lemma whole_list_Ok {A} (key : A -> string) l l' : whole_list key l = Ok l' -> l' = by_id key l.
Proof. unfold whole_list. destruct (_ <? _); [by intros [= <-]|done]. Qed.

Lemma routes_of_other mid mid' rs : Forall (fun r => rt_ModelID r = mid') rs -> mid <> mid' -> routes_of mid rs = [].
Proof.
  intros H Hne. unfold routes_of. induction H as [|r rs Hr _ IH]; simpl; [done|].
  destruct (String.eqb_spec (rt_ModelID r) mid); [congruence|done].
Qed.

Lemma routes_of_own mid rs : Forall (fun r => rt_ModelID r = mid) rs -> routes_of mid rs = rs.
Proof. unfold routes_of. induction 1 as [|r rs Hr _ IH]; simpl; [done|]. by rewrite Hr, String.eqb_refl, IH. Qed.

Lemma ListRoutes_own mid db : Forall (fun r => rt_ModelID r = mid) (ListRoutes mid db).
Proof.
  unfold ListRoutes. rewrite stable_sort_Permutation. rewrite Forall_forall. intros r Hr.
  apply list_elem_of_In, filter_In in Hr as [_ Hr]. by apply String.eqb_eq.
Qed.

Lemma drained_routes ms db mid : NoDup (m_ID <$> ms) ->
  routes_of mid (concat (map (fun m => ListRoutes (m_ID m) db) ms)) =
    if bool_decide (mid ∈ m_ID <$> ms) then ListRoutes mid db else [].
Proof.
  induction ms as [|m ms IH]; intros Hnd; [done|]. change (m_ID <$> m :: ms) with (m_ID m :: (m_ID <$> ms)) in *.
  apply NoDup_cons in Hnd as [Hn Hnd]. specialize (IH Hnd).
  cbn [map concat]. unfold routes_of in *. rewrite List.filter_app, IH.
  destruct (decide (mid = m_ID m)) as [->|Hne].
  - fold (routes_of (m_ID m) (ListRoutes (m_ID m) db)). rewrite routes_of_own by apply ListRoutes_own.
    rewrite (bool_decide_eq_false_2 _ Hn), app_nil_r. rewrite bool_decide_eq_true_2; [done|by left].
  - fold (routes_of mid (ListRoutes (m_ID m) db)).
    rewrite (routes_of_other mid (m_ID m)); [|apply ListRoutes_own|done]. simpl.
    assert (mid ∈ m_ID <$> ms <-> mid ∈ m_ID m :: (m_ID <$> ms)) as Hiff by (rewrite elem_of_cons; naive_solver).
    by rewrite (bool_decide_ext _ _ Hiff).
Qed.

(** A revision that serves exactly the catalogue of [t]. *)
Definition serves (parse_url : string -> option URL) (rev : ConfigRevision) (t : CatalogDB) : Prop :=
  exists s, ParseSnapshot parse_url rev = Ok s /\
    (forall k m, sn_Models s !! k = Some m <-> exists tm, cd_models t !! k = Some (m, tm)) /\
    (forall k p, sn_Providers s !! k = Some p <-> exists tm, cd_providers t !! k = Some (p, tm)) /\
    (forall k d, sn_Deployments s !! k = Some d <-> cd_deployments t !! k = Some d) /\
    (forall mid, default [] (sn_RoutesByModel s !! mid) ≡ₚ routes_of mid (table_routes t) /\
                 in_order route_before (default [] (sn_RoutesByModel s !! mid))).

Lemma model_row_named m : model_row_ok m = true -> m_ID m <> "".
Proof. unfold model_row_ok. intros H He. by rewrite He in H. Qed.

Lemma drain_reads parse_url t ms ps ds rs : tables_keyed t ->
  drainCatalogForPublish parse_url t = Ok (ms, ps, ds, rs) ->
  ms = by_id m_ID (table (cd_models t)).*1 /\ ps = by_id pr_ID (table (cd_providers t)).*1 /\
  ds = by_id d_ID (table (cd_deployments t)) /\ validateCatalogForPublish parse_url ms ps ds = Ok tt /\
  rs = concat (map (fun m => ListRoutes (m_ID m) t) ms).
Proof.
  intros (Hm & Hp & Hd & _) H. unfold drainCatalogForPublish in H.
  unfold ListModels, ListProviders, ListDeployments in H. rewrite !filter_all in H by done.
  rewrite drain_keyset, drain_keyset_opt, drain_keyset_opt in H.
  - inv_ok. destruct x2. apply whole_list_Ok in E, E0, E1. by subst.
  - apply keyed_NoDup. intros k d Hk. by apply (Hd k d).
  - intros d [k Hk]%table_elem. by destruct (Hd k d Hk) as (-> & _ & ? & _).
  - apply keyed_fst_NoDup. intros k p tm Hk. by apply (Hp k p tm).
  - intros p (k & tm & Hk)%table_fst_elem. by destruct (Hp k p tm Hk) as (-> & _ & ?).
  - apply keyed_fst_NoDup. intros k m tm Hk. by apply (Hm k m tm).
  - intros m (k & tm & Hk)%table_fst_elem. destruct (Hm k m tm Hk) as (_ & Hok).
    by apply model_row_named.
Qed.

Lemma route_row_valid r : route_row_ok r = true -> rt_ModelID r <> "" -> rt_DeploymentID r <> "" ->
  ValidateRoute r = Ok tt.
Proof.
  intros Hok Hm Hd. unfold route_row_ok in Hok. bool_prop. unfold ValidateRoute.
  rewrite (proj2 (String.eqb_neq _ _) Hm), (proj2 (String.eqb_neq _ _) Hd). simpl.
  rewrite (proj2 (Z.leb_gt _ _)) by lia. rewrite bool_decide_eq_true_2; [done|]. by right.
Qed.

Lemma drained_serves parse_url t ms ps ds rs rev : tables_keyed t ->
  drainCatalogForPublish parse_url t = Ok (ms, ps, ds, rs) ->
  rev_Payload rev = Some (BuildCatalogPayload ms ps ds rs) -> serves parse_url rev t.
Proof.
  intros Ht H Hrev. pose proof Ht as (Hm & Hp & Hd & Hr).
  destruct (drain_reads _ _ _ _ _ _ Ht H) as (Hms & Hps & Hds & Hok & Hrs).
  assert (Hnm : NoDup (m_ID <$> ms)).
  { rewrite Hms, by_id_perm. apply keyed_fst_NoDup. intros k m tm Hk. by apply (Hm k m tm). }
  assert (Hnp : NoDup (pr_ID <$> ps)).
  { rewrite Hps, by_id_perm. apply keyed_fst_NoDup. intros k p tm Hk. by apply (Hp k p tm). }
  assert (Hnd : NoDup (d_ID <$> ds)).
  { rewrite Hds, by_id_perm. apply keyed_NoDup. intros k d Hk. by apply (Hd k d). }
  assert (Him : forall m, m ∈ ms <-> exists tm, cd_models t !! m_ID m = Some (m, tm)).
  { intros m. rewrite Hms, by_id_perm, table_fst_elem. split; [|naive_solver].
    intros (k & tm & Hk). pose proof (Hm _ _ _ Hk) as [<- _]. eauto. }
  assert (Hip : forall p, p ∈ ps <-> exists tm, cd_providers t !! pr_ID p = Some (p, tm)).
  { intros p. rewrite Hps, by_id_perm, table_fst_elem. split; [|naive_solver].
    intros (k & tm & Hk). pose proof (Hp _ _ _ Hk) as [<- _]. eauto. }
  assert (Hid : forall d, d ∈ ds <-> cd_deployments t !! d_ID d = Some d).
  { intros d. rewrite Hds, by_id_perm, table_elem. split; [|naive_solver].
    intros (k & Hk). by pose proof (Hd _ _ Hk) as [<- _]. }
  assert (Hroutes : forall mid, routes_of mid rs ≡ₚ routes_of mid (table_routes t)).
  { intros mid. rewrite Hrs, drained_routes by done. case_bool_decide as Hin.
    - unfold ListRoutes. by rewrite stable_sort_Permutation.
    - assert (routes_of mid (table_routes t) = []) as ->; [|done]. unfold routes_of.
      destruct (List.filter _ _) as [|r l] eqn:E; [done|]. destruct Hin.
      assert (r ∈ table_routes t /\ rt_ModelID r = mid) as [(k & tm & Hk)%table_fst_elem <-].
      { assert (r ∈ r :: l) as Hin by by left. rewrite <- E in Hin. apply list_elem_of_In, filter_In in Hin as [? ?].
        split; [by apply list_elem_of_In|by apply String.eqb_eq]. }
      destruct (Hr _ _ _ Hk) as (_ & _ & [[m tm'] Hmk] & _). pose proof (Hm _ _ _ Hmk) as [Hmid _].
      rewrite <- Hmid. apply list_elem_of_fmap_2, Him. rewrite Hmid. eauto. }
  destruct (published_loads parse_url rev ms ps ds rs) as (s & Hs & Hsm & Hsp & Hsd & Hsr); try done.
  - rewrite Hds, by_id_perm. rewrite Forall_forall. intros d [k Hk]%table_elem. naive_solver.
  - rewrite Forall_forall. intros r Hin. rewrite Hrs in Hin. apply list_elem_of_In, in_concat in Hin as (l & Hl & Hin).
    apply in_map_iff in Hl as (m & <- & Hmm). apply list_elem_of_In in Hin.
    unfold ListRoutes in Hin. rewrite stable_sort_Permutation in Hin.
    apply list_elem_of_In, filter_In in Hin as [(k & tm & Hk)%list_elem_of_In%table_fst_elem _].
    destruct (Hr _ _ _ Hk) as (_ & Hrow & [[m' tm'] Hmk] & [d Hdk]).
    destruct (Hm _ _ _ Hmk) as [Hmid Hmok], (Hd _ _ Hdk) as (Hdid & _ & Hdne & _).
    split_and!.
    + apply route_row_valid; [done| |done]. rewrite <- Hmid. by apply model_row_named.
    + rewrite <- Hmid. apply list_elem_of_fmap_2, Him. rewrite Hmid. eauto.
    + rewrite <- Hdid. apply list_elem_of_fmap_2, Hid. by rewrite Hdid.
  - exists s. split_and!; [done| | | |].
    + intros k m. rewrite Hsm, Him. split; [naive_solver|]. intros [tm Hk]. pose proof (Hm _ _ _ Hk) as [<- _]. eauto.
    + intros k p. rewrite Hsp, Hip. split; [naive_solver|]. intros [tm Hk]. pose proof (Hp _ _ _ Hk) as [<- _]. eauto.
    + intros k d. rewrite Hsd, Hid. split; [by intros [? <-]|]. intros Hk. pose proof (Hd _ _ Hk) as [<- _]. done.
    + intros mid. destruct (Hsr mid) as [HP Ho]. split; [by rewrite HP|done].
Qed.

(** ** Publishing *)

Lemma append_conflict newID now by_ payload seen db :
  existsb (is_revision ScopeCatalog (LatestRevision ScopeCatalog seen + 1)) (cd_revisions db) = true ->
  is_int4 (LatestRevision ScopeCatalog seen + 1) = true -> 0 <= LatestRevision ScopeCatalog seen ->
  append_revision newID now by_ payload seen db = db_fail UniqueViolation.
Proof.
  intros Hex Hi Hn. unfold append_revision, InsertAndActivateRevision, insertConfigRevision.
  cbn [rev_Scope rev_Revision rev_Payload rev_Status rev_CreatedBy]. unfold int4. rewrite Hi. cbn [rbind].
  unfold check. rewrite (proj2 (Z.ltb_lt _ _)) by lia. cbn [rbind].
  apply existsb_exists in Hex as (x & Hx & Hrx).
  rewrite (proj2 (existsb_exists _ _)); [done|]. exists x. by rewrite Hrx, orb_true_r.
Qed.

Lemma LatestRevision_nonneg s db : 0 <= LatestRevision s db.
Proof. unfold LatestRevision. induction (map _ _); simpl; lia. Qed.

(** C38: PUBLISH. A publish that commits makes the next revision the one active
    revision of the catalogue, and that revision serves exactly the models,
    providers, deployments and failover routes of the snapshot the publish
    read; every table and the content of every earlier revision stay as they
    were. When another publisher has taken the number meanwhile, the publish
    fails as a conflict and writes nothing. *)
Theorem publish_exact (parse_url : string -> option URL) (newID : Z) (now : instant) (createdBy : string)
    (commit : CommitOutcome) (seen db db' : CatalogDB) (r : res Z) :
  tables_keyed seen -> Publish parse_url newID now createdBy commit seen db = (db', r) ->
  (forall n, r = Ok n ->
     n = LatestRevision ScopeCatalog seen + 1 /\ db' = set_cd_revisions (cd_revisions db') db /\
     (forall x, x ∈ cd_revisions db -> exists y, y ∈ cd_revisions db' /\ same_content x y) /\
     exists rev, rev ∈ cd_revisions db' /\ rev_Revision rev = n /\ rev_Status rev = RevisionPublished /\
       ActiveRevision ScopeCatalog db' = Ok rev /\ serves parse_url rev seen) /\
  (existsb (is_revision ScopeCatalog (LatestRevision ScopeCatalog seen + 1)) (cd_revisions db) = true ->
   is_int4 (LatestRevision ScopeCatalog seen + 1) = true ->
   db' = db /\ forall d, drainCatalogForPublish parse_url seen = Ok d -> exists e, r = Err e /\ CodeOf e = CodeConflict).
Proof.
  intros Hk H. unfold Publish in H. split.
  - intros n ->. unfold commit_tx in H.
    destruct (let? d := _ in _) as [[n' db1]|e] eqn:E; [|done]. destruct commit; [|done].
    injection H as -> ->. apply rbind_Ok in E as ([[[ms ps] ds] rs] & Hdrain & Happ).
    destruct (appended _ _ _ _ _ _ _ _ Happ) as (row & Hn & Hs & Hnr & Hpay & Hid & Hdb & Hin & Hu & Hh).
    split_and!; [done..|]. exists (published now row).
    split_and!; [done..| |by eapply drained_serves].
    unfold ActiveRevision, one_revision. destruct (List.find _ _) as [y|] eqn:Hf.
    + apply find_some in Hf as [Hy Hay]. f_equal. apply Hu; [by apply list_elem_of_In|done].
    + apply list_elem_of_In in Hin. apply (find_none _ _ Hf) in Hin.
      unfold active_in, in_rev_scope in Hin. simpl in Hin. by rewrite Hs in Hin.
  - intros Hex Hi. destruct (drainCatalogForPublish parse_url seen) as [[[[ms ps] ds] rs]|e] eqn:Hd; cbn [rbind] in H.
    + rewrite append_conflict in H by (done || apply LatestRevision_nonneg). injection H as <- <-. eauto.
    + by injection H as <- <-.
Qed.

(** ** Histories *)

Inductive catalog_step (parse_url : string -> option URL) (db : CatalogDB) : CatalogDB -> Prop :=
| cs_table db' : table_step db db' -> catalog_step parse_url db db'
| cs_publish newID now by_ commit seen db' r : tables_keyed seen ->
    Publish parse_url newID now by_ commit seen db = (db', r) -> catalog_step parse_url db db'
| cs_rollback newID now to by_ commit seen db' r :
    Rollback parse_url newID now to by_ commit seen db = (db', r) -> catalog_step parse_url db db'.

Record catalog_inv (parse_url : string -> option URL) (db : CatalogDB) : Prop := {
  ci_tables : tables_keyed db;
  ci_active : forall x, x ∈ cd_revisions db -> active_in ScopeCatalog x = true ->
    rev_Status x = RevisionPublished /\ is_ok (ParseSnapshot parse_url x) = true;
  ci_one : forall x y, x ∈ cd_revisions db -> y ∈ cd_revisions db ->
    active_in ScopeCatalog x = true -> active_in ScopeCatalog y = true -> x = y;
}.

Lemma tables_keyed_revisions v db : tables_keyed (set_cd_revisions v db) <-> tables_keyed db.
Proof. done. Qed.

Lemma append_inv parse_url newID now by_ payload seen db n db' :
  (forall r, rev_Payload r = payload -> is_ok (ParseSnapshot parse_url r) = true) ->
  catalog_inv parse_url db -> append_revision newID now by_ payload seen db = Ok (n, db') ->
  catalog_inv parse_url db' /\ (forall x, x ∈ cd_revisions db -> exists y, y ∈ cd_revisions db' /\ same_content x y).
Proof.
  intros Hpay [Ht _ _] Happ. destruct (appended _ _ _ _ _ _ _ _ Happ) as (row & _ & _ & _ & Hp & _ & Hdb & _ & Hu & Hh).
  split; [|done]. split.
  - by rewrite Hdb.
  - intros x Hx Ha. rewrite (Hu x Hx Ha). split; [done|]. by apply Hpay.
  - intros x y Hx Hy Hax Hay. by rewrite (Hu x Hx Hax), (Hu y Hy Hay).
Qed.

Lemma same_content_refl x : same_content x x.
Proof. done. Qed.

Lemma commit_tx_cases {A} c db (r : res (A * CatalogDB)) db' r' : commit_tx c db r = (db', r') ->
  db' = db \/ exists a, r = Ok (a, db').
Proof. unfold commit_tx. intros H. repeat case_match; simplify_eq; eauto. Qed.

Lemma serves_ok parse_url rev t : serves parse_url rev t -> is_ok (ParseSnapshot parse_url rev) = true.
Proof. by intros (s & -> & _). Qed.

Lemma catalog_step_inv parse_url db db' : catalog_inv parse_url db -> catalog_step parse_url db db' ->
  catalog_inv parse_url db' /\ (forall x, x ∈ cd_revisions db -> exists y, y ∈ cd_revisions db' /\ same_content x y).
Proof.
  intros Hi. pose proof Hi as [Ht Ha H1].
  destruct 1 as [db' Hs|newID now by_ commit seen db' r Hseen H|newID now to by_ commit seen db' r H].
  - pose proof (table_step_revisions _ _ Hs) as Hrev. split.
    + split; rewrite ?Hrev; [by eapply table_step_keyed|done..].
    + rewrite Hrev. eauto using same_content_refl.
  - apply commit_tx_cases in H as [->|[a H]]; [split; eauto using same_content_refl|].
    apply rbind_Ok in H as ([[[ms ps] ds] rs] & Hdrain & Happ). eapply append_inv; [|done|exact Happ].
    intros r' Hr'. eapply serves_ok, drained_serves; eauto.
  - apply commit_tx_cases in H as [->|[a H]]; [split; eauto using same_content_refl|].
    inv_ok. eapply append_inv; [|done|exact H]. intros r' Hr'.
    rewrite (ParseSnapshot_payload parse_url r' x) by done. unfold wrap_invalid in E1. by destruct (ParseSnapshot _ x).
Qed.

Lemma catalog_history parse_url db db' : catalog_inv parse_url db -> rtc (catalog_step parse_url) db db' ->
  catalog_inv parse_url db' /\ (forall x, x ∈ cd_revisions db -> exists y, y ∈ cd_revisions db' /\ same_content x y).
Proof.
  intros Hi Hr. induction Hr as [db|db db1 db' Hs _ IH]; [eauto using same_content_refl|].
  destruct (catalog_step_inv _ _ _ Hi Hs) as [Hi1 Hh1]. destruct (IH Hi1) as [Hi' Hh]. split; [done|].
  intros x Hx. destruct (Hh1 x Hx) as (y & Hy & Hxy). destruct (Hh y Hy) as (z & Hz & Hyz). exists z. split; [done|].
  unfold same_content in *. naive_solver congruence.
Qed.

(** THE ACTIVE CATALOGUE LOADS. Whatever operators do (edits, deletes,
    publishes and rollbacks in any order, racing ones included, whether or not
    a commit reports back) the catalogue keeps at most one active revision,
    that revision is published and loads as a whole, and the content of every
    revision ever appended stays what it was. *)
Theorem active_revision_loads (parse_url : string -> option URL) (db db' : CatalogDB) :
  catalog_inv parse_url db -> rtc (catalog_step parse_url) db db' ->
  catalog_inv parse_url db' /\
  (forall x, x ∈ cd_revisions db -> exists y, y ∈ cd_revisions db' /\ same_content x y) /\
  (forall rev, ActiveRevision ScopeCatalog db' = Ok rev -> exists s, LoadSnapshot parse_url db' = Ok s).
Proof.
  intros Hi Hr. destruct (catalog_history _ _ _ Hi Hr) as [Hi' Hh]. split_and!; [done..|].
  intros rev Hrev. unfold LoadSnapshot. rewrite Hrev. cbn [rbind].
  unfold ActiveRevision, one_revision in Hrev. destruct (List.find _ _) as [y|] eqn:Hf; [|done].
  injection Hrev as ->. apply find_some in Hf as [Hy Hay]. apply list_elem_of_In in Hy.
  destruct (ci_active _ _ Hi' _ Hy Hay) as [_ Hok]. destruct (ParseSnapshot parse_url rev); [eauto|done].
Qed.

(** Reading a table page by page in key order, whatever order its
    rows are stored in, returns every row exactly once in key order when the
    table has fewer than 20000 rows, and an error, never a partial list, when
    it has that many or more. The loop ends within 40 pages. *)
Theorem drain_complete {A : Type} (key : A -> string) (l : list A) :
  NoDup (key <$> l) -> (forall x, x ∈ l -> key x <> "") ->
  drainPages (fun after limit => Ok (keyset key after limit l)) key
    = (if Z.of_nat (length l) <? publishMaxEntities then Ok (by_id key l) else Err (NewError CodeInvalidInput)) /\
  drainPages (fun after limit => Ok (keyset_opt key after limit l)) key
    = (if Z.of_nat (length l) <? publishMaxEntities then Ok (by_id key l) else Err (NewError CodeInvalidInput)).
Proof. intros Hnd Hne. split; [by apply drain_keyset|by apply drain_keyset_opt]. Qed.

(** ** The lifecycle *)

Lemma valid_model_row m : ValidateModel m = Ok tt -> m_Lifecycle m <> LifecycleUnset -> model_row_ok m = true.
Proof.
  unfold ValidateModel, model_row_ok. intros H Hl. inv_ok. rewrite (bool_decide_eq_false_2 _ Hl) in E1.
  simpl in E1. apply negb_false_iff in E1. rewrite E1. simpl. bool_prop.
  by rewrite !(proj2 (Z.ltb_lt _ _)) by lia.
Qed.

(** LIFECYCLE. A lifecycle change that succeeds moves the model along an
    edge of the lifecycle machine and changes nothing else of it, even when
    other edits ran between its read and its write, as long as a version token
    names one version; a retired model never leaves its state this way. The
    general edit, though, takes any known lifecycle: it moves a retired model
    back to active. *)
Theorem lifecycle_edges (id : string) (now : instant) :
  (forall to seen db db',
     (forall k m t, cd_models seen !! k = Some (m, t) -> m_ID m = k) ->
     (forall m m' t, cd_models seen !! id = Some (m, t) -> cd_models db !! id = Some (m', t) -> m' = m) ->
     SetModelLifecycle id to now seen db = Ok db' ->
     exists m t, cd_models db !! id = Some (m, t) /\
       (to ∈ default [] (lifecycleTransitions (m_Lifecycle m)) \/
        m_Lifecycle m = LifecycleUnset /\ to ∈ default [] (lifecycleTransitions LifecycleDraft)) /\
       m_Lifecycle m <> LifecycleRetired /\
       db' = set_cd_models (<[id := (set_m_Lifecycle to m, now)]> (cd_models db)) db) /\
  (forall m t db, cd_models db !! id = Some (m, t) -> m_ID m = id -> IsZero t = false ->
     m_Lifecycle m = LifecycleRetired -> m_OutputModalities m <> [] ->
     let m' := set_m_Lifecycle LifecycleActive m in
     ValidateModel m' = Ok tt -> model_ints m' = Ok tt ->
     UpdateModel m' t now db = Ok (set_cd_models (<[id := (m', now)]> (cd_models db)) db)).
Proof.
  split.
  - intros to seen db db' Hk Htok H. unfold SetModelLifecycle, GetModel, select_one in H. destruct (cd_models seen !! id) as [[m t]|] eqn:Hs; [|done].
    cbn [rbind] in H. pose proof (Hk _ _ _ Hs) as Hid. unfold CatalogStore.UpdateModel, ensureUpdated in H.
    change (m_ID (set_m_Lifecycle to m)) with (m_ID m) in H. rewrite Hid in H.
    inv_ok. destruct p as [m' t']. inv_ok. bool_prop. subst t'.
    destruct (Htok m m' t eq_refl E1). exists m', t. unfold ValidateLifecycleTransition in E. inv_ok.
    apply bool_decide_eq_true in E2. case_bool_decide as Hu.
    + split_and!; [done|by right|by rewrite Hu|by f_equal].
    + split_and!; [done|by left| |by f_equal]. intros Hr. rewrite Hr in E2. simpl in E2. set_solver.
  - intros m t db Hm Hid Hz Hr Ho m' Hv Hi.
    assert (defaultModalities m' = m') as Hd by (unfold defaultModalities; simpl; by destruct (m_OutputModalities m)).
    unfold UpdateModel, CatalogStore.UpdateModel. rewrite Hd, Hz, Hv, Hi. cbn [rbind].
    rewrite bool_decide_eq_false_2 by done. change (m_ID m') with (m_ID m). rewrite Hid. unfold instant in *.
    rewrite Hm, Z.eqb_refl. unfold check. by rewrite valid_model_row.
Qed.

(** ** The published list *)

Lemma list_published_elem s price access out id out' m :
  list_published s price access out id = Ok out' ->
  m ∈ out' <-> m ∈ out \/ (sn_Models s !! id = Some m /\ Sellable s id = true /\
    exists p, price = Some p /\ p id = Ok true /\ access id = Ok true).
Proof.
  intros H. unfold list_published in H.
  assert (Hno : forall P : Prop, out' = out -> ~ P -> m ∈ out' <-> m ∈ out \/ P) by (intros P ->; tauto).
  destruct (Sellable s id) eqn:Es; simpl in H; [|injection H as ->; apply Hno; [done|intros (?&?&?&?&?&?); congruence]].
  destruct price as [p|]; [|injection H as ->; apply Hno; [done|intros (?&?&?&?&?&?); congruence]].
  apply rbind_Ok in H as (b & Hp & H). destruct b; simpl in H; [|injection H as ->; apply Hno; [done|intros (?&?&?&?&?&?); congruence]].
  apply rbind_Ok in H as (b & Ha & H). destruct b; simpl in H; [|injection H as ->; apply Hno; [done|intros (?&?&?&?&?&?); congruence]].
  destruct (sn_Models s !! id) as [m'|] eqn:Hm; [|injection H as ->; apply Hno; [done|intros (?&?&?&?&?&?); congruence]].
  injection H as <-. rewrite elem_of_app, list_elem_of_singleton. split; [intros [?| ->]; eauto 10|].
  intros [?|(? & _)]; [by left|right; congruence].
Qed.

(** PUBLISHED LIST. The list a caller gets holds a model exactly when it is
    sellable in the active snapshot, has a price and the caller's access check
    allows it; without an access check there is no list, without a price hook
    it is empty, and a failing hook fails the whole listing. *)
Theorem published_list (parse_url : string -> option URL) (price access : option (string -> res bool))
    (db : CatalogDB) (out : list Model) :
  ListPublishedModels parse_url price access db = Ok out ->
  exists s a, LoadSnapshot parse_url db = Ok s /\ access = Some a /\
    (price = None -> out = []) /\
    (forall m, m ∈ out <-> exists id, sn_Models s !! id = Some m /\ Sellable s id = true /\
       exists p, price = Some p /\ p id = Ok true /\ a id = Ok true).
Proof.
  intros H. unfold ListPublishedModels in H. destruct access as [a|]; [|done].
  apply rbind_Ok in H as (s & Hs & H). exists s, a.
  enough (forall ids acc, rfold (list_published s price a) acc ids = Ok out -> forall m, m ∈ out <-> m ∈ acc \/
            exists id, id ∈ ids /\ sn_Models s !! id = Some m /\ Sellable s id = true /\
              exists p, price = Some p /\ p id = Ok true /\ a id = Ok true) as Hall.
  { specialize (Hall _ _ H). split_and!; [done..| |].
    - intros ->. destruct out as [|m out]; [done|].
      assert (m ∈ m :: out) as [?|(id & _ & _ & _ & p & ? & _)]%Hall by (by left); [set_solver|done].
    - intros m. rewrite Hall. split; [|intros (id & Hm & Hid); right; exists id].
      + intros [?|(id & _ & Hid)]; [set_solver|eauto].
      + split; [|done]. unfold ModelIDs. rewrite stable_sort_Permutation, list_elem_of_fmap.
        exists (id, m). by rewrite elem_of_map_to_list. }
  clear H. intros ids. induction ids as [|id ids IH]; intros acc H m; simpl in H.
  - injection H as ->. set_solver.
  - apply rbind_Ok in H as (acc' & Hl & H). rewrite (IH _ H), (list_published_elem _ _ _ _ _ _ _ Hl).
    set_unfold. naive_solver.
Qed.

(** ** The cache *)

Definition verified (parse_url : string -> option URL) (s : Snapshot) : Prop :=
  exists rev, ParseSnapshot parse_url rev = Ok s.

(** The same catalogue, the publication time apart. *)
Definition same_catalog (s t : Snapshot) : Prop :=
  sn_RevisionID s = sn_RevisionID t /\ sn_Revision s = sn_Revision t /\ sn_Models s = sn_Models t /\
  sn_Providers s = sn_Providers t /\ sn_Deployments s = sn_Deployments t /\ sn_RoutesByModel s = sn_RoutesByModel t.

Lemma same_content_parse parse_url x y s : same_content x y -> ParseSnapshot parse_url x = Ok s ->
  exists s', ParseSnapshot parse_url y = Ok s' /\ same_catalog s s'.
Proof.
  intros (Hid & _ & Hn & Hp & _) H. unfold ParseSnapshot in *. rewrite <- Hp, <- Hid, <- Hn.
  destruct (rev_Payload x) as [p|]; [|done]. destruct (_ =? _); [|done].
  destruct (parse_models _); [|done]. cbn [rbind] in *. destruct (validateModelAliasUniqueness _); [|done].
  cbn [rbind] in *. destruct (parse_deployments _ _); [|done]. cbn [rbind] in *.
  destruct (rfold _ _ _); [|done]. cbn [rbind] in *. injection H as <-. eexists. by split.
Qed.

Lemma ParseSnapshot_id parse_url x s : ParseSnapshot parse_url x = Ok s -> sn_RevisionID s = rev_ID x.
Proof. unfold ParseSnapshot. intros H. inv_ok. done. Qed.

Lemma Current_cases parse_url e c c' r alarm : Current parse_url e c = (c', r, alarm) ->
  (exists old, sc_current c = Some old /\ probe_fresh c (ce_Now e) = true /\ c' = c /\ r = Ok old /\ alarm = false) \/
  (exists old n, sc_current c = Some old /\ ce_Head e = Ok (sn_RevisionID old, n) /\
     c' = mkCache (Some old) (Some (ce_ProbeAt e)) /\ r = Ok old /\ alarm = false) \/
  (exists rev s h, ce_Head e = Ok h /\ ce_Active e = Ok rev /\ ParseSnapshot parse_url rev = Ok s /\
     c' = mkCache (Some s) (sc_lastProbe c) /\ r = Ok s /\ alarm = false) \/
  ((is_ok (ce_Head e) = false \/ is_ok (let? rev := ce_Active e in ParseSnapshot parse_url rev) = false) /\
   (c', r, alarm) = absorb c).
Proof.
  unfold Current. intros H.
  assert (Hload : forall h, ce_Head e = Ok h ->
    match (let? rev := ce_Active e in ParseSnapshot parse_url rev) with
    | Err _ => absorb c
    | Ok s => (mkCache (Some s) (sc_lastProbe c), Ok s, false)
    end = (c', r, alarm) ->
    (exists rev s h, ce_Head e = Ok h /\ ce_Active e = Ok rev /\ ParseSnapshot parse_url rev = Ok s /\
       c' = mkCache (Some s) (sc_lastProbe c) /\ r = Ok s /\ alarm = false) \/
    ((is_ok (ce_Head e) = false \/ is_ok (let? rev := ce_Active e in ParseSnapshot parse_url rev) = false) /\
     (c', r, alarm) = absorb c)).
  { intros h Hh Hl. destruct (ce_Active e) as [rev|] eqn:Ha; cbn [rbind] in *; [|right; split; [by right|done]].
    destruct (ParseSnapshot parse_url rev) as [s|] eqn:Hs; [|right; split; [by right|done]].
    injection Hl as <- <- <-. left. by exists rev, s, h. }
  destruct (sc_current c) as [old|] eqn:Hc.
  - destruct (probe_fresh c (ce_Now e)) eqn:Hf; [injection H as <- <- <-; left; by exists old|].
    destruct (ce_Head e) as [[hid n]|] eqn:Hh.
    + destruct (Z.eqb_spec (sn_RevisionID old) hid) as [<-|_].
      * injection H as <- <- <-. right. left. by exists old, n.
      * right. right. by eapply Hload.
    + right. right. right. split; [by left|done].
  - destruct (ce_Head e) as [h|] eqn:Hh; [right; right; by eapply Hload|].
    right. right. right. split; [by left|done].
Qed.

(** SNAPSHOT CACHE. The cache only ever holds and serves whole, parsed
    snapshots. It fails only when it holds none, and every refresh failure it
    absorbs raises the alarm and changes nothing. When it serves without an
    alarm, and not within a second of its last matching probe, what it serves
    is the catalogue of the revision active in the store, however many
    publishes and rollbacks ran since it was cached. *)
Theorem snapshot_cache (parse_url : string -> option URL) (e : CacheEnv) (c c' : SnapshotCache)
    (r : res Snapshot) (alarm : bool) :
  (forall s, sc_current c = Some s -> verified parse_url s) -> Current parse_url e c = (c', r, alarm) ->
  (forall s, sc_current c' = Some s -> verified parse_url s) /\
  (forall s, r = Ok s -> sc_current c' = Some s) /\
  (forall err, r = Err err -> sc_current c = None /\ c' = c) /\
  (alarm = true -> c' = c /\ (is_ok (ce_Head e) = false \/
                              is_ok (let? rev := ce_Active e in ParseSnapshot parse_url rev) = false)) /\
  (forall db0 db x s, alarm = false -> probe_fresh c (ce_Now e) = false -> r = Ok s ->
     (forall old, sc_current c = Some old -> x ∈ cd_revisions db0 /\ ParseSnapshot parse_url x = Ok old) ->
     catalog_inv parse_url db0 -> rtc (catalog_step parse_url) db0 db ->
     (forall y z, y ∈ cd_revisions db -> z ∈ cd_revisions db -> rev_ID y = rev_ID z -> y = z) ->
     ce_Head e = ActiveRevisionHead ScopeCatalog db -> ce_Active e = ActiveRevision ScopeCatalog db ->
     exists s', LoadSnapshot parse_url db = Ok s' /\ same_catalog s s').
Proof.
  intros Hv H. apply Current_cases in H as
    [(old & Hc & Hf & -> & -> & ->)|[(old & n & Hc & Hh & -> & -> & ->)|[(rev & t & h & Hh & Ha & Ht & -> & -> & ->)
    |(Hbad & Habs)]]].
  - split_and!; [done|naive_solver|done|done|]. intros. congruence.
  - split_and!; simpl; [intros s [= <-]; auto|naive_solver|done|done|].
    intros db0 db x s _ _ [= <-] Hx Hi Hr Hids Hhd _. destruct (Hx old Hc) as [Hx0 Hp].
    destruct (catalog_history parse_url db0 db Hi Hr) as [_ Hhist].
    destruct (Hhist x Hx0) as (y & Hy & Hxy). destruct (same_content_parse _ _ _ _ Hxy Hp) as (s' & Hs' & Hsame).
    exists s'. split; [|done]. rewrite Hh in Hhd. symmetry in Hhd. unfold ActiveRevisionHead in Hhd.
    apply rbind_Ok in Hhd as (z & Hz & [= Hzid _]). unfold LoadSnapshot. rewrite Hz. cbn [rbind].
    unfold ActiveRevision, one_revision in Hz. destruct (List.find _ _) as [w|] eqn:Hfi; [|done].
    injection Hz as ->. apply find_some in Hfi as [Hin _]. apply list_elem_of_In in Hin.
    rewrite (Hids z y Hin Hy); [done|]. rewrite Hzid, (ParseSnapshot_id _ _ _ Hp). by destruct Hxy.
  - split_and!; simpl; [intros s [= <-]; by exists rev|naive_solver|done|done|].
    intros db0 db x s _ _ [= <-] _ _ _ _ _ Hact. exists t. split; [|by split_and!].
    unfold LoadSnapshot. rewrite <- Hact, Ha. done.
  - unfold absorb in Habs. destruct (sc_current c) as [old|] eqn:Hc; injection Habs as -> -> ->.
    + split_and!; [by rewrite Hc|by intros s [= <-]|done|done|done].
    + split_and!; [by rewrite Hc|done|done|done|done].
Qed.

(** ** A concrete history *)

Definition demo_catalog : CatalogDB :=
  mkCatalogDB {[ "m1" := (demo_model "m1" ["latest"], 1) ]} {[ "p1" := (demo_provider, 1) ]}
    {[ "d1" := demo_deployment "d1" ]} {[ "r1" := (demo_route "r1" "m1" "d1" 0, 1) ]} [].
Definition demo_publish (id : Z) (db : CatalogDB) : CatalogDB * res Z :=
  Publish demo_parse_url id 10 "operator" Committed db db.
Definition demo_published : CatalogDB := (demo_publish 1 demo_catalog).1.

Lemma demo_catalog_keyed : tables_keyed demo_catalog.
Proof.
  split_and!; simpl.
  - intros k m t [<- [= <- <-]]%lookup_singleton_Some. by vm_compute.
  - intros k p t [<- [= <- <-]]%lookup_singleton_Some. by vm_compute.
  - intros k d [<- <-]%lookup_singleton_Some. split_and!; [by vm_compute..|exists 5000|exists 600000|];
      [split; done || lia..|]. by eexists.
  - intros k r t [<- [= <- <-]]%lookup_singleton_Some. split_and!; [by vm_compute..|by eexists|by eexists].
Qed.

Lemma demo_catalog_inv : catalog_inv demo_parse_url demo_catalog.
Proof. split; [apply demo_catalog_keyed|set_solver..]. Qed.

Lemma publish_exact_witness :
  exists rev, ActiveRevision ScopeCatalog demo_published = Ok rev /\ serves demo_parse_url rev demo_catalog /\
    rev_Revision rev = 1.
Proof.
  destruct (publish_exact demo_parse_url 1 10 "operator" Committed demo_catalog demo_catalog demo_published (Ok 1))
    as [H _].
  - exact demo_catalog_keyed.
  - by vm_compute.
  - destruct (H 1 eq_refl) as (_ & _ & _ & rev & _ & Hn & _ & Ha & Hs). exists rev. split_and!; [done|done|done].
Defined.

Lemma active_revision_loads_witness : exists s, LoadSnapshot demo_parse_url demo_published = Ok s.
Proof.
  destruct (active_revision_loads demo_parse_url demo_catalog demo_published) as (_ & _ & H).
  - exact demo_catalog_inv.
  - apply rtc_once. eapply (cs_publish _ _ 1 10 "operator" Committed demo_catalog); [exact demo_catalog_keyed|].
    apply surjective_pairing.
  - destruct (ActiveRevision ScopeCatalog demo_published) as [rev|] eqn:E; [by eapply H|by vm_compute in E].
Defined.

Lemma drain_complete_witness :
  drainPages (fun after limit => Ok (keyset (fun s => s) after limit ["b"; "a"])) (fun s => s) = Ok ["a"; "b"].
Proof.
  destruct (drain_complete (fun s : string => s) ["b"; "a"]) as [H _].
  - by apply (bool_decide_unpack _); vm_compute.
  - intros x Hx. set_unfold. naive_solver.
  - rewrite H. by vm_compute.
Defined.

Lemma lifecycle_edges_witness :
  exists m t, cd_models demo_catalog !! "m1" = Some (m, t) /\ m_Lifecycle m <> LifecycleRetired.
Proof.
  destruct (lifecycle_edges "m1" 20) as [H _].
  destruct (H LifecycleDeprecated demo_catalog demo_catalog
    (set_cd_models {[ "m1" := (set_m_Lifecycle LifecycleDeprecated (demo_model "m1" ["latest"]), 20) ]} demo_catalog))
    as (m & t & Hm & _ & Hr & _).
  - intros k m t Hk. by apply (proj1 demo_catalog_keyed k m t).
  - intros. congruence.
  - by vm_compute.
  - by exists m, t.
Defined.

Lemma published_list_witness : exists m, m ∈ [demo_model "m1" ["latest"]] /\ m_ID m = "m1".
Proof.
  destruct (published_list demo_parse_url (Some (fun _ => Ok true)) (Some (fun _ => Ok true)) demo_published
    [demo_model "m1" ["latest"]]) as (s & a & Hs & [= <-] & _ & H).
  - by vm_compute.
  - exists (demo_model "m1" ["latest"]). split; [|done]. apply H. exists "m1". split_and!.
    + assert (LoadSnapshot demo_parse_url demo_published = Ok s) as Hl by exact Hs. vm_compute in Hl.
      injection Hl as <-. vm_compute. reflexivity.
    + vm_compute in Hs. injection Hs as <-. vm_compute. reflexivity.
    + clear. exists (fun _ => Ok true). split; [reflexivity|split; reflexivity].
Defined.

Definition demo_env : CacheEnv :=
  mkCacheEnv 10 10 (ActiveRevisionHead ScopeCatalog demo_published) (ActiveRevision ScopeCatalog demo_published).

Lemma snapshot_cache_witness :
  exists s, sc_current (Current demo_parse_url demo_env (mkCache None None)).1.1 = Some s.
Proof.
  destruct (snapshot_cache demo_parse_url demo_env (mkCache None None)
    (Current demo_parse_url demo_env (mkCache None None)).1.1
    (Current demo_parse_url demo_env (mkCache None None)).1.2
    (Current demo_parse_url demo_env (mkCache None None)).2) as (_ & H & _).
  - intros s Hs. discriminate Hs.
  - destruct (Current _ _ _) as [[c r] alarm]. reflexivity.
  - destruct (Current demo_parse_url demo_env (mkCache None None)).1.2 as [s|e] eqn:E.
    + exists s. apply H. reflexivity.
    + vm_compute in E. discriminate E.
Defined.
