(* ===== verification/Routing.v ===== *)
(** * Routing: candidates, rotation, cooldowns and upstream leases

    [internal/inference/routing/service.go] and [account_pool.go]: which
    (route, deployment, account) triples may serve a call and in which order,
    the one-second account cache, the round-robin cursor, the in-process
    cooldown, the health view, and the lease operations of an attempt.

    One process runs its calls one after another here; the mutexes of the
    source make each of these operations atomic. A call draws its clock readings
    and the answers of the account store from a [RouteEnv]. *)

From Stdlib Require Import ZArith Lia Bool.
From stdpp Require Import base gmap strings list.
From S2P Require Import Prelude Domain Money Calendar WalletRules Principal Entitlements Tables LeaseStore Headers.
From S2P Require Import Catalog Sessions.

Local Open Scope Z_scope.
Local Open Scope go_scope.

(** ** Data *)

Definition cooldownAfterRetryable : duration := 60 * second.
Definition accountsCacheTTL : duration := second.

Record AdapterCapabilities := mkCaps { cap_StreamingUsage : bool; cap_Tools : bool; cap_Reasoning : bool }.
Record Needs := mkNeeds { n_Tools : bool; n_Reasoning : bool }.
Record Candidate := mkCandidate {
  cand_Route : ModelRoute;
  cand_Deployment : Deployment;
  cand_Account : UpstreamAccount;
}.

(** The process memory of the service. *)
Record Router := mkRouter {
  rs_cooled : gmap string instant;
  rs_rr : gmap string Z;
  rs_acctCache : gmap string (list UpstreamAccount * instant);
}.

Definition new_router : Router := mkRouter ∅ ∅ ∅.
Definition set_rs_rr v (rs : Router) : Router := mkRouter (rs_cooled rs) v (rs_acctCache rs).
Definition set_rs_cache v (rs : Router) : Router := mkRouter (rs_cooled rs) (rs_rr rs) v.

(** The first clock reading of a selection, then one reading and one store
    answer per account lookup. *)
Record RouteEnv := mkRouteEnv {
  re_now : instant;
  re_clock : nat -> instant;
  re_list : nat -> string -> res (list UpstreamAccount);
}.

(** ** Accounts *)

Definition InvalidateAccounts (providerID : string) (rs : Router) : Router :=
  set_rs_cache (delete providerID (rs_acctCache rs)) rs.

Definition cached (providerID : string) (now : instant) (rs : Router) : option (list UpstreamAccount) :=
  match rs_acctCache rs !! providerID with
  | Some (l, at_) => if time_sub now at_ <? accountsCacheTTL then Some l else None
  | None => None
  end.

(** [fresh] skips the cache; errors are not cached. *)
Definition activeAccounts (now : instant) (answer : res (list UpstreamAccount)) (providerID : string) (fresh : bool)
    (rs : Router) : Router * res (list UpstreamAccount) :=
  match (if fresh then None else cached providerID now rs) with
  | Some l => (rs, Ok l)
  | None => match answer with
            | Err e => (rs, Err e)
            | Ok l => (set_rs_cache (<[providerID := (l, now)]> (rs_acctCache rs)) rs, Ok l)
            end
  end.

Definition routeCovers (r : ModelRoute) (needs : Needs) : bool :=
  match rt_Capabilities r with
  | [] => true
  | caps => (negb (n_Tools needs) || existsb (String.eqb "tools") caps)
            && (negb (n_Reasoning needs) || existsb (String.eqb "reasoning") caps)
  end.

Definition cooling (rs : Router) (now : instant) (id : string) : bool :=
  match rs_cooled rs !! id with Some until => now <? until | None => false end.

(** [live[(start+i) % len(live)]] for every [i]. *)
Definition rotate {A} (start : nat) (l : list A) : list A :=
  omap (fun i => l !! ((start + i) mod length l)%nat) (seq 0 (length l)).

Definition cursor (providerID : string) (rs : Router) : Z := default 0 (rs_rr rs !! providerID).

Definition orderAccounts (providerID : string) (accounts : list UpstreamAccount) (now : instant) (rs : Router)
  : Router * list UpstreamAccount :=
  let live := List.filter (fun a => negb (cooling rs now (a_ID a))) accounts in
  if (length live <=? 1)%nat then (rs, live)
  else let start := Z.rem (cursor providerID rs) (Z.of_nat (length live)) in
       (set_rs_rr (<[providerID := start + 1]> (rs_rr rs)) rs, rotate (Z.to_nat start) live).

Definition orderAccountsWithQuota (providerID : string) (accounts : list UpstreamAccount) (now : instant)
    (rs : Router) : Router * list UpstreamAccount :=
  orderAccounts providerID
    (List.filter (fun a => negb (a_ConcurrencyLimit a <=? 0) && negb (quotaExhausted a now)) accounts) now rs.

Definition Cool (accountID : string) (until : instant) (rs : Router) : Router :=
  mkRouter (<[accountID := until]> (rs_cooled rs)) (rs_rr rs) (rs_acctCache rs).
Definition CooldownAfterFailure (accountID : string) (now : instant) (rs : Router) : Router :=
  Cool accountID (time_add now cooldownAfterRetryable) rs.

(** ** Candidates *)

Section Candidates.
(** The capabilities of the registered adapters. *)
Context (adapters : Protocol -> option AdapterCapabilities).

(** The deployment a route may be served by. *)
Definition usable (snap : Snapshot) (needs : Needs) (r : ModelRoute) : option Deployment :=
  if negb (rt_Enabled r) || negb (routeCovers r needs) then None
  else match sn_Deployments snap !! rt_DeploymentID r with
       | None => None
       | Some d =>
           if negb (bool_decide (d_Status d = DeploymentActive)) then None
           else match adapters (d_Protocol d) with
                | None => None
                | Some caps => if n_Tools needs && negb (cap_Tools caps) || n_Reasoning needs && negb (cap_Reasoning caps)
                               then None else Some d
                end
       end.

(** [k] counts the account lookups so far; the answer carries the providers
    consulted. *)
Fixpoint candidates_loop (e : RouteEnv) (snap : Snapshot) (needs : Needs) (bypassCache : bool)
    (routes : list ModelRoute) (k : nat) (rs : Router) (out : list Candidate) (consulted : gset string)
  : Router * res (list Candidate * gset string) :=
  match routes with
  | [] => (rs, Ok (out, consulted))
  | r :: routes =>
      match usable snap needs r with
      | None => candidates_loop e snap needs bypassCache routes k rs out consulted
      | Some d =>
          let '(rs, accounts) := activeAccounts (re_clock e k) (re_list e k (d_ProviderID d)) (d_ProviderID d)
                                   bypassCache rs in
          match accounts with
          | Err err => (rs, Err err)
          | Ok accounts =>
              let '(rs, ordered) := orderAccountsWithQuota (d_ProviderID d) accounts (re_now e) rs in
              candidates_loop e snap needs bypassCache routes (S k) rs (out ++ map (mkCandidate r d) ordered)
                ({[ d_ProviderID d ]} ∪ consulted)
          end
      end
  end.

Definition candidates (e : RouteEnv) (snap : Snapshot) (modelID : string) (needs : Needs) (bypassCache : bool)
    (rs : Router) : Router * res (list Candidate * gset string) :=
  candidates_loop e snap needs bypassCache (default [] (sn_RoutesByModel snap !! modelID)) 0 rs [] ∅.

(** An empty answer is checked once more against the store, in a second
    environment. *)
Definition Candidates (e recheck : RouteEnv) (snap : Snapshot) (modelID : string) (needs : Needs) (rs : Router)
  : Router * res (list Candidate) :=
  match candidates e snap modelID needs false rs with
  | (rs, Err err) => (rs, Err err)
  | (rs, Ok (out, consulted)) =>
      match out with
      | _ :: _ => (rs, Ok out)
      | [] => if bool_decide (consulted = ∅) then (rs, Ok [])
              else let rs := foldr InvalidateAccounts rs (elements consulted) in
                   let '(rs, r) := candidates recheck snap modelID needs true rs in
                   (rs, let? (out, _) := r in Ok out)
      end
  end.

End Candidates.

(** [SortCandidatesStable]. *)
Definition SortCandidatesStable : list Candidate -> list Candidate :=
  stable_sort (fun a b => route_before (cand_Route a) (cand_Route b)).

(** ** Health *)

Record AccountHealth := mkHealth {
  h_AccountID : string;
  h_Status : UpstreamAccountStatus;
  h_CoolingUntil : option instant;
  h_QuotaLimit : option Z;
  h_QuotaRemaining : option Z;
  h_QuotaObservedAt : option instant;
  h_QuotaSource : option string;
  h_QuotaResetAt : option instant;
  h_Schedulable : bool;
}.

Definition HealthOf (a : UpstreamAccount) (now : instant) (rs : Router) : AccountHealth :=
  let q := a_Quota a in
  let coolingUntil := if cooling rs now (a_ID a) then rs_cooled rs !! a_ID a else None in
  mkHealth (a_ID a) (a_Status a) coolingUntil (q_LimitMicros q) (q_RemainingMicros q) (q_ObservedAt q) (q_Source q)
    (q_ResetAt q)
    (bool_decide (a_Status a = AccountActive) && (0 <? a_ConcurrencyLimit a)
     && bool_decide (coolingUntil = None) && negb (quotaExhausted a now)).

(** ** Leases *)

(** [ErrAccountInactiveAtDispatch] is told from other errors by identity. *)
Inductive LeaseError := AccountInactiveAtDispatch | LeaseFailed (e : error).

Definition LeaseErrorCode (e : LeaseError) : Code :=
  match e with AccountInactiveAtDispatch => CodeConflict | LeaseFailed e => CodeOf e end.

(** The identity of the process and the lifetime it asks for. *)
Record LeaseOwner := mkOwner { lo_OwnerToken : string; lo_LeaseTTL : duration }.

(** Inside the attempt's transaction: the status is read under a row lock. *)
Definition AcquireUpstreamLease (o : LeaseOwner) (newID newOwner : string) (clock : instant) (pool : PoolDB)
    (account : UpstreamAccount) (requestID : string) (now : instant) (db : DB)
  : result LeaseError (ConcurrencyLease * DB) :=
  if a_ConcurrencyLimit account <=? 0 then Err (LeaseFailed (NewError CodeInsufficientCapacity))
  else match GetUpstreamAccountStatusForUpdateTx (a_ID account) pool with
       | Err e => Err (if bool_decide (CodeOf e = CodeNotFound) then AccountInactiveAtDispatch
                       else LeaseFailed (WrapError CodeInternal e))
       | Ok status =>
           if negb (bool_decide (status = AccountActive)) then Err AccountInactiveAtDispatch
           else match AcquireLeaseTx newID newOwner clock
                        (mkAcquire LeaseScopeUpstreamAccount (a_ID account) requestID (lo_OwnerToken o)
                           (a_ConcurrencyLimit account) (lo_LeaseTTL o) now) db with
                | Ok r => Ok r
                | Err e => Err (LeaseFailed e)
                end
       end.

Definition CheckUpstreamLease (l : ConcurrencyLease) (now clock : instant) (db : DB) : res unit :=
  CheckLease (l_ID l) (l_OwnerToken l) (l_FencingToken l) now clock db.

(** A conflict means the slot is gone either way. *)
Definition ReleaseUpstreamLease (l : option ConcurrencyLease) (now : instant) (db : DB) : DB * res unit :=
  match l with
  | None => (db, Ok tt)
  | Some l => match ReleaseLease (l_ID l) (l_OwnerToken l) (l_FencingToken l) now db with
              | Ok db => (db, Ok tt)
              | Err e => (db, if bool_decide (CodeOf e = CodeConflict) then Ok tt else Err e)
              end
  end.

(** One tick of the keeper's renewal loop: a transient error leaves the lease
    to the next tick, the first conflict is recorded and ends the loop. *)
Fixpoint keeper_tick (expires : instant) (transient : ConcurrencyLease -> bool) (leases : list ConcurrencyLease) (db : DB)
  : DB * option error :=
  match leases with
  | [] => (db, None)
  | l :: leases =>
      if transient l then keeper_tick expires transient leases db
      else match RenewLease (l_ID l) (l_OwnerToken l) (l_FencingToken l) expires db with
           | Ok db => keeper_tick expires transient leases db
           | Err e => if bool_decide (CodeOf e = CodeConflict) then (db, Some e)
                      else keeper_tick expires transient leases db
           end
  end.

(** [Stop]: the loop ends, then every lease is released, errors ignored. *)
Definition keeper_stop (now : instant) (leases : list ConcurrencyLease) (db : DB) : DB :=
  foldl (fun db l => (ReleaseUpstreamLease (Some l) now db).1) db leases.

(** ** Rotation *)

Lemma omap_window {A} (l : list A) s k : forall a, (s + a + k <= length l)%nat ->
  omap (fun i => l !! (s + i)%nat) (seq a k) = take k (drop (s + a) l).
Proof.
  induction k as [|k IH]; intros a H; [done|]. cbn [seq omap list_omap].
  destruct (lookup_lt_is_Some_2 l (s + a)) as [x Hx]; [lia|]. rewrite Hx.
  rewrite (drop_S _ _ _ Hx). cbn [take]. f_equal. rewrite <- Nat.add_succ_r. apply IH. lia.
Qed.

Lemma omap_seq_ext {A} (f g : nat -> option A) k : forall a,
  (forall i, (a <= i < a + k)%nat -> f i = g i) -> omap f (seq a k) = omap g (seq a k).
Proof.
  induction k as [|k IH]; intros a H; [done|]. cbn [seq omap list_omap]. rewrite (H a) by lia.
  rewrite (IH (S a)); [done|]. intros. apply H. lia.
Qed.

Lemma omap_app {A B} (f : A -> option B) l1 l2 : omap f (l1 ++ l2) = omap f l1 ++ omap f l2.
Proof. induction l1 as [|x l1 IH]; [done|]. cbn [app omap list_omap]. destruct (f x); simpl; by rewrite IH. Qed.

Lemma rotate_drop_take {A} start (l : list A) : (start < length l)%nat -> rotate start l = drop start l ++ take start l.
Proof.
  intros Hs. unfold rotate.
  replace (seq 0 (length l)) with (seq 0 (length l - start) ++ seq (length l - start) start)
    by (rewrite <- seq_app; f_equal; lia).
  rewrite omap_app. f_equal.
  - rewrite (omap_seq_ext _ (fun i => l !! (start + i)%nat)).
    + rewrite omap_window by lia. rewrite Nat.add_0_r. apply take_ge. rewrite length_drop. lia.
    + intros i Hi. by rewrite Nat.mod_small by lia.
  - assert (forall k a, (length l - start <= a)%nat -> (a + k <= length l)%nat ->
              omap (fun i => l !! ((start + i) mod length l)%nat) (seq a k) = take k (drop (start + a - length l) l)) as Hw.
    { induction k as [|k IH]; intros a Ha Hk; [done|]. cbn [seq omap list_omap].
      replace (start + a)%nat with ((start + a - length l) + 1 * length l)%nat at 1 by lia.
      rewrite Nat.Div0.mod_add, Nat.mod_small by lia.
      destruct (lookup_lt_is_Some_2 l (start + a - length l)) as [x Hx]; [lia|]. rewrite Hx, (drop_S _ _ _ Hx).
      cbn [take]. f_equal. rewrite IH by lia. do 2 f_equal. lia. }
    rewrite Hw by lia. by replace (start + (length l - start) - length l)%nat with 0%nat by lia.
Qed.

Lemma rotate_perm {A} start (l : list A) : (start < length l)%nat -> rotate start l ≡ₚ l.
Proof. intros Hs. rewrite rotate_drop_take by done. by rewrite Permutation_app_comm, take_drop. Qed.

(** The tail from some place on, then the head. *)
Definition rotation_of {A} (live l : list A) : Prop := exists k, l = drop k live ++ take k live.

Lemma rotation_perm {A} (live l : list A) : rotation_of live l -> l ≡ₚ live.
Proof. intros [k ->]. by rewrite Permutation_app_comm, take_drop. Qed.

Definition schedulable (rs : Router) (now : instant) (a : UpstreamAccount) : bool :=
  negb (a_ConcurrencyLimit a <=? 0) && negb (quotaExhausted a now) && negb (cooling rs now (a_ID a)).

Lemma start_bound c n : 0 <= c -> (0 < n)%nat -> (Z.to_nat (Z.rem c (Z.of_nat n)) < n)%nat.
Proof. intros Hc Hn. pose proof (Z.rem_bound_pos c (Z.of_nat n)). lia. Qed.

Definition cursors_ok (rs : Router) : Prop := forall p, 0 <= cursor p rs.

Lemma orderAccounts_spec p l now rs rs' out : cursors_ok rs -> orderAccounts p l now rs = (rs', out) ->
  rotation_of (List.filter (fun a => negb (cooling rs now (a_ID a))) l) out /\
  rs_cooled rs' = rs_cooled rs /\ rs_acctCache rs' = rs_acctCache rs /\ cursors_ok rs'.
Proof.
  intros Hc H. unfold orderAccounts in H. set (live := List.filter _ _) in *.
  destruct (Nat.leb_spec (length live) 1) as [Hl|Hl]; injection H as <- <-.
  { split; [|done]. exists 0%nat. by rewrite take_0, app_nil_r. }
  split_and!; [|done..|].
  - eexists. apply rotate_drop_take, start_bound; [apply Hc|lia].
  - intros q. unfold cursor, set_rs_rr. simpl. destruct (decide (p = q)) as [<-|Hne].
    + rewrite lookup_insert_eq. simpl. fold (cursor p rs).
      pose proof (Z.rem_bound_pos (cursor p rs) (Z.of_nat (length live)) (Hc p)). lia.
    + rewrite lookup_insert_ne by done. apply Hc.
Qed.

Lemma filter_filter {A} (p q : A -> bool) l : List.filter p (List.filter q l) = List.filter (fun x => q x && p x) l.
Proof.
  induction l as [|x l IH]; [done|]. simpl. destruct (q x); simpl; [destruct (p x)|]; by rewrite IH.
Qed.

Lemma orderAccountsWithQuota_spec p l now rs rs' out :
  cursors_ok rs -> orderAccountsWithQuota p l now rs = (rs', out) ->
  rotation_of (List.filter (schedulable rs now) l) out /\
  rs_cooled rs' = rs_cooled rs /\ rs_acctCache rs' = rs_acctCache rs /\ cursors_ok rs'.
Proof.
  intros Hc H. unfold orderAccountsWithQuota in H. apply (orderAccounts_spec _ _ _ _ _ _ Hc) in H.
  by rewrite filter_filter in H.
Qed.

Lemma schedulable_cooled rs rs' now :
  rs_cooled rs' = rs_cooled rs -> forall a, schedulable rs' now a = schedulable rs now a.
Proof. intros H a. unfold schedulable, cooling. by rewrite H. Qed.

Lemma filter_ext_in_eq {A} (p q : A -> bool) l : (forall x, p x = q x) -> List.filter p l = List.filter q l.
Proof. intros H. induction l as [|x l IH]; simpl; [done|]. by rewrite H, IH. Qed.

(** ** What a selection returns *)

Section Selection.
Context (adapters : Protocol -> option AdapterCapabilities) (snap : Snapshot) (needs : Needs).

(** The candidates of one route, given the accounts of its provider. *)
Definition part_of (rs : Router) (now : instant) (pool : string -> list UpstreamAccount) (r : ModelRoute)
    (part : list Candidate) : Prop :=
  match usable adapters snap needs r with
  | None => part = []
  | Some d => exists l, rotation_of (List.filter (schedulable rs now) (pool (d_ProviderID d))) l /\ part = map (mkCandidate r d) l
  end.

(** The pool as the caches and the store agree on it. *)
Record pool_view (e : RouteEnv) (bypass : bool) (rs : Router) (pool : string -> list UpstreamAccount) : Prop := {
  pv_store : forall k p, re_list e k p = Ok (pool p);
  pv_cache : bypass = false -> forall p l t, rs_acctCache rs !! p = Some (l, t) -> l = pool p;
}.

Lemma activeAccounts_view e bypass rs pool k p rs' r :
  pool_view e bypass rs pool -> activeAccounts (re_clock e k) (re_list e k p) p bypass rs = (rs', r) ->
  r = Ok (pool p) /\ rs_cooled rs' = rs_cooled rs /\ rs_rr rs' = rs_rr rs /\ pool_view e bypass rs' pool.
Proof.
  intros [Hs Hc] H. unfold activeAccounts in H. rewrite Hs in H.
  destruct (if bypass then None else cached p (re_clock e k) rs) as [l|] eqn:E.
  - injection H as <- <-. destruct bypass; [done|]. unfold cached in E.
    destruct (rs_acctCache rs !! p) as [[l' t]|] eqn:Hl; [|done]. destruct (_ <? _); [|done]. injection E as ->.
    split_and!; [by rewrite (Hc eq_refl _ _ _ Hl)|done..].
  - injection H as <- <-. split_and!; [done..|]. split; [done|]. intros Hb q l t. simpl.
    intros [[<- [= <- <-]]|[_ Hq]]%lookup_insert_Some; [done|by eapply Hc].
Qed.

Lemma candidates_loop_spec e bypass pool routes : forall k rs rs' out consulted r,
  cursors_ok rs -> pool_view e bypass rs pool ->
  candidates_loop adapters e snap needs bypass routes k rs out consulted = (rs', r) ->
  exists parts consulted', r = Ok (out ++ concat parts, consulted') /\
    Forall2 (part_of rs (re_now e) pool) routes parts /\ rs_cooled rs' = rs_cooled rs /\ cursors_ok rs'.
Proof.
  induction routes as [|rt routes IH]; intros k rs rs' out consulted r Hc Hv H; simpl in H.
  { injection H as <- <-. exists [], consulted. rewrite app_nil_r. by repeat split. }
  destruct (usable adapters snap needs rt) as [d|] eqn:Hu.
  - destruct (activeAccounts _ _ _ _ _) as [rs1 a] eqn:Ha.
    destruct (activeAccounts_view _ _ _ _ _ _ _ _ Hv Ha) as (-> & Hcool1 & Hrr1 & Hv1).
    assert (Hc1 : cursors_ok rs1) by (unfold cursors_ok, cursor; by rewrite Hrr1).
    destruct (orderAccountsWithQuota _ _ _ _) as [rs2 l] eqn:Ho.
    destruct (orderAccountsWithQuota_spec _ _ _ _ _ _ Hc1 Ho) as (Hl & Hcool2 & Hcache2 & Hc2).
    assert (Hv2 : pool_view e bypass rs2 pool) by (destruct Hv1 as [? Hca]; split; [done|]; by rewrite Hcache2).
    destruct (IH _ _ _ _ _ _ Hc2 Hv2 H) as (parts & c' & -> & Hparts & Hcool & Hcs).
    exists (map (mkCandidate rt d) l :: parts), c'. split_and!; [by simpl; rewrite app_assoc| |by rewrite Hcool, Hcool2|done].
    constructor.
    + unfold part_of. rewrite Hu. exists l. split; [|done].
      by rewrite <- (filter_ext_in_eq _ _ _ (schedulable_cooled _ _ _ Hcool1)).
    + eapply Forall2_impl; [exact Hparts|]. intros r0 part. unfold part_of.
      destruct (usable adapters snap needs r0) as [d0|]; [|done]. intros (l0 & Hl0 & ->). exists l0. split; [|done].
      rewrite <- (filter_ext_in_eq _ _ _ (schedulable_cooled _ _ _ Hcool1)).
      by rewrite <- (filter_ext_in_eq _ _ _ (schedulable_cooled _ _ _ Hcool2)).
  - destruct (IH _ _ _ _ _ _ Hc Hv H) as (parts & c' & -> & Hparts & Hcool & Hcs).
    exists ([] :: parts), c'. split_and!; [done| |done..]. constructor; [|done]. unfold part_of. by rewrite Hu.
Qed.

End Selection.

(** ** The properties *)

(** The routes a call may take, and the deployment each is served by: an
    enabled route that names no capability or all the needed ones, to an active
    deployment whose protocol has an adapter with the needed ones. *)
Record serves (adapters : Protocol -> option AdapterCapabilities) (snap : Snapshot) (needs : Needs) (r : ModelRoute) (d : Deployment) : Prop := {
  sv_enabled : rt_Enabled r = true;
  sv_covers : rt_Capabilities r = [] \/
    (n_Tools needs = true -> "tools" ∈ rt_Capabilities r) /\ (n_Reasoning needs = true -> "reasoning" ∈ rt_Capabilities r);
  sv_deployment : sn_Deployments snap !! rt_DeploymentID r = Some d;
  sv_active : d_Status d = DeploymentActive;
  sv_adapter : exists caps, adapters (d_Protocol d) = Some caps /\
    (n_Tools needs = true -> cap_Tools caps = true) /\ (n_Reasoning needs = true -> cap_Reasoning caps = true);
}.

(** The accounts a call may use: with concurrency, with quota as far as known
    or past its reset, and past their cool-down. *)
Record may_use (rs : Router) (now : instant) (a : UpstreamAccount) : Prop := {
  mu_concurrency : 0 < a_ConcurrencyLimit a;
  mu_quota : forall r, q_RemainingMicros (a_Quota a) = Some r -> r <= 0 -> exists t, q_ResetAt (a_Quota a) = Some t /\ t <= now;
  mu_cooled : forall t, rs_cooled rs !! a_ID a = Some t -> t <= now;
}.

Lemma routeCovers_spec r needs : routeCovers r needs = true <->
  rt_Capabilities r = [] \/
  (n_Tools needs = true -> "tools" ∈ rt_Capabilities r) /\ (n_Reasoning needs = true -> "reasoning" ∈ rt_Capabilities r).
Proof.
  unfold routeCovers. destruct (rt_Capabilities r) as [|c caps]; [split; auto|].
  assert (forall x l, existsb (String.eqb x) l = true <-> x ∈ l) as Hex.
  { intros x l. rewrite existsb_exists, list_elem_of_In. split; [by intros (y & Hy & ->%String.eqb_eq)|].
    intros Hx. exists x. by rewrite String.eqb_refl. }
  rewrite andb_true_iff, !orb_true_iff, !negb_true_iff, !Hex. destruct (n_Tools needs), (n_Reasoning needs); naive_solver.
Qed.

Lemma usable_serves adapters snap needs r d : usable adapters snap needs r = Some d <-> serves adapters snap needs r d.
Proof.
  unfold usable. split.
  - destruct (rt_Enabled r) eqn:He; [|done]. destruct (routeCovers r needs) eqn:Hc; [|done]. simpl.
    destruct (sn_Deployments snap !! _) as [d0|] eqn:Hd; [|done]. case_bool_decide as Ha; [|done]. simpl.
    destruct (adapters (d_Protocol d0)) as [caps|] eqn:Hcap; [|done].
    destruct (n_Tools needs && _ || _) eqn:Hn; [done|]. intros [= <-]. apply routeCovers_spec in Hc. split; try done.
    exists caps. split; [done|]. destruct (n_Tools needs), (n_Reasoning needs), (cap_Tools caps), (cap_Reasoning caps); by split.
  - intros [He Hc%routeCovers_spec Hd Ha (caps & Hcap & Ht & Hr)]. rewrite He, Hc, Hd, bool_decide_true, Hcap by done. simpl.
    destruct (n_Tools needs), (n_Reasoning needs), (cap_Tools caps), (cap_Reasoning caps); naive_solver.
Qed.

Lemma schedulable_spec rs now a : schedulable rs now a = true <-> may_use rs now a.
Proof.
  unfold schedulable, quotaExhausted, cooling. rewrite !andb_true_iff, !negb_true_iff, Z.leb_gt. split.
  - intros [[Hc Hq] Hk]. split; [done| |].
    + intros r Hr Hle. rewrite Hr in Hq. rewrite (proj2 (Z.ltb_ge 0 r)) in Hq by done.
      destruct (q_ResetAt (a_Quota a)) as [t|]; [|done]. exists t. apply Z.ltb_ge in Hq. auto.
    + intros t Ht. rewrite Ht in Hk. by apply Z.ltb_ge in Hk.
  - intros [Hc Hq Hk]. split_and!; [done| |].
    + destruct (q_RemainingMicros (a_Quota a)) as [r|]; [|done]. destruct (Z.ltb_spec 0 r) as [|Hr]; [done|].
      destruct (Hq r eq_refl Hr) as (t & -> & ?). by apply Z.ltb_ge.
    + destruct (rs_cooled rs !! a_ID a) as [t|]; [|done]. by apply Z.ltb_ge, Hk.
Qed.

#[export] Instance may_use_dec rs now a : Decision (may_use rs now a).
Proof. refine (cast_if (decide (schedulable rs now a = true))); by rewrite <- schedulable_spec. Defined.

Lemma filter_may_use rs now l : List.filter (schedulable rs now) l = filter (may_use rs now) l.
Proof.
  induction l as [|a l IH]; [done|]. rewrite filter_cons. simpl. rewrite IH.
  destruct (schedulable rs now a) eqn:E; case_decide as Hm; try done; [|].
  - by apply schedulable_spec in E.
  - apply schedulable_spec in Hm. congruence.
Qed.

(** C15: CANDIDATES. When the cache and the store agree on the account pools, a
    selection is the failover order of the snapshot: for each route of the model
    in turn the accounts of its provider that may be used (with concurrency,
    with quota as far as known, not cooling), in the order of the pool from some
    account on and round again; and nothing for a route that is disabled, does
    not cover the call's needs, or whose deployment is missing, inactive,
    without an adapter or served by one that lacks the capability. So a
    candidate is listed exactly when its route, deployment and account are such. *)
Theorem candidates_exact (adapters : Protocol -> option AdapterCapabilities) (e : RouteEnv) (snap : Snapshot)
    (modelID : string) (needs : Needs) (bypass : bool) (rs rs' : Router) (pool : string -> list UpstreamAccount)
    (r : res (list Candidate * gset string)) :
  cursors_ok rs -> pool_view e bypass rs pool ->
  candidates adapters e snap modelID needs bypass rs = (rs', r) ->
  exists parts consulted, r = Ok (concat parts, consulted) /\
    Forall2 (fun rt part =>
        (exists d l, serves adapters snap needs rt d /\
           rotation_of (filter (may_use rs (re_now e)) (pool (d_ProviderID d))) l /\ part = map (mkCandidate rt d) l)
        \/ (forall d, ~ serves adapters snap needs rt d) /\ part = [])
      (default [] (sn_RoutesByModel snap !! modelID)) parts /\
    (forall c, c ∈ concat parts <->
       cand_Route c ∈ default [] (sn_RoutesByModel snap !! modelID) /\
       serves adapters snap needs (cand_Route c) (cand_Deployment c) /\
       cand_Account c ∈ pool (d_ProviderID (cand_Deployment c)) /\
       may_use rs (re_now e) (cand_Account c)).
Proof.
  intros Hc Hv H. destruct (candidates_loop_spec _ _ _ _ _ _ _ _ _ _ _ _ _ Hc Hv H) as (parts & c' & -> & Hp & _).
  exists parts, c'. split; [done|]. clear H. split.
  { eapply Forall2_impl; [exact Hp|]. intros rt part. unfold part_of. destruct (usable adapters snap needs rt) as [d|] eqn:Hu.
    - intros (l & Hl & ->). left. exists d, l.
      split_and!; [by apply usable_serves| |done]. by rewrite <- filter_may_use.
    - intros ->. right. split; [|done]. intros d Hd%usable_serves. congruence. }
  intros c. rewrite <- usable_serves, <- schedulable_spec.
  induction Hp as [|rt part routes parts Hpart _ IH]; simpl; [set_solver|].
  rewrite elem_of_app, IH, elem_of_cons. unfold part_of in Hpart.
  destruct (usable adapters snap needs rt) as [d|] eqn:Hu.
  - destruct Hpart as (l & Hl%rotation_perm & ->). split.
    + intros [(a & -> & Ha)%list_elem_of_fmap|H]; [|naive_solver]. simpl. split_and!; [by left|done|..];
        rewrite Hl in Ha; apply list_elem_of_In, filter_In in Ha as [Ha ?]; [by apply list_elem_of_In|done].
    + intros ([Hcr|Hin] & Hus & Ha & Hs); [left|right; done]. destruct c as [cr cd ca]. simpl in *. subst cr.
      rewrite Hu in Hus. injection Hus as ->. apply list_elem_of_fmap. exists ca. split; [done|].
      rewrite Hl. apply list_elem_of_In, filter_In. split; [by apply list_elem_of_In|done].
  - subst part. split; [intros [?|?]; [set_solver|naive_solver]|]. intros ([->|Hin] & Hus & Hr); [congruence|right; done].
Qed.

Lemma fresh_accounts now answer p rs rs' l : activeAccounts now answer p true rs = (rs', Ok l) -> answer = Ok l.
Proof. unfold activeAccounts. by destruct answer; intros [= _ ?]; subst. Qed.

Lemma activeAccounts_kept now answer p fresh rs rs' r : activeAccounts now answer p fresh rs = (rs', r) ->
  rs_cooled rs' = rs_cooled rs /\ rs_rr rs' = rs_rr rs.
Proof. unfold activeAccounts. intros H. repeat case_match; by simplify_eq. Qed.

(** A fresh pass that adds nothing has seen only unschedulable accounts. *)
Lemma empty_pass adapters e snap needs routes : forall k rs rs' out consulted consulted',
  cursors_ok rs ->
  candidates_loop adapters e snap needs true routes k rs out consulted = (rs', Ok ([], consulted')) ->
  out = [] /\ forall rt d, rt ∈ routes -> usable adapters snap needs rt = Some d ->
    exists n l, re_list e n (d_ProviderID d) = Ok l /\ forall a, a ∈ l -> schedulable rs (re_now e) a = false.
Proof.
  induction routes as [|rt routes IH]; intros k rs rs' out consulted consulted' Hc H; simpl in H.
  { injection H as _ -> _. set_solver. }
  destruct (usable adapters snap needs rt) as [d|] eqn:Hu.
  - destruct (activeAccounts _ _ _ _ _) as [rs1 [l|err]] eqn:Ha; [|done].
    destruct (activeAccounts_kept _ _ _ _ _ _ _ Ha) as [Hcool1 Hrr1].
    assert (Hc1 : cursors_ok rs1) by (unfold cursors_ok, cursor; by rewrite Hrr1).
    destruct (orderAccountsWithQuota _ _ _ _) as [rs2 ord] eqn:Ho.
    destruct (orderAccountsWithQuota_spec _ _ _ _ _ _ Hc1 Ho) as (Hl%rotation_perm & Hcool2 & _ & Hc2).
    destruct (IH _ _ _ _ _ _ Hc2 H) as [Hout Hall]. apply app_nil in Hout as [-> Hord]. split; [done|].
    intros rt' d' [->|Hin]%elem_of_cons Hu'.
    + rewrite Hu in Hu'. injection Hu' as <-. exists k, l. split; [by eapply fresh_accounts|]. intros a Hin.
      destruct (schedulable rs (re_now e) a) eqn:Hs; [|done].
      assert (a ∈ ord) as Hbad.
      { rewrite Hl. apply list_elem_of_In, filter_In. split; [by apply list_elem_of_In|].
        by rewrite (schedulable_cooled _ _ _ Hcool1). }
      destruct ord; [set_solver|done].
    + destruct (Hall rt' d' Hin Hu') as (n & l' & Hn & Hsch). exists n, l'. split; [done|]. intros a Hal.
      rewrite <- (Hsch a Hal). symmetry. apply schedulable_cooled. by rewrite Hcool2.
  - destruct (IH _ _ _ _ _ _ Hc H) as [-> Hall]. split; [done|].
    intros rt' d' [->|Hin]%elem_of_cons Hu'; [congruence|by apply (Hall rt' d')].
Qed.

Lemma invalidate_kept rs l : rs_cooled (foldr InvalidateAccounts rs l) = rs_cooled rs /\
  rs_rr (foldr InvalidateAccounts rs l) = rs_rr rs.
Proof. by induction l as [|p l [IH1 IH2]]. Qed.

(** Every provider a pass looked up is in the answer. *)
Lemma loop_consulted adapters e snap needs bypass routes : forall k rs rs' out consulted out' consulted',
  candidates_loop adapters e snap needs bypass routes k rs out consulted = (rs', Ok (out', consulted')) ->
  consulted ⊆ consulted' /\
  (forall rt d, rt ∈ routes -> usable adapters snap needs rt = Some d -> d_ProviderID d ∈ consulted').
Proof.
  induction routes as [|rt routes IH]; intros k rs rs' out consulted out' consulted' H; simpl in H.
  { injection H as _ _ ->. set_solver. }
  destruct (usable adapters snap needs rt) as [d|] eqn:Hu.
  - destruct (activeAccounts _ _ _ _ _) as [rs1 [l|err]]; [|done].
    destruct (orderAccountsWithQuota _ _ _ _) as [rs2 ord]. destruct (IH _ _ _ _ _ _ _ H) as [Hsub Hall].
    split; [set_solver|]. intros rt' d' [->|Hin]%elem_of_cons Hu'; [|by apply (Hall rt' d')].
    rewrite Hu in Hu'. injection Hu' as <-. set_solver.
  - destruct (IH _ _ _ _ _ _ _ H) as [Hsub Hall]. split; [done|].
    intros rt' d' [->|Hin]%elem_of_cons Hu'; [congruence|by apply (Hall rt' d')].
Qed.

Lemma loop_cursors adapters e snap needs bypass routes : forall k rs rs' out consulted r,
  cursors_ok rs -> candidates_loop adapters e snap needs bypass routes k rs out consulted = (rs', r) ->
  cursors_ok rs' /\ rs_cooled rs' = rs_cooled rs.
Proof.
  induction routes as [|rt routes IH]; intros k rs rs' out consulted r Hc H; simpl in H; [by injection H as <- _|].
  destruct (usable adapters snap needs rt) as [d|]; [|by eapply IH].
  destruct (activeAccounts _ _ _ _ _) as [rs1 a] eqn:Ha.
  destruct (activeAccounts_kept _ _ _ _ _ _ _ Ha) as [Hcool1 Hrr1].
  assert (Hc1 : cursors_ok rs1) by (unfold cursors_ok, cursor; by rewrite Hrr1).
  destruct a as [l|err]; [|injection H as <- _; done].
  destruct (orderAccountsWithQuota _ _ _ _) as [rs2 ord] eqn:Ho.
  destruct (orderAccountsWithQuota_spec _ _ _ _ _ _ Hc1 Ho) as (_ & Hcool2 & _ & Hc2).
  destruct (IH _ _ _ _ _ _ Hc2 H) as [? Hcool]. split; [done|]. congruence.
Qed.

(** EXHAUSTION RECHECKED. Routing never declares a model out of capacity on
    a cached account list: when a selection comes back empty, then for every
    route that could serve the call the store itself was asked again, past
    the cache, and not one account it listed was schedulable. *)
Theorem exhaustion_rechecked (adapters : Protocol -> option AdapterCapabilities) (e recheck : RouteEnv)
    (snap : Snapshot) (modelID : string) (needs : Needs) (rs rs' : Router) (rt : ModelRoute) (d : Deployment) :
  cursors_ok rs -> Candidates adapters e recheck snap modelID needs rs = (rs', Ok []) ->
  rt ∈ default [] (sn_RoutesByModel snap !! modelID) -> usable adapters snap needs rt = Some d ->
  exists n l, re_list recheck n (d_ProviderID d) = Ok l /\
    forall a, a ∈ l -> schedulable rs (re_now recheck) a = false.
Proof.
  intros Hc H Hrt Hu. unfold Candidates in H.
  destruct (candidates adapters e snap modelID needs false rs) as [rs1 [[out consulted]|err]] eqn:E1; [|done].
  unfold candidates in E1. destruct (loop_cursors _ _ _ _ _ _ _ _ _ _ _ _ Hc E1) as [Hc1 Hcool1].
  destruct (loop_consulted _ _ _ _ _ _ _ _ _ _ _ _ _ E1) as [_ Hin].
  destruct out as [|c out]; [|done]. rewrite bool_decide_eq_false_2 in H by (specialize (Hin rt d Hrt Hu); set_solver).
  set (rs2 := foldr InvalidateAccounts rs1 _) in H. destruct (invalidate_kept rs1 (elements consulted)) as [Hcool2 Hrr2].
  destruct (candidates adapters recheck snap modelID needs true rs2) as [rs3 r] eqn:E2.
  injection H as _ Hr. apply rbind_Ok in Hr as ([out2 cons2] & -> & [= ->]).
  assert (Hc2 : cursors_ok rs2) by (unfold cursors_ok, cursor, rs2; by rewrite Hrr2).
  destruct (empty_pass _ _ _ _ _ _ _ _ _ _ _ Hc2 E2) as [_ Hall].
  destruct (Hall rt d Hrt Hu) as (n & l & Hn & Hs). exists n, l. split; [done|]. intros a Ha.
  rewrite <- (Hs a Ha). symmetry. apply schedulable_cooled. by rewrite <- Hcool1, <- Hcool2.
Qed.

(** The first choice of each of [m] selections in a row. *)
Fixpoint turns (p : string) (accounts : list UpstreamAccount) (now : instant) (m : nat) (rs : Router)
  : list UpstreamAccount :=
  match m with
  | O => []
  | S m => let '(rs, l) := orderAccounts p accounts now rs in take 1 l ++ turns p accounts now m rs
  end.

Lemma take_rotate {A} start (l : list A) : (start < length l)%nat -> take 1 (rotate start l) = take 1 (drop start l).
Proof.
  intros Hs. rewrite rotate_drop_take by done. rewrite take_app_le; [done|]. rewrite length_drop. lia.
Qed.

Lemma mod_step c n : 0 <= c -> (1 < n)%nat ->
  Z.to_nat (Z.rem (Z.rem c (Z.of_nat n) + 1) (Z.of_nat n)) = ((Z.to_nat (Z.rem c (Z.of_nat n)) + 1) mod n)%nat.
Proof.
  intros Hc Hn. pose proof (Z.rem_bound_pos c (Z.of_nat n)) as Hb. set (r := Z.rem c (Z.of_nat n)) in *.
  rewrite Z.rem_mod_nonneg by lia. rewrite Z2Nat.inj_mod by lia. rewrite Nat2Z.id. f_equal. lia.
Qed.

Lemma turns_window p l now n : (1 < n)%nat -> length l = n ->
  forall m rs, 0 <= cursor p rs -> List.filter (fun a => negb (cooling rs now (a_ID a))) l = l ->
  turns p l now m rs = omap (fun i => l !! ((Z.to_nat (Z.rem (cursor p rs) (Z.of_nat n)) + i) mod n)%nat) (seq 0 m).
Proof.
  intros Hn Hl. induction m as [|m IH]; intros rs Hc Hlive; [done|]. cbn [turns].
  unfold orderAccounts. rewrite Hlive, Hl. rewrite (proj2 (Nat.leb_gt _ _)) by lia.
  set (st := Z.to_nat (Z.rem (cursor p rs) (Z.of_nat n))).
  assert (Hst : (st < n)%nat) by (apply start_bound; lia).
  rewrite take_rotate by lia. destruct (lookup_lt_is_Some_2 l st) as [x Hx]; [lia|].
  rewrite (drop_S _ _ _ Hx). cbn [seq omap list_omap take app]. rewrite Nat.add_0_r, Nat.mod_small, Hx by lia. f_equal.
  rewrite IH.
  - rewrite <- seq_shift. clear IH. unfold cursor, set_rs_rr. simpl. rewrite lookup_insert_eq. simpl.
    fold (cursor p rs). rewrite mod_step by lia. fold st.
    assert (forall (f g : nat -> option UpstreamAccount) k, (forall i, f i = g (S i)) -> omap f k = omap g (map S k)) as Hsh.
    { intros f g k Hfg. induction k as [|i k IHk]; [done|]. cbn [map omap list_omap]. rewrite Hfg. by destruct (g (S i)); rewrite IHk. }
    apply Hsh. intros i. f_equal. rewrite Nat.Div0.add_mod_idemp_l. f_equal. lia.
  - unfold cursor, set_rs_rr. simpl. rewrite lookup_insert_eq. simpl. fold (cursor p rs).
    pose proof (Z.rem_bound_pos (cursor p rs) (Z.of_nat n)). lia.
  - exact Hlive.
Qed.

(** ROUND ROBIN. As many selections in a row as a provider has live
    accounts start with each of them exactly once: no account is skipped and
    none gets two turns in a round, wherever the cursor stood. *)
Theorem round_robin_fair (p : string) (accounts : list UpstreamAccount) (now : instant) (rs : Router) :
  0 <= cursor p rs ->
  let live := List.filter (fun a => negb (cooling rs now (a_ID a))) accounts in
  turns p accounts now (length live) rs ≡ₚ live.
Proof.
  intros Hc live.
  assert (Hsame : forall m rs1, rs_cooled rs1 = rs_cooled rs -> turns p accounts now m rs1 = turns p live now m rs1).
  { assert (Hf : forall rs1, rs_cooled rs1 = rs_cooled rs ->
              List.filter (fun a => negb (cooling rs1 now (a_ID a))) accounts = live /\
              List.filter (fun a => negb (cooling rs1 now (a_ID a))) live = live).
    { intros rs1 H1. split; [|unfold live; rewrite filter_filter]; apply filter_ext_in_eq; intros a; unfold cooling;
        rewrite H1; [done|by destruct (negb _)]. }
    induction m as [|m IH]; intros rs1 H1; [done|]. cbn [turns]. destruct (Hf rs1 H1) as [Hf1 Hf2].
    assert (Hoa : orderAccounts p accounts now rs1 = orderAccounts p live now rs1)
      by (unfold orderAccounts; by rewrite Hf1, Hf2).
    rewrite Hoa. destruct (orderAccounts p live now rs1) as [rs2 l] eqn:Ho. f_equal. apply IH. rewrite <- H1.
    unfold orderAccounts in Ho. destruct (_ <=? 1)%nat; by injection Ho as <- _. }
  rewrite Hsame by done.
  assert (Hlive : List.filter (fun a => negb (cooling rs now (a_ID a))) live = live).
  { unfold live. rewrite filter_filter. apply filter_ext_in_eq. intros a. by destruct (negb _). }
  destruct (Nat.le_gt_cases (length live) 1) as [Hn|Hn].
  - destruct live as [|x [|y l]]; cbn [length turns] in *; [done| |lia]. unfold orderAccounts. by rewrite Hlive.
  - rewrite (turns_window p live now (length live)) by done. apply rotate_perm, start_bound; [done|lia].
Qed.

Definition demo_account (id : string) (limit : Z) : UpstreamAccount :=
  mkAccount id "p1" id AccountActive limit (mkQuota None None None None None) 0.
Definition demo_pool : list UpstreamAccount := [demo_account "a" 1; demo_account "b" 2; demo_account "c" 0].

Lemma round_robin_fair_witness :
  map a_ID (turns "p1" demo_pool 0 3 new_router) = ["a"; "b"; "c"] /\ turns "p1" demo_pool 0 3 new_router ≡ₚ demo_pool.
Proof.
  split; [by vm_compute|]. refine (round_robin_fair "p1" demo_pool 0 new_router _). by vm_compute.
Defined.

(** HEALTH VIEW. The health view calls an active account of a pool
    schedulable exactly when a selection at that moment would offer it. *)
Theorem health_agrees (p : string) (accounts : list UpstreamAccount) (a : UpstreamAccount) (now : instant)
    (rs : Router) :
  cursors_ok rs -> a ∈ accounts -> a_Status a = AccountActive ->
  h_Schedulable (HealthOf a now rs) = true <-> a ∈ (orderAccountsWithQuota p accounts now rs).2.
Proof.
  intros Hc Ha Hs. destruct (orderAccountsWithQuota p accounts now rs) as [rs' out] eqn:E. simpl.
  destruct (orderAccountsWithQuota_spec _ _ _ _ _ _ Hc E) as (Hout%rotation_perm & _). rewrite Hout.
  rewrite list_elem_of_In, filter_In, <- list_elem_of_In. unfold schedulable.
  rewrite bool_decide_eq_true_2 by done. simpl. rewrite Z.leb_antisym, negb_involutive.
  assert (bool_decide ((if cooling rs now (a_ID a) then rs_cooled rs !! a_ID a else None) = None)
          = negb (cooling rs now (a_ID a))) as ->.
  { destruct (cooling rs now (a_ID a)) eqn:Hco; [|done]. unfold cooling in Hco.
    by destruct (rs_cooled rs !! a_ID a). }
  destruct (0 <? a_ConcurrencyLimit a), (quotaExhausted a now), (cooling rs now (a_ID a)); simpl;
    split; intros; destruct_and?; done || (by split).
Qed.

(** An attempt holds a lease on an upstream account only if
    the account is active in the very transaction that takes the lease and,
    with the new lease, its live leases stay within its concurrency limit; a
    parked account (limit zero or below) is never leased. *)
Theorem upstream_lease (o : LeaseOwner) (newID newOwner : string) (clock : instant) (pool : PoolDB)
    (account : UpstreamAccount) (requestID : string) (now : instant) (db db' : DB) (l : ConcurrencyLease) :
  AcquireUpstreamLease o newID newOwner clock pool account requestID now db = Ok (l, db') ->
  (exists a, pd_accounts pool !! a_ID account = Some a /\ a_Status a = AccountActive) /\
  0 < a_ConcurrencyLimit account /\ l_RequestID l = requestID /\ leases db' !! newID = Some l /\
  Z.of_nat (length (held_in LeaseScopeUpstreamAccount (a_ID account) (leases db'))) <= a_ConcurrencyLimit account.
Proof.
  intros H. unfold AcquireUpstreamLease in H. destruct (Z.leb_spec (a_ConcurrencyLimit account) 0) as [|Hl]; [done|].
  unfold GetUpstreamAccountStatusForUpdateTx, GetUpstreamAccount, select_one in H.
  destruct (pd_accounts pool !! a_ID account) as [a|] eqn:Ha; cbn [rbind] in H; [|discriminate H].
  case_bool_decide as Hs; [|done]. simpl in H.
  destruct (AcquireLeaseTx _ _ _ _ _) as [[l' db1]|e] eqn:E; [|done]. injection H as -> ->.
  apply AcquireLeaseTx_Ok in E as (Hheld & Hnone & Hid & Hsc & Hst & _ & _ & _ & _ & _ & Hreq & ->).
  split_and!; [eauto|done|done|apply lookup_insert_eq|]. simpl in *. unfold held_in in *.
  rewrite rows_insert_length; [lia| |].
  - unfold reclaim. by rewrite lookup_fmap, Hnone.
  - unfold is_held. by rewrite Hsc, Hst, bool_decide_eq_true_2.
Qed.

(** ** A concrete pool *)

Definition demo_adapters (p : Protocol) : option AdapterCapabilities :=
  if bool_decide (p = ProtocolOpenAIChat) then Some (mkCaps true true true) else None.
Definition demo_route_env (pool : list UpstreamAccount) : RouteEnv := mkRouteEnv 0 (fun _ => 0) (fun _ _ => Ok pool).

Lemma new_router_cursors : cursors_ok new_router.
Proof. intros p. by vm_compute. Qed.

Definition demo_selection := candidates demo_adapters (demo_route_env demo_pool) demo_snapshot "m2" (mkNeeds true false)
  false new_router.

Lemma candidates_exact_witness : exists parts consulted,
  demo_selection.2 = Ok (concat parts, consulted) /\
  map (fun c => (rt_ID (cand_Route c), a_ID (cand_Account c))) (concat parts)
    = [("r2", "a"); ("r2", "b"); ("r1", "b"); ("r1", "a")].
Proof.
  destruct (candidates_exact demo_adapters (demo_route_env demo_pool) demo_snapshot "m2" (mkNeeds true false) false
    new_router demo_selection.1 (fun _ => demo_pool) demo_selection.2) as (parts & consulted & H & _ & _).
  - exact new_router_cursors.
  - split; [done|]. intros _ p l t H. by vm_compute in H.
  - unfold demo_selection. by destruct (candidates _ _ _ _ _ _ _).
  - exists parts, consulted. split; [done|].
    assert (match demo_selection.2 with
            | Ok (cs, _) => map (fun c => (rt_ID (cand_Route c), a_ID (cand_Account c))) cs
                              = [("r2", "a"); ("r2", "b"); ("r1", "b"); ("r1", "a")]
            | Err _ => False
            end) as Hm by by vm_compute.
    rewrite H in Hm. exact Hm.
Defined.

Lemma exhaustion_rechecked_witness : exists n l, re_list (demo_route_env [demo_account "c" 0]) n "p1" = Ok l /\
  forall a, a ∈ l -> schedulable new_router 0 a = false.
Proof.
  refine (exhaustion_rechecked demo_adapters (demo_route_env []) (demo_route_env [demo_account "c" 0]) demo_snapshot
    "m2" (mkNeeds false false) new_router
    (Candidates demo_adapters (demo_route_env []) (demo_route_env [demo_account "c" 0]) demo_snapshot
       "m2" (mkNeeds false false) new_router).1 (demo_route "r2" "m2" "d2" 0) (demo_deployment "d2") _ _ _ _).
  - exact new_router_cursors.
  - assert ((Candidates demo_adapters (demo_route_env []) (demo_route_env [demo_account "c" 0]) demo_snapshot
       "m2" (mkNeeds false false) new_router).2 = Ok []) as H by by vm_compute.
    rewrite <- H. apply surjective_pairing.
  - vm_compute. left.
  - by vm_compute.
Defined.

Lemma health_agrees_witness :
  h_Schedulable (HealthOf (demo_account "a" 1) 0 new_router) = true <->
  demo_account "a" 1 ∈ (orderAccountsWithQuota "p1" demo_pool 0 new_router).2.
Proof. apply health_agrees; [exact new_router_cursors|by left|done]. Defined.

Lemma upstream_lease_witness : exists l db',
  AcquireUpstreamLease (mkOwner "proc" (10 * minute)) "l1" "o" 5
    (mkPoolDB {[ "a" := demo_account "a" 1 ]} ∅ []) (demo_account "a" 1) "req" 5
    (set_requests {[ "req" := demo_request "req" ]} demo_db) = Ok (l, db') /\
  l_RequestID l = "req".
Proof.
  destruct (AcquireUpstreamLease (mkOwner "proc" (10 * minute)) "l1" "o" 5
    (mkPoolDB {[ "a" := demo_account "a" 1 ]} ∅ []) (demo_account "a" 1) "req" 5
    (set_requests {[ "req" := demo_request "req" ]} demo_db)) as [[l db']|e] eqn:E; [|by vm_compute in E].
  exists l, db'. split; [done|]. apply upstream_lease in E as (_ & _ & ? & _). done.
Defined.
