(* ===== verification/Dispatch.v ===== *)
(** * Dispatch: one upstream call

    [internal/inference/providers/adapter.go]: the request a call sends, the
    classification of what comes back into retryable, rejected and possibly
    executed, and the redirect policy of the shared HTTP client. Adapters are
    the interface of that file, as a record; the transport, [net/url] and the
    egress policy are parameters. *)

From Stdlib Require Import ZArith Lia Bool Ascii String.
From stdpp Require Import base gmap strings list.
From S2P Require Import Prelude Domain Money Calendar WalletRules Principal Pricing Headers Catalog Routing.

Local Open Scope Z_scope.
Local Open Scope go_scope.

(** ** Calls *)

(** [model.ChatMessage] as far as the gateway looks: the types of the content
    parts, and name and arguments of the tool calls. *)
Record ChatMessage := mkMessage {
  cm_Role : string;
  cm_Content : string;
  cm_ContentParts : list string;
  cm_ToolCalls : list (string * string);
  cm_ReasoningContent : string;
}.

Record ChatRequest := mkChat {
  cr_Model : string;
  cr_Messages : list ChatMessage;
  cr_Stream : bool;
  cr_MaxTokens : option Z;
  cr_Tools : list string;
  cr_ToolChoice : string;
  cr_ThinkingEnabled : option bool;
  cr_ThinkingBudget : option Z;
}.

Record Call := mkCall {
  call_Deployment : Deployment;
  call_Secret : string;
  call_RequestID : string;
  call_Request : ChatRequest;
  call_OutputCap : Z;
  call_ExtraHeaders : list (string * string);
}.

Definition HasImages (m : ChatMessage) : bool := existsb (String.eqb "image_url") (cm_ContentParts m).
Definition MessagesHaveImages (l : list ChatMessage) : bool := existsb HasImages l.

(** ** Errors *)

(** An error as the tests of the program see it: its module error, whether the
    first [*url.Error] of its chain is a timeout, and whether it wraps
    [context.Canceled], a [*net.DNSError] or [ECONNREFUSED]. *)
Record Cause := mkCause {
  ca_Error : error;
  ca_URLTimeout : bool;
  ca_Canceled : bool;
  ca_DNS : bool;
  ca_Refused : bool;
}.

Definition plain_cause (e : error) : Cause := mkCause e false false false false.

Record DispatchError := mkDispatchError {
  de_StatusCode : Z;
  de_Body : string;
  de_Err : option Cause;
  de_ExecutedUnknown : bool;
  de_NoCooldown : bool;
}.

Definition transport_error (c : Cause) (unknown noCooldown : bool) : DispatchError :=
  mkDispatchError 0 "" (Some c) unknown noCooldown.

Definition IsCanceled (c : Cause) : bool := if ca_URLTimeout c then false else ca_Canceled c.

(** Whether the upstream may have executed. *)
Definition classifyTransport (c : Cause) : bool := if ca_DNS c then false else negb (ca_Refused c).

Definition Retryable (e : DispatchError) : bool :=
  if negb (de_StatusCode e =? 0) then (de_StatusCode e =? 429) || (500 <=? de_StatusCode e)
  else match de_Err e with None => false | Some c => negb (IsCanceled c) end.

(** ** Adapters *)

Record NonStreamResult := mkNonStream {
  ns_Payload : string;
  ns_Usage : UsageBuckets;
  ns_UsageRaw : string;
  ns_UsageReported : bool;
  ns_UpstreamRequestID : string;
  ns_ContentBytes : Z;
}.

(** [WrapStream] is named by what it wraps: the stream is read later. *)
Record Adapter := mkAdapter {
  ad_Capabilities : AdapterCapabilities;
  ad_Inclusion : Inclusion;
  ad_BuildPayload : Call -> res string;
  ad_AuthHeaders : string -> list (string * string);
  ad_DecodeNonStream : string -> result Cause NonStreamResult;
}.

(** ** HTTP *)

Definition upstreamErrorBodyCap : Z := 8 * 2 ^ 10.
Definition nonStreamBodyCap : Z := 8 * 2 ^ 20.

Record HTTPRequest := mkHTTPRequest {
  hr_URL : string;
  hr_Header : gmap string string;
  hr_Payload : string;
}.

(** The bytes a body yields, and the error that ends them, if any. *)
Record Body := mkBody { bd_Bytes : string; bd_Err : option Cause }.

(** What [client.Do] returns; [header] is [Header.Get]. *)
Inductive HTTPOutcome :=
| DoFailed (c : Cause)
| DoResponse (status : Z) (header : string -> string) (body : Body).

(** [io.ReadAll(io.LimitReader(body, cap))]. *)
Definition read_limited (cap : Z) (b : Body) : string * option Cause :=
  if cap <=? Z.of_nat (String.length (bd_Bytes b))
  then (String.substring 0 (Z.to_nat cap) (bd_Bytes b), None)
  else (bd_Bytes b, bd_Err b).

(** [strings.TrimSuffix(s, "/")]. *)
Fixpoint trim_slash (s : string) : string :=
  match s with
  | EmptyString => EmptyString
  | String.String c EmptyString => if Ascii.eqb c "/"%char then EmptyString else s
  | String.String c s => String.String c (trim_slash s)
  end.

Definition EndpointURL (d : Deployment) : string :=
  trim_slash (d_BaseURL d) +:+
    match d_Protocol d with
    | ProtocolAnthropicMessage => "/v1/messages"
    | ProtocolOpenAIResponses => "/responses"
    | _ => "/chat/completions"
    end.

Definition upstreamRequestID (header : string -> string) : string :=
  if bool_decide (header "X-Request-Id" = "") then header "Request-Id" else header "X-Request-Id".

(** [dr_Stream]: the live body, for a streaming call. *)
Record DispatchResult := mkDispatched {
  dr_UpstreamRequestID : string;
  dr_Stream : option Body;
  dr_Payload : string;
  dr_Usage : UsageBuckets;
  dr_UsageRaw : string;
  dr_UsageReported : bool;
  dr_ContentBytes : Z;
}.

(** A shape error is not a [*DispatchError]: nothing was sent. *)
Inductive DispatchFailure := ShapeError (e : error) | UpstreamFailed (e : DispatchError).

Section Dispatch.
Context (parse_url : string -> option URL).

(** Everything before [client.Do]. *)
Definition prepare (a : Adapter) (call : Call) : res HTTPRequest :=
  let? payload := ad_BuildPayload a call in
  let url := EndpointURL (call_Deployment call) in
  match parse_url url with
  | None => Err (WrapError CodeInternal EForeign)
  | Some _ =>
      let? header := request_headers (call_RequestID call) (ad_AuthHeaders a (call_Secret call))
                       (call_ExtraHeaders call) in
      Ok (mkHTTPRequest url header payload)
  end.

(** Everything after it. *)
Definition receive (a : Adapter) (call : Call) (o : HTTPOutcome) : result DispatchError DispatchResult :=
  match o with
  | DoFailed c => Err (if IsCanceled c then transport_error c false false
                       else transport_error c (classifyTransport c) false)
  | DoResponse status header body =>
      if negb (status =? 200)
      then Err (mkDispatchError status (read_limited upstreamErrorBodyCap body).1 None false false)
      else
        let id := upstreamRequestID header in
        if cr_Stream (call_Request call)
        then Ok (mkDispatched id (Some body) "" (mkBuckets None None None None None) "" false 0)
        else match read_limited (nonStreamBodyCap + 1) body with
             | (_, Some c) => Err (transport_error c true false)
             | (bytes, None) =>
                 if nonStreamBodyCap <? Z.of_nat (String.length bytes)
                 then Err (transport_error (plain_cause EForeign) true false)
                 else match ad_DecodeNonStream a bytes with
                      | Err c => Err (transport_error c true false)
                      | Ok ns => Ok (mkDispatched (if bool_decide (id = "") then ns_UpstreamRequestID ns else id) None
                                       (ns_Payload ns) (ns_Usage ns) (ns_UsageRaw ns) (ns_UsageReported ns)
                                       (ns_ContentBytes ns))
                      end
             end
  end.

Definition Dispatch (client : HTTPRequest -> HTTPOutcome) (a : Adapter) (call : Call)
  : result DispatchFailure DispatchResult :=
  match prepare a call with
  | Err e => Err (ShapeError e)
  | Ok req => match receive a call (client req) with
              | Err e => Err (UpstreamFailed e)
              | Ok d => Ok d
              end
  end.

(** The outcomes after which the upstream may have executed the call. *)
Definition may_have_executed (o : HTTPOutcome) : bool :=
  match o with
  | DoFailed c => negb (ca_DNS c || ca_Refused c)
  | DoResponse status _ _ => status =? 200
  end.

Lemma Retryable_canceled c u n : IsCanceled c = true -> Retryable (transport_error c u n) = false.
Proof. intros Hc. unfold Retryable. simpl. by rewrite Hc. Qed.

(** A failure after a 200. *)
Lemma marked_classified h b c :
  let e := transport_error c true false in
  (de_ExecutedUnknown e = true <-> may_have_executed (DoResponse 200 h b) = true /\
     forall c', DoResponse 200 h b = DoFailed c' -> IsCanceled c' = false) /\
  (Retryable e = true -> de_ExecutedUnknown e = false -> may_have_executed (DoResponse 200 h b) = false) /\
  (forall c', de_Err e = Some c' -> IsCanceled c' = true -> Retryable e = false).
Proof.
  cbn. split_and!; [done|done|]. intros c' [= ->] Hc. exact (Retryable_canceled c' true false Hc).
Qed.

Lemma receive_classified a call o e : receive a call o = Err e ->
  (de_ExecutedUnknown e = true <-> may_have_executed o = true /\ forall c, o = DoFailed c -> IsCanceled c = false) /\
  (Retryable e = true -> de_ExecutedUnknown e = false -> may_have_executed o = false) /\
  (forall c, de_Err e = Some c -> IsCanceled c = true -> Retryable e = false).
Proof.
  unfold receive. destruct o as [c|st h b].
  - intros [= <-]. unfold may_have_executed, classifyTransport. destruct (IsCanceled c) eqn:Hc; cbn.
    + split_and!; [|by rewrite Hc|intros ? [= <-] _; exact (Retryable_canceled c false false Hc)].
      split; [done|]. intros [_ H]. specialize (H c eq_refl). congruence.
    + split_and!; [|by destruct (ca_DNS c), (ca_Refused c)|intros ? [= <-]; congruence].
      destruct (ca_DNS c), (ca_Refused c); cbn; split; try done; [by intros []..|].
      intros _. split; [done|]. by intros ? [= <-].
  - destruct (Z.eqb_spec st 200) as [->|Hs]; cbn [negb].
    + destruct (cr_Stream _); [done|]. destruct (read_limited _ b) as [bytes [c|]].
      { intros [= <-]. apply marked_classified. }
      destruct (nonStreamBodyCap <? _); [intros [= <-]; apply marked_classified|].
      destruct (ad_DecodeNonStream a bytes) as [?|c]; [done|]. intros [= <-]. apply marked_classified.
    + intros [= <-]. cbn. destruct (Z.eqb_spec st 200); [done|]. split_and!; [split; [done|by intros []]|done|done].
Qed.

(** ** The properties *)

(** A call that fails before it is sent is a shape error; a sent
    call succeeds only on a 200; and a failure is marked possibly executed
    exactly when the transport broke without proof that the server was never
    reached (DNS, refused) or a 200 could not be read, save that a call
    abandoned by its own caller is never marked. So a failure that is retryable
    and not marked proves that the upstream did not execute the call. *)
Theorem dispatch_classified (client : HTTPRequest -> HTTPOutcome) (a : Adapter) (call : Call) :
  match Dispatch client a call with
  | Ok d => exists req h b, prepare a call = Ok req /\ client req = DoResponse 200 h b
  | Err (ShapeError e) => prepare a call = Err e
  | Err (UpstreamFailed e) => exists req, prepare a call = Ok req /\
      (de_ExecutedUnknown e = true <->
         may_have_executed (client req) = true /\ forall c, client req = DoFailed c -> IsCanceled c = false) /\
      (Retryable e = true -> de_ExecutedUnknown e = false -> may_have_executed (client req) = false) /\
      (forall c, de_Err e = Some c -> IsCanceled c = true -> Retryable e = false)
  end.
Proof.
  unfold Dispatch. destruct (prepare a call) as [req|e] eqn:Hp; [|done].
  destruct (receive a call (client req)) as [d|e] eqn:Hr.
  - exists req. unfold receive in Hr. destruct (client req) as [c|st h b]; [done|].
    destruct (Z.eqb_spec st 200) as [->|]; [eauto|done].
  - exists req. split; [done|]. by eapply receive_classified.
Qed.

End Dispatch.

(** ** Redirects *)

Section Redirects.
(** [strings.EqualFold], the validation of an egress policy if there is one,
    and where a server that has received the requests [via] redirects. *)
Context (EqualFold : string -> string -> bool).
Context (ValidateRedirect : option (URL -> res unit)).
Context (location : list URL -> option URL).

Definition sameOrigin (a b : URL) : bool :=
  EqualFold (url_Scheme a) (url_Scheme b) && EqualFold (url_Host a) (url_Host b).

Inductive RedirectVerdict := Follow | UseLastResponse | RedirectFailed (e : error).

Definition CheckRedirect (next : URL) (via : list URL) : RedirectVerdict :=
  if (5 <=? length via)%nat then RedirectFailed EForeign
  else if match via with first :: _ => negb (sameOrigin next first) | [] => false end then UseLastResponse
  else match ValidateRedirect with
       | None => Follow
       | Some validate => match validate next with Ok _ => Follow | Err e => RedirectFailed e end
       end.

(** [http.Client.Do]: the requests sent, with their headers and body, [via]
    apart. The policy stops it within five. *)
Fixpoint sent (fuel : nat) (via : list URL) (u : URL) : list URL :=
  u :: match fuel with
       | O => []
       | S fuel =>
           match location (via ++ [u]) with
           | None => []
           | Some next => match CheckRedirect next (via ++ [u]) with
                          | Follow => sent fuel (via ++ [u]) next
                          | _ => []
                          end
           end
       end.

Definition maxSent : nat := 5.

Lemma CheckRedirect_Follow next via : CheckRedirect next via = Follow ->
  (length via < 5)%nat /\ (forall first l, via = first :: l -> sameOrigin next first = true) /\
  (forall validate, ValidateRedirect = Some validate -> is_ok (validate next) = true).
Proof.
  unfold CheckRedirect. destruct (Nat.leb_spec 5 (length via)) as [|Hl]; [done|]. intros H. split; [done|]. split.
  - intros first l ->. by destruct (sameOrigin next first).
  - intros validate Hv. rewrite Hv in H. destruct (match via with [] => _ | _ => _ end); [done|].
    by destruct (validate next).
Qed.

Lemma sent_ok first fuel : forall via u,
  (forall a l, via = a :: l -> a = first) -> (via = [] -> u = first) -> (length via < 5)%nat ->
  (length (sent fuel via u) <= 5 - length via)%nat /\
  Forall (fun v => sameOrigin v first = true /\ forall validate, ValidateRedirect = Some validate -> is_ok (validate v) = true)
    (tail (sent fuel via u)).
Proof.
  induction fuel as [|fuel IH]; intros via u Hfirst Hu Hl; cbn [sent tail length]; [split; [lia|constructor]|].
  destruct (location (via ++ [u])) as [next|]; [|simpl; split; [lia|constructor]].
  destruct (CheckRedirect next (via ++ [u])) eqn:Hc; [|simpl; split; [lia|constructor]..].
  apply CheckRedirect_Follow in Hc as (H5 & Ho & Hv). rewrite length_app in H5. simpl in H5.
  assert (Hhead : forall a l, via ++ [u] = a :: l -> a = first).
  { destruct via as [|b via]; intros a l [= <- _]; [by apply Hu|by eapply Hfirst]. }
  destruct (IH (via ++ [u]) next) as [Hlen Hall]; [exact Hhead|by destruct via|rewrite length_app; simpl; lia|].
  rewrite length_app in Hlen. simpl in Hlen. split; [lia|].
  assert (sent fuel (via ++ [u]) next = next :: tail (sent fuel (via ++ [u]) next)) as -> by by destruct fuel.
  constructor; [|done]. split; [|done]. destruct (via ++ [u]) as [|a l] eqn:E; [by destruct via|].
  rewrite <- (Hhead a l eq_refl). by eapply Ho.
Qed.

Lemma sent_fuel fuel : forall fuel' via u,
  (5 - length via <= fuel)%nat -> (fuel <= fuel')%nat -> sent fuel' via u = sent fuel via u.
Proof.
  induction fuel as [|fuel IH]; intros fuel' via u Hf Hle.
  - destruct fuel' as [|fuel']; [done|]. cbn [sent]. f_equal. destruct (location _); [|done].
    destruct (CheckRedirect _ _) eqn:Hc; [|done..].
    apply CheckRedirect_Follow in Hc as (H5 & _). rewrite length_app in H5. simpl in H5. lia.
  - destruct fuel' as [|fuel']; [lia|]. cbn [sent]. f_equal. destruct (location _); [|done].
    destruct (CheckRedirect _ _); [|done..]. apply IH; [rewrite length_app; simpl; lia|lia].
Qed.

(** C37: CREDENTIALS STAY HOME. Whatever a server answers, a call reaches at most
    five addresses, every one after the first of the same scheme and host as
    the first and accepted by the egress policy: no redirect carries the
    upstream credential, the operator's headers or the prompt to another
    origin. Five is all the fuel the client can use. *)
Theorem credentials_stay_home (u : URL) :
  (length (sent maxSent [] u) <= 5)%nat /\
  Forall (fun v => sameOrigin v u = true /\ forall validate, ValidateRedirect = Some validate -> is_ok (validate v) = true)
    (tail (sent maxSent [] u)) /\
  forall fuel, (maxSent <= fuel)%nat -> sent fuel [] u = sent maxSent [] u.
Proof.
  destruct (sent_ok u maxSent [] u) as [Hl Hall]; [done..|simpl; lia|]. simpl length in Hl.
  split_and!; [exact Hl|exact Hall|]. intros fuel Hf. apply sent_fuel; [simpl; unfold maxSent; lia|done].
Qed.

End Redirects.

(** A server that sends the call home and then away is followed home only. *)
Example redirect_demo :
  sent String.eqb None (fun via => match via with
                                   | [_] => Some (mkURL "https" "up" None)
                                   | _ => Some (mkURL "https" "evil" None)
                                   end) maxSent [] (mkURL "https" "up" None)
  = [mkURL "https" "up" None; mkURL "https" "up" None].
Proof. by vm_compute. Qed.
