(* ===== verification/Gateway.v ===== *)
(** * Gateway: one logical model call, end to end

    [internal/inference/gateway/service.go] and [lifecycle_gate.go]. The
    orchestration is a program over effects: each call to another component
    (catalogue cache, entitlement resolver, store transaction, routing, session
    binder, lease keeper, HTTP client, clock) is an [effect] with a typed
    answer, and [runs p tr a] says that [p] can return [a] after the exchange
    [tr], whatever the other components answer. Best-effort effects whose error
    the code only logs answer [unit]. [GatewayStore] says which transactions of the
    tables are behind the effects. *)

From Stdlib Require Import ZArith Lia Bool.
From stdpp Require Import base gmap strings list pretty.
From S2P Require Import Prelude Domain Money Calendar Policy Pricing WalletRules Principal Entitlements Tables.
From S2P Require Import RequestStore QuotaStore WalletStore LedgerStore LeaseStore Admission.
From S2P Require Import Sessions Headers Catalog Routing Dispatch.

Local Open Scope Z_scope.
Local Open Scope go_scope.

(** ** Constants *)

Definition settleTimeout : duration := 15 * second.
Definition reconciliationDeadline : duration := 24 * hour.
Definition maxAttemptsDefault : Z := 3.
Definition settleMaxAttempts : nat := 3.
Definition settleBackoff : duration := 200 * millisecond.
Definition imageInputTokenEstimate : Z := 1105.

(** ** The lifecycle gate *)

Inductive LifecycleGateMode := LifecycleGateObserve | LifecycleGateEnforce.

#[global] Instance LifecycleGateMode_eq_dec : EqDecision LifecycleGateMode.
Proof. solve_decision. Defined.

(** (observe, blocked). *)
Definition lifecycleGateDecision (lc : Lifecycle) (mode : LifecycleGateMode) : bool * bool :=
  match lc with
  | LifecycleActive => (false, false)
  | LifecycleDeprecated => (true, false)
  | LifecycleRetired | LifecycleDraft => (true, bool_decide (mode = LifecycleGateEnforce))
  | LifecycleOther s => (negb (bool_decide (s = "")), false)
  end.

(** ** Estimates *)

Definition message_bytes (m : ChatMessage) : Z :=
  Z.of_nat (String.length (cm_Content m)) + 8
  + lsum (fun tc => Z.of_nat (String.length tc.1) + Z.of_nat (String.length tc.2) + 16) (cm_ToolCalls m).

Definition image_count (m : ChatMessage) : Z :=
  Z.of_nat (length (List.filter (String.eqb "image_url") (cm_ContentParts m))).

Definition EstimateInputTokens (req : ChatRequest) : Z :=
  let b := lsum message_bytes (cr_Messages req) + lsum (fun t => Z.of_nat (String.length t)) (cr_Tools req)
           + Z.of_nat (String.length (cr_ToolChoice req)) in
  Z.quot b 2 + 16 + lsum image_count (cr_Messages req) * imageInputTokenEstimate.

Definition estimateUsage (adm : AdmissionResult) (contentBytes : Z) : UsageBuckets :=
  let out := Z.quot contentBytes 2 in
  let out := if (0 <? contentBytes) && (out =? 0) then 1 else out in
  mkBuckets (Some (ar_InputBound adm)) None None (Some out) None.

Definition emptyBuckets (b : UsageBuckets) : bool := no_buckets b.
Definition modelSpeaks (m : Model) (p : Protocol) : bool := bool_decide (p ∈ m_Protocols m).
Definition contains (l : list string) (id : string) : bool := existsb (String.eqb id) l.
Definition filterCandidatesByAccount (cands : list Candidate) (accountID : string) : list Candidate :=
  List.filter (fun c => String.eqb (a_ID (cand_Account c)) accountID) cands.

(** ** Effects *)

(** [providers.TapResult]: what the usage tap has read when the relay ends. *)
Record TapResult := mkTap {
  tap_SawUsage : bool;
  tap_Terminal : bool;
  tap_Buckets : UsageBuckets;
  tap_ContentBytes : Z;
}.

Record AttemptIntent := mkIntent {
  ai_ID : string;
  ai_RequestID : string;
  ai_AttemptNo : Z;
  ai_Candidate : Candidate;
  ai_StartedAt : instant;
}.

(** How the attempt transaction can fail: the sentinel, or another error. *)
Inductive AttemptError := AttemptInactive | AttemptFailed (c : Cause).

Inductive effect :=
(** before admission *)
| SnapshotCurrent
| ReportGate (m : Model) (blocked : bool)
| ClockNow
| ResolveEntitlement (account model : string) (at_ : instant)
| GetPolicyVersion (id : string)
| LatestPriceVersion (model : string) (kind : PriceKind) (at_ : instant)
| GetWalletByAccount (account currency : string)
| CallAdmit (cmd : AdmitCommand)
| CallAdmitWallet (cmd : AdmitWalletCommand)
(** routing and sessions *)
| RouteCandidates (snap : Snapshot) (model : string) (needs : Needs)
| EvictAccounts (provider : string)
| SessionResolve (key model : string)
| SessionBind (key model account : string)
| SessionMigrate (key model account : string)
| CoolAccount (account : string)
(** one attempt *)
| NewUUID
| PersistAttempt (a : AttemptIntent)
| CheckLeaseNow (l : ConcurrencyLease)
| ValidateURL (url : string)
| ResolveSecret (credential : string)
| SetRequestStatus (requestID : string) (s : RequestStatus)
| ClientDo (c : Candidate) (req : HTTPRequest)
| FinishAttemptRow (id status kind upstreamID : string)
| ReleaseLeaseNow (l : ConcurrencyLease)
| KeeperStart (ls : list ConcurrencyLease)
| KeeperPause
| KeeperStop (ls : list ConcurrencyLease)
| KeeperErr
| TapRead
(** finalization *)
| SettleTx (cmd : SettleCommand) (overDetail : option (gmap string string))
| Backoff
| MarkTx (requestID reason : string)
| ReleaseTx (requestID : string)
| SettleAlarm (requestID : string).

Definition answer (e : effect) : Type :=
  match e with
  | SnapshotCurrent => res Snapshot
  | ClockNow => instant
  | ResolveEntitlement _ _ _ => res Entitlement
  | GetPolicyVersion _ => res Policy
  | LatestPriceVersion _ _ _ => res (res PriceVersion)
  | GetWalletByAccount _ _ => res string
  | CallAdmit _ | CallAdmitWallet _ => res AdmissionResult
  | RouteCandidates _ _ _ => res (list Candidate)
  | SessionResolve _ _ => res string
  | SessionBind _ _ _ | SessionMigrate _ _ _ => res unit
  | NewUUID => string
  | PersistAttempt _ => result AttemptError ConcurrencyLease
  | CheckLeaseNow _ | ValidateURL _ => result Cause unit
  | ResolveSecret _ => result Cause string
  | SetRequestStatus _ _ => res unit
  | ClientDo _ _ => HTTPOutcome
  | KeeperErr => option error
  | TapRead => TapResult
  | SettleTx _ _ => res unit
  | Backoff => bool
  | _ => unit
  end.

Inductive prog (A : Type) : Type :=
| Ret (a : A)
| Vis (e : effect) (k : answer e -> prog A).
Arguments Ret {A} a.
Arguments Vis {A} e k.

Fixpoint pbind {A B} (p : prog A) (k : A -> prog B) : prog B :=
  match p with
  | Ret a => k a
  | Vis e c => Vis e (fun r => pbind (c r) k)
  end.

Definition perform (e : effect) : prog (answer e) := Vis e Ret.

Declare Scope prog_scope.
Delimit Scope prog_scope with prog.
Notation "'do' x '<-' p ';' k" := (pbind p (fun x => k))
  (at level 10, x pattern, p at level 100, k at level 200) : prog_scope.
Notation "p ';;' k" := (pbind p (fun _ => k)) (at level 100, k at level 200, right associativity) : prog_scope.
Local Open Scope prog_scope.

(** ** Finalization *)

Definition releaseLease (l : option ConcurrencyLease) : prog unit :=
  match l with Some l => perform (ReleaseLeaseNow l) | None => Ret tt end.

Definition releaseAdmission (requestID : string) (accountLease : option ConcurrencyLease) : prog unit :=
  perform (ReleaseTx requestID) ;; releaseLease accountLease.

Definition finishAttempt (id status kind upstreamID : string) : prog unit :=
  perform (FinishAttemptRow id status kind upstreamID).

Definition parkSettleFailure (requestID : string) : prog unit :=
  perform (MarkTx requestID "unknown_usage") ;; perform (SettleAlarm requestID).

(** The client sees that the execution state is unknown. *)
Definition holdForReconciliation (requestID : string) : prog error :=
  perform (MarkTx requestID "unknown_usage") ;; Ret (WrapError CodeUpstreamUnavailable EForeign).

Definition attemptCost (modelID : string) (record : UsageRecord)
  : prog (res (option Money * option CostBasis)) :=
  do now <- perform ClockNow;
  do row <- perform (LatestPriceVersion modelID PriceUpstreamCost now);
  match row with
  | Err e => Ret (if bool_decide (CodeOf e = CodeNotFound) then Ok (None, None) else Err e)
  | Ok pv =>
      Ret (let? pv := pv in
           let? charge := Quote pv record [] in
           Ok (c_Money charge,
               Some (if bool_decide (u_Source record = UsageEstimated) then CostEstimated else CostReported)))
  end.

Definition overage_detail (reserved charge over : Z) : gmap string string :=
  {[ "schema_version" := "1"; "reserved_micros" := pretty reserved; "charge_micros" := pretty charge;
     "over_micros" := pretty over; "origin" := json_string "settlement" ]}.

(** The bounded retries; [n] have failed so far. *)
Fixpoint settle_tries (fuel : nat) (first : bool) (cmd : SettleCommand) (over : option (gmap string string))
  : prog unit :=
  match fuel with
  | O => parkSettleFailure (sc_RequestID cmd)
  | S fuel =>
      do expired <- (if first then Ret false else perform Backoff);
      if expired then parkSettleFailure (sc_RequestID cmd)
      else do r <- perform (SettleTx cmd over);
           match r with
           | Ok _ => Ret tt
           | Err e => if bool_decide (CodeOf e = CodeConflict) then Ret tt else settle_tries fuel false cmd over
           end
  end.

(** The settlement command of a decision, once the cost is known. *)
Definition settle_command (requestID : string) (d : Decision_) (adm : AdmissionResult)
    (settledAt : instant) : res SettleCommand :=
  let base charge wallet := mkSettle requestID (d_Record d) charge wallet None None None settledAt in
  if bool_decide (ar_ChargeSource adm = Some ChargeSourceWallet)
  then match c_Money (d_Charge d) with
       | None => Err EForeign
       | Some m => Ok (base (Micros m) (Some m))
       end
  else Ok (base (c_Credit (d_Charge d)) None).

Definition with_cost (attemptID : string) (cost : res (option Money * option CostBasis)) (cmd : SettleCommand)
  : SettleCommand :=
  match cost with
  | Ok (Some m, basis) => mkSettle (sc_RequestID cmd) (sc_Usage cmd) (sc_ChargeMicros cmd) (sc_WalletCharge cmd)
                            (Some attemptID) (Some m) basis (sc_SettledAt cmd)
  | _ => cmd
  end.

Definition settle (requestID attemptID : string) (usage : UsageBuckets) (source : UsageSource)
    (price : PriceVersion) (inc : Inclusion) (adm : AdmissionResult) : prog unit :=
  match Decide (mkUsage requestID attemptID source usage 0) price inc (ar_HoldMicros adm) with
  | Err _ => parkSettleFailure requestID
  | Ok d =>
      do settledAt <- perform ClockNow;
      match settle_command requestID d adm settledAt with
      | Err _ => parkSettleFailure requestID
      | Ok cmd =>
          do cost <- attemptCost (pv_ModelID price) (d_Record d);
          let cmd := with_cost attemptID cost cmd in
          let over := OverageMicros d in
          settle_tries settleMaxAttempts true cmd
            (if 0 <? over then Some (overage_detail (ar_HoldMicros adm) (sc_ChargeMicros cmd) over) else None)
      end
  end.

(** ** Outcomes *)

Inductive StreamEnd := EndCompleted | EndUpstreamBroke | EndClientGone.

#[global] Instance StreamEnd_eq_dec : EqDecision StreamEnd.
Proof. solve_decision. Defined.

(** [sb_done]: the [sync.Once] of [Finish] has been consumed. *)
Record StreamBody := mkStream {
  sb_RequestID : string;
  sb_AttemptID : string;
  sb_UpstreamRequestID : string;
  sb_Admission : AdmissionResult;
  sb_Price : PriceVersion;
  sb_Inclusion : Inclusion;
  sb_Leases : list ConcurrencyLease;
  sb_done : bool;
}.

Record Outcome := mkOutcome {
  oc_RequestID : string;
  oc_ModelID : string;
  oc_AccountID : string;
  oc_Inclusion : Inclusion;
  oc_Payload : string;
  oc_Stream : option StreamBody;
}.

(** ** The stream's end *)

(** The closure [body.finalize]. *)
Definition finalize (b : StreamBody) (end_ : StreamEnd) : prog unit :=
  do fenced <- perform KeeperErr;
  let end_ := match fenced with
              | Some _ => if bool_decide (end_ = EndCompleted) then EndUpstreamBroke else end_
              | None => end_
              end in
  let '(status, kind) := match end_ with
                         | EndCompleted => ("completed", "")
                         | EndUpstreamBroke => ("failed", "stream_interrupted")
                         | EndClientGone => ("cancelled", "client_gone")
                         end in
  finishAttempt (sb_AttemptID b) status kind (sb_UpstreamRequestID b) ;;
  do tap <- perform TapRead;
  let settle_as usage source := settle (sb_RequestID b) (sb_AttemptID b) usage source (sb_Price b) (sb_Inclusion b)
                                  (sb_Admission b) in
  if negb (tap_SawUsage tap) && negb (tap_Terminal tap)
  then perform (MarkTx (sb_RequestID b) "unknown_usage")
  else if tap_SawUsage tap && tap_Terminal tap && negb (emptyBuckets (tap_Buckets tap))
  then settle_as (tap_Buckets tap) UsageReported
  else settle_as (if negb (tap_SawUsage tap) || emptyBuckets (tap_Buckets tap)
                  then estimateUsage (sb_Admission b) (tap_ContentBytes tap) else tap_Buckets tap) UsageEstimated.

(** Finalize once, and only then stop the keeper, which releases both leases. *)
Definition Finish (b : StreamBody) (end_ : StreamEnd) : prog StreamBody :=
  if sb_done b then Ret b
  else finalize b end_ ;; perform (KeeperStop (sb_Leases b)) ;;
       Ret (mkStream (sb_RequestID b) (sb_AttemptID b) (sb_UpstreamRequestID b) (sb_Admission b) (sb_Price b)
              (sb_Inclusion b) (sb_Leases b) true).

(** Closing finishes as an abandoned relay. *)
Definition Close (b : StreamBody) : prog StreamBody := Finish b EndClientGone.

(** What a surface does with a stream: ends it, any number of times. *)
Fixpoint relay (b : StreamBody) (ends : list StreamEnd) : prog StreamBody :=
  match ends with
  | [] => Ret b
  | e :: ends => do b <- Finish b e; relay b ends
  end.

(** ** The service *)

(** What [NewService] and the setters wire: the limits and modes, whether an
    egress policy and a session binder are configured, the adapters, and the
    order in which [range] visits a map of models. *)
Record Gateway := mkGateway {
  gw_MaxAttempts : Z;
  gw_LifecycleGate : LifecycleGateMode;
  gw_egress : bool;
  gw_sessions : bool;
  gw_adapters : Protocol -> option Adapter;
  gw_parse_url : string -> option URL;
  gw_order : Snapshot -> list Model;
}.

Section Service.
Context (gw : Gateway).

(** *** One attempt *)

Definition onNonStreamDispatch (requestID attemptID : string) (disp : DispatchResult) (lease : ConcurrencyLease)
    (adm : AdmissionResult) (price : PriceVersion) (adapter : Adapter) : prog Outcome :=
  perform KeeperPause ;;
  (if match ar_AccountLease adm with Some a => String.eqb (l_ID lease) (l_ID a) | None => false end
   then Ret tt else perform (ReleaseLeaseNow lease)) ;;
  finishAttempt attemptID "completed" "" (dr_UpstreamRequestID disp) ;;
  perform (SetRequestStatus requestID ReqNonStreaming) ;;
  let estimated := negb (dr_UsageReported disp) || emptyBuckets (dr_Usage disp) in
  settle requestID attemptID (if estimated then estimateUsage adm (dr_ContentBytes disp) else dr_Usage disp)
    (if estimated then UsageEstimated else UsageReported) price (ad_Inclusion adapter) adm ;;
  releaseLease (ar_AccountLease adm) ;;
  Ret (mkOutcome requestID (pv_ModelID price) "" (mkInclusion false false false) (dr_Payload disp) None).

Definition onStreamDispatch (requestID attemptID : string) (disp : DispatchResult) (leases : list ConcurrencyLease)
    (adm : AdmissionResult) (price : PriceVersion) (adapter : Adapter) : prog Outcome :=
  perform (SetRequestStatus requestID ReqStreaming) ;;
  perform KeeperPause ;;
  perform (KeeperStart leases) ;;
  Ret (mkOutcome requestID (pv_ModelID price) "" (mkInclusion false false false) ""
         (Some (mkStream requestID attemptID (dr_UpstreamRequestID disp) adm price (ad_Inclusion adapter) leases false))).

(** The attempt's terminal row, then its upstream lease. *)
Definition failAttempt (attemptID : string) (lease : ConcurrencyLease) (status kind : string) : prog unit :=
  finishAttempt attemptID status kind "" ;; perform (ReleaseLeaseNow lease).

Definition failure_kind (e : DispatchError) : string :=
  if de_StatusCode e =? 0 then "transport" else "http_" +:+ pretty (de_StatusCode e).

(** From the call to the upstream on. *)
Definition dispatch_call (requestID attemptID : string) (lease : ConcurrencyLease) (cand : Candidate)
    (adapter : Adapter) (secret : string) (extra : list (string * string)) (adm : AdmissionResult)
    (price : PriceVersion) (req : ChatRequest) : prog (result DispatchFailure Outcome) :=
  let leases := lease :: match ar_AccountLease adm with Some a => [a] | None => [] end in
  let call := mkCall (cand_Deployment cand) secret requestID req (ar_OutputCap adm) extra in
  perform (KeeperStart leases) ;;
  match prepare (gw_parse_url gw) adapter call with
  | Err e => perform KeeperPause ;; failAttempt attemptID lease "failed" "payload" ;; Ret (Err (ShapeError e))
  | Ok http =>
      do o <- perform (ClientDo cand http);
      match receive adapter call o with
      | Err e =>
          perform KeeperPause ;;
          failAttempt attemptID lease (if de_ExecutedUnknown e then "unknown" else "failed") (failure_kind e) ;;
          Ret (Err (UpstreamFailed e))
      | Ok disp =>
          do oc <- (if cr_Stream req then onStreamDispatch requestID attemptID disp leases adm price adapter
                    else onNonStreamDispatch requestID attemptID disp lease adm price adapter);
          Ret (Ok (mkOutcome (oc_RequestID oc) (oc_ModelID oc) (a_ID (cand_Account cand)) (ad_Inclusion adapter)
                     (oc_Payload oc) (oc_Stream oc)))
      end
  end.

(** With the lease: fencing, egress, credential, configuration, status. *)
Definition attempt_leased (requestID attemptID : string) (lease : ConcurrencyLease) (cand : Candidate)
    (adapter : Adapter) (adm : AdmissionResult) (price : PriceVersion) (req : ChatRequest)
  : prog (result DispatchFailure Outcome) :=
  let fail kind e := failAttempt attemptID lease "failed" kind ;; Ret (Err e) in
  do live <- perform (CheckLeaseNow lease);
  match live with
  | Err c => fail "lease_lost" (UpstreamFailed (transport_error c false false))
  | Ok _ =>
      do egress <- (if gw_egress gw then perform (ValidateURL (d_BaseURL (cand_Deployment cand))) else Ret (Ok tt));
      match egress with
      | Err c => fail "egress_rejected" (UpstreamFailed (transport_error c false false))
      | Ok _ =>
          do secret <- perform (ResolveSecret (a_CredentialID (cand_Account cand)));
          match secret with
          | Err c => fail "credential" (UpstreamFailed (transport_error c false true))
          | Ok secret =>
              match ExtensionHeaders (d_Config (cand_Deployment cand)) with
              | Err e => fail "config" (ShapeError (WrapError CodeInternal e))
              | Ok extra =>
                  do marked <- perform (SetRequestStatus requestID ReqDispatching);
                  match marked with
                  | Err e => fail "storage" (ShapeError (WrapError CodeInternal e))
                  | Ok _ => dispatch_call requestID attemptID lease cand adapter secret extra adm price req
                  end
              end
          end
      end
  end.

Definition attempt (requestID : string) (attemptNo : Z) (adm : AdmissionResult) (req : ChatRequest)
    (price : PriceVersion) (cand : Candidate) (adapter : Adapter) : prog (result DispatchFailure Outcome) :=
  do now <- perform ClockNow;
  do id <- perform NewUUID;
  do lease <- perform (PersistAttempt (mkIntent id requestID attemptNo cand now));
  match lease with
  | Err AttemptInactive =>
      Ret (Err (UpstreamFailed (transport_error (plain_cause (NewError CodeConflict)) false true)))
  | Err (AttemptFailed c) =>
      Ret (Err (if bool_decide (CodeOf (ca_Error c) = CodeInsufficientCapacity)
                then UpstreamFailed (transport_error c false false)
                else ShapeError (WrapError CodeInternal (ca_Error c))))
  | Ok lease => attempt_leased requestID id lease cand adapter adm price req
  end.

(** *** The failover loop *)

Definition de_canceled (e : DispatchError) : bool := match de_Err e with Some c => IsCanceled c | None => false end.
Definition de_code (e : DispatchError) : option Code := CodeOf ∘ ca_Error <$> de_Err e.

(** [i] is the index of the first candidate of [cands]. *)
Fixpoint dispatch_from (i : Z) (requestID : string) (adm : AdmissionResult) (req : ChatRequest)
    (price : PriceVersion) (cands : list Candidate) : prog (res Outcome) :=
  match cands with
  | [] => releaseAdmission requestID (ar_AccountLease adm) ;; Ret (Err (WrapError CodeUpstreamUnavailable EForeign))
  | cand :: cands =>
      match gw_adapters gw (d_Protocol (cand_Deployment cand)) with
      | None => dispatch_from (i + 1) requestID adm req price cands
      | Some adapter =>
          do r <- attempt requestID (i + 1) adm req price cand adapter;
          match r with
          | Ok oc => Ret (Ok oc)
          | Err (ShapeError e) => releaseAdmission requestID (ar_AccountLease adm) ;; Ret (Err e)
          | Err (UpstreamFailed e) =>
              if de_ExecutedUnknown e then do err <- holdForReconciliation requestID; Ret (Err err)
              else if de_canceled e || negb (Retryable e)
              then releaseAdmission requestID (ar_AccountLease adm) ;;
                   Ret (Err (WrapError CodeUpstreamUnavailable EForeign))
              else if bool_decide (de_code e = Some CodeInsufficientCapacity)
              then dispatch_from (i + 1) requestID adm req price cands
              else (if de_NoCooldown e then Ret tt else perform (CoolAccount (a_ID (cand_Account cand)))) ;;
                   dispatch_from (i + 1) requestID adm req price cands
          end
      end
  end.

Definition dispatchLoop (requestID : string) (adm : AdmissionResult) (req : ChatRequest) (price : PriceVersion)
    (cands : list Candidate) : prog (res Outcome) :=
  let maxAttempts := if gw_MaxAttempts gw <=? 0 then maxAttemptsDefault else gw_MaxAttempts gw in
  dispatch_from 0 requestID adm req price (take (Z.to_nat maxAttempts) cands).

(** *** Sticky sessions *)

(** The providers of a candidate list, each once, in order of appearance. *)
Definition candidate_providers (cands : list Candidate) : list string :=
  foldl (fun seen c => let p := d_ProviderID (cand_Deployment c) in
                       if bool_decide (p ∈ seen) then seen else seen ++ [p]) [] cands.

Fixpoint evict_all (ps : list string) : prog unit :=
  match ps with [] => Ret tt | p :: ps => perform (EvictAccounts p) ;; evict_all ps end.

Definition refresh_candidates (snap : Snapshot) (model : string) (needs : Needs) (cands : list Candidate)
  : prog (res (list Candidate)) :=
  evict_all (candidate_providers cands) ;; perform (RouteCandidates snap model needs).

Definition no_capacity : error := NewError CodeUpstreamUnavailable.
Definition raced : error := NewError CodeUpstreamUnavailable.

(** [first] is [cands[0]], kept apart because a conflict can replace [cands].
    [original] is what [refresh] evicts; [tries] rounds are left. *)
Fixpoint pin_tries (snap : Snapshot) (needs : Needs) (key model : string) (original : list Candidate)
    (tries : nat) (refreshed : bool) (first : Candidate) (cands : list Candidate) : prog (res (list Candidate)) :=
  match tries with
  | O => Ret (Err raced)
  | S tries =>
      do bound <- perform (SessionResolve key model);
      match bound with
      | Ok account =>
          let pinned := filterCandidatesByAccount cands account in
          Ret (if bool_decide (pinned = []) then Err (NewError CodeUpstreamUnavailable) else Ok pinned)
      | Err e =>
          let target := a_ID (cand_Account first) in
          match CodeOf e with
          | CodeNotFound =>
              do r <- perform (SessionBind key model target);
              match r with
              | Ok _ => Ret (Ok (filterCandidatesByAccount cands target))
              | Err e => if bool_decide (CodeOf e = CodeConflict)
                         then pin_tries snap needs key model original tries refreshed first cands
                         else Ret (Err (WrapError CodeInternal e))
              end
          | CodeConflict =>
              do r <- perform (SessionMigrate key model target);
              match r with
              | Ok _ => Ret (Ok (filterCandidatesByAccount cands target))
              | Err e =>
                  if negb (bool_decide (CodeOf e = CodeConflict)) then Ret (Err (WrapError CodeInternal e))
                  else if refreshed then pin_tries snap needs key model original tries refreshed first cands
                  else do fresh <- refresh_candidates snap model needs original;
                       match fresh with
                       | Err e => Ret (Err (WrapError CodeInternal e))
                       | Ok [] => Ret (Err no_capacity)
                       | Ok (c :: l) => pin_tries snap needs key model original tries true c (c :: l)
                       end
              end
          | _ => Ret (Err (WrapError CodeInternal e))
          end
      end
  end.

Definition pinSessionCandidates (snap : Snapshot) (needs : Needs) (key model : string) (first : Candidate)
    (rest : list Candidate) : prog (res (list Candidate)) :=
  if negb (gw_sessions gw) then Ret (Err (NewError CodeInternal))
  else pin_tries snap needs key model (first :: rest) 2 false first (first :: rest).

(** *** Admission *)

Definition priced_row (r : res (res PriceVersion)) : res PriceVersion :=
  match r with
  | Err e => Err (if bool_decide (CodeOf e = CodeNotFound) then ErrUnpriced else e)
  | Ok pure => pure
  end.

Definition pinCreditPrice (model : string) (now : instant) : prog (res PriceVersion) :=
  do row <- perform (LatestPriceVersion model PriceSaleCredit now); Ret (priced_row row).

Definition admitWallet (request : Request) (ent : Entitlement) (policy : Policy) (m : Model) (req : ChatRequest)
    (now : instant) : prog (res (AdmissionResult * PriceVersion)) :=
  do row <- perform (LatestPriceVersion (m_ID m) PriceSaleMoney now);
  match priced_row row with
  | Err e => Ret (Err e)
  | Ok price =>
      do wallet <- perform (GetWalletByAccount (r_BillingAccountID request) (pv_Currency price));
      match wallet with
      | Err e => Ret (Err (if bool_decide (CodeOf e = CodeNotFound) then ErrInsufficientBalance else e))
      | Ok wallet =>
          do adm <- perform (CallAdmitWallet (mkAdmitWallet request ent policy price wallet m
                      (EstimateInputTokens req) (cr_MaxTokens req) [] now));
          Ret (let? adm := adm in Ok (adm, price))
      end
  end.

Definition newRequest (p : Principal) (key : option APIKey) (ent : Entitlement) (m : Model) : Request :=
  let keyID := match key with
               | Some k => Some (ak_ID k)
               | None => if bool_decide (pr_APIKeyID p = "") then None else Some (pr_APIKeyID p)
               end in
  mkRequest "" (pr_BillingAccountID p) keyID (e_ID ent) (m_ID m) None None None "" None None None None None None
    None None None [] "" zero_time None.

(** The charge source is chosen here, once. *)
Definition admission (p : Principal) (key : option APIKey) (ent : Entitlement) (policy : Policy) (m : Model)
    (req : ChatRequest) (now : instant) : prog (res (AdmissionResult * PriceVersion)) :=
  let request := newRequest p key ent m in
  if bool_decide (e_SourceType ent = SourcePAYG) then admitWallet request ent policy m req now
  else
    do price <- pinCreditPrice (m_ID m) now;
    match price with
    | Err e => Ret (Err e)
    | Ok price =>
        do adm <- perform (CallAdmit (mkAdmit request ent policy price m (EstimateInputTokens req)
                    (cr_MaxTokens req) [] zero_time));
        match adm with
        | Ok adm => Ret (Ok (adm, price))
        | Err e =>
            if negb (bool_decide (p_Overage policy = OverageAllowOverage))
               || negb (bool_decide (CodeOf e = CodeQuotaExceeded))
            then Ret (Err e)
            else do w <- admitWallet request ent policy m req now;
                 Ret (match w with Ok r => Ok r | Err _ => Err e end)
        end
    end.

(** *** The call *)

Definition thinking (req : ChatRequest) : bool :=
  match cr_ThinkingEnabled req with Some b => b | None => false end.
Definition needs_of (req : ChatRequest) : Needs := mkNeeds (negb (bool_decide (cr_Tools req = []))) (thinking req).

(** The checks between the lifecycle gate and the entitlement. *)
Definition capability_checks (key : option APIKey) (proto : Protocol) (m : Model) (req : ChatRequest) : res unit :=
  guard modelSpeaks m proto else NewError CodeInvalidInput;
  fail_if MessagesHaveImages (cr_Messages req) && negb (AcceptsImages m) with NewError CodeInvalidInput;
  fail_if n_Tools (needs_of req) && negb (m_SupportsTools m) with NewError CodeInvalidInput;
  fail_if thinking req && negb (m_SupportsReasoning m) with NewError CodeInvalidInput;
  match key with
  | Some k => fail_if negb (bool_decide (ak_ModelAllow k = [])) && negb (contains (ak_ModelAllow k) (m_ID m))
                with NewError CodeModelNotAllowed; Ok tt
  | None => Ok tt
  end.

(** After admission: route, pin the session, dispatch. *)
Definition serve (snap : Snapshot) (m : Model) (req : ChatRequest) (sessionKey : string) (adm : AdmissionResult)
    (price : PriceVersion) : prog (res Outcome) :=
  let requestID := ar_RequestID adm in
  let reject e := releaseAdmission requestID (ar_AccountLease adm) ;; Ret (Err e) in
  do cands <- perform (RouteCandidates snap (m_ID m) (needs_of req));
  match cands with
  | Err e => reject (WrapError CodeInternal e)
  | Ok [] => reject no_capacity
  | Ok (c :: cs) =>
      if bool_decide (sessionKey = "") then dispatchLoop requestID adm req price (c :: cs)
      else do pinned <- pinSessionCandidates snap (needs_of req) sessionKey (m_ID m) c cs;
           match pinned with
           | Err e => reject e
           | Ok cands => dispatchLoop requestID adm req price cands
           end
  end.

(** The gate reports before it decides. *)
Definition lifecycle_gate (m : Model) : prog (res unit) :=
  let '(observe, blocked) := lifecycleGateDecision (m_Lifecycle m) (gw_LifecycleGate gw) in
  if observe
  then perform (ReportGate m blocked) ;; Ret (if blocked then Err (NewError CodeModelNotAllowed) else Ok tt)
  else Ret (Ok tt).

Definition admit_and_serve (snap : Snapshot) (m : Model) (p : Principal) (key : option APIKey) (proto : Protocol)
    (req : ChatRequest) (sessionKey : string) : prog (res Outcome) :=
  match capability_checks key proto m req with
  | Err e => Ret (Err e)
  | Ok _ =>
      do now <- perform ClockNow;
      do ent <- perform (ResolveEntitlement (pr_BillingAccountID p) (m_ID m) now);
      match ent with
      | Err e => Ret (Err e)
      | Ok ent =>
          do policy <- perform (GetPolicyVersion (e_PolicyVersionID ent));
          match policy with
          | Err e => Ret (Err e)
          | Ok policy =>
              do adm <- admission p key ent policy m req now;
              match adm with
              | Err e => Ret (Err e)
              | Ok (adm, price) => serve snap m req sessionKey adm price
              end
          end
      end
  end.

(** [Service.run]; the principal may be missing. *)
Definition run (p : option Principal) (key : option APIKey) (proto : Protocol) (req : ChatRequest)
    (sessionKey : string) : prog (res Outcome) :=
  match p with
  | None => Ret (Err (NewError CodeInvalidKey))
  | Some p =>
      if bool_decide (pr_BillingAccountID p = "") then Ret (Err (NewError CodeInvalidKey)) else
      do snap <- perform SnapshotCurrent;
      match snap with
      | Err e => Ret (Err (WrapError CodeInternal e))
      | Ok snap =>
          match SnapshotModel (gw_order gw snap) snap (cr_Model req) with
          | None => Ret (Err (NewError CodeNotFound))
          | Some m =>
              do gate <- lifecycle_gate m;
              match gate with
              | Err e => Ret (Err e)
              | Ok _ => admit_and_serve snap m p key proto req sessionKey
              end
          end
      end
  end.

Definition ChatCompletions (p : option Principal) (key : option APIKey) (proto : Protocol) (req : ChatRequest)
  : prog (res Outcome) := run p key proto req "".
Definition ChatCompletionsSticky (p : option Principal) (key : option APIKey) (proto : Protocol) (req : ChatRequest)
    (sessionKey : string) : prog (res Outcome) := run p key proto req sessionKey.

Definition BindSession (sessionKey model account : string) : prog (res unit) :=
  if negb (gw_sessions gw) then Ret (Err (NewError CodeInternal)) else perform (SessionBind sessionKey model account).

End Service.
