(* ===== verification/GatewayTraces.v ===== *)
(** * GatewayTraces: the shape of every execution of the gateway

    [runs p tr a]: the program [p] can return [a] after the exchange [tr], for
    any answers. What matters of a trace is its [observe]d part; the inductive
    relations [attempt_spec], [loop_spec], [done_spec] say what it can be, and
    [call_shape] that every call has that shape. *)

From Stdlib Require Import ZArith Lia Bool.
From stdpp Require Import base gmap strings list.
From S2P Require Import Prelude Domain Money Calendar Policy Pricing WalletRules Principal Entitlements Tables.
From S2P Require Import RequestStore QuotaStore WalletStore LedgerStore LeaseStore Admission.
From S2P Require Import Sessions Headers Catalog Routing Dispatch Gateway.

Local Open Scope Z_scope.
Local Open Scope go_scope.
Local Open Scope prog_scope.

(** ** Traces *)

Inductive event := Ev (e : effect) (r : answer e).

(** [p] can return [a] after the exchange [tr]. *)
Fixpoint runs {A} (p : prog A) (tr : list event) (a : A) : Prop :=
  match p with
  | Ret b => tr = [] /\ a = b
  | Vis e k => exists r tr', tr = Ev e r :: tr' /\ runs (k r) tr' a
  end.

Lemma runs_bind {A B} (p : prog A) (k : A -> prog B) : forall tr b,
  runs (pbind p k) tr b <-> exists tr1 a tr2, runs p tr1 a /\ runs (k a) tr2 b /\ tr = tr1 ++ tr2.
Proof.
  induction p as [a|e c IH]; intros tr b; simpl.
  - split; [intros H; exists [], a, tr; done|]. by intros (tr1 & a' & tr2 & [-> ->] & H & ->).
  - split.
    + intros (r & tr' & -> & H). apply IH in H as (tr1 & a & tr2 & H1 & H2 & ->).
      exists (Ev e r :: tr1), a, tr2. split_and!; [eauto|done|done].
    + intros (tr1 & a & tr2 & (r & tr' & -> & H1) & H2 & ->). exists r, (tr' ++ tr2). split; [done|].
      apply IH. eauto 6.
Qed.

(** An execution against given answers; every program has one. *)
Fixpoint exec {A} (oracle : list event -> forall e, answer e) (p : prog A) (past : list event) : list event * A :=
  match p with
  | Ret a => ([], a)
  | Vis e k => let r := oracle past e in
               let '(tr, a) := exec oracle (k r) (past ++ [Ev e r]) in (Ev e r :: tr, a)
  end.

Lemma exec_runs {A} oracle (p : prog A) : forall past tr a, exec oracle p past = (tr, a) -> runs p tr a.
Proof.
  induction p as [a|e k IH]; intros past tr b H; simpl in *; [by injection H as <- <-|].
  destruct (exec oracle (k _) _) as [tr' a'] eqn:E. injection H as <- <-. eauto.
Qed.

(** Taking a run apart. *)
Ltac run_step H :=
  lazymatch type of H with
  | runs (Ret _) _ _ => destruct H as [? ?]; subst
  | runs (pbind _ _) _ _ =>
      let ta := fresh "ta" in let x := fresh "x" in let tb := fresh "tb" in
      let Ra := fresh "Ra" in let Rb := fresh "Rb" in
      apply runs_bind in H as (ta & x & tb & Ra & Rb & ->)
  | runs (perform _) _ _ => let r := fresh "r" in let t := fresh "t" in destruct H as (r & t & -> & [-> <-])
  end.
Ltac run_all := repeat match goal with H : runs _ _ _ |- _ => run_step H end.
(** [run_first H as x H1 H2] names the first part and the rest. *)
Tactic Notation "run_first" hyp(H) "as" ident(t1) ident(x) ident(t2) ident(H1) ident(H2) :=
  apply runs_bind in H as (t1 & x & t2 & H1 & H2 & ->).
(** A leading effect. *)
Tactic Notation "run_effect" hyp(H) "as" ident(r) :=
  let t1 := fresh in let t2 := fresh in let t3 := fresh in let H1 := fresh in
  apply runs_bind in H as (t1 & r & t2 & H1 & H & ->); destruct H1 as (? & t3 & -> & [-> <-]).

(** ** What is observed *)

Inductive Obs :=
| OAdmitted (adm : AdmissionResult)
| OPinned (account : string)
| OPersisted (c : Candidate) (l : ConcurrencyLease)
| OChecked (l : ConcurrencyLease)
| OSent (c : Candidate) (o : HTTPOutcome)
| OReleasedLease (l : ConcurrencyLease)
| OStopped (ls : list ConcurrencyLease)
(** one settlement transaction, and whether it counts as settled *)
| OSettle (cmd : SettleCommand) (settled : bool)
| OPark (requestID : string)
| ORelease (requestID : string).

Definition settled_answer (r : res unit) : bool :=
  match r with Ok _ => true | Err e => bool_decide (CodeOf e = CodeConflict) end.

Definition obs (ev : event) : option Obs :=
  let 'Ev e r := ev in
  match e return answer e -> option Obs with
  | CallAdmit _ | CallAdmitWallet _ => fun r => match r with Ok adm => Some (OAdmitted adm) | Err _ => None end
  | SessionResolve _ _ => fun r => match r with Ok account => Some (OPinned account) | Err _ => None end
  | SessionBind _ _ account | SessionMigrate _ _ account =>
      fun r => match r with Ok _ => Some (OPinned account) | Err _ => None end
  | PersistAttempt i => fun r => match r with Ok l => Some (OPersisted (ai_Candidate i) l) | Err _ => None end
  | CheckLeaseNow l => fun r => match r with Ok _ => Some (OChecked l) | Err _ => None end
  | ClientDo c _ => fun o => Some (OSent c o)
  | ReleaseLeaseNow l => fun _ => Some (OReleasedLease l)
  | KeeperStop ls => fun _ => Some (OStopped ls)
  | SettleTx cmd _ => fun r => Some (OSettle cmd (settled_answer r))
  | MarkTx id _ => fun _ => Some (OPark id)
  | ReleaseTx id => fun _ => Some (ORelease id)
  | _ => fun _ => None
  end r.

Definition observe (tr : list event) : list Obs := omap obs tr.

Lemma observe_app tr1 tr2 : observe (tr1 ++ tr2) = observe tr1 ++ observe tr2.
Proof. apply omap_app. Qed.

(** A settlement of the request, for an amount a 64-bit integer holds. *)
Definition command_of (id : string) (cmd : SettleCommand) : Prop :=
  sc_RequestID cmd = id /\ in_int64 (sc_ChargeMicros cmd).

(** One finalization of a request: released, settled within three tries of one
    same command, or parked for reconciliation. *)
Inductive finalization (id : string) : list Obs -> Prop :=
| fin_released : finalization id [ORelease id]
| fin_settled cmd n : command_of id cmd -> (n < settleMaxAttempts)%nat ->
    finalization id (replicate n (OSettle cmd false) ++ [OSettle cmd true])
| fin_parked cmd n : command_of id cmd -> (n <= settleMaxAttempts)%nat ->
    finalization id (replicate n (OSettle cmd false) ++ [OPark id])
| fin_held : finalization id [OPark id].

(** A finalization that answers a metered use: never a plain release. *)
Definition metered (id : string) (l : list Obs) : Prop := finalization id l /\ l <> [ORelease id].

(** ** Settlement *)

Lemma park_obs id tr u : runs (parkSettleFailure id) tr u -> observe tr = [OPark id].
Proof. intros H. unfold parkSettleFailure in H. run_all. done. Qed.

Lemma settle_tries_obs cmd over fuel : forall first tr u, runs (settle_tries fuel first cmd over) tr u ->
  (exists n, (n < fuel)%nat /\ observe tr = replicate n (OSettle cmd false) ++ [OSettle cmd true]) \/
  (exists n, (n <= fuel)%nat /\ observe tr = replicate n (OSettle cmd false) ++ [OPark (sc_RequestID cmd)]).
Proof.
  induction fuel as [|fuel IH]; intros first tr u H; cbn [settle_tries] in H.
  { right. exists 0%nat. split; [done|]. by apply park_obs in H. }
  run_first H as t1 x t2 H1 H. assert (observe t1 = []) as Hq by (destruct first; run_all; done).
  rewrite observe_app, Hq. destruct x; [right; exists 0%nat; split; [lia|]; by apply park_obs in H|].
  run_effect H as r. rewrite observe_app. simpl.
  destruct r as [v|e]; [left; exists 0%nat; split; [lia|]; run_all; done|].
  simpl. destruct (bool_decide (CodeOf e = CodeConflict)) eqn:Hc.
  { left. exists 0%nat. split; [lia|]. run_all. done. }
  destruct (IH _ _ _ H) as [(n & Hn & ->)|(n & Hn & ->)]; [left|right]; exists (S n); (split; [lia|done]).
Qed.

Lemma metered_settled id cmd n : command_of id cmd -> (n < settleMaxAttempts)%nat ->
  metered id (replicate n (OSettle cmd false) ++ [OSettle cmd true]).
Proof. intros Hc Hn. split; [by constructor|]. by destruct n. Qed.
Lemma metered_parked id cmd n : command_of id cmd -> (n <= settleMaxAttempts)%nat ->
  metered id (replicate n (OSettle cmd false) ++ [OPark id]).
Proof. intros Hc Hn. split; [by constructor|]. by destruct n. Qed.
Lemma metered_held id : metered id [OPark id].
Proof. split; [constructor|done]. Qed.

(** Totals are sums in 64 bits. *)
Lemma Add_range a b c : Credit.Add a b = Ok c -> in_int64 c.
Proof. unfold Credit.Add. intros H. inv_ok. apply wrap64_range. Qed.

Lemma Quote_range p usage extras c : Quote p usage extras = Ok c ->
  in_int64 (c_Credit c) /\ forall m, c_Money c = Some m -> in_int64 (Micros m).
Proof.
  assert (Hadd : forall mode t u r t', addLine mode t u r = Ok t' -> in_int64 t').
  { unfold addLine. intros mode t u r t' H. inv_ok. by eapply Add_range. }
  unfold Quote. intros H. apply rbind_Ok in H as (_ & _ & H). apply rbind_Ok in H as (_ & _ & H).
  destruct (no_buckets _ && _); [done|]. apply rbind_Ok in H as (t1 & H1 & H). apply rbind_Ok in H as (t2 & H2 & H).
  assert (in_int64 t1) as Ht1.
  { eapply (rfold_inv in_int64); [| |exact H1]; [|by split]. unfold add_bucket_line. intros l x x' _ Hx Hl.
    destruct l.1; [by eapply Hadd|by injection Hl as <-]. }
  assert (in_int64 t2) as Ht2.
  { eapply (rfold_inv in_int64); [|exact Ht1|exact H2]. unfold add_extra_line. intros l x x' _ Hx Hl.
    destruct (l.2 <? 0); [done|]. destruct (pv_ExtraRates p !! l.1); [by eapply Hadd|].
    destruct (0 <? l.2); [done|by injection Hl as <-]. }
  case_bool_decide; [injection H as <-; by split|].
  apply rbind_Ok in H as (m & Hm & H). injection H as <-. apply NewMoney_Ok in Hm as (-> & _ & _).
  split; [by split|]. by intros m' [= <-].
Qed.

Lemma settle_command_ok id d adm t cmd usage price inc hold : Decide usage price inc hold = Ok d ->
  settle_command id d adm t = Ok cmd -> command_of id cmd.
Proof.
  intros Hd. unfold Decide in Hd. inv_ok. match goal with H : Quote _ _ _ = Ok _ |- _ => apply Quote_range in H as [Hc Hm] end.
  unfold settle_command, command_of. cbn [d_Charge]. case_bool_decide; [|by intros [= <-]].
  destruct (c_Money _) as [m|]; [|done]. intros [= <-]. split; [done|]. by apply Hm.
Qed.

Lemma with_cost_ok id a cost cmd : command_of id cmd -> command_of id (with_cost a cost cmd).
Proof. by destruct cost as [[[?|] ?]|]. Qed.

Lemma attemptCost_obs m u tr r : runs (attemptCost m u) tr r -> observe tr = [].
Proof. intros H. unfold attemptCost in H. run_effect H as now. run_effect H as row. destruct row; run_all; done. Qed.

Lemma settle_obs id a usage source price inc adm tr u :
  runs (settle id a usage source price inc adm) tr u -> metered id (observe tr).
Proof.
  unfold settle. intros H. destruct (Decide _ _ _ _) as [d|e] eqn:Hd; [|apply park_obs in H; rewrite H; apply metered_held].
  run_effect H as now. rewrite observe_app. simpl.
  destruct (settle_command _ _ _ _) as [cmd|e] eqn:Hcmd.
  - run_first H as t1 cost t2 Hcost H. apply attemptCost_obs in Hcost. rewrite observe_app, Hcost. simpl.
    pose proof (settle_command_ok _ _ _ _ _ _ _ _ _ Hd Hcmd) as Hok. apply (with_cost_ok _ a cost) in Hok.
    destruct (settle_tries_obs _ _ _ _ _ _ H) as [(n & Hn & ->)|(n & Hn & ->)]; [by apply metered_settled|].
    rewrite (proj1 Hok). by apply metered_parked.
  - apply park_obs in H. rewrite H. apply metered_held.
Qed.

(** ** One attempt *)

(** A failure that leaves the upstream's execution state certain. *)
Definition harmless (f : DispatchFailure) : bool :=
  match f with ShapeError _ => true | UpstreamFailed e => negb (de_ExecutedUnknown e) end.

Definition account_release (adm : AdmissionResult) : list Obs :=
  match ar_AccountLease adm with Some l => [OReleasedLease l] | None => [] end.

Definition leases_of (l : ConcurrencyLease) (adm : AdmissionResult) : list ConcurrencyLease :=
  l :: match ar_AccountLease adm with Some a => [a] | None => [] end.

(** The upstream lease released, unless it is the account's. *)
Definition upstream_release (l : ConcurrencyLease) (adm : AdmissionResult) : list Obs :=
  if match ar_AccountLease adm with Some a => String.eqb (l_ID l) (l_ID a) | None => false end
  then [] else [OReleasedLease l].

Record live_stream (id : string) (adm : AdmissionResult) (l : ConcurrencyLease) (oc : Outcome) (b : StreamBody) : Prop := {
  lv_stream : oc_Stream oc = Some b;
  lv_id : sb_RequestID b = id;
  lv_done : sb_done b = false;
  lv_leases : sb_Leases b = leases_of l adm;
  lv_adm : sb_Admission b = adm;
}.

Inductive attempt_spec (id : string) (adm : AdmissionResult) (cand : Candidate)
  : list Obs -> result DispatchFailure Outcome -> Prop :=
| as_unleased f : harmless f = true -> attempt_spec id adm cand [] (Err f)
| as_refused l f mid : mid = [] \/ mid = [OChecked l] -> harmless f = true ->
    attempt_spec id adm cand (OPersisted cand l :: mid ++ [OReleasedLease l]) (Err f)
| as_failed l a call o e : receive a call o = Err e ->
    attempt_spec id adm cand [OPersisted cand l; OChecked l; OSent cand o; OReleasedLease l] (Err (UpstreamFailed e))
| as_stream l h body oc b : live_stream id adm l oc b -> oc_AccountID oc = a_ID (cand_Account cand) ->
    attempt_spec id adm cand [OPersisted cand l; OChecked l; OSent cand (DoResponse 200 h body)] (Ok oc)
| as_done l h body oc fin : oc_Stream oc = None -> metered id fin -> oc_AccountID oc = a_ID (cand_Account cand) ->
    attempt_spec id adm cand
      (OPersisted cand l :: OChecked l :: OSent cand (DoResponse 200 h body) ::
       upstream_release l adm ++ fin ++ account_release adm) (Ok oc).

Section Attempt.
Context (gw : Gateway) (adm : AdmissionResult) (req : ChatRequest) (price : PriceVersion).

Lemma failAttempt_obs a l status kind tr u : runs (failAttempt a l status kind) tr u -> observe tr = [OReleasedLease l].
Proof using Type. intros H. unfold failAttempt, finishAttempt in H. run_all. done. Qed.

Lemma releaseLease_obs o tr u : runs (releaseLease o) tr u ->
  observe tr = match o with Some l => [OReleasedLease l] | None => [] end.
Proof using Type. intros H. unfold releaseLease in H. destruct o; run_all; done. Qed.

Lemma nonstream_obs id a disp l adapter tr oc :
  runs (onNonStreamDispatch id a disp l adm price adapter) tr oc ->
  exists fin, metered id fin /\ observe tr = upstream_release l adm ++ fin ++ account_release adm /\ oc_Stream oc = None.
Proof using Type.
  unfold onNonStreamDispatch, upstream_release. intros H. run_effect H as u1. rewrite observe_app. simpl.
  run_first H as t1 u2 t2 Hrel H. rewrite observe_app.
  run_effect H as u3. rewrite observe_app. simpl. run_effect H as u4. rewrite observe_app. simpl.
  run_first H as t3 u5 t4 Hset H. apply settle_obs in Hset. rewrite observe_app.
  run_first H as t5 u6 t6 Hacc H. apply releaseLease_obs in Hacc. destruct H as [-> ->].
  exists (observe t3). split_and!; [done| |done]. rewrite app_nil_r. unfold account_release. rewrite Hacc. f_equal.
  destruct (match ar_AccountLease adm with Some _ => _ | None => _ end); run_all; done.
Qed.

Lemma dispatch_call_obs id a l cand adapter secret extra tr r :
  runs (dispatch_call gw id a l cand adapter secret extra adm price req) tr r ->
  attempt_spec id adm cand (OPersisted cand l :: OChecked l :: observe tr) r.
Proof using Type.
  unfold dispatch_call. intros H. run_effect H as u1. rewrite observe_app. simpl.
  destruct (prepare _ _ _) as [http|e].
  - run_effect H as o. rewrite observe_app. simpl. destruct (receive adapter _ o) as [disp|e] eqn:Hr.
    + assert (exists h body, o = DoResponse 200 h body) as (h & body & ->).
      { unfold receive in Hr. destruct o as [|st h body]; [done|]. destruct (Z.eqb_spec st 200) as [->|]; [eauto|done]. }
      run_first H as t1 oc t2 Hoc H. destruct H as [-> ->]. rewrite app_nil_r. destruct (cr_Stream req).
      * unfold onStreamDispatch in Hoc. run_effect Hoc as u2. run_effect Hoc as u3. run_effect Hoc as u4.
        destruct Hoc as [-> ->]. simpl. eapply as_stream; [|done]. by constructor.
      * apply nonstream_obs in Hoc as (fin & Hf & -> & Hs). by apply as_done.
    + run_effect H as u2. rewrite observe_app. simpl. run_first H as t1 u3 t2 Hf H. destruct H as [-> ->].
      apply failAttempt_obs in Hf. rewrite app_nil_r, Hf. by eapply as_failed.
  - run_effect H as u2. rewrite observe_app. simpl. run_first H as t1 u3 t2 Hf H. destruct H as [-> ->].
    apply failAttempt_obs in Hf. rewrite app_nil_r, Hf. apply (as_refused id adm cand l (ShapeError e) [OChecked l]); auto.
Qed.

Lemma attempt_leased_obs id a l cand adapter tr r :
  runs (attempt_leased gw id a l cand adapter adm price req) tr r ->
  attempt_spec id adm cand (OPersisted cand l :: observe tr) r.
Proof using Type.
  unfold attempt_leased. intros H. run_effect H as live. rewrite observe_app. simpl.
  assert (Hfail : forall mid f status kind tr r, mid = [] \/ mid = [OChecked l] -> harmless f = true ->
            runs (failAttempt a l status kind ;; Ret (Err f)) tr r ->
            attempt_spec id adm cand (OPersisted cand l :: mid ++ observe tr) r).
  { intros mid f status kind tr' r' Hm Hf Hr. run_first Hr as t1 u t2 Hr1 Hr. destruct Hr as [-> ->].
    apply failAttempt_obs in Hr1. rewrite app_nil_r, Hr1. by apply as_refused. }
  destruct live as [u|c]; [|by eapply (Hfail []); [by left| |exact H]]. simpl.
  run_first H as t1 egress t2 He H. rewrite observe_app.
  assert (observe t1 = []) as -> by (destruct (gw_egress gw); run_all; done). simpl.
  destruct egress as [u'|c]; [|by eapply (Hfail [OChecked l]); [by right| |exact H]].
  run_effect H as secret. rewrite observe_app. simpl.
  destruct secret as [secret|c]; [|by eapply (Hfail [OChecked l]); [by right| |exact H]].
  destruct (ExtensionHeaders _) as [extra|e]; [|by eapply (Hfail [OChecked l]); [by right| |exact H]].
  run_effect H as marked. rewrite observe_app. simpl.
  destruct marked as [u''|e]; [by apply dispatch_call_obs in H|].
  by eapply (Hfail [OChecked l]); [by right| |exact H].
Qed.

Lemma attempt_obs id n cand adapter tr r :
  runs (attempt gw id n adm req price cand adapter) tr r -> attempt_spec id adm cand (observe tr) r.
Proof using Type.
  unfold attempt. intros H. run_effect H as now. run_effect H as a. run_effect H as lease. simpl.
  destruct lease as [l|[|c]]; [by apply attempt_leased_obs in H|run_all; by apply as_unleased|].
  simpl. destruct H as [-> ->]. simpl. case_bool_decide; by apply as_unleased.
Qed.
End Attempt.

(** ** The failover loop *)

(** What the loop does with a candidate whose attempt failed. *)
Definition goes_on (f : DispatchFailure) : bool :=
  match f with ShapeError _ => false | UpstreamFailed e => negb (de_ExecutedUnknown e) && Retryable e end.

Inductive loop_spec (id : string) (adm : AdmissionResult) : list Candidate -> list Obs -> res Outcome -> Prop :=
| ls_exhausted e : loop_spec id adm [] (ORelease id :: account_release adm) (Err e)
| ls_skip c cands l r : loop_spec id adm cands l r -> loop_spec id adm (c :: cands) l r
| ls_won c cands l oc : attempt_spec id adm c l (Ok oc) -> loop_spec id adm (c :: cands) l (Ok oc)
| ls_stop c cands l f e : attempt_spec id adm c l (Err f) -> harmless f = true ->
    loop_spec id adm (c :: cands) (l ++ ORelease id :: account_release adm) (Err e)
| ls_unknown c cands l f e : attempt_spec id adm c l (Err f) -> harmless f = false ->
    loop_spec id adm (c :: cands) (l ++ [OPark id]) (Err e)
| ls_next c cands l f l' r : attempt_spec id adm c l (Err f) -> goes_on f = true ->
    loop_spec id adm cands l' r -> loop_spec id adm (c :: cands) (l ++ l') r.

Lemma releaseAdmission_obs id adm tr u : runs (releaseAdmission id (ar_AccountLease adm)) tr u ->
  observe tr = ORelease id :: account_release adm.
Proof.
  unfold releaseAdmission. intros H. run_effect H as u1. apply releaseLease_obs in H. rewrite observe_app, H. done.
Qed.

Lemma loop_obs gw id adm req price cands : forall i tr r,
  runs (dispatch_from gw i id adm req price cands) tr r -> loop_spec id adm cands (observe tr) r.
Proof.
  assert (Hrel : forall (e : error) tr (r : res Outcome), runs (releaseAdmission id (ar_AccountLease adm) ;; Ret (Err e)) tr r ->
            observe tr = ORelease id :: account_release adm /\ r = Err e).
  { intros e tr r H. run_first H as t1 u t2 H1 H. destruct H as [-> ->]. rewrite app_nil_r. split; [|done].
    by eapply releaseAdmission_obs. }
  induction cands as [|c cands IH]; intros i tr r H; cbn [dispatch_from] in H.
  { apply Hrel in H as [-> ->]. constructor. }
  destruct (gw_adapters gw _) as [adapter|]; [|apply ls_skip; by eapply IH].
  run_first H as t1 ra t2 Ha H. apply attempt_obs in Ha. rewrite observe_app.
  destruct ra as [oc|[e|e]].
  - destruct H as [-> ->]. rewrite app_nil_r. by apply ls_won.
  - apply Hrel in H as [-> ->]. by eapply ls_stop.
  - destruct (de_ExecutedUnknown e) eqn:Hu.
    { unfold holdForReconciliation in H. run_all. simpl. eapply ls_unknown; [exact Ha|]. simpl. by rewrite Hu. }
    destruct (de_canceled e || negb (Retryable e)) eqn:Hstop.
    { apply Hrel in H as [-> ->]. eapply ls_stop; [exact Ha|]. simpl. by rewrite Hu. }
    apply orb_false_iff in Hstop as [_ Hr]. apply negb_false_iff in Hr.
    assert (goes_on (UpstreamFailed e) = true) as Hgo by (simpl; by rewrite Hu, Hr).
    case_bool_decide; [eapply ls_next; [exact Ha|exact Hgo|by eapply IH]|].
    run_first H as t3 u t4 Hc H. rewrite observe_app.
    assert (observe t3 = []) as -> by (destruct (de_NoCooldown e); run_all; done).
    eapply ls_next; [exact Ha|exact Hgo|by eapply IH].
Qed.

(** ** Sessions, admission, the whole call *)

Lemma filter_by_account cands account :
  Forall (fun c => a_ID (cand_Account c) = account) (filterCandidatesByAccount cands account).
Proof.
  apply Forall_forall. intros c Hc. apply list_elem_of_In, filter_In in Hc as [_ Hc]. by apply String.eqb_eq.
Qed.

Lemma evict_all_obs ps : forall tr u, runs (evict_all ps) tr u -> observe tr = [].
Proof.
  induction ps as [|p ps IH]; intros tr u H; cbn [evict_all] in H; [by destruct H as [-> _]|].
  run_effect H as u1. rewrite observe_app. by apply IH in H as ->.
Qed.

(** A pinned list is that of one account, the last the binder answered. *)
Definition pins_ok (pins : list Obs) (r : res (list Candidate)) : Prop :=
  match r with
  | Ok cands => exists account, pins = [OPinned account] /\ Forall (fun c => a_ID (cand_Account c) = account) cands
  | Err _ => pins = [] \/ exists account, pins = [OPinned account]
  end.

Lemma pin_tries_obs snap needs key model original tries : forall refreshed first cands tr r,
  runs (pin_tries snap needs key model original tries refreshed first cands) tr r -> pins_ok (observe tr) r.
Proof.
  induction tries as [|tries IH]; intros refreshed first cands tr r H; cbn [pin_tries] in H.
  { destruct H as [-> ->]. by left. }
  run_effect H as bound. rewrite observe_app. destruct bound as [account|e]; simpl.
  { destruct H as [-> ->]. simpl. case_bool_decide; [right; eauto|]. eexists. split; [done|]. apply filter_by_account. }
  destruct (CodeOf e); try (destruct H as [-> ->]; by left).
  - run_effect H as b. rewrite observe_app. destruct b as [u|e']; simpl.
    { destruct H as [-> ->]. simpl. eexists. split; [done|]. apply filter_by_account. }
    case_bool_decide; [by eapply IH|]. destruct H as [-> ->]. by left.
  - run_effect H as b. rewrite observe_app. destruct b as [u|e']; simpl.
    { destruct H as [-> ->]. simpl. eexists. split; [done|]. apply filter_by_account. }
    case_bool_decide; simpl in H; [|destruct H as [-> ->]; by left].
    destruct refreshed; [by eapply IH|].
    run_first H as t1 fresh t2 Hf H. rewrite observe_app. unfold refresh_candidates in Hf.
    run_first Hf as t3 u t4 He Hf. apply evict_all_obs in He. rewrite observe_app, He. run_all. simpl.
    destruct fresh as [[|c l]|e'']; [destruct H as [-> ->]; by left|by eapply IH|destruct H as [-> ->]; by left].
Qed.

Definition admitted (r : res (AdmissionResult * PriceVersion)) : list Obs :=
  match r with Ok (adm, _) => [OAdmitted adm] | Err _ => [] end.

Lemma admitWallet_obs request ent policy m req now tr r :
  runs (admitWallet request ent policy m req now) tr r -> observe tr = admitted r.
Proof.
  unfold admitWallet. intros H. run_effect H as row. rewrite observe_app.
  destruct (priced_row row) as [price|e]; [|by destruct H as [-> ->]].
  run_effect H as wallet. rewrite observe_app. destruct wallet as [w|e]; [|by destruct H as [-> ->]].
  run_effect H as adm. rewrite observe_app. destruct H as [-> ->]. by destruct adm.
Qed.

Lemma admission_obs p key ent policy m req now tr r :
  runs (admission p key ent policy m req now) tr r -> observe tr = admitted r.
Proof.
  unfold admission. intros H. case_bool_decide; [by eapply admitWallet_obs|].
  run_first H as t1 price t2 Hp H. rewrite observe_app.
  assert (observe t1 = []) as -> by (unfold pinCreditPrice in Hp; run_all; done).
  destruct price as [price|e]; [|by destruct H as [-> ->]].
  run_effect H as adm. rewrite observe_app. destruct adm as [adm|e]; [by destruct H as [-> ->]|].
  destruct (negb _ || negb _); [by destruct H as [-> ->]|].
  run_first H as t3 w t4 Hw H. rewrite observe_app. apply admitWallet_obs in Hw as ->.
  destruct H as [-> ->]. by destruct w as [[]|].
Qed.

(** What follows an admission. [sticky]: the caller gave a session key. *)
Inductive serve_spec (maxAttempts : nat) (sticky : bool) (adm : AdmissionResult) : list Obs -> res Outcome -> Prop :=
| ss_none pins e : pins = [] \/ (exists account, pins = [OPinned account]) ->
    serve_spec maxAttempts sticky adm (pins ++ ORelease (ar_RequestID adm) :: account_release adm) (Err e)
| ss_loop pins cands l r : pins_ok pins (Ok cands) \/ (sticky = false /\ pins = []) ->
    loop_spec (ar_RequestID adm) adm (take maxAttempts cands) l r -> serve_spec maxAttempts sticky adm (pins ++ l) r.

Inductive call_spec (maxAttempts : nat) (sticky : bool) : list Obs -> res Outcome -> Prop :=
| cs_refused e : call_spec maxAttempts sticky [] (Err e)
| cs_admitted adm l r : serve_spec maxAttempts sticky adm l r -> call_spec maxAttempts sticky (OAdmitted adm :: l) r.

Definition attempts_max (gw : Gateway) : nat :=
  Z.to_nat (if gw_MaxAttempts gw <=? 0 then maxAttemptsDefault else gw_MaxAttempts gw).
Definition sticky_key (sessionKey : string) : bool := negb (bool_decide (sessionKey = "")).

Lemma serve_obs gw snap m req sessionKey adm price tr r :
  runs (serve gw snap m req sessionKey adm price) tr r ->
  serve_spec (attempts_max gw) (sticky_key sessionKey) adm (observe tr) r.
Proof.
  unfold serve. intros H. run_effect H as cands. rewrite observe_app. simpl.
  assert (Hup : forall pins (e : error) tr (r : res Outcome), pins = [] \/ (exists account, pins = [OPinned account]) ->
            runs (releaseAdmission (ar_RequestID adm) (ar_AccountLease adm) ;; Ret (Err e)) tr r ->
            serve_spec (attempts_max gw) (sticky_key sessionKey) adm (pins ++ observe tr) r).
  { intros pins e tr' r' Hp Hr. run_first Hr as t1 u t2 Hrel Hr. destruct Hr as [-> ->]. rewrite app_nil_r.
    apply releaseAdmission_obs in Hrel as ->. by apply ss_none. }
  destruct cands as [[|c cs]|e]; [by eapply (Hup []); [left|]| |by eapply (Hup []); [left|]].
  unfold sticky_key in *. case_bool_decide.
  { simpl. apply loop_obs in H. by eapply (ss_loop _ _ _ []); [right|]. }
  run_first H as t1 pinned t2 Hpin H. rewrite observe_app.
  assert (pins_ok (observe t1) pinned) as Hok.
  { unfold pinSessionCandidates in Hpin. destruct (negb (gw_sessions gw)); [destruct Hpin as [-> ->]; by left|].
    by eapply pin_tries_obs. }
  destruct pinned as [cands|e]; [|by eapply Hup].
  apply loop_obs in H. eapply ss_loop; [by left|exact H].
Qed.

Lemma run_obs gw p key proto req sessionKey tr r :
  runs (run gw p key proto req sessionKey) tr r ->
  call_spec (attempts_max gw) (sticky_key sessionKey) (observe tr) r.
Proof.
  unfold run. intros H. destruct p as [p|]; [|destruct H as [-> ->]; constructor].
  case_bool_decide; [destruct H as [-> ->]; constructor|].
  run_effect H as snap. rewrite observe_app. destruct snap as [snap|e]; [|destruct H as [-> ->]; constructor].
  destruct (SnapshotModel _ _ _) as [m|]; [|destruct H as [-> ->]; constructor].
  run_first H as t1 gate t2 Hg H. rewrite observe_app.
  assert (observe t1 = []) as ->.
  { unfold lifecycle_gate in Hg. destruct (lifecycleGateDecision _ _) as [[] blocked]; run_all; done. }
  destruct gate as [u|e]; [|destruct H as [-> ->]; constructor].
  unfold admit_and_serve in H. destruct (capability_checks _ _ _ _); [|destruct H as [-> ->]; constructor].
  run_effect H as now. run_effect H as ent. rewrite !observe_app. simpl. destruct ent as [ent|e]; [|destruct H as [-> ->]; constructor].
  run_effect H as policy. rewrite observe_app. destruct policy as [policy|e]; [|destruct H as [-> ->]; constructor].
  run_first H as t3 adm t4 Hadm H. rewrite observe_app. apply admission_obs in Hadm as ->.
  destruct adm as [[adm price]|e]; [|destruct H as [-> ->]; constructor].
  simpl. apply cs_admitted. by eapply serve_obs.
Qed.

(** ** The stream's end *)

Lemma finalize_obs b end_ tr u : runs (finalize b end_) tr u -> metered (sb_RequestID b) (observe tr).
Proof.
  unfold finalize. intros H. run_effect H as fenced. rewrite observe_app. simpl.
  set (e := match fenced with Some _ => _ | None => _ end) in H.
  destruct (match e with EndCompleted => _ | EndUpstreamBroke => _ | EndClientGone => _ end) as [status kind].
  unfold finishAttempt in H. run_effect H as u1. run_effect H as tap. rewrite !observe_app. simpl.
  destruct (negb (tap_SawUsage tap) && negb (tap_Terminal tap)).
  { run_all. simpl. apply metered_held. }
  destruct (tap_SawUsage tap && tap_Terminal tap && _); by eapply settle_obs.
Qed.

Lemma Finish_obs b end_ tr b' : runs (Finish b end_) tr b' -> sb_done b' = true /\
  if sb_done b then observe tr = [] /\ b' = b
  else exists fin, metered (sb_RequestID b) fin /\ observe tr = fin ++ [OStopped (sb_Leases b)].
Proof.
  unfold Finish. destruct (sb_done b) eqn:Hd; intros H; [by destruct H as [-> ->]|].
  run_first H as t1 u t2 Hf H. apply finalize_obs in Hf. run_effect H as u2. destruct H as [-> ->].
  split; [done|]. exists (observe t1). split; [done|]. by rewrite observe_app.
Qed.

Lemma relay_done b ends : forall tr b', sb_done b = true -> runs (relay b ends) tr b' -> observe tr = [].
Proof.
  induction ends as [|e ends IH]; intros tr b' Hd H; cbn [relay] in H; [by destruct H as [-> _]|].
  run_first H as t1 b1 t2 Hf H. apply Finish_obs in Hf as [_ Hf]. rewrite Hd in Hf. destruct Hf as [Hq ->].
  rewrite observe_app, Hq. by eapply IH.
Qed.

Lemma relay_obs b ends tr b' : sb_done b = false -> ends <> [] -> runs (relay b ends) tr b' ->
  exists fin, metered (sb_RequestID b) fin /\ observe tr = fin ++ [OStopped (sb_Leases b)].
Proof.
  intros Hd Hne H. destruct ends as [|e ends]; [done|]. cbn [relay] in H. run_first H as t1 b1 t2 Hf H.
  apply Finish_obs in Hf as [Hd1 Hf]. rewrite Hd in Hf. destruct Hf as (fin & Hm & Hq).
  exists fin. split; [done|]. rewrite observe_app, (relay_done _ _ _ _ Hd1 H), app_nil_r. done.
Qed.

(** A whole call: the service, then a surface that ends the stream it got,
    in whatever ways and however often. *)
Definition call (gw : Gateway) (p : option Principal) (key : option APIKey) (proto : Protocol) (req : ChatRequest)
    (sessionKey : string) (ends : list StreamEnd) : prog (res Outcome) :=
  do r <- ChatCompletionsSticky gw p key proto req sessionKey;
  match r with
  | Ok oc => match oc_Stream oc with Some b => relay b ends ;; Ret r | None => Ret r end
  | Err _ => Ret r
  end.

Lemma call_obs gw p key proto req sessionKey ends tr r : runs (call gw p key proto req sessionKey ends) tr r ->
  exists l, call_spec (attempts_max gw) (sticky_key sessionKey) l r /\
  match r with
  | Ok oc => match oc_Stream oc with
             | Some b => sb_done b = false -> ends <> [] -> exists fin, metered (sb_RequestID b) fin /\
                 observe tr = l ++ fin ++ [OStopped (sb_Leases b)]
             | None => observe tr = l
             end
  | Err _ => observe tr = l
  end.
Proof.
  unfold call, ChatCompletionsSticky. intros H. run_first H as t1 ra t2 Hr H. apply run_obs in Hr.
  exists (observe t1). rewrite observe_app.
  destruct ra as [oc|e]; [|destruct H as [-> ->]; by rewrite app_nil_r].
  destruct (oc_Stream oc) as [b|] eqn:Hs; [|destruct H as [-> ->]; rewrite app_nil_r, Hs; done].
  run_first H as t3 b' t4 Hb H. destruct H as [-> ->]. split; [done|]. rewrite Hs, app_nil_r.
  intros Hd Hne. destruct (relay_obs _ _ _ _ Hd Hne Hb) as (fin & Hm & ->). eauto.
Qed.

(** ** Complete calls *)

(** The attempt that won, up to the end of its stream if it has one. *)
Inductive won_spec (id : string) (adm : AdmissionResult) (c : Candidate) : list Obs -> Prop :=
| won_stream l h body fin : metered id fin ->
    won_spec id adm c (OPersisted c l :: OChecked l :: OSent c (DoResponse 200 h body) ::
                       fin ++ [OStopped (leases_of l adm)])
| won_reply l h body fin : metered id fin ->
    won_spec id adm c (OPersisted c l :: OChecked l :: OSent c (DoResponse 200 h body) ::
                       upstream_release l adm ++ fin ++ account_release adm).

(** What follows the pinning; [ok]: the caller got an outcome. *)
Inductive done_spec (id : string) (adm : AdmissionResult) : list Candidate -> list Obs -> bool -> Prop :=
| ds_exhausted cands : done_spec id adm cands (ORelease id :: account_release adm) false
| ds_skip c cands l ok : done_spec id adm cands l ok -> done_spec id adm (c :: cands) l ok
| ds_won c cands l : won_spec id adm c l -> done_spec id adm (c :: cands) l true
| ds_stop c cands l f : attempt_spec id adm c l (Err f) -> harmless f = true ->
    done_spec id adm (c :: cands) (l ++ ORelease id :: account_release adm) false
| ds_unknown c cands l f : attempt_spec id adm c l (Err f) -> harmless f = false ->
    done_spec id adm (c :: cands) (l ++ [OPark id]) false
| ds_next c cands l f l' ok : attempt_spec id adm c l (Err f) -> goes_on f = true ->
    done_spec id adm cands l' ok -> done_spec id adm (c :: cands) (l ++ l') ok.

(** The loop's observations, completed by those of the relay. *)
Definition completed_as (r : res Outcome) (l0 l : list Obs) : Prop :=
  match r with
  | Ok oc => match oc_Stream oc with
             | Some b => sb_done b = false -> exists fin, metered (sb_RequestID b) fin /\
                           l = l0 ++ fin ++ [OStopped (sb_Leases b)]
             | None => l = l0
             end
  | Err _ => l = l0
  end.

Lemma won_ended id adm c l0 l oc : attempt_spec id adm c l0 (Ok oc) -> completed_as (Ok oc) l0 l -> won_spec id adm c l.
Proof.
  intros H He. inversion H as [| | |le h body oc' b Hl Ha|le h body oc' fin Hs Hm Ha]; subst; simpl in He.
  - destruct Hl as [Hs Hid Hd Hls _]. rewrite Hs in He. destruct (He Hd) as (fin & Hm & ->).
    rewrite Hls. apply won_stream. by rewrite Hid in Hm.
  - rewrite Hs in He. subst. by apply won_reply.
Qed.

Lemma ended_app r l1 l0 l : completed_as r (l1 ++ l0) (l1 ++ l) -> completed_as r l0 l.
Proof.
  unfold completed_as. destruct r as [oc|e]; [destruct (oc_Stream oc) as [b|]|]; try apply app_inv_head.
  intros H Hd. destruct (H Hd) as (fin & Hm & E). exists fin. split; [done|]. rewrite <- app_assoc in E.
  by apply app_inv_head in E.
Qed.

(** A completed observation extends the loop's. *)
Lemma ended_prefix r l1 l0 l : (match r with Ok oc => match oc_Stream oc with Some b => sb_done b = false | None => True end | Err _ => True end) ->
  completed_as r (l1 ++ l0) l -> exists l', l = l1 ++ l'.
Proof.
  intros Hd H. destruct r as [oc|e]; simpl in *; [|by exists l0].
  destruct (oc_Stream oc) as [b|]; [|by exists l0]. destruct (H Hd) as (fin & _ & ->). eexists. by rewrite <- app_assoc.
Qed.

Lemma loop_live id adm cands l r : loop_spec id adm cands l r ->
  match r with Ok oc => match oc_Stream oc with Some b => sb_done b = false | None => True end | Err _ => True end.
Proof.
  induction 1 as [| |c cands l oc Ha| | |]; try done.
  inversion Ha as [| | |le h body oc' b Hl _|le h body oc' fin Hs _ _]; subst; [|by rewrite Hs].
  by rewrite (lv_stream _ _ _ _ _ Hl), (lv_done _ _ _ _ _ Hl).
Qed.

Lemma loop_done id adm cands l0 r : loop_spec id adm cands l0 r -> forall l, completed_as r l0 l ->
  done_spec id adm cands l (is_ok r).
Proof.
  intros H. induction H as [e|c cands l0 r H IH|c cands l0 oc Ha|c cands l0 f e Ha Hf|c cands l0 f e Ha Hf|c cands l0 f l1 r Ha Hf H IH];
    intros l He.
  - simpl in He. subst. constructor.
  - by apply ds_skip, IH.
  - apply ds_won. by eapply won_ended.
  - simpl in He. subst. by eapply ds_stop.
  - simpl in He. subst. by eapply ds_unknown.
  - destruct (ended_prefix _ _ _ _ (loop_live _ _ _ _ _ H) He) as (l' & ->).
    eapply ds_next; [exact Ha|done|]. by eapply IH, ended_app.
Qed.

Definition pinning (pins : list Obs) : Prop := pins = [] \/ exists account, pins = [OPinned account].

Lemma take_elem {A} n (l : list A) x : x ∈ take n l -> x ∈ l.
Proof. apply subseteq_take. Qed.

(** The shape of every call: refused before admission, or admitted, perhaps
    pinned to one account, and then complete. *)
Lemma call_shape gw p key proto req sessionKey ends tr r :
  runs (call gw p key proto req sessionKey ends) tr r -> ends <> [] ->
  (observe tr = [] /\ is_ok r = false) \/
  exists adm pins cands l, observe tr = OAdmitted adm :: pins ++ l /\ pinning pins /\
    (length cands <= attempts_max gw)%nat /\
    (sessionKey <> "" -> forall c, c ∈ cands -> pins = [OPinned (a_ID (cand_Account c))]) /\
    done_spec (ar_RequestID adm) adm cands l (is_ok r).
Proof.
  intros H Hne. destruct (call_obs _ _ _ _ _ _ _ _ _ H) as (l & Hl & He).
  assert (completed_as r l (observe tr)) as He'.
  { destruct r as [oc|e]; simpl; [destruct (oc_Stream oc); eauto|done]. }
  clear He. inversion Hl as [e|adm l' r' Hs]; subst; [by left; simpl in He'|].
  right. exists adm. inversion Hs as [pins e Hp|pins cands l0 r' Hp Hloop]; subst.
  - simpl in He'. exists pins, [], (ORelease (ar_RequestID adm) :: account_release adm).
    split_and!; [done|done|simpl; lia| |constructor]. intros _ c Hc. by apply elem_of_nil in Hc.
  - destruct (ended_prefix r (OAdmitted adm :: pins) l0 (observe tr)) as (l1 & E); [by eapply loop_live|done|].
    exists pins, (take (attempts_max gw) cands), l1. split_and!; [done| |by rewrite length_take; lia| |].
    + destruct Hp as [(account & -> & _)|[_ ->]]; [right; eauto|by left].
    + intros Hk c Hc%take_elem. destruct Hp as [(account & -> & Hall)|[Hst _]].
      * rewrite Forall_forall in Hall. by rewrite (Hall c Hc).
      * unfold sticky_key in Hst. by rewrite bool_decide_eq_false_2 in Hst.
    + rewrite E in He'. eapply loop_done; [exact Hloop|]. by apply (ended_app _ (OAdmitted adm :: pins)).
Qed.

(** ** Lists of observations *)

Definition is_final (o : Obs) : bool :=
  match o with OSettle _ _ | OPark _ | ORelease _ => true | _ => false end.
Definition finals (l : list Obs) : list Obs := List.filter is_final l.
Definition sends (l : list Obs) : list (Candidate * HTTPOutcome) :=
  omap (fun o => match o with OSent c h => Some (c, h) | _ => None end) l.

Lemma finals_app l1 l2 : finals (l1 ++ l2) = finals l1 ++ finals l2.
Proof. apply List.filter_app. Qed.
Lemma sends_app l1 l2 : sends (l1 ++ l2) = sends l1 ++ sends l2.
Proof. apply omap_app. Qed.
Lemma sends_elem c o l : OSent c o ∈ l <-> (c, o) ∈ sends l.
Proof.
  unfold sends. rewrite list_elem_of_omap. split.
  - intros H. by exists (OSent c o).
  - intros ([] & H & E); try done. by injection E as <- <-.
Qed.

Lemma tries_finals cmd n : finals (replicate n (OSettle cmd false)) = replicate n (OSettle cmd false) /\
  sends (replicate n (OSettle cmd false)) = [].
Proof. split; induction n as [|n IH]; cbn; [done|by f_equal|done|exact IH]. Qed.

Lemma finalization_finals id l : finalization id l -> finals l = l /\ sends l = [].
Proof.
  intros H. inversion H as [|cmd n Hc Hn|cmd n Hc Hn|]; subst; try done; rewrite finals_app, sends_app;
    destruct (tries_finals cmd n) as [-> ->]; done.
Qed.

Lemma pinning_quiet pins : pinning pins -> finals pins = [] /\ sends pins = [].
Proof. by intros [->|(account & ->)]. Qed.

Lemma account_release_quiet adm : finals (account_release adm) = [] /\ sends (account_release adm) = [].
Proof. unfold account_release. by destruct (ar_AccountLease adm). Qed.

Lemma upstream_release_quiet l adm : finals (upstream_release l adm) = [] /\ sends (upstream_release l adm) = [].
Proof. unfold upstream_release. by destruct (match ar_AccountLease adm with Some _ => _ | None => _ end). Qed.


Lemma won_finals id adm c l : won_spec id adm c l -> metered id (finals l) /\ exists o, sends l = [(c, o)] /\ may_have_executed o = true.
Proof.
  intros H. inversion H as [le h body fin Hm|le h body fin Hm]; subst; pose proof (finalization_finals _ _ (proj1 Hm)) as [Hf Hs];
    unfold finals, sends in *; simpl; rewrite ?List.filter_app, ?omap_app, Hf, Hs; simpl.
  - rewrite app_nil_r. split; [done|]. eauto.
  - destruct (upstream_release_quiet le adm) as [Hu1 Hu2], (account_release_quiet adm) as [Ha1 Ha2].
    unfold finals, sends in *. rewrite Hu1, Hu2, Ha1, Ha2. simpl. rewrite app_nil_r. eauto.
Qed.

(** The call was abandoned by its own caller while it was being sent. *)
Definition abandoned (o : HTTPOutcome) : bool := match o with DoFailed c => IsCanceled c | _ => false end.

Lemma failed_finals id adm c l f : attempt_spec id adm c l (Err f) -> finals l = [] /\
  (sends l = [] /\ harmless f = true \/ exists o, sends l = [(c, o)] /\
     (goes_on f = true -> may_have_executed o = false) /\
     (harmless f = true -> may_have_executed o = true -> abandoned o = true)).
Proof.
  intros H. inversion H as [f' Hf|le f' mid Hm Hf|le a cl o e Hr| |]; subst.
  - by split; [|left].
  - split; [by destruct Hm as [-> | ->]|]. left. split; [by destruct Hm as [-> | ->]|done].
  - split; [done|]. right. exists o. split; [done|]. destruct (receive_classified _ _ _ _ Hr) as ((_ & Hu) & Hgo & _).
    simpl. split.
    + intros [Hn Hy]%andb_true_iff. apply Hgo; [done|]. by apply negb_true_iff in Hn.
    + intros Hn Hmay. apply negb_true_iff in Hn. destruct o as [cause|]; simpl in *; [|by rewrite Hu in Hn].
      destruct (IsCanceled cause) eqn:Hc; [done|]. rewrite Hu in Hn; [done|]. split; [done|]. by intros ? [= <-].
Qed.

(** Past the pinning, nobody admits or pins. *)
Definition serving (o : Obs) : bool := match o with OAdmitted _ | OPinned _ => false | _ => true end.
Definition all_serving (l : list Obs) : Prop := Forall (fun o => serving o = true) l.

Lemma finalization_serving id l : finalization id l -> all_serving l.
Proof.
  intros H. inversion H; subst; repeat constructor; apply Forall_app; (split; [|by repeat constructor]);
    by apply Forall_replicate.
Qed.

Lemma account_release_serving adm : all_serving (account_release adm).
Proof. unfold account_release. destruct (ar_AccountLease adm); by repeat constructor. Qed.

Lemma won_serving id adm c l : won_spec id adm c l -> all_serving l.
Proof.
  intros H. inversion H as [le h body fin Hm|le h body fin Hm]; subst; (do 3 (constructor; [done|]));
    pose proof (finalization_serving _ _ (proj1 Hm)) as Hf; repeat (apply Forall_app; split); try done.
  - by repeat constructor.
  - unfold upstream_release. destruct (match ar_AccountLease adm with Some _ => _ | None => _ end); by repeat constructor.
  - apply account_release_serving.
Qed.

Lemma failed_serving id adm c l f : attempt_spec id adm c l (Err f) -> all_serving l.
Proof.
  intros H. inversion H as [|le f' mid Hm Hf| | |]; subst; [constructor| |by repeat constructor].
  constructor; [done|]. destruct Hm as [-> | ->]; by repeat constructor.
Qed.

Lemma done_serving id adm cands l ok : done_spec id adm cands l ok -> all_serving l.
Proof.
  induction 1 as [| |c cands l Hw|c cands l f Ha|c cands l f Ha|c cands l f l' ok Ha _ _ IH].
  - constructor; [done|]. apply account_release_serving.
  - done.
  - by eapply won_serving.
  - apply Forall_app. split; [by eapply failed_serving|]. constructor; [done|]. apply account_release_serving.
  - apply Forall_app. split; [by eapply failed_serving|]. by repeat constructor.
  - apply Forall_app. split; [by eapply failed_serving|done].
Qed.

Lemma done_finals id adm cands l ok : done_spec id adm cands l ok ->
  if ok then metered id (finals l) else finals l = [ORelease id] \/ finals l = [OPark id].
Proof.
  destruct (account_release_quiet adm) as [Hacc _].
  induction 1 as [| |c cands l Hw|c cands l f Ha|c cands l f Ha|c cands l f l' ok Ha _ _ IH]; [|done|..].
  - left. change (finals (ORelease id :: account_release adm)) with (ORelease id :: finals (account_release adm)). by rewrite Hacc.
  - by eapply won_finals.
  - apply failed_finals in Ha as [Ha _]. left. rewrite finals_app, Ha.
    change (finals (ORelease id :: account_release adm)) with (ORelease id :: finals (account_release adm)). by rewrite Hacc.
  - apply failed_finals in Ha as [Ha _]. right. by rewrite finals_app, Ha.
  - apply failed_finals in Ha as [Ha _]. by rewrite finals_app, Ha.
Qed.

(** [s] holds no replay: nothing follows a request the upstream may have executed. *)
Definition no_replay (s : list (Candidate * HTTPOutcome)) : Prop :=
  forall s1 c o s2, s = s1 ++ (c, o) :: s2 -> may_have_executed o = true -> s2 = [].

Definition forgivable (s : list (Candidate * HTTPOutcome)) : Prop :=
  Forall (fun x => may_have_executed x.2 = true -> abandoned x.2 = true) s.

Lemma no_replay_one c o : no_replay [(c, o)].
Proof. intros [|x s1] c' o' s2 E _; injection E; intros; subst; [done|]. by destruct s1. Qed.

Lemma no_replay_cons c o s : may_have_executed o = false -> no_replay s -> no_replay ((c, o) :: s).
Proof.
  intros Ho Hs [|x s1] c' o' s2 E Hm; injection E; intros; subst; [congruence|]. exact (Hs s1 c' o' s2 eq_refl Hm).
Qed.

Lemma metered_unreleased id id' l : metered id l -> ORelease id' ∉ l.
Proof.
  intros [H Hn] Hin. inversion H as [|cmd n Hc Hlt|cmd n Hc Hlt|]; subst; [done|..|by apply list_elem_of_singleton in Hin]; apply elem_of_app in Hin as [Hin|Hin];
    try (apply elem_of_replicate in Hin as [? _]; done); by apply list_elem_of_singleton in Hin.
Qed.

Lemma done_sends id adm cands l ok : done_spec id adm cands l ok ->
  (length (sends l) <= length cands)%nat /\ no_replay (sends l) /\
  (finals l = [ORelease id] -> forgivable (sends l)).
Proof.
  destruct (account_release_quiet adm) as [Hacc Hsacc].
  assert (Hnil : no_replay []) by (intros [|] ? ? ? [=]).
  assert (Hrel : sends (ORelease id :: account_release adm) = []) by exact Hsacc.
  induction 1 as [cands|c cands l ok H IH|c cands l Hw|c cands l f Ha Hf|c cands l f Ha Hf|c cands l f l' ok Ha Hgo H IH].
  - rewrite Hrel. split_and!; [simpl; lia|done|by constructor].
  - destruct IH as (? & ? & ?). split_and!; [simpl; lia|done|done].
  - apply won_finals in Hw as (Hm & o & -> & _). split_and!; [simpl; lia|apply no_replay_one|].
    intros E. by destruct Hm as [_ []].
  - apply failed_finals in Ha as (_ & Hs). rewrite sends_app, Hrel, app_nil_r.
    destruct Hs as [[-> _]|(o & -> & _ & Hab)]; (split_and!; [simpl; lia|by first [apply Hnil|apply no_replay_one]|]); [by constructor|].
    intros _. repeat constructor. simpl. by apply Hab.
  - apply failed_finals in Ha as (Hfin & Hs). rewrite sends_app, finals_app, Hfin. simpl. rewrite app_nil_r.
    destruct Hs as [[-> _]|(o & -> & _)]; (split_and!; [simpl; lia|by first [apply Hnil|apply no_replay_one]|done]).
  - destruct IH as (Hlen & Hno & Hfor). apply failed_finals in Ha as (Hfin & Hs). rewrite sends_app, finals_app, Hfin.
    destruct Hs as [[-> _]|(o & -> & Hnot & _)]; [split_and!; [simpl; lia|done|done]|].
    specialize (Hnot Hgo). split_and!; [simpl in *; lia|by apply no_replay_cons|].
    intros E. constructor; [simpl; congruence|by apply Hfor].
Qed.

(** ** Leases *)

(** Given back, explicitly or by the keeper that stops. *)
Definition returned (le : ConcurrencyLease) (l : list Obs) : Prop :=
  exists le', l_ID le' = l_ID le /\ (OReleasedLease le' ∈ l \/ exists ls, OStopped ls ∈ l /\ le' ∈ ls).

(** Each request is sent under a lease persisted and checked just before. *)
Definition sent_leased (l : list Obs) : Prop :=
  forall l1 c o l2, l = l1 ++ OSent c o :: l2 -> exists l0 le, l1 = l0 ++ [OPersisted c le; OChecked le].
Definition leases_returned (l : list Obs) : Prop :=
  forall l1 c le l2, l = l1 ++ OPersisted c le :: l2 -> returned le l2.
(** A keeper stops last, when the call is finalized. *)
Definition stops_last (id : string) (l : list Obs) : Prop :=
  forall l1 ls l2, l = l1 ++ OStopped ls :: l2 -> l2 = [] /\ metered id (finals l1).

Definition unleased (o : Obs) : bool := match o with OPersisted _ _ | OSent _ _ | OStopped _ => false | _ => true end.
Definition quiet (l : list Obs) : Prop := Forall (fun o => unleased o = true) l.

Lemma quiet_split l o l1 l2 : quiet l -> unleased o = false -> l <> l1 ++ o :: l2.
Proof. intros Hq Ho ->. apply Forall_app in Hq as [_ Hq]. apply Forall_cons in Hq as [Hq _]. congruence. Qed.

Lemma returned_mono le l l' : returned le l -> returned le (l ++ l').
Proof.
  intros (le' & Hid & H). exists le'. split; [done|].
  destruct H as [H|(ls & H & Hin)]; [left|right; exists ls]; rewrite elem_of_app; auto.
Qed.
Lemma returned_mono_r le l l' : returned le l' -> returned le (l ++ l').
Proof.
  intros (le' & Hid & H). exists le'. split; [done|].
  destruct H as [H|(ls & H & Hin)]; [left|right; exists ls]; rewrite elem_of_app; auto.
Qed.

(** What is between two attempts, or is an attempt. *)
Definition lease_block (l : list Obs) : Prop := sent_leased l /\ leases_returned l.

Lemma quiet_block l : quiet l -> lease_block l.
Proof. intros H. split; intros l1 c x l2 E; exfalso; [eapply (quiet_split l (OSent c x))|eapply (quiet_split l (OPersisted c x))]; done. Qed.

Lemma block_app l1 l2 : lease_block l1 -> lease_block l2 -> lease_block (l1 ++ l2).
Proof.
  intros [S1 R1] [S2 R2]. split; intros k1 c x k2 E; apply app_eq_inv in E as [(k & -> & E)|(k & -> & E)];
    try (destruct k as [|y k]; simpl in E; [|injection E as <- ->]).
  - destruct (S2 [] c x k2) as (l0 & le & E'); [done|]. by destruct l0.
  - by eapply S1.
  - destruct (S2 _ _ _ _ E) as (l0 & le & ->). exists (l1 ++ l0), le. by rewrite app_assoc.
  - by eapply (R2 []).
  - by apply returned_mono, (R1 k1 c).
  - by eapply R2.
Qed.

(** An attempt is a persisted lease, perhaps its use, and what gives it back. *)
Lemma attempt_block c le mid l : mid = [] \/ mid = [OChecked le] \/ (exists o, mid = [OChecked le; OSent c o]) ->
  Forall (fun o => match o with OPersisted _ _ | OSent _ _ => false | _ => true end = true) l -> returned le l ->
  lease_block (OPersisted c le :: mid ++ l).
Proof.
  intros Hmid Hl Hr.
  assert (Hno : forall x l1 l2, match x with OPersisted _ _ | OSent _ _ => false | _ => true end = false -> l <> l1 ++ x :: l2).
  { intros x l1 l2 Hx ->. apply Forall_app in Hl as [_ Hl]. apply Forall_cons in Hl as [Hl _]. congruence. }
  split; intros l1 c' x l2 E; (destruct l1 as [|y1 l1]; [simplify_eq/=|injection E as <- E]).
  - specialize (Hno (OSent c' x)).
    destruct Hmid as [->|[->|(o & ->)]]; simpl in E; [by destruct (Hno _ _ eq_refl E)| |];
      (destruct l1 as [|y2 l1]; [done|injection E as <- E]); [by destruct (Hno _ _ eq_refl E)|].
    destruct l1 as [|y3 l1]; [injection E as <- <- <-; by exists [], le|injection E as <- E].
    by destruct (Hno _ _ eq_refl E).
  - by apply returned_mono_r.
  - specialize (Hno (OPersisted c' x)).
    destruct Hmid as [->|[->|(o & ->)]]; simpl in E; [by destruct (Hno _ _ eq_refl E)| |];
      (destruct l1 as [|y2 l1]; [done|injection E as <- E]); [by destruct (Hno _ _ eq_refl E)|].
    destruct l1 as [|y3 l1]; [done|injection E as <- E]. by destruct (Hno _ _ eq_refl E).
Qed.

(** The observations that neither persist nor send. *)
Definition after_send (o : Obs) : bool := match o with OPersisted _ _ | OSent _ _ => false | _ => true end.

Lemma finalization_quiet id l : finalization id l -> quiet l.
Proof.
  intros H. inversion H; subst; try (by repeat constructor); (apply Forall_app; split; [|by repeat constructor]);
    by apply Forall_replicate.
Qed.
Lemma quiet_after l : quiet l -> Forall (fun o => after_send o = true) l.
Proof. intros H. eapply Forall_impl; [exact H|]. by intros []. Qed.
Lemma quiet_account_release adm : quiet (account_release adm).
Proof. unfold account_release. destruct (ar_AccountLease adm); by repeat constructor. Qed.
Lemma quiet_upstream_release le adm : quiet (upstream_release le adm).
Proof. unfold upstream_release. destruct (match ar_AccountLease adm with Some _ => _ | None => _ end); by repeat constructor. Qed.

Lemma stops_last_quiet id l : quiet l -> stops_last id l.
Proof. intros H l1 ls l2 E. exfalso. by eapply (quiet_split l (OStopped ls)). Qed.

Lemma won_returned le adm fin : returned le (upstream_release le adm ++ fin ++ account_release adm).
Proof.
  unfold upstream_release, account_release. destruct (ar_AccountLease adm) as [a|].
  - destruct (String.eqb_spec (l_ID le) (l_ID a)) as [He|].
    + exists a. split; [done|]. left. rewrite !elem_of_app. right. right. by left.
    + exists le. split; [done|]. left. by left.
  - exists le. split; [done|]. left. by left.
Qed.

Lemma won_block id adm c l : won_spec id adm c l -> lease_block l.
Proof.
  intros H. inversion H as [le h body fin Hm|le h body fin Hm]; subst;
    pose proof (quiet_after _ (finalization_quiet _ _ (proj1 Hm))) as Hq;
    apply (attempt_block c le [OChecked le; OSent c (DoResponse 200 h body)]); try (right; right; by eexists).
  - apply Forall_app. split; [done|by repeat constructor].
  - exists le. split; [done|]. right. exists (leases_of le adm). split; [rewrite elem_of_app; right; by left|by apply list_elem_of_here].
  - repeat (apply Forall_app; split); [|done|]; apply quiet_after; [apply quiet_upstream_release|apply quiet_account_release].
  - apply won_returned.
Qed.

Lemma failed_block id adm c l f : attempt_spec id adm c l (Err f) -> lease_block l.
Proof.
  intros H. inversion H as [|le f' mid Hm Hf|le a cl o e Hr| |]; subst; [apply quiet_block; constructor|..].
  - apply attempt_block; [destruct Hm; auto|by repeat constructor|]. exists le. split; [done|]. left. by left.
  - apply (attempt_block c le [OChecked le; OSent c o] [OReleasedLease le]); [right; right; by eexists|by repeat constructor|].
    exists le. split; [done|]. left. by left.
Qed.

Lemma done_block id adm cands l ok : done_spec id adm cands l ok -> lease_block l.
Proof.
  assert (Hrel : lease_block (ORelease id :: account_release adm)).
  { apply quiet_block. constructor; [done|]. apply quiet_account_release. }
  induction 1; [done|done|by eapply won_block|..]; apply block_app; try done; try (by eapply failed_block).
  apply quiet_block. by repeat constructor.
Qed.

Lemma failed_stops id adm c l f : attempt_spec id adm c l (Err f) ->
  forall l1 ls l2, l <> l1 ++ OStopped ls :: l2.
Proof.
  intros H l1 ls l2 E. assert (OStopped ls ∈ l) as Hin by (rewrite E, elem_of_app; right; by left).
  assert (forallb (fun o => match o with OStopped _ => false | _ => true end) l = true) as Hno.
  { inversion H as [|le f' mid Hm Hf| | |]; [done| |done]. by destruct Hm as [-> | ->]. }
  by eapply forallb_forall in Hno; [|by apply list_elem_of_In].
Qed.

Lemma won_stops id adm c l : won_spec id adm c l -> stops_last id l.
Proof.
  intros H. inversion H as [le h body fin Hm|le h body fin Hm]; subst; intros l1 ls l2 E;
    (do 3 (destruct l1 as [|? l1]; [done|injection E as <- E])); pose proof (finalization_quiet _ _ (proj1 Hm)) as Hq.
  - apply app_eq_inv in E as [(k & -> & E)|(k & -> & E)].
    + destruct k as [|y k]; [|exfalso; injection E as <- _; by eapply (quiet_split _ (OStopped ls)); [exact Hq|..]].
      injection E as _ <-. split; [done|]. unfold finals. simpl.
      fold (finals l1). rewrite app_nil_r in Hm. by rewrite (proj1 (finalization_finals _ _ (proj1 Hm))).
    + destruct k as [|y k]; [|by destruct k]. injection E as _ <-. rewrite app_nil_r. split; [done|].
      unfold finals. simpl. fold (finals fin). by rewrite (proj1 (finalization_finals _ _ (proj1 Hm))).
  - exfalso. eapply (quiet_split _ (OStopped ls)); [|done|exact E].
    repeat (apply Forall_app; split); [apply quiet_upstream_release|done|apply quiet_account_release].
Qed.

Lemma done_stops id adm cands l ok : done_spec id adm cands l ok -> stops_last id l.
Proof.
  assert (Happ : forall l l', finals l = [] -> (forall l1 ls l2, l <> l1 ++ OStopped ls :: l2) -> stops_last id l' ->
            stops_last id (l ++ l')).
  { intros k k' Hf Hno Hs l1 ls l2 E. apply app_eq_inv in E as [(m & -> & E)|(m & -> & E)].
    - destruct m as [|y m]; [|injection E as <- E; by edestruct Hno].
      rewrite app_nil_r in Hf. destruct (Hs [] ls l2) as [-> Hm]; [done|]. split; [done|]. by rewrite Hf.
    - destruct (Hs _ _ _ E) as [-> Hm]. split; [done|]. by rewrite finals_app, Hf. }
  assert (Hq : quiet (ORelease id :: account_release adm)) by (constructor; [done|apply quiet_account_release]).
  induction 1 as [| |c cands l Hw|c cands l f Ha|c cands l f Ha|c cands l f l' ok Ha _ _ IH]; [by apply stops_last_quiet|done| |..].
  - by eapply won_stops.
  - apply Happ; [by eapply failed_finals|by eapply failed_stops|by apply stops_last_quiet].
  - apply Happ; [by eapply failed_finals|by eapply failed_stops|]. apply stops_last_quiet. by repeat constructor.
  - apply Happ; [by eapply failed_finals|by eapply failed_stops|done].
Qed.

Lemma account_returned adm a l : ar_AccountLease adm = Some a -> returned a (l ++ account_release adm).
Proof.
  intros Ha. exists a. split; [done|]. left. unfold account_release. rewrite Ha, elem_of_app. right. by left.
Qed.

Lemma done_account id adm cands l ok a : done_spec id adm cands l ok -> ar_AccountLease adm = Some a ->
  returned a l \/ (finals l = [OPark id] /\ ok = false).
Proof.
  intros H Ha. induction H as [cands| |c cands l Hw|c cands l f Hf|c cands l f Hf|c cands l f l' ok Hf _ _ IH].
  - left. by apply (account_returned adm a [ORelease id]).
  - done.
  - left. inversion Hw as [le h body fin Hm|le h body fin Hm]; subst.
    + exists a. split; [done|]. right. exists (leases_of le adm). split.
      * do 3 apply list_elem_of_further. rewrite elem_of_app. right. by left.
      * unfold leases_of. rewrite Ha. right. by left.
    + apply (returned_mono_r a [_; _; _]). rewrite app_assoc. by apply account_returned.
  - left. apply returned_mono_r. by apply (account_returned adm a [ORelease id]).
  - right. apply failed_finals in Hf as [Hf _]. by rewrite finals_app, Hf.
  - apply failed_finals in Hf as [Hf _]. destruct IH as [IH|[Hq ->]]; [left; by apply returned_mono_r|right].
    by rewrite finals_app, Hf.
Qed.

Lemma done_sent_in id adm cands l ok c o : done_spec id adm cands l ok -> (c, o) ∈ sends l -> c ∈ cands.
Proof.
  destruct (account_release_quiet adm) as [_ Hacc].
  assert (Hrel : sends (ORelease id :: account_release adm) = []) by exact Hacc.
  assert (Hfail : forall c' k f, attempt_spec id adm c' k (Err f) -> (c, o) ∈ sends k -> c = c').
  { intros c' k f Ha Hin. apply failed_finals in Ha as (_ & [[Hs _]|(o' & Hs & _)]); rewrite Hs in Hin;
      [by apply elem_of_nil in Hin|apply list_elem_of_singleton in Hin; congruence]. }
  induction 1 as [| |c' cands l Hw|c' cands l f Ha|c' cands l f Ha|c' cands l f l' ok Ha _ _ IH];
    rewrite ?sends_app, ?Hrel, ?app_nil_r, ?elem_of_cons; intros Hin; eauto.
  - by apply elem_of_nil in Hin.
  - apply won_finals in Hw as (_ & o' & Hs & _). rewrite Hs in Hin. apply list_elem_of_singleton in Hin. left. congruence.
  - apply elem_of_app in Hin as [Hin|Hin]; eauto.
Qed.
