(* ===== verification/GatewayProps.v ===== *)
(** * GatewayProps: what every execution of the gateway does

    Properties of all the traces of [Gateway]: for any answers of the catalogue,
    the store, routing, the session binder, the lease keeper and the upstream. *)

From Stdlib Require Import ZArith Lia Bool.
From stdpp Require Import base gmap strings list.
From S2P Require Import Prelude Domain Money Calendar Policy Pricing WalletRules Principal Entitlements Tables.
From S2P Require Import RequestStore QuotaStore WalletStore LedgerStore LeaseStore Admission.
From S2P Require Import Sessions Headers Catalog Routing Dispatch Gateway GatewayTraces.

Local Open Scope Z_scope.
Local Open Scope go_scope.
Local Open Scope prog_scope.

(** ** A concrete world *)

Definition demo_candidate (account : string) : Candidate :=
  mkCandidate (demo_route "r1" "m2" "d1" 1) (demo_deployment "d1") (demo_account account 2).
Definition demo_lease (id : string) : ConcurrencyLease :=
  mkLease id LeaseScopeUpstreamAccount "a" "req" "me" 1 LeaseHeld 0 (10 * minute) None.
Definition demo_admission : AdmissionResult :=
  mkResult "req" 20000 0 (fun _ => None) 512 1000 "pol" "pv" (Some (demo_lease "la")) (Some ChargeSourcePlan) "" "".
Definition demo_adapter : Adapter :=
  mkAdapter (mkCaps true true true) (mkInclusion true true false) (fun _ => Ok "payload") (fun k => [("Authorization", "Bearer " +:+ k)])
    (fun b => Ok (mkNonStream b (mkBuckets (Some 100) None None (Some 20) None) "" true "up-1" 8)).
Definition demo_gateway : Gateway :=
  mkGateway 0 LifecycleGateObserve false true
    (fun p => if bool_decide (p = ProtocolOpenAIChat) then Some demo_adapter else None)
    (fun _ => Some (mkURL "https" "up" None))
    (fun _ => [demo_model "m1" []; demo_model "m2" ["latest"]]).
Definition demo_entitlement : Entitlement :=
  mkEntitlement "ent" "acc" SourceSubscription "sub" ["m2"] "pol" 0 0 None 1 false EntitlementActive 0 0.
Definition refused : Cause := mkCause EForeign false false false true.

(** Account [a] refuses connections; everything else answers, and a stream
    carries its usage and its end marker. *)
Definition demo_oracle (past : list event) (e : effect) : answer e :=
  match e return answer e with
  | SnapshotCurrent => Ok demo_snapshot
  | ClockNow => 0
  | ResolveEntitlement _ _ _ => Ok demo_entitlement
  | GetPolicyVersion _ => Ok gate_policy
  | LatestPriceVersion _ kind _ =>
      if bool_decide (kind = PriceUpstreamCost) then Err (NewError CodeNotFound) else Ok (Ok sample_price)
  | GetWalletByAccount _ _ => Err (NewError CodeNotFound)
  | CallAdmit _ => Ok demo_admission
  | CallAdmitWallet _ => Err (NewError CodeQuotaExceeded)
  | RouteCandidates _ _ _ => Ok [demo_candidate "a"; demo_candidate "b"]
  | SessionResolve _ _ => Ok "b"
  | SessionBind _ _ _ | SessionMigrate _ _ _ => Ok tt
  | NewUUID => "uuid"
  | PersistAttempt i => Ok (demo_lease ("l-" +:+ a_ID (cand_Account (ai_Candidate i))))
  | CheckLeaseNow _ | ValidateURL _ => Ok tt
  | ResolveSecret _ => Ok "secret"
  | SetRequestStatus _ _ => Ok tt
  | ClientDo c _ => if String.eqb (a_ID (cand_Account c)) "a" then DoFailed refused
                    else DoResponse 200 (fun _ => "") (mkBody "body" None)
  | KeeperErr => None
  | TapRead => mkTap true true (mkBuckets (Some 100) None None (Some 20) None) 40
  | SettleTx _ _ => Ok tt
  | Backoff => false
  | _ => tt
  end.

Definition demo_call (stream : bool) (sessionKey : string) : prog (res Outcome) :=
  call demo_gateway (Some (mkPrincipal PrincipalKayaJWT "acc" "" "u" "")) None ProtocolOpenAIChat
    (mkChat "latest" [] stream (Some 512) [] "" None None) sessionKey [EndCompleted; EndClientGone].
Definition demo_run (stream : bool) (sessionKey : string) : list event * res Outcome :=
  exec demo_oracle (demo_call stream sessionKey) [].

Lemma demo_runs stream sessionKey :
  runs (demo_call stream sessionKey) (demo_run stream sessionKey).1 (demo_run stream sessionKey).2.
Proof. apply (exec_runs demo_oracle _ []). apply surjective_pairing. Qed.

Definition demo_settle : SettleCommand :=
  mkSettle "req" (mkUsage "req" "uuid" UsageReported (mkBuckets (Some 100) None None (Some 20) None) 0) 600
    None None None None 0.

(** Refused by [a], streamed by [b], settled at the end, then released. *)
Lemma demo_observed : observe (demo_run true "").1 =
  [OAdmitted demo_admission;
   OPersisted (demo_candidate "a") (demo_lease "l-a"); OChecked (demo_lease "l-a");
   OSent (demo_candidate "a") (DoFailed refused); OReleasedLease (demo_lease "l-a");
   OPersisted (demo_candidate "b") (demo_lease "l-b"); OChecked (demo_lease "l-b");
   OSent (demo_candidate "b") (DoResponse 200 (fun _ => "") (mkBody "body" None));
   OSettle demo_settle true; OStopped [demo_lease "l-b"; demo_lease "la"]].
Proof. vm_compute. reflexivity. Qed.

(** ** The properties *)

(** C3: FINALIZED ONCE. Whatever the other components answer, a call whose stream
    is ended at least once either was refused before admission, or finalizes
    the request it admitted, and only that one, exactly once: with an outcome
    it is settled (within three transactions) or parked for reconciliation,
    never just released; with an error it is released or parked. Ending a
    stream again, in whatever way, does nothing. *)
Theorem call_finalized_once (gw : Gateway) (p : option Principal) (key : option APIKey) (proto : Protocol)
    (req : ChatRequest) (sessionKey : string) (ends : list StreamEnd) (tr : list event) (r : res Outcome)
    (Hrun : runs (call gw p key proto req sessionKey ends) tr r) (Hends : ends <> []) :
  (observe tr = [] /\ is_ok r = false) \/
  exists adm l, observe tr = OAdmitted adm :: l /\ (forall adm', OAdmitted adm' ∉ l) /\
    if is_ok r then metered (ar_RequestID adm) (finals l)
    else finals l = [ORelease (ar_RequestID adm)] \/ finals l = [OPark (ar_RequestID adm)].
Proof.
  destruct (call_shape _ _ _ _ _ _ _ _ _ Hrun Hends) as [H|(adm & pins & cands & l & -> & Hp & _ & _ & Hd)]; [by left|].
  right. exists adm, (pins ++ l). split; [done|]. destruct (pinning_quiet _ Hp) as [Hq _]. split.
  - intros adm' [Hin|Hin]%elem_of_app; [by destruct Hp as [->|(account & ->)]; [apply elem_of_nil in Hin|apply list_elem_of_singleton in Hin]|].
    pose proof (done_serving _ _ _ _ _ Hd) as Hs. unfold all_serving in Hs. rewrite Forall_forall in Hs. by specialize (Hs _ Hin).
  - rewrite finals_app, Hq. by apply done_finals in Hd.
Qed.

Lemma call_finalized_once_witness : exists l, observe (demo_run true "").1 = OAdmitted demo_admission :: l /\
  metered "req" (finals l).
Proof.
  destruct (call_finalized_once _ _ _ _ _ _ _ _ _ (demo_runs true "")) as [[H _]|(adm & l & H & _ & Hf)]; [done| |].
  - rewrite demo_observed in H. discriminate H.
  - assert (is_ok (demo_run true "").2 = true) as Hok by (vm_compute; reflexivity). rewrite Hok in Hf.
    exists l. rewrite H. rewrite demo_observed in H. injection H as <- _. split; [done|exact Hf].
Defined.

(** C4: NEVER REPLAYED. A call sends at most [MaxAttempts] requests upstream (three
    unless configured), and once the upstream may have executed one of them
    nothing more is sent, whatever else fails. It gives the reservation up for
    free only if no request sent may have been executed, or the caller itself
    abandoned the one that may. *)
Theorem never_replayed (gw : Gateway) (p : option Principal) (key : option APIKey) (proto : Protocol)
    (req : ChatRequest) (sessionKey : string) (ends : list StreamEnd) (tr : list event) (r : res Outcome)
    (Hrun : runs (call gw p key proto req sessionKey ends) tr r) (Hends : ends <> []) :
  let s := sends (observe tr) in
  (length s <= attempts_max gw)%nat /\
  (forall s1 c o s2, s = s1 ++ (c, o) :: s2 -> may_have_executed o = true -> s2 = []) /\
  (forall id, ORelease id ∈ observe tr ->
     Forall (fun x => may_have_executed x.2 = true -> abandoned x.2 = true) s).
Proof.
  intros s. destruct (call_shape _ _ _ _ _ _ _ _ _ Hrun Hends) as [[H _]|(adm & pins & cands & l & H & Hp & Hlen & _ & Hd)].
  - unfold s. rewrite H. split_and!; [simpl; lia|by intros [|]|intros id Hin; by apply elem_of_nil in Hin].
  - destruct (done_sends _ _ _ _ _ Hd) as (Hl & Hno & Hfor). destruct (pinning_quiet _ Hp) as [Hq Hqs].
    assert (s = sends l) as -> by (unfold s; rewrite H; change (sends (pins ++ l) = sends l); by rewrite sends_app, Hqs).
    split_and!; [lia|done|]. intros id Hin. apply Hfor. rewrite H in Hin.
    assert (ORelease id ∈ finals l) as Hf.
    { apply elem_of_cons in Hin as [?|[Hin|Hin]%elem_of_app]; [done| |].
      - destruct Hp as [->|(account & ->)]; [by apply elem_of_nil in Hin|by apply list_elem_of_singleton in Hin].
      - apply list_elem_of_In, filter_In. by rewrite <- list_elem_of_In. }
    apply done_finals in Hd. destruct (is_ok r); [by apply (metered_unreleased _ id) in Hd|].
    destruct Hd as [Hd|Hd]; rewrite Hd in Hf; [done|by apply list_elem_of_singleton in Hf].
Qed.

Lemma never_replayed_witness : sends (observe (demo_run true "").1)
    = [(demo_candidate "a", DoFailed refused); (demo_candidate "b", DoResponse 200 (fun _ => "") (mkBody "body" None))] /\
  (length (sends (observe (demo_run true "").1)) <= 3)%nat.
Proof.
  split; [rewrite demo_observed; reflexivity|].
  apply (proj1 (never_replayed _ _ _ _ _ _ _ _ _ (demo_runs true "") ltac:(done))).
Defined.

(** Every request sent upstream is sent under a concurrency lease
    persisted for that candidate and checked immediately before; every
    persisted lease is given back before the call ends, after its use; a
    keeper releases the leases of a stream only once the request is finalized,
    as the last thing the call does; and the billing account's lease is given
    back too, unless the call parked an unknown execution: there it is left to
    expire. *)
Theorem sent_only_leased (gw : Gateway) (p : option Principal) (key : option APIKey) (proto : Protocol)
    (req : ChatRequest) (sessionKey : string) (ends : list StreamEnd) (tr : list event) (r : res Outcome)
    (Hrun : runs (call gw p key proto req sessionKey ends) tr r) (Hends : ends <> []) :
  (forall l1 c o l2, observe tr = l1 ++ OSent c o :: l2 ->
     exists l0 le, l1 = l0 ++ [OPersisted c le; OChecked le]) /\
  (forall l1 c le l2, observe tr = l1 ++ OPersisted c le :: l2 -> returned le l2) /\
  (forall l1 ls l2, observe tr = l1 ++ OStopped ls :: l2 -> l2 = [] /\ exists id, metered id (finals l1)) /\
  (forall adm a, OAdmitted adm ∈ observe tr -> ar_AccountLease adm = Some a ->
     returned a (observe tr) \/ (finals (observe tr) = [OPark (ar_RequestID adm)] /\ is_ok r = false)).
Proof.
  destruct (call_shape _ _ _ _ _ _ _ _ _ Hrun Hends) as [[H _]|(adm & pins & cands & l & H & Hp & _ & _ & Hd)]; rewrite H.
  { split_and!; [by intros [|]..|intros ? ? Hin; by apply elem_of_nil in Hin]. }
  assert (Hpq : quiet (OAdmitted adm :: pins)) by by destruct Hp as [->|(account & ->)]; repeat constructor.
  destruct (block_app _ _ (quiet_block _ Hpq) (done_block _ _ _ _ _ Hd)) as [Hs Hr].
  destruct (pinning_quiet _ Hp) as [Hq _]. split_and!; [exact Hs|exact Hr| |].
  - intros l1 ls l2 E. change (OAdmitted adm :: pins ++ l) with ((OAdmitted adm :: pins) ++ l) in E.
    apply app_eq_inv in E as [(k & E' & E)|(k & -> & E)].
    + destruct k as [|y k]; [|injection E as <- _; exfalso; by eapply (quiet_split _ (OStopped ls)); [exact Hpq|..]].
      destruct (done_stops _ _ _ _ _ Hd [] ls l2 (eq_sym E)) as [-> Hm]. split; [done|].
      exfalso. destruct Hm as [Hm _]. inversion Hm as [|cmd n Hc Hn En|cmd n Hc Hn En|]; by destruct n.
    + destruct (done_stops _ _ _ _ _ Hd _ _ _ E) as [-> Hm]. split; [done|]. exists (ar_RequestID adm).
      change (metered (ar_RequestID adm) (finals ((OAdmitted adm :: pins) ++ k))). rewrite finals_app.
      change (finals (OAdmitted adm :: pins)) with (finals pins). by rewrite Hq.
  - intros adm' a Hin Ha. assert (adm' = adm) as ->.
    { apply elem_of_cons in Hin as [[= ->]|[Hin|Hin]%elem_of_app]; [done| |].
      - destruct Hp as [->|(account & ->)]; [by apply elem_of_nil in Hin|by apply list_elem_of_singleton in Hin].
      - pose proof (done_serving _ _ _ _ _ Hd) as Hsv. unfold all_serving in Hsv. rewrite Forall_forall in Hsv.
        by specialize (Hsv _ Hin). }
    change (finals (OAdmitted adm :: pins ++ l)) with (finals (pins ++ l)). rewrite finals_app, Hq.
    destruct (done_account _ _ _ _ _ _ Hd Ha) as [Hret|Hpark]; [left|by right].
    by apply (returned_mono_r a (OAdmitted adm :: pins)).
Qed.

Lemma sent_only_leased_witness : exists l0 le,
  take 7 (observe (demo_run true "").1) = l0 ++ [OPersisted (demo_candidate "b") le; OChecked le].
Proof.
  destruct (sent_only_leased _ _ _ _ _ _ _ _ _ (demo_runs true "")) as [H _]; [done|].
  rewrite demo_observed in H |- *. eapply H. reflexivity.
Defined.

(** A call with a session key pins one account, before anything is
    sent, the one the binder resolved, bound or migrated the session to, and
    sends to no other: neither failover nor a stale candidate list carries a
    session to another account. *)
Theorem sticky_calls_stay (gw : Gateway) (p : option Principal) (key : option APIKey) (proto : Protocol)
    (req : ChatRequest) (sessionKey : string) (ends : list StreamEnd) (tr : list event) (r : res Outcome)
    (Hrun : runs (call gw p key proto req sessionKey ends) tr r) (Hends : ends <> []) (Hkey : sessionKey <> "") :
  forall l1 c o l2, observe tr = l1 ++ OSent c o :: l2 ->
    OPinned (a_ID (cand_Account c)) ∈ l1 /\
    forall account, OPinned account ∈ observe tr -> account = a_ID (cand_Account c).
Proof.
  intros l1 c o l2 E.
  destruct (call_shape _ _ _ _ _ _ _ _ _ Hrun Hends) as [[H _]|(adm & pins & cands & l & H & Hp & _ & Hpin & Hd)];
    [rewrite H in E; by destruct l1|].
  assert (pins = [OPinned (a_ID (cand_Account c))]) as ->.
  { apply Hpin; [done|]. eapply done_sent_in; [exact Hd|]. assert (OSent c o ∈ OAdmitted adm :: pins ++ l) as Hin.
    { rewrite <- H, E, elem_of_app. right. by left. }
    apply elem_of_cons in Hin as [?|[Hin|Hin]%elem_of_app]; [done| |by apply sends_elem in Hin].
    destruct Hp as [->|(account & ->)]; [by apply elem_of_nil in Hin|by apply list_elem_of_singleton in Hin]. }
  rewrite H in E. split.
  - destruct l1 as [|y1 l1]; [done|]. injection E as <- E. destruct l1 as [|y2 l1]; [done|]. injection E as <- E.
    right. by left.
  - intros account Hin. rewrite H in Hin. apply elem_of_cons in Hin as [?|[Hin|Hin]%elem_of_app]; [done| |].
    + apply list_elem_of_singleton in Hin. by injection Hin.
    + pose proof (done_serving _ _ _ _ _ Hd) as Hsv. unfold all_serving in Hsv. rewrite Forall_forall in Hsv. by specialize (Hsv _ Hin).
Qed.

Lemma sticky_calls_stay_witness : OPinned "b" ∈ take 4 (observe (demo_run true "k").1).
Proof.
  apply (sticky_calls_stay _ _ _ _ _ _ _ _ _ (demo_runs true "k") ltac:(done) ltac:(done)
           (take 4 (observe (demo_run true "k").1)) (demo_candidate "b")
           (DoResponse 200 (fun _ => "") (mkBody "body" None)) (drop 5 (observe (demo_run true "k").1))).
  vm_compute. reflexivity.
Defined.

(** ** Admission *)

Definition admit_command (request : Request) (ent : Entitlement) (policy : Policy) (price : PriceVersion) (m : Model)
    (req : ChatRequest) : AdmitCommand :=
  mkAdmit request ent policy price m (EstimateInputTokens req) (cr_MaxTokens req) [] zero_time.
Definition wallet_command (request : Request) (ent : Entitlement) (policy : Policy) (price : PriceVersion) (wallet : string)
    (m : Model) (req : ChatRequest) (now : instant) : AdmitWalletCommand :=
  mkAdmitWallet request ent policy price wallet m (EstimateInputTokens req) (cr_MaxTokens req) [] now.

(** The wallet is asked for [adm] at the current money price. *)
Definition wallet_asked (request : Request) (ent : Entitlement) (policy : Policy) (m : Model) (req : ChatRequest)
    (now : instant) (adm : AdmissionResult) (tr : list event) : Prop :=
  exists price wallet,
    Ev (LatestPriceVersion (m_ID m) PriceSaleMoney now) (Ok (Ok price)) ∈ tr /\
    Ev (GetWalletByAccount (r_BillingAccountID request) (pv_Currency price)) (Ok wallet) ∈ tr /\
    Ev (CallAdmitWallet (wallet_command request ent policy price wallet m req now)) (Ok adm) ∈ tr.

Lemma wallet_asked_mono request ent policy m req now adm tr tr' :
  wallet_asked request ent policy m req now adm tr -> tr ⊆ tr' -> wallet_asked request ent policy m req now adm tr'.
Proof. intros (price & w & H1 & H2 & H3) Hs. exists price, w. split_and!; by apply Hs. Qed.

Lemma priced_row_Ok r price : priced_row r = Ok price -> r = Ok (Ok price).
Proof. destruct r as [x|e]; simpl; [by intros ->|case_bool_decide; done]. Qed.

Lemma admitWallet_asks request ent policy m req now tr adm price :
  runs (admitWallet request ent policy m req now) tr (Ok (adm, price)) ->
  wallet_asked request ent policy m req now adm tr.
Proof.
  unfold admitWallet. intros H. run_effect H as row. destruct (priced_row row) as [pr|e] eqn:Hp; [|by destruct H as [_ ?]].
  apply priced_row_Ok in Hp as ->. run_effect H as wallet. destruct wallet as [w|e]; [|by destruct H as [_ ?]].
  run_effect H as a. destruct H as [-> H]. destruct a as [a|e]; [|done]. injection H as -> ->.
  exists pr, w. unfold wallet_command. set_solver.
Qed.

(** How [admission] can have been granted. *)
Definition plan_asked (request : Request) (ent : Entitlement) (policy : Policy) (m : Model) (req : ChatRequest)
    (now : instant) (answer : res AdmissionResult) (tr : list event) : Prop :=
  exists price, Ev (LatestPriceVersion (m_ID m) PriceSaleCredit now) (Ok (Ok price)) ∈ tr /\
    Ev (CallAdmit (admit_command request ent policy price m req)) answer ∈ tr.

(** Who paid for [adm], and why. *)
Definition asked (pr : Principal) (key : option APIKey) (ent : Entitlement) (policy : Policy) (m : Model) (req : ChatRequest)
    (now : instant) (adm : AdmissionResult) (tr : list event) : Prop :=
  let request := newRequest pr key ent m in
  (e_SourceType ent <> SourcePAYG /\ plan_asked request ent policy m req now (Ok adm) tr) \/
  (wallet_asked request ent policy m req now adm tr /\
   (e_SourceType ent = SourcePAYG \/
    (p_Overage policy = OverageAllowOverage /\
     exists e, CodeOf e = CodeQuotaExceeded /\ plan_asked request ent policy m req now (Err e) tr))).

Lemma admission_asks p key ent policy m req now tr adm price :
  runs (admission p key ent policy m req now) tr (Ok (adm, price)) ->
  asked p key ent policy m req now adm tr.
Proof.
  unfold admission. intros H. case_bool_decide as Hpayg; [right; split; [by eapply admitWallet_asks|by left]|].
  run_first H as t1 pr t2 Hpr H.
  destruct pr as [pr|e]; [|by destruct H as [_ ?]].
  assert (Ev (LatestPriceVersion (m_ID m) PriceSaleCredit now) (Ok (Ok pr)) ∈ t1) as Hpriced.
  { unfold pinCreditPrice in Hpr. run_effect Hpr as row. destruct Hpr as [-> Hpr]. symmetry in Hpr.
    apply priced_row_Ok in Hpr as ->. set_solver. }
  run_effect H as a. destruct a as [a|e].
  { destruct H as [-> H]. injection H as -> ->. left. split; [done|]. exists pr. unfold admit_command. set_solver. }
  destruct (negb _ || negb _) eqn:Hover; [by destruct H as [_ ?]|].
  apply orb_false_iff in Hover as [Ho%negb_false_iff%bool_decide_eq_true He%negb_false_iff%bool_decide_eq_true].
  run_first H as t3 w t4 Hw H. destruct H as [-> H]. destruct w as [[a' pr']|e']; [|done]. injection H as -> ->.
  right. split.
  - eapply wallet_asked_mono; [by eapply admitWallet_asks|]. set_solver.
  - right. split; [done|]. exists e. split; [done|]. exists pr. unfold admit_command. set_solver.
Qed.

Lemma observe_elem o tr : o ∈ observe tr <-> exists ev, ev ∈ tr /\ obs ev = Some o.
Proof. apply list_elem_of_omap. Qed.

Lemma asked_mono pr key ent policy m req now adm tr tr' :
  asked pr key ent policy m req now adm tr -> tr ⊆ tr' -> asked pr key ent policy m req now adm tr'.
Proof.
  intros [(Hs & price & H1 & H2)|(Hw & H)] Hsub; [left; split; [done|]; exists price; split; by apply Hsub|right].
  split; [by eapply wallet_asked_mono|]. destruct H as [H|(Ho & e & He & price & H1 & H2)]; [by left|right].
  split; [done|]. exists e. split; [done|]. exists price. split; by apply Hsub.
Qed.

Lemma gate_passed gw m tr r : runs (lifecycle_gate gw m) tr r ->
  observe tr = [] /\ (r = Ok tt -> (lifecycleGateDecision (m_Lifecycle m) (gw_LifecycleGate gw)).2 = false).
Proof.
  unfold lifecycle_gate. intros H. destruct (lifecycleGateDecision _ _) as [[] blocked] eqn:Hd.
  - run_effect H as u. destruct H as [-> ->]. split; [done|]. by destruct blocked.
  - destruct H as [-> ->]. split; [done|]. intros _.
    unfold lifecycleGateDecision in Hd. destruct (m_Lifecycle m); by injection Hd.
Qed.

Lemma attempt_serving id adm c l r : attempt_spec id adm c l r -> all_serving l.
Proof.
  intros H. destruct r as [oc|f]; [|by eapply failed_serving].
  inversion H as [| | |le h body oc' b Hl _|le h body oc' fin Hs Hm _]; subst; [by repeat constructor|].
  apply (won_serving id adm c). by constructor.
Qed.

Lemma serve_serving n sticky adm l r : serve_spec n sticky adm l r -> forall adm', OAdmitted adm' ∉ l.
Proof.
  assert (Hloop : forall id cands l r, loop_spec id adm cands l r -> all_serving l).
  { induction 1; repeat first [apply Forall_app; split|constructor]; try done;
      first [by eapply attempt_serving|by apply account_release_serving]. }
  assert (Hno : forall k adm', all_serving k -> OAdmitted adm' ∉ k).
  { intros k adm' Hk Hin. unfold all_serving in Hk. rewrite Forall_forall in Hk. by specialize (Hk _ Hin). }
  intros H adm' Hin. inversion H as [pins e Hp|pins cands k r' Hp Hl]; subst; apply elem_of_app in Hin as [Hin|Hin].
  - destruct Hp as [->|(account & ->)]; [by apply elem_of_nil in Hin|by apply list_elem_of_singleton in Hin].
  - eapply Hno; [|exact Hin]. constructor; [done|]. apply account_release_serving.
  - destruct Hp as [(account & -> & _)|[_ ->]]; [by apply list_elem_of_singleton in Hin|by apply elem_of_nil in Hin].
  - eapply Hno; [|exact Hin]. by eapply Hloop.
Qed.

Lemma admit_and_serve_asks gw snap m pr key proto req sessionKey tr r adm :
  runs (admit_and_serve gw snap m pr key proto req sessionKey) tr r -> OAdmitted adm ∈ observe tr ->
  exists now ent policy, capability_checks key proto m req = Ok tt /\
    Ev (ResolveEntitlement (pr_BillingAccountID pr) (m_ID m) now) (Ok ent) ∈ tr /\
    Ev (GetPolicyVersion (e_PolicyVersionID ent)) (Ok policy) ∈ tr /\
    asked pr key ent policy m req now adm tr.
Proof.
  assert (Hnil : forall a, OAdmitted a ∉ observe []) by (intros a; apply not_elem_of_nil).
  unfold admit_and_serve. intros H Hadm.
  destruct (capability_checks key proto m req) as [[]|e]; [|by destruct H as [-> _]; apply Hnil in Hadm].
  run_effect H as now. run_effect H as ent. destruct ent as [ent|e]; [|by destruct H as [-> _]; apply Hnil in Hadm].
  run_effect H as policy. destruct policy as [policy|e]; [|by destruct H as [-> _]; apply Hnil in Hadm].
  run_first H as t1 a t2 Ha H. pose proof (admission_obs _ _ _ _ _ _ _ _ _ Ha) as Hobs.
  rewrite !observe_app, Hobs in Hadm. simpl in Hadm.
  destruct a as [[adm' price]|e]; [|by destruct H as [-> _]; apply Hnil in Hadm].
  assert (adm' = adm) as ->.
  { apply elem_of_cons in Hadm as [[= ->]|Hadm]; [done|]. apply serve_obs in H. by eapply serve_serving in Hadm. }
  exists now, ent, policy. split_and!; [done|set_solver|set_solver|].
  eapply asked_mono; [by eapply admission_asks|set_solver].
Qed.

(** What a call needs of its model and key. *)
Record allowed (mode : LifecycleGateMode) (key : option APIKey) (proto : Protocol) (m : Model) (req : ChatRequest) : Prop := {
  al_lifecycle : mode = LifecycleGateEnforce -> m_Lifecycle m <> LifecycleRetired /\ m_Lifecycle m <> LifecycleDraft;
  al_protocol : proto ∈ m_Protocols m;
  al_images : (exists msg, msg ∈ cr_Messages req /\ "image_url" ∈ cm_ContentParts msg) ->
    m_InputModalities m = [] \/ "image" ∈ m_InputModalities m;
  al_tools : cr_Tools req <> [] -> m_SupportsTools m = true;
  al_reasoning : cr_ThinkingEnabled req = Some true -> m_SupportsReasoning m = true;
  al_key : forall k, key = Some k -> ak_ModelAllow k = [] \/ m_ID m ∈ ak_ModelAllow k;
}.

Lemma existsb_elem x l : existsb (String.eqb x) l = true <-> x ∈ l.
Proof.
  rewrite existsb_exists, list_elem_of_In. split; [by intros (y & Hy & ->%String.eqb_eq)|]. intros H. exists x. by rewrite String.eqb_refl.
Qed.

Lemma checks_allowed mode key proto m req : (lifecycleGateDecision (m_Lifecycle m) mode).2 = false ->
  capability_checks key proto m req = Ok tt -> allowed mode key proto m req.
Proof.
  intros Hg. unfold capability_checks, modelSpeaks. case_bool_decide as Hp; [|done].
  destruct (MessagesHaveImages _ && _) eqn:Hi; [done|]. destruct (n_Tools _ && _) eqn:Ht; [done|].
  destruct (thinking req && _) eqn:Hr; [done|]. intros Hk. split; [|done| | | |].
  - intros ->. by destruct (m_Lifecycle m).
  - intros (msg & Hm & Hu). apply andb_false_iff in Hi as [Hi|Hi].
    + apply not_true_iff_false in Hi. destruct Hi. apply existsb_exists. exists msg. split; [by apply list_elem_of_In|by apply existsb_elem].
    + apply negb_false_iff in Hi. unfold AcceptsImages in Hi. apply existsb_exists in Hi as (v & Hv%list_elem_of_In & ->%String.eqb_eq).
      destruct (m_InputModalities m); [by left|by right].
  - intros Hn. simpl in Ht. rewrite bool_decide_false in Ht by done. by apply negb_false_iff in Ht.
  - intros Hn. unfold thinking in Hr. rewrite Hn in Hr. by apply negb_false_iff in Hr.
  - intros k ->. destruct (decide (ak_ModelAllow k = [])) as [|Hn]; [by left|right]. rewrite bool_decide_false in Hk by done. simpl in Hk.
    destruct (contains _ _) eqn:Hc; [|done]. by apply existsb_elem.
Qed.

(** C35: ADMITTED ONLY IF ALLOWED. A reservation is taken for an authenticated
    account, on a model of the pinned snapshot that has the asked id or alias,
    is neither retired nor a draft when the lifecycle gate enforces, speaks the
    caller's protocol, supports the images, tools and reasoning the request uses
    and is in the key's list, if it has one; under the entitlement that resolves for the
    account and the model and under its pinned policy; with the safe input
    bound and the client's own cap. The plan pays, at the current credit
    price, unless the entitlement is pay-as-you-go, or the plan answered that
    its quota is exceeded and its policy allows overage: only then is the
    wallet asked, at the current money price. *)
Theorem admitted_only_if_allowed (gw : Gateway) (p : option Principal) (key : option APIKey) (proto : Protocol)
    (req : ChatRequest) (sessionKey : string) (tr : list event) (r : res Outcome) (adm : AdmissionResult)
    (Hrun : runs (ChatCompletionsSticky gw p key proto req sessionKey) tr r) (Hadm : OAdmitted adm ∈ observe tr) :
  exists pr snap m now ent policy,
    p = Some pr /\ pr_BillingAccountID pr <> "" /\
    Ev SnapshotCurrent (Ok snap) ∈ tr /\
    (sn_Models snap !! cr_Model req = Some m \/
     sn_Models snap !! cr_Model req = None /\ m ∈ gw_order gw snap /\ cr_Model req ∈ m_Aliases m) /\
    allowed (gw_LifecycleGate gw) key proto m req /\
    Ev (ResolveEntitlement (pr_BillingAccountID pr) (m_ID m) now) (Ok ent) ∈ tr /\
    Ev (GetPolicyVersion (e_PolicyVersionID ent)) (Ok policy) ∈ tr /\
    asked pr key ent policy m req now adm tr.
Proof.
  unfold ChatCompletionsSticky, run in Hrun. assert (Hnil : forall a, OAdmitted a ∉ observe []) by (intros a; apply not_elem_of_nil).
  destruct p as [pr|]; [|by destruct Hrun as [-> _]; apply Hnil in Hadm].
  case_bool_decide as Hacc; [by destruct Hrun as [-> _]; apply Hnil in Hadm|].
  run_effect Hrun as snap. destruct snap as [snap|e]; [|by destruct Hrun as [-> _]; apply Hnil in Hadm].
  destruct (SnapshotModel _ _ _) as [m|] eqn:Hm; [|by destruct Hrun as [-> _]; apply Hnil in Hadm].
  run_first Hrun as t1 gate t2 Hgate Hrun. apply gate_passed in Hgate as [Ht1 Hblocked].
  rewrite !observe_app, Ht1 in Hadm. simpl in Hadm.
  destruct gate as [[]|e]; [|by destruct Hrun as [-> _]; apply Hnil in Hadm].
  destruct (admit_and_serve_asks _ _ _ _ _ _ _ _ _ _ _ Hrun Hadm) as (now & ent & policy & Hcap & Hent & Hpol & H).
  exists pr, snap, m, now, ent, policy.
  split_and!; [done|done|set_solver| |apply checks_allowed; [by apply Hblocked|done]|set_solver|set_solver|].
  { unfold SnapshotModel in Hm. destruct (sn_Models snap !! _) as [m0|]; [left; congruence|right]. apply find_some in Hm as [Hin Ha].
    split_and!; [done|by apply list_elem_of_In|by apply existsb_elem]. }
  eapply asked_mono; [exact H|set_solver].
Qed.

Definition demo_service : prog (res Outcome) :=
  ChatCompletionsSticky demo_gateway (Some (mkPrincipal PrincipalKayaJWT "acc" "" "u" "")) None ProtocolOpenAIChat
    (mkChat "latest" [] false (Some 512) [] "" None None) "".

Lemma admitted_only_if_allowed_witness : exists m now ent policy,
  asked (mkPrincipal PrincipalKayaJWT "acc" "" "u" "") None ent policy m
    (mkChat "latest" [] false (Some 512) [] "" None None) now demo_admission (exec demo_oracle demo_service []).1.
Proof.
  destruct (admitted_only_if_allowed demo_gateway (Some (mkPrincipal PrincipalKayaJWT "acc" "" "u" "")) None ProtocolOpenAIChat
              (mkChat "latest" [] false (Some 512) [] "" None None) "" (exec demo_oracle demo_service []).1
              (exec demo_oracle demo_service []).2 demo_admission)
    as (pr & snap & m & now & ent & policy & Hp & _ & _ & _ & _ & _ & _ & H).
  - apply (exec_runs demo_oracle _ []), surjective_pairing.
  - apply observe_elem. exists (nth 5 (exec demo_oracle demo_service []).1 (Ev Backoff true)).
    split; [apply list_elem_of_In, nth_In; vm_compute; lia|vm_compute; reflexivity].
  - injection Hp as <-. exists m, now, ent, policy. exact H.
Defined.
