(* ===== verification/GatewayStore.v ===== *)
(** * GatewayStore: the gateway's transactions on the tables

    [persistAttempt], [settleOnce], [markReconciliation] and the release of
    [internal/inference/gateway/service.go], each one transaction of the store
    of the other files, with BEGIN and COMMIT failing as they may; and [world],
    the executions of the gateway against that store while other clients use
    it. A settlement whose COMMIT was applied but not acknowledged is retried
    by the gateway: it must not charge twice. *)

From Stdlib Require Import ZArith Lia Bool.
From stdpp Require Import base gmap strings list.
From S2P Require Import Prelude Domain Money Calendar Policy Pricing WalletRules Principal Entitlements Tables.
From S2P Require Import RequestStore QuotaStore WalletStore LedgerStore LeaseStore StoreInv StoreSteps StoreProps Admission.
From S2P Require Import Sessions Headers Catalog Routing Dispatch Gateway GatewayTraces GatewayProps.

Local Open Scope Z_scope.
Local Open Scope go_scope.
Local Open Scope prog_scope.

(** ** Transactions *)

Definition settlement_overage_job (cmd : SettleCommand) (detail : gmap string string) (clock : instant)
  : EnqueueReconciliationCommand :=
  mkEnqueue (Some (sc_RequestID cmd)) "" "settlement_overage" detail (clock + reconciliationDeadline).

(** The charge, and its anomaly when it exceeds the hold. *)
Definition settle_body (jobID : string) (clock now : instant) (cmd : SettleCommand)
    (over : option (gmap string string)) (db : DB) : res (unit * DB) :=
  let? db := Settle cmd now db in
  let? db := match over with
             | Some detail => EnqueueReconciliationJobTx jobID (settlement_overage_job cmd detail clock) db
             | None => Ok db
             end in
  Ok (tt, db).

Definition settleOnce (e : TxEnv) (jobID : string) (clock : instant) (cmd : SettleCommand)
    (over : option (gmap string string)) (db : DB) : DB * res unit :=
  transact e (settle_body jobID clock (tx_now e) cmd over) db.

(** Errors are logged. *)
Definition markReconciliation (e : TxEnv) (jobID : string) (clock : instant) (requestID reason : string) (db : DB) : DB :=
  (transact e (fun db => let? db := MarkReconciliationRequired jobID requestID reason
                                      (clock + reconciliationDeadline) (tx_now e) db in Ok (tt, db)) db).1.

Definition attempt_row (a : AttemptIntent) : Attempt :=
  mkAttempt (ai_ID a) (ai_RequestID a) (ai_AttemptNo a) "dispatching" "" "" None None (Some (ai_StartedAt a)) None.

(** The upstream lease, then the attempt row. *)
Definition persistAttempt (o : LeaseOwner) (pool : PoolDB) (e : TxEnv) (a : AttemptIntent) (db : DB)
  : DB * result AttemptError ConcurrencyLease :=
  match tx_begin e with
  | Some err => (db, Err (AttemptFailed (plain_cause err)))
  | None =>
      match AcquireUpstreamLease o (tx_leaseID e) (tx_leaseOwner e) (tx_clock e) pool (cand_Account (ai_Candidate a))
              (ai_RequestID a) (ai_StartedAt a) db with
      | Err AccountInactiveAtDispatch => (db, Err AttemptInactive)
      | Err (LeaseFailed err) => (db, Err (AttemptFailed (plain_cause err)))
      | Ok (lease, db1) =>
          match insertAttempt (attempt_row a) db1 with
          | Err err => (db, Err (AttemptFailed (plain_cause err)))
          | Ok db2 =>
              match tx_commit e with
              | None => (db2, Ok lease)
              | Some persisted => (if persisted then db2 else db, Err (AttemptFailed (plain_cause EForeign)))
              end
          end
      end
  end.

(** Whether the settlement reaches the tables, acknowledged or not. *)
Definition lands (e : TxEnv) (jobID : string) (clock : instant) (cmd : SettleCommand)
    (over : option (gmap string string)) (db : DB) : bool :=
  match tx_begin e, settle_body jobID clock (tx_now e) cmd over db, tx_commit e with
  | None, Ok _, None | None, Ok _, Some true => true
  | _, _, _ => false
  end.

(** One event against the store: the gateway's own transactions answer from the
    tables; the others are answered ([r]) by other components, which read or
    write the store in transactions of their own. The settlements that land
    are told. *)
Definition serve_event (o : LeaseOwner) (pool : PoolDB) (t : TxEnv) (jobID : string) (clock : instant) (e : effect)
    (db : DB) : answer e -> (DB * answer e) * list SettleCommand :=
  match e return answer e -> (DB * answer e) * list SettleCommand with
  | SettleTx cmd over => fun _ =>
      (settleOnce t jobID clock cmd over db, if lands t jobID clock cmd over db then [cmd] else [])
  | MarkTx requestID reason => fun _ => ((markReconciliation t jobID clock requestID reason db, tt), [])
  | ReleaseTx requestID => fun _ => (((ReleaseAdmission t requestID db).1, tt), [])
  | PersistAttempt a => fun _ => (persistAttempt o pool t a db, [])
  | _ => fun r => ((db, r), [])
  end.

(** [world db tr landed db']: the exchange [tr] against the store, from [db] to
    [db']; [landed] are the settlements that reached the tables. Between two
    events other clients commit any transactions. *)
Inductive world (o : LeaseOwner) (pool : PoolDB) : DB -> list event -> list SettleCommand -> DB -> Prop :=
| w_end db db' : rtc store_step db db' -> world o pool db [] [] db'
| w_event db db1 t jobID clock e r tr l db' :
    rtc store_step db db1 ->
    let s := serve_event o pool t jobID clock e db1 r in
    world o pool s.1.1 tr l db' -> world o pool db (Ev e s.1.2 :: tr) (s.2 ++ l) db'.

(** ** The gateway's transactions are steps of the store *)

Lemma transact_steps {A} (e : TxEnv) (body : DB -> res (A * DB)) db :
  (forall a db', body db = Ok (a, db') -> rtc store_step db db') -> rtc store_step db (transact e body db).1.
Proof.
  intros H. destruct (transact e body db) as [db' r] eqn:E.
  apply transact_cases in E as [(err & _ & ->)|(a & s1 & Hb & [(_ & _ & ->)|(err & _ & _ & ->)])]; simpl; eauto using rtc_refl.
Qed.

Lemma settle_body_steps jobID clock now cmd over db u db' :
  in_int64 (sc_ChargeMicros cmd) -> settle_body jobID clock now cmd over db = Ok (u, db') ->
  exists db1, Settle cmd now db = Ok db1 /\ rtc store_step db1 db'.
Proof.
  unfold settle_body. intros Hr H. apply rbind_Ok in H as (db1 & H1 & H). apply rbind_Ok in H as (db2 & H2 & H).
  injection H as _ <-. exists db1. split; [done|]. destruct over as [d|]; [|injection H2 as <-; apply rtc_refl].
  by eapply rtc_once, st_enqueue.
Qed.

Lemma settleOnce_steps e jobID clock cmd over db : in_int64 (sc_ChargeMicros cmd) ->
  rtc store_step db (settleOnce e jobID clock cmd over db).1.
Proof.
  intros Hr. apply transact_steps. intros u db' H. destruct (settle_body_steps _ _ _ _ _ _ _ _ Hr H) as (db1 & Hs & Hsteps).
  eapply rtc_l; [by eapply st_settle|done].
Qed.

Lemma markReconciliation_steps e jobID clock id reason db : rtc store_step db (markReconciliation e jobID clock id reason db).
Proof.
  apply transact_steps. intros u db' H. apply rbind_Ok in H as (db1 & H1 & H). injection H as _ <-.
  by eapply rtc_once, st_park.
Qed.

Lemma ReleaseAdmission_steps (e : TxEnv) id (db : DB) : rtc store_step db (ReleaseAdmission e id db).1.
Proof.
  apply transact_steps. intros u db' H. apply rbind_Ok in H as (db1 & H1 & H). injection H as _ <-.
  apply rtc_once, (st_release db id false (tx_now e)). exact H1.
Qed.

Lemma persistAttempt_steps o pool e a db : rtc store_step db (persistAttempt o pool e a db).1.
Proof.
  unfold persistAttempt. destruct (tx_begin e); [apply rtc_refl|].
  destruct (AcquireUpstreamLease _ _ _ _ _ _ _ _ _) as [[le db1]|[|err]] eqn:Ha; [|apply rtc_refl..].
  destruct (insertAttempt _ db1) as [db2|err] eqn:Hi; [|apply rtc_refl].
  assert (rtc store_step db db2) as H.
  { unfold AcquireUpstreamLease in Ha. destruct (_ <=? 0); [done|].
    destruct (GetUpstreamAccountStatusForUpdateTx _ _) as [st|]; [|done]. destruct (negb _); [done|].
    destruct (AcquireLeaseTx _ _ _ _ _) as [[? ?]|] eqn:Hl; [|done]. injection Ha as -> ->.
    eapply rtc_l; [by eapply st_acquire|]. by eapply rtc_once, st_attempt. }
  destruct (tx_commit e) as [[]|]; simpl; auto using rtc_refl.
Qed.

Lemma serve_event_steps o pool t jobID clock e r db :
  (forall cmd over, e = SettleTx cmd over -> in_int64 (sc_ChargeMicros cmd)) ->
  rtc store_step db (serve_event o pool t jobID clock e db r).1.1.
Proof.
  intros H. destruct e; simpl; try apply rtc_refl.
  - apply persistAttempt_steps.
  - eapply settleOnce_steps, H. done.
  - apply markReconciliation_steps.
  - apply ReleaseAdmission_steps.
Qed.

(** ** Settlements land once *)

(** The settlements of a trace are all of one request, for 64-bit amounts. *)
Definition settles (id : string) (tr : list event) : Prop :=
  forall cmd over r, Ev (SettleTx cmd over) r ∈ tr -> command_of id cmd.

Lemma settles_cons id e r tr : settles id (Ev e r :: tr) ->
  settles id tr /\ forall cmd over, e = SettleTx cmd over -> command_of id cmd.
Proof.
  intros H. split.
  - intros cmd over a Hin. eapply H. by right.
  - intros cmd over ->. eapply H. by left.
Qed.

Lemma world_steps o pool id db tr l db' : world o pool db tr l db' -> settles id tr -> rtc store_step db db'.
Proof.
  induction 1 as [db db' H|db db1 t jobID clock e r tr l db' H s Hw IH]; [done|].
  intros [Hs Hc]%settles_cons. etransitivity; [exact H|]. etransitivity; [|by apply IH].
  apply serve_event_steps. intros cmd over He. by eapply Hc.
Qed.

Lemma reachable_steps db db' : reachable db -> rtc store_step db db' -> reachable db'.
Proof. intros (db0 & Hi & H) H'. exists db0. split; [done|]. by etransitivity. Qed.

(** A charge, once there, is the request's only one for good. *)
Lemma charge_stays db db' id c : reachable db -> rtc store_step db db' ->
  charges (ledger db) id = [c] -> charges (ledger db') id = [c].
Proof.
  intros Hr Hs Hc. destruct (charges_steps _ _ id Hs (reachable_inv _ Hr)) as [(l & Hl) Hlen]; [by rewrite Hc|].
  rewrite Hl, Hc in Hlen |- *. destruct l; [done|simpl in Hlen; lia].
Qed.

(** What a settlement that lands does, and what a charged request answers. *)
Lemma lands_charges e jobID clock cmd over db : reachable db -> in_int64 (sc_ChargeMicros cmd) ->
  lands e jobID clock cmd over db = true -> exists c,
  charges (ledger (settleOnce e jobID clock cmd over db).1) (sc_RequestID cmd) = [c] /\ le_AmountMicros c = sc_ChargeMicros cmd.
Proof.
  intros Hr Hrange Hl. unfold lands in Hl. unfold settleOnce, transact. simpl.
  destruct (tx_begin e); [done|]. destruct (settle_body _ _ _ _ _ _) as [[u db2]|] eqn:Hb; [|done].
  destruct (settle_body_steps _ _ _ _ _ _ _ _ Hrange Hb) as (db1 & Hs & Hsteps).
  destruct (Settle_Ok _ _ _ _ Hs (reachable_inv _ Hr)) as (r & _ & _ & Hn & _ & _ & _ & _ & (c & Hled & Hc & Hamt & _) & _).
  assert (charges (ledger db2) (sc_RequestID cmd) = [c]) as Hfin.
  { eapply charge_stays; [|exact Hsteps|by rewrite Hled, charges_app, Hc, uncharged_nil].
    eapply reachable_steps; [exact Hr|]. by eapply rtc_once, st_settle. }
  exists c. split; [|done]. by destruct (tx_commit e) as [[]|].
Qed.

Lemma charged_lands e jobID clock cmd over db c : reachable db -> charges (ledger db) (sc_RequestID cmd) = [c] ->
  lands e jobID clock cmd over db = false /\ is_ok (settleOnce e jobID clock cmd over db).2 = false.
Proof.
  intros Hr Hc. destruct (charged_final db (sc_RequestID cmd) (reachable_inv _ Hr)) as [Hs _].
  { apply charged_nonempty. by rewrite Hc. }
  specialize (Hs cmd (tx_now e) eq_refl). unfold lands, settleOnce, transact, settle_body. simpl.
  destruct (Settle cmd (tx_now e) db); [done|]. by destruct (tx_begin e).
Qed.

Lemma acked_lands e jobID clock cmd over db :
  is_ok (settleOnce e jobID clock cmd over db).2 = true -> lands e jobID clock cmd over db = true.
Proof.
  unfold lands, settleOnce, transact. simpl. destruct (tx_begin e); [done|].
  destruct (settle_body _ _ _ _ _ _) as [[u db2]|]; [|done]. by destruct (tx_commit e) as [[]|].
Qed.

(** Acknowledged settlements of a trace. *)
Definition acknowledged (tr : list event) : Prop := exists cmd over, Ev (SettleTx cmd over) (Ok tt) ∈ tr.

(** An event of which nothing lands is not acknowledged. *)
Lemma unlanded_cons o pool t jobID clock e r db tr :
  let s := serve_event o pool t jobID clock e db r in
  s.2 = [] -> ~ acknowledged tr -> ~ acknowledged (Ev e s.1.2 :: tr).
Proof.
  intros s Hl Hno (cmd & over & [Heq|Hin]%elem_of_cons); [|by apply Hno; exists cmd, over].
  pose (P ev := match ev with Ev (SettleTx _ _) a => is_ok a = true | _ => False end).
  assert (P (Ev e s.1.2)) as Hok by (rewrite <- Heq; done). unfold P in Hok. clear P.
  destruct e; try done. simpl in *. by rewrite (acked_lands _ _ _ _ _ _ Hok) in Hl.
Qed.

Lemma world_charged o pool id c db tr l db' : world o pool db tr l db' -> settles id tr -> reachable db ->
  charges (ledger db) id = [c] -> l = [] /\ ~ acknowledged tr.
Proof.
  induction 1 as [db db' H|db db1 t jobID clock e r tr l db' H s Hw IH].
  { intros _ _ _. split; [done|]. intros (? & ? & Hin). by apply elem_of_nil in Hin. }
  intros [Hs Hcmd]%settles_cons Hr Hc. pose proof (reachable_steps _ _ Hr H) as Hr1.
  pose proof (charge_stays _ _ _ _ Hr H Hc) as Hc1.
  assert (rtc store_step db1 s.1.1) as Hst by (apply serve_event_steps; intros cmd over He; by eapply Hcmd).
  destruct (IH Hs) as [-> Hack]; [by eapply reachable_steps|by eapply charge_stays|].
  assert (s.2 = []) as Hnil.
  { unfold s. destruct e; try done. simpl. destruct (Hcmd _ _ eq_refl) as [<- _].
    by destruct (charged_lands t jobID clock cmd overDetail db1 c Hr1 Hc1) as [-> _]. }
  rewrite Hnil. split; [done|]. by apply unlanded_cons.
Qed.

Lemma world_landed o pool id db tr l db' : world o pool db tr l db' -> settles id tr -> reachable db ->
  (l = [] /\ ~ acknowledged tr) \/
  exists cmd over r c, l = [cmd] /\ Ev (SettleTx cmd over) r ∈ tr /\
    charges (ledger db') id = [c] /\ le_AmountMicros c = sc_ChargeMicros cmd.
Proof.
  induction 1 as [db db' H|db db1 t jobID clock e r tr l db' H s Hw IH].
  { intros _ _. left. split; [done|]. intros (? & ? & Hin). by apply elem_of_nil in Hin. }
  intros [Hs Hcmd]%settles_cons Hr. pose proof (reachable_steps _ _ Hr H) as Hr1.
  assert (rtc store_step db1 s.1.1) as Hst by (apply serve_event_steps; intros cmd over He; by eapply Hcmd).
  pose proof (reachable_steps _ _ Hr1 Hst) as Hr2.
  destruct (decide (s.2 = [])) as [Hnil|Hland].
  - rewrite Hnil. destruct (IH Hs Hr2) as [[-> Hno]|(cmd & over & a & c & -> & Hin & Hrest)].
    + left. split; [done|]. by apply unlanded_cons.
    + right. exists cmd, over, a, c. split; [done|]. split; [by right|done].
  - right. unfold s in Hland, Hw, Hr2 |- *. destruct e; try done. simpl in *.
    destruct (lands t jobID clock cmd overDetail db1) eqn:Hl; [|done].
    destruct (Hcmd _ _ eq_refl) as [Hid Hrange].
    destruct (lands_charges _ _ _ _ _ _ Hr1 Hrange Hl) as (c & Hc & Hamt). rewrite Hid in Hc.
    destruct (world_charged _ _ _ _ _ _ _ _ Hw Hs Hr2 Hc) as [-> _].
    eexists cmd, overDetail, _, c. split; [done|]. split; [apply list_elem_of_here|]. split; [|done].
    eapply charge_stays; [exact Hr2|by eapply world_steps|done].
Qed.

(** The settlements of a call are its request's. *)
Lemma finalization_settles id l : finalization id l -> forall cmd b, OSettle cmd b ∈ l -> command_of id cmd.
Proof.
  intros H cmd b Hin. inversion H as [|cmd' n Hc Hn|cmd' n Hc Hn|]; subst; [by apply list_elem_of_singleton in Hin|..|by apply list_elem_of_singleton in Hin];
    apply elem_of_app in Hin as [[Hin _]%elem_of_replicate|Hin%list_elem_of_singleton]; by simplify_eq.
Qed.

Lemma observed_settle tr cmd over r : Ev (SettleTx cmd over) r ∈ tr -> OSettle cmd (settled_answer r) ∈ finals (observe tr).
Proof.
  intros H. apply list_elem_of_In, filter_In. split; [|done]. apply list_elem_of_In, observe_elem. eauto.
Qed.

Lemma call_settles gw p key proto req sessionKey ends tr r :
  runs (call gw p key proto req sessionKey ends) tr r -> ends <> [] ->
  (is_ok r = false /\ settles "" tr /\ forall cmd over a, Ev (SettleTx cmd over) a ∉ tr) \/
  exists adm, OAdmitted adm ∈ observe tr /\ settles (ar_RequestID adm) tr /\
    if is_ok r then metered (ar_RequestID adm) (finals (observe tr))
    else forall cmd over a, Ev (SettleTx cmd over) a ∉ tr.
Proof.
  intros H Hne. destruct (call_finalized_once _ _ _ _ _ _ _ _ _ H Hne) as [[Ho Hr]|(adm & l & Ho & _ & Hf)].
  - left. assert (Hno : forall cmd over a, Ev (SettleTx cmd over) a ∉ tr).
    { intros cmd over a Hin%observed_settle. rewrite Ho in Hin. by apply elem_of_nil in Hin. }
    split_and!; [done| |exact Hno]. intros cmd over a Hin. by apply Hno in Hin.
  - right. exists adm. split; [rewrite Ho; by left|].
    assert (finals (observe tr) = finals l) as Hfin by by rewrite Ho. rewrite Hfin.
    destruct (is_ok r).
    + split; [|done]. intros cmd over a Hin%observed_settle. rewrite Hfin in Hin. by eapply finalization_settles; [apply Hf|].
    + assert (Hno : forall cmd over a, Ev (SettleTx cmd over) a ∉ tr).
      { intros cmd over a Hin%observed_settle. rewrite Hfin in Hin.
        destruct Hf as [Hf|Hf]; rewrite Hf in Hin; by apply list_elem_of_singleton in Hin. }
      split; [|exact Hno]. intros cmd over a Hin. by apply Hno in Hin.
Qed.

(** A metered call without an acknowledged settlement. *)
Lemma unpaid_parked id tr : metered id (finals (observe tr)) -> ~ acknowledged tr ->
  OPark id ∈ observe tr \/ exists cmd over e, Ev (SettleTx cmd over) (Err e) ∈ tr /\ CodeOf e = CodeConflict.
Proof.
  intros [Hf Hn] Hack. remember (finals (observe tr)) as l eqn:El.
  assert (Hl : forall x, x ∈ l -> x ∈ observe tr).
  { intros x Hin. rewrite El in Hin. apply list_elem_of_In, filter_In in Hin as [Hin _]. by apply list_elem_of_In. }
  inversion Hf as [|cmd n Hc Hlt E|cmd n Hc Hlt E|E]; subst l.
  - done.
  - right. destruct (proj1 (observe_elem (OSettle cmd true) tr)) as ([e a] & Hin & Hobs).
    { apply Hl. rewrite <- E, elem_of_app. right. by left. }
    destruct e; try done; simpl in Hobs; try (by destruct a). injection Hobs as -> Ha.
    destruct a as [[]|e]; [by destruct Hack; eexists _, _|]. exists cmd, overDetail, e. split; [done|].
    simpl in Ha. by apply bool_decide_eq_true in Ha.
  - left. apply Hl. rewrite <- E, elem_of_app. right. by left.
  - left. apply Hl. rewrite <- E. by left.
Qed.

(** ** An execution against the store *)

Fixpoint exec_db {A} (o : LeaseOwner) (pool : PoolDB) (oracle : list event -> forall e, answer e)
    (env : list event -> TxEnv * string * instant) (p : prog A) (past : list event) (db : DB)
  : list event * A * list SettleCommand * DB :=
  match p with
  | Ret a => ([], a, [], db)
  | Vis e k =>
      let '(t, jobID, clock) := env past in
      let s := serve_event o pool t jobID clock e db (oracle past e) in
      let '(tr, a, l, db') := exec_db o pool oracle env (k s.1.2) (past ++ [Ev e s.1.2]) s.1.1 in
      (Ev e s.1.2 :: tr, a, s.2 ++ l, db')
  end.

Lemma exec_db_world {A} o pool oracle env (p : prog A) : forall past db tr a l db',
  exec_db o pool oracle env p past db = (tr, a, l, db') -> runs p tr a /\ world o pool db tr l db'.
Proof.
  induction p as [a|e k IH]; intros past db tr b l db' H; simpl in H.
  - injection H as <- <- <- <-. split; [done|]. apply w_end, rtc_refl.
  - destruct (env past) as [[t jobID] clock].
    set (s := serve_event o pool t jobID clock e db (oracle past e)) in *.
    destruct (exec_db _ _ _ _ _ _ _) as [[[tr' b'] l'] db''] eqn:E. injection H as <- <- <- <-.
    apply IH in E as [Hr Hw]. split; [simpl; eauto|]. by apply (w_event _ _ db db t jobID clock); [apply rtc_refl|].
Qed.

(** ** The properties *)

(** C2: CHARGED ONCE. Run a call against the store, while other clients use it and
    any BEGIN or COMMIT of the gateway fails, also after the database has
    applied it: at most one settlement of the call reaches the tables. If one
    does, the call returned an outcome and the ledger holds, from then on,
    exactly one charge of the admitted request, for the settled amount, though
    the gateway may have retried because the first answer was lost. If none
    does, no settlement was acknowledged, and a call that returned an outcome
    parked its request for reconciliation, unless the store answered a
    conflict. *)
Theorem charged_once (gw : Gateway) (p : option Principal) (key : option APIKey) (proto : Protocol)
    (req : ChatRequest) (sessionKey : string) (ends : list StreamEnd) (tr : list event) (r : res Outcome)
    (o : LeaseOwner) (pool : PoolDB) (db db' : DB) (landed : list SettleCommand)
    (Hrun : runs (call gw p key proto req sessionKey ends) tr r) (Hends : ends <> [])
    (Hreach : reachable db) (Hworld : world o pool db tr landed db') :
  (exists cmd adm c, landed = [cmd] /\ is_ok r = true /\ OAdmitted adm ∈ observe tr /\
     charges (ledger db') (ar_RequestID adm) = [c] /\ le_AmountMicros c = sc_ChargeMicros cmd) \/
  (landed = [] /\ ~ acknowledged tr /\
   (is_ok r = true -> exists id, OPark id ∈ observe tr \/
      exists cmd over e, Ev (SettleTx cmd over) (Err e) ∈ tr /\ CodeOf e = CodeConflict)).
Proof.
  destruct (call_settles _ _ _ _ _ _ _ _ _ Hrun Hends) as [(Hr & Hs & Hno)|(adm & Hadm & Hs & Hfin)];
    destruct (world_landed _ _ _ _ _ _ _ Hworld Hs Hreach) as [[-> Hack]|(cmd & over & a & c & -> & Hin & Hc & Hamt)].
  - right. split_and!; [done|done|]. by rewrite Hr.
  - by apply Hno in Hin.
  - right. split_and!; [done|done|]. intros Hok. rewrite Hok in Hfin. exists (ar_RequestID adm).
    by apply unpaid_parked.
  - left. exists cmd, adm, c. split_and!; try done. destruct (is_ok r); [done|by apply Hfin in Hin].
Qed.

(** The reserved request of the sample run, streamed to its end; the first
    settlement commits, but its answer is lost. *)
Definition lossy_oracle (past : list event) (e : effect) : answer e :=
  match e return answer e -> answer e with
  | CallAdmit _ => fun _ => Ok (mkResult "r1" 30 0 (fun _ => None) 512 1000 "pol" "price" None (Some ChargeSourcePlan) "" "")
  | RouteCandidates _ _ _ => fun _ => Ok [demo_candidate "b"]
  | _ => fun r => r
  end (demo_oracle past e).

Definition sent_and_unsettled (past : list event) : bool :=
  existsb (fun ev => let 'Ev e _ := ev in match e with ClientDo _ _ => true | _ => false end) past
  && negb (existsb (fun ev => let 'Ev e _ := ev in match e with SettleTx _ _ => true | _ => false end) past).

Definition lossy_env (past : list event) : TxEnv * string * instant :=
  (mkTx None run_kind_id (run_rv_id "r1") "h1" "lease" "owner" 0 0 (if sent_and_unsettled past then Some true else None),
   "job", 0).
Definition lossy_pool : PoolDB := mkPoolDB {[ "b" := demo_account "b" 2 ]} ∅ [].

Definition lossy_run : list event * res Outcome * list SettleCommand * DB :=
  exec_db (mkOwner "me" (10 * minute)) lossy_pool lossy_oracle lossy_env (demo_call true "") [] run2.

Lemma charged_once_witness : exists adm c,
  map (fun x => match x with OSettle _ b => Some b | _ => None end) (finals (observe lossy_run.1.1.1)) = [Some false; Some true] /\
  charges (ledger lossy_run.2) (ar_RequestID adm) = [c] /\ le_AmountMicros c = 600.
Proof.
  destruct (exec_db_world (mkOwner "me" (10 * minute)) lossy_pool lossy_oracle lossy_env (demo_call true "") [] run2
              lossy_run.1.1.1 lossy_run.1.1.2 lossy_run.1.2 lossy_run.2) as [Hrun Hworld].
  { unfold lossy_run. destruct (exec_db _ _ _ _ _ _ _) as [[[? ?] ?] ?]. reflexivity. }
  assert (map sc_ChargeMicros lossy_run.1.2 = [600]) as Hcharge by (vm_compute; reflexivity).
  assert (map (fun x => match x with OSettle _ b => Some b | _ => None end) (finals (observe lossy_run.1.1.1))
          = [Some false; Some true]) as Htries by (vm_compute; reflexivity).
  unfold demo_call in Hrun. revert Hrun Hworld Hcharge Htries. generalize lossy_run. intros [[[tr r] l] db'] Hrun Hworld Hcharge Htries.
  assert ([EndCompleted; EndClientGone] <> []) as Hends by discriminate.
  destruct (charged_once _ _ _ _ _ _ _ _ _ _ _ _ _ _ Hrun Hends (proj1 (proj2 run_reachable)) Hworld)
    as [(cmd & adm & c & Hl & _ & _ & Hc & Hamt)|(Hl & _)]; cbn [fst snd] in *; rewrite Hl in Hcharge; [|discriminate Hcharge].
  exists adm, c. split; [exact Htries|]. split; [exact Hc|]. rewrite Hamt. by injection Hcharge.
Defined.
