(* ===== verification/Sha256.v ===== *)
(** * Sha256: the standard library encodings the access layer uses

    [crypto/sha256.Sum256], [encoding/hex] and [base64.RawURLEncoding], as
    functions on strings of bytes. Their outputs on the standard test vectors
    are checked below. *)

From Stdlib Require Import ZArith Lia Bool Ascii String.
From stdpp Require Import base list numbers.
From S2P Require Import Prelude.

Local Open Scope Z_scope.

Definition octet (c : ascii) : Z := Z.of_N (N_of_ascii c).
Definition octet_char (b : Z) : ascii := ascii_of_N (Z.to_N b).
Definition octets (s : string) : list Z := map octet (list_ascii_of_string s).
Definition text (l : list Z) : string := string_of_list_ascii (map octet_char l).

Lemma octets_text l : Forall (fun b => 0 <= b < 256) l -> octets (text l) = l.
Proof.
  unfold octets, text. rewrite list_ascii_of_string_of_list_ascii, map_map.
  induction 1 as [|b l Hb _ IH]; simpl; [done|]. f_equal; [|done].
  unfold octet, octet_char. rewrite N_ascii_embedding; lia.
Qed.

(** ** SHA-256 *)

Section Sha256.

Definition w32 (z : Z) : Z := z mod 2 ^ 32.
Definition rotr (n x : Z) : Z := w32 (Z.lor (Z.shiftr x n) (Z.shiftl x (32 - n))).
Definition xor3 (a b c : Z) : Z := Z.lxor a (Z.lxor b c).
Definition not32 (x : Z) : Z := 2 ^ 32 - 1 - x.
Definition Ch (x y z : Z) : Z := Z.lxor (Z.land x y) (Z.land (not32 x) z).
Definition Maj (x y z : Z) : Z := xor3 (Z.land x y) (Z.land x z) (Z.land y z).
Definition Sum0 (x : Z) : Z := xor3 (rotr 2 x) (rotr 13 x) (rotr 22 x).
Definition Sum1 (x : Z) : Z := xor3 (rotr 6 x) (rotr 11 x) (rotr 25 x).
Definition sigma0 (x : Z) : Z := xor3 (rotr 7 x) (rotr 18 x) (Z.shiftr x 3).
Definition sigma1 (x : Z) : Z := xor3 (rotr 17 x) (rotr 19 x) (Z.shiftr x 10).

(** The first 32 bits of the fractional parts of the cube roots (round
    constants) and square roots (initial state) of the first primes. *)
Definition first_primes : list Z :=
  [2; 3; 5; 7; 11; 13; 17; 19; 23; 29; 31; 37; 41; 43; 47; 53; 59; 61; 67; 71; 73; 79; 83; 89; 97; 101; 103; 107; 109;
   113; 127; 131; 137; 139; 149; 151; 157; 163; 167; 173; 179; 181; 191; 193; 197; 199; 211; 223; 227; 229; 233; 239;
   241; 251; 257; 263; 269; 271; 277; 281; 283; 293; 307; 311].
Definition cbrt (n : Z) : Z :=
  fold_left (fun r i => let t := r + 2 ^ i in if t * t * t <=? n then t else r) (rev (seqZ 0 40)) 0.
Definition round_constants : list Z := Eval vm_compute in map (fun p => w32 (cbrt (p * 2 ^ 96))) first_primes.
Definition initial_state : list Z := Eval vm_compute in map (fun p => w32 (Z.sqrt (p * 2 ^ 64))) (take 8 first_primes).

Fixpoint words (l : list Z) : list Z :=
  match l with
  | a :: b :: c :: d :: l => (a * 2 ^ 24 + b * 2 ^ 16 + c * 2 ^ 8 + d) :: words l
  | _ => []
  end.
Definition bytes_of_word (w : Z) : list Z :=
  [Z.shiftr w 24 mod 256; Z.shiftr w 16 mod 256; Z.shiftr w 8 mod 256; w mod 256].

(** A one bit, zeros up to 56 modulo 64, and the length in bits. *)
Definition padded (l : list Z) : list Z :=
  let n := Z.of_nat (length l) in
  l ++ [128] ++ replicate (Z.to_nat ((55 - n) mod 64)) 0
    ++ map (fun i => Z.shiftr (8 * n) (8 * i) mod 256) [7; 6; 5; 4; 3; 2; 1; 0].

(** The message schedule, most recent word first. *)
Fixpoint schedule (n : nat) (recent : list Z) : list Z :=
  match n with
  | O => recent
  | S n => let w i := nth i recent 0 in
           schedule n (w32 (sigma1 (w 1%nat) + w 6%nat + sigma0 (w 14%nat) + w 15%nat) :: recent)
  end.

Definition sha_round (s : list Z) (kw : Z * Z) : list Z :=
  match s with
  | [a; b; c; d; e; f; g; h] =>
      let t1 := h + Sum1 e + Ch e f g + kw.1 + kw.2 in
      let t2 := Sum0 a + Maj a b c in
      [w32 (t1 + t2); a; b; c; w32 (d + t1); e; f; g]
  | _ => s
  end.

Definition compress (s block : list Z) : list Z :=
  let ws := rev (schedule 48 (rev (words block))) in
  zip_with (fun a b => w32 (a + b)) s (fold_left sha_round (zip round_constants ws) s).

Fixpoint blocks (fuel : nat) (l : list Z) : list (list Z) :=
  match fuel, l with
  | _, [] | O, _ => []
  | S fuel, _ => take 64 l :: blocks fuel (drop 64 l)
  end.

Definition Sum256 (s : string) : list Z :=
  let l := padded (octets s) in
  mjoin (map bytes_of_word (fold_left compress (blocks (length l) l) initial_state)).

End Sha256.

(** ** Hexadecimal *)

Definition hex_digit (n : Z) : Z := if n <? 10 then 48 + n else 87 + n.
Definition hex_value (c : Z) : option Z :=
  if (48 <=? c) && (c <=? 57) then Some (c - 48)
  else if (97 <=? c) && (c <=? 102) then Some (c - 87)
  else if (65 <=? c) && (c <=? 70) then Some (c - 55)
  else None.

Definition EncodeToString (l : list Z) : string := text (mjoin (map (fun b => [hex_digit (b / 16); hex_digit (b mod 16)]) l)).

Fixpoint hex_decode (l : list Z) : option (list Z) :=
  match l with
  | [] => Some []
  | [_] => None
  | a :: b :: l =>
      match hex_value a, hex_value b, hex_decode l with
      | Some x, Some y, Some r => Some (16 * x + y :: r)
      | _, _, _ => None
      end
  end.
Definition DecodeString (s : string) : option (list Z) := hex_decode (octets s).

(** ** Base64, URL alphabet, no padding *)

Definition url_digit (n : Z) : Z :=
  if n <? 26 then 65 + n else if n <? 52 then 71 + n else if n <? 62 then n - 4 else if n =? 62 then 45 else 95.

Fixpoint url_encode (l : list Z) : list Z :=
  match l with
  | [] => []
  | [a] => [url_digit (a / 4); url_digit (a mod 4 * 16)]
  | [a; b] => [url_digit (a / 4); url_digit (a mod 4 * 16 + b / 16); url_digit (b mod 16 * 4)]
  | a :: b :: c :: l =>
      url_digit (a / 4) :: url_digit (a mod 4 * 16 + b / 16) :: url_digit (b mod 16 * 4 + c / 64)
        :: url_digit (c mod 64) :: url_encode l
  end.
Definition RawURLEncoding (l : list Z) : string := text (url_encode l).

(** ** Their lengths and inverses *)

Lemma hex_value_digit n : 0 <= n < 16 -> hex_value (hex_digit n) = Some n.
Proof.
  intros Hn. unfold hex_value, hex_digit. destruct (Z.ltb_spec n 10).
  - rewrite !(proj2 (Z.leb_le _ _)) by lia. simpl. f_equal. lia.
  - rewrite (proj2 (Z.leb_gt (87 + n) 57)) by lia. rewrite andb_false_r, !(proj2 (Z.leb_le _ _)) by lia. simpl. f_equal. lia.
Qed.

Lemma hex_digit_range n : 0 <= n < 16 -> 0 <= hex_digit n < 256.
Proof. intros Hn. unfold hex_digit. destruct (n <? 10); lia. Qed.

(** Decoding undoes encoding. *)
Lemma DecodeString_Encode l : Forall (fun b => 0 <= b < 256) l -> DecodeString (EncodeToString l) = Some l.
Proof.
  intros Hl. unfold DecodeString, EncodeToString. rewrite octets_text.
  - induction Hl as [|b l Hb Hl IH]; [done|]. simpl.
    assert (0 <= b / 16 < 16) by (split; [apply Z.div_pos; lia|apply Z.div_lt_upper_bound; lia]).
    assert (0 <= b mod 16 < 16) by (apply Z.mod_pos_bound; lia).
    rewrite !hex_value_digit, IH by done. f_equal. f_equal. pose proof (Z.div_mod b 16). lia.
  - induction Hl as [|b l Hb Hl IH]; [constructor|]. simpl.
    assert (0 <= b / 16 < 16) by (split; [apply Z.div_pos; lia|apply Z.div_lt_upper_bound; lia]).
    assert (0 <= b mod 16 < 16) by (apply Z.mod_pos_bound; lia).
    constructor; [by apply hex_digit_range|]. constructor; [by apply hex_digit_range|done].
Qed.

Lemma Sum256_bytes s : Forall (fun b => 0 <= b < 256) (Sum256 s).
Proof.
  unfold Sum256. generalize (fold_left compress (blocks (length (padded (octets s))) (padded (octets s))) initial_state).
  intros l. induction l as [|w l IH]; [constructor|]. change (Forall (fun b => 0 <= b < 256) (bytes_of_word w ++ mjoin (map bytes_of_word l))).
  apply Forall_app. split; [|done]. unfold bytes_of_word. repeat constructor; apply Z.mod_pos_bound; lia.
Qed.

Lemma length_sha_round s kw : length s = 8%nat -> length (sha_round s kw) = 8%nat.
Proof. intros H. do 9 (destruct s as [|? s]; try done). Qed.

Lemma length_compress s block : length s = 8%nat -> length (compress s block) = 8%nat.
Proof.
  intros H. unfold compress. rewrite length_zip_with.
  assert (forall l a, length a = 8%nat -> length (fold_left sha_round l a) = 8%nat) as Hf.
  { intros l. induction l as [|x l IH]; intros a Ha; [done|]. apply IH. by apply length_sha_round. }
  rewrite Hf by done. lia.
Qed.

Lemma Sum256_length s : length (Sum256 s) = 32%nat.
Proof.
  unfold Sum256. generalize (blocks (length (padded (octets s))) (padded (octets s))). intros l.
  assert (forall l a, length a = 8%nat -> length (fold_left compress l a) = 8%nat) as Hf.
  { intros k. induction k as [|x k IH]; intros a Ha; [done|]. apply IH. by apply length_compress. }
  specialize (Hf l initial_state eq_refl). destruct (fold_left compress l initial_state) as [|? w]; [done|].
  do 8 (destruct w as [|? w]; try done).
Qed.

(** ** Test vectors *)

Example sha256_empty : EncodeToString (Sum256 "") = "e3b0c44298fc1c149afbf4c8996fb92427ae41e4649b934ca495991b7852b855"%string.
Proof. vm_compute. reflexivity. Qed.
Example sha256_abc : EncodeToString (Sum256 "abc") = "ba7816bf8f01cfea414140de5dae2223b00361a396177a9cb410ff61f20015ad"%string.
Proof. vm_compute. reflexivity. Qed.
Example sha256_two_blocks :
  EncodeToString (Sum256 "abcdbcdecdefdefgefghfghighijhijkijkljklmklmnlmnomnopnopq")
  = "248d6a61d20638b8e5c026930c3e6039a33ce45964ff2167f6ecedd419db06c1"%string.
Proof. vm_compute. reflexivity. Qed.
Example base64_url : map (fun s => RawURLEncoding (octets s)) ["f"; "fo"; "foo"; "foob"]%string = ["Zg"; "Zm8"; "Zm9v"; "Zm9vYg"]%string.
Proof. vm_compute. reflexivity. Qed.
