(* ===== verification/Access.v ===== *)
(** * Access: customer keys and the callers they authenticate

    [internal/inference/access/apikey.go] and [principal.go] over the key and
    account tables of [postgres/apikey_repo.go], [billing_account_repo.go] and
    [accounts_repo.go]. An operation is a program of statements: before each of
    them [av_others] says what the other clients commit, and [av_io] which
    statements fail, before or after they took effect. *)

From Stdlib Require Import ZArith Lia Bool Ascii String.
From stdpp Require Import base gmap strings list relations pretty.
From S2P Require Import Prelude Domain Money Calendar Principal Tables EntitlementStore Sha256.

Local Open Scope string_scope.
Local Open Scope Z_scope.
Local Open Scope go_scope.

(** ** Key material *)

Definition KeyPrefix : string := "yk-".
Definition lookupPrefixLen : nat := 12.

(** Malformed keys yield the empty prefix. *)
Definition LookupPrefix (presented : string) : string :=
  if (String.length presented <? lookupPrefixLen)%nat || negb (String.prefix KeyPrefix presented) then ""
  else String.substring 0 lookupPrefixLen presented.

Definition Digest (plaintext : string) : string := "sha256:" +:+ EncodeToString (Sum256 plaintext).

(** [Generate], with the 32 bytes [crypto/rand] delivers. *)
Definition Generate (buf : list Z) : string * string * string :=
  let plaintext := KeyPrefix +:+ RawURLEncoding buf in
  (plaintext, LookupPrefix plaintext, Digest plaintext).

(** [strings.Cut(s, ":")]. *)
Fixpoint cut_colon (s : string) : option (string * string) :=
  match s with
  | EmptyString => None
  | String c s => if Ascii.eqb c ":" then Some ("", s)
                  else match cut_colon s with Some (a, b) => Some (String c a, b) | None => None end
  end.

(** [subtle.ConstantTimeCompare] is equality. *)
Definition VerifyDigest (presented storedDigest : string) : bool :=
  match cut_colon storedDigest with
  | Some (scheme, hexDigest) =>
      String.eqb scheme "sha256" && match DecodeString hexDigest with
                                    | Some want => bool_decide (Sum256 presented = want)
                                    | None => false
                                    end
  | None => false
  end.

(** ** Tables *)

Record BillingAccount := mkBilling {
  ba_ID : string;
  ba_UserID : string;
  ba_Status : BillingAccountStatus;
}.

(** A row of [inference_api_keys]: the key and its digest. *)
Record KeyRow := mkKeyRow { kr_Key : APIKey; kr_Hash : string }.

Record AccessDB := mkAccessDB {
  ac_accounts : gmap string BillingAccount;
  ac_keys : gmap string KeyRow;
  ac_ents : gmap string Entitlement;
}.

Definition set_ac_accounts (v : gmap string BillingAccount) (db : AccessDB) : AccessDB := mkAccessDB v (ac_keys db) (ac_ents db).
Definition set_ac_keys (v : gmap string KeyRow) (db : AccessDB) : AccessDB := mkAccessDB (ac_accounts db) v (ac_ents db).

Definition opt_check (p : Z -> bool) (o : option Z) : bool := match o with Some z => p z | None => true end.

(** CHECKs of the budget and limit columns. *)
Definition key_row_ok (k : APIKey) : bool :=
  opt_check (fun z => 0 <=? z) (ak_BudgetLimit k) && (0 <=? ak_BudgetUsed k)
  && opt_check (fun z => 0 <? z) (ak_RPMLimit k) && opt_check (fun z => 0 <? z) (ak_ConcurrencyLimit k).

(** INT columns. *)
Definition key_ints (k : APIKey) : res unit :=
  let int_ok o := match o with Some z => let? _ := sql_int4 z in Ok tt | None => Ok tt end in
  let? _ := int_ok (ak_RPMLimit k) in int_ok (ak_ConcurrencyLimit k).

(** UNIQUE(key_prefix), UNIQUE(key_hash). *)
Definition key_free (prefix hash : string) (m : gmap string KeyRow) : bool :=
  forallb (fun r => negb (String.eqb (ak_Prefix (kr_Key r)) prefix) && negb (String.eqb (kr_Hash r) hash)) (map_to_list m).*2.

Definition GetBillingAccountByUser (userID : string) (db : AccessDB) : res BillingAccount :=
  match rows (ac_accounts db) (fun a => String.eqb (ba_UserID a) userID) with
  | a :: _ => Ok a
  | [] => db_fail ErrNoRows
  end.
Definition GetBillingAccountByID (id : string) (db : AccessDB) : res BillingAccount := select_one id (ac_accounts db).

(** INSERT ... ON CONFLICT (user_id) DO NOTHING; no row returned: read it. *)
Definition EnsureBillingAccount (newID userID : string) (db : AccessDB) : AccessDB * res BillingAccount :=
  match GetBillingAccountByUser userID db with
  | Ok a => (db, Ok a)
  | Err _ =>
      let a := mkBilling newID userID BillingAccountActive in
      match insert_row newID a (ac_accounts db) with
      | Ok m => (set_ac_accounts m db, Ok a)
      | Err e => (db, Err e)
      end
  end.

(** The active entitlements of an account, as [entitlement_repo.go] lists them. *)
Definition active_entitlements (account : string) (at_ : instant) (db : AccessDB) : list Entitlement :=
  ListActiveEntitlements account at_ (mkBenefitDB (ac_ents db) ∅ ∅ [] [] []).

Definition with_id (id : string) (now : instant) (k : APIKey) : APIKey :=
  mkAPIKey id (ak_BillingAccountID k) (ak_Name k) (ak_Prefix k) (ak_ModelAllow k) (ak_BudgetLimit k) (ak_BudgetUsed k)
    (ak_RPMLimit k) (ak_ConcurrencyLimit k) (ak_Status k) (ak_ExpiresAt k) None None now now.

Definition InsertAPIKey (newID : string) (now : instant) (k : APIKey) (hash : string) (db : AccessDB) : res (APIKey * AccessDB) :=
  let k := with_id newID now k in
  let? _ := key_ints k in
  let? _ := check (key_row_ok k) in
  let? _ := unique (key_free (ak_Prefix k) hash (ac_keys db)) in
  let? m := insert_row newID (mkKeyRow k hash) (ac_keys db) in
  let? _ := references (has (ac_accounts db) (ak_BillingAccountID k)) in
  Ok (k, set_ac_keys m db).

Definition GetAPIKeyByPrefix (prefix : string) (db : AccessDB) : res KeyRow :=
  match rows (ac_keys db) (fun r => String.eqb (ak_Prefix (kr_Key r)) prefix) with
  | r :: _ => Ok r
  | [] => db_fail ErrNoRows
  end.
Definition GetAPIKeyByID (id : string) (db : AccessDB) : res APIKey :=
  let? r := select_one id (ac_keys db) in Ok (kr_Key r).

(** Newest first. *)
Definition ListAPIKeysByAccount (accountID : string) (limit offset : nat) (db : AccessDB) : list APIKey * Z :=
  let l := map kr_Key (rows (ac_keys db) (fun r => String.eqb (ak_BillingAccountID (kr_Key r)) accountID)) in
  let newer a b := if negb (ak_CreatedAt a =? ak_CreatedAt b) then ak_CreatedAt b <? ak_CreatedAt a
                   else String.ltb (ak_ID b) (ak_ID a) in
  (take limit (drop offset (stable_sort newer l)), Z.of_nat (length l)).

(** UPDATE of the row [id], if there is one that meets [p]. *)
Definition update_key (id : string) (p : APIKey -> bool) (f : APIKey -> APIKey) (db : AccessDB) : res (bool * AccessDB) :=
  match ac_keys db !! id with
  | Some r =>
      if p (kr_Key r)
      then let k := f (kr_Key r) in
           let? _ := key_ints k in
           let? _ := check (key_row_ok k) in
           Ok (true, set_ac_keys (<[id := mkKeyRow k (kr_Hash r)]> (ac_keys db)) db)
      else Ok (false, db)
  | None => Ok (false, db)
  end.

(** The editable columns of [k] over the stored row. *)
Definition edited (k : APIKey) (now : instant) (r : APIKey) : APIKey :=
  mkAPIKey (ak_ID r) (ak_BillingAccountID r) (ak_Name k) (ak_Prefix r) (ak_ModelAllow k) (ak_BudgetLimit k) (ak_BudgetUsed r)
    (ak_RPMLimit k) (ak_ConcurrencyLimit r) (ak_Status r) (ak_ExpiresAt k) (ak_RevokedAt r) (ak_LastUsedAt r)
    (ak_CreatedAt r) now.
Definition UpdateAPIKey (k : APIKey) (now : instant) (db : AccessDB) : res AccessDB :=
  let? (found, db) := update_key (ak_ID k) (fun _ => true) (edited k now) db in
  guard found else mapError ErrNoRows; Ok db.

Definition set_status (s : APIKeyStatus) (revokedAt : option instant) (now : instant) (r : APIKey) : APIKey :=
  mkAPIKey (ak_ID r) (ak_BillingAccountID r) (ak_Name r) (ak_Prefix r) (ak_ModelAllow r) (ak_BudgetLimit r) (ak_BudgetUsed r)
    (ak_RPMLimit r) (ak_ConcurrencyLimit r) s (ak_ExpiresAt r) revokedAt (ak_LastUsedAt r) (ak_CreatedAt r) now.
Definition key_active (r : APIKey) : bool := match ak_Status r with APIKeyActive => true | _ => false end.

Definition RevokeAPIKey (id : string) (at_ now : instant) (db : AccessDB) : res (bool * AccessDB) :=
  update_key id key_active (set_status APIKeyRevoked (Some at_) now) db.

Definition past (o : option instant) (now : instant) : bool := match o with Some t => t <=? now | None => false end.

(** [now] is the database's. *)
Definition MarkAPIKeyExpired (id : string) (now : instant) (db : AccessDB) : res AccessDB :=
  let? (_, db) := update_key id (fun r => key_active r && past (ak_ExpiresAt r) now)
                    (fun r => set_status APIKeyExpired (ak_RevokedAt r) now r) db in Ok db.

Definition TouchAPIKeyLastUsed (id : string) (at_ : instant) (db : AccessDB) : res AccessDB :=
  let? (_, db) := update_key id (fun _ => true)
    (fun r => mkAPIKey (ak_ID r) (ak_BillingAccountID r) (ak_Name r) (ak_Prefix r) (ak_ModelAllow r) (ak_BudgetLimit r)
                (ak_BudgetUsed r) (ak_RPMLimit r) (ak_ConcurrencyLimit r) (ak_Status r) (ak_ExpiresAt r) (ak_RevokedAt r)
                (Some at_) (ak_CreatedAt r) (ak_UpdatedAt r)) db in Ok db.

(** ** Programs of statements *)

(** The [n]-th event draws from the outside: what the others commit before it,
    whether the connection is lost ([Some landed]), the two clocks, a fresh row
    id and the random source. *)
Record AccessEnv := mkAccessEnv {
  av_others : nat -> AccessDB -> AccessDB;
  av_io : nat -> option bool;
  av_clock : nat -> instant;
  av_now : nat -> instant;
  av_id : nat -> string;
  av_rand : nat -> option (list Z);
}.

(** The store, the events so far, and the throttle of the resolver: when it
    last wrote each key's use, and how often it wrote. *)
Record Run := mkRun {
  ru_DB : AccessDB;
  ru_n : nat;
  ru_touched : gmap string instant;
  ru_writes : Z;
}.

Definition stmts (A : Type) := Run -> Run * res A.
Definition sret {A} (r : res A) : stmts A := fun s => (s, r).
Definition sbind {A B} (p : stmts A) (k : A -> stmts B) : stmts B :=
  fun s => match p s with (s, Ok a) => k a s | (s, Err e) => (s, Err e) end.
(** The error too goes on. *)
Definition scatch {A B} (p : stmts A) (k : res A -> stmts B) : stmts B := fun s => let '(s, r) := p s in k r s.

Declare Scope stmts_scope.
Delimit Scope stmts_scope with stmts.
Notation "'step' x '<-' p ';' k" := (sbind p (fun x => k)) (at level 10, x pattern, p at level 100, k at level 200) : stmts_scope.
Notation "'try' x '<-' p ';' k" := (scatch p (fun x => k)) (at level 10, x pattern, p at level 100, k at level 200) : stmts_scope.
Local Open Scope stmts_scope.

Section Service.
Context (env : AccessEnv).

Definition set_ru_DB (db : AccessDB) (s : Run) : Run := mkRun db (S (ru_n s)) (ru_touched s) (ru_writes s).

(** One statement. *)
Definition stmt {A} (f : nat -> AccessDB -> AccessDB * res A) : stmts A := fun s =>
  let n := ru_n s in
  let db := av_others env n (ru_DB s) in
  match av_io env n with
  | Some landed => (set_ru_DB (if landed then (f n db).1 else db) s, db_fail OtherDbError)
  | None => let '(db', r) := f n db in (set_ru_DB db' s, r)
  end.
Definition reads {A} (f : AccessDB -> res A) : stmts A := stmt (fun _ db => (db, f db)).
Definition writes {A} (f : nat -> AccessDB -> res (A * AccessDB)) : stmts A :=
  stmt (fun n db => match f n db with Ok (a, db') => (db', Ok a) | Err e => (db, Err e) end).
Definition now_ : stmts instant := fun s => (set_ru_DB (ru_DB s) s, Ok (av_clock env (ru_n s))).
Definition random : stmts (list Z) := fun s =>
  (set_ru_DB (ru_DB s) s, match av_rand env (ru_n s) with Some buf => Ok buf | None => Err (WrapError CodeInternal EForeign) end).

(** *** Key management *)

Record CreateParams := mkParams {
  cp_Name : string;
  cp_ModelAllow : list string;
  cp_BudgetMicros : option Z;
  cp_RPMLimit : option Z;
  cp_ExpiresAt : option instant;
}.

Definition maxKeyNameLen : nat := 128.
Definition invalid_input : error := NewError CodeInvalidInput.

Definition trim (s : string) : string := string_of_list_ascii (TrimSpace (list_ascii_of_string s)).

(** The entries trimmed, without duplicates, in order. *)
Fixpoint normalize_from (seen : list string) (l : list string) : res (list string) :=
  match l with
  | [] => Ok []
  | id :: l =>
      let id := trim id in
      fail_if String.eqb id "" with invalid_input;
      if bool_decide (id ∈ seen) then normalize_from seen l
      else let? out := normalize_from (id :: seen) l in Ok (id :: out)
  end.
Definition normalizeModelAllow (l : list string) : res (list string) := normalize_from [] l.

Definition ValidateModelScope (allow : list string) (ents : list Entitlement) : res unit :=
  guard forallb (fun id => existsb (fun e => bool_decide (id ∈ e_ModelIDs e)) ents) allow else NewError CodeModelNotAllowed;
  Ok tt.

Definition checkModelScope (accountID : string) (allow : list string) : stmts unit :=
  step now <- now_;
  step ents <- reads (fun db => Ok (active_entitlements accountID now db));
  sret (ValidateModelScope allow ents).

(** A guard of an optional setting. *)
Definition when {A} (o : option A) (k : A -> stmts unit) : stmts unit := match o with Some a => k a | None => sret (Ok tt) end.
Definition require (b : bool) : stmts unit := sret (if b then Ok tt else Err invalid_input).
Definition in_future (t : instant) : stmts unit := step now <- now_; require (now <? t).

Record CreatedKey := mkCreated { ck_Key : APIKey; ck_Plaintext : string }.

(** The retries on a collision; [last] is the conflict to report. *)
Fixpoint mint (fuel : nat) (last : res CreatedKey) (accountID : string) (allow : list string) (p : CreateParams) : stmts CreatedKey :=
  match fuel with
  | O => sret last
  | S fuel =>
      step buf <- random;
      let '(plaintext, prefix, digest) := Generate buf in
      let key := mkAPIKey "" accountID (cp_Name p) prefix allow (cp_BudgetMicros p) 0 (cp_RPMLimit p) None APIKeyActive
                   (cp_ExpiresAt p) None None 0 0 in
      try r <- writes (fun n db => InsertAPIKey (av_id env n) (av_now env n) key digest db);
      match r with
      | Ok key => sret (Ok (mkCreated key plaintext))
      | Err e => if bool_decide (CodeOf e = CodeConflict) then mint fuel (Err e) accountID allow p else sret (Err e)
      end
  end.

Definition ensure (userID : string) : stmts BillingAccount := stmt (fun n db => EnsureBillingAccount (av_id env n) userID db).

Definition CreateKey (userID : string) (p : CreateParams) : stmts CreatedKey :=
  step _ <- require (String.length (cp_Name p) <=? maxKeyNameLen)%nat;
  step _ <- when (cp_BudgetMicros p) (fun b => require (0 <=? b));
  step _ <- when (cp_RPMLimit p) (fun r => require (0 <? r));
  step _ <- when (cp_ExpiresAt p) in_future;
  step allow <- sret (normalizeModelAllow (cp_ModelAllow p));
  step account <- ensure userID;
  step _ <- (if bool_decide (allow = []) then sret (Ok tt) else checkModelScope (ba_ID account) allow);
  mint 3 (Err invalid_input) (ba_ID account) allow p.

Definition is_not_found (e : error) : bool := bool_decide (CodeOf e = CodeNotFound).
Definition errAPIKeyNotFound : error := NewError CodeNotFound.

(** Every miss is the same error value. *)
Definition ownedKey (userID keyID : string) : stmts APIKey :=
  let hide {A} (r : res A) : res A := match r with Ok a => Ok a | Err e => Err (if is_not_found e then errAPIKeyNotFound else e) end in
  try key <- reads (GetAPIKeyByID keyID);
  step key <- sret (hide key);
  try account <- reads (GetBillingAccountByUser userID);
  step account <- sret (hide account);
  sret (if String.eqb (ak_BillingAccountID key) (ba_ID account) then Ok key else Err errAPIKeyNotFound).

Definition ListKeys (userID : string) (limit offset : nat) : stmts (list APIKey * Z) :=
  try account <- reads (GetBillingAccountByUser userID);
  match account with
  | Err e => sret (if is_not_found e then Ok ([], 0) else Err e)
  | Ok account => reads (fun db => Ok (ListAPIKeysByAccount (ba_ID account) limit offset db))
  end.

Definition GetKey (userID keyID : string) : stmts APIKey := ownedKey userID keyID.

(** [None] keeps the value; for [kp_ModelAllow], [Some []] clears it. *)
Record KeyPatch := mkKeyPatch {
  kp_Name : option string;
  kp_ModelAllow : option (list string);
  kp_BudgetMicros : option Z;
  kp_ClearBudget : bool;
  kp_RPMLimit : option Z;
  kp_ClearRPM : bool;
  kp_ExpiresAt : option instant;
  kp_ClearExpires : bool;
}.

Definition with_settings (k : APIKey) (name : string) (allow : list string) (budget rpm : option Z) (expires : option instant) : APIKey :=
  mkAPIKey (ak_ID k) (ak_BillingAccountID k) name (ak_Prefix k) allow budget (ak_BudgetUsed k) rpm (ak_ConcurrencyLimit k)
    (ak_Status k) expires (ak_RevokedAt k) (ak_LastUsedAt k) (ak_CreatedAt k) (ak_UpdatedAt k).

(** Cleared, replaced after its check, or kept. *)
Definition patch_option {A} (clear : bool) (new : option A) (check : A -> stmts unit) (old : option A) : stmts (option A) :=
  if clear then sret (Ok None)
  else match new with Some a => step _ <- check a; sret (Ok (Some a)) | None => sret (Ok old) end.

Definition patched_allow (k : APIKey) (new : option (list string)) : stmts (list string) :=
  match new with
  | None => sret (Ok (ak_ModelAllow k))
  | Some l =>
      step allow <- sret (normalizeModelAllow l);
      step _ <- (if bool_decide (allow = []) then sret (Ok tt) else checkModelScope (ak_BillingAccountID k) allow);
      sret (Ok allow)
  end.

Definition UpdateKey (userID keyID : string) (patch : KeyPatch) : stmts APIKey :=
  step k <- ownedKey userID keyID;
  step _ <- when (kp_Name patch) (fun n => require (String.length n <=? maxKeyNameLen)%nat);
  step allow <- patched_allow k (kp_ModelAllow patch);
  step budget <- patch_option (kp_ClearBudget patch) (kp_BudgetMicros patch) (fun b => require (0 <=? b)) (ak_BudgetLimit k);
  step rpm <- patch_option (kp_ClearRPM patch) (kp_RPMLimit patch) (fun r => require (0 <? r)) (ak_RPMLimit k);
  step expires <- patch_option (kp_ClearExpires patch) (kp_ExpiresAt patch) in_future (ak_ExpiresAt k);
  let k := with_settings k (default (ak_Name k) (kp_Name patch)) allow budget rpm expires in
  step _ <- writes (fun n db => let? db := UpdateAPIKey k (av_now env n) db in Ok (tt, db));
  sret (Ok k).

Definition RevokeKey (userID keyID : string) : stmts bool :=
  step k <- ownedKey userID keyID;
  step at_ <- now_;
  writes (fun n db => RevokeAPIKey (ak_ID k) at_ (av_now env n) db).

(** *** Authentication *)

Record AuthResult := mkAuth {
  au_Principal : Principal;
  au_Key : APIKey;
  au_Account : BillingAccount;
}.

Definition lastUsedTouchWindow : duration := minute.
Definition lastUsedSweepEvery : Z := 64.

(** At most one write per key and window; every 64th write sweeps the entries
    older than two windows. [None] skips the write. *)
Definition throttle (now : instant) (keyID : string) (s : Run) : option Run :=
  if match ru_touched s !! keyID with Some last => time_sub now last <? lastUsedTouchWindow | None => false end then None
  else
    let m := <[keyID := now]> (ru_touched s) in
    let n := add64 (ru_writes s) 1 in
    let cutoff := time_add now (-2 * lastUsedTouchWindow) in
    Some (mkRun (ru_DB s) (ru_n s)
            (if Z.rem n lastUsedSweepEvery =? 0 then filter (fun p => ~ p.2 < cutoff) m else m) n).

(** The outcome of the write is ignored. *)
Definition touchLastUsed (keyID : string) : stmts unit :=
  step now <- now_;
  fun s => match throttle now keyID s with
           | None => (s, Ok tt)
           | Some s => (try _ <- writes (fun _ db => let? db := TouchAPIKeyLastUsed keyID now db in Ok (tt, db)); sret (Ok tt)) s
           end.

Definition errInvalidKey : error := NewError CodeInvalidKey.
Definition account_active (a : BillingAccount) : bool := bool_decide (ba_Status a = BillingAccountActive).

Definition Authenticate (presented : string) : stmts AuthResult :=
  let prefix := LookupPrefix presented in
  if String.eqb prefix "" then sret (Err errInvalidKey)
  else
    try row <- reads (GetAPIKeyByPrefix prefix);
    step row <- sret (match row with Err e => Err (if is_not_found e then errInvalidKey else e) | Ok r => Ok r end);
    let key := kr_Key row in
    if negb (VerifyDigest presented (kr_Hash row)) || negb (key_active key) then sret (Err errInvalidKey)
    else
      step now <- (match ak_ExpiresAt key with Some _ => now_ | None => sret (Ok 0) end);
      if past (ak_ExpiresAt key) now
      then try _ <- writes (fun n db => let? db := MarkAPIKeyExpired (ak_ID key) (av_now env n) db in Ok (tt, db));
           sret (Err errInvalidKey)
      else
        step account <- reads (GetBillingAccountByID (ak_BillingAccountID key));
        if negb (account_active account) then sret (Err errInvalidKey)
        else
          step _ <- touchLastUsed (ak_ID key);
          sret (Ok (mkAuth (mkPrincipal PrincipalAPIKey (ba_ID account) (ak_ID key) "" "") key account)).

Definition ResolveUserSession (userID : string) : stmts Principal :=
  if String.eqb userID "" then sret (Err invalid_input)
  else
    step account <- reads (GetBillingAccountByUser userID);
    sret (if account_active account then Ok (mkPrincipal PrincipalKayaJWT (ba_ID account) "" userID "") else Err errInvalidKey).

(** The union of the granted sets without duplicates, narrowed by the key. *)
Definition granted_models (ents : list Entitlement) : list string :=
  foldl (fun (acc : list string) id => if bool_decide (id ∈ acc) then acc else (acc ++ [id])%list) [] (mjoin (map e_ModelIDs ents)).

Definition AuthorizedModelIDs (p : Principal) (key : option APIKey) : stmts (list string) :=
  step now <- now_;
  step ents <- reads (fun db => Ok (active_entitlements (pr_BillingAccountID p) now db));
  let union := granted_models ents in
  sret (Ok match key with
           | Some k => if bool_decide (ak_ModelAllow k = []) then union
                       else List.filter (fun id => bool_decide (id ∈ union)) (ak_ModelAllow k)
           | None => union
           end).

End Service.

(** ** A concrete run *)

Definition quiet_env (now : instant) (buf : list Z) : AccessEnv :=
  mkAccessEnv (fun _ db => db) (fun _ => None) (fun _ => now) (fun _ => now)
    (fun n => ("row" +:+ pretty.pretty n)%string) (fun _ => Some buf).
Definition start (db : AccessDB) : Run := mkRun db 0 ∅ 0.
Definition no_keys : AccessDB := mkAccessDB ∅ ∅ ∅.
Definition demo_buf : list Z := map Z.of_nat (seq 0 32).
Definition demo_create : Run * res CreatedKey :=
  CreateKey (quiet_env 100 demo_buf) "alice" (mkParams "ci" [] (Some 5) (Some 60) (Some 1000)) (start no_keys).

Example demo_created : match demo_create.2 with Ok c => ck_Plaintext c | Err _ => "" end
  = "yk-AAECAwQFBgcICQoLDA0ODxAREhMUFRYXGBkaGxwdHh8".
Proof. vm_compute. reflexivity. Qed.
Example demo_authenticated :
  match (Authenticate (quiet_env 200 []) "yk-AAECAwQFBgcICQoLDA0ODxAREhMUFRYXGBkaGxwdHh8" demo_create.1).2 with
  | Ok a => au_Principal a
  | Err _ => mkPrincipal PrincipalService "" "" "" ""
  end = mkPrincipal PrincipalAPIKey "row1" "row3" "" "".
Proof. vm_compute. reflexivity. Qed.
Example demo_wrong_secret :
  is_ok (Authenticate (quiet_env 200 []) "yk-AAECAwQFBgcICQoLDA0ODxAREhMUFRYXGBkaGxwdHh9" demo_create.1).2 = false.
Proof. vm_compute. reflexivity. Qed.
