(* ===== verification/AccessProps.v ===== *)
(** * AccessProps: who a key lets in

    The step relation of the statements that write the key and account tables,
    what no step changes, and the properties of the operations of [Access]
    among any other clients. *)

From Stdlib Require Import ZArith Lia Bool Ascii String.
From stdpp Require Import base gmap strings list relations.
From S2P Require Import Prelude Domain Money Calendar Principal Tables EntitlementStore StoreInv Sessions Sha256 Access.

Local Open Scope string_scope.
Local Open Scope Z_scope.
Local Open Scope go_scope.
Local Open Scope stmts_scope.

(** ** What the statements write *)

Inductive access_step (db : AccessDB) : AccessDB -> Prop :=
| as_insert newID now k hash k' db' : InsertAPIKey newID now k hash db = Ok (k', db') -> access_step db db'
| as_update k now db' : UpdateAPIKey k now db = Ok db' -> access_step db db'
| as_revoke id at_ now b db' : RevokeAPIKey id at_ now db = Ok (b, db') -> access_step db db'
| as_expire id now db' : MarkAPIKeyExpired id now db = Ok db' -> access_step db db'
| as_touch id at_ db' : TouchAPIKeyLastUsed id at_ db = Ok db' -> access_step db db'
| as_ensure newID userID : access_step db (EnsureBillingAccount newID userID db).1
| as_account id a s : ac_accounts db !! id = Some a ->
    access_step db (set_ac_accounts (<[id := mkBilling (ba_ID a) (ba_UserID a) s]> (ac_accounts db)) db)
| as_ents m : access_step db (mkAccessDB (ac_accounts db) (ac_keys db) m).

(** Rows sit under their id; prefixes and users are unique. *)
Record access_ok (db : AccessDB) : Prop := {
  ao_keys id r : ac_keys db !! id = Some r -> ak_ID (kr_Key r) = id;
  ao_prefix id id' r r' : ac_keys db !! id = Some r -> ac_keys db !! id' = Some r' ->
    ak_Prefix (kr_Key r) = ak_Prefix (kr_Key r') -> id = id';
  ao_accounts id a : ac_accounts db !! id = Some a -> ba_ID a = id;
  ao_users id id' a a' : ac_accounts db !! id = Some a -> ac_accounts db !! id' = Some a' -> ba_UserID a = ba_UserID a' -> id = id';
}.

(** What a row keeps for ever; a status other than active is final. *)
Definition key_later (r r' : KeyRow) : Prop :=
  ak_ID (kr_Key r') = ak_ID (kr_Key r) /\ ak_BillingAccountID (kr_Key r') = ak_BillingAccountID (kr_Key r) /\
  ak_Prefix (kr_Key r') = ak_Prefix (kr_Key r) /\ kr_Hash r' = kr_Hash r /\
  (key_active (kr_Key r) = false -> key_active (kr_Key r') = false).

Definition access_later (db db' : AccessDB) : Prop :=
  (forall id r, ac_keys db !! id = Some r -> exists r', ac_keys db' !! id = Some r' /\ key_later r r') /\
  (forall id a, ac_accounts db !! id = Some a -> exists a', ac_accounts db' !! id = Some a' /\ ba_UserID a' = ba_UserID a /\ ba_ID a' = ba_ID a).

#[global] Instance key_later_preorder : PreOrder key_later.
Proof.
  split; [intros r; unfold key_later; tauto|].
  intros a b c (H1 & H2 & H3 & H4 & H5) (G1 & G2 & G3 & G4 & G5). split_and!; [congruence..|auto].
Qed.

#[global] Instance access_later_preorder : PreOrder access_later.
Proof.
  split.
  - intros db. split; [intros id r H; exists r; by split|intros id a H; by exists a].
  - intros a b c [H1 H2] [G1 G2]. split.
    + intros id r (r' & Hr & Hl)%H1. destruct (G1 _ _ Hr) as (r2 & Hr2 & Hl2). exists r2. split; [done|by etransitivity].
    + intros id x (x' & Hx & Hu & Hi)%H2. destruct (G2 _ _ Hx) as (x2 & Hx2 & Hu2 & Hi2). exists x2. split_and!; congruence.
Qed.

Lemma same_keys_later db m e : access_later db (mkAccessDB (ac_accounts db) (ac_keys db) e) /\ (m = e -> True).
Proof. split; [|done]. split; [intros id r H; exists r; by split|intros id a H; by exists a]. Qed.

Lemma update_key_spec id p f db b db' : update_key id p f db = Ok (b, db') ->
  (b = false /\ db' = db /\ forall r, ac_keys db !! id = Some r -> p (kr_Key r) = false) \/
  exists r, b = true /\ ac_keys db !! id = Some r /\ p (kr_Key r) = true /\
    db' = set_ac_keys (<[id := mkKeyRow (f (kr_Key r)) (kr_Hash r)]> (ac_keys db)) db.
Proof.
  unfold update_key. destruct (ac_keys db !! id) as [r|] eqn:Hr; [|intros [= <- <-]; left; split_and!; done].
  destruct (p (kr_Key r)) eqn:Hp; [|intros [= <- <-]; left; split_and!; [done..|by intros ? [= <-]]].
  intros H. inv_ok. right. eauto.
Qed.

(** A row replaced by a later one of the same key. *)
Lemma replace_key id r r' db : ac_keys db !! id = Some r -> key_later r r' ->
  let db' := set_ac_keys (<[id := r']> (ac_keys db)) db in access_later db db' /\ (access_ok db -> access_ok db').
Proof.
  intros Hr Hl. split.
  - split; [|intros i a H; by exists a]. intros i x Hx. simpl. destruct (decide (i = id)) as [->|Hn].
    + rewrite lookup_insert_eq. exists r'. split; [done|]. by simplify_eq.
    + rewrite lookup_insert_ne by done. exists x. by split.
  - intros [A1 A2 A3 A4]. destruct Hl as (L1 & L2 & L3 & L4 & L5). split; simpl; [| |done..].
    + intros i x [[<- <-]|[Hn H]]%lookup_insert_Some; [by rewrite L1; eapply A1|by eapply A1].
    + intros i j x y Hx Hy He. apply lookup_insert_Some in Hx as [[<- <-]|[Hi Hx]]; apply lookup_insert_Some in Hy as [[<- <-]|[Hj Hy]]; try done.
      * exfalso. apply Hj. eapply A2; [exact Hr|exact Hy|congruence].
      * exfalso. apply Hi. symmetry. eapply A2; [exact Hx|exact Hr|congruence].
      * by eapply A2.
Qed.

Lemma update_key_step id p f db b db' : update_key id p f db = Ok (b, db') ->
  (forall r, p (kr_Key r) = true -> key_later r (mkKeyRow (f (kr_Key r)) (kr_Hash r))) ->
  access_later db db' /\ (access_ok db -> access_ok db').
Proof.
  intros [(_ & -> & _)|(r & _ & Hr & Hp & ->)]%update_key_spec Hf; [by split|]. apply (replace_key id r); auto.
Qed.

Lemma user_account userID db a : GetBillingAccountByUser userID db = Ok a ->
  ba_UserID a = userID /\ exists id, ac_accounts db !! id = Some a.
Proof.
  unfold GetBillingAccountByUser. destruct (rows _ _) as [|x l] eqn:E; [done|]. intros [= ->].
  assert (a ∈ rows (ac_accounts db) (fun a => String.eqb (ba_UserID a) userID)) as Hin by (rewrite E; left).
  apply rows_elem in Hin as [Hu Hk]. by apply String.eqb_eq in Hu.
Qed.

Lemma no_user_account userID db e : GetBillingAccountByUser userID db = Err e ->
  e = mapError ErrNoRows /\ forall id a, ac_accounts db !! id = Some a -> ba_UserID a <> userID.
Proof.
  unfold GetBillingAccountByUser. destruct (rows _ _) as [|x l] eqn:E; [|done]. intros [= <-]. split; [done|].
  intros id a Ha Hu. rewrite rows_nil in E. specialize (E _ _ Ha). apply String.eqb_neq in E. done.
Qed.

Lemma ensure_spec newID userID db db' r : EnsureBillingAccount newID userID db = (db', r) ->
  access_later db db' /\ (access_ok db -> access_ok db') /\
  forall a, r = Ok a -> ba_UserID a = userID /\ exists id, ac_accounts db' !! id = Some a.
Proof.
  unfold EnsureBillingAccount. destruct (GetBillingAccountByUser userID db) as [a|e] eqn:E.
  - intros [= <- <-]. split_and!; [done..|]. intros x [= <-]. by apply user_account.
  - apply no_user_account in E as [_ Hno]. unfold insert_row. destruct (ac_accounts db !! newID) as [x|] eqn:Hn.
    { intros [= <- <-]. split_and!; [done..|]. by intros. }
    intros [= <- <-]. split_and!.
    + split; [intros i r H; exists r; by split|]. intros i a Ha. exists a. simpl. rewrite lookup_insert_ne; [done|congruence].
    + intros [A1 A2 A3 A4]. split; simpl; [done..| |].
      * intros i a [[<- <-]|[Hi H]]%lookup_insert_Some; [done|by eapply A3].
      * intros i j a b Ha Hb He. apply lookup_insert_Some in Ha as [[<- <-]|[Hi Ha]]; apply lookup_insert_Some in Hb as [[<- <-]|[Hj Hb]]; [done|..].
        -- exfalso. by eapply Hno.
        -- exfalso. by eapply Hno.
        -- by eapply A4.
    + intros a [= <-]. split; [done|]. exists newID. simpl. by rewrite lookup_insert_eq.
Qed.

Lemma insert_key_spec newID now k hash k' db db' : InsertAPIKey newID now k hash db = Ok (k', db') ->
  k' = with_id newID now k /\ ac_keys db !! newID = None /\ is_Some (ac_accounts db !! ak_BillingAccountID k) /\
  (forall id r, ac_keys db !! id = Some r -> ak_Prefix (kr_Key r) <> ak_Prefix k /\ kr_Hash r <> hash) /\
  db' = set_ac_keys (<[newID := mkKeyRow k' hash]> (ac_keys db)) db.
Proof.
  unfold InsertAPIKey. intros H. inv_ok. apply unique_Ok in E1. apply insert_row_Ok in E2 as [Hn ->]. apply references_Ok, has_true in E3.
  split_and!; [done|done|exact E3| |done]. intros id r Hr. unfold key_free in E1. rewrite forallb_forall in E1.
  assert (In r (map_to_list (ac_keys db)).*2) as Hin.
  { apply list_elem_of_In, list_elem_of_fmap. exists (id, r). split; [done|]. by apply elem_of_map_to_list. }
  specialize (E1 r Hin). bool_prop. split; by apply String.eqb_neq.
Qed.

Lemma access_step_later db db' : access_step db db' -> access_later db db' /\ (access_ok db -> access_ok db').
Proof.
  destruct 1 as [newID now k hash k' db' H|k now db' H|id at_ now b db' H|id now db' H|id at_ db' H|newID u|id a s H|m].
  - apply insert_key_spec in H as (-> & Hn & _ & Hp & ->). split.
    + split; [|intros i a Ha; by exists a]. intros i r Hr. exists r. simpl. rewrite lookup_insert_ne by congruence. by split.
    + intros [A1 A2 A3 A4]. split; simpl; [| |done..].
      * intros i x [[<- <-]|[_ H]]%lookup_insert_Some; [done|by eapply A1].
      * intros i j x y Hx Hy He. apply lookup_insert_Some in Hx as [[<- <-]|[Hi Hx]]; apply lookup_insert_Some in Hy as [[<- <-]|[Hj Hy]]; [done|..].
        -- exfalso. cbn in He. by destruct (Hp _ _ Hy).
        -- exfalso. cbn in He. by destruct (Hp _ _ Hx).
        -- by eapply A2.
  - unfold UpdateAPIKey in H. inv_ok. destruct x as [b d]. apply update_key_step in E; [|intros r _; by split_and!].
    destruct b; [by injection H as <-|done].
  - apply update_key_step in H; [done|]. intros r Hp. unfold key_later. simpl. rewrite Hp. split_and!; done.
  - unfold MarkAPIKeyExpired in H. inv_ok. destruct x as [b d]. injection H as <-. apply update_key_step in E; [done|].
    intros r Hp. bool_prop. unfold key_later. simpl. split_and!; done.
  - unfold TouchAPIKeyLastUsed in H. inv_ok. destruct x as [b d]. injection H as <-. apply update_key_step in E; [done|].
    intros r _. by split_and!.
  - destruct (EnsureBillingAccount newID u db) as [d r] eqn:E. by apply ensure_spec in E as (H1 & H2 & _).
  - split.
    + split; [intros i r Hr; exists r; by split|]. intros i x Hx. simpl. destruct (decide (i = id)) as [->|Hn].
      * rewrite lookup_insert_eq. simplify_eq. eauto.
      * rewrite lookup_insert_ne by done. eauto.
    + intros [A1 A2 A3 A4]. split; simpl; [done..| |].
      * intros i x [[<- <-]|[_ Hx]]%lookup_insert_Some; [exact (A3 _ _ H)|exact (A3 _ _ Hx)].
      * intros i j x y Hx Hy He. apply lookup_insert_Some in Hx as [[<- <-]|[Hi Hx]]; apply lookup_insert_Some in Hy as [[<- <-]|[Hj Hy]];
          [done|exact (A4 _ _ _ _ H Hy He)|exact (A4 _ _ _ _ Hx H He)|exact (A4 _ _ _ _ Hx Hy He)].
  - split; [apply (same_keys_later db m)|]. by intros [A1 A2 A3 A4].
Qed.

Lemma access_steps_later db db' : rtc access_step db db' -> access_later db db' /\ (access_ok db -> access_ok db').
Proof.
  induction 1 as [|x y z H _ [IH1 IH2]]; [done|]. apply access_step_later in H as [H1 H2]. split; [by etransitivity|auto].
Qed.

(** ** Taking a program apart *)

Lemma sbind_Ok {A B} (p : stmts A) (k : A -> stmts B) s s' b : sbind p k s = (s', Ok b) ->
  exists s1 a, p s = (s1, Ok a) /\ k a s1 = (s', Ok b).
Proof. unfold sbind. destruct (p s) as [s1 [a|e]]; [eauto|done]. Qed.

Lemma scatch_inv {A B} (p : stmts A) (k : res A -> stmts B) s s' b : scatch p k s = (s', b) ->
  exists s1 r, p s = (s1, r) /\ k r s1 = (s', b).
Proof. unfold scatch. destruct (p s) as [s1 r]. eauto. Qed.

Lemma sret_Ok {A} (r : res A) s s' a : sret r s = (s', Ok a) -> s' = s /\ r = Ok a.
Proof. by intros [= -> ->]. Qed.

Section Among.
Context (env : AccessEnv) (Hothers : forall n db, rtc access_step db (av_others env n db)).

Lemma stmt_steps {A} (f : nat -> AccessDB -> AccessDB * res A) s s' r :
  (forall n db, rtc access_step db (f n db).1) -> stmt env f s = (s', r) -> rtc access_step (ru_DB s) (ru_DB s').
Proof using Hothers.
  intros Hf. unfold stmt. destruct (av_io env (ru_n s)) as [landed|].
  - intros [= <- _]. simpl. destruct landed; [etransitivity; [apply Hothers|apply Hf]|apply Hothers].
  - destruct (f (ru_n s) _) as [db' r'] eqn:E. intros [= <- _]. simpl. etransitivity; [apply Hothers|].
    specialize (Hf (ru_n s) (av_others env (ru_n s) (ru_DB s))). by rewrite E in Hf.
Qed.

Lemma stmt_Ok {A} (f : nat -> AccessDB -> AccessDB * res A) s s' a : stmt env f s = (s', Ok a) ->
  exists n db1, rtc access_step (ru_DB s) db1 /\ f n db1 = (ru_DB s', Ok a).
Proof using Hothers.
  unfold stmt. destruct (av_io env (ru_n s)) as [landed|]; [done|].
  destruct (f (ru_n s) _) as [db' r'] eqn:E. intros [= <- ->]. simpl. eauto.
Qed.

Lemma reads_steps {A} (f : AccessDB -> res A) s s' r : reads env f s = (s', r) -> rtc access_step (ru_DB s) (ru_DB s').
Proof using Hothers. apply stmt_steps. intros n db. apply rtc_refl. Qed.

Lemma reads_Ok {A} (f : AccessDB -> res A) s s' a : reads env f s = (s', Ok a) ->
  rtc access_step (ru_DB s) (ru_DB s') /\ f (ru_DB s') = Ok a.
Proof using Hothers. intros H. apply stmt_Ok in H as (n & db1 & Hs & [= <- Hf]). by rewrite <- Hf. Qed.

Lemma writes_steps {A} (f : nat -> AccessDB -> res (A * AccessDB)) s s' r :
  (forall n db a db', f n db = Ok (a, db') -> access_step db db') ->
  writes env f s = (s', r) -> rtc access_step (ru_DB s) (ru_DB s').
Proof using Hothers.
  intros Hf. apply stmt_steps. intros n db. destruct (f n db) as [[a db']|e] eqn:E; [|apply rtc_refl].
  apply rtc_once. by eapply Hf.
Qed.

Lemma writes_Ok {A} (f : nat -> AccessDB -> res (A * AccessDB)) s s' a : writes env f s = (s', Ok a) ->
  exists n db1, rtc access_step (ru_DB s) db1 /\ f n db1 = Ok (a, ru_DB s').
Proof using Hothers.
  intros H. apply stmt_Ok in H as (n & db1 & Hs & Hf). exists n, db1. split; [done|].
  destruct (f n db1) as [[x db']|e]; [by injection Hf as -> ->|done].
Qed.

Lemma now_inv s s' r : now_ env s = (s', r) -> ru_DB s' = ru_DB s /\ r = Ok (av_clock env (ru_n s)).
Proof using Type. by intros [= <- <-]. Qed.

Lemma touch_steps keyID s s' r : touchLastUsed env keyID s = (s', r) -> rtc access_step (ru_DB s) (ru_DB s').
Proof using Hothers.
  unfold touchLastUsed, sbind. destruct (now_ env s) as [s1 [now|e]] eqn:En; apply now_inv in En as [Hd Hr]; [|done].
  destruct (throttle now keyID s1) as [s2|] eqn:Et; [|intros [= <- _]; by rewrite Hd].
  assert (ru_DB s2 = ru_DB s1) as Hd2.
  { unfold throttle in Et. destruct (match ru_touched s1 !! keyID with Some _ => _ | None => _ end); [done|]. by injection Et as <-. }
  intros H. apply scatch_inv in H as (s3 & x & H & [= <- _]). rewrite <- Hd, <- Hd2. eapply writes_steps; [|exact H].
  intros n db u db' Hu. inv_ok. eapply as_touch. exact E.
Qed.

(** An authenticated caller holds a key that was live, and whose account was
    active, at moments of the call. *)
Lemma auth_sound presented s s' a : Authenticate env presented s = (s', Ok a) ->
  exists id row acct now d1 d2,
    rtc access_step (ru_DB s) d1 /\ rtc access_step d1 d2 /\ rtc access_step d2 (ru_DB s') /\
    ac_keys d1 !! id = Some row /\ ak_Prefix (kr_Key row) = LookupPrefix presented /\
    VerifyDigest presented (kr_Hash row) = true /\ key_active (kr_Key row) = true /\ past (ak_ExpiresAt (kr_Key row)) now = false /\
    ac_accounts d2 !! ak_BillingAccountID (kr_Key row) = Some acct /\ account_active acct = true /\
    a = mkAuth (mkPrincipal PrincipalAPIKey (ba_ID acct) (ak_ID (kr_Key row)) "" "") (kr_Key row) acct.
Proof using Hothers.
  unfold Authenticate. destruct (String.eqb _ ""); [done|]. intros H. apply scatch_inv in H as (s1 & r & H1 & H).
  apply sbind_Ok in H as (s2 & row & H2 & H). apply sret_Ok in H2 as [-> H2].
  assert (r = Ok row) as -> by (destruct r; [by injection H2 as ->|destruct (is_not_found _); done]).
  apply reads_Ok in H1 as [Hs1 Hrow]. unfold GetAPIKeyByPrefix in Hrow. destruct (rows _ _) as [|x l] eqn:E; [done|]. injection Hrow as ->.
  assert (row ∈ rows (ac_keys (ru_DB s1)) (fun r => String.eqb (ak_Prefix (kr_Key r)) (LookupPrefix presented))) as Hin by (rewrite E; left).
  apply rows_elem in Hin as [Hp [id Hid]]. apply String.eqb_eq in Hp.
  destruct (VerifyDigest presented (kr_Hash row)) eqn:Hv; [|done]. destruct (key_active (kr_Key row)) eqn:Ha; [|done]. simpl in H.
  apply sbind_Ok in H as (s3 & now & H3 & H).
  assert (ru_DB s3 = ru_DB s1) as Hd3 by (destruct (ak_ExpiresAt (kr_Key row)); [by apply now_inv in H3 as [? _]|by apply sret_Ok in H3 as [-> _]]).
  destruct (past _ now) eqn:Hpast; [apply scatch_inv in H as (? & ? & _ & H); done|].
  apply sbind_Ok in H as (s4 & acct & H4 & H). apply reads_Ok in H4 as [Hs4 Hacct]. rewrite Hd3 in Hs4.
  destruct (account_active acct) eqn:Hact; [|done]. simpl in H.
  apply sbind_Ok in H as (s5 & u & H5 & [= <- <-]). apply touch_steps in H5.
  exists id, row, acct, now, (ru_DB s1), (ru_DB s4). split_and!; try done.
  unfold GetBillingAccountByID, select_one in Hacct. destruct (ac_accounts (ru_DB s4) !! _); [by injection Hacct as ->|done].
Qed.

End Among.

(** ** Digests *)

(** A digest verifies exactly the strings with the same SHA-256. *)
Lemma VerifyDigest_Digest p q : VerifyDigest p (Digest q) = true <-> Sum256 p = Sum256 q.
Proof.
  unfold VerifyDigest, Digest. change (cut_colon ("sha256:" +:+ EncodeToString (Sum256 q))) with (Some ("sha256", EncodeToString (Sum256 q))).
  cbv beta iota. rewrite DecodeString_Encode by apply Sum256_bytes. simpl. by rewrite bool_decide_eq_true.
Qed.

Lemma Generate_spec buf plaintext prefix digest : length buf = 32%nat -> Generate buf = (plaintext, prefix, digest) ->
  prefix = LookupPrefix plaintext /\ prefix <> "" /\ digest = Digest plaintext.
Proof.
  intros Hl [= <- <- <-]. split_and!; [done| |done]. unfold LookupPrefix.
  assert (exists rest, (KeyPrefix +:+ RawURLEncoding buf) = String "y" (String "k" (String "-" rest)) /\ (12 <= 3 + String.length rest)%nat) as (rest & -> & Hr).
  { exists (RawURLEncoding buf). split; [done|]. do 10 (destruct buf as [|? buf]; [done|]). simpl. lia. }
  destruct (Nat.ltb_spec (String.length (String "y" (String "k" (String "-" rest)))) lookupPrefixLen) as [Hc|_].
  { unfold lookupPrefixLen in Hc. simpl in Hc. lia. }
  assert (String.prefix KeyPrefix (String "y" (String "k" (String "-" rest))) = true) as -> by (by destruct rest). done.
Qed.

(** ** The properties *)

(** No other client intervenes, no statement fails, the clock stands at [now]. *)
Definition calm (env : AccessEnv) (now : instant) : Prop :=
  (forall n db, av_others env n db = db) /\ (forall n, av_io env n = None) /\ (forall n, av_clock env n = now).

Definition usable_key (row : KeyRow) (now : instant) : Prop :=
  key_active (kr_Key row) = true /\ past (ak_ExpiresAt (kr_Key row)) now = false.

Section Calm.
Context (env : AccessEnv) (now : instant) (Hcalm : calm env now).

Lemma calm_stmt {A} (f : nat -> AccessDB -> AccessDB * res A) s :
  stmt env f s = (set_ru_DB (f (ru_n s) (ru_DB s)).1 s, (f (ru_n s) (ru_DB s)).2).
Proof using Hcalm.
  destruct Hcalm as (Ho & Hi & _). unfold stmt. rewrite Ho, Hi. by destruct (f (ru_n s) (ru_DB s)).
Qed.

Lemma calm_reads {A} (f : AccessDB -> res A) s : reads env f s = (set_ru_DB (ru_DB s) s, f (ru_DB s)).
Proof using Hcalm. unfold reads. by rewrite calm_stmt. Qed.

Lemma calm_touch keyID s : (touchLastUsed env keyID s).2 = Ok tt.
Proof using Type.
  unfold touchLastUsed, sbind, now_. destruct (throttle _ _ _) as [s2|]; [|done].
  unfold scatch. by destruct (writes env _ s2).
Qed.

(** The row under the prefix of a stored key is that key's. *)
Lemma by_prefix db id row : access_ok db -> ac_keys db !! id = Some row ->
  GetAPIKeyByPrefix (ak_Prefix (kr_Key row)) db = Ok row.
Proof using Type.
  intros Hok Hr. unfold GetAPIKeyByPrefix. set (p := fun r : KeyRow => _).
  assert (row ∈ rows (ac_keys db) p) as Hin.
  { apply rows_elem. split; [by apply String.eqb_eq|by exists id]. }
  destruct (rows (ac_keys db) p) as [|x l] eqn:E; [by apply elem_of_nil in Hin|]. f_equal.
  assert (x ∈ rows (ac_keys db) p) as Hx by (rewrite E; left). apply rows_elem in Hx as [Hp [k Hk]]. apply String.eqb_eq in Hp.
  assert (k = id) as -> by (eapply ao_prefix; [done|exact Hk|exact Hr|done]). congruence.
Qed.

Lemma auth_calm id row acct presented s : access_ok (ru_DB s) -> ac_keys (ru_DB s) !! id = Some row ->
  ac_accounts (ru_DB s) !! ak_BillingAccountID (kr_Key row) = Some acct ->
  LookupPrefix presented = ak_Prefix (kr_Key row) -> LookupPrefix presented <> "" -> VerifyDigest presented (kr_Hash row) = true ->
  (usable_key row now /\ account_active acct = true ->
     (Authenticate env presented s).2 = Ok (mkAuth (mkPrincipal PrincipalAPIKey (ba_ID acct) (ak_ID (kr_Key row)) "" "") (kr_Key row) acct)) /\
  (~ (usable_key row now /\ account_active acct = true) -> (Authenticate env presented s).2 = Err errInvalidKey).
Proof using Hcalm.
  intros Hok Hr Ha Hp Hne Hv. unfold Authenticate. rewrite (proj2 (String.eqb_neq _ _) Hne). unfold usable_key, scatch, sbind, sret.
  rewrite calm_reads, Hp, (by_prefix _ _ _ Hok Hr). cbn [ru_DB set_ru_DB]. rewrite Hv. cbn [negb orb].
  destruct (key_active (kr_Key row)); simpl; [|split; [by intros [[? _] _]|done]].
  set (clk := match ak_ExpiresAt (kr_Key row) with Some _ => now_ env | None => _ end).
  destruct (clk (set_ru_DB (ru_DB s) s)) as [s1 t] eqn:Et.
  assert (ru_DB s1 = ru_DB s /\ exists n, t = Ok n /\ past (ak_ExpiresAt (kr_Key row)) n = past (ak_ExpiresAt (kr_Key row)) now) as (Hd & n & -> & Hn).
  { unfold clk in Et. destruct (ak_ExpiresAt (kr_Key row)); injection Et as <- <-; (split; [done|]); eexists; split; try done.
    by rewrite (proj2 (proj2 Hcalm)). }
  rewrite Hn. destruct (past (ak_ExpiresAt (kr_Key row)) now).
  { split; [by intros [[_ ?] _]|]. intros _. by destruct (writes _ _ _). }
  rewrite calm_reads, Hd. unfold GetBillingAccountByID, select_one. rewrite Ha. simpl.
  destruct (account_active acct); simpl; [|split; [by intros [_ ?]|done]].
  split; [|by intros []]. intros _. pose proof (calm_touch (ak_ID (kr_Key row)) (set_ru_DB (ru_DB s) s1)) as Ht.
  destruct (touchLastUsed _ _ _) as [s2 u]. simpl in Ht. by rewrite Ht.
Qed.
End Calm.

Section Minting.
Context (env : AccessEnv) (Hothers : forall n db, rtc access_step db (av_others env n db)).
Context (Hrand : forall n buf, av_rand env n = Some buf -> length buf = 32%nat).

(** What the store holds of a key just created. *)
Definition minted (accountID : string) (allow : list string) (c : CreatedKey) (db : AccessDB) : Prop :=
  exists row, ac_keys db !! ak_ID (ck_Key c) = Some row /\ kr_Key row = ck_Key c /\ kr_Hash row = Digest (ck_Plaintext c) /\
    ak_Prefix (ck_Key c) = LookupPrefix (ck_Plaintext c) /\ ak_Prefix (ck_Key c) <> "" /\
    ak_BillingAccountID (ck_Key c) = accountID /\ ak_ModelAllow (ck_Key c) = allow /\ is_Some (ac_accounts db !! accountID).

Lemma mint_Ok accountID allow p fuel : forall last s s' c, is_ok last = false ->
  mint env fuel last accountID allow p s = (s', Ok c) -> rtc access_step (ru_DB s) (ru_DB s') /\ minted accountID allow c (ru_DB s').
Proof using Hothers Hrand.
  induction fuel as [|fuel IH]; intros last s s' c Hl H; cbn [mint] in H; [apply sret_Ok in H as [_ ->]; done|].
  apply sbind_Ok in H as (s1 & buf & H1 & H).
  assert (ru_DB s1 = ru_DB s /\ length buf = 32%nat) as [Hd Hbuf].
  { unfold random in H1. destruct (av_rand env (ru_n s)) as [b|] eqn:Hb; [|done]. injection H1 as <- <-. split; [done|by eapply Hrand]. }
  destruct (Generate buf) as [[plaintext prefix] digest] eqn:Hg. destruct (Generate_spec _ _ _ _ Hbuf Hg) as (Hp & Hne & Hdig).
  apply scatch_inv in H as (s2 & r & H2 & H).
  assert (rtc access_step (ru_DB s) (ru_DB s2)) as Hs2.
  { rewrite <- Hd. eapply (writes_steps env Hothers); [|exact H2]. intros n db k db' Hi. exact (as_insert _ _ _ _ _ _ _ Hi). }
  destruct r as [key|e].
  - apply sret_Ok in H as [-> [= <-]]. split; [done|].
    apply (writes_Ok env Hothers) in H2 as (n & db1 & _ & H2). apply insert_key_spec in H2 as (-> & _ & Hacct & _ & Hdb).
    eexists. rewrite Hdb. split; [simpl; by rewrite lookup_insert_eq|]. subst prefix digest. simpl. split_and!; first [reflexivity|exact Hne|exact Hacct].
  - destruct (bool_decide _); [|by apply sret_Ok in H as [_ ?]]. apply IH in H as [Hs Hm]; [|done]. split; [by etransitivity|done].
Qed.

Lemma require_Ok b s s' u : require b s = (s', Ok u) -> s' = s /\ b = true.
Proof using Type. unfold require. intros [-> H]%sret_Ok. by destruct b. Qed.

Lemma in_future_Ok t s s' u : in_future env t s = (s', Ok u) -> ru_DB s' = ru_DB s.
Proof using Type.
  unfold in_future. intros H. apply sbind_Ok in H as (s1 & now & [Hd _]%now_inv & [-> _]%require_Ok). done.
Qed.

Lemma when_Ok {A} (o : option A) (k : A -> stmts unit) s s' u : (forall a s s' u, k a s = (s', Ok u) -> ru_DB s' = ru_DB s) ->
  when o k s = (s', Ok u) -> ru_DB s' = ru_DB s.
Proof using Type. intros Hk. destruct o; simpl; [apply Hk|by intros [-> _]%sret_Ok]. Qed.

Lemma scope_Ok accountID allow s s' u : checkModelScope env accountID allow s = (s', Ok u) ->
  rtc access_step (ru_DB s) (ru_DB s') /\ exists now, forall id, id ∈ allow -> exists e, e ∈ active_entitlements accountID now (ru_DB s') /\ id ∈ e_ModelIDs e.
Proof using Hothers.
  unfold checkModelScope. intros H. apply sbind_Ok in H as (s1 & now & [Hd _]%now_inv & H).
  apply sbind_Ok in H as (s2 & ents & H2 & H). apply (reads_Ok env Hothers) in H2 as [Hs2 [= <-]]. apply sret_Ok in H as [-> H].
  rewrite Hd in Hs2. split; [done|]. exists now. intros id Hid. unfold ValidateModelScope in H. destruct (forallb _ allow) eqn:Hf; [|done].
  rewrite forallb_forall in Hf. apply list_elem_of_In, Hf in Hid. apply existsb_exists in Hid as (e & He & Hin).
  exists e. split; [by apply list_elem_of_In|by apply bool_decide_eq_true in Hin].
Qed.

(** A created key belongs to its creator and allows only models that an active
    entitlement of the account granted during the call. *)
Lemma CreateKey_Ok userID p s s' c : access_ok (ru_DB s) -> CreateKey env userID p s = (s', Ok c) ->
  rtc access_step (ru_DB s) (ru_DB s') /\ minted (ak_BillingAccountID (ck_Key c)) (ak_ModelAllow (ck_Key c)) c (ru_DB s') /\
  (exists acct, ac_accounts (ru_DB s') !! ak_BillingAccountID (ck_Key c) = Some acct /\ ba_UserID acct = userID) /\
  exists d now, rtc access_step (ru_DB s) d /\ rtc access_step d (ru_DB s') /\
    forall id, id ∈ ak_ModelAllow (ck_Key c) ->
      exists e, e ∈ active_entitlements (ak_BillingAccountID (ck_Key c)) now d /\ id ∈ e_ModelIDs e.
Proof using Hothers Hrand.
  intros Hok. unfold CreateKey. intros H.
  apply sbind_Ok in H as (s1 & u1 & [-> _]%require_Ok & H).
  apply sbind_Ok in H as (s2 & u2 & H2%when_Ok & H); [|by intros ? ? ? ? [-> _]%require_Ok].
  apply sbind_Ok in H as (s3 & u3 & H3%when_Ok & H); [|by intros ? ? ? ? [-> _]%require_Ok].
  apply sbind_Ok in H as (s4 & u4 & H4%when_Ok & H); [|by intros ? ? ? ? ?%in_future_Ok].
  apply sbind_Ok in H as (s5 & allow & [-> _]%sret_Ok & H).
  apply sbind_Ok in H as (s6 & acct & H6 & H). unfold ensure in H6. apply (stmt_Ok env Hothers) in H6 as (n & db1 & Hs1 & He).
  assert (rtc access_step (ru_DB s) (ru_DB s6)) as Hs6.
  { rewrite <- H2, <- H3, <- H4. etransitivity; [exact Hs1|]. apply rtc_once.
    pose proof (as_ensure db1 (av_id env n) userID) as Hstep. by rewrite He in Hstep. }
  apply ensure_spec in He as (_ & _ & Hacct). destruct (Hacct _ eq_refl) as (Hu & id & Hid).
  assert (ba_ID acct = id) as <- by (eapply ao_accounts; [by apply (proj2 (access_steps_later _ _ Hs6))|done]).
  apply sbind_Ok in H as (s7 & u7 & H7 & H). apply mint_Ok in H as [Hs8 Hm]; [|done].
  assert (rtc access_step (ru_DB s6) (ru_DB s7) /\ exists now, forall i, i ∈ allow ->
            exists e, e ∈ active_entitlements (ba_ID acct) now (ru_DB s7) /\ i ∈ e_ModelIDs e) as [Hs7 (now & Hscope)].
  { destruct (bool_decide (allow = [])) eqn:Hb; [|by eapply scope_Ok]. apply bool_decide_eq_true in Hb as ->.
    apply sret_Ok in H7 as [-> _]. split; [apply rtc_refl|]. exists 0. intros i Hi. by apply elem_of_nil in Hi. }
  assert (ak_BillingAccountID (ck_Key c) = ba_ID acct /\ ak_ModelAllow (ck_Key c) = allow) as [Hb Ha].
  { by destruct Hm as (row & _ & _ & _ & _ & _ & ? & ? & _). }
  rewrite Hb, Ha. split_and!; [do 2 (etransitivity; [eassumption|]); done|done| |].
  - assert (rtc access_step (ru_DB s6) (ru_DB s')) as Hs by (by etransitivity).
    apply access_steps_later in Hs as [[_ Hs] _]. destruct (Hs _ _ Hid) as (a' & Ha' & Hu' & _). exists a'. split; [done|congruence].
  - exists (ru_DB s7), now. split_and!; [by etransitivity|done|done].
Qed.
End Minting.

(** A customer key opens its creator's account and nothing
    else. Whatever other clients and lost connections do around its creation
    and later: the created plaintext authenticates as exactly that key, for the
    billing account of the user who created it, as long as the key is active
    and unexpired and the account is active, and is an invalid key otherwise;
    and the only strings that verify against its row are those with the same
    SHA-256. *)
Theorem key_round_trip (env env' : AccessEnv) (userID : string) (p : CreateParams) (s s1 s2 : Run) (c : CreatedKey) (now : instant)
    (Hothers : forall n db, rtc access_step db (av_others env n db))
    (Hrand : forall n buf, av_rand env n = Some buf -> length buf = 32%nat)
    (Hok : access_ok (ru_DB s)) (Hcreate : CreateKey env userID p s = (s1, Ok c))
    (Hlater : rtc access_step (ru_DB s1) (ru_DB s2)) (Hcalm : calm env' now) :
  exists row acct, ac_keys (ru_DB s2) !! ak_ID (ck_Key c) = Some row /\
    ac_accounts (ru_DB s2) !! ak_BillingAccountID (kr_Key row) = Some acct /\ ba_UserID acct = userID /\
    (usable_key row now /\ account_active acct = true ->
       (Authenticate env' (ck_Plaintext c) s2).2
       = Ok (mkAuth (mkPrincipal PrincipalAPIKey (ba_ID acct) (ak_ID (ck_Key c)) "" "") (kr_Key row) acct)) /\
    (~ (usable_key row now /\ account_active acct = true) -> (Authenticate env' (ck_Plaintext c) s2).2 = Err errInvalidKey) /\
    (forall presented, VerifyDigest presented (kr_Hash row) = true <-> Sum256 presented = Sum256 (ck_Plaintext c)).
Proof.
  apply (CreateKey_Ok env Hothers Hrand) in Hcreate as (Hs1 & (row & Hr & Hk & Hh & Hp & Hne & _) & (acct & Ha & Hu) & _); [|done].
  assert (access_ok (ru_DB s2)) as Hok2 by (apply (proj2 (access_steps_later _ _ Hlater)), (proj2 (access_steps_later _ _ Hs1)), Hok).
  apply access_steps_later in Hlater as [[Hkeys Haccts] _]. destruct (Hkeys _ _ Hr) as (row2 & Hr2 & Hid & Hacct & Hpre & Hhash & _).
  destruct (Haccts _ _ Ha) as (acct2 & Ha2 & Hu2 & Hi2). rewrite Hk in Hid, Hacct, Hpre. rewrite Hh in Hhash.
  exists row2, acct2. rewrite Hacct. split_and!; [done|done|congruence| | |].
  1: rewrite <- Hid.
  1,2: apply (auth_calm env' now Hcalm _ row2 acct2 (ck_Plaintext c) s2 Hok2 Hr2);
    [by rewrite Hacct|congruence|congruence|rewrite Hhash; exact (proj2 (VerifyDigest_Digest _ _) eq_refl)].
  intros presented. rewrite Hhash. apply VerifyDigest_Digest.
Qed.

(** The key [keyID] as its owner sees it. *)
Definition owns_key (userID keyID : string) (db : AccessDB) (k : APIKey) : Prop :=
  GetAPIKeyByID keyID db = Ok k /\ exists a, GetBillingAccountByUser userID db = Ok a /\ ak_BillingAccountID k = ba_ID a.

Lemma ownedKey_Ok env userID keyID s s' k : (forall n db, rtc access_step db (av_others env n db)) ->
  ownedKey env userID keyID s = (s', Ok k) ->
  rtc access_step (ru_DB s) (ru_DB s') /\ exists d row, rtc access_step (ru_DB s) d /\ rtc access_step d (ru_DB s') /\
    ac_keys d !! keyID = Some row /\ kr_Key row = k.
Proof.
  intros Ho H. unfold ownedKey in H. apply scatch_inv in H as (s1 & r & H1 & H). apply sbind_Ok in H as (s2 & key & [-> Hr]%sret_Ok & H).
  destruct r as [key'|e]; [injection Hr as ->|destruct (is_not_found e); done].
  apply (reads_Ok env Ho) in H1 as [Hs1 H1].
  apply scatch_inv in H as (s3 & a & H3 & H). apply sbind_Ok in H as (s4 & acct & [-> _]%sret_Ok & H).
  apply (reads_steps env Ho) in H3. apply sret_Ok in H as [-> H]. destruct (String.eqb _ _); [injection H as <-|done].
  split; [by etransitivity|]. unfold GetAPIKeyByID, select_one in H1. destruct (ac_keys (ru_DB s1) !! keyID) as [row|] eqn:Hrow; [|done].
  exists (ru_DB s1), row. injection H1 as <-. done.
Qed.

Lemma dead_key env presented s id row : (forall n db, rtc access_step db (av_others env n db)) -> access_ok (ru_DB s) ->
  ac_keys (ru_DB s) !! id = Some row -> key_active (kr_Key row) = false -> LookupPrefix presented = ak_Prefix (kr_Key row) ->
  is_ok (Authenticate env presented s).2 = false.
Proof.
  intros Ho Hok Hr Hd Hp. destruct (Authenticate env presented s) as [s' [a|e]] eqn:E; [|done]. exfalso.
  apply (auth_sound env Ho) in E as (id' & row' & acct & now & d1 & d2 & Hs1 & _ & _ & Hr' & Hp' & _ & Ha & _).
  apply access_steps_later in Hs1 as [[Hkeys _] Hok1]. destruct (Hkeys _ _ Hr) as (row1 & Hr1 & _ & _ & Hpre & _ & Hdead).
  assert (id = id') as <- by (eapply ao_prefix; [by apply Hok1|exact Hr1|exact Hr'|congruence]).
  simplify_eq. by rewrite Hdead in Ha.
Qed.

(** C36: REVOKED. A revocation is final and immediate. Once RevokeKey has
    answered, whether or not it was the one that changed the status, no string
    authenticates under that key's prefix any more: not the right secret, not
    after any edit of the key, and whatever the other clients do before or
    during the call. *)
Theorem revoked_key_stays_dead (env env' : AccessEnv) (userID keyID presented : string) (s s1 s2 : Run) (changed : bool) (row : KeyRow)
    (Hothers : forall n db, rtc access_step db (av_others env n db))
    (Hothers' : forall n db, rtc access_step db (av_others env' n db))
    (Hok : access_ok (ru_DB s)) (Hrevoke : RevokeKey env userID keyID s = (s1, Ok changed))
    (Hlater : rtc access_step (ru_DB s1) (ru_DB s2)) (Hrow : ac_keys (ru_DB s2) !! keyID = Some row)
    (Hpresented : LookupPrefix presented = ak_Prefix (kr_Key row)) :
  is_ok (Authenticate env' presented s2).2 = false.
Proof.
  unfold RevokeKey in Hrevoke. apply sbind_Ok in Hrevoke as (s3 & k & H3 & H).
  apply (ownedKey_Ok _ _ _ _ _ _ Hothers) in H3 as (Hs3 & d & krow & Hd & Hd3 & Hkrow & Hkey).
  apply sbind_Ok in H as (s4 & at_ & [Hd4 _]%now_inv & H). apply (writes_Ok env Hothers) in H as (n & db1 & Hs4 & H). rewrite Hd4 in Hs4.
  assert (rtc access_step d db1) as Hdb1 by (by etransitivity).
  assert (ak_ID k = keyID) as Hid by (rewrite <- Hkey; exact (ao_keys _ (proj2 (access_steps_later _ _ Hd) Hok) _ _ Hkrow)).
  assert (access_ok (ru_DB s2)) as Hok2.
  { apply (proj2 (access_steps_later _ _ Hlater)), (proj2 (access_step_later _ _ (as_revoke _ _ _ _ _ _ H))), (proj2 (access_steps_later _ _ Hdb1)),
      (proj2 (access_steps_later _ _ Hd)), Hok. }
  destruct (proj1 (proj1 (access_steps_later _ _ Hdb1)) _ _ Hkrow) as (row1 & Hrow1 & _). rewrite Hid in H.
  assert (exists r, ac_keys (ru_DB s1) !! keyID = Some r /\ key_active (kr_Key r) = false) as (r & Hr & Hdead).
  { apply update_key_spec in H as [(_ & -> & Hp)|(r & _ & Hr & _ & ->)]; [eauto|].
    simpl. rewrite lookup_insert_eq. eauto. }
  destruct (proj1 (proj1 (access_steps_later _ _ Hlater)) _ _ Hr) as (r2 & Hr2 & _ & _ & _ & _ & Hdead2).
  assert (r2 = row) as -> by congruence.
  exact (dead_key env' presented s2 keyID row Hothers' Hok2 Hrow (Hdead2 Hdead) Hpresented).
Qed.


(** Customers cannot reach each other's keys, nor learn that
    they exist: a key of another account, a key that does not exist and a
    caller without an account all get the same answer from reading, updating
    and revoking, and the tables stay as they were; an owner gets the key. *)
Theorem foreign_keys_hidden (env : AccessEnv) (userID keyID : string) (patch : KeyPatch) (s : Run) (now : instant) (Hcalm : calm env now) :
  (forall k, owns_key userID keyID (ru_DB s) k -> (GetKey env userID keyID s).2 = Ok k) /\
  ((forall k, ~ owns_key userID keyID (ru_DB s) k) ->
     let miss {A} (op : stmts A) := (op s).2 = Err errAPIKeyNotFound /\ ru_DB (op s).1 = ru_DB s in
     miss (GetKey env userID keyID) /\ miss (UpdateKey env userID keyID patch) /\ miss (RevokeKey env userID keyID)).
Proof.
  assert (Hown : exists n,
    (forall k, owns_key userID keyID (ru_DB s) k -> ownedKey env userID keyID s = (mkRun (ru_DB s) n (ru_touched s) (ru_writes s), Ok k)) /\
    ((forall k, ~ owns_key userID keyID (ru_DB s) k) ->
       exists m, ownedKey env userID keyID s = (mkRun (ru_DB s) m (ru_touched s) (ru_writes s), Err errAPIKeyNotFound))).
  { exists (S (S (ru_n s))). unfold ownedKey, scatch, sbind, sret, owns_key. rewrite (calm_reads env now Hcalm).
    destruct (GetAPIKeyByID keyID (ru_DB s)) as [k|e] eqn:Hk.
    - rewrite (calm_reads env now Hcalm). cbn [ru_DB set_ru_DB].
      destruct (GetBillingAccountByUser userID (ru_DB s)) as [a|e] eqn:Ha.
      + destruct (String.eqb_spec (ak_BillingAccountID k) (ba_ID a)) as [He|He].
        * split; [intros k' [[= <-] _]; done|]. intros Hno. destruct (Hno k). split; [done|]. by exists a.
        * split; [|intros _; eexists; done]. intros k' [[= <-] (a' & [= <-] & ?)]. done.
      + apply no_user_account in Ha as [-> _]. split; [intros k' [_ (a' & ? & _)]; done|]. intros _. eexists. done.
    - split; [by intros k' [? _]|]. intros _. unfold GetAPIKeyByID, select_one in Hk.
      destruct (ac_keys (ru_DB s) !! keyID); [done|]. injection Hk as <-. eexists. done. }
  destruct Hown as (n & Hyes & Hno). split; [intros k Hk; unfold GetKey; by rewrite (Hyes k Hk)|].
  intros Hnot. destruct (Hno Hnot) as [m Hm]. unfold GetKey, UpdateKey, RevokeKey, sbind. by rewrite Hm.
Qed.

(** The models a caller may use are exactly those that some
    entitlement of the billing account, active when it was read, grants, and
    that the key allows if it restricts models at all: a key narrows its
    account's grants and never widens them, and no duplicate is listed for a
    caller without a key. *)
Theorem keys_only_narrow (env : AccessEnv) (pr : Principal) (key : option APIKey) (s s' : Run) (ids : list string)
    (Hothers : forall n db, rtc access_step db (av_others env n db)) (Hrun : AuthorizedModelIDs env pr key s = (s', Ok ids)) :
  exists now, (key = None -> NoDup ids) /\
    forall id, id ∈ ids <->
      (exists e, e ∈ active_entitlements (pr_BillingAccountID pr) now (ru_DB s') /\ id ∈ e_ModelIDs e) /\
      match key with Some k => ak_ModelAllow k = [] \/ id ∈ ak_ModelAllow k | None => True end.
Proof.
  apply sbind_Ok in Hrun as (s1 & now & _ & H). apply sbind_Ok in H as (s2 & ents & H2 & H).
  apply (reads_Ok env Hothers) in H2 as [_ [= <-]]. apply sret_Ok in H as [-> [= <-]]. exists now.
  set (ents := active_entitlements _ now _).
  assert (Hfold : forall l acc, NoDup acc -> let r := foldl (fun (acc : list string) id => if bool_decide (id ∈ acc) then acc else (acc ++ [id])%list) acc l in
            NoDup r /\ forall id, id ∈ r <-> id ∈ acc \/ id ∈ l).
  { induction l as [|x l IH]; intros acc Hn; simpl; [split; [done|set_solver]|]. case_bool_decide as Hin.
    - destruct (IH acc Hn) as [H1 H2]. split; [done|]. intros id. rewrite H2. set_solver.
    - destruct (IH (acc ++ [x])%list) as [H1 H2]; [apply NoDup_app; split_and!; [done|set_solver|apply NoDup_singleton]|].
      split; [done|]. intros id. rewrite H2. set_solver. }
  destruct (Hfold (mjoin (map e_ModelIDs ents)) [] (NoDup_nil_2)) as [Hnd Hmem]. fold (granted_models ents) in Hnd, Hmem.
  assert (Hgrant : forall id, id ∈ granted_models ents <-> exists e, e ∈ ents /\ id ∈ e_ModelIDs e).
  { intros id. rewrite Hmem. split.
    - intros [H|H]; [by apply elem_of_nil in H|]. apply list_elem_of_join in H as (l & Hid & Hl). apply list_elem_of_fmap in Hl as (e & -> & He). eauto.
    - intros (e & He & Hid). right. apply list_elem_of_join. exists (e_ModelIDs e). split; [done|]. apply list_elem_of_fmap. eauto. }
  destruct key as [k|]; [|split; [done|]; intros id; rewrite Hgrant; tauto].
  split; [done|]. intros id. case_bool_decide as Hk; [rewrite Hgrant; tauto|].
  rewrite list_elem_of_In, filter_In, <- list_elem_of_In, bool_decide_eq_true, Hgrant. tauto.
Qed.

(** ** Concrete instances *)

Definition demo_key : CreatedKey :=
  match demo_create.2 with Ok c => c | Err _ => mkCreated (with_settings (mkAPIKey "" "" "" "" [] None 0 None None APIKeyRevoked None None None 0 0) "" [] None None None) "" end.
Definition demo_revoke : Run * res bool := RevokeKey (quiet_env 150 []) "alice" "row3" demo_create.1.

Lemma quiet_calm now buf : calm (quiet_env now buf) now.
Proof. by split_and!. Qed.
Lemma quiet_others now buf n db : rtc access_step db (av_others (quiet_env now buf) n db).
Proof. apply rtc_refl. Qed.
Lemma no_keys_ok : access_ok no_keys.
Proof. by split. Qed.

Lemma demo_run_ok : exists n m w, CreateKey (quiet_env 100 demo_buf) "alice" (mkParams "ci" [] (Some 5) (Some 60) (Some 1000)) (start no_keys)
  = (mkRun (ru_DB demo_create.1) n m w, Ok demo_key).
Proof. exists (ru_n demo_create.1), (ru_touched demo_create.1), (ru_writes demo_create.1). vm_compute. reflexivity. Qed.

Lemma demo_ok : access_ok (ru_DB demo_create.1).
Proof.
  destruct demo_run_ok as (n & m & w & H). eapply (CreateKey_Ok _ (quiet_others 100 demo_buf)) in H; [|by intros k buf [= <-]|apply no_keys_ok].
  apply (proj2 (access_steps_later _ _ (proj1 H))), no_keys_ok.
Qed.

Lemma key_round_trip_witness : exists row acct, ac_keys (ru_DB demo_create.1) !! "row3" = Some row /\
  ac_accounts (ru_DB demo_create.1) !! ak_BillingAccountID (kr_Key row) = Some acct /\ ba_UserID acct = "alice".
Proof.
  destruct (key_round_trip (quiet_env 100 demo_buf) (quiet_env 200 []) "alice" (mkParams "ci" [] (Some 5) (Some 60) (Some 1000))
    (start no_keys) demo_create.1 demo_create.1 demo_key 200) as (row & acct & Hr & Ha & Hu & _).
  - apply quiet_others.
  - by intros n buf [= <-].
  - apply no_keys_ok.
  - vm_compute. reflexivity.
  - apply rtc_refl.
  - apply quiet_calm.
  - exists row, acct. split; [exact Hr|]. split; [exact Ha|exact Hu].
Defined.

Lemma revoked_key_stays_dead_witness :
  is_ok (Authenticate (quiet_env 200 []) "yk-AAECAwQFBgcICQoLDA0ODxAREhMUFRYXGBkaGxwdHh8" demo_revoke.1).2 = false.
Proof.
  eapply (revoked_key_stays_dead (quiet_env 150 []) (quiet_env 200 []) "alice" "row3" _ demo_create.1 demo_revoke.1 demo_revoke.1 true).
  - apply quiet_others.
  - apply quiet_others.
  - apply demo_ok.
  - vm_compute. reflexivity.
  - apply rtc_refl.
  - vm_compute. reflexivity.
  - vm_compute. reflexivity.
Defined.

Lemma foreign_keys_hidden_witness : (RevokeKey (quiet_env 150 []) "mallory" "row3" demo_create.1).2 = Err errAPIKeyNotFound.
Proof.
  destruct (foreign_keys_hidden (quiet_env 150 []) "mallory" "row3" (mkKeyPatch None None None false None false None false) demo_create.1 150)
    as [_ H]; [apply quiet_calm|].
  destruct H as (_ & _ & H & _); [|exact H]. intros k [_ (a & Ha & _)]. vm_compute in Ha. discriminate Ha.
Defined.

Definition demo_grant : Entitlement :=
  mkEntitlement "e1" "acc" SourceSubscription "sub" ["m1"; "m2"] "pol" 0 0 None 1 false EntitlementActive 0 0.
Definition narrow_key : APIKey := mkAPIKey "k" "acc" "" "p" ["m2"; "m9"] None 0 None None APIKeyActive None None None 0 0.

Lemma keys_only_narrow_witness : exists now e,
  e ∈ active_entitlements "acc" now (mkAccessDB ∅ ∅ {[ "e1" := demo_grant ]}) /\ "m2" ∈ e_ModelIDs e.
Proof.
  destruct (keys_only_narrow (quiet_env 150 []) (mkPrincipal PrincipalAPIKey "acc" "k" "" "") (Some narrow_key)
    (start (mkAccessDB ∅ ∅ {[ "e1" := demo_grant ]})) (mkRun (mkAccessDB ∅ ∅ {[ "e1" := demo_grant ]}) 2 ∅ 0) ["m2"]) as (now & _ & H).
  - apply quiet_others.
  - vm_compute. reflexivity.
  - destruct (proj1 (H "m2")) as [(e & He & Hm) _]; [by apply list_elem_of_here|]. exists now, e. split; [exact He|exact Hm].
Defined.
