(* ===== verification/Recovery.v ===== *)
(** * Recovery: the settlement recovery worker

    [internal/inference/workers/settlement_recovery.go], the conservative
    estimate of [accounting/settlement.go], [accounting/reconciliation.go] and
    the reads of [postgres/reconciliation_repo.go] and [usage_repo.go] it uses.
    A pass threads the tables through its transactions; before each access
    [re_others] says what the other clients commit meanwhile, so every row the
    worker holds may be stale when it acts. *)

From Stdlib Require Import ZArith Lia Bool.
From stdpp Require Import base gmap strings list pretty.
From S2P Require Import Prelude Domain Money Calendar Window Pricing WalletRules Tables RequestStore QuotaStore WalletStore.
From S2P Require Import LedgerStore LeaseStore Conservation StoreInv StoreSteps StoreProps Principal Admission.

Local Open Scope Z_scope.
Local Open Scope go_scope.

(** ** The conservative estimate *)

Record Bounds := mkBoundsOf {
  bo_InputBoundTokens : Z;
  bo_OutputCapTokens : Z;
  bo_ExtraBounds : list (string * Z);
}.

Definition BoundsOf (r : Request) : option Bounds :=
  match r_InputBoundTokens r, r_OutputCapTokens r with
  | Some i, Some o => Some (mkBoundsOf i o (r_ExtraBounds r))
  | _, _ => None
  end.

(** Without persisted bounds no token count is made up. *)
Definition ConservativeRecord (requestID attemptID : string) (r : Request) (revision : Z) : UsageRecord :=
  mkUsage requestID attemptID UsageEstimated
    match BoundsOf r with
    | Some b => mkBuckets (Some (bo_InputBoundTokens b)) None None (Some (bo_OutputCapTokens b)) None
    | None => mkBuckets None None None None None
    end revision.

(** ** Window reconciliation *)

Record WindowReconciliation := mkRecon {
  wr_WindowID : string;
  wr_Kind : WindowKind;
  wr_StoredUsed : Z;
  wr_RebuiltUsed : Z;
}.

Definition Diff (r : WindowReconciliation) : Z := sub64 (wr_RebuiltUsed r) (wr_StoredUsed r).
Definition Mismatches (l : list WindowReconciliation) : list WindowReconciliation :=
  List.filter (fun r => negb (Diff r =? 0)) l.

Definition reconciliations (db : DB) : list WindowReconciliation :=
  map (fun '(wid, kind, stored, rebuilt) => mkRecon wid kind stored rebuilt) (ReconcileWindowAggregates db).

(** ** Reads *)

Definition openRequestStatuses : list RequestStatus :=
  [ReqReserved; ReqDispatching; ReqStreaming; ReqNonStreaming; ReqSettling].

Definition attempts_of (requestID : string) (db : DB) : list Attempt :=
  rows (attempts db) (fun a => bool_decide (at_RequestID a = requestID)).

Definition recent_attempt (cutoff : instant) (a : Attempt) : bool :=
  match at_StartedAt a with Some t => cutoff <=? t | None => false end.

Definition live_lease (requestID : string) (now : instant) (l : ConcurrencyLease) : bool :=
  bool_decide (l_RequestID l = requestID) && bool_decide (l_State l = LeaseHeld) && (now <? l_ExpiresAt l).

(** The three guards that keep the sweep off live requests. *)
Definition stale_open (now cutoff : instant) (db : DB) (r : Request) : bool :=
  match r_Status r with Some s => bool_decide (s ∈ openRequestStatuses) | None => false end
  && (r_UpdatedAt r <? cutoff)
  && negb (existsb (recent_attempt cutoff) (attempts_of (r_ID r) db))
  && negb (existsb (live_lease (r_ID r) now) (map_to_list (leases db)).*2).

Definition default_limit (limit : Z) : nat := Z.to_nat (if limit <=? 0 then 100 else limit).

(** The query of [ListStaleOpenRequests]; [now] is the database's. *)
Definition stale_ids (now cutoff : instant) (limit : Z) (db : DB) : list string :=
  map r_ID (take (default_limit limit) (sort_by r_UpdatedAt (rows (requests db) (stale_open now cutoff db)))).

(** ORDER BY created_at: the order of insertion. *)
Definition ListPendingReconciliationJobs (limit : Z) (db : DB) : list ReconciliationJob :=
  take (default_limit limit) (List.filter (fun j => bool_decide (j_Status j = JobPending)) (jobs db)).

Definition ListAttempts (requestID : string) (db : DB) : list Attempt :=
  sort_by at_AttemptNo (attempts_of requestID db).

Definition AttemptErrorKinds (requestID : string) (db : DB) : string -> string :=
  fun id => match List.find (fun a => String.eqb (at_ID a) id) (attempts_of requestID db) with
            | Some a => at_ErrorKind a
            | None => ""
            end.

(** ** Classification *)

Definition zero_kinds : list string :=
  ["payload"; "egress_rejected"; "credential"; "config"; "lease_lost"; "storage"; "transport"].

Definition zeroConsumptionErrorKind (kind : string) : bool :=
  String.prefix "http_" kind || bool_decide (kind ∈ zero_kinds).

Definition proven_zero (kinds : string -> string) (a : Attempt) : bool :=
  String.eqb (at_Status a) "failed" && zeroConsumptionErrorKind (kinds (at_ID a)).

(** [None] is [classNotSent]; otherwise the anchor, the last attempt whose
    consumption is not proven zero. *)
Definition classify (ats : list Attempt) (kinds : string -> string) : option Attempt :=
  foldl (fun anchor a => if proven_zero kinds a then anchor else Some a) None ats.

(** ** The worker *)

(** [RecoveryConfig]; [withDefaults]. *)
Record RecoveryConfig := mkRecoveryConfig {
  rc_Interval : duration;
  rc_BatchLimit : Z;
  rc_Grace : duration;
  rc_ReconciliationDeadline : duration;
}.

Definition withDefaults (c : RecoveryConfig) : RecoveryConfig :=
  mkRecoveryConfig
    (if rc_Interval c <=? 0 then 30 * second else rc_Interval c)
    (if rc_BatchLimit c <=? 0 then 100 else rc_BatchLimit c)
    (if rc_Grace c <=? 0 then 15 * minute else rc_Grace c)
    (if rc_ReconciliationDeadline c <=? 0 then 24 * hour else rc_ReconciliationDeadline c).

Record PassStats := mkStats {
  ps_Scanned : nat;
  ps_ReleasedNotSent : nat;
  ps_SettledConservative : nat;
  ps_SettledVerified : nat;
  ps_RacingSkipped : nat;
  ps_JobsProcessed : nat;
  ps_JobsSettled : nat;
  ps_JobsAwaitingEvidence : nat;
  ps_JobsNoEvidence : nat;
  ps_Escalated : nat;
  ps_WindowMismatches : nat;
  ps_Errors : nat;
}.

Definition no_stats : PassStats := mkStats 0 0 0 0 0 0 0 0 0 0 0 0.

Inductive Counter :=
| CScanned | CReleasedNotSent | CSettledConservative | CSettledVerified | CRacingSkipped | CJobsProcessed
| CJobsSettled | CJobsAwaitingEvidence | CJobsNoEvidence | CEscalated | CWindowMismatches | CErrors.

#[global] Instance Counter_eq_dec : EqDecision Counter.
Proof. solve_decision. Defined.

Definition add_to (c : Counter) (k : nat) (s : PassStats) : PassStats :=
  let up d n := if bool_decide (c = d) then (n + k)%nat else n in
  mkStats (up CScanned (ps_Scanned s)) (up CReleasedNotSent (ps_ReleasedNotSent s))
    (up CSettledConservative (ps_SettledConservative s)) (up CSettledVerified (ps_SettledVerified s))
    (up CRacingSkipped (ps_RacingSkipped s)) (up CJobsProcessed (ps_JobsProcessed s))
    (up CJobsSettled (ps_JobsSettled s)) (up CJobsAwaitingEvidence (ps_JobsAwaitingEvidence s))
    (up CJobsNoEvidence (ps_JobsNoEvidence s)) (up CEscalated (ps_Escalated s))
    (up CWindowMismatches (ps_WindowMismatches s)) (up CErrors (ps_Errors s)).

(** What the [n]-th access to the outside draws: the state the other clients
    have made of the store, a failing read, the transaction's randomness, the
    clock, the price list and the verifier's answer ([None]: it cannot look the
    execution up; an error falls back too). *)
Record RecoveryEnv := mkRecoveryEnv {
  re_others : nat -> DB -> DB;
  re_read : nat -> option error;
  re_tx : nat -> TxEnv;
  re_jobID : nat -> string;
  re_clock : nat -> instant;
  re_cost : nat -> UsageRecord -> res (option Money);
  re_verifier : option (nat -> Attempt -> res (option (UsageRecord * Microcredit)));
}.

(** The store, the counters of the pass and the number of accesses so far. *)
Record Pass := mkPass { pa_DB : DB; pa_stats : PassStats; pa_n : nat }.

Definition act (A : Type) := Pass -> Pass * A.
Definition aret {A} (a : A) : act A := fun s => (s, a).
Definition abind {A B} (p : act A) (k : A -> act B) : act B := fun s => let '(s, a) := p s in k a s.

Declare Scope act_scope.
Delimit Scope act_scope with act.
Notation "'bind' x '<-' p ';' k" := (abind p (fun x => k)) (at level 10, x pattern, p at level 100, k at level 200)
  : act_scope.
Notation "p ';;' k" := (abind p (fun _ => k)) (at level 100, k at level 200, right associativity) : act_scope.
Local Open Scope act_scope.

Definition count (c : Counter) (k : nat) : act unit :=
  fun s => (mkPass (pa_DB s) (add_to c k (pa_stats s)) (pa_n s), tt).
Definition stats : act PassStats := fun s => (s, pa_stats s).

Section Worker.
Context (cfg : RecoveryConfig) (env : RecoveryEnv).

(** One access: time passes, then [f] runs on what the others left. *)
Definition access {A} (f : nat -> DB -> DB * A) : act A := fun s =>
  let n := pa_n s in
  let '(db, a) := f n (re_others env n (pa_DB s)) in (mkPass db (pa_stats s) (S n), a).

Definition read {A} (f : DB -> A) : act (res A) :=
  access (fun n db => (db, match re_read env n with Some e => Err e | None => Ok (f db) end)).
Definition now_ : act instant := access (fun n db => (db, re_clock env n)).
(** One transaction; [None] when it commits, else the counter of its failure.
    BEGIN and COMMIT errors are errors. *)
Definition run_tx (e : TxEnv) (body : DB -> result Counter DB) (db : DB) : DB * option Counter :=
  match tx_begin e with
  | Some _ => (db, Some CErrors)
  | None =>
      match body db with
      | Err c => (db, Some c)
      | Ok db' => match tx_commit e with
                  | None => (db', None)
                  | Some persisted => (if persisted then db' else db, Some CErrors)
                  end
      end
  end.

Definition tx (body : TxEnv -> string -> instant -> DB -> result Counter DB) : act (option Counter) :=
  access (fun n db => run_tx (re_tx env n) (body (re_tx env n) (re_jobID env n) (re_clock env n)) db).

(** [noteConflictOrError]: a conflict means that someone else was faster. *)
Definition noteConflictOrError {A} (r : res A) : result Counter A :=
  match r with
  | Ok a => Ok a
  | Err e => Err (if bool_decide (CodeOf e = CodeConflict) then CRacingSkipped else CErrors)
  end.
Definition loud {A} (r : res A) : result Counter A := match r with Ok a => Ok a | Err _ => Err CErrors end.

(** The counter of a transaction: its failure, or [done]. *)
Definition counted (done_ : Counter) (r : option Counter) : act unit :=
  count (match r with Some c => c | None => done_ end) 1.

Definition loadEvidence (requestID : string) : act (res (list Attempt * (string -> string))) :=
  bind ats <- read (ListAttempts requestID);
  match ats with
  | Err e => aret (Err e)
  | Ok ats => bind kinds <- read (AttemptErrorKinds requestID); aret (let? kinds := kinds in Ok (ats, kinds))
  end.

Definition releaseProvenZero (r : Request) (fromReconciliation : bool) : act unit :=
  bind done_ <- tx (fun e _ _ db => noteConflictOrError
                     ((if fromReconciliation then ReleaseFromReconciliation else Release) (r_ID r) (tx_now e) db));
  counted CReleasedNotSent done_.

Definition recovery_detail (reason attemptID : string) (charge : Z) : gmap string string :=
  {[ "schema_version" := "1"; "recovery" := json_string "conservative_estimate"; "basis" := json_string reason;
     "charge_micros" := pretty charge; "attempt_id" := json_string attemptID ]}.

(** [estimateCost]: the list price of the record, if there is a cost list. *)
Definition estimateCost (record : UsageRecord) (verified : bool) : act (res (option Money * CostBasis)) :=
  access (fun n db => (db, let? m := re_cost env n record in
                           Ok (m, if verified then CostReported else CostEstimated))).

Definition recovery_command (r : Request) (anchor : Attempt) (record : UsageRecord) (charge : Microcredit)
    (settledAt : instant) (cost : res (option Money * CostBasis)) : SettleCommand :=
  match cost with
  | Ok (Some m, basis) =>
      mkSettle (r_ID r) record charge None (Some (at_ID anchor)) (Some m) (Some basis) settledAt
  | _ => mkSettle (r_ID r) record charge None None None None settledAt
  end.

Definition verification_job (r : Request) (anchor : Attempt) (charge : Microcredit) (reason : string) (clock : instant)
  : EnqueueReconciliationCommand :=
  mkEnqueue (Some (r_ID r)) "" "crash_recovery" (recovery_detail reason (at_ID anchor) charge)
    (clock + rc_ReconciliationDeadline cfg).

(** The settlement, and for an estimate the job that tracks it, in one
    transaction. *)
Definition commit_body (cmd : SettleCommand) (job : option (instant -> EnqueueReconciliationCommand)) (e : TxEnv)
    (jobID : string) (clock : instant) (db : DB) : result Counter DB :=
  let? db := noteConflictOrError (Settle cmd (tx_now e) db) in
  match job with
  | Some job => loud (EnqueueReconciliationJobTx jobID (job clock) db)
  | None => Ok db
  end.

Definition commitSettlement (r : Request) (anchor : Attempt) (record : UsageRecord) (charge : Microcredit)
    (reason : string) (verified : bool) : act unit :=
  bind settledAt <- now_;
  bind cost <- estimateCost record verified;
  bind done_ <- tx (commit_body (recovery_command r anchor record charge settledAt cost)
                     (if verified then None else Some (verification_job r anchor charge reason)));
  counted (if verified then CSettledVerified else CSettledConservative) done_.

(** The answer of the verifier, if it has one. *)
Definition verified_usage (anchor : Attempt) : act (option (UsageRecord * Microcredit)) :=
  match re_verifier env with
  | None => aret None
  | Some lookup =>
      if String.eqb (at_UpstreamRequestID anchor) "" then aret None
      else access (fun n db => (db, match lookup n anchor with Ok a => a | Err _ => None end))
  end.

Definition for_request (requestID : string) (u : UsageRecord) : UsageRecord :=
  mkUsage requestID (u_AttemptID u) (u_Source u) (u_Buckets u) (u_Revision u).

Definition settleUnknownCharge (r : Request) (anchor : Attempt) (reason : string) : act unit :=
  match r_ReservedMicros r with
  | None => count CErrors 1
  | Some reserved =>
      bind v <- verified_usage anchor;
      match v with
      | Some (record, charge) => commitSettlement r anchor (for_request (r_ID r) record) charge reason true
      | None =>
          bind revision <- read (LatestUsageRevision (at_ID anchor));
          match revision with
          | Err _ => count CErrors 1
          | Ok revision =>
              commitSettlement r anchor (ConservativeRecord (r_ID r) (at_ID anchor) r (revision + 1)) reserved reason false
          end
      end
  end.

Definition recoverRequest (r : Request) : act unit :=
  bind evidence <- loadEvidence (r_ID r);
  match evidence with
  | Err _ => count CErrors 1
  | Ok (ats, kinds) =>
      match classify ats kinds with
      | None => releaseProvenZero r false
      | Some anchor => settleUnknownCharge r anchor "crash_recovery"
      end
  end.

Definition settled_count (s : PassStats) : nat := (ps_SettledConservative s + ps_SettledVerified s)%nat.

(** A parked request: never released for age, and not guessed without attempts. *)
Definition processOpen (j : ReconciliationJob) (r : Request) : act unit :=
  bind evidence <- loadEvidence (r_ID r);
  match evidence with
  | Err _ => count CErrors 1
  | Ok (ats, kinds) =>
      if bool_decide (ats = []) && bool_decide (r_Status r = Some ReqReconciliationRequired)
      then count CJobsNoEvidence 1
      else match classify ats kinds with
           | None => releaseProvenZero r true
           | Some anchor =>
               bind before <- stats;
               settleUnknownCharge r anchor ("reconciliation:" +:+ j_Reason j) ;;
               bind after <- stats;
               if (settled_count before <? settled_count after)%nat then count CJobsSettled 1 else aret tt
           end
  end.

Definition processJob (j : ReconciliationJob) : act unit :=
  count CJobsProcessed 1 ;;
  match j_RequestID j with
  | None => count CJobsAwaitingEvidence 1
  | Some id =>
      bind r <- read (select_one id ∘ requests);
      match r with
      | Err _ | Ok (Err _) => count CErrors 1
      | Ok (Ok r) => if finalized r then count CJobsAwaitingEvidence 1 else processOpen j r
      end
  end.

Definition kind_text (k : WindowKind) : string :=
  match k with WindowFiveHour => "five_hour" | WindowWeekly => "weekly" | WindowMonthly => "monthly" end.

Definition mismatch_detail (m : WindowReconciliation) : gmap string string :=
  {[ "schema_version" := "1"; "kind" := json_string (kind_text (wr_Kind m)); "stored_used" := pretty (wr_StoredUsed m); "rebuilt_used" := pretty (wr_RebuiltUsed m);
     "diff_micros" := pretty (Diff m) ]}.

(** Best effort: a failure is logged. *)
Definition enqueueWindowMismatch (m : WindowReconciliation) (now : instant) : act unit :=
  tx (fun _ jobID _ db => loud (EnqueueReconciliationJobTx jobID
       (mkEnqueue None (wr_WindowID m) "ledger_mismatch" (mismatch_detail m) (now + rc_ReconciliationDeadline cfg)) db)) ;;
  aret tt.

Fixpoint each {A} (f : A -> act unit) (l : list A) : act unit :=
  match l with [] => aret tt | a :: l => f a ;; each f l end.

(** One phase of the pass: its failure is counted and does not stop the next. *)
Definition phase {A} (r : act (res A)) (k : A -> act unit) : act bool :=
  bind r <- r;
  match r with
  | Err _ => count CErrors 1 ;; aret false
  | Ok a => k a ;; aret true
  end.

(** The UPDATE of phase 3, one statement. *)
Definition escalate (now : instant) : act (res (list string)) :=
  access (fun n db => match re_read env n with
                      | Some e => (db, Err e)
                      | None => let '(ids, db') := EscalateOverdueReconciliationJobs now (rc_BatchLimit cfg) db in (db', Ok ids)
                      end).

(** [GetRequest] for each id; an error fails the whole scan. *)
Fixpoint get_all (ids : list string) : act (res (list Request)) :=
  match ids with
  | [] => aret (Ok [])
  | id :: ids =>
      bind r <- read (select_one id ∘ requests);
      match r with
      | Err e | Ok (Err e) => aret (Err e)
      | Ok (Ok r) => bind l <- get_all ids; aret (let? l := l in Ok (r :: l))
      end
  end.

Definition ListStaleOpenRequests (cutoff : instant) (limit : Z) : act (res (list Request)) :=
  bind ids <- access (fun n db => (db, match re_read env n with
                                      | Some e => Err e
                                      | None => Ok (stale_ids (tx_now (re_tx env n)) cutoff limit db)
                                      end));
  match ids with Err e => aret (Err e) | Ok ids => get_all ids end.

(** [RunPass], up to its log lines: whether every phase could be read. *)
Definition RunPass : act bool :=
  bind now <- now_;
  let cutoff := time_add now (- rc_Grace cfg) in
  bind p1 <- phase (ListStaleOpenRequests cutoff (rc_BatchLimit cfg))
              (fun stale => count CScanned (length stale) ;; each recoverRequest stale);
  bind p2 <- phase (read (ListPendingReconciliationJobs (rc_BatchLimit cfg))) (each processJob);
  bind p3 <- phase (escalate now) (fun ids => count CEscalated (length ids));
  bind p4 <- phase (read reconciliations)
              (fun recon => each (fun m => count CWindowMismatches 1 ;; enqueueWindowMismatch m now) (Mismatches recon));
  aret (p1 && p2 && p3 && p4).

End Worker.

(** ** What the worker writes *)

Section Writes.
Context (cfg : RecoveryConfig) (env : RecoveryEnv).

(** One change of the store during a pass. Others commit; or a request is
    released whose attempts, as they were read earlier in the pass, all prove
    zero consumption; or the row of a request read earlier is settled, with the
    last attempt that does not prove zero consumption as anchor, either at
    exactly its reserved hold together with the job that tracks the estimate,
    or on the verifier's evidence; or overdue jobs are escalated; or a mismatch
    of a window is filed. *)
Inductive recovery_step (db : DB) : DB -> Prop :=
| rs_others n : recovery_step db (re_others env n db)
| rs_release r fromReconciliation d1 d2 now db' :
    rtc recovery_step d1 d2 -> rtc recovery_step d2 db ->
    classify (ListAttempts (r_ID r) d1) (AttemptErrorKinds (r_ID r) d2) = None ->
    releaseLocked (r_ID r) fromReconciliation now db = Ok db' -> recovery_step db db'
| rs_estimate k r d0 d1 d2 anchor revision reserved reason settledAt cost now jobID clock db1 db' :
    rtc recovery_step d0 d1 -> rtc recovery_step d1 d2 -> rtc recovery_step d2 db ->
    requests d0 !! k = Some r ->
    classify (ListAttempts (r_ID r) d1) (AttemptErrorKinds (r_ID r) d2) = Some anchor ->
    r_ReservedMicros r = Some reserved ->
    Settle (recovery_command r anchor (ConservativeRecord (r_ID r) (at_ID anchor) r revision) reserved settledAt cost) now db
      = Ok db1 ->
    EnqueueReconciliationJobTx jobID (verification_job cfg r anchor reserved reason clock) db1 = Ok db' ->
    recovery_step db db'
| rs_verified k r d0 d1 d2 anchor lookup n record charge settledAt cost now db' :
    rtc recovery_step d0 d1 -> rtc recovery_step d1 d2 -> rtc recovery_step d2 db ->
    requests d0 !! k = Some r ->
    classify (ListAttempts (r_ID r) d1) (AttemptErrorKinds (r_ID r) d2) = Some anchor ->
    re_verifier env = Some lookup -> lookup n anchor = Ok (Some (record, charge)) ->
    Settle (recovery_command r anchor (for_request (r_ID r) record) charge settledAt cost) now db = Ok db' ->
    recovery_step db db'
| rs_escalate now : recovery_step db (EscalateOverdueReconciliationJobs now (rc_BatchLimit cfg) db).2
| rs_mismatch jobID m d now db' :
    rtc recovery_step d db -> m ∈ Mismatches (reconciliations d) ->
    EnqueueReconciliationJobTx jobID
      (mkEnqueue None (wr_WindowID m) "ledger_mismatch" (mismatch_detail m) (now + rc_ReconciliationDeadline cfg)) db = Ok db' ->
    recovery_step db db'.

(** What was read earlier in the pass stays so. *)
Class Persistent_ (Q : DB -> Prop) : Prop := persist d d' : rtc recovery_step d d' -> Q d -> Q d'.

Definition known (r : Request) (db : DB) : Prop := exists k d, rtc recovery_step d db /\ requests d !! k = Some r.
Definition evidence (r : Request) (c : option Attempt) (db : DB) : Prop :=
  exists d1 d2, rtc recovery_step d1 d2 /\ rtc recovery_step d2 db /\
    classify (ListAttempts (r_ID r) d1) (AttemptErrorKinds (r_ID r) d2) = c /\ known r d1.
Definition mismatch (m : WindowReconciliation) (db : DB) : Prop :=
  exists d, rtc recovery_step d db /\ m ∈ Mismatches (reconciliations d).

#[local] Instance always_persists : Persistent_ (fun _ => True).
Proof using Type. done. Qed.
#[local] Instance known_persists r : Persistent_ (known r).
Proof using Type. intros d d' Hs (k & d0 & H & Hk). exists k, d0. split; [by etransitivity|done]. Qed.
#[local] Instance evidence_persists r c : Persistent_ (evidence r c).
Proof using Type. intros d d' Hs (d1 & d2 & H1 & H2 & Hc). exists d1, d2. split_and!; [done|by etransitivity|apply Hc..]. Qed.
#[local] Instance mismatch_persists m : Persistent_ (mismatch m).
Proof using Type. intros d d' Hs (d0 & H & Hm). exists d0. split; [by etransitivity|done]. Qed.

#[local] Instance and_persists Q R : Persistent_ Q -> Persistent_ R -> Persistent_ (fun db => Q db /\ R db).
Proof using Type. intros HQ HR d d' Hs [H1 H2]. split; by eapply persist. Qed.

(** From a store where [Q] holds, [p] only takes steps, and its answer meets
    [R] afterwards. *)
Definition steps_to (Q : DB -> Prop) {A} (p : act A) (R : A -> DB -> Prop) : Prop :=
  forall s s' a, Q (pa_DB s) -> p s = (s', a) -> rtc recovery_step (pa_DB s) (pa_DB s') /\ R a (pa_DB s').
Local Notation "'stepping' Q p" := (steps_to Q p (fun _ _ => True)) (at level 10, Q at level 9, p at level 9).

Lemma bind_inv {A B} (p : act A) (k : A -> act B) s s' b : abind p k s = (s', b) ->
  exists s1 a, p s = (s1, a) /\ k a s1 = (s', b).
Proof using Type. unfold abind. destruct (p s) as [s1 a]. eauto. Qed.

Lemma bind_steps Q `{!Persistent_ Q} {A B} (p : act A) (k : A -> act B) (R : A -> DB -> Prop) S :
  steps_to Q p R -> (forall a, steps_to (fun db => Q db /\ R a db) (k a) S) -> steps_to Q (abind p k) S.
Proof using Type.
  intros Hp Hk s s' b HQ. unfold abind. destruct (p s) as [s1 a] eqn:E. intros H.
  destruct (Hp _ _ _ HQ E) as [H1 HR]. destruct (Hk a _ _ _ (conj (persist _ _ H1 HQ) HR) H) as [H2 HS].
  split; [by etransitivity|done].
Qed.

(** When the answer does not matter. *)
Lemma seq_steps Q `{!Persistent_ Q} {A B} (p : act A) (k : A -> act B) S :
  stepping Q p -> (forall a, steps_to Q (k a) S) -> steps_to Q (abind p k) S.
Proof using Type. intros Hp Hk. apply (bind_steps Q p k _ S Hp). intros a s s' b [HQ _]. by apply Hk. Qed.

Lemma steps_weaken (Q Q' : DB -> Prop) {A} (p : act A) (R R' : A -> DB -> Prop) :
  (forall db, Q db -> Q' db) -> (forall a db, R a db -> R' a db) -> steps_to Q' p R -> steps_to Q p R'.
Proof using Type. intros H1 H2 Hp s s' a HQ H. destruct (Hp _ _ _ (H1 _ HQ) H). auto. Qed.

Lemma ret_steps (Q : DB -> Prop) {A} (a : A) (R : A -> DB -> Prop) : (forall db, Q db -> R a db) -> steps_to Q (aret a) R.
Proof using Type. intros HR s s' b HQ [= <- <-]. split; [apply rtc_refl|auto]. Qed.
Lemma count_steps Q c k : stepping Q (count c k).
Proof using Type. intros s s' u _ [= <- <-]. split; [apply rtc_refl|done]. Qed.
Lemma counted_steps Q d r : stepping Q (counted d r).
Proof using Type. apply count_steps. Qed.
Lemma stats_steps Q : stepping Q stats.
Proof using Type. intros s s' u _ [= <- <-]. split; [apply rtc_refl|done]. Qed.

Lemma access_spec {A} (f : nat -> DB -> DB * A) s s' a : access env f s = (s', a) ->
  exists n db1, recovery_step (pa_DB s) db1 /\ f n db1 = (pa_DB s', a).
Proof using Type.
  unfold access. destruct (f _ _) as [db a'] eqn:E. intros [= <- <-]. exists (pa_n s), (re_others env (pa_n s) (pa_DB s)).
  split; [constructor|done].
Qed.

(** An access that does not write. *)
Lemma look_steps (Q : DB -> Prop) {A} (f : nat -> DB -> DB * A) (R : A -> DB -> Prop) :
  (forall n db db' a, f n db = (db', a) -> db' = db /\ R a db) -> steps_to Q (access env f) R.
Proof using Type.
  intros Hf s s' a _ (n & db1 & Hs & [-> HR]%Hf)%access_spec. split; [by apply rtc_once|done].
Qed.

Lemma read_steps Q {A} (f : DB -> A) :
  steps_to Q (read env f) (fun r db => match r with Ok a => a = f db | Err _ => True end).
Proof using Type. apply look_steps. intros n db db' a [= <- <-]. split; [done|]. by destruct (re_read env n). Qed.

(** A transaction whose body is a step. *)
Lemma tx_steps Q `{!Persistent_ Q} body :
  (forall n db db', Q db -> body (re_tx env n) (re_jobID env n) (re_clock env n) db = Ok db' -> rtc recovery_step db db') ->
  stepping Q (tx env body).
Proof using Type.
  intros Hb s s' r HQ H. unfold tx in H. apply access_spec in H as (n & db1 & Hs%rtc_once & H). split; [|done]. etransitivity; [exact Hs|].
  unfold run_tx in H. destruct (tx_begin _); [injection H as <- _; apply rtc_refl|].
  destruct (body _ _ _ db1) as [db2|c] eqn:E; [|injection H as <- _; apply rtc_refl].
  apply Hb in E; [|by eapply persist]. destruct (tx_commit _) as [[]|]; injection H as <- _; [done|apply rtc_refl|done].
Qed.

Lemma each_steps Q `{!Persistent_ Q} {A} (f : A -> act unit) l : (forall a, a ∈ l -> stepping Q (f a)) -> stepping Q (each f l).
Proof using Type.
  induction l as [|a l IH]; intros Hf; simpl; [by apply ret_steps|].
  apply seq_steps; [done|apply Hf; left|]. intros _. apply IH. intros b Hb. apply Hf. by right.
Qed.

Lemma phase_steps {A} (r : act (res A)) (R : A -> DB -> Prop) (k : A -> act unit) : (forall a, Persistent_ (R a)) ->
  steps_to (fun _ => True) r (fun a db => match a with Ok a => R a db | Err _ => True end) -> (forall a, stepping (R a) (k a)) ->
  stepping (fun _ => True) (phase r k).
Proof using Type.
  intros HR Hr Hk. eapply bind_steps; [apply _|exact Hr|]. intros [a|e].
  - apply (steps_weaken _ (R a) _ (fun _ _ => True) _); [by intros db [_ H]|done|]. apply seq_steps; [done|done|]. intros u. by apply ret_steps.
  - apply (steps_weaken _ (fun _ => True) _ (fun _ _ => True) _); [done..|].
    apply seq_steps; [apply _|apply count_steps|]. intros u. by apply ret_steps.
Qed.

Lemma note_Ok {A} (r : res A) a : noteConflictOrError r = Ok a -> r = Ok a.
Proof using Type. destruct r; simpl; [by intros [= ->]|done]. Qed.
Lemma loud_Ok {A} (r : res A) a : loud r = Ok a -> r = Ok a.
Proof using Type. destruct r; simpl; [by intros [= ->]|done]. Qed.

(** *** The operations of the worker *)

Lemma loadEvidence_steps r : steps_to (known r) (loadEvidence env (r_ID r))
  (fun x db => match x with Ok (ats, kinds) => evidence r (classify ats kinds) db | Err _ => True end).
Proof using Type.
  apply (bind_steps _ _ _ (fun x db => match x with Ok ats => exists d, rtc recovery_step d db /\ known r d /\ ats = ListAttempts (r_ID r) d
                                       | Err _ => True end)).
  { intros s s' x HQ H. destruct (read_steps (fun _ => True) _ _ _ _ I H) as [Hs Hx]. split; [done|].
    destruct x as [ats|]; [|done]. exists (pa_DB s'). split; [apply rtc_refl|]. split; [by eapply persist|done]. }
  intros [ats|e]; [|by apply ret_steps].
  intros s s' x [HQ (d & Hd & Hk & ->)] H. apply bind_inv in H as (s1 & y & H & [= <- <-]).
  destruct (read_steps (fun _ => True) _ _ _ _ I H) as [Hs Hy]. split; [done|]. destruct y as [kinds|]; [subst|done].
  exists d, (pa_DB s1). split_and!; [by etransitivity|apply rtc_refl|done|done].
Qed.

Lemma release_steps r fromReconciliation : stepping (evidence r None) (releaseProvenZero env r fromReconciliation).
Proof using Type.
  apply seq_steps; [apply _| |intros o; apply counted_steps]. apply tx_steps; [apply _|].
  intros n db db' (d1 & d2 & H1 & H2 & Hc & Hk) H%note_Ok. apply rtc_once.
  apply (rs_release db r fromReconciliation d1 d2 (tx_now (re_tx env n))); [done..|]. by destruct fromReconciliation.
Qed.

Lemma commit_steps r anchor record charge reason verified :
  (verified = true -> exists lookup n rec0, re_verifier env = Some lookup /\ lookup n anchor = Ok (Some (rec0, charge)) /\
     record = for_request (r_ID r) rec0) ->
  (verified = false -> r_ReservedMicros r = Some charge /\
     exists revision, record = ConservativeRecord (r_ID r) (at_ID anchor) r revision) ->
  stepping (evidence r (Some anchor)) (commitSettlement cfg env r anchor record charge reason verified).
Proof using Type.
  intros Hv He. apply seq_steps; [apply _|apply look_steps; by intros n db db' a [= <- <-]|]. intros settledAt.
  apply seq_steps; [apply _|apply look_steps; by intros n db db' a [= <- <-]|]. intros cost.
  apply seq_steps; [apply _| |intros o; apply counted_steps]. apply tx_steps; [apply _|].
  intros n db db' (d1 & d2 & H1 & H2 & Hc & k & d0 & H0 & Hk) H.
  unfold commit_body in H. apply rbind_Ok in H as (db1 & Hset%note_Ok & H). apply rtc_once. destruct verified.
  - injection H as <-. destruct (Hv eq_refl) as (lookup & i & rec0 & Hl & Hi & ->).
    exact (rs_verified _ k r d0 d1 d2 anchor lookup i rec0 charge settledAt cost _ _ H0 H1 H2 Hk Hc Hl Hi Hset).
  - apply loud_Ok in H. destruct (He eq_refl) as (Hr & revision & ->).
    exact (rs_estimate _ k r d0 d1 d2 anchor revision charge reason settledAt cost _ _ _ _ _ H0 H1 H2 Hk Hc Hr Hset H).
Qed.

Lemma verified_usage_steps Q anchor : steps_to Q (verified_usage env anchor)
  (fun v _ => match v with
              | Some (_, charge) as v => exists lookup n, re_verifier env = Some lookup /\ lookup n anchor = Ok v
              | None => True
              end).
Proof using Type.
  unfold verified_usage. destruct (re_verifier env) as [lookup|]; [|by apply ret_steps].
  destruct (String.eqb _ _); [by apply ret_steps|]. apply look_steps. intros n db db' a [= <- <-]. split; [done|].
  destruct (lookup n anchor) as [[[record charge]|]|] eqn:E; [|done..]. eauto.
Qed.

Lemma settleUnknown_steps r anchor reason : stepping (evidence r (Some anchor)) (settleUnknownCharge cfg env r anchor reason).
Proof using Type.
  unfold settleUnknownCharge. destruct (r_ReservedMicros r) as [reserved|] eqn:Hr; [|apply count_steps].
  eapply bind_steps; [apply _|apply verified_usage_steps|]. intros [[record charge]|].
  - intros s s' u [HQ (lookup & n & Hl & Hn)]. eapply commit_steps; [intros _; eauto 6|done|done].
  - apply (steps_weaken _ (evidence r (Some anchor)) _ (fun _ _ => True) _); [by intros db [HQ _]|done|].
    apply seq_steps; [apply _|eapply steps_weaken; [| |apply (read_steps (fun _ => True))]; done|].
    intros [revision|e]; [|apply count_steps]. apply commit_steps; [done|]. intros _. eauto.
Qed.

Lemma recoverRequest_steps r : stepping (known r) (recoverRequest cfg env r).
Proof using Type.
  eapply bind_steps; [apply _|apply loadEvidence_steps|]. intros [[ats kinds]|e]; [|apply count_steps].
  destruct (classify ats kinds) eqn:Hc; (eapply steps_weaken; [by intros db [_ H]; exact H|done|]); [apply settleUnknown_steps|apply release_steps].
Qed.

Lemma processOpen_steps j r : stepping (known r) (processOpen cfg env j r).
Proof using Type.
  eapply bind_steps; [apply _|apply loadEvidence_steps|]. intros [[ats kinds]|e]; [|apply count_steps].
  destruct (_ && _); [apply count_steps|].
  destruct (classify ats kinds) eqn:Hc; (eapply steps_weaken; [by intros db [_ H]; exact H|done|]); [|apply release_steps].
  apply seq_steps; [apply _|apply stats_steps|]. intros before.
  apply seq_steps; [apply _|apply settleUnknown_steps|]. intros _.
  apply seq_steps; [apply _|apply stats_steps|]. intros after.
  destruct (_ <? _)%nat; [apply count_steps|by apply ret_steps].
Qed.

(** A row as it was read. *)
Lemma row_steps Q id : steps_to Q (read env (select_one id ∘ requests))
  (fun x db => match x with Ok (Ok r) => known r db | _ => True end).
Proof using Type.
  eapply steps_weaken; [|intros x db Hx|apply (read_steps (fun _ => True))]; [done|]. destruct x as [[r|]|]; [|done..].
  cbn in Hx. unfold select_one in Hx. destruct (requests db !! id) eqn:Hr; [injection Hx as ->|done]. exists id, db. split; [apply rtc_refl|done].
Qed.

Lemma processJob_steps j : stepping (fun _ => True) (processJob cfg env j).
Proof using Type.
  apply seq_steps; [apply _|apply count_steps|]. intros _. destruct (j_RequestID j) as [id|]; [|apply count_steps].
  eapply bind_steps; [apply _|apply row_steps|].
  intros [[r|e]|e]; [|apply count_steps..]. destruct (finalized r); [apply count_steps|].
  eapply steps_weaken; [by intros db [_ H]; exact H|done|]. apply processOpen_steps.
Qed.

Definition all_known (l : list Request) (db : DB) : Prop := Forall (fun r => known r db) l.
#[local] Instance all_known_persists l : Persistent_ (all_known l).
Proof using Type. intros d d' Hs H. eapply Forall_impl; [exact H|]. intros r. by apply (persist (Q := known r)). Qed.

Lemma get_all_steps ids : steps_to (fun _ => True) (get_all env ids)
  (fun x db => match x with Ok l => all_known l db | Err _ => True end).
Proof using Type.
  induction ids as [|id ids IH]; simpl; [apply ret_steps; constructor|].
  eapply bind_steps; [apply _|apply row_steps|]. intros [[r|e]|e]; [|by apply ret_steps..].
  apply (steps_weaken _ (known r) _ (fun x db => match x with Ok l => all_known l db | Err _ => True end) _); [by intros db [_ H]|done|].
  eapply bind_steps; [apply _|eapply steps_weaken; [| |exact IH]; done|]. intros [l|e]; apply ret_steps; [|done].
  intros db [H1 H2]. by constructor.
Qed.

Lemma escalate_steps now : stepping (fun _ => True) (escalate cfg env now).
Proof using Type.
  intros s s' r _ H. unfold escalate in H. apply access_spec in H as (n & db1 & Hs & H). split; [|done]. eapply rtc_l; [exact Hs|].
  destruct (re_read env n); [injection H as -> <-; apply rtc_refl|].
  destruct (EscalateOverdueReconciliationJobs _ _ db1) as [ids db2] eqn:E. injection H as <- <-.
  apply rtc_once. pose proof (rs_escalate db1 now) as Hr. by rewrite E in Hr.
Qed.

Lemma mismatch_steps m now : stepping (mismatch m) (enqueueWindowMismatch cfg env m now).
Proof using Type.
  apply seq_steps; [apply _| |intros o; by apply ret_steps]. apply tx_steps; [apply _|].
  intros n db db' (d & Hd & Hm) H%loud_Ok. apply rtc_once. by eapply rs_mismatch.
Qed.

Definition all_mismatches (l : list WindowReconciliation) (db : DB) : Prop := Forall (fun m => mismatch m db) (Mismatches l).
#[local] Instance all_mismatches_persists l : Persistent_ (all_mismatches l).
Proof using Type. intros d d' Hs H. eapply Forall_impl; [exact H|]. intros m. by apply (persist (Q := mismatch m)). Qed.

Lemma RunPass_steps : stepping (fun _ => True) (RunPass cfg env).
Proof using Type.
  unfold RunPass. apply seq_steps; [apply _|apply look_steps; by intros n db db' a [= <- <-]|]. intros now.
  apply seq_steps; [apply _|apply (phase_steps _ all_known); [apply _|..]|intros p1].
  - apply seq_steps; [apply _|apply look_steps; by intros n db db' a [= <- <-]|]. intros [ids|e]; [apply get_all_steps|by apply ret_steps].
  - intros stale. apply seq_steps; [apply _|apply count_steps|]. intros _. apply each_steps; [apply _|]. intros r Hr.
    eapply steps_weaken; [|done|apply recoverRequest_steps]. intros db H. by eapply Forall_forall in H.
  - apply seq_steps; [apply _|apply (phase_steps _ (fun _ _ => True)); [apply _|..]|intros p2].
    { eapply steps_weaken; [| |apply (read_steps (fun _ => True))]; [done|by intros []]. }
    { intros l. apply each_steps; [apply _|]. intros j _. apply processJob_steps. }
    apply seq_steps; [apply _|apply (phase_steps _ (fun _ _ => True)); [apply _|..]|intros p3].
    { eapply steps_weaken; [| |apply escalate_steps]; [done|by intros []]. }
    { intros ids. apply count_steps. }
    apply seq_steps; [apply _|apply (phase_steps _ all_mismatches); [apply _|..]|intros p4; by apply ret_steps].
    { eapply steps_weaken; [| |apply (read_steps (fun _ => True))]; [done|]. intros [l|] db; [|done].
      intros ->. apply Forall_forall. intros m Hm. exists db. split; [apply rtc_refl|done]. }
    intros recon. apply each_steps; [apply _|]. intros m Hm.
    apply seq_steps; [apply _|apply count_steps|]. intros _. eapply steps_weaken; [|done|apply mismatch_steps].
    intros db H. by eapply Forall_forall in H.
Qed.

(** C5: PASS_WRITES. Whatever the other clients do meanwhile, whichever reads,
    transactions and commits fail, and whatever was stale when it was used, a
    recovery pass changes the store only in these ways: it releases a request
    when all its attempts, as read in this pass, proved zero consumption; it
    settles a request it read, anchored at the last attempt that proves no such
    thing, at exactly the hold of the row it read, and the job that tracks the
    estimate commits with the settlement; it settles on the evidence of the
    verifier; it escalates overdue jobs; it files a job for a window whose
    counter differs from the ledger. It never releases because of age. *)
Theorem pass_writes (s : Pass) : rtc recovery_step (pa_DB s) (pa_DB (RunPass cfg env s).1).
Proof using Type. destruct (RunPass cfg env s) as [s' b] eqn:E. by eapply RunPass_steps. Qed.

End Writes.
