(* ===== verification/RecoveryProps.v ===== *)
(** * RecoveryProps: the evidence the gateway leaves for the recovery worker

    The worker releases a request when the error kinds of its attempts prove
    that nothing was consumed. The kinds are written by the gateway, so what
    they prove is a property of the two together. *)

From Stdlib Require Import ZArith Lia Bool.
From stdpp Require Import base gmap strings list pretty.
From S2P Require Import Prelude Domain Money Calendar Policy Pricing WalletRules Principal Tables RequestStore.
From S2P Require Import QuotaStore WalletStore LedgerStore LeaseStore Admission Headers Routing Dispatch.
From S2P Require Import Gateway GatewayTraces GatewayProps Recovery.

Local Open Scope Z_scope.
Local Open Scope go_scope.
Local Open Scope prog_scope.

(** ** Which effects a program performs, whatever it is answered *)

Fixpoint emits (P : effect -> Prop) {A} (p : prog A) : Prop :=
  match p with
  | Ret _ => True
  | Vis e k => P e /\ forall r, emits P (k r)
  end.

Definition effect_of (ev : event) : effect := let 'Ev e _ := ev in e.

Lemma emits_runs P {A} (p : prog A) : emits P p -> forall tr a, runs p tr a -> Forall (fun ev => P (effect_of ev)) tr.
Proof.
  induction p as [a|e k IH]; simpl; [by intros _ tr b [-> _]|].
  intros [He Hk] tr a (r & tr' & -> & H). constructor; [done|]. by eapply IH.
Qed.

Lemma emits_bind P {A B} (p : prog A) (k : A -> prog B) : emits P p -> (forall a, emits P (k a)) -> emits P (pbind p k).
Proof. intros Hp Hk. induction p as [a|e c IH]; simpl in *; [done|]. destruct Hp as [He Hc]. split; auto. Qed.

(** The terminal row of an attempt: its status and error kind. *)
Definition finish_of (ev : event) : option (string * string) :=
  match effect_of ev with FinishAttemptRow _ status kind _ => Some (status, kind) | _ => None end.
Definition finishes (tr : list event) : list (string * string) := omap finish_of tr.

Lemma finishes_app tr1 tr2 : finishes (tr1 ++ tr2) = finishes tr1 ++ finishes tr2.
Proof. apply omap_app. Qed.

(** Neither a terminal row nor a call to the upstream. *)
Definition unrecorded (e : effect) : Prop :=
  match e with FinishAttemptRow _ _ _ _ | ClientDo _ _ => False | _ => True end.

Lemma unrecorded_run {A} (p : prog A) tr a : emits unrecorded p -> runs p tr a -> finishes tr = [] /\ sends (observe tr) = [].
Proof.
  intros Hp H. pose proof (emits_runs _ _ Hp _ _ H) as Hf. clear H. induction Hf as [|[e r] tr He _ [IH1 IH2]]; [done|].
  change (Ev e r :: tr) with ([Ev e r] ++ tr). rewrite finishes_app, observe_app, sends_app, IH1, IH2, !app_nil_r.
  split; destruct e; try done; by destruct r.
Qed.

(** ** What the rows prove *)

(** Some terminal row is one the worker takes as proof of zero consumption. *)
Definition proves_zero (tr : list event) : Prop :=
  exists kind, ("failed", kind) ∈ finishes tr /\ zeroConsumptionErrorKind kind = true.

(** Then the upstream got nothing it may have executed, unless the call was
    abandoned by its own caller while it was being sent. *)
Definition sound (tr : list event) : Prop :=
  proves_zero tr -> Forall (fun x => may_have_executed x.2 = true -> abandoned x.2 = true) (sends (observe tr)).

Definition tame (e : effect) : Prop :=
  match e with
  | FinishAttemptRow _ status kind _ => String.eqb status "failed" && zeroConsumptionErrorKind kind = false
  | _ => True
  end.

Definition unsent (e : effect) : Prop := match e with ClientDo _ _ => False | _ => True end.

Lemma tame_run {A} (p : prog A) tr a : emits tame p -> runs p tr a -> ~ proves_zero tr.
Proof.
  intros Hp H (kind & Hin & Hz). pose proof (emits_runs _ _ Hp _ _ H) as Hf. clear H.
  apply list_elem_of_omap in Hin as ([e r] & Hin & He). eapply Forall_forall in Hf; [|exact Hin].
  unfold finish_of, effect_of in *. destruct e; try done. injection He as -> ->. simpl in Hf. congruence.
Qed.

Lemma unsent_run {A} (p : prog A) tr a : emits unsent p -> runs p tr a -> sound tr.
Proof.
  intros Hp H _. replace (sends (observe tr)) with (@nil (Candidate * HTTPOutcome)); [constructor|].
  pose proof (emits_runs _ _ Hp _ _ H) as Hf. clear H. symmetry. induction Hf as [|[e r] tr He _ IH]; [done|].
  change (Ev e r :: tr) with ([Ev e r] ++ tr). rewrite observe_app, sends_app, IH, app_nil_r. destruct e; try done; by destruct r.
Qed.

Lemma sound_after tr1 tr2 : finishes tr1 = [] -> sends (observe tr1) = [] -> sound tr2 -> sound (tr1 ++ tr2).
Proof.
  intros Hf Hs H. unfold sound, proves_zero. by rewrite finishes_app, observe_app, sends_app, Hf, Hs.
Qed.

Lemma emits_park (P : effect -> Prop) id : (forall e, unrecorded e -> P e) -> emits P (parkSettleFailure id).
Proof. intros HP. cbn. repeat split; by apply HP. Qed.

Lemma emits_settle P id a usage source price inc adm :
  (forall e, unrecorded e -> P e) -> emits P (settle id a usage source price inc adm).
Proof.
  intros HP. pose proof (emits_park P) as Hpark. unfold settle, attemptCost, perform. generalize settleMaxAttempts. intros fuel.
  assert (forall first cmd over n, emits P (settle_tries n first cmd over)) as Htries.
  { intros first cmd over n. revert first. induction n as [|n IH]; intros first; simpl; [by apply Hpark|].
    apply emits_bind; [destruct first; simpl; [done|split; [by apply HP|done]]|]. intros [].
    - by apply Hpark.
    - simpl. split; [by apply HP|]. intros [u|e]; simpl; [done|]. case_bool_decide; simpl; [done|apply IH]. }
  destruct (Decide _ _ _ _); simpl; [|by apply Hpark]. split; [by apply HP|]. intros t.
  destruct (settle_command _ _ _ _); simpl; [|by apply Hpark]. split; [by apply HP|]. intros t'.
  split; [by apply HP|]. intros [pv|e]; [cbn|cbn; case_bool_decide]; apply Htries.
Qed.

Lemma unrecorded_unsent e : unrecorded e -> unsent e.
Proof. by destruct e. Qed.
Lemma unrecorded_tame e : unrecorded e -> tame e.
Proof. by destruct e. Qed.

Lemma emits_nonstream id a disp l adm price adapter : emits tame (onNonStreamDispatch id a disp l adm price adapter).
Proof.
  unfold onNonStreamDispatch. simpl. split; [done|]. intros _. apply emits_bind.
  { destruct (match ar_AccountLease adm with Some _ => _ | None => _ end); simpl; auto. }
  intros _. simpl. split; [done|]. intros _. split; [done|]. intros _. apply emits_bind.
  { apply emits_settle, unrecorded_tame. }
  intros _. apply emits_bind; [|done]. unfold releaseLease. destruct (ar_AccountLease adm); simpl; auto.
Qed.

Lemma emits_stream id a disp ls adm price adapter : emits tame (onStreamDispatch id a disp ls adm price adapter).
Proof. unfold onStreamDispatch. simpl. auto. Qed.

Lemma emits_finalize b end_ : emits tame (finalize b end_).
Proof.
  unfold finalize. simpl. split; [done|]. intros fenced.
  set (end' := match fenced with Some _ => _ | None => end_ end). destruct end'; simpl.
  all: split; [done|]; intros _; split; [done|]; intros tap.
  all: destruct (negb _ && negb _); simpl; [auto|]; destruct (_ && _ && _); apply emits_settle, unrecorded_tame.
Qed.

Lemma emits_relay ends : forall b, emits tame (relay b ends).
Proof.
  induction ends as [|e ends IH]; intros b; [done|].
  change (emits tame (pbind (Finish b e) (fun b => relay b ends))). apply emits_bind; [|intros b'; apply IH].
  unfold Finish. destruct (sb_done b); [done|]. apply emits_bind; [apply emits_finalize|]. intros _. simpl. auto.
Qed.

Lemma dispatch_sound gw id a l cand adapter secret extra adm price req tr r :
  runs (dispatch_call gw id a l cand adapter secret extra adm price req) tr r ->
  sound tr /\ forall oc, r = Ok oc -> ~ proves_zero tr.
Proof.
  unfold dispatch_call. intros H. run_effect H as u1. destruct (prepare _ _ _) as [http|e].
  - run_effect H as o. destruct (receive adapter _ o) as [disp|e] eqn:Hr.
    + assert (~ proves_zero ltac:(match type of H with runs _ ?t _ => exact t end)) as Hn.
      { eapply tame_run; [|exact H]. apply emits_bind; [|done]. destruct (cr_Stream req); [apply emits_stream|apply emits_nonstream]. }
      split; [|intros _ _]; intros (k & Hk & Hz); rewrite !finishes_app in Hk; exfalso; apply Hn; exists k; exact (conj Hk Hz).
    + unfold failAttempt, finishAttempt in H. run_all. split; [|done].
      intros (k & Hk & Hz). rewrite !finishes_app in Hk. cbn in Hk. rewrite !observe_app, !sends_app. cbn.
      constructor; [|constructor]. simpl. intros Hmay. destruct (receive_classified _ _ _ _ Hr) as ((_ & Hu) & _).
      destruct (de_ExecutedUnknown e); [set_solver|].
      destruct o as [c|]; simpl; [|by discriminate Hu]. destruct (IsCanceled c) eqn:Hc; [done|]. discriminate Hu.
      split; [done|]. by intros ? [= <-].
  - unfold failAttempt, finishAttempt in H. run_all. split; [|done]. intros _. rewrite !observe_app, !sends_app. constructor.
Qed.

(** Rows of a failure before anything was sent. *)
Lemma unsent_sound tr {A} (e : A) (r : result A Outcome) : sends (observe tr) = [] -> r = Err e -> sound tr /\ forall oc, r = Ok oc -> ~ proves_zero tr.
Proof. intros Hs ->. split; [|done]. intros _. rewrite Hs. constructor. Qed.

Lemma prefix_sound tr1 tr2 {A} (r : result A Outcome) : finishes tr1 = [] -> sends (observe tr1) = [] ->
  (sound tr2 /\ forall oc, r = Ok oc -> ~ proves_zero tr2) -> sound (tr1 ++ tr2) /\ forall oc, r = Ok oc -> ~ proves_zero (tr1 ++ tr2).
Proof.
  intros Hf Hs [H1 H2]. split; [by apply sound_after|]. intros oc Hr (k & Hk & Hz). rewrite finishes_app, Hf in Hk.
  apply (H2 oc Hr). exists k. exact (conj Hk Hz).
Qed.

Lemma leased_sound gw id a l cand adapter adm price req tr r :
  runs (attempt_leased gw id a l cand adapter adm price req) tr r -> sound tr /\ forall oc, r = Ok oc -> ~ proves_zero tr.
Proof.
  assert (Hfail : forall kind (f : DispatchFailure) tr r, runs (failAttempt a l "failed" kind ;; Ret (Err f)) tr r ->
            sound tr /\ forall oc : Outcome, r = Ok oc -> ~ proves_zero tr).
  { intros kind f tr' r' H. unfold failAttempt, finishAttempt in H. run_all. by eapply unsent_sound. }
  unfold attempt_leased. intros H. run_effect H as live. apply prefix_sound; [done|by destruct live|].
  destruct live as [u|c]; [|by eapply Hfail].
  run_first H as t1 egress t2 He H. apply prefix_sound; [by destruct (gw_egress gw); run_all..|].
  destruct egress as [u'|c]; [|by eapply Hfail].
  run_effect H as secret. apply prefix_sound; [done..|]. destruct secret as [secret|c]; [|by eapply Hfail].
  destruct (ExtensionHeaders _) as [extra|e]; [|by eapply Hfail].
  run_effect H as marked. apply prefix_sound; [done..|].
  destruct marked as [u''|e]; [by eapply dispatch_sound|by eapply Hfail].
Qed.

Lemma attempt_sound gw id n adm req price cand adapter tr r :
  runs (attempt gw id n adm req price cand adapter) tr r -> sound tr /\ forall oc, r = Ok oc -> ~ proves_zero tr.
Proof.
  unfold attempt. intros H. run_effect H as now. apply prefix_sound; [done..|].
  run_effect H as a. apply prefix_sound; [done..|]. run_effect H as lease. apply prefix_sound; [done|by destruct lease|].
  destruct lease as [l|[|c]]; [by eapply leased_sound|run_all; by eapply unsent_sound..].
Qed.

(** An attempt, and the end of the stream if it opened one. *)
Definition attempt_and_relay (gw : Gateway) (id : string) (n : Z) (adm : AdmissionResult) (req : ChatRequest)
    (price : PriceVersion) (cand : Candidate) (adapter : Adapter) (ends : list StreamEnd) : prog (result DispatchFailure Outcome) :=
  do r <- attempt gw id n adm req price cand adapter;
  match r with
  | Ok oc => match oc_Stream oc with Some b => do _ <- relay b ends; Ret r | None => Ret r end
  | Err _ => Ret r
  end.

(** C6: EVIDENCE. When the gateway writes the terminal row of an attempt as
    "failed" with an error kind that the recovery worker takes as proof of zero
    consumption, the upstream got nothing in that attempt that it may have
    executed: no call at all, one that never reached it, or one it refused. The
    one exception is a call that its own caller abandoned while it was being
    sent. A stream that breaks or is left by its client never leaves such a
    row. *)
Theorem evidence_sound (gw : Gateway) (id : string) (n : Z) (adm : AdmissionResult) (req : ChatRequest)
    (price : PriceVersion) (cand : Candidate) (adapter : Adapter) (ends : list StreamEnd)
    (tr : list event) (r : result DispatchFailure Outcome) (kind : string)
    (Hrun : runs (attempt_and_relay gw id n adm req price cand adapter ends) tr r)
    (Hrow : ("failed", kind) ∈ finishes tr) (Hzero : zeroConsumptionErrorKind kind = true) :
  Forall (fun '(_, o) => may_have_executed o = true -> abandoned o = true) (sends (observe tr)) /\
  (match r with Ok _ => False | Err _ => True end).
Proof.
  assert (proves_zero tr) as Hz by (exists kind; exact (conj Hrow Hzero)).
  unfold attempt_and_relay in Hrun. run_first Hrun as t1 r1 t2 Ha Hrun. destruct (attempt_sound _ _ _ _ _ _ _ _ _ _ Ha) as [Hs Hok].
  destruct r1 as [oc|f].
  - exfalso. destruct Hz as (k & Hk & Hkz). rewrite finishes_app in Hk. apply elem_of_app in Hk as [Hk|Hk].
    + apply (Hok oc eq_refl). exists k. exact (conj Hk Hkz).
    + destruct (oc_Stream oc) as [b|]; [|run_all; by inversion Hk].
      eapply (tame_run (do _ <- relay b ends; Ret (Ok oc))); [|exact Hrun|exists k; exact (conj Hk Hkz)].
      apply emits_bind; [apply emits_relay|done].
  - destruct Hrun as [-> ->]. rewrite app_nil_r in *. split; [|done]. eapply Forall_impl; [by apply Hs|]. by intros [c o].
Qed.

Definition demo_attempt : prog (result DispatchFailure Outcome) :=
  attempt_and_relay demo_gateway "req" 1 demo_admission (mkChat "latest" [] true (Some 512) [] "" None None) sample_price
    (demo_candidate "a") demo_adapter [EndCompleted].
Definition demo_attempt_run : list event * result DispatchFailure Outcome := exec demo_oracle demo_attempt [].

Lemma evidence_sound_witness :
  sends (observe demo_attempt_run.1) = [(demo_candidate "a", DoFailed refused)] /\
  Forall (fun '(_, o) => may_have_executed o = true -> abandoned o = true) (sends (observe demo_attempt_run.1)).
Proof.
  split; [by vm_compute|].
  apply (evidence_sound demo_gateway "req" 1 demo_admission (mkChat "latest" [] true (Some 512) [] "" None None) sample_price
    (demo_candidate "a") demo_adapter [EndCompleted] demo_attempt_run.1 demo_attempt_run.2 "transport").
  - apply (exec_runs demo_oracle _ []). apply surjective_pairing.
  - replace (finishes demo_attempt_run.1) with [("failed", "transport")] by (vm_compute; reflexivity). apply list_elem_of_here.
  - vm_compute. reflexivity.
Defined.
