(* ===== verification/Amounts.v ===== *)
(** * Amounts: money at the payment boundary

    The payment tables keep amounts as DECIMAL(10,2), here an integer number of
    cents; the Go code reads and compares them as [float64]. IEEE doubles are
    those of the standard library's [SpecFloat]. The conversions between the
    two are those of the driver and of Postgres: a column is read as the nearest
    double of its text, and a double is written through the shortest decimal that
    names it, rounded half away from zero to two places. *)

From Stdlib Require Import ZArith Lia Bool Ascii String.
From Stdlib Require Import Floats.SpecFloat.
From stdpp Require Import base list strings numbers pretty.
From S2P Require Import Prelude Domain Money WalletRules.

Local Open Scope string_scope.
Local Open Scope Z_scope.
Local Open Scope go_scope.

Definition float64 := spec_float.

Definition f64_of_Z (z : Z) : float64 := binary_normalize 53 1024 z 0 false.
Definition f64_mul : float64 -> float64 -> float64 := SFmul 53 1024.
Definition f64_div : float64 -> float64 -> float64 := SFdiv 53 1024.
Definition f64_sub : float64 -> float64 -> float64 := SFsub 53 1024.
Definition f64_is_nan (v : float64) : bool := match v with S754_nan => true | _ => false end.

(** Truncation towards zero of a finite value. *)
Definition f64_trunc (v : float64) : Z :=
  match v with
  | S754_finite s m e => (if s then Z.opp else id) (Z.shiftl (Zpos m) e)
  | _ => 0
  end.

(** The conversion [int64(v)]; out of range it is the least [int64], as on amd64. *)
Definition f64_to_int64 (v : float64) : Z :=
  match v with
  | S754_finite _ _ _ | S754_zero _ => if is_int64 (f64_trunc v) then f64_trunc v else min_int64
  | _ => min_int64
  end.

(** [float64(c) / 100]: a DECIMAL(10,2) column, or an amount in fen or cents. *)
Definition major (c : Z) : float64 := f64_div (f64_of_Z c) (f64_of_Z 100).

Definition cents_clamp : Z := 2 ^ 62 - 1.
(** The literal [9.223372036854776e16], an integer. *)
Definition cents_threshold : float64 := f64_of_Z 92233720368547760.

Definition toCents (v : float64) : Z :=
  if f64_is_nan v then 0 else
  if SFleb cents_threshold v then cents_clamp else
  let c := f64_to_int64 (f64_mul v (f64_of_Z 100)) in
  if SFltb (S754_zero false) v && (c <? 0) then cents_clamp else c.

(** ** Writing a DECIMAL(10,2)

    [n] is the number of whole cents below a non-negative [v]. The shortest
    decimal of [v] reaches the tie [n + 1/2] exactly when [v] is not below the
    double that names the tie. Ten digits, two of them after the point. *)
Definition whole_cents (v : float64) : Z :=
  match v with
  | S754_finite false m e => if 0 <=? e then Zpos m * 2 ^ e * 100 else Zpos m * 100 / 2 ^ (- e)
  | _ => 0
  end.

Definition numeric_max : Z := 10 ^ 10.

Definition round_cents (v : float64) : Z :=
  let n := whole_cents v in
  if SFleb (f64_div (f64_of_Z (2 * n + 1)) (f64_of_Z 200)) v then n + 1 else n.

(** [None] is a failed statement: out of range, or a value the columns' checks
    refuse ([amount >= 0]). A negative amount that rounds to zero is stored as zero. *)
Definition to_numeric (v : float64) : option Z :=
  match v with
  | S754_zero _ => Some 0
  | S754_finite false _ _ => if round_cents v <? numeric_max then Some (round_cents v) else None
  | S754_finite true m e => if round_cents (S754_finite false m e) =? 0 then Some 0 else None
  | _ => None
  end.

(** ** [strconv.FormatFloat(v, 'f', 6, 64)]

    The exact value rounded half to even at the sixth place. *)
Definition micro_units (m : positive) (e : Z) : Z :=
  if 0 <=? e then Zpos m * 2 ^ e * 10 ^ 6
  else let n := Zpos m * 10 ^ 6 in
       let q := n / 2 ^ (- e) in
       let twice := 2 * (n mod 2 ^ (- e)) in
       if (2 ^ (- e) <? twice) || ((2 ^ (- e) =? twice) && Z.odd q) then q + 1 else q.

Definition digits6 (z : Z) : string :=
  let s := pretty z in
  String.substring 0 (6 - String.length s) "000000" +:+ s.

Definition format_micros (n : Z) : string := pretty (n / 10 ^ 6) +:+ "." +:+ digits6 (n mod 10 ^ 6).

Definition FormatFloat6 (v : float64) : string :=
  match v with
  | S754_nan => "NaN"
  | S754_infinity false => "+Inf"
  | S754_infinity true => "-Inf"
  | S754_zero s => (if s then "-" else "") +:+ format_micros 0
  | S754_finite s m e => (if s then "-" else "") +:+ format_micros (micro_units m e)
  end.

Definition walletTopupMicros (amount : float64) (currency : string) : res Z :=
  MicrosFromDecimalMajor (String.list_ascii_of_string (FormatFloat6 amount)) currency.

(** [fmt.Sprintf("%.2f", amount)] without its point, parsed as an integer. *)
Definition fen_units (v : float64) : option Z :=
  match v with
  | S754_zero _ => Some 0
  | S754_finite s m e =>
      let fen := if 0 <=? e then Zpos m * 2 ^ e * 100
                 else let n := Zpos m * 100 in
                      let q := n / 2 ^ (- e) in
                      let twice := 2 * (n mod 2 ^ (- e)) in
                      if (2 ^ (- e) <? twice) || ((2 ^ (- e) =? twice) && Z.odd q) then q + 1 else q in
      let z := if s then - fen else fen in
      if is_int64 z then Some z else None
  | _ => None
  end.
