(* ===== verification/PayTables.v ===== *)
(** * PayTables: the tables of the payment domain

    [internal/model] and the statements of [internal/repo/payments_repos.go],
    [plan_benefit_repo.go] and [service/payment.go] on orders, payments,
    refunds, subscriptions, webhook events, the audit log and the outbox, with
    the constraints of migrations 003, 006, 027 and 029. A failed statement is
    the error [EStatement], which rolls its transaction back. *)

From Stdlib Require Import ZArith Lia Bool Ascii String.
From stdpp Require Import base gmap strings list.
From S2P Require Import Prelude Domain Calendar EntitlementStore BenefitRules Amounts.

Local Open Scope string_scope.
Local Open Scope Z_scope.
Local Open Scope go_scope.

(** ** Errors of the payment service *)

Inductive pay_error :=
| ErrInvalidChannel | ErrWechatPayNotConfigured | ErrPaddleNotConfigured | ErrPaddlePriceNotConfigured
| ErrConfirmVerificationUnavailable | ErrConfirmNotVerified
| ErrPlanMissingForExpiry | ErrDowngradeActivationBlocked | ErrOrderActivationConflict
| ErrPlanNotPurchasable | ErrPlanUpgradeNotConfigured
| ErrUserHasActiveSub | ErrUserHasPendingOrder | ErrPlanDowngrade
| ErrPlanNotFound | ErrPlanInactive | ErrPlanNotAcceptingNew | ErrPlanCurrencyMismatch
| ErrOrderNotFound | ErrOrderNotPending | ErrOrderChannelMismatch | ErrOrderAlreadyTerminal
| ErrPaymentNotFound | ErrRefundNotFound | ErrInvalidAttribution | ErrPaymentNotPaid | ErrRefundAmountInvalid | ErrRefundSumExceedsPayment
| ErrRefundChannelFailed | ErrMissingIdempotencyKey
| ErrSubscriptionNotFound | ErrSubscriptionNotChannelManaged | ErrPlanChangeNotUpgrade | ErrSamePlanChange
(** an error without a sentinel: a failed statement, an answer to be retried,
    an interval above the cap, an upstream failure, an inference error *)
| EStatement | ERetry | EIntervalCap | EUpstream | EInference (e : error).

Abbreviation payres := (result pay_error).

(** ** Rows *)

Inductive OrderStatus := OrderPending | OrderPaid | OrderFailed | OrderRefunded | OrderCancelled | OrderExpired.
Inductive PaymentStatus := PaymentPending | PaymentPaid | PaymentFailed | PaymentRefunded.
Inductive RefundStatus := RefundPending | RefundPaid | RefundFailed.
Inductive SubStatus := SubActive | SubExpired | SubCancelled.

#[global] Instance OrderStatus_eq_dec : EqDecision OrderStatus.
Proof. solve_decision. Defined.
#[global] Instance PaymentStatus_eq_dec : EqDecision PaymentStatus.
Proof. solve_decision. Defined.
#[global] Instance RefundStatus_eq_dec : EqDecision RefundStatus.
Proof. solve_decision. Defined.
#[global] Instance SubStatus_eq_dec : EqDecision SubStatus.
Proof. solve_decision. Defined.

(** [model.Order]; amounts are cents, the provider's intent a JSON object of texts. *)
Record Order := mkPayOrder {
  po_ID : string;
  po_UserID : string;
  po_PlanID : string;
  po_Amount : Z;
  po_Currency : string;
  po_Status : OrderStatus;
  po_ExpiresAt : instant;
  po_LastReconciledAt : instant;
  po_ProviderIntent : option (gmap string string);
  po_ProductCode : option string;
  po_PlanIntervalDays : option Z;
  po_BenefitPolicyVersionID : option string;
  po_BenefitModelIDs : list string;
  po_BenefitGrantMode : option string;
  po_OrderKind : option string;
  po_UpgradeFromPlanID : option string;
}.

Definition SnapshotProductCode (o : Order) : string := default "" (po_ProductCode o).
Definition SnapshotIntervalDays (o : Order) : Z := default 0 (po_PlanIntervalDays o).
Definition SnapshotOrderKind (o : Order) : string := default "" (po_OrderKind o).

(** [model.Payment]. *)
Record Payment := mkPayment {
  py_ID : string;
  py_OrderID : string;
  py_Channel : string;
  py_ExternalTxnID : string;
  py_Amount : Z;
  py_Currency : string;
  py_Status : PaymentStatus;
  py_Disputed : bool;
}.

(** [model.Refund]. *)
Record Refund := mkRefund {
  rf_ID : string;
  rf_PaymentID : string;
  rf_Channel : string;
  rf_UserID : string;
  rf_Amount : Z;
  rf_IdempotencyKey : string;
  rf_ExternalRefundID : option string;
  rf_Status : RefundStatus;
}.

(** [model.Subscription]. *)
Record Subscription := mkPaySub {
  sb_ID : string;
  sb_UserID : string;
  sb_PlanID : string;
  sb_ProductCode : string;
  sb_Status : SubStatus;
  sb_ExpiresAt : option instant;
  sb_ExternalSubscriptionID : option string;
  sb_Channel : option string;
  sb_AutoRenew : bool;
  sb_CreatedAt : instant;
  sb_UpdatedAt : instant;
}.

(** The columns of [plans] the payment service reads. *)
Record PayPlan := mkPayPlan {
  pl_Price : Z;
  pl_IntervalDays : Z;
  pl_ProductCode : string;
  pl_IsActive : bool;
  pl_AcceptingNewSubscriptions : bool;
  pl_Currency : string;
}.

Record PlanBenefitConfig := mkBenefitConfig {
  bc_PolicyVersionID : string;
  bc_ModelIDs : list string;
  bc_GrantMode : string;
}.

Record WebhookRow := mkWebhookRow { wh_Channel : string; wh_EventID : string; wh_Processed : bool }.
Record AuditRow := mkAudit { au_Actor : string; au_Action : string; au_Target : string }.

Record WalletSyncMessage := mkWalletMessage {
  wm_Kind : string;
  wm_UserID : string;
  wm_OrderID : string;
  wm_PaymentID : string;
  wm_RefundID : string;
  wm_AmountMicros : Z;
  wm_Currency : string;
}.

Inductive PayMessage := BenefitMessage (m : EntitlementSyncMessage) | WalletMessage (m : WalletSyncMessage).

(** An [inference_outbox] row: its dedup key and payload. *)
Record PayOutboxRow := mkPayOutbox { px_DedupKey : option string; px_Payload : PayMessage }.

Record PayDB := mkPayDB {
  pd_orders : gmap string Order;
  pd_payments : gmap string Payment;
  pd_refunds : gmap string Refund;
  pd_subs : gmap string Subscription;
  pd_plans : gmap string PayPlan;
  pd_benefits : gmap string PlanBenefitConfig;
  pd_upgrades : gset (string * string);
  pd_events : gmap string WebhookRow;
  pd_outbox : list PayOutboxRow;
  pd_audit : list AuditRow;
}.

Definition set_pd_orders v (d : PayDB) : PayDB :=
  mkPayDB v (pd_payments d) (pd_refunds d) (pd_subs d) (pd_plans d) (pd_benefits d) (pd_upgrades d) (pd_events d) (pd_outbox d) (pd_audit d).
Definition set_pd_payments v (d : PayDB) : PayDB :=
  mkPayDB (pd_orders d) v (pd_refunds d) (pd_subs d) (pd_plans d) (pd_benefits d) (pd_upgrades d) (pd_events d) (pd_outbox d) (pd_audit d).
Definition set_pd_refunds v (d : PayDB) : PayDB :=
  mkPayDB (pd_orders d) (pd_payments d) v (pd_subs d) (pd_plans d) (pd_benefits d) (pd_upgrades d) (pd_events d) (pd_outbox d) (pd_audit d).
Definition set_pd_subs v (d : PayDB) : PayDB :=
  mkPayDB (pd_orders d) (pd_payments d) (pd_refunds d) v (pd_plans d) (pd_benefits d) (pd_upgrades d) (pd_events d) (pd_outbox d) (pd_audit d).
Definition set_pd_events v (d : PayDB) : PayDB :=
  mkPayDB (pd_orders d) (pd_payments d) (pd_refunds d) (pd_subs d) (pd_plans d) (pd_benefits d) (pd_upgrades d) v (pd_outbox d) (pd_audit d).
Definition set_pd_outbox v (d : PayDB) : PayDB :=
  mkPayDB (pd_orders d) (pd_payments d) (pd_refunds d) (pd_subs d) (pd_plans d) (pd_benefits d) (pd_upgrades d) (pd_events d) v (pd_audit d).
Definition set_pd_audit v (d : PayDB) : PayDB :=
  mkPayDB (pd_orders d) (pd_payments d) (pd_refunds d) (pd_subs d) (pd_plans d) (pd_benefits d) (pd_upgrades d) (pd_events d) (pd_outbox d) v.

(** ** Searching a table *)

Definition pay_rows {A} (m : gmap string A) : list A := (map_to_list m).*2.

(** [SELECT ... WHERE p LIMIT 1]. *)
Definition find_row {A} (p : A -> bool) (m : gmap string A) : option A := List.find p (pay_rows m).
Definition exists_row {A} (p : A -> bool) (m : gmap string A) : bool := existsb p (pay_rows m).

(** [UPDATE ... WHERE p]. *)
Definition update_where {A} (p : A -> bool) (f : A -> A) (m : gmap string A) : gmap string A :=
  (fun a => if p a then f a else a) <$> m.

Lemma pay_rows_elem {A} (m : gmap string A) x : x ∈ pay_rows m <-> exists k, m !! k = Some x.
Proof.
  unfold pay_rows. rewrite list_elem_of_fmap. split.
  - intros ([k y] & -> & Hy%elem_of_map_to_list). eauto.
  - intros [k Hk]. exists (k, x). by rewrite elem_of_map_to_list.
Qed.

Lemma find_row_Some {A} p (m : gmap string A) a : find_row p m = Some a -> p a = true /\ exists k, m !! k = Some a.
Proof.
  unfold find_row. intros [Hin Hp]%List.find_some. split; [done|]. by apply pay_rows_elem, list_elem_of_In.
Qed.

Lemma find_row_None {A} p (m : gmap string A) k a : find_row p m = None -> m !! k = Some a -> p a = false.
Proof.
  unfold find_row. intros H Hk. apply (List.find_none _ _ H). apply list_elem_of_In, pay_rows_elem. eauto.
Qed.

Lemma find_row_is_Some {A} p (m : gmap string A) k a : m !! k = Some a -> p a = true -> is_Some (find_row p m).
Proof. intros Hk Hp. destruct (find_row p m) eqn:E; [eauto|]. by rewrite (find_row_None _ _ _ _ E Hk) in Hp. Qed.

Lemma exists_row_false {A} p (m : gmap string A) k a : exists_row p m = false -> m !! k = Some a -> p a = false.
Proof.
  unfold exists_row. intros H Hk. destruct (p a) eqn:E; [|done]. rewrite <- H. symmetry. apply existsb_exists.
  exists a. split; [|done]. apply list_elem_of_In, pay_rows_elem. eauto.
Qed.

Lemma exists_row_find {A} p (m : gmap string A) : exists_row p m = bool_decide (is_Some (find_row p m)).
Proof.
  destruct (find_row p m) as [a|] eqn:E; [rewrite bool_decide_true by eauto|rewrite bool_decide_false by (by intros [? ?])].
  - apply List.find_some in E as [Hin Hp]. apply existsb_exists. eauto.
  - destruct (exists_row p m) eqn:H; [|done]. apply existsb_exists in H as (x & Hx & Hp).
    by rewrite (List.find_none _ _ E _ Hx) in Hp.
Qed.

Lemma lookup_update_where {A} p (f : A -> A) (m : gmap string A) k :
  update_where p f m !! k = (fun a => if p a then f a else a) <$> m !! k.
Proof. unfold update_where. apply lookup_fmap. Qed.

(** ** Statements *)

Definition known_channel (c : string) : bool :=
  existsb (String.eqb c) ["stripe"; "wechat_pay"; "alipay"; "paypal"; "paddle"].

(** [numeric(10,2)] of a bound [float64]. *)
Definition bind_amount (v : float64) : payres Z :=
  match to_numeric v with Some c => Ok c | None => Err EStatement end.

Definition writeAuditOnTx (actor action target : string) (d : PayDB) : PayDB :=
  set_pd_audit (pd_audit d ++ [mkAudit actor action target]) d.

(** [enqueueOutboxSQLTx]: ON CONFLICT (dedup_key) DO NOTHING. *)
Definition enqueueOutbox (payload : PayMessage) (dedup : option string) (d : PayDB) : PayDB :=
  if bool_decide (is_Some dedup) && existsb (fun r => bool_decide (px_DedupKey r = dedup)) (pd_outbox d) then d
  else set_pd_outbox (pd_outbox d ++ [mkPayOutbox dedup payload]) d.

(** *** Orders *)

Definition order_with_status (st : OrderStatus) (o : Order) : Order :=
  mkPayOrder (po_ID o) (po_UserID o) (po_PlanID o) (po_Amount o) (po_Currency o) st (po_ExpiresAt o)
    (po_LastReconciledAt o) (po_ProviderIntent o) (po_ProductCode o) (po_PlanIntervalDays o)
    (po_BenefitPolicyVersionID o) (po_BenefitModelIDs o) (po_BenefitGrantMode o) (po_OrderKind o)
    (po_UpgradeFromPlanID o).
Definition order_with_intent (intent : gmap string string) (o : Order) : Order :=
  mkPayOrder (po_ID o) (po_UserID o) (po_PlanID o) (po_Amount o) (po_Currency o) (po_Status o) (po_ExpiresAt o)
    (po_LastReconciledAt o) (Some intent) (po_ProductCode o) (po_PlanIntervalDays o)
    (po_BenefitPolicyVersionID o) (po_BenefitModelIDs o) (po_BenefitGrantMode o) (po_OrderKind o)
    (po_UpgradeFromPlanID o).
Definition order_reconciled (now : instant) (o : Order) : Order :=
  mkPayOrder (po_ID o) (po_UserID o) (po_PlanID o) (po_Amount o) (po_Currency o) (po_Status o) (po_ExpiresAt o)
    now (po_ProviderIntent o) (po_ProductCode o) (po_PlanIntervalDays o)
    (po_BenefitPolicyVersionID o) (po_BenefitModelIDs o) (po_BenefitGrantMode o) (po_OrderKind o)
    (po_UpgradeFromPlanID o).

(** The checks of migrations 003 and 029. *)
Definition order_row_ok (o : Order) : bool :=
  (0 <=? po_Amount o) && (String.length (po_Currency o) =? 3)%nat
  && match po_OrderKind o with Some k => existsb (String.eqb k) ["new"; "renewal"; "upgrade"] | None => true end
  && match po_BenefitGrantMode o with Some g => existsb (String.eqb g) ["subscription"; "gift"] | None => true end
  && bool_decide (is_Some (po_BenefitPolicyVersionID o) <-> is_Some (po_BenefitGrantMode o)).

Definition insertOrder (o : Order) (d : PayDB) : payres PayDB :=
  guard bool_decide (pd_orders d !! po_ID o = None) && bool_decide (is_Some (pd_plans d !! po_PlanID o))
        && order_row_ok o else EStatement;
  Ok (set_pd_orders (<[po_ID o := o]> (pd_orders d)) d).

(** [UPDATE orders SET status = to WHERE id AND status IN from]; whether a row was hit. *)
Definition updateOrderStatus (id : string) (from : list OrderStatus) (to : OrderStatus) (d : PayDB) : bool * PayDB :=
  match pd_orders d !! id with
  | Some o => if bool_decide (po_Status o ∈ from)
              then (true, set_pd_orders (<[id := order_with_status to o]> (pd_orders d)) d) else (false, d)
  | None => (false, d)
  end.

(** [CancelPending] and [FailPending]. *)
Definition CancelPending (id userID : string) (d : PayDB) : bool * PayDB :=
  match pd_orders d !! id with
  | Some o => if bool_decide (po_UserID o = userID) then updateOrderStatus id [OrderPending] OrderCancelled d
              else (false, d)
  | None => (false, d)
  end.
Definition FailPending (id : string) (d : PayDB) : bool * PayDB := updateOrderStatus id [OrderPending] OrderFailed d.

Definition SweepExpired (now : instant) (d : PayDB) : PayDB :=
  set_pd_orders (update_where (fun o => bool_decide (po_Status o = OrderPending) && (po_ExpiresAt o <? now))
                   (order_with_status OrderExpired) (pd_orders d)) d.

Definition UpdateProviderIntent (id : string) (intent : gmap string string) (d : PayDB) : PayDB :=
  set_pd_orders (update_where (fun o => bool_decide (po_ID o = id) && bool_decide (po_Status o = OrderPending))
                   (order_with_intent intent) (pd_orders d)) d.

Definition stampReconciled (id : string) (now : instant) (d : PayDB) : PayDB :=
  set_pd_orders (update_where (fun o => bool_decide (po_ID o = id)) (order_reconciled now) (pd_orders d)) d.

(** Whether [FindPendingByUserAndProduct] finds a row. *)
Definition hasPendingOrder (userID product : string) (now : instant) (d : PayDB) : bool :=
  exists_row (fun o => bool_decide (po_UserID o = userID) && bool_decide (po_ProductCode o = Some product)
                       && bool_decide (po_Status o = OrderPending) && (now <? po_ExpiresAt o)) (pd_orders d).

Definition out_trade_no (o : Order) : option string := po_ProviderIntent o ≫= fun m => m !! "out_trade_no".

Definition lookupOrderByWebhookID (channel orderRef : string) (d : PayDB) : option Order :=
  match pd_orders d !! orderRef with
  | Some o => Some o
  | None => if existsb (String.eqb channel) ["wechat_pay"; "alipay"]
            then find_row (fun o => bool_decide (out_trade_no o = Some orderRef)) (pd_orders d) else None
  end.

(** *** Payments *)

Definition payment_with_status (st : PaymentStatus) (p : Payment) : Payment :=
  mkPayment (py_ID p) (py_OrderID p) (py_Channel p) (py_ExternalTxnID p) (py_Amount p) (py_Currency p) st (py_Disputed p).
Definition payment_disputed (p : Payment) : Payment :=
  mkPayment (py_ID p) (py_OrderID p) (py_Channel p) (py_ExternalTxnID p) (py_Amount p) (py_Currency p) (py_Status p) true.

Definition same_txn (channel txn : string) (p : Payment) : bool :=
  bool_decide (py_Channel p = channel) && bool_decide (py_ExternalTxnID p = txn).
Definition paid_for (orderID : string) (p : Payment) : bool :=
  bool_decide (py_OrderID p = orderID) && bool_decide (py_Status p = PaymentPaid).

Definition FindByChannelTxnID (channel txn : string) (d : PayDB) : option Payment :=
  find_row (same_txn channel txn) (pd_payments d).
Definition findPaidByOrder (orderID : string) (d : PayDB) : option Payment :=
  find_row (paid_for orderID) (pd_payments d).

Definition payment_row_ok (p : Payment) : bool :=
  (0 <=? py_Amount p) && (String.length (py_Currency p) =? 3)%nat && known_channel (py_Channel p).

(** The primary key, the checks, and one paid payment per order. *)
Definition insertPayment (p : Payment) (d : PayDB) : payres PayDB :=
  guard bool_decide (pd_payments d !! py_ID p = None) && payment_row_ok p
        && negb (bool_decide (py_Status p = PaymentPaid) && exists_row (paid_for (py_OrderID p)) (pd_payments d))
    else EStatement;
  Ok (set_pd_payments (<[py_ID p := p]> (pd_payments d)) d).

(** ON CONFLICT (channel, external_txn_id) DO NOTHING: whether it inserted. *)
Definition insertPaymentOnTx (p : Payment) (d : PayDB) : payres (bool * PayDB) :=
  guard payment_row_ok p else EStatement;
  if exists_row (same_txn (py_Channel p) (py_ExternalTxnID p)) (pd_payments d) then Ok (false, d)
  else let? d := insertPayment p d in Ok (true, d).

Definition updatePayment (id : string) (from : list PaymentStatus) (to : PaymentStatus) (d : PayDB) : bool * PayDB :=
  match pd_payments d !! id with
  | Some p => if bool_decide (py_Status p ∈ from)
              then (true, set_pd_payments (<[id := payment_with_status to p]> (pd_payments d)) d) else (false, d)
  | None => (false, d)
  end.

(** *** Refunds *)

Definition refund_with_status (st : RefundStatus) (r : Refund) : Refund :=
  mkRefund (rf_ID r) (rf_PaymentID r) (rf_Channel r) (rf_UserID r) (rf_Amount r) (rf_IdempotencyKey r)
    (rf_ExternalRefundID r) st.

Definition same_refund (channel extID : string) (r : Refund) : bool :=
  bool_decide (rf_Channel r = channel) && bool_decide (rf_ExternalRefundID r = Some extID).
Definition same_key (userID key : string) (r : Refund) : bool :=
  bool_decide (rf_UserID r = userID) && bool_decide (rf_IdempotencyKey r = key).

Definition FindByIdempotencyKey (userID key : string) (d : PayDB) : option Refund :=
  find_row (same_key userID key) (pd_refunds d).
Definition findRefund (channel extID : string) (d : PayDB) : option Refund :=
  find_row (same_refund channel extID) (pd_refunds d).

(** [SUM(amount) ... WHERE payment_id AND status IN (...)], in cents. *)
Definition sumRefunds (paymentID : string) (statuses : list RefundStatus) (d : PayDB) : Z :=
  msum (fun _ r => if bool_decide (rf_PaymentID r = paymentID) && bool_decide (rf_Status r ∈ statuses)
                   then rf_Amount r else 0) (pd_refunds d).

Definition refund_row_ok (r : Refund) : bool := (0 <? rf_Amount r) && known_channel (rf_Channel r).

(** The primary key, the checks, and UNIQUE (user_id, idempotency_key). *)
Definition insertRefund (r : Refund) (d : PayDB) : payres PayDB :=
  guard bool_decide (pd_refunds d !! rf_ID r = None) && refund_row_ok r
        && negb (exists_row (same_key (rf_UserID r) (rf_IdempotencyKey r)) (pd_refunds d)) else EStatement;
  fail_if match rf_ExternalRefundID r with
          | Some x => exists_row (same_refund (rf_Channel r) x) (pd_refunds d) | None => false end with EStatement;
  Ok (set_pd_refunds (<[rf_ID r := r]> (pd_refunds d)) d).

(** ON CONFLICT (channel, external_refund_id) DO NOTHING, then the re-read: the row's id. *)
Definition upsertRefund (extID : string) (r : Refund) (d : PayDB) : payres (string * PayDB) :=
  guard refund_row_ok r else EStatement;
  match findRefund (rf_Channel r) extID d with
  | Some old => Ok (rf_ID old, d)
  | None => let? d := insertRefund r d in Ok (rf_ID r, d)
  end.

Definition updateRefund (p : Refund -> bool) (to : RefundStatus) (d : PayDB) : bool * PayDB :=
  let p r := p r && bool_decide (rf_Status r = RefundPending) in
  (exists_row p (pd_refunds d), set_pd_refunds (update_where p (refund_with_status to) (pd_refunds d)) d).

(** *** Subscriptions *)

Definition sub_with_status (st : SubStatus) (now : instant) (s : Subscription) : Subscription :=
  mkPaySub (sb_ID s) (sb_UserID s) (sb_PlanID s) (sb_ProductCode s) st (sb_ExpiresAt s) (sb_ExternalSubscriptionID s)
    (sb_Channel s) (sb_AutoRenew s) (sb_CreatedAt s) now.
Definition sub_with_expiry (t : option instant) (now : instant) (s : Subscription) : Subscription :=
  mkPaySub (sb_ID s) (sb_UserID s) (sb_PlanID s) (sb_ProductCode s) (sb_Status s) t (sb_ExternalSubscriptionID s)
    (sb_Channel s) (sb_AutoRenew s) (sb_CreatedAt s) now.
Definition sub_with_external (x : string) (s : Subscription) : Subscription :=
  mkPaySub (sb_ID s) (sb_UserID s) (sb_PlanID s) (sb_ProductCode s) (sb_Status s) (sb_ExpiresAt s) (Some x)
    (sb_Channel s) (sb_AutoRenew s) (sb_CreatedAt s) (sb_UpdatedAt s).
Definition sub_auto_renew_off (now : instant) (s : Subscription) : Subscription :=
  mkPaySub (sb_ID s) (sb_UserID s) (sb_PlanID s) (sb_ProductCode s) (sb_Status s) (sb_ExpiresAt s)
    (sb_ExternalSubscriptionID s) (sb_Channel s) false (sb_CreatedAt s) now.

Definition active_in (userID product : string) (s : Subscription) : bool :=
  bool_decide (sb_UserID s = userID) && bool_decide (sb_ProductCode s = product) && bool_decide (sb_Status s = SubActive).

Definition FindActiveByUserAndProduct (userID product : string) (d : PayDB) : option Subscription :=
  find_row (active_in userID product) (pd_subs d).
Definition findSubByExternal (x : string) (d : PayDB) : option Subscription :=
  find_row (fun s => bool_decide (sb_ExternalSubscriptionID s = Some x)) (pd_subs d).

(** The trigger of migration 027: the plan exists and is of the row's product. *)
Definition plan_product_ok (s : Subscription) (d : PayDB) : bool :=
  match pd_plans d !! sb_PlanID s with Some p => bool_decide (pl_ProductCode p = sb_ProductCode s) | None => false end.

Definition other (id : string) (p : Subscription -> bool) (s : Subscription) : bool :=
  negb (bool_decide (sb_ID s = id)) && p s.

(** The partial unique indexes: one active row per user and product, one row
    per channel subscription. *)
Definition sub_unique (s : Subscription) (d : PayDB) : bool :=
  negb (bool_decide (sb_Status s = SubActive)
        && exists_row (other (sb_ID s) (active_in (sb_UserID s) (sb_ProductCode s))) (pd_subs d))
  && negb match sb_ExternalSubscriptionID s with
          | Some x => exists_row (other (sb_ID s) (fun s' => bool_decide (sb_ExternalSubscriptionID s' = Some x))) (pd_subs d)
          | None => false end.

Definition writeSub (s : Subscription) (d : PayDB) : payres PayDB :=
  guard plan_product_ok s d && sub_unique s d else EStatement;
  Ok (set_pd_subs (<[sb_ID s := s]> (pd_subs d)) d).

(** Active rows first, then the most recent. *)
Definition sub_before (a b : Subscription) : bool :=
  match sb_Status a, sb_Status b with
  | SubActive, SubActive => sb_CreatedAt b <? sb_CreatedAt a
  | SubActive, _ => true
  | _, SubActive => false
  | _, _ => sb_CreatedAt b <? sb_CreatedAt a
  end.

Definition pick_sub (p : Subscription -> bool) (d : PayDB) : option Subscription :=
  hd_error (stable_sort sub_before (List.filter p (pay_rows (pd_subs d)))).

(** [UPDATE subscriptions SET status = 'cancelled' WHERE user, plan, active]. *)
Definition cancelSubs (userID planID : string) (now : instant) (d : PayDB) : PayDB :=
  set_pd_subs (update_where (fun s => bool_decide (sb_UserID s = userID) && bool_decide (sb_PlanID s = planID)
                                      && bool_decide (sb_Status s = SubActive))
                 (sub_with_status SubCancelled now) (pd_subs d)) d.

(** *** Webhook events *)

(** ON CONFLICT (channel, event_id) DO NOTHING, and the prior row. *)
Definition InsertEvent (newID channel eventID : string) (d : PayDB) : payres (string * bool * PayDB) :=
  match List.find (fun kw => bool_decide (wh_Channel kw.2 = channel) && bool_decide (wh_EventID kw.2 = eventID))
          (map_to_list (pd_events d)) with
  | Some (id, w) => Ok (id, wh_Processed w, d)
  | None =>
      guard bool_decide (pd_events d !! newID = None) && known_channel channel else EStatement;
      Ok (newID, false, set_pd_events (<[newID := mkWebhookRow channel eventID false]> (pd_events d)) d)
  end.

Definition MarkProcessed (id : string) (d : PayDB) : PayDB :=
  set_pd_events (alter (fun w => mkWebhookRow (wh_Channel w) (wh_EventID w) true) id (pd_events d)) d.
