(* ===== verification/Activation.v ===== *)
(** * Activation: what a settled payment does to a subscription

    The parts of [internal/service/payment.go] that the webhook and the Confirm
    paths share: the product an order belongs to, the expiry it activates, the
    single-row upsert of the subscription, and the outbox messages. Within a
    transaction one instant [now] stands for both clocks. *)

From Stdlib Require Import ZArith Lia Bool Ascii String.
From stdpp Require Import base gmap strings list.
From S2P Require Import Prelude Domain Calendar EntitlementStore BenefitRules Amounts PayTables.

Local Open Scope string_scope.
Local Open Scope Z_scope.
Local Open Scope go_scope.

Definition ProductCodingPlan : string := "coding-plan".
Definition ProductWalletTopup : string := "wallet-topup".
Definition ProductKayaMembership : string := "kaya-membership".

Definition channelAutoRenews (channel : string) : bool := String.eqb channel "paypal" || String.eqb channel "paddle".

(** ** The product of an order *)

Definition productCodeForPlan (planID : string) (d : PayDB) : string :=
  match pd_plans d !! planID with Some p => pl_ProductCode p | None => "" end.

Definition resolveOrderProduct (o : Order) (d : PayDB) : string :=
  if String.eqb (SnapshotProductCode o) "" then productCodeForPlan (po_PlanID o) d else SnapshotProductCode o.

(** ** The expiry it activates *)

Definition intervalOf (snapshot : Z) (p : PayPlan) : Z := if 0 <? snapshot then snapshot else pl_IntervalDays p.

(** [t.Add(time.Duration(days) * 24 * time.Hour)]. *)
Definition add_days (t : instant) (days : Z) : instant := time_add t (mul64 (mul64 days 24) hour).

Definition unexpired (now : instant) (s : Subscription) : bool :=
  match sb_ExpiresAt s with Some t => now <? t | None => true end.

Section resolveSubExpiry.
Context (now : instant) (userID planID productCode : string) (snapshotIntervalDays : Z) (d : PayDB).

Definition loadPlan : payres PayPlan :=
  match pd_plans d !! planID with Some p => Ok p | None => Err ErrPlanMissingForExpiry end.

(** The hint, clamped to what the plan grants from now. *)
Definition hint_candidate (hint : option instant) : payres (option instant) :=
  match hint with
  | None => Ok None
  | Some c =>
      let? p := loadPlan in
      let iv := intervalOf snapshotIntervalDays p in
      if 0 <? iv then
        fail_if maxIntervalDays <? iv with EIntervalCap;
        Ok (Some (if add_days now iv <? c then add_days now iv else c))
      else Ok (Some c)
  end.

(** Replacing an unexpired subscription: [Some e] returns [e] at once (a
    lifetime subscription stays one), [None] goes on with the candidate. *)
Definition rollover (existing : Subscription) (candidate : option instant)
  : payres (option (option instant) * option instant) :=
  let? p := loadPlan in
  let iv := intervalOf snapshotIntervalDays p in
  fail_if match pd_plans d !! sb_PlanID existing with
          | Some old => iv <? pl_IntervalDays old | None => false end with ErrDowngradeActivationBlocked;
  match sb_ExpiresAt existing with
  | None => Ok (Some None, candidate)
  | Some t =>
      if 0 <? iv then
        fail_if maxIntervalDays <? iv with EIntervalCap;
        let rolled := add_days t iv in
        Ok (None, match candidate with
                  | Some c => if c <? rolled then Some rolled else Some c
                  | None => Some rolled end)
      else Ok (None, candidate)
  end.

(** The plan's interval from now. *)
Definition fresh_period : payres (option instant) :=
  let? p := loadPlan in
  let iv := intervalOf snapshotIntervalDays p in
  if iv <=? 0 then Ok None else
  fail_if maxIntervalDays <? iv with EIntervalCap;
  Ok (Some (add_days now iv)).

Definition resolveSubExpiry (hint preservedExpiry : option instant) : payres (option instant) :=
  match preservedExpiry with
  | Some t => Ok (Some t)
  | None =>
      let? candidate := hint_candidate hint in
      let? r := match FindActiveByUserAndProduct userID productCode d with
                | Some s => if unexpired now s then rollover s candidate else Ok (None, candidate)
                | None => Ok (None, candidate)
                end in
      match r with
      | (Some e, _) => Ok e
      | (None, Some c) => Ok (Some c)
      | (None, None) => fresh_period
      end
  end.

End resolveSubExpiry.

Definition sub_status_text (s : SubStatus) : string :=
  match s with SubActive => "active" | SubExpired => "expired" | SubCancelled => "cancelled" end.

Definition subscription_state (s : Subscription) : SubscriptionState :=
  mkSub (sb_ID s) (sb_UserID s) (sb_PlanID s) (sb_ProductCode s) (sub_status_text (sb_Status s)) (sb_ExpiresAt s).

Definition order_kind (kind : string) : OrderKind :=
  if String.eqb kind "new" then OrderKindNew else if String.eqb kind "renewal" then OrderKindRenewal
  else if String.eqb kind "upgrade" then OrderKindUpgrade else OrderKindOther.

Definition resolveOrderActivation (now : instant) (o : Order) (orderProduct : string)
    (hint preservedExpiry : option instant) (d : PayDB) : payres (option instant) :=
  if String.eqb (SnapshotOrderKind o) "" then
    resolveSubExpiry now (po_UserID o) (po_PlanID o) orderProduct (SnapshotIntervalDays o) d hint preservedExpiry
  else match preservedExpiry with
  | Some t => Ok (Some t)
  | None =>
      match ResolveCodingPlanActivation (order_kind (SnapshotOrderKind o)) (SnapshotIntervalDays o)
              (po_UpgradeFromPlanID o) (po_PlanID o)
              (subscription_state <$> FindActiveByUserAndProduct (po_UserID o) orderProduct d) hint now with
      | Err e => Err (EInference e)
      | Ok act => if String.eqb (cp_Blocked act) "" then Ok (cp_ExpiresAt act) else Err ErrOrderActivationConflict
      end
  end.

(** ** The upsert *)

Definition activated_row (planID : string) (expiresAt : option instant) (channel : string) (s : Subscription) : Subscription :=
  mkPaySub (sb_ID s) (sb_UserID s) planID (sb_ProductCode s) SubActive expiresAt (sb_ExternalSubscriptionID s)
    (Some channel) (channelAutoRenews channel) (sb_CreatedAt s) (sb_UpdatedAt s).

(** Whether it inserted a row, with the id a new row gets. *)
Definition activateSubscriptionOnTx (newID userID planID productCode : string) (expiresAt : option instant)
    (channel : string) (now : instant) (d : PayDB) : payres (bool * PayDB) :=
  match pick_sub (fun s => bool_decide (sb_UserID s = userID) && bool_decide (sb_ProductCode s = productCode)) d with
  | Some s => let? d := writeSub (activated_row planID expiresAt channel s) d in Ok (false, d)
  | None =>
      guard bool_decide (pd_subs d !! newID = None) else EStatement;
      let? d := writeSub (mkPaySub newID userID planID productCode SubActive expiresAt None (Some channel)
                            (channelAutoRenews channel) now now) d in
      Ok (true, d)
  end.

(** [UPDATE subscriptions SET external_subscription_id] on the row the payment activated. *)
Definition stampExternalID (x userID planID productCode : string) (d : PayDB) : payres PayDB :=
  if String.eqb x "" then Ok d else
  match pick_sub (fun s => bool_decide (sb_UserID s = userID) && bool_decide (sb_PlanID s = planID)
                           && bool_decide (sb_ProductCode s = productCode) && bool_decide (sb_Status s = SubActive)) d with
  | Some s =>
      let s := sub_with_external x s in
      guard sub_unique s d else EStatement;
      Ok (set_pd_subs (<[sb_ID s := s]> (pd_subs d)) d)
  | None => Ok d
  end.

(** ** Outbox messages *)

Definition TopicWalletSync : string := "wallet.sync".
Definition WalletTopupDedupKey (paymentID : string) : string := "wallet:paid:" +:+ paymentID.
Definition WalletRefundDedupKey (refundID : string) : string := "wallet:refund:" +:+ refundID.

(** Whether the outbox is wired ([s.benefitSync]). *)
Definition enqueueSync (wired : bool) (m : PayMessage) (dedup : option string) (d : PayDB) : PayDB :=
  if wired then enqueueOutbox m dedup d else d.

Definition inference_error {A} (r : res A) : payres A := match r with Ok a => Ok a | Err e => Err (EInference e) end.

Definition enqueueWalletTopup (wired : bool) (o : Order) (paymentID : string) (d : PayDB) : payres PayDB :=
  let? micros := inference_error (walletTopupMicros (major (po_Amount o)) (po_Currency o)) in
  Ok (enqueueSync wired (WalletMessage (mkWalletMessage "topup" (po_UserID o) (po_ID o) paymentID "" micros (po_Currency o)))
        (Some (WalletTopupDedupKey paymentID)) d).

Definition enqueueWalletRefund (wired : bool) (o : Order) (paymentID refundID : string) (amount : float64) (d : PayDB)
  : payres PayDB :=
  let? micros := inference_error (walletTopupMicros amount (po_Currency o)) in
  Ok (enqueueSync wired (WalletMessage (mkWalletMessage "refund" (po_UserID o) (po_ID o) paymentID refundID micros (po_Currency o)))
        (Some (WalletRefundDedupKey refundID)) d).

Definition enqueueWalletFailedDebit (wired : bool) (o : Order) (paymentID : string) (amount : float64) (d : PayDB)
  : payres PayDB :=
  let? micros := inference_error (walletTopupMicros amount (po_Currency o)) in
  Ok (enqueueSync wired (WalletMessage (mkWalletMessage "refund" (po_UserID o) (po_ID o) paymentID
        ("payment-failed:" +:+ paymentID) micros (po_Currency o))) (Some ("wallet:failed:" +:+ paymentID)) d).

Definition orderTouchesBenefits (o : Order) (productCode : string) : bool :=
  bool_decide (is_Some (po_BenefitPolicyVersionID o)) || String.eqb productCode ProductCodingPlan.
