(* ===== verification/Payments.v ===== *)
(** * Payments: the transactions of the payment service

    [internal/service/payment.go] and [paddle_subscription.go]: what a channel's
    webhook, a caller's confirmation and a refund request do to the tables. A
    handler is one transaction, with the identifiers the database would generate
    as arguments; [Err] is its rollback. An audit row written outside a
    transaction that fails is part of the result ([handled]). *)

From Stdlib Require Import ZArith Lia Bool Ascii String.
From Stdlib Require Import Floats.SpecFloat.
From stdpp Require Import base gmap strings list.
From S2P Require Import Prelude Domain Calendar EntitlementStore BenefitRules Sha256 Amounts PayTables Activation.

Local Open Scope string_scope.
Local Open Scope Z_scope.
Local Open Scope go_scope.

(** ** Events *)

(** [service.WebhookEvent], as its handler leaves it after the signature check. *)
Record WebhookEvent := mkEvent {
  we_Channel : string;
  we_EventID : string;
  we_EventType : string;
  we_TransactionID : string;
  we_OrderID : string;
  we_Amount : float64;
  we_Currency : string;
  we_RefundAmount : float64;
  we_ExternalRefundID : string;
  we_ExternalSubscriptionID : string;
  we_Origin : string;
  we_AdjustmentAction : string;
  we_ScheduledChangeAction : string;
  we_OccurredAt : option instant;
  we_PriceIDs : list string;
  we_SkipAmountCheck : bool;
  we_SubExpiresAt : option instant;
}.

(** How the service is wired: the outbox, the benefit configuration, the price
    map and the test overrides. *)
Record PaySettings := mkSettings {
  cfg_benefitSync : bool;
  cfg_benefitRepo : bool;
  cfg_wechat : bool;
  cfg_wechatMock : bool;
  cfg_paddle : bool;
  cfg_paddlePrices : gmap string string;
  cfg_override : option (gmap string float64);
  cfg_orderExpiry : duration;
}.

Definition OverridesActive (c : PaySettings) : bool :=
  match cfg_override c with Some m => negb (bool_decide (m = ∅)) | None => false end.

(** The identifiers one handler may need. *)
Record FreshIDs := mkFresh { id_payment : string; id_sub : string; id_refund : string; id_order : string; id_event : string }.

Definition lower_ascii (c : ascii) : ascii :=
  let n := nat_of_ascii c in if (65 <=? n)%nat && (n <=? 90)%nat then ascii_of_nat (n + 32) else c.
Fixpoint lower (s : string) : string :=
  match s with EmptyString => EmptyString | String c s => String (lower_ascii c) (lower s) end.
(** [strings.EqualFold] on ASCII texts. *)
Definition EqualFold (a b : string) : bool := String.eqb (lower a) (lower b).

(** ** Results *)

(** The tables after a handler, and the error it returns. *)
Definition handled : Type := PayDB * option pay_error.

Definition in_pay_tx (d : PayDB) (f : PayDB -> payres PayDB) : handled :=
  match f d with Ok d' => (d', None) | Err e => (d, Some e) end.

Definition auditAndCommit (action target : string) (d : PayDB) : payres PayDB :=
  Ok (writeAuditOnTx "service" action target d).

(** ** Settlement *)

Definition under_paid (e : WebhookEvent) (o : Order) : bool :=
  (toCents (we_Amount e) <? toCents (major (po_Amount o))) || negb (EqualFold (we_Currency e) (po_Currency o)).

(** The live subscription of a redelivered payment: the expiry to preserve, and
    whether it is on another plan, so that the first delivery was blocked. *)
Definition retry_state (now : instant) (o : Order) (orderProduct : string) (d : PayDB) : option instant * bool :=
  match FindActiveByUserAndProduct (po_UserID o) orderProduct d with
  | Some s => match sb_ExpiresAt s with
              | Some t => if now <? t then (Some t, negb (bool_decide (sb_PlanID s = po_PlanID o))) else (None, false)
              | None => (None, false)
              end
  | None => (None, false)
  end.

Definition paid_message (o : Order) (orderProduct paymentID : string) : PayMessage :=
  BenefitMessage (mkSyncMessage (po_UserID o) orderProduct "payment_paid" (po_ID o) paymentID "" "").

(** The activation branch of [Confirm] and [onPaymentSucceeded]. *)
Definition activate_paid (c : PaySettings) (ids : FreshIDs) (now : instant) (channel : string) (o : Order)
    (orderProduct paymentID : string) (hint preserved : option instant) (downgradeRetry : bool) (d : PayDB)
  : payres (bool * PayDB) :=
  if String.eqb orderProduct ProductWalletTopup then
    let? d := enqueueWalletTopup (cfg_benefitSync c) o paymentID d in Ok (false, d)
  else
  let resolved := resolveOrderActivation now o orderProduct hint preserved d in
  let d := if downgradeRetry then writeAuditOnTx "service" "downgrade_activation_blocked" ("order:" +:+ po_ID o) d else d in
  let blocked action target := Ok (false, writeAuditOnTx "service" action target d) in
  match resolved with
  | Ok expiry =>
      if downgradeRetry then Ok (false, d) else
      let? (activated, d) := activateSubscriptionOnTx (id_sub ids) (po_UserID o) (po_PlanID o) orderProduct expiry channel now d in
      Ok (activated, if orderTouchesBenefits o orderProduct
                     then enqueueSync (cfg_benefitSync c) (paid_message o orderProduct paymentID)
                            (Some (PaidSyncDedupKey paymentID)) d else d)
  | Err ErrPlanMissingForExpiry => blocked "subscription_expiry_plan_missing" ("plan:" +:+ po_PlanID o)
  | Err ErrDowngradeActivationBlocked => blocked "downgrade_activation_blocked" ("order:" +:+ po_ID o)
  | Err e =>
      if downgradeRetry then blocked "downgrade_activation_blocked" ("order:" +:+ po_ID o) else
      match e with
      | ErrOrderActivationConflict => blocked "activation_conflict_blocked" ("order:" +:+ po_ID o)
      | _ => Err e
      end
  end.

(** The order goes paid from any state that is not terminal; a late payment is audited. *)
Definition mark_order_paid (o : Order) (d : PayDB) : bool * PayDB :=
  let '(updated, d) := updateOrderStatus (po_ID o) [OrderPending; OrderExpired; OrderCancelled] OrderPaid d in
  let late := bool_decide (po_Status o = OrderExpired) && updated in
  (late, if late then writeAuditOnTx "service" "late_payment_post_expiry" ("order:" +:+ po_ID o) d else d).

(** What a webhook finds before it inserts a payment: an audited end, or go on. *)
Definition settlement_refused (e : WebhookEvent) (o : Order) (d : PayDB) : option string :=
  match findPaidByOrder (po_ID o) d with
  | Some p => if negb (bool_decide (py_Channel p = we_Channel e)) then Some "webhook_channel_mismatch"
              else if negb (bool_decide (py_ExternalTxnID p = we_TransactionID e)) then Some "webhook_duplicate_paid_order"
              else None
  | None => None
  end.

Definition event_payment (ids : FreshIDs) (e : WebhookEvent) (o : Order) : payres Payment :=
  let? amount := bind_amount (we_Amount e) in
  let currency := if we_SkipAmountCheck e && String.eqb (we_Currency e) "" then po_Currency o else we_Currency e in
  Ok (mkPayment (id_payment ids) (po_ID o) (we_Channel e) (we_TransactionID e) amount currency PaymentPaid false).

(** The rest of the transaction, once the payment row is there. *)
Definition settle_order (c : PaySettings) (ids : FreshIDs) (now : instant) (e : WebhookEvent) (o : Order)
    (paymentID : string) (retry : bool) (d : PayDB) : payres PayDB :=
  let orderProduct := resolveOrderProduct o d in
  let '(preserved, downgradeRetry) := if retry then retry_state now o orderProduct d else (None, false) in
  let? (_, d) := activate_paid c ids now (we_Channel e) o orderProduct paymentID (we_SubExpiresAt e) preserved downgradeRetry d in
  let? d := stampExternalID (we_ExternalSubscriptionID e) (po_UserID o) (po_PlanID o) orderProduct d in
  Ok (mark_order_paid o d).2.

Definition onPaymentSucceeded (c : PaySettings) (ids : FreshIDs) (now : instant) (e : WebhookEvent) (d : PayDB)
  : payres PayDB :=
  match lookupOrderByWebhookID (we_Channel e) (we_OrderID e) d with
  | None => auditAndCommit "webhook_for_unknown_order" ("event:" +:+ we_EventID e) d
  | Some o =>
      match settlement_refused e o d with
      | Some action => auditAndCommit action ("order:" +:+ po_ID o) d
      | None =>
          if negb (we_SkipAmountCheck e) && under_paid e o
          then auditAndCommit "webhook_amount_mismatch" ("order:" +:+ po_ID o) d else
          let? p := event_payment ids e o in
          let? (inserted, d) := insertPaymentOnTx p d in
          if inserted then settle_order c ids now e o (py_ID p) false d else
          match FindByChannelTxnID (we_Channel e) (we_TransactionID e) d with
          | None => Err EStatement
          | Some old =>
              if negb (bool_decide (py_OrderID old = po_ID o))
              then auditAndCommit "webhook_payment_order_mismatch" ("payment:" +:+ py_ID old) d
              else if negb (bool_decide (py_Status old = PaymentPaid))
              then auditAndCommit "unexpected_state_transition" ("payment:" +:+ py_ID old) d
              else settle_order c ids now e o (py_ID old) true d
          end
      end
  end.

(** ** Failures *)

Definition findOrInsertPendingOnTx (ids : FreshIDs) (e : WebhookEvent) (d : PayDB) : payres (option Payment * PayDB) :=
  match FindByChannelTxnID (we_Channel e) (we_TransactionID e) d with
  | Some p => Ok (Some p, d)
  | None =>
      match pd_orders d !! we_OrderID e with
      | None => Ok (None, d)
      | Some o =>
          if bool_decide (po_Status o = OrderPaid) then Ok (None, d) else
          let? amount := bind_amount (we_Amount e) in
          let p := mkPayment (id_payment ids) (po_ID o) (we_Channel e) (we_TransactionID e) amount (we_Currency e)
                     PaymentPending false in
          let? d := insertPayment p d in Ok (Some p, d)
      end
  end.

Definition failed_message (o : Order) (product paymentID : string) : PayMessage :=
  BenefitMessage (mkSyncMessage (po_UserID o) product "payment_failed_after_paid" (po_ID o) paymentID "" "").

(** The cascade of a payment that fails after it was settled. *)
Definition revoke_failed (c : PaySettings) (now : instant) (o : Order) (paymentID : string) (d : PayDB) : payres PayDB :=
  let d := cancelSubs (po_UserID o) (po_PlanID o) now d in
  let d := writeAuditOnTx "service" "subscription_deactivated_failed_payment" ("order:" +:+ po_ID o) d in
  let product := resolveOrderProduct o d in
  let d := if orderTouchesBenefits o product
           then enqueueSync (cfg_benefitSync c) (failed_message o product paymentID) (Some (FailedSyncDedupKey paymentID)) d
           else d in
  if String.eqb product ProductWalletTopup then
    let debit := f64_sub (major (po_Amount o)) (major (sumRefunds paymentID [RefundPaid] d)) in
    if 0 <? toCents debit then enqueueWalletFailedDebit (cfg_benefitSync c) o paymentID debit d else Ok d
  else Ok d.

Definition onPaymentFailed (c : PaySettings) (ids : FreshIDs) (now : instant) (e : WebhookEvent) (d : PayDB)
  : payres PayDB :=
  let? (found, d) := findOrInsertPendingOnTx ids e d in
  match found with
  | None => Ok d
  | Some p =>
      let wasPaid := bool_decide (py_Status p = PaymentPaid) in
      let '(hit, d) := updatePayment (py_ID p) [PaymentPending; PaymentPaid] PaymentFailed d in
      if negb hit then Ok d else
      match pd_orders d !! py_OrderID p with
      | None => Err EStatement
      | Some o =>
          let from := if wasPaid then [OrderPending; OrderPaid; OrderExpired; OrderCancelled]
                      else [OrderPending; OrderExpired; OrderCancelled] in
          let d := (updateOrderStatus (po_ID o) from OrderFailed d).2 in
          if wasPaid then revoke_failed c now o (py_ID p) d else Ok d
      end
  end.

(** ** Refunds the channel reports *)

Definition TrimPrefix (prefix s : string) : string :=
  if String.prefix prefix s then String.substring (String.length prefix) (String.length s) s else s.

Definition normalizeExternalRefundID (channel extID : string) : string :=
  if String.eqb channel "wechat_pay" then TrimPrefix "wechat-" extID
  else if String.eqb channel "alipay" then TrimPrefix "alipay-" extID
  else if String.eqb channel "paypal" then TrimPrefix "paypal-" extID else extID.

Definition zero64 : float64 := S754_zero false.

(** The row the event's money is booked on ([""] when there is none), its
    amount, and the tables. Alipay reports a running total: only what it adds
    to the recorded refunds is new. *)
Definition book_refund (ids : FreshIDs) (e : WebhookEvent) (p : Payment) (o : Order) (d : PayDB)
  : payres (string * float64 * PayDB) :=
  let amount := if String.eqb (we_Channel e) "alipay"
                then f64_sub (we_RefundAmount e) (major (sumRefunds (py_ID p) [RefundPaid; RefundPending] d))
                else we_RefundAmount e in
  let deltaSkip := String.eqb (we_Channel e) "alipay" && SFleb amount zero64 in
  let extID := normalizeExternalRefundID (we_Channel e) (we_ExternalRefundID e) in
  if deltaSkip then
    match findRefund (we_Channel e) extID d with
    | Some r => Ok (rf_ID r, major (rf_Amount r), d)
    | None => Ok ("", amount, d)
    end
  else
    let? cents := bind_amount amount in
    let? (id, d) := upsertRefund extID (mkRefund (id_refund ids) (py_ID p) (we_Channel e) (po_UserID o) cents
                      ("webhook:" +:+ we_EventID e) (Some extID) RefundPending) d in
    Ok (id, amount, d).

Definition refund_message (o : Order) (product paymentID refundID : string) : PayMessage :=
  BenefitMessage (mkSyncMessage (po_UserID o) product "refund_full" (po_ID o) paymentID refundID "").

(** A full refund: the payment and its order are refunded, the subscription ends. *)
Definition refund_in_full (c : PaySettings) (now : instant) (o : Order) (product paymentID refundID : string) (d : PayDB)
  : PayDB :=
  let d := (updatePayment paymentID [PaymentPaid] PaymentRefunded d).2 in
  let d := (updateOrderStatus (po_ID o) [OrderPaid] OrderRefunded d).2 in
  if String.eqb product ProductWalletTopup then d else
  let d := cancelSubs (po_UserID o) (po_PlanID o) now d in
  let d := writeAuditOnTx "service" "subscription_cancelled_full_refund" ("payment:" +:+ paymentID) d in
  if orderTouchesBenefits o product
  then enqueueSync (cfg_benefitSync c) (refund_message o product paymentID refundID)
         (if String.eqb refundID "" then None else Some (RefundSyncDedupKey refundID)) d
  else d.

(** The refund of a top-up leaves the wallet, unless the payment was settled otherwise. *)
Definition refund_wallet (c : PaySettings) (o : Order) (p : Payment) (refundID : string) (amount : float64) (d : PayDB)
  : payres PayDB :=
  if negb (bool_decide (py_Status p = PaymentPaid))
  then auditAndCommit "wallet_refund_skipped_payment_not_paid" ("payment:" +:+ py_ID p) d
  else if String.eqb refundID "" then Ok d
  else enqueueWalletRefund (cfg_benefitSync c) o (py_ID p) refundID amount d.

Definition refund_known (c : PaySettings) (ids : FreshIDs) (now : instant) (e : WebhookEvent) (p : Payment) (d : PayDB)
  : payres PayDB :=
  match pd_orders d !! py_OrderID p with
  | None => Err EStatement
  | Some o =>
      let? ((refundID, amount), d) := book_refund ids e p o d in
      let d := if String.eqb refundID "" then d
               else (updateRefund (fun r => bool_decide (rf_ID r = refundID)) RefundPaid d).2 in
      let product := resolveOrderProduct o d in
      let d := if toCents (major (py_Amount p)) <=? toCents (we_RefundAmount e)
               then refund_in_full c now o product (py_ID p) refundID d else d in
      if String.eqb product ProductWalletTopup then refund_wallet c o p refundID amount d else Ok d
  end.

(** A close event of an order that was never paid carries no refund. *)
Definition closes_unpaid (e : WebhookEvent) (d : PayDB) : bool :=
  negb (String.eqb (we_OrderID e) "") && existsb (String.eqb (we_EventType e)) ["TRADE_CLOSED"; "trade_closed"]
  && SFleb (we_RefundAmount e) zero64
  && match lookupOrderByWebhookID (we_Channel e) (we_OrderID e) d with
     | Some o => bool_decide (po_Status o ∈ [OrderPending; OrderExpired; OrderCancelled; OrderFailed])
     | None => false
     end.

(** An event that came before the payment it is about: audited, to be delivered again. *)
Definition too_early (action : string) (e : WebhookEvent) (d : PayDB) : handled :=
  (writeAuditOnTx "service" action ("event:" +:+ we_EventID e) d, Some ERetry).

Definition onRefundSucceeded (c : PaySettings) (ids : FreshIDs) (now : instant) (e : WebhookEvent) (d : PayDB) : handled :=
  match FindByChannelTxnID (we_Channel e) (we_TransactionID e) d with
  | Some p => in_pay_tx d (refund_known c ids now e p)
  | None => if closes_unpaid e d
            then in_pay_tx d (auditAndCommit "webhook_refund_unpaid_order" ("event:" +:+ we_EventID e))
            else too_early "webhook_refund_unknown_payment" e d
  end.

Definition fail_refund (e : WebhookEvent) (p : Payment) (d : PayDB) : payres PayDB :=
  let extID := normalizeExternalRefundID (we_Channel e) (we_ExternalRefundID e) in
  if String.eqb extID "" then auditAndCommit "webhook_refund_failed_missing_refund_no" ("event:" +:+ we_EventID e) d else
  let mine r := same_refund (we_Channel e) extID r && bool_decide (rf_PaymentID r = py_ID p) in
  let '(hit, d) := updateRefund mine RefundFailed d in
  if hit then Ok (writeAuditOnTx "service" "refund_marked_failed" ("payment:" +:+ py_ID p) d)
  else if exists_row mine (pd_refunds d) then Ok d else Err ERetry.

Definition onRefundFailed (e : WebhookEvent) (d : PayDB) : handled :=
  match FindByChannelTxnID (we_Channel e) (we_TransactionID e) d with
  | Some p => in_pay_tx d (fail_refund e p)
  | None => too_early "webhook_refund_failed_unknown_payment" e d
  end.

Definition onDisputeCreated (e : WebhookEvent) (d : PayDB) : handled :=
  match FindByChannelTxnID (we_Channel e) (we_TransactionID e) d with
  | Some p => in_pay_tx d (fun d => Ok (set_pd_payments (alter payment_disputed (py_ID p) (pd_payments d)) d))
  | None => too_early "webhook_dispute_unknown_payment" e d
  end.

(** ** Renewals the channel charges by itself *)

Definition planHasBenefitConfig (c : PaySettings) (planID : string) (d : PayDB) : bool :=
  cfg_benefitRepo c && bool_decide (is_Some (pd_benefits d !! planID)).

(** The plan check: an audit and go on ([inl]), or an audited refusal ([inr]). *)
Definition renewal_check (c : PaySettings) (e : WebhookEvent) (s : Subscription) (d : PayDB) : PayDB + PayDB :=
  let note action := writeAuditOnTx "service" (we_Channel e +:+ action) ("subscription:" +:+ sb_ID s) d in
  match pd_plans d !! sb_PlanID s with
  | None => inl (note "_renewal_plan_lookup_failed")
  | Some p =>
      if negb (EqualFold (we_Currency e) (pl_Currency p)) then
        if OverridesActive c then inl (note "_renewal_currency_mismatch")
        else inr (note "_renewal_currency_mismatch_rejected")
      else if toCents (we_Amount e) <? toCents (major (pl_Price p)) then
        if OverridesActive c then inl (note "_renewal_amount_below_plan")
        else inr (note "_renewal_amount_below_plan_rejected")
      else inl d
  end.

Definition renewal_order (ids : FreshIDs) (now : instant) (e : WebhookEvent) (s : Subscription)
    (nextBilled : option instant) (d : PayDB) : payres Order :=
  let? amount := bind_amount (we_Amount e) in
  Ok (mkPayOrder (id_order ids) (sb_UserID s) (sb_PlanID s) amount (we_Currency e) OrderPaid
        (default (AddDate now 100 0 0) nextBilled) now None (Some (sb_ProductCode s))
        (pl_IntervalDays <$> pd_plans d !! sb_PlanID s) None [] None None None).

(** [GREATEST(COALESCE(expires_at, t), t)] on an active row. *)
Definition extend_sub (s : Subscription) (nextBilled : option instant) (e : WebhookEvent) (now : instant) (d : PayDB) : PayDB :=
  let note action := writeAuditOnTx "service" (we_Channel e +:+ action) ("subscription:" +:+ sb_ID s) d in
  match nextBilled with
  | Some t =>
      if bool_decide (sb_Status s = SubActive)
      then set_pd_subs (<[sb_ID s := sub_with_expiry (Some (Z.max (default t (sb_ExpiresAt s)) t)) now s]> (pd_subs d)) d
      else note "_renewal_sub_not_active"
  | None => note "_renewal_no_expiry_hint"
  end.

Definition renewal_message (s : Subscription) (orderID paymentID : string) : PayMessage :=
  BenefitMessage (mkSyncMessage (sb_UserID s) (sb_ProductCode s) "renewal_paid" orderID paymentID "" (sb_ID s)).

Definition renew_tx (c : PaySettings) (ids : FreshIDs) (now : instant) (e : WebhookEvent) (nextBilled : option instant)
    (d : PayDB) : payres PayDB :=
  match findSubByExternal (we_ExternalSubscriptionID e) d with
  | None => auditAndCommit (we_Channel e +:+ "_renewal_unknown_subscription") ("event:" +:+ we_EventID e) d
  | Some s =>
      match FindByChannelTxnID (we_Channel e) (we_TransactionID e) d with
      | Some _ => auditAndCommit (we_Channel e +:+ "_renewal_payment_already_exists") ("event:" +:+ we_EventID e) d
      | None =>
          match renewal_check c e s d with
          | inr d => Ok d
          | inl d =>
              let? o := renewal_order ids now e s nextBilled d in
              let? d := insertOrder o d in
              let p := mkPayment (id_payment ids) (po_ID o) (we_Channel e) (we_TransactionID e) (po_Amount o) (we_Currency e)
                         PaymentPaid false in
              let? (inserted, d) := insertPaymentOnTx p d in
              let paymentID := if inserted then py_ID p else "" in
              let d := extend_sub s nextBilled e now d in
              let d := writeAuditOnTx "service" (we_Channel e +:+ "_subscription_renewed") ("subscription:" +:+ sb_ID s) d in
              Ok (if cfg_benefitSync c && (String.eqb (sb_ProductCode s) ProductCodingPlan
                                           || planHasBenefitConfig c (sb_PlanID s) d)
                  then enqueueSync (cfg_benefitSync c) (renewal_message s (po_ID o) paymentID)
                         (Some (PaidSyncDedupKey paymentID)) d
                  else d)
          end
      end
  end.

(** [GetSubscriptionNextBilledAt] of Paddle's API; [None] is a failed call. *)
Definition onRenewalSucceeded (c : PaySettings) (nextBilledAt : string -> option (option instant)) (ids : FreshIDs)
    (now : instant) (e : WebhookEvent) (d : PayDB) : handled :=
  if String.eqb (we_ExternalSubscriptionID e) ""
  then (writeAuditOnTx "service" (we_Channel e +:+ "_renewal_missing_external_sub_id") ("event:" +:+ we_EventID e) d, None)
  else
  if bool_decide (we_SubExpiresAt e = None) && String.eqb (we_Channel e) "paddle" then
    if negb (cfg_paddle c) then (d, Some EUpstream) else
    match nextBilledAt (we_ExternalSubscriptionID e) with
    | None => (d, Some EUpstream)
    | Some t => in_pay_tx d (renew_tx c ids now e t)
    end
  else in_pay_tx d (renew_tx c ids now e (we_SubExpiresAt e)).

(** ** Subscriptions Paddle manages *)

Definition cancel_message (s : Subscription) : PayMessage :=
  BenefitMessage (mkSyncMessage (sb_UserID s) (sb_ProductCode s) "subscription_cancelled" "" "" "" (sb_ID s)).

Definition put_sub (s : Subscription) (d : PayDB) : PayDB := set_pd_subs (<[sb_ID s := s]> (pd_subs d)) d.

Definition cancel_paddle_tx (c : PaySettings) (now : instant) (e : WebhookEvent) (d : PayDB) : payres PayDB :=
  match findSubByExternal (we_ExternalSubscriptionID e) d with
  | None => auditAndCommit "paddle_cancel_unknown_subscription" ("event:" +:+ we_EventID e) d
  | Some s =>
      if bool_decide (sb_Status s = SubCancelled)
      then Ok (if sb_AutoRenew s then put_sub (sub_auto_renew_off now s) d else d)
      else
        let d := put_sub (sub_auto_renew_off now (sub_with_status SubCancelled now s)) d in
        let d := writeAuditOnTx "service" "paddle_subscription_cancelled" ("subscription:" +:+ sb_ID s) d in
        Ok (enqueueSync (cfg_benefitSync c) (cancel_message s) None d)
  end.

Definition onPaddleSubscriptionCancelled (c : PaySettings) (now : instant) (e : WebhookEvent) (d : PayDB) : handled :=
  if String.eqb (we_ExternalSubscriptionID e) ""
  then (writeAuditOnTx "service" "paddle_cancel_missing_external_sub_id" ("event:" +:+ we_EventID e) d, None)
  else in_pay_tx d (cancel_paddle_tx c now e).

Definition onPaddleChargebackUnhandled (e : WebhookEvent) (d : PayDB) : handled :=
  (writeAuditOnTx "service" "paddle_chargeback_unhandled" ("event:" +:+ we_EventID e) d, None).

(** The one plan whose price is among the event's; [""] when there is none, or several. *)
Definition planIDForSubscriptionPrices (prices : gmap string string) (priceIDs : list string) : string :=
  match (List.filter (fun kv => existsb (String.eqb kv.2) priceIDs) (map_to_list prices)).*1 with
  | [planID] => planID
  | _ => ""
  end.

Definition sub_with_plan (planID : string) (s : Subscription) : Subscription :=
  mkPaySub (sb_ID s) (sb_UserID s) planID (sb_ProductCode s) (sb_Status s) (sb_ExpiresAt s) (sb_ExternalSubscriptionID s)
    (sb_Channel s) (sb_AutoRenew s) (sb_CreatedAt s) (sb_UpdatedAt s).

(** [GREATEST] ignores NULLs. *)
Definition greatest (a b : option instant) : option instant :=
  match a, b with Some x, Some y => Some (Z.max x y) | Some x, None => Some x | None, b => b end.

(** The plan of the items, while the row is live; an event older than the row
    may only extend it. *)
Definition sync_plan (c : PaySettings) (now : instant) (e : WebhookEvent) (before s : Subscription) (d : PayDB) : payres PayDB :=
  let stale := match we_OccurredAt e with Some t => t <? sb_UpdatedAt before | None => false end in
  let planID := planIDForSubscriptionPrices (cfg_paddlePrices c) (we_PriceIDs e) in
  if negb (bool_decide (sb_Status before = SubActive)) || String.eqb planID "" || String.eqb planID (sb_PlanID before)
  then Ok d
  else if stale then
    Ok match we_SubExpiresAt e with
       | Some t => put_sub (sub_with_expiry (greatest (Some t) (sb_ExpiresAt s)) now s) d
       | None => d end
  else
    let s' := sub_with_plan planID (sub_with_expiry (greatest (match we_SubExpiresAt e with Some t => Some t | None => sb_ExpiresAt s end)
                                                       (sb_ExpiresAt s)) now s) in
    guard plan_product_ok s' d else EStatement;
    Ok (put_sub s' d).

Definition update_paddle_tx (c : PaySettings) (now : instant) (e : WebhookEvent) (d : PayDB) : payres PayDB :=
  match findSubByExternal (we_ExternalSubscriptionID e) d with
  | None => auditAndCommit "paddle_updated_unknown_subscription" ("event:" +:+ we_EventID e) d
  | Some s =>
      let s' := if String.eqb (we_ScheduledChangeAction e) "cancel" && sb_AutoRenew s then sub_auto_renew_off now s else s in
      let d := if String.eqb (we_ScheduledChangeAction e) "cancel" && sb_AutoRenew s then put_sub s' d else d in
      let? d := sync_plan c now e s s' d in
      Ok (writeAuditOnTx "service" "paddle_subscription_updated" ("subscription:" +:+ sb_ID s) d)
  end.

Definition onPaddleSubscriptionUpdated (c : PaySettings) (now : instant) (e : WebhookEvent) (d : PayDB) : handled :=
  if String.eqb (we_ExternalSubscriptionID e) ""
  then (writeAuditOnTx "service" "paddle_updated_missing_external_sub_id" ("event:" +:+ we_EventID e) d, None)
  else in_pay_tx d (update_paddle_tx c now e).

(** ** Dispatch *)

Inductive webhookBranch :=
| branchNone | branchPaymentSuccess | branchPaymentFailed | branchRefund | branchRefundFailed | branchDisputeCreated
| branchDisputeClosed | branchRenewal | branchSubscriptionCancelled | branchSubscriptionUpdated | branchChargebackUnhandled.

#[global] Instance webhookBranch_eq_dec : EqDecision webhookBranch.
Proof. solve_decision. Defined.

Definition domainAction (b : webhookBranch) : string :=
  match b with
  | branchPaymentSuccess | branchRenewal => "payment_paid"
  | branchPaymentFailed => "payment_failed"
  | branchRefund => "refund_paid"
  | branchRefundFailed => "refund_failed"
  | branchDisputeCreated => "payment_disputed"
  | branchDisputeClosed => "payment_dispute_closed"
  | branchSubscriptionCancelled => "subscription_cancelled"
  | branchSubscriptionUpdated => "subscription_updated"
  | branchNone | branchChargebackUnhandled => "none"
  end.

Definition channelWebhookBranches : list (string * list (string * webhookBranch)) :=
  [("stripe", [("payment_intent.succeeded", branchPaymentSuccess); ("payment_intent.payment_failed", branchPaymentFailed);
               ("payment_intent.canceled", branchPaymentFailed); ("charge.refunded", branchRefund);
               ("charge.dispute.created", branchDisputeCreated); ("charge.dispute.closed", branchDisputeClosed)]);
   ("wechat_pay", [("TRANSACTION.SUCCESS", branchPaymentSuccess); ("TRANSACTION.PAY_FAILED", branchPaymentFailed);
                   ("TRANSACTION.REVOKED", branchPaymentFailed); ("TRANSACTION.REFUND", branchRefund);
                   ("REFUND.SUCCESS", branchRefund); ("REFUND.ABNORMAL", branchRefundFailed);
                   ("REFUND.CLOSED", branchRefundFailed)]);
   ("alipay", [("TRADE_SUCCESS", branchPaymentSuccess); ("trade_status_sync", branchPaymentSuccess);
               ("TRADE_CLOSED", branchRefund); ("trade_closed", branchRefund); ("trade_refund", branchRefund)]);
   ("paypal", [("PAYMENT.CAPTURE.COMPLETED", branchPaymentSuccess); ("PAYMENT.CAPTURE.DENIED", branchPaymentFailed);
               ("PAYMENT.CAPTURE.FAILED", branchPaymentFailed); ("PAYMENT.CAPTURE.REFUNDED", branchRefund);
               ("PAYMENT.SALE.REFUNDED", branchRefund); ("PAYMENT.SALE.COMPLETED", branchRenewal)]);
   ("paddle", [("transaction.completed", branchPaymentSuccess); ("adjustment.updated", branchRefund);
               ("subscription.canceled", branchSubscriptionCancelled); ("subscription.updated", branchSubscriptionUpdated)])].

Definition assoc {A} (k : string) (l : list (string * A)) : option A := snd <$> List.find (fun kv => String.eqb kv.1 k) l.

Definition dispatchBranch (channel eventType : string) : webhookBranch :=
  default branchNone (assoc channel channelWebhookBranches ≫= assoc eventType).

Definition resolveBranch (e : WebhookEvent) : webhookBranch :=
  if String.eqb (we_Channel e) "paddle" && String.eqb (we_EventType e) "transaction.completed"
     && String.eqb (we_Origin e) "subscription_recurring" then branchRenewal
  else if String.eqb (we_Channel e) "paddle" && String.eqb (we_EventType e) "transaction.completed"
          && String.eqb (we_OrderID e) "" then branchNone
  else if String.eqb (we_Channel e) "paddle" && String.eqb (we_EventType e) "adjustment.updated"
          && existsb (String.eqb (we_AdjustmentAction e)) ["chargeback"; "chargeback_reverse"] then branchChargebackUnhandled
  else if String.eqb (we_Channel e) "paddle" && String.eqb (we_EventType e) "adjustment.updated"
          && String.eqb (we_ExternalRefundID e) "" then branchNone
  else dispatchBranch (we_Channel e) (we_EventType e).

Definition handle_event (c : PaySettings) (nextBilledAt : string -> option (option instant)) (ids : FreshIDs)
    (now : instant) (e : WebhookEvent) (d : PayDB) : handled :=
  match resolveBranch e with
  | branchPaymentSuccess => in_pay_tx d (onPaymentSucceeded c ids now e)
  | branchRenewal => onRenewalSucceeded c nextBilledAt ids now e d
  | branchPaymentFailed => in_pay_tx d (onPaymentFailed c ids now e)
  | branchRefund => onRefundSucceeded c ids now e d
  | branchRefundFailed => onRefundFailed e d
  | branchDisputeCreated => onDisputeCreated e d
  | branchSubscriptionCancelled => onPaddleSubscriptionCancelled c now e d
  | branchSubscriptionUpdated => onPaddleSubscriptionUpdated c now e d
  | branchChargebackUnhandled => onPaddleChargebackUnhandled e d
  | branchDisputeClosed | branchNone => (d, None)
  end.

Record OnWebhookResult := mkWebhookResult { ow_DuplicateEvent : bool; ow_DomainAction : string }.

(** The event row, the handler's transaction and the mark commit one after the
    other; a crash in between leaves the event to be handled again. *)
Definition OnWebhook (c : PaySettings) (nextBilledAt : string -> option (option instant)) (ids : FreshIDs)
    (now : instant) (e : WebhookEvent) (d : PayDB) : PayDB * payres OnWebhookResult :=
  if negb (known_channel (we_Channel e)) then (d, Err ErrInvalidChannel) else
  match InsertEvent (id_event ids) (we_Channel e) (we_EventID e) d with
  | Err err => (d, Err err)
  | Ok (rowID, processed, d) =>
      if processed then (d, Ok (mkWebhookResult true "")) else
      match handle_event c nextBilledAt ids now e d with
      | (d, Some err) => (d, Err err)
      | (d, None) => (MarkProcessed rowID d, Ok (mkWebhookResult false (domainAction (resolveBranch e))))
      end
  end.

(** ** Confirmation by the caller *)

(** [wechat.OrderQueryResult]. *)
Record OrderQueryResult := mkQueryResult {
  qr_TradeState : string;
  qr_OutTradeNo : string;
  qr_TransactionID : string;
  qr_Total : Z;
  qr_Currency : string;
}.

(** [QueryOrder]: [None] is a failed call, [Some None] an empty answer. *)
Definition QueryOrder := string -> option (option OrderQueryResult).

Definition verified_by (o : Order) (outTradeNo externalTxnID : string) (r : OrderQueryResult) : bool :=
  String.eqb (qr_TradeState r) "SUCCESS" && String.eqb (qr_OutTradeNo r) outTradeNo
  && String.eqb (qr_TransactionID r) externalTxnID && (toCents (major (po_Amount o)) <=? qr_Total r)
  && EqualFold (qr_Currency r) (po_Currency o).

Definition verifyConfirmPayment (c : PaySettings) (query : QueryOrder) (o : Order) (channel externalTxnID : string) : payres unit :=
  if negb (String.eqb channel "wechat_pay") then Err ErrConfirmVerificationUnavailable else
  if negb (cfg_wechat c) then Err ErrWechatPayNotConfigured else
  match out_trade_no o with
  | None => Err ErrConfirmNotVerified
  | Some n =>
      if String.eqb n "" then Err ErrConfirmNotVerified else
      match query n with
      | None => Err EUpstream
      | Some None => Err ErrConfirmNotVerified
      | Some (Some r) => if verified_by o n externalTxnID r then Ok tt else Err ErrConfirmNotVerified
      end
  end.

Record ConfirmInput := mkConfirm { ci_OrderID : string; ci_UserID : string; ci_Channel : string; ci_ExternalTxnID : string }.
Record ConfirmResult := mkConfirmed {
  cr_PaymentID : string; cr_OrderID : string; cr_ActivatedSubscription : bool; cr_WasLatePayment : bool;
}.

(** What is checked on the order read before the transaction, upstream included. *)
Definition confirm_checks (c : PaySettings) (query : QueryOrder) (i : ConfirmInput) (d : PayDB) : payres Order :=
  fail_if negb (known_channel (ci_Channel i)) with ErrInvalidChannel;
  match pd_orders d !! ci_OrderID i with
  | None => Err ErrOrderNotFound
  | Some o =>
      fail_if negb (bool_decide (po_UserID o = ci_UserID i)) with ErrOrderNotFound;
      fail_if bool_decide (po_Status o ∈ [OrderFailed; OrderRefunded]) with ErrOrderAlreadyTerminal;
      let? _ := verifyConfirmPayment c query o (ci_Channel i) (ci_ExternalTxnID i) in
      Ok o
  end.

(** The transaction, on the order that was read. *)
Definition confirm_tx (c : PaySettings) (ids : FreshIDs) (now : instant) (i : ConfirmInput) (o : Order) (d : PayDB)
  : payres (ConfirmResult * PayDB) :=
  fail_if match findPaidByOrder (po_ID o) d with
          | Some p => negb (bool_decide (py_Channel p = ci_Channel i)) | None => false end with ErrOrderChannelMismatch;
  let p := mkPayment (id_payment ids) (po_ID o) (ci_Channel i) (ci_ExternalTxnID i) (po_Amount o) (po_Currency o)
             PaymentPaid false in
  let? (inserted, d) := insertPaymentOnTx p d in
  let orderProduct := resolveOrderProduct o d in
  let? paymentID :=
    if inserted then Ok (py_ID p) else
    match FindByChannelTxnID (ci_Channel i) (ci_ExternalTxnID i) d with
    | None => Err EStatement
    | Some old => if bool_decide (py_Status old = PaymentFailed) then Err ErrOrderAlreadyTerminal else Ok (py_ID old)
    end in
  let '(preserved, downgradeRetry) := if inserted then (None, false) else retry_state now o orderProduct d in
  let? (activated, d) := activate_paid c ids now (ci_Channel i) o orderProduct paymentID None preserved downgradeRetry d in
  let '(late, d) := mark_order_paid o d in
  Ok (mkConfirmed paymentID (po_ID o) activated late, d).

(** Nobody writes between the checks and the transaction. *)
Definition Confirm (c : PaySettings) (query : QueryOrder) (ids : FreshIDs) (now : instant) (i : ConfirmInput) (d : PayDB)
  : payres (ConfirmResult * PayDB) :=
  let? o := confirm_checks c query i d in confirm_tx c ids now i o d.

(** ** Refund requests *)

Record RefundInput := mkRefundInput {
  ri_PaymentID : string; ri_UserID : string; ri_InternalApp : bool; ri_IdempotencyKey : string; ri_Amount : float64;
}.

Inductive RefundAnswer := RefundCreated (r : Refund) | RefundExisting (r : Refund).

Definition deriveMerchantRefundNo (paymentID idempotencyKey : string) : string :=
  "mrn_" +:+ String.substring 0 40 (EncodeToString (Sum256 ("yunhou-refund:" +:+ paymentID +:+ ":" +:+ idempotencyKey))).

(** What is decided before the transaction: an answer, or the payment and its owner. *)
Definition refund_checks (i : RefundInput) (d : PayDB) : payres (Refund + Payment * string) :=
  fail_if String.eqb (ri_IdempotencyKey i) "" with ErrMissingIdempotencyKey;
  fail_if SFleb (ri_Amount i) zero64 with ErrRefundAmountInvalid;
  match (if String.eqb (ri_UserID i) "" then None else FindByIdempotencyKey (ri_UserID i) (ri_IdempotencyKey i) d) with
  | Some r => Ok (inl r)
  | None =>
      match pd_payments d !! ri_PaymentID i with
      | None => Err ErrPaymentNotFound
      | Some p =>
          match pd_orders d !! py_OrderID p with
          | None => Err EStatement
          | Some o =>
              fail_if negb (ri_InternalApp i) && negb (bool_decide (po_UserID o = ri_UserID i)) with ErrPaymentNotFound;
              match (if bool_decide (po_UserID o = ri_UserID i) then None
                     else FindByIdempotencyKey (po_UserID o) (ri_IdempotencyKey i) d) with
              | Some r => Ok (inl r)
              | None =>
                  fail_if negb (bool_decide (py_Status p = PaymentPaid)) with ErrPaymentNotPaid;
                  fail_if SFltb (major (py_Amount p)) (ri_Amount i) with ErrRefundAmountInvalid;
                  Ok (inr (p, po_UserID o))
              end
          end
      end
  end.

(** The sum check, in cents, under the lock on the payment row. *)
Definition refund_fits (p : Payment) (amount : float64) (d : PayDB) : bool :=
  add64 (toCents (major (sumRefunds (py_ID p) [RefundPaid; RefundPending] d))) (toCents amount)
    <=? toCents (major (py_Amount p)).

(** The transaction; [accepted] is the channel's answer to the refund call it makes. *)
Definition refund_tx (accepted : bool) (ids : FreshIDs) (i : RefundInput) (p : Payment) (owner : string) (d : PayDB)
  : payres (Refund * PayDB) :=
  match pd_payments d !! py_ID p with
  | None => Err EStatement
  | Some locked =>
      guard refund_fits locked (ri_Amount i) d else ErrRefundSumExceedsPayment;
      guard accepted else ErrRefundChannelFailed;
      let? cents := bind_amount (ri_Amount i) in
      let r := mkRefund (id_refund ids) (py_ID p) (py_Channel p) owner cents (ri_IdempotencyKey i)
                 (Some (deriveMerchantRefundNo (py_ID p) (ri_IdempotencyKey i))) RefundPending in
      let? d := insertRefund r d in Ok (r, d)
  end.

Definition RefundPayment (accepted : bool) (ids : FreshIDs) (i : RefundInput) (d : PayDB) : payres (RefundAnswer * PayDB) :=
  let? decided := refund_checks i d in
  match decided with
  | inl r => Ok (RefundExisting r, d)
  | inr (p, owner) => let? (r, d) := refund_tx accepted ids i p owner d in Ok (RefundCreated r, d)
  end.

(** ** Reconciliation of a pending order with its channel *)

Definition reconcileMinInterval : duration := 10 * second.

Definition shouldReconcile (c : PaySettings) (now : instant) (o : Order) : bool :=
  bool_decide (po_Status o ∈ [OrderPending; OrderExpired]) && cfg_wechat c && negb (cfg_wechatMock c)
  && negb (time_sub now (po_LastReconciledAt o) <? reconcileMinInterval)
  && match po_ProviderIntent o ≫= fun m => m !! "appid" with Some a => negb (String.eqb a "") | None => false end.

Definition buildReconcileWebhookEvent (r : OrderQueryResult) : payres WebhookEvent :=
  guard String.eqb (qr_TradeState r) "SUCCESS" else EUpstream;
  Ok (mkEvent "wechat_pay" ("reconcile:" +:+ qr_OutTradeNo r +:+ ":" +:+ qr_TransactionID r) "TRANSACTION.SUCCESS"
        (qr_TransactionID r) (qr_OutTradeNo r) (major (qr_Total r)) (qr_Currency r) zero64 "" "" "" "" "" None [] false None).

(** Whether to skip. *)
Definition reconcilePreCheck (existing : option Payment) : bool :=
  match existing with Some p => bool_decide (py_Status p = PaymentPaid) | None => false end.

Definition reconcileFromChannel (c : PaySettings) (query : QueryOrder) (ids : FreshIDs) (now : instant) (o : Order) (d : PayDB)
  : PayDB * payres unit :=
  match out_trade_no o with
  | None => (d, Ok tt)
  | Some n =>
      if String.eqb n "" then (d, Ok tt) else
      match query n with
      | None => (d, Err EUpstream)
      | Some None => (stampReconciled (po_ID o) now d, Ok tt)
      | Some (Some r) =>
          if negb (String.eqb (qr_TradeState r) "SUCCESS") then (stampReconciled (po_ID o) now d, Ok tt) else
          if reconcilePreCheck (FindByChannelTxnID "wechat_pay" (qr_TransactionID r) d)
          then (stampReconciled (po_ID o) now d, Ok tt) else
          match buildReconcileWebhookEvent r with
          | Err e => (d, Err e)
          | Ok e => match OnWebhook c (fun _ => None) ids now e d with
                    | (d, Err err) => (d, Err err)
                    | (d, Ok _) => (stampReconciled (po_ID o) now d, Ok tt)
                    end
          end
      end
  end.

(** A failed reconciliation does not fail the read. *)
Definition GetOrder (c : PaySettings) (query : QueryOrder) (ids : FreshIDs) (now : instant) (orderID userID : string) (d : PayDB)
  : PayDB * payres Order :=
  match pd_orders d !! orderID with
  | None => (d, Err ErrOrderNotFound)
  | Some o =>
      if negb (bool_decide (po_UserID o = userID)) then (d, Err ErrOrderNotFound) else
      if shouldReconcile c now o then
        match reconcileFromChannel c query ids now o d with
        | (d, Ok _) => (d, Ok (default o (pd_orders d !! orderID)))
        | (d, Err _) => (d, Ok o)
        end
      else (d, Ok o)
  end.

(** ** Reads, with the ownership check *)

Definition GetPayment (paymentID userID : string) (d : PayDB) : payres Payment :=
  match pd_payments d !! paymentID with
  | None => Err ErrPaymentNotFound
  | Some p => match pd_orders d !! py_OrderID p with
              | None => Err EStatement
              | Some o => if bool_decide (po_UserID o = userID) then Ok p else Err ErrPaymentNotFound
              end
  end.

Definition GetRefund (refundID userID : string) (d : PayDB) : payres Refund :=
  match pd_refunds d !! refundID with
  | None => Err ErrRefundNotFound
  | Some r =>
      match pd_payments d !! rf_PaymentID r with
      | None => Err EStatement
      | Some p => match pd_orders d !! py_OrderID p with
                  | None => Err EStatement
                  | Some o => if bool_decide (po_UserID o = userID) then Ok r else Err ErrRefundNotFound
                  end
      end
  end.
