(* ===== verification/Orders.v ===== *)
(** * Orders: creating, cancelling and expiring orders

    [CreateOrder] with its eligibility transaction, [CancelOrder] and the
    repurchase rule of [internal/service/payment.go], the price override of
    [price_override.go] and the sweep of [sweeper.go]. *)

From Stdlib Require Import ZArith Lia Bool Ascii String.
From stdpp Require Import base gmap strings list.
From S2P Require Import Prelude Domain Calendar EntitlementStore BenefitRules Amounts PayTables Activation Payments.

Local Open Scope string_scope.
Local Open Scope Z_scope.
Local Open Scope go_scope.

Definition channelRequiredCurrency (channel : string) : option string :=
  if String.eqb channel "wechat_pay" then Some "CNY"
  else if String.eqb channel "paypal" || String.eqb channel "paddle" then Some "USD" else None.

(** The upstream clients: their answers, and the texts a checkout shows. *)
Record Upstream := mkUpstream {
  (** [UnifiedOrder] of an out_trade_no, an amount in fen and a currency: the code url *)
  up_UnifiedOrder : string -> Z -> string -> option string;
  up_AppID : string;
  up_MchID : string;
  (** [CreateCheckoutTransaction] of a price, an order id and a currency: transaction id and url *)
  up_Checkout : string -> string -> string -> option (string * string);
  up_ClientToken : string;
}.

Definition providerPreAuth (c : PaySettings) (channel : string) : payres unit :=
  fail_if String.eqb channel "wechat_pay" && negb (cfg_wechat c) with ErrWechatPayNotConfigured;
  fail_if String.eqb channel "paddle" && negb (cfg_paddle c) with ErrPaddleNotConfigured;
  Ok tt.

Definition ApplyPlanAmountOverride (c : PaySettings) (planID : string) (originalPrice : float64) : float64 :=
  default originalPrice (cfg_override c ≫= fun m => m !! planID).

(** A missing plan does not block: the eligibility transaction reports it. *)
Definition repurchaseAllowed (currentPlanID requestedPlanID : string) (d : PayDB) : bool :=
  match pd_plans d !! requestedPlanID, pd_plans d !! currentPlanID with
  | Some requested, Some current => pl_IntervalDays current <=? pl_IntervalDays requested
  | _, _ => true
  end.

(** The kind of a coding-plan order ([""] for other products), with the plan it upgrades from. *)
Definition order_kind_rule (c : PaySettings) (userID planID channel : string) (requested : PayPlan) (now : instant) (d : PayDB)
  : payres (string * option string) :=
  let coding := String.eqb (pl_ProductCode requested) ProductCodingPlan in
  let new := (if coding then "new" else "", None) in
  fail_if coding && negb (cfg_benefitRepo c) with ErrPlanNotPurchasable;
  let? kind :=
    match FindActiveByUserAndProduct userID (pl_ProductCode requested) d with
    | None => Ok new
    | Some existing =>
        if negb (unexpired now existing) then Ok new else
        fail_if channelAutoRenews channel && negb (String.eqb (sb_PlanID existing) "trial") with ErrUserHasActiveSub;
        if coding then
          if String.eqb (sb_PlanID existing) planID then Ok ("renewal", None)
          else if bool_decide ((sb_PlanID existing, planID) ∈ pd_upgrades d) then Ok ("upgrade", Some (sb_PlanID existing))
          else Err ErrPlanUpgradeNotConfigured
        else if repurchaseAllowed (sb_PlanID existing) planID d then Ok new else Err ErrPlanDowngrade
    end in
  fail_if channelAutoRenews channel && hasPendingOrder userID (pl_ProductCode requested) now d with ErrUserHasPendingOrder;
  Ok kind.

(** The checks before any row is written. *)
Definition order_kind_for (c : PaySettings) (userID planID channel : string) (now : instant) (d : PayDB)
  : payres (string * option string) :=
  match pd_plans d !! planID with
  | None => Ok ("", None)
  | Some requested => order_kind_rule c userID planID channel requested now d
  end.

(** The benefits an order freezes. *)
Definition benefit_snapshot (c : PaySettings) (planID : string) (plan : PayPlan) (d : PayDB)
  : payres (option PlanBenefitConfig) :=
  let coding := String.eqb (pl_ProductCode plan) ProductCodingPlan in
  if cfg_benefitRepo c && negb (String.eqb (pl_ProductCode plan) ProductWalletTopup) then
    match pd_benefits d !! planID with
    | None => fail_if coding with ErrPlanNotPurchasable; Ok None
    | Some b =>
        let want := if coding then BenefitGrantModeSubscription else BenefitGrantModeGift in
        guard String.eqb (bc_GrantMode b) want else ErrPlanNotPurchasable;
        Ok (Some b)
    end
  else fail_if coding with ErrPlanNotPurchasable; Ok None.

Definition text_or_null (s : string) : option string := if String.eqb s "" then None else Some s.

Definition eligibilityAndInsertOrderTx (c : PaySettings) (ids : FreshIDs) (now : instant) (userID planID channel orderKind : string)
    (upgradeFrom : option string) (d : PayDB) : payres (Order * PayDB) :=
  match pd_plans d !! planID with
  | None => Err ErrPlanNotFound
  | Some plan =>
      guard pl_IsActive plan else ErrPlanInactive;
      guard pl_AcceptingNewSubscriptions plan else ErrPlanNotAcceptingNew;
      fail_if match channelRequiredCurrency channel with
              | Some cur => negb (String.eqb (pl_Currency plan) cur) | None => false end with ErrPlanCurrencyMismatch;
      fail_if channelAutoRenews channel && negb (String.eqb (pl_ProductCode plan) "")
              && hasPendingOrder userID (pl_ProductCode plan) now d with ErrUserHasPendingOrder;
      let? benefits := benefit_snapshot c planID plan d in
      let? amount := bind_amount (ApplyPlanAmountOverride c planID (major (pl_Price plan))) in
      let o := mkPayOrder (id_order ids) userID planID amount (pl_Currency plan) OrderPending
                 (time_add now (cfg_orderExpiry c)) now None (text_or_null (pl_ProductCode plan))
                 (Some (pl_IntervalDays plan)) (bc_PolicyVersionID <$> benefits) (from_option bc_ModelIDs [] benefits)
                 (benefits ≫= fun b => text_or_null (bc_GrantMode b)) (text_or_null orderKind) upgradeFrom in
      let? d := insertOrder o d in Ok (o, d)
  end.

(** [strings.ReplaceAll(id, "-", "")]. *)
Fixpoint strip_hyphens (s : string) : string :=
  match s with
  | EmptyString => EmptyString
  | String ch s => if Ascii.eqb ch "-" then strip_hyphens s else String ch (strip_hyphens s)
  end.

Definition wechat_intent (u : Upstream) (codeURL outTradeNo : string) : gmap string string :=
  {[ "appid" := up_AppID u; "mchid" := up_MchID u; "code_url" := codeURL; "out_trade_no" := outTradeNo ]}.
Definition paddle_intent (u : Upstream) (txn url : string) : gmap string string :=
  {[ "transaction_id" := txn; "checkout_url" := url; "client_token" := up_ClientToken u ]}.

(** The artifact a channel needs before the buyer can pay. *)
Definition pre_auth (c : PaySettings) (u : Upstream) (channel : string) (o : Order) : payres (option (gmap string string)) :=
  if String.eqb channel "wechat_pay" then
    match fen_units (major (po_Amount o)) with
    | None => Err EUpstream
    | Some fen =>
        let outTradeNo := String.substring 0 32 (strip_hyphens (po_ID o)) in
        match up_UnifiedOrder u outTradeNo fen (po_Currency o) with
        | None => Err EUpstream
        | Some url => Ok (Some (wechat_intent u url outTradeNo))
        end
    end
  else if String.eqb channel "paddle" then
    match cfg_paddlePrices c !! po_PlanID o with
    | None => Err ErrPaddlePriceNotConfigured
    | Some price =>
        fail_if String.eqb price "" with ErrPaddlePriceNotConfigured;
        match up_Checkout u price (po_ID o) (po_Currency o) with
        | None => Err EUpstream
        | Some (txn, url) => Ok (Some (paddle_intent u txn url))
        end
    end
  else Ok None.

(** The order, whose compensation on a failed pre-authorisation is [FailPending]. *)
Definition CreateOrder (c : PaySettings) (u : Upstream) (ids : FreshIDs) (now : instant) (attributionOK : bool)
    (userID planID channel : string) (d : PayDB) : PayDB * payres Order :=
  let before :=
    fail_if negb (known_channel channel) with ErrInvalidChannel;
    guard attributionOK else ErrInvalidAttribution;
    let? _ := providerPreAuth c channel in
    let? (kind, from) := order_kind_for c userID planID channel now d in
    eligibilityAndInsertOrderTx c ids now userID planID channel kind from d in
  match before with
  | Err e => (d, Err e)
  | Ok (o, d) =>
      match pre_auth c u channel o with
      | Err e => ((FailPending (po_ID o) d).2, Err e)
      | Ok None => (d, Ok o)
      | Ok (Some intent) => (UpdateProviderIntent (po_ID o) intent d, Ok (order_with_intent intent o))
      end
  end.

Definition CancelOrder (orderID userID : string) (d : PayDB) : PayDB * payres unit :=
  match CancelPending orderID userID d with
  | (true, d) => (d, Ok tt)
  | (false, d) =>
      match pd_orders d !! orderID with
      | None => (d, Err ErrOrderNotFound)
      | Some o => (d, Err (if bool_decide (po_UserID o = userID) then ErrOrderNotPending else ErrOrderNotFound))
      end
  end.
