(* ===== verification/PayFrames.v ===== *)
(** * PayFrames: what a payment transaction may change

    Which rows a transaction of the payment service touches ([same_money]), and
    how the rows of the payment tables may evolve over it ([evolves]): an order
    keeps its terms and its status only moves forward, and so for payments,
    refunds, webhook events and the outbox. *)

From Stdlib Require Import ZArith Lia Bool Ascii String.
From Stdlib Require Import Floats.SpecFloat.
From stdpp Require Import base gmap strings list relations.
From S2P Require Import Prelude Domain Calendar EntitlementStore BenefitRules Amounts PayTables Activation Payments Orders.

Local Open Scope string_scope.
Local Open Scope Z_scope.
Local Open Scope go_scope.

(** ** Frames *)

(** Orders, payments, refunds and webhook events are untouched. *)
Definition same_money (d d' : PayDB) : Prop :=
  pd_orders d' = pd_orders d /\ pd_payments d' = pd_payments d /\ pd_refunds d' = pd_refunds d
  /\ pd_events d' = pd_events d.

#[export] Instance same_money_preorder : PreOrder same_money.
Proof.
  split; [by intros d|]. intros a b c (H1 & H2 & H3 & H4) (K1 & K2 & K3 & K4).
  unfold same_money. by rewrite K1, K2, K3, K4.
Qed.

Create HintDb pay.

Lemma audit_same_money a b t d : same_money d (writeAuditOnTx a b t d).
Proof. done. Qed.
Lemma enqueue_same_money w m k d : same_money d (enqueueSync w m k d).
Proof. unfold enqueueSync, enqueueOutbox. destruct w; [|done]. by destruct (_ && _). Qed.
Lemma writeSub_same_money s d d' : writeSub s d = Ok d' -> same_money d d'.
Proof. unfold writeSub. intros H. by inv_ok. Qed.
Lemma cancelSubs_same_money u p now d : same_money d (cancelSubs u p now d).
Proof. done. Qed.
Lemma put_sub_same_money s d : same_money d (put_sub s d).
Proof. done. Qed.

Lemma activateSubscription_same_money id u p prod ex ch now d b d' :
  activateSubscriptionOnTx id u p prod ex ch now d = Ok (b, d') -> same_money d d'.
Proof.
  unfold activateSubscriptionOnTx. destruct (pick_sub _ d); intros H; inv_ok; eauto using writeSub_same_money.
Qed.

Lemma stampExternalID_same_money x u p prod d d' : stampExternalID x u p prod d = Ok d' -> same_money d d'.
Proof.
  unfold stampExternalID. destruct (String.eqb x ""); [by intros [= <-]|].
  destruct (pick_sub _ d); intros H; by inv_ok.
Qed.

Lemma enqueueWalletTopup_same_money w o p d d' : enqueueWalletTopup w o p d = Ok d' -> same_money d d'.
Proof. unfold enqueueWalletTopup. intros H. inv_ok. apply enqueue_same_money. Qed.
Lemma enqueueWalletRefund_same_money w o p r a d d' : enqueueWalletRefund w o p r a d = Ok d' -> same_money d d'.
Proof. unfold enqueueWalletRefund. intros H. inv_ok. apply enqueue_same_money. Qed.
Lemma enqueueWalletFailedDebit_same_money w o p a d d' : enqueueWalletFailedDebit w o p a d = Ok d' -> same_money d d'.
Proof. unfold enqueueWalletFailedDebit. intros H. inv_ok. apply enqueue_same_money. Qed.

#[export] Hint Resolve audit_same_money enqueue_same_money writeSub_same_money cancelSubs_same_money put_sub_same_money
  activateSubscription_same_money stampExternalID_same_money enqueueWalletTopup_same_money
  enqueueWalletRefund_same_money enqueueWalletFailedDebit_same_money : pay.

(** Chains of frames. *)
Ltac frame := repeat first [ reflexivity | eassumption | solve [eauto with pay]
                           | match goal with |- same_money ?d (if ?b then _ else _) => destruct b end
                           | (etransitivity; [|solve [eauto with pay]]) ].

Lemma activate_paid_same_money c ids now ch o prod pid hint pres retry d b d' :
  activate_paid c ids now ch o prod pid hint pres retry d = Ok (b, d') -> same_money d d'.
Proof.
  unfold activate_paid. destruct (String.eqb prod ProductWalletTopup); [intros H; inv_ok; eauto with pay|].
  cbv zeta. set (d0 := if retry then _ else d).
  assert (same_money d d0) as H0 by (subst d0; destruct retry; eauto with pay; done).
  destruct (resolveOrderActivation _ _ _ _ _ _) as [expiry|err].
  - destruct retry; intros H; inv_ok; [done|]. etransitivity; [exact H0|]. destruct x as [act d1].
    inv_ok. etransitivity; [eapply activateSubscription_same_money; eassumption|].
    destruct (orderTouchesBenefits o prod); [apply enqueue_same_money|done].
  - destruct err; try (destruct retry); intros H; inv_ok; etransitivity; eauto with pay; done.
Qed.

(** ** How rows evolve *)

Definition order_status_le (a b : OrderStatus) : bool :=
  match a, b with
  | OrderPending, _ => true
  | OrderExpired, (OrderExpired | OrderPaid | OrderFailed | OrderRefunded) => true
  | OrderCancelled, (OrderCancelled | OrderPaid | OrderFailed | OrderRefunded) => true
  | OrderPaid, (OrderPaid | OrderFailed | OrderRefunded) => true
  | OrderFailed, OrderFailed => true
  | OrderRefunded, OrderRefunded => true
  | _, _ => false
  end.

(** What an order freezes: everything but its status, its checkout and the
    time it was last reconciled. *)
Definition order_terms (o : Order) :=
  (po_ID o, po_UserID o, po_PlanID o, po_Amount o, po_Currency o, po_ExpiresAt o,
   (po_ProductCode o, po_PlanIntervalDays o, po_BenefitPolicyVersionID o, po_BenefitModelIDs o, po_BenefitGrantMode o,
    po_OrderKind o, po_UpgradeFromPlanID o)).

Definition order_evolves (o o' : Order) : Prop :=
  order_terms o = order_terms o' /\ order_status_le (po_Status o) (po_Status o') = true.

Definition payment_status_le (a b : PaymentStatus) : bool :=
  match a, b with
  | PaymentPending, (PaymentPending | PaymentFailed) => true
  | PaymentPaid, (PaymentPaid | PaymentFailed | PaymentRefunded) => true
  | PaymentFailed, PaymentFailed => true
  | PaymentRefunded, PaymentRefunded => true
  | _, _ => false
  end.

Definition payment_terms (p : Payment) :=
  (py_ID p, py_OrderID p, py_Channel p, py_ExternalTxnID p, py_Amount p, py_Currency p).

Definition payment_evolves (p p' : Payment) : Prop :=
  payment_terms p = payment_terms p' /\ payment_status_le (py_Status p) (py_Status p') = true
  /\ (py_Disputed p = true -> py_Disputed p' = true).

Definition refund_status_le (a b : RefundStatus) : bool :=
  match a, b with
  | RefundPending, _ | RefundPaid, RefundPaid | RefundFailed, RefundFailed => true
  | _, _ => false
  end.

Definition refund_terms (r : Refund) :=
  (rf_ID r, rf_PaymentID r, rf_Channel r, rf_UserID r, rf_Amount r, rf_IdempotencyKey r, rf_ExternalRefundID r).

Definition refund_evolves (r r' : Refund) : Prop :=
  refund_terms r = refund_terms r' /\ refund_status_le (rf_Status r) (rf_Status r') = true.

Definition event_evolves (w w' : WebhookRow) : Prop :=
  wh_Channel w = wh_Channel w' /\ wh_EventID w = wh_EventID w' /\ (wh_Processed w = true -> wh_Processed w' = true).

(** Every row stays, and evolves by [R]. *)
Definition rows_evolve {A} (R : A -> A -> Prop) (m m' : gmap string A) : Prop :=
  forall k a, m !! k = Some a -> exists a', m' !! k = Some a' /\ R a a'.

Definition unique_requests (m : gmap string Refund) : Prop :=
  forall k r k' r', m !! k = Some r -> m !! k' = Some r' -> rf_UserID r = rf_UserID r' ->
    rf_IdempotencyKey r = rf_IdempotencyKey r' -> k = k'.

(** One row per event of a channel, one per refund request of a user, one
    message per deduplication key. *)
Definition unique_keys (d : PayDB) : Prop :=
  (forall k w k' w', pd_events d !! k = Some w -> pd_events d !! k' = Some w' ->
     wh_Channel w = wh_Channel w' -> wh_EventID w = wh_EventID w' -> k = k')
  /\ NoDup (omap px_DedupKey (pd_outbox d)) /\ unique_requests (pd_refunds d).

(** An order of the user with a payment of it. *)
Definition order_payment (orderID userID paymentID : string) (P : Order -> Prop) (d : PayDB) : Prop :=
  exists k o j p, pd_orders d !! k = Some o /\ pd_payments d !! j = Some p /\ po_ID o = orderID /\ po_UserID o = userID
    /\ py_ID p = paymentID /\ py_OrderID p = orderID /\ P o.

(** A message that grants something: a wallet credit of the order's amount,
    under the payment's key, or the benefits of a payment or a renewal. *)
Definition backed (d : PayDB) (r : PayOutboxRow) : Prop :=
  match px_Payload r with
  | WalletMessage m => wm_Kind m = "topup" ->
      px_DedupKey r = Some (WalletTopupDedupKey (wm_PaymentID m))
      /\ order_payment (wm_OrderID m) (wm_UserID m) (wm_PaymentID m)
           (fun o => walletTopupMicros (major (po_Amount o)) (po_Currency o) = Ok (wm_AmountMicros m)
                     /\ wm_Currency m = po_Currency o) d
  | BenefitMessage m => sm_Reason m ∈ ["payment_paid"; "renewal_paid"] ->
      px_DedupKey r = Some (PaidSyncDedupKey (sm_PaymentID m))
      /\ order_payment (sm_OrderID m) (sm_UserID m) (sm_PaymentID m) (fun _ => True) d
  end.
Definition outbox_backed (d : PayDB) : Prop := Forall (backed d) (pd_outbox d).

Record evolves (d d' : PayDB) : Prop := mkEvolves {
  ev_orders : rows_evolve order_evolves (pd_orders d) (pd_orders d');
  ev_payments : rows_evolve payment_evolves (pd_payments d) (pd_payments d');
  ev_refunds : rows_evolve refund_evolves (pd_refunds d) (pd_refunds d');
  ev_events : rows_evolve event_evolves (pd_events d) (pd_events d');
  ev_outbox : pd_outbox d `prefix_of` pd_outbox d';
  ev_keys : unique_keys d -> unique_keys d';
  ev_backed : outbox_backed d -> outbox_backed d';
}.

#[export] Instance order_evolves_preorder : PreOrder order_evolves.
Proof.
  split; [intros o; split; [done|by destruct (po_Status o)]|]. intros a b c [H1 H] [K1 K]. split; [congruence|].
  by destruct (po_Status a), (po_Status b), (po_Status c).
Qed.
#[export] Instance payment_evolves_preorder : PreOrder payment_evolves.
Proof.
  split; [intros p; split_and!; [done|by destruct (py_Status p)|done]|].
  intros a b c (H1 & H & H') (K1 & K & K'). split_and!; [congruence| |auto].
  by destruct (py_Status a), (py_Status b), (py_Status c).
Qed.
#[export] Instance refund_evolves_preorder : PreOrder refund_evolves.
Proof.
  split; [intros r; split; [done|by destruct (rf_Status r)]|]. intros a b c [H1 H] [K1 K]. split; [congruence|].
  by destruct (rf_Status a), (rf_Status b), (rf_Status c).
Qed.
#[export] Instance event_evolves_preorder : PreOrder event_evolves.
Proof. split; [by intros w|]. intros a b c (H1 & H2 & H) (K1 & K2 & K). split_and!; auto; congruence. Qed.
#[export] Instance rows_evolve_preorder {A} (R : A -> A -> Prop) `{!PreOrder R} : PreOrder (rows_evolve R).
Proof.
  split; [intros m k a Ha; by exists a|]. intros a b c H K k x Hx. destruct (H _ _ Hx) as (y & Hy & Rxy).
  destruct (K _ _ Hy) as (z & Hz & Ryz). exists z. split; [done|]. by etransitivity.
Qed.
#[export] Instance evolves_preorder : PreOrder evolves.
Proof.
  split; [intros d; by split|]. intros a b c [H1 H2 H3 H4 H5 H6 H7] [K1 K2 K3 K4 K5 K6 K7].
  split; [by etransitivity..|auto|auto].
Qed.

Lemma order_payment_mono x u y (P : Order -> Prop) d d' : (forall o o', order_terms o = order_terms o' -> P o -> P o') ->
  rows_evolve order_evolves (pd_orders d) (pd_orders d') -> rows_evolve payment_evolves (pd_payments d) (pd_payments d') ->
  order_payment x u y P d -> order_payment x u y P d'.
Proof.
  intros HP Ho Hp (k & o & j & p & H1 & H2 & H3 & H4 & H5 & H6 & H7).
  destruct (Ho _ _ H1) as (o' & H1' & Ht & _). destruct (Hp _ _ H2) as (p' & H2' & Ht' & _).
  exists k, o', j, p'. split; [done|]. split; [done|]. pose proof (HP _ _ Ht H7) as H7'.
  unfold order_terms, payment_terms in *. simplify_eq. split_and!; try congruence.
Qed.

Lemma outbox_backed_mono d d' : rows_evolve order_evolves (pd_orders d) (pd_orders d') ->
  rows_evolve payment_evolves (pd_payments d) (pd_payments d') -> pd_outbox d' = pd_outbox d ->
  outbox_backed d -> outbox_backed d'.
Proof.
  unfold outbox_backed. intros Ho Hp ->. intros Hf. apply (Forall_impl _ _ _ Hf). clear Hf. intros r. unfold backed.
  destruct (px_Payload r) as [m|m]; intros H Hm; destruct (H Hm) as [Hk Hop]; (split; [done|]);
    refine (order_payment_mono _ _ _ _ _ _ _ Ho Hp Hop); [done|].
  intros o o' E. by assert (po_Amount o = po_Amount o' /\ po_Currency o = po_Currency o') as [<- <-] by (unfold order_terms in E; by simplify_eq).
Qed.

Lemma rows_evolve_insert {A} (R : A -> A -> Prop) `{!PreOrder R} m k a :
  (forall b, m !! k = Some b -> R b a) -> rows_evolve R m (<[k := a]> m).
Proof.
  intros H k' b Hb. destruct (decide (k' = k)) as [->|Hk].
  - exists a. rewrite lookup_insert_eq. auto.
  - exists b. by rewrite lookup_insert_ne.
Qed.

Lemma rows_evolve_update {A} (R : A -> A -> Prop) `{!PreOrder R} p f m :
  (forall a, p a = true -> R a (f a)) -> rows_evolve R m (update_where p f m).
Proof.
  intros H k a Ha. exists (if p a then f a else a). rewrite lookup_update_where, Ha. split; [done|].
  destruct (p a) eqn:E; auto. reflexivity.
Qed.

Lemma rows_evolve_alter {A} (R : A -> A -> Prop) `{!PreOrder R} f k m :
  (forall a, R a (f a)) -> rows_evolve R m (alter f k m).
Proof.
  intros H k' a Ha. destruct (decide (k' = k)) as [->|Hk].
  - exists (f a). by rewrite lookup_alter_eq, Ha.
  - exists a. rewrite lookup_alter_ne by done. done.
Qed.

Lemma with_status_evolves st o : order_status_le (po_Status o) st = true -> order_evolves o (order_with_status st o).
Proof. by split. Qed.

(** Each statement evolves the tables. *)
Lemma orders_only_evolves m d : rows_evolve order_evolves (pd_orders d) m -> evolves d (set_pd_orders m d).
Proof. intros H. split; try done. by apply outbox_backed_mono. Qed.
Lemma payments_only_evolves m d : rows_evolve payment_evolves (pd_payments d) m -> evolves d (set_pd_payments m d).
Proof. intros H. split; try done. by apply outbox_backed_mono. Qed.
Lemma refunds_only_evolves m d : rows_evolve refund_evolves (pd_refunds d) m ->
  (unique_requests (pd_refunds d) -> unique_requests m) -> evolves d (set_pd_refunds m d).
Proof. intros H Hu. split; try done. intros (U & Hk & Hr). by split_and!; [..|apply Hu]. Qed.
Lemma subs_only_evolves m d : evolves d (set_pd_subs m d).
Proof. by split. Qed.
Lemma audit_evolves a b t d : evolves d (writeAuditOnTx a b t d).
Proof. by split. Qed.

Lemma enqueue_evolves w m k d : backed d (mkPayOutbox k m) -> evolves d (enqueueSync w m k d).
Proof.
  intros Hm. unfold enqueueSync, enqueueOutbox. destruct w; [|done]. destruct (_ && _) eqn:E; [done|].
  split; try done; [simpl; by eexists| |intros Hb; by apply Forall_app; split; [|constructor]].
  intros (Hev & Hk & Hu). split_and!; [done| |done]. simpl. rewrite omap_app. apply NoDup_app.
  split_and!; [done| |destruct k; repeat constructor; set_solver]. destruct k as [x|]; [|by intros y _ ?%elem_of_nil].
  rewrite bool_decide_true in E by eauto. simpl in E.
  intros y Hy ->%list_elem_of_singleton. apply list_elem_of_omap in Hy as (r & Hr & Hx).
  assert (existsb (fun r => bool_decide (px_DedupKey r = Some x)) (pd_outbox d) = true) as Ht; [|by rewrite Ht in E].
  apply existsb_exists. exists r. rewrite bool_decide_eq_true. split; [by apply list_elem_of_In|done].
Qed.

(** Only payments and renewals grant. *)
Lemma enqueue_benefit_evolves w m k d : bool_decide (sm_Reason m ∈ ["payment_paid"; "renewal_paid"]) = false ->
  evolves d (enqueueSync w (BenefitMessage m) k d).
Proof. intros H%bool_decide_eq_false. by apply enqueue_evolves. Qed.
Lemma enqueue_wallet_evolves w m k d : wm_Kind m <> "topup" -> evolves d (enqueueSync w (WalletMessage m) k d).
Proof. intros H. by apply enqueue_evolves. Qed.

Lemma updateOrderStatus_evolves id from to d :
  Forall (fun a => order_status_le a to = true) from -> evolves d (updateOrderStatus id from to d).2.
Proof.
  intros Hf. unfold updateOrderStatus. destruct (pd_orders d !! id) as [o|] eqn:E; [|done].
  destruct (bool_decide _) eqn:Hd; [|done]. bool_prop. apply orders_only_evolves, rows_evolve_insert; [apply _|].
  intros b [= <-]%(eq_trans (eq_sym E)). apply with_status_evolves. rewrite Forall_forall in Hf. auto.
Qed.

Lemma updatePayment_evolves id from to d :
  Forall (fun a => payment_status_le a to = true) from -> evolves d (updatePayment id from to d).2.
Proof.
  intros Hf. unfold updatePayment. destruct (pd_payments d !! id) as [p|] eqn:E; [|done].
  destruct (bool_decide _) eqn:Hd; [|done]. bool_prop. apply payments_only_evolves, rows_evolve_insert; [apply _|].
  intros b [= <-]%(eq_trans (eq_sym E)). rewrite Forall_forall in Hf. split_and!; auto.
Qed.

Lemma updateRefund_evolves q to d : evolves d (updateRefund q to d).2.
Proof.
  apply refunds_only_evolves.
  - apply rows_evolve_update; [apply _|]. intros r H. bool_prop. split; [done|]. simpl. by rewrite H0.
  - intros U.
    assert (forall p k x, update_where p (refund_with_status to) (pd_refunds d) !! k = Some x ->
      exists r, pd_refunds d !! k = Some r /\ rf_UserID r = rf_UserID x /\ rf_IdempotencyKey r = rf_IdempotencyKey x) as Hl.
    { intros p k x. rewrite lookup_update_where. intros (r & Hr & ->)%fmap_Some. exists r. by destruct (p r). }
    intros a x b y (x' & Hx & Hc & He)%Hl (y' & Hy & Kc & Ke)%Hl H1 H2. eapply (U a x' b y'); congruence.
Qed.

Lemma insertOrder_evolves o d d' : insertOrder o d = Ok d' -> evolves d d'.
Proof.
  unfold insertOrder. intros H. inv_ok. bool_prop. apply orders_only_evolves, rows_evolve_insert; [apply _|].
  intros b Hb. congruence.
Qed.
Lemma insertPayment_evolves p d d' : insertPayment p d = Ok d' -> evolves d d'.
Proof.
  unfold insertPayment. intros H. inv_ok. apply andb_true_iff in E as [E _]. bool_prop.
  apply payments_only_evolves, rows_evolve_insert; [apply _|]. intros b Hb. congruence.
Qed.
Lemma insertPaymentOnTx_evolves p d b d' : insertPaymentOnTx p d = Ok (b, d') -> evolves d d'.
Proof.
  unfold insertPaymentOnTx. intros H. inv_ok; [done|]. eauto using insertPayment_evolves.
Qed.
Lemma insertRefund_evolves r d d' : insertRefund r d = Ok d' -> evolves d d'.
Proof.
  unfold insertRefund. intros H. inv_ok. apply andb_true_iff in E as [E Hk]. bool_prop. apply refunds_only_evolves.
  - apply rows_evolve_insert; [apply _|]. intros b Hb. congruence.
  - assert (forall k x, pd_refunds d !! k = Some x -> rf_UserID x = rf_UserID r -> rf_IdempotencyKey x = rf_IdempotencyKey r -> False) as Hnew.
    { intros k x Hx Hu Hi. pose proof (exists_row_false _ _ _ _ Hk Hx) as Hf. unfold same_key in Hf.
      by rewrite !bool_decide_true in Hf. }
    intros U a x b y [[<- <-]|[_ Hx]]%lookup_insert_Some [[<- <-]|[_ Hy]]%lookup_insert_Some Hc He; eauto; exfalso; eauto.
Qed.
Lemma upsertRefund_evolves x r d id d' : upsertRefund x r d = Ok (id, d') -> evolves d d'.
Proof.
  unfold upsertRefund. intros H. inv_ok; [done|]. eauto using insertRefund_evolves.
Qed.
Lemma writeSub_evolves s d d' : writeSub s d = Ok d' -> evolves d d'.
Proof. unfold writeSub. intros H. inv_ok. apply subs_only_evolves. Qed.
Lemma activateSubscription_evolves id u p prod ex ch now d b d' :
  activateSubscriptionOnTx id u p prod ex ch now d = Ok (b, d') -> evolves d d'.
Proof.
  unfold activateSubscriptionOnTx. destruct (pick_sub _ d); intros H; inv_ok; eauto using writeSub_evolves.
Qed.
Lemma stampExternalID_evolves x u p prod d d' : stampExternalID x u p prod d = Ok d' -> evolves d d'.
Proof.
  unfold stampExternalID. destruct (String.eqb x ""); [by intros [= <-]|].
  destruct (pick_sub _ d); intros H; inv_ok; [apply subs_only_evolves|done].
Qed.
(** The order read earlier, with a payment of it. *)
Definition payment_of (o : Order) (paymentID : string) (d : PayDB) : Prop :=
  order_payment (po_ID o) (po_UserID o) paymentID (fun x => order_terms o = order_terms x) d.

Lemma payment_of_mono o x d d' : evolves d d' -> payment_of o x d -> payment_of o x d'.
Proof. intros H. apply order_payment_mono; [congruence|apply H..]. Qed.

Lemma enqueueWalletTopup_evolves w o p d d' : payment_of o p d -> enqueueWalletTopup w o p d = Ok d' -> evolves d d'.
Proof.
  unfold enqueueWalletTopup, inference_error. intros (k & x & j & y & H1 & H2 & H3 & H4 & H5 & H6 & Ht) H. inv_ok.
  apply enqueue_evolves. intros _. split; [done|]. exists k, x, j, y. 
  assert (po_Amount o = po_Amount x /\ po_Currency o = po_Currency x) as [Ha Hc] by (unfold order_terms in Ht; by simplify_eq).
  split_and!; try done. simpl. rewrite <- Ha, <- Hc. destruct (walletTopupMicros _ _); by inv_ok.
Qed.
Lemma enqueueWalletRefund_evolves w o p r a d d' : enqueueWalletRefund w o p r a d = Ok d' -> evolves d d'.
Proof. unfold enqueueWalletRefund. intros H. inv_ok. by apply enqueue_wallet_evolves. Qed.
Lemma enqueueWalletFailedDebit_evolves w o p a d d' : enqueueWalletFailedDebit w o p a d = Ok d' -> evolves d d'.
Proof. unfold enqueueWalletFailedDebit. intros H. inv_ok. by apply enqueue_wallet_evolves. Qed.
Lemma cancelSubs_evolves u p now d : evolves d (cancelSubs u p now d).
Proof. apply subs_only_evolves. Qed.
Lemma put_sub_evolves s d : evolves d (put_sub s d).
Proof. apply subs_only_evolves. Qed.

Create HintDb pay_ev.
#[export] Hint Resolve audit_evolves subs_only_evolves updateRefund_evolves insertOrder_evolves
  insertPayment_evolves insertPaymentOnTx_evolves insertRefund_evolves upsertRefund_evolves writeSub_evolves
  activateSubscription_evolves stampExternalID_evolves enqueueWalletRefund_evolves
  enqueueWalletFailedDebit_evolves cancelSubs_evolves put_sub_evolves : pay_ev.
#[export] Hint Extern 2 (evolves ?d ?d) => reflexivity : pay_ev.
#[export] Hint Extern 1 (evolves _ (enqueueSync _ _ _ _)) => apply enqueue_benefit_evolves; reflexivity : pay_ev.

(** [ev] walks a chain of statements backwards. *)
Ltac ev_step :=
  first [ reflexivity | eassumption | solve [eauto 3 with pay_ev]
        | match goal with |- evolves ?d (if ?b then _ else _) => destruct b end
        | match goal with H : ?f ?x = Ok ?y |- evolves _ ?y => fail 1 end
        | (etransitivity; [|solve [eauto 3 with pay_ev]]) ].
Ltac ev := repeat ev_step.

Lemma mark_order_paid_evolves o d : evolves d (mark_order_paid o d).2.
Proof.
  unfold mark_order_paid.
  pose proof (updateOrderStatus_evolves (po_ID o) [OrderPending; OrderExpired; OrderCancelled] OrderPaid d) as H.
  destruct (updateOrderStatus _ _ _ _) as [u d1]. simpl in *. specialize (H ltac:(by repeat constructor)).
  destruct (_ && _); simpl; [|done]. etransitivity; [exact H|]. eauto with pay_ev.
Qed.

Lemma enqueue_paid_evolves w o prod pid d : payment_of o pid d ->
  evolves d (enqueueSync w (paid_message o prod pid) (Some (PaidSyncDedupKey pid)) d).
Proof.
  intros (k & x & j & y & H). apply enqueue_evolves. intros _. split; [done|]. exists k, x, j, y. simpl. intuition.
Qed.

Lemma activate_paid_evolves c ids now ch o prod pid hint pres retry d b d' : payment_of o pid d ->
  activate_paid c ids now ch o prod pid hint pres retry d = Ok (b, d') -> evolves d d'.
Proof.
  intros Hp. unfold activate_paid.
  destruct (String.eqb prod ProductWalletTopup); [intros H; inv_ok; eauto using enqueueWalletTopup_evolves|].
  cbv zeta. set (d0 := if retry then _ else d).
  assert (evolves d d0) as H0 by (subst d0; destruct retry; eauto with pay_ev).
  destruct (resolveOrderActivation _ _ _ _ _ _) as [expiry|err].
  - destruct retry; intros H; inv_ok; [done|]. destruct x as [act d1].
    apply activateSubscription_evolves in E. assert (evolves d d1) as H1 by (by transitivity d0).
    inv_ok. etransitivity; [exact H1|].
    destruct (orderTouchesBenefits o prod); [|done]. eauto using enqueue_paid_evolves, payment_of_mono.
  - destruct err; try (destruct retry); intros H; inv_ok; etransitivity; eauto with pay_ev.
Qed.

Lemma settle_order_evolves c ids now e o pid retry d d' : payment_of o pid d ->
  settle_order c ids now e o pid retry d = Ok d' -> evolves d d'.
Proof.
  intros Hp. unfold settle_order. destruct (if retry then _ else _) as [pres dr]. intros H. inv_ok.
  destruct x as [act d1]. inv_ok. etransitivity; [eapply activate_paid_evolves; eassumption|].
  etransitivity; [eapply stampExternalID_evolves; eassumption|]. apply mark_order_paid_evolves.
Qed.
#[export] Hint Resolve settle_order_evolves mark_order_paid_evolves activate_paid_evolves : pay_ev.

Lemma auditAndCommit_evolves a t d d' : auditAndCommit a t d = Ok d' -> evolves d d'.
Proof. unfold auditAndCommit. intros H. inv_ok. eauto with pay_ev. Qed.
#[export] Hint Resolve auditAndCommit_evolves : pay_ev.

Lemma lookupOrder_row ch ref d o : lookupOrderByWebhookID ch ref d = Some o -> exists k, pd_orders d !! k = Some o.
Proof.
  unfold lookupOrderByWebhookID. destruct (pd_orders d !! ref) as [x|] eqn:E; [intros [= ->]; eauto|].
  destruct (existsb _ _); [|done]. by intros (_ & H)%find_row_Some.
Qed.

(** A payment that was inserted, or one that was there, for an order that is there. *)
Lemma inserted_payment_of o p d d' : (exists k x, pd_orders d !! k = Some x /\ order_terms o = order_terms x) ->
  py_OrderID p = po_ID o -> insertPaymentOnTx p d = Ok (true, d') -> payment_of o (py_ID p) d'.
Proof.
  intros (k & x & Hx & Ht) Hp H. unfold insertPaymentOnTx, insertPayment in H. inv_ok; [done|].
  assert (po_ID x = po_ID o /\ po_UserID x = po_UserID o) as [Hi Hu] by (unfold order_terms in Ht; by simplify_eq).
  exists k, x, (py_ID p), p. split_and!; try done. simpl. by rewrite lookup_insert_eq.
Qed.
Lemma known_payment_of o ch t old d : (exists k x, pd_orders d !! k = Some x /\ order_terms o = order_terms x) ->
  FindByChannelTxnID ch t d = Some old -> py_OrderID old = po_ID o -> payment_of o (py_ID old) d.
Proof.
  intros (k & x & Hx & Ht) (_ & j & Hj)%find_row_Some Hp.
  assert (po_ID x = po_ID o /\ po_UserID x = po_UserID o) as [Hi Hu] by (unfold order_terms in Ht; by simplify_eq).
  by exists k, x, j, old.
Qed.

Lemma onPaymentSucceeded_evolves c ids now e d d' : onPaymentSucceeded c ids now e d = Ok d' -> evolves d d'.
Proof.
  unfold onPaymentSucceeded. destruct (lookupOrderByWebhookID _ _ _) as [o|] eqn:Eo; [|eauto with pay_ev].
  apply lookupOrder_row in Eo as [k Hk].
  destruct (settlement_refused _ _ _); [eauto with pay_ev|]. destruct (negb _ && _); [eauto with pay_ev|]. intros H.
  apply rbind_Ok in H as (p & Hev & H). apply rbind_Ok in H as ([[|] d1] & Hins & H).
  - etransitivity; [eapply insertPaymentOnTx_evolves; exact Hins|]. eapply settle_order_evolves; [|exact H].
    eapply inserted_payment_of; [eauto| |exact Hins]. unfold event_payment in Hev. by inv_ok.
  - assert (d1 = d) as -> by (unfold insertPaymentOnTx in Hins; by inv_ok). inv_ok; eauto with pay_ev. bool_prop.
    eapply settle_order_evolves; [|exact H]. eapply known_payment_of; eauto.
Qed.

Lemma findOrInsert_evolves ids e d f d' : findOrInsertPendingOnTx ids e d = Ok (f, d') -> evolves d d'.
Proof. unfold findOrInsertPendingOnTx. intros H. inv_ok; eauto with pay_ev. Qed.

Lemma revoke_failed_evolves c now o pid d d' : revoke_failed c now o pid d = Ok d' -> evolves d d'.
Proof.
  unfold revoke_failed. set (d1 := cancelSubs _ _ _ _). set (d2 := writeAuditOnTx _ _ _ d1).
  set (d3 := if orderTouchesBenefits _ _ then _ else d2). intros H.
  assert (evolves d d3) as H3.
  { transitivity d2; [transitivity d1; subst d1 d2; eauto with pay_ev|]. subst d3. destruct (orderTouchesBenefits _ _); eauto with pay_ev. }
  cbv zeta in H. inv_ok; try done. etransitivity; eauto with pay_ev.
Qed.

Lemma onPaymentFailed_evolves c ids now e d d' : onPaymentFailed c ids now e d = Ok d' -> evolves d d'.
Proof.
  unfold onPaymentFailed. intros H. inv_ok. destruct x as [[p|] d1]; [|inv_ok; eauto using findOrInsert_evolves].
  etransitivity; [eauto using findOrInsert_evolves|]. clear E.
  pose proof (updatePayment_evolves (py_ID p) [PaymentPending; PaymentPaid] PaymentFailed d1 ltac:(by repeat constructor)) as Hp.
  destruct (updatePayment _ _ _ _) as [hit d2]. simpl in Hp. etransitivity; [exact Hp|].
  destruct (negb hit); [by inv_ok|]. destruct (pd_orders d2 !! py_OrderID p) as [o|]; [|done].
  destruct (bool_decide (py_Status p = PaymentPaid)); [|injection H as <-; apply updateOrderStatus_evolves; by repeat constructor].
  etransitivity; [|eapply revoke_failed_evolves; exact H]. apply updateOrderStatus_evolves. by repeat constructor.
Qed.

Lemma book_refund_evolves ids e p o d x d' : book_refund ids e p o d = Ok (x, d') -> evolves d d'.
Proof.
  unfold book_refund. intros H. cbv zeta in H. destruct (_ && SFleb _ _).
  - inv_ok; done.
  - inv_ok. destruct x1 as [id d1]. inv_ok. eauto with pay_ev.
Qed.

Lemma refund_in_full_evolves c now o prod pid rid d : evolves d (refund_in_full c now o prod pid rid d).
Proof.
  unfold refund_in_full.
  etransitivity; [apply (updatePayment_evolves pid [PaymentPaid] PaymentRefunded); by repeat constructor|].
  etransitivity; [apply (updateOrderStatus_evolves (po_ID o) [OrderPaid] OrderRefunded); by repeat constructor|].
  ev.
Qed.

Lemma refund_wallet_evolves c o p rid a d d' : refund_wallet c o p rid a d = Ok d' -> evolves d d'.
Proof. unfold refund_wallet. intros H. inv_ok; eauto with pay_ev. Qed.

Lemma refund_known_evolves c ids now e p d d' : refund_known c ids now e p d = Ok d' -> evolves d d'.
Proof.
  unfold refund_known. intros H. inv_ok. destruct x as [[rid amount] d1].
  apply book_refund_evolves in E0. etransitivity; [exact E0|]. cbv zeta in H.
  set (d2 := if String.eqb rid "" then d1 else _) in H.
  assert (evolves d1 d2) as H2 by (subst d2; destruct (String.eqb rid ""); eauto with pay_ev).
  etransitivity; [exact H2|]. set (d3 := if toCents _ <=? _ then _ else d2) in H.
  assert (evolves d2 d3) as H3 by (subst d3; destruct (toCents _ <=? _); [apply refund_in_full_evolves|done]).
  etransitivity; [exact H3|]. inv_ok; [eauto using refund_wallet_evolves|done].
Qed.

Lemma fail_refund_evolves e p d d' : fail_refund e p d = Ok d' -> evolves d d'.
Proof.
  unfold fail_refund. intros H. destruct (String.eqb _ ""); [eauto with pay_ev|].
  pose proof (updateRefund_evolves (fun r => same_refund (we_Channel e) (normalizeExternalRefundID (we_Channel e)
     (we_ExternalRefundID e)) r && bool_decide (rf_PaymentID r = py_ID p)) RefundFailed d) as Hr.
  destruct (updateRefund _ _ _) as [hit d1]. simpl in Hr. etransitivity; [exact Hr|].
  inv_ok; eauto with pay_ev.
Qed.

Lemma extend_sub_evolves s t e now d : evolves d (extend_sub s t e now d).
Proof. unfold extend_sub. destruct t; [destruct (bool_decide _)|]; eauto with pay_ev. Qed.

Lemma renewal_check_evolves c e s d : evolves d match renewal_check c e s d with inl d' => d' | inr d' => d' end.
Proof.
  unfold renewal_check. destruct (pd_plans d !! sb_PlanID s); [|eauto with pay_ev].
  repeat match goal with |- context [if ?b then _ else _] => destruct b end; eauto with pay_ev.
Qed.

Lemma insertPaymentOnTx_fresh p d b d' : FindByChannelTxnID (py_Channel p) (py_ExternalTxnID p) d = None ->
  insertPaymentOnTx p d = Ok (b, d') -> b = true.
Proof.
  unfold insertPaymentOnTx, FindByChannelTxnID. rewrite exists_row_find. intros -> H. by inv_ok.
Qed.

Lemma renewal_check_same_money c e s d : same_money d match renewal_check c e s d with inl d' => d' | inr d' => d' end.
Proof.
  unfold renewal_check. destruct (pd_plans d !! sb_PlanID s); [|done].
  repeat match goal with |- context [if ?b then _ else _] => destruct b end; done.
Qed.

Lemma extend_sub_same_money s t e now d : same_money d (extend_sub s t e now d).
Proof. unfold extend_sub. destruct t; [destruct (bool_decide _)|]; done. Qed.

Lemma renew_tx_evolves c ids now e nb d d' : renew_tx c ids now e nb d = Ok d' -> evolves d d'.
Proof.
  unfold renew_tx. intros H. destruct (findSubByExternal _ _) as [s|]; [|eauto with pay_ev].
  destruct (FindByChannelTxnID _ _ _) eqn:Ef; [eauto with pay_ev|].
  pose proof (renewal_check_evolves c e s d) as Hc. pose proof (renewal_check_same_money c e s d) as (_ & Hps & _).
  destruct (renewal_check c e s d) as [d1|d1]; [|by inv_ok].
  etransitivity; [exact Hc|]. apply rbind_Ok in H as (o & Ho & H). apply rbind_Ok in H as (d2 & Hi & H).
  apply rbind_Ok in H as ([ins d3] & Hp & H). cbv zeta in H. injection H as <-.
  etransitivity; [eapply insertOrder_evolves; eassumption|].
  assert (ins = true) as ->.
  { eapply insertPaymentOnTx_fresh; [|exact Hp]. unfold insertOrder in Hi. inv_ok. unfold FindByChannelTxnID. simpl. by rewrite Hps. }
  etransitivity; [eapply insertPaymentOnTx_evolves; eassumption|].
  etransitivity; [apply extend_sub_evolves|]. etransitivity; [apply audit_evolves|].
  destruct (_ && _); [|done]. apply enqueue_evolves. intros _. split; [done|].
  apply inserted_payment_of with (o := o) in Hp as (k & x & j & y & Hk & Hj & H1 & H2 & H3 & H4 & _);
    [|exists (po_ID o), o; unfold insertOrder in Hi; inv_ok; simpl; by rewrite lookup_insert_eq|done].
  assert (sb_UserID s = po_UserID o) as Hu by (unfold renewal_order in Ho; by inv_ok).
  exists k, x, j, y. simpl. rewrite Hu.
  destruct (extend_sub_same_money s nb e now d3) as (-> & -> & _). by split_and!.
Qed.

Lemma cancel_paddle_evolves c now e d d' : cancel_paddle_tx c now e d = Ok d' -> evolves d d'.
Proof.
  unfold cancel_paddle_tx. intros H. destruct (findSubByExternal _ _) as [s|]; [|eauto with pay_ev].
  inv_ok; [destruct (sb_AutoRenew s); eauto with pay_ev|]. ev.
Qed.

Lemma sync_plan_evolves c now e b s d d' : sync_plan c now e b s d = Ok d' -> evolves d d'.
Proof.
  unfold sync_plan. intros H. cbv zeta in H.
  destruct (_ || _ || _); [by inv_ok|].
  destruct (match we_OccurredAt e with Some _ => _ | None => _ end); inv_ok; [destruct (we_SubExpiresAt e)|]; eauto with pay_ev.
Qed.

Lemma update_paddle_evolves c now e d d' : update_paddle_tx c now e d = Ok d' -> evolves d d'.
Proof.
  unfold update_paddle_tx. intros H. destruct (findSubByExternal _ _) as [s|]; [|eauto with pay_ev]. cbv zeta in H.
  inv_ok. etransitivity; [|apply audit_evolves]. etransitivity; [|eapply sync_plan_evolves; eassumption].
  destruct (_ && _); eauto with pay_ev.
Qed.

Lemma in_pay_tx_evolves d (f : PayDB -> payres PayDB) :
  (forall d', f d = Ok d' -> evolves d d') -> evolves d (in_pay_tx d f).1.
Proof. intros H. unfold in_pay_tx. destruct (f d); simpl; auto. reflexivity. Qed.

Lemma dispute_evolves id d : evolves d (set_pd_payments (alter payment_disputed id (pd_payments d)) d).
Proof.
  apply payments_only_evolves, rows_evolve_alter; [apply _|]. intros p. split_and!; [done| |done].
  by destruct p as [? ? ? ? ? ? []].
Qed.

Lemma handle_event_evolves c nb ids now e d : evolves d (handle_event c nb ids now e d).1.
Proof.
  unfold handle_event. destruct (resolveBranch e); try reflexivity.
  - apply in_pay_tx_evolves, onPaymentSucceeded_evolves.
  - apply in_pay_tx_evolves, onPaymentFailed_evolves.
  - unfold onRefundSucceeded. destruct (FindByChannelTxnID _ _ _); [apply in_pay_tx_evolves, refund_known_evolves|].
    destruct (closes_unpaid _ _); [apply in_pay_tx_evolves, auditAndCommit_evolves|apply audit_evolves].
  - unfold onRefundFailed. destruct (FindByChannelTxnID _ _ _); [apply in_pay_tx_evolves, fail_refund_evolves|apply audit_evolves].
  - unfold onDisputeCreated. destruct (FindByChannelTxnID _ _ _); [|apply audit_evolves].
    apply in_pay_tx_evolves. intros d' [= <-]. apply dispute_evolves.
  - unfold onRenewalSucceeded. destruct (String.eqb _ ""); [apply audit_evolves|].
    destruct (_ && _); [|apply in_pay_tx_evolves, renew_tx_evolves]. destruct (negb _); [done|].
    destruct (nb _); [apply in_pay_tx_evolves, renew_tx_evolves|done].
  - unfold onPaddleSubscriptionCancelled. destruct (String.eqb _ ""); [apply audit_evolves|].
    apply in_pay_tx_evolves, cancel_paddle_evolves.
  - unfold onPaddleSubscriptionUpdated. destruct (String.eqb _ ""); [apply audit_evolves|].
    apply in_pay_tx_evolves, update_paddle_evolves.
  - apply audit_evolves.
Qed.

(** The transaction a caller confirms is not one the channel reported for another order. *)
Definition own_transaction (channel txn orderID : string) (d : PayDB) : Prop :=
  forall p, FindByChannelTxnID channel txn d = Some p -> py_OrderID p = orderID.

Lemma confirm_tx_evolves c ids now i o o' d r d' : pd_orders d !! po_ID o = Some o' -> order_evolves o o' ->
  own_transaction (ci_Channel i) (ci_ExternalTxnID i) (po_ID o) d ->
  confirm_tx c ids now i o d = Ok (r, d') -> evolves d d'.
Proof.
  intros Ho [Ht _] Hown. unfold confirm_tx. intros H. cbv zeta in H.
  destruct (match findPaidByOrder _ _ with Some _ => _ | None => _ end); [done|].
  apply rbind_Ok in H as ([ins d1] & H1 & H). etransitivity; [eapply insertPaymentOnTx_evolves; exact H1|].
  apply rbind_Ok in H as (pid & Hpid & H). destruct (if ins then _ else retry_state _ _ _ _) as [pres dr].
  apply rbind_Ok in H as ([act d2] & H2 & H).
  assert (payment_of o pid d1) as Hp.
  { destruct ins.
    - injection Hpid as <-. by eapply inserted_payment_of in H1; eauto.
    - assert (d1 = d) as -> by (unfold insertPaymentOnTx in H1; by inv_ok).
      destruct (FindByChannelTxnID _ _ _) as [old|] eqn:Ef; [|done]. destruct (bool_decide _) in Hpid; [done|].
      injection Hpid as <-. eapply known_payment_of; eauto. }
  etransitivity; [eapply activate_paid_evolves; [exact Hp|exact H2]|].
  pose proof (mark_order_paid_evolves o d2) as Hm. destruct (mark_order_paid o d2) as [late d3]. by injection H as <- <-.
Qed.

Lemma refund_tx_evolves acc ids i p u d r d' : refund_tx acc ids i p u d = Ok (r, d') -> evolves d d'.
Proof. unfold refund_tx. intros H. inv_ok. eauto using insertRefund_evolves. Qed.

Lemma eligibility_evolves c ids now u p ch k f d o d' :
  eligibilityAndInsertOrderTx c ids now u p ch k f d = Ok (o, d') -> evolves d d'.
Proof. unfold eligibilityAndInsertOrderTx. intros H. inv_ok; eauto using insertOrder_evolves. Qed.

(** The row of an event is found whatever else was recorded. *)
Lemma InsertEvent_known id ch ev d k w : unique_keys d -> pd_events d !! k = Some w -> wh_Channel w = ch -> wh_EventID w = ev ->
  InsertEvent id ch ev d = Ok (k, wh_Processed w, d).
Proof.
  intros [U _] Hk <- <-. unfold InsertEvent. destruct (List.find _ _) as [[k' w']|] eqn:E.
  - apply List.find_some in E as [Hin Hp]. apply list_elem_of_In, elem_of_map_to_list in Hin. bool_prop.
    simpl in *. assert (k' = k) as -> by eauto. congruence.
  - eapply List.find_none in E; [|apply list_elem_of_In, elem_of_map_to_list; exact Hk].
    simpl in E. by rewrite !bool_decide_true in E.
Qed.

Lemma InsertEvent_new id ch ev d row p d' : InsertEvent id ch ev d = Ok (row, p, d') ->
  exists w, pd_events d' !! row = Some w /\ wh_Channel w = ch /\ wh_EventID w = ev /\ wh_Processed w = p.
Proof.
  unfold InsertEvent. destruct (List.find _ _) as [[k w]|] eqn:E; intros H; inv_ok.
  - apply List.find_some in E as [Hin Hp]. apply list_elem_of_In, elem_of_map_to_list in Hin. bool_prop. eauto.
  - eexists. split; [simpl; by rewrite lookup_insert_eq|done].
Qed.

Lemma InsertEvent_evolves id ch ev d x d' : InsertEvent id ch ev d = Ok (x, d') -> evolves d d'.
Proof.
  unfold InsertEvent. destruct (List.find _ _) as [[k w]|] eqn:E; intros H; inv_ok; [done|]. bool_prop.
  split; try done; simpl.
  - apply rows_evolve_insert; [apply _|]. intros b Hb. congruence.
  - intros (U & Hk). split; [|done]. simpl.
    assert (forall k w, pd_events d !! k = Some w -> wh_Channel w = ch -> wh_EventID w = ev -> False) as Hnew.
    { intros k w Hw Hc He. eapply List.find_none in E; [|apply list_elem_of_In, elem_of_map_to_list; exact Hw].
      simpl in E. by rewrite !bool_decide_true in E. }
    intros a x b y [[<- <-]|[_ Hx]]%lookup_insert_Some [[<- <-]|[_ Hy]]%lookup_insert_Some Hc He; eauto; exfalso; simpl in *; eauto.
Qed.

Lemma MarkProcessed_evolves id d : evolves d (MarkProcessed id d).
Proof.
  split; try done; simpl.
  - apply rows_evolve_alter; [apply _|]. by intros w.
  - intros (U & Hk). split; [|done]. simpl.
    assert (forall k x, alter (fun w => mkWebhookRow (wh_Channel w) (wh_EventID w) true) id (pd_events d) !! k = Some x ->
      exists w, pd_events d !! k = Some w /\ wh_Channel w = wh_Channel x /\ wh_EventID w = wh_EventID x) as Hl.
    { intros k x. destruct (decide (k = id)) as [->|Hn]; [rewrite lookup_alter_eq|rewrite lookup_alter_ne by done; eauto].
      intros (w & Hw & ->)%fmap_Some. by exists w. }
    intros a x b y (x' & Hx & Hc & He)%Hl (y' & Hy & Kc & Ke)%Hl H1 H2. eapply (U a x' b y'); congruence.
Qed.

Lemma CancelPending_evolves id u d : evolves d (CancelPending id u d).2.
Proof.
  unfold CancelPending. destruct (pd_orders d !! id) as [o|]; [|done]. destruct (bool_decide _); [|done].
  apply updateOrderStatus_evolves. by repeat constructor.
Qed.

Lemma sweep_evolves now d : evolves d (SweepExpired now d).
Proof.
  apply orders_only_evolves, rows_evolve_update; [apply _|]. intros o H. bool_prop. apply with_status_evolves. by rewrite H.
Qed.

Lemma intent_evolves id m d : evolves d (UpdateProviderIntent id m d).
Proof.
  apply orders_only_evolves, rows_evolve_update; [apply _|]. intros o _. split; [done|]. simpl. by destruct (po_Status o).
Qed.

Lemma stamp_evolves id now d : evolves d (stampReconciled id now d).
Proof.
  apply orders_only_evolves, rows_evolve_update; [apply _|]. intros o _. split; [done|]. simpl. by destruct (po_Status o).
Qed.
