(* ===== verification/PayInv.v ===== *)
(** * PayInv: orders, their payments, and the transactions that move both

    The transactions of the payment service as a step relation [pay_step] on the
    tables, among other writers of subscriptions and plans; the invariant
    [money_inv] between orders and payments, which every one of them keeps; and
    that the service's calls are made of these transactions. *)

From Stdlib Require Import ZArith Lia Bool Ascii String.
From Stdlib Require Import Floats.SpecFloat.
From stdpp Require Import base gmap strings list relations.
From S2P Require Import Prelude Domain Calendar EntitlementStore BenefitRules Amounts PayTables Activation Payments Orders PayFrames.

Local Open Scope string_scope.
Local Open Scope Z_scope.
Local Open Scope go_scope.

(** ** Orders and their payments *)

Definition open_status (s : OrderStatus) : bool :=
  match s with OrderPending | OrderExpired | OrderCancelled => true | _ => false end.

(** The one payment row of an order: it exists, it is paid, and no other is for that order. *)
Definition sole_payment (ps : gmap string Payment) (orderID j : string) (p : Payment) : Prop :=
  ps !! j = Some p /\ py_OrderID p = orderID /\ py_Status p = PaymentPaid
  /\ forall j' p', ps !! j' = Some p' -> py_OrderID p' = orderID -> j' = j.

Record money_inv (os : gmap string Order) (ps : gmap string Payment) : Prop := mkMoneyInv {
  mi_okey : forall k o, os !! k = Some o -> po_ID o = k;
  mi_pkey : forall k p, ps !! k = Some p -> py_ID p = k;
  mi_order : forall k p, ps !! k = Some p -> is_Some (os !! py_OrderID p);
  mi_open : forall k p o, ps !! k = Some p -> os !! py_OrderID p = Some o -> open_status (po_Status o) = false;
  mi_settled : forall k o, os !! k = Some o -> po_Status o = OrderPaid -> exists j p, sole_payment ps k j p;
  mi_one : forall j p j' p', ps !! j = Some p -> ps !! j' = Some p' -> py_OrderID p = py_OrderID p' ->
    py_Status p = PaymentPaid -> py_Status p' = PaymentPaid -> j = j';
  mi_txn : forall j p j' p', ps !! j = Some p -> ps !! j' = Some p' -> py_Channel p = py_Channel p' ->
    py_ExternalTxnID p = py_ExternalTxnID p' -> j = j';
}.

Definition money_ok (d : PayDB) : Prop := money_inv (pd_orders d) (pd_payments d).

Lemma money_ok_frame d d' : same_money d d' -> money_ok d -> money_ok d'.
Proof. unfold money_ok. by intros (-> & -> & _). Qed.

(** Replacing an order row. *)
Lemma money_set_order os ps k o o' :
  money_inv os ps -> os !! k = Some o -> po_ID o' = k ->
  (open_status (po_Status o') = true -> open_status (po_Status o) = true) ->
  (po_Status o' = OrderPaid -> exists j p, sole_payment ps k j p) ->
  money_inv (<[k := o']> os) ps.
Proof.
  intros [I1 I2 I3 I4 I5 I6 I7] Ho Hid Hopen Hpaid. split; try done.
  - intros k' x [[<- <-]|[_ Hx]]%lookup_insert_Some; eauto.
  - intros j p Hp. rewrite lookup_insert_is_Some'. right. eauto.
  - intros j p x Hp [[-> <-]|[_ Hx]]%lookup_insert_Some; [|eauto].
    destruct (open_status (po_Status o')) eqn:E; [|done]. rewrite <- (I4 _ _ _ Hp Ho). symmetry. auto.
  - intros k' x [[<- <-]|[_ Hx]]%lookup_insert_Some; eauto.
Qed.

(** Updating orders without opening, closing or settling any. *)
Lemma money_update_orders os ps q f :
  money_inv os ps -> (forall o, q o = true -> po_ID (f o) = po_ID o) ->
  (forall o, q o = true -> open_status (po_Status (f o)) = open_status (po_Status o)) ->
  (forall o, q o = true -> po_Status (f o) = OrderPaid -> po_Status o = OrderPaid) ->
  money_inv (update_where q f os) ps.
Proof.
  intros [I1 I2 I3 I4 I5 I6 I7] Hid Hopen Hpaid.
  assert (forall k x, update_where q f os !! k = Some x -> exists o, os !! k = Some o /\ po_ID x = po_ID o
     /\ open_status (po_Status x) = open_status (po_Status o) /\ (po_Status x = OrderPaid -> po_Status o = OrderPaid)) as Hl.
  { intros k x. rewrite lookup_update_where. intros (o & Ho & ->)%fmap_Some. exists o. destruct (q o) eqn:E; auto. }
  split; try done.
  - intros k x Hx. destruct (Hl _ _ Hx) as (o & Ho & -> & _). eauto.
  - intros j p Hp. destruct (I3 _ _ Hp) as [o Ho]. rewrite lookup_update_where, Ho. by eexists.
  - intros j p x Hp Hx. destruct (Hl _ _ Hx) as (o & Ho & _ & -> & _). eauto.
  - intros k x Hx Hs. destruct (Hl _ _ Hx) as (o & Ho & _ & _ & Hp). eauto.
Qed.

(** A new order without payments, not paid. *)
Lemma money_new_order os ps o :
  money_inv os ps -> os !! po_ID o = None -> po_Status o <> OrderPaid -> money_inv (<[po_ID o := o]> os) ps.
Proof.
  intros [I1 I2 I3 I4 I5 I6 I7] Ho Hs. split; try done.
  - intros k' x [[<- <-]|[_ Hx]]%lookup_insert_Some; eauto.
  - intros j p Hp. rewrite lookup_insert_is_Some'. right. eauto.
  - intros j p x Hp [[Hk <-]|[_ Hx]]%lookup_insert_Some; [|eauto].
    destruct (I3 _ _ Hp) as [y Hy]. rewrite <- Hk in Hy. congruence.
  - intros k' x [[<- <-]|[_ Hx]]%lookup_insert_Some Hp; [done|eauto].
Qed.

(** Paying an order that was open, or was settled before: the payment row and
    the order's status change together. *)
Lemma money_pay os ps o p :
  money_inv os ps -> os !! py_OrderID p = Some o -> ps !! py_ID p = None ->
  (forall j x, ps !! j = Some x -> py_OrderID x = py_OrderID p -> py_Status x = PaymentPaid -> py_Status p <> PaymentPaid) ->
  (forall j x, ps !! j = Some x -> py_Channel x = py_Channel p -> py_ExternalTxnID x = py_ExternalTxnID p -> False) ->
  po_Status o <> OrderPaid ->
  let st := if open_status (po_Status o)
            then match py_Status p with PaymentPaid => OrderPaid | _ => OrderFailed end else po_Status o in
  money_inv (<[po_ID o := order_with_status st o]> os) (<[py_ID p := p]> ps).
Proof.
  intros [I1 I2 I3 I4 I5 I6 I7] Ho Hp Hone Htxn Hs st. pose proof (I1 _ _ Ho) as Hid.
  assert (open_status st = false) as Hst.
  { subst st. destruct (open_status (po_Status o)) eqn:E; [by destruct (py_Status p)|done]. }
  split.
  - intros k x [[<- <-]|[_ Hx]]%lookup_insert_Some; eauto.
  - intros k x [[<- <-]|[_ Hx]]%lookup_insert_Some; eauto.
  - intros k x [[<- <-]|[_ Hx]]%lookup_insert_Some; rewrite lookup_insert_is_Some'; eauto.
  - intros k x y [[<- <-]|[_ Hx]]%lookup_insert_Some [[Hk <-]|[Hk Hy]]%lookup_insert_Some; simpl; eauto.
    rewrite Hid in Hk. done.
  - intros k x [[<- <-]|[Hk Hx]]%lookup_insert_Some Hpaid.
    + simpl in Hpaid. subst st. destruct (open_status (po_Status o)) eqn:E; [|done].
      exists (py_ID p), p. split_and!; [by rewrite lookup_insert_eq|by rewrite Hid|by destruct (py_Status p)|].
      intros j' p' [[<- <-]|[_ Hx]]%lookup_insert_Some Hp'; [done|].
      exfalso. rewrite Hid in Hp'. rewrite <- Hp' in Ho. by rewrite (I4 _ _ _ Hx Ho) in E.
    + destruct (I5 _ _ Hx Hpaid) as (j & q & Hq & Hqo & Hqs & Hall). exists j, q.
      assert (py_ID p <> j) by (intros <-; congruence).
      split_and!; [by rewrite lookup_insert_ne|done|done|].
      intros j' p' [[<- <-]|[_ Hx']]%lookup_insert_Some Hp'; [|eauto]. subst k. by rewrite Hid in Hk.
  - intros j x j' x' [[<- <-]|[_ Hx]]%lookup_insert_Some [[<- <-]|[_ Hx']]%lookup_insert_Some He H1 H2; eauto;
      exfalso; [eapply (Hone j' x')|eapply (Hone j x)]; eauto.
  - intros j x j' x' [[<- <-]|[_ Hx]]%lookup_insert_Some [[<- <-]|[_ Hx']]%lookup_insert_Some H1 H2; eauto; exfalso; eauto.
Qed.

(** Settling a payment otherwise: it is no longer paid, and neither is its order. *)
Lemma money_unpay os ps o p j st st' :
  money_inv os ps -> ps !! j = Some p -> os !! py_OrderID p = Some o -> st <> PaymentPaid ->
  st' = (if bool_decide (po_Status o = OrderPaid) then OrderFailed else po_Status o) \/
  st' = (if bool_decide (po_Status o = OrderPaid) then OrderRefunded else po_Status o) ->
  money_inv (<[po_ID o := order_with_status st' o]> os) (<[j := payment_with_status st p]> ps).
Proof.
  intros [I1 I2 I3 I4 I5 I6 I7] Hp Ho Hst Hst'. pose proof (I1 _ _ Ho) as Hid. pose proof (I4 _ _ _ Hp Ho) as Hop.
  assert (open_status st' = false /\ st' <> OrderPaid) as [Hc Hn].
  { destruct Hst' as [-> | ->]; case_bool_decide; done. }
  assert (forall k x, <[j := payment_with_status st p]> ps !! k = Some x ->
    exists y, ps !! k = Some y /\ payment_terms x = payment_terms y /\ (py_Status x = PaymentPaid -> py_Status y = PaymentPaid)) as Hl.
  { intros k x [[<- <-]|[_ Hx]]%lookup_insert_Some; [by exists p|by exists x]. }
  unfold payment_terms in Hl. split.
  - intros k x [[<- <-]|[_ Hx]]%lookup_insert_Some; eauto.
  - intros k x Hx. destruct (Hl _ _ Hx) as (y & Hy & [= -> _ _ _ _ _] & _). eauto.
  - intros k x Hx. destruct (Hl _ _ Hx) as (y & Hy & [= _ -> _ _ _ _] & _). rewrite lookup_insert_is_Some'. eauto.
  - intros k x z Hx. destruct (Hl _ _ Hx) as (y & Hy & [= _ -> _ _ _ _] & _).
    intros [[Hk <-]|[Hk Hz]]%lookup_insert_Some; eauto.
  - intros k x [[<- <-]|[Hk Hx]]%lookup_insert_Some Hpaid; [done|].
    destruct (I5 _ _ Hx Hpaid) as (i & q & Hq & Hqo & Hqs & Hall). exists i, q.
    assert (j <> i) by (intros ->; assert (p = q) as -> by congruence; by rewrite Hid in Hk).
    split_and!; [by rewrite lookup_insert_ne|done|done|].
    intros j' p' Hp' Ho'. destruct (Hl _ _ Hp') as (y & Hy & [= _ Heq _ _ _ _] & _). apply (Hall _ _ Hy). congruence.
  - intros a x b y Hx Hy He H1 H2. destruct (Hl _ _ Hx) as (x' & Hx' & [= _ Hxe _ _ _ _] & Hx1).
    destruct (Hl _ _ Hy) as (y' & Hy' & [= _ Hye _ _ _ _] & Hy1). eapply (I6 a x' b y'); eauto; congruence.
  - intros a x b y Hx Hy He H2. destruct (Hl _ _ Hx) as (x' & Hx' & [= _ _ Hxc Hxt _ _] & _).
    destruct (Hl _ _ Hy) as (y' & Hy' & [= _ _ Hyc Hyt _ _] & _). eapply (I7 a x' b y'); eauto; congruence.
Qed.

(** *** Every transaction keeps it *)

Definition same_accounts (d d' : PayDB) : Prop := pd_orders d' = pd_orders d /\ pd_payments d' = pd_payments d.

Lemma same_money_accounts d d' : same_money d d' -> same_accounts d d'.
Proof. unfold same_money, same_accounts. tauto. Qed.
Lemma money_ok_accounts d d' : same_accounts d d' -> money_ok d -> money_ok d'.
Proof. unfold money_ok. by intros [-> ->]. Qed.

(** Moving an order to [st] if it is open, or if it is settled. *)
Definition close_order (st : OrderStatus) (k : string) (os : gmap string Order) : gmap string Order :=
  match os !! k with Some o => if open_status (po_Status o) then <[k := order_with_status st o]> os else os | None => os end.
Definition unsettle_order (st : OrderStatus) (k : string) (os : gmap string Order) : gmap string Order :=
  match os !! k with
  | Some o => if bool_decide (po_Status o = OrderPaid) then <[k := order_with_status st o]> os else os
  | None => os end.

Lemma order_with_status_id o : order_with_status (po_Status o) o = o.
Proof. by destruct o. Qed.

Lemma open_status_spec s : open_status s = bool_decide (s ∈ [OrderPending; OrderExpired; OrderCancelled]).
Proof. by destruct s. Qed.

Lemma updateOrderStatus_open id st d :
  pd_orders (updateOrderStatus id [OrderPending; OrderExpired; OrderCancelled] st d).2 = close_order st id (pd_orders d)
  /\ pd_payments (updateOrderStatus id [OrderPending; OrderExpired; OrderCancelled] st d).2 = pd_payments d.
Proof.
  unfold updateOrderStatus, close_order. destruct (pd_orders d !! id) as [o|]; [|done].
  rewrite open_status_spec. by destruct (bool_decide _).
Qed.

Lemma mark_order_paid_accounts o d :
  pd_orders (mark_order_paid o d).2 = close_order OrderPaid (po_ID o) (pd_orders d)
  /\ pd_payments (mark_order_paid o d).2 = pd_payments d.
Proof.
  unfold mark_order_paid. pose proof (updateOrderStatus_open (po_ID o) OrderPaid d) as H.
  destruct (updateOrderStatus _ _ _ _) as [u d1]. simpl in *. by destruct (_ && _).
Qed.

Lemma settle_order_accounts c ids now e o pid retry d d' : settle_order c ids now e o pid retry d = Ok d' ->
  pd_orders d' = close_order OrderPaid (po_ID o) (pd_orders d) /\ pd_payments d' = pd_payments d.
Proof.
  unfold settle_order. destruct (if retry then _ else _) as [pres dr]. intros H. inv_ok.
  destruct x as [act d1]. inv_ok. apply activate_paid_same_money in E. apply stampExternalID_same_money in E0.
  destruct (mark_order_paid_accounts o x) as [-> ->].
  destruct (transitivity E E0) as (-> & -> & _). done.
Qed.

Lemma lookupOrder_found ch ref d o : money_ok d -> lookupOrderByWebhookID ch ref d = Some o -> pd_orders d !! po_ID o = Some o.
Proof.
  intros [I _ _ _ _ _ _]. unfold lookupOrderByWebhookID. destruct (pd_orders d !! ref) as [x|] eqn:E.
  - intros [= ->]. by rewrite (I _ _ E).
  - destruct (existsb _ _); [|done]. intros (_ & k & Hk)%find_row_Some. by rewrite (I _ _ Hk).
Qed.

Lemma FindByChannelTxnID_found ch t d p : money_ok d -> FindByChannelTxnID ch t d = Some p ->
  pd_payments d !! py_ID p = Some p /\ py_Channel p = ch /\ py_ExternalTxnID p = t.
Proof.
  intros [_ I _ _ _ _ _] H. unfold FindByChannelTxnID, same_txn in H. apply find_row_Some in H as (Hp & k & Hk).
  bool_prop. rewrite (I _ _ Hk). auto.
Qed.

Lemma same_txn_spec ch t p : same_txn ch t p = true <-> py_Channel p = ch /\ py_ExternalTxnID p = t.
Proof. unfold same_txn. by rewrite andb_true_iff, !bool_decide_eq_true. Qed.
Lemma paid_for_spec k p : paid_for k p = true <-> py_OrderID p = k /\ py_Status p = PaymentPaid.
Proof. unfold paid_for. by rewrite andb_true_iff, !bool_decide_eq_true. Qed.

(** An inserted payment is new in every respect. *)
Lemma insertPaymentOnTx_new p d d' : insertPaymentOnTx p d = Ok (true, d') ->
  d' = set_pd_payments (<[py_ID p := p]> (pd_payments d)) d /\ pd_payments d !! py_ID p = None
  /\ (forall j x, pd_payments d !! j = Some x -> py_Channel x = py_Channel p -> py_ExternalTxnID x = py_ExternalTxnID p -> False)
  /\ (forall j x, pd_payments d !! j = Some x -> py_OrderID x = py_OrderID p -> py_Status x = PaymentPaid -> py_Status p <> PaymentPaid).
Proof.
  unfold insertPaymentOnTx, insertPayment. intros H.
  destruct (payment_row_ok p) eqn:E; [|done]. destruct (exists_row (same_txn _ _) _) eqn:E0; [by inv_ok|].
  rewrite andb_true_r in H. destruct (bool_decide _) eqn:E1; [|done]. destruct (negb _) eqn:E2; [|done].
  injection H as <-. apply bool_decide_eq_true in E1. apply negb_true_iff, andb_false_iff in E2. split_and!; [done|done| |].
  - intros j x Hx H1 H2. pose proof (exists_row_false _ _ _ _ E0 Hx) as Hf.
    by rewrite (proj2 (same_txn_spec _ _ _) (conj H1 H2)) in Hf.
  - intros j x Hx H1 H2 H3. destruct E2 as [E2|E2]; [by apply bool_decide_eq_false in E2|].
    pose proof (exists_row_false _ _ _ _ E2 Hx) as Hf. by rewrite (proj2 (paid_for_spec _ _) (conj H1 H2)) in Hf.
Qed.

Lemma insertPaymentOnTx_old p d d' : insertPaymentOnTx p d = Ok (false, d') -> d' = d.
Proof. unfold insertPaymentOnTx. intros H. by inv_ok. Qed.

(** A paid order already has its payment. *)
Lemma paid_order_taken os ps o p : money_inv os ps -> os !! py_OrderID p = Some o ->
  (forall j x, ps !! j = Some x -> py_OrderID x = py_OrderID p -> py_Status x = PaymentPaid -> py_Status p <> PaymentPaid) ->
  py_Status p = PaymentPaid -> po_Status o <> OrderPaid.
Proof.
  intros I Ho Hone Hp Hs. destruct (mi_settled _ _ I _ _ Ho Hs) as (j & q & Hq & Hqo & Hqs & _). by eapply Hone.
Qed.

Lemma close_order_new st os k o : os !! k = Some o -> po_ID o = k ->
  close_order st k os = <[k := order_with_status (if open_status (po_Status o) then st else po_Status o) o]> os.
Proof.
  intros Ho Hk. unfold close_order. rewrite Ho. destruct (open_status (po_Status o)); [done|].
  by rewrite order_with_status_id, insert_id.
Qed.

Lemma settle_new_ok d d1 d' o p : money_ok d -> pd_orders d !! py_OrderID p = Some o ->
  insertPaymentOnTx p d = Ok (true, d1) -> py_Status p = PaymentPaid ->
  pd_orders d' = close_order OrderPaid (po_ID o) (pd_orders d1) -> pd_payments d' = pd_payments d1 -> money_ok d'.
Proof.
  intros I Ho Hins Hp Hos Hps. apply insertPaymentOnTx_new in Hins as (-> & Hid & Htxn & Hone).
  unfold money_ok. rewrite Hos, Hps. simpl. pose proof (mi_okey _ _ I _ _ Ho) as Hk.
  pose proof (paid_order_taken _ _ _ _ I Ho Hone Hp) as Hn.
  rewrite (close_order_new _ _ _ o) by congruence. rewrite Hk. pose proof (money_pay _ _ o p I Ho Hid Hone Htxn Hn) as H.
  cbv zeta in H. rewrite Hp, Hk in H. exact H.
Qed.

Lemma settle_again_ok d d' k p : money_ok d -> pd_payments d !! py_ID p = Some p -> py_OrderID p = k ->
  pd_orders d' = close_order OrderPaid k (pd_orders d) -> pd_payments d' = pd_payments d -> money_ok d'.
Proof.
  intros I Hp Hk Hos Hps. unfold money_ok. rewrite Hos, Hps. unfold close_order.
  destruct (pd_orders d !! k) as [o|] eqn:E; [|done]. rewrite <- Hk in E. by rewrite (mi_open _ _ I _ _ _ Hp E).
Qed.

Lemma onPaymentSucceeded_ok c ids now e d d' : money_ok d -> onPaymentSucceeded c ids now e d = Ok d' -> money_ok d'.
Proof.
  intros I. unfold onPaymentSucceeded. destruct (lookupOrderByWebhookID _ _ _) as [o|] eqn:Eo; [|intros [= <-]; done].
  destruct (settlement_refused _ _ _); [intros [= <-]; done|]. destruct (negb _ && _); [intros [= <-]; done|].
  pose proof (lookupOrder_found _ _ _ _ I Eo) as Ho. intros H.
  apply rbind_Ok in H as (p & Hp & H). unfold event_payment in Hp. apply rbind_Ok in Hp as (amount & _ & [= <-]).
  apply rbind_Ok in H as ([[|] d1] & Hins & H).
  - apply settle_order_accounts in H as [H1 H2]. refine (settle_new_ok d d1 d' o _ I _ Hins eq_refl H1 H2). exact Ho.
  - apply insertPaymentOnTx_old in Hins as ->. destruct (FindByChannelTxnID _ _ _) as [old|] eqn:Ef; [|done].
    destruct (FindByChannelTxnID_found _ _ _ _ I Ef) as (Hold & _ & _).
    destruct (negb _) eqn:Eq; [by injection H as <-|]. destruct (negb (bool_decide (py_Status _ = _))); [by injection H as <-|].
    bool_prop. apply settle_order_accounts in H as [H1 H2]. by eapply (settle_again_ok d d' _ old).
Qed.

Lemma revoke_failed_accounts c now o pid d d' : revoke_failed c now o pid d = Ok d' -> same_accounts d d'.
Proof.
  unfold revoke_failed. cbv zeta. set (d2 := writeAuditOnTx _ _ _ _). set (d3 := if orderTouchesBenefits _ _ then _ else d2).
  assert (same_money d d3) as H3 by (subst d3; destruct (orderTouchesBenefits _ _); [etransitivity; [|apply enqueue_same_money]|]; done).
  intros H. apply same_money_accounts. etransitivity; [exact H3|].
  destruct (String.eqb _ _); [|by injection H as <-]. destruct (0 <? _); [eauto with pay|by injection H as <-].
Qed.

(** A settled payment that fails takes its order with it; a pending one belongs to no paid order. *)
Lemma fail_known_ok d p o : money_ok d -> pd_payments d !! py_ID p = Some p -> pd_orders d !! py_OrderID p = Some o ->
  py_Status p = PaymentPending \/ py_Status p = PaymentPaid ->
  forall d', pd_payments d' = <[py_ID p := payment_with_status PaymentFailed p]> (pd_payments d) ->
  pd_orders d' = (updateOrderStatus (po_ID o) (if bool_decide (py_Status p = PaymentPaid)
     then [OrderPending; OrderPaid; OrderExpired; OrderCancelled] else [OrderPending; OrderExpired; OrderCancelled])
     OrderFailed d).2.(pd_orders) -> money_ok d'.
Proof.
  intros I Hp Ho Hs d' Hps Hos. unfold money_ok. rewrite Hps, Hos. clear Hps Hos.
  pose proof (mi_open _ _ I _ _ _ Hp Ho) as Hop. pose proof (mi_okey _ _ I _ _ Ho) as Hk.
  assert (pd_orders (updateOrderStatus (po_ID o) (if bool_decide (py_Status p = PaymentPaid)
     then [OrderPending; OrderPaid; OrderExpired; OrderCancelled] else [OrderPending; OrderExpired; OrderCancelled])
     OrderFailed d).2 = <[po_ID o := order_with_status (if bool_decide (po_Status o = OrderPaid) then OrderFailed else po_Status o) o]> (pd_orders d)) as ->.
  { unfold updateOrderStatus. rewrite Hk, Ho.
    destruct (decide (po_Status o = OrderPaid)) as [Hpaid|Hpaid].
    - destruct (mi_settled _ _ I _ _ Ho Hpaid) as (j & q & Hq & Hqo & Hqs & Hall).
      assert (q = p) as -> by (pose proof (Hall _ _ Hp eq_refl); congruence).
      by rewrite Hqs, Hpaid.
    - rewrite (bool_decide_false (po_Status o = OrderPaid)) by done. rewrite order_with_status_id, (insert_id _ _ _ Ho).
      by destruct (bool_decide (py_Status p = PaymentPaid)); destruct (po_Status o). }
  eapply money_unpay; eauto.
Qed.

Lemma updatePayment_hit d p from to : money_ok d -> pd_payments d !! py_ID p = Some p ->
  updatePayment (py_ID p) from to d =
    if bool_decide (py_Status p ∈ from)
    then (true, set_pd_payments (<[py_ID p := payment_with_status to p]> (pd_payments d)) d) else (false, d).
Proof. intros I Hp. unfold updatePayment. by rewrite Hp. Qed.

Lemma updateOrderStatus_payments id from to m d :
  (updateOrderStatus id from to (set_pd_payments m d)).2 = set_pd_payments m (updateOrderStatus id from to d).2.
Proof. unfold updateOrderStatus. simpl. destruct (pd_orders d !! id) as [o|]; [|done]. by destruct (bool_decide (po_Status o ∈ from)). Qed.

Lemma updateOrderStatus_keeps_payments id from to d : pd_payments (updateOrderStatus id from to d).2 = pd_payments d.
Proof. unfold updateOrderStatus. destruct (pd_orders d !! id) as [o|]; [|done]. by destruct (bool_decide (po_Status o ∈ from)). Qed.

Lemma fail_new_ok d p o d' : money_ok d -> pd_orders d !! py_OrderID p = Some o -> pd_payments d !! py_ID p = None ->
  py_Status p = PaymentPending -> po_Status o <> OrderPaid ->
  (forall j x, pd_payments d !! j = Some x -> py_Channel x = py_Channel p -> py_ExternalTxnID x = py_ExternalTxnID p -> False) ->
  (let '(hit, d1) := updatePayment (py_ID p) [PaymentPending; PaymentPaid] PaymentFailed
                       (set_pd_payments (<[py_ID p := p]> (pd_payments d)) d) in
   if negb hit then Ok d1 else
   match pd_orders d1 !! py_OrderID p with
   | None => Err EStatement
   | Some o => Ok (updateOrderStatus (po_ID o) [OrderPending; OrderExpired; OrderCancelled] OrderFailed d1).2
   end) = Ok d' -> money_ok d'.
Proof.
  intros I Ho Hid Hs Hn Htxn. unfold updatePayment. simpl. rewrite lookup_insert_eq, Hs. simpl.
  rewrite insert_insert_eq, Ho. intros [= <-]. set (q := payment_with_status PaymentFailed p).
  pose proof (mi_okey _ _ I _ _ Ho) as Hk.
  pose proof (money_pay _ _ o q I Ho Hid ltac:(done) Htxn Hn) as Hpay. cbv zeta in Hpay.
  edestruct (updateOrderStatus_open (po_ID o) OrderFailed) as [Hos Hpp]. unfold money_ok. rewrite Hos, Hpp. simpl. by rewrite (close_order_new _ _ _ o) by congruence.
Qed.

Lemma onPaymentFailed_ok c ids now e d d' : money_ok d -> onPaymentFailed c ids now e d = Ok d' -> money_ok d'.
Proof.
  intros I. unfold onPaymentFailed, findOrInsertPendingOnTx. destruct (FindByChannelTxnID _ _ _) as [p|] eqn:Ef.
  - destruct (FindByChannelTxnID_found _ _ _ _ I Ef) as (Hp & _ & _). cbn [rbind]. rewrite (updatePayment_hit _ _ _ _ I Hp).
    destruct (bool_decide (py_Status p ∈ _)) eqn:Es; [|by intros [= <-]]. cbn [negb].
    destruct (pd_orders _ !! py_OrderID p) as [o|] eqn:Eo; [|done]. simpl in Eo.
    pose proof (fail_known_ok d p o I Hp Eo) as Hok.
    assert (py_Status p = PaymentPending \/ py_Status p = PaymentPaid) as Hs by (destruct (py_Status p); auto; discriminate).
    specialize (Hok Hs). rewrite !updateOrderStatus_payments. destruct (bool_decide (py_Status p = PaymentPaid)).
    + intros H. apply revoke_failed_accounts in H as [Hos Hps]. by apply Hok; rewrite ?Hos, ?Hps.
    + intros [= <-]. by apply Hok.
  - destruct (pd_orders d !! we_OrderID e) as [o|] eqn:Eo; [|by intros [= <-]].
    destruct (bool_decide (po_Status o = OrderPaid)) eqn:Es; [by intros [= <-]|]. apply bool_decide_eq_false in Es.
    intros H. apply rbind_Ok in H as ([[p|] d1] & H1 & H); [|by inv_ok; destruct x; discriminate].
    apply rbind_Ok in H1 as (amount & _ & H1). apply rbind_Ok in H1 as (d2 & H2 & [= Hpe ->]).
    pose proof (mi_okey _ _ I _ _ Eo) as Hk.
    rewrite Hpe in H2. unfold insertPayment in H2. destruct (_ && _) eqn:Ei in H2; [|done].
    injection H2 as <-. bool_prop. eapply (fail_new_ok d p o); [done|by subst p; simpl; congruence|by subst p|by subst p|done| |].
    + intros j x Hx Hc Ht. pose proof (find_row_None _ _ _ _ Ef Hx) as Hn.
      subst p. simpl in *. by rewrite (proj2 (same_txn_spec _ _ _) (conj Hc Ht)) in Hn.
    + subst p. exact H.
Qed.

Lemma book_refund_accounts ids e p o d x d' : book_refund ids e p o d = Ok (x, d') -> same_accounts d d'.
Proof.
  unfold book_refund, upsertRefund, insertRefund. intros H. cbv zeta in H. destruct (_ && SFleb _ _); by inv_ok.
Qed.

(** The payment refunded with its order: of a paid order, the one payment was paid. *)
Lemma refund_in_full_ok c now o prod p rid d : money_ok d -> pd_payments d !! py_ID p = Some p ->
  pd_orders d !! py_OrderID p = Some o -> money_ok (refund_in_full c now o prod (py_ID p) rid d).
Proof.
  intros I Hp Ho. unfold refund_in_full. set (d1 := (updatePayment _ _ _ d).2). set (d2 := (updateOrderStatus _ _ _ d1).2).
  assert (money_ok d2) as I2.
  { pose proof (mi_okey _ _ I _ _ Ho) as Hk. subst d2 d1. rewrite (updatePayment_hit _ _ _ _ I Hp).
    unfold updateOrderStatus. destruct (decide (py_Status p = PaymentPaid)) as [Hs|Hs].
    - rewrite Hs. simpl. rewrite Hk, Ho.
      assert (forall st', st' = (if bool_decide (po_Status o = OrderPaid) then OrderRefunded else po_Status o) ->
        money_inv (<[po_ID o := order_with_status st' o]> (pd_orders d))
                  (<[py_ID p := payment_with_status PaymentRefunded p]> (pd_payments d))) as Hu.
      { intros st' ->. eapply money_unpay; eauto. }
      specialize (Hu _ eq_refl). rewrite Hk in Hu.
      destruct (po_Status o) eqn:Es; simpl in *; try exact Hu; unfold money_ok; simpl;
        rewrite <- Es, order_with_status_id, (insert_id _ _ _ Ho) in Hu; exact Hu.
    - assert (po_Status o <> OrderPaid) as Hn.
      { intros Hpaid. destruct (mi_settled _ _ I _ _ Ho Hpaid) as (j & q & Hq & _ & Hqs & Hall).
        pose proof (Hall _ _ Hp eq_refl). congruence. }
      destruct (py_Status p); try done; simpl; rewrite Hk, Ho; destruct (po_Status o); done. }
  eapply money_ok_frame; [|exact I2]. destruct (String.eqb _ _); [done|].
  destruct (orderTouchesBenefits _ _); [|done]. etransitivity; [|apply enqueue_same_money]. done.
Qed.

Lemma refund_known_ok c ids now e p d d' : money_ok d -> pd_payments d !! py_ID p = Some p ->
  refund_known c ids now e p d = Ok d' -> money_ok d'.
Proof.
  intros I Hp. unfold refund_known. destruct (pd_orders d !! py_OrderID p) as [o|] eqn:Ho; [|done]. intros H.
  apply rbind_Ok in H as ([[rid amount] d1] & Hb & H). apply book_refund_accounts in Hb as [Hos Hps]. cbv zeta in H.
  set (d2 := if String.eqb rid "" then d1 else _) in H. set (d3 := if toCents _ <=? _ then _ else d2) in H.
  assert (pd_orders d2 = pd_orders d /\ pd_payments d2 = pd_payments d) as [Ho2 Hp2] by (subst d2; by destruct (String.eqb rid "")).
  assert (money_ok d2) as I2 by (unfold money_ok; by rewrite Ho2, Hp2).
  assert (money_ok d3) as I3.
  { subst d3. destruct (toCents _ <=? _); [|done]. apply refund_in_full_ok; [done|by rewrite Hp2|by rewrite Ho2]. }
  destruct (String.eqb (resolveOrderProduct o d2) _); [|by injection H as <-]. eapply money_ok_frame; [|exact I3].
  unfold refund_wallet, auditAndCommit in H. inv_ok; eauto with pay; done.
Qed.

Lemma fail_refund_accounts e p d d' : fail_refund e p d = Ok d' -> same_accounts d d'.
Proof.
  unfold fail_refund, auditAndCommit. intros H. destruct (String.eqb _ ""); [by inv_ok|].
  destruct (updateRefund _ _ _) as [hit d1] eqn:E. unfold updateRefund in E. injection E as _ <-. by inv_ok.
Qed.

Lemma dispute_ok id d : money_ok d -> money_ok (set_pd_payments (alter payment_disputed id (pd_payments d)) d).
Proof.
  unfold money_ok. simpl. intros [I1 I2 I3 I4 I5 I6 I7].
  assert (forall k x, alter payment_disputed id (pd_payments d) !! k = Some x -> exists y, pd_payments d !! k = Some y
     /\ payment_terms x = payment_terms y /\ py_Status x = py_Status y) as Hl.
  { intros k x. destruct (decide (k = id)) as [->|Hk]; [rewrite lookup_alter_eq|rewrite lookup_alter_ne by done; eauto].
    intros (y & Hy & ->)%fmap_Some. by exists y. }
  unfold payment_terms in Hl. split; try done.
  - intros k x Hx. destruct (Hl _ _ Hx) as (y & Hy & [= -> _ _ _ _ _] & _). eauto.
  - intros k x Hx. destruct (Hl _ _ Hx) as (y & Hy & [= _ -> _ _ _ _] & _). eauto.
  - intros k x o Hx. destruct (Hl _ _ Hx) as (y & Hy & [= _ -> _ _ _ _] & _). eauto.
  - intros k o Ho Hpaid. destruct (I5 _ _ Ho Hpaid) as (j & p & Hp & Hpo & Hps & Hall).
    exists j, (if decide (j = id) then payment_disputed p else p). split_and!; [|by destruct (decide _)|by destruct (decide _)|].
    + destruct (decide (j = id)) as [->|Hj]; [by rewrite lookup_alter_eq, Hp|by rewrite lookup_alter_ne].
    + intros j' x Hx Hxo. destruct (Hl _ _ Hx) as (y & Hy & [= _ Heq _ _ _ _] & _). apply (Hall _ _ Hy). congruence.
  - intros a x b y Hx Hy He H1 H2. destruct (Hl _ _ Hx) as (x' & Hx' & [= _ Hxe _ _ _ _] & Hx1).
    destruct (Hl _ _ Hy) as (y' & Hy' & [= _ Hye _ _ _ _] & Hy1). eapply (I6 a x' b y'); eauto; congruence.
  - intros a x b y Hx Hy He H2. destruct (Hl _ _ Hx) as (x' & Hx' & [= _ _ Hxc Hxt _ _] & _).
    destruct (Hl _ _ Hy) as (y' & Hy' & [= _ _ Hyc Hyt _ _] & _). eapply (I7 a x' b y'); eauto; congruence.
Qed.

(** A renewal's order comes with its payment. *)
Lemma money_new_paid os ps o p : money_inv os ps -> os !! po_ID o = None -> po_Status o = OrderPaid ->
  py_OrderID p = po_ID o -> py_Status p = PaymentPaid -> ps !! py_ID p = None ->
  (forall j x, ps !! j = Some x -> py_Channel x = py_Channel p -> py_ExternalTxnID x = py_ExternalTxnID p -> False) ->
  money_inv (<[po_ID o := o]> os) (<[py_ID p := p]> ps).
Proof.
  intros I Ho Hs Hpo Hps Hp Htxn. set (o1 := order_with_status OrderPending o).
  pose proof (money_new_order os ps o1 I Ho ltac:(done)) as I1.
  assert (money_inv (<[po_ID o1 := order_with_status OrderPaid o1]> (<[po_ID o1 := o1]> os)) (<[py_ID p := p]> ps)) as H.
  { pose proof (money_pay _ _ o1 p I1) as H. cbv zeta in H. rewrite Hps in H. apply H; clear H; try done.
    - rewrite Hpo. by apply lookup_insert_eq.
    - intros j x Hx Hk _. destruct (mi_order _ _ I _ _ Hx) as [y Hy]. rewrite Hk, Hpo, Ho in Hy. done. }
  rewrite insert_insert_eq in H. subst o1. simpl in H. by destruct o; simpl in *; subst.
Qed.

Lemma renew_tx_ok c ids now e nb d d' : money_ok d -> renew_tx c ids now e nb d = Ok d' -> money_ok d'.
Proof.
  intros I. unfold renew_tx, auditAndCommit. destruct (findSubByExternal _ _) as [s|]; [|by intros [= <-]].
  destruct (FindByChannelTxnID _ _ _) eqn:Ef; [by intros [= <-]|].
  pose proof (renewal_check_same_money c e s d) as Hc. destruct (renewal_check c e s d) as [d1|d1]; [|intros [= <-]; by eapply money_ok_frame].
  destruct Hc as (Hos & Hps & _). intros H. apply rbind_Ok in H as (o & Ho & H). apply rbind_Ok in H as (d2 & Hi & H).
  assert (po_Status o = OrderPaid) as Hso by (unfold renewal_order in Ho; by inv_ok).
  unfold insertOrder in Hi. destruct (_ && _) eqn:Eo in Hi; [|done]. injection Hi as <-. bool_prop.
  apply rbind_Ok in H as ([ins d3] & Hp & H). cbv zeta in H. injection H as <-.
  set (p := mkPayment _ _ _ _ _ _ _ _) in Hp.
  assert (forall j x, pd_payments d !! j = Some x -> py_Channel x = py_Channel p -> py_ExternalTxnID x = py_ExternalTxnID p -> False) as Htxn.
  { intros j x Hx Hch Ht. pose proof (find_row_None _ _ _ _ Ef Hx) as Hn.
    pose proof (proj2 (same_txn_spec _ _ _) (conj Hch Ht)) as Hy. simpl in Hy. congruence. }
  assert (ins = true) as ->.
  { apply insertPaymentOnTx_fresh in Hp; [done|]. unfold FindByChannelTxnID. simpl. by rewrite Hps. }
  apply insertPaymentOnTx_new in Hp as (-> & Hid & _ & _). eapply money_ok_frame.
  { etransitivity; [apply extend_sub_same_money|]. destruct (_ && _); [etransitivity; [|apply enqueue_same_money]|]; done. }
  unfold money_ok. simpl in *. rewrite Hos, Hps in *. by apply money_new_paid.
Qed.

(** Confirming an order the caller read earlier, with a transaction of that order alone. *)
Lemma confirm_tx_ok c ids now i o o' d r d' : money_ok d -> pd_orders d !! po_ID o = Some o' ->
  (forall p, FindByChannelTxnID (ci_Channel i) (ci_ExternalTxnID i) d = Some p -> py_OrderID p = po_ID o) ->
  confirm_tx c ids now i o d = Ok (r, d') -> money_ok d'.
Proof.
  intros I Ho Htxn. unfold confirm_tx. cbv zeta.
  destruct (match findPaidByOrder _ _ with Some _ => _ | None => _ end); [done|]. intros H.
  apply rbind_Ok in H as ([ins d1] & Hi & H). apply rbind_Ok in H as (pid & Hpid & H).
  destruct (if ins then _ else retry_state _ _ _ _) as [pres dr]. apply rbind_Ok in H as ([act d2] & Ha & H).
  apply activate_paid_same_money in Ha as (Hos & Hps & _). destruct (mark_order_paid_accounts o d2) as [Hos' Hps'].
  destruct (mark_order_paid o d2) as [late d3]. injection H as <- <-. simpl in Hos', Hps'. rewrite Hos, Hps in *.
  pose proof (mi_okey _ _ I _ _ Ho) as Hk. destruct ins.
  - rewrite <- Hk in Hos'. eapply (settle_new_ok d d1 d3 o'); [done| |exact Hi|done|done|done]. simpl. by rewrite Ho.
  - apply insertPaymentOnTx_old in Hi as ->. destruct (FindByChannelTxnID _ _ _) as [old|] eqn:Ef; [|done].
    destruct (FindByChannelTxnID_found _ _ _ _ I Ef) as (Hold & _ & _).
    eapply (settle_again_ok d d3 (po_ID o) old); [done|done|by apply Htxn|done|done].
Qed.

Lemma eligibility_ok c ids now u p ch k f d o d' : money_ok d ->
  eligibilityAndInsertOrderTx c ids now u p ch k f d = Ok (o, d') -> money_ok d'.
Proof.
  intros I. unfold eligibilityAndInsertOrderTx, insertOrder. intros H. inv_ok.
  all: bool_prop; by apply money_new_order.
Qed.

(** A single statement that closes an open order without paying it does not
    happen to an order with payments. *)
Lemma updateOrderStatus_ok id from st d : money_ok d -> st <> OrderPaid ->
  (forall a, a ∈ from -> open_status a = true) -> money_ok (updateOrderStatus id from st d).2.
Proof.
  intros I Hs Hf. unfold updateOrderStatus. destruct (pd_orders d !! id) as [o|] eqn:Ho; [|done].
  destruct (bool_decide _) eqn:E; [|done]. apply bool_decide_eq_true in E. unfold money_ok. simpl.
  eapply money_set_order; [exact I|exact Ho|exact (mi_okey _ _ I _ _ Ho)|auto|done].
Qed.

Lemma sweep_ok now d : money_ok d -> money_ok (SweepExpired now d).
Proof.
  intros I. apply money_update_orders; [exact I|done| |done]. intros o H. bool_prop. simpl. by rewrite H.
Qed.

Lemma intent_ok id m d : money_ok d -> money_ok (UpdateProviderIntent id m d).
Proof. intros I. by apply money_update_orders. Qed.
Lemma stamp_ok id now d : money_ok d -> money_ok (stampReconciled id now d).
Proof. intros I. by apply money_update_orders. Qed.

Lemma in_pay_tx_ok d (f : PayDB -> payres PayDB) : money_ok d -> (forall d', f d = Ok d' -> money_ok d') -> money_ok (in_pay_tx d f).1.
Proof. intros I H. unfold in_pay_tx. destruct (f d); simpl; auto. Qed.

Lemma frame_tx_ok (f : PayDB -> payres PayDB) d :
  (forall d', f d = Ok d' -> same_accounts d d') -> money_ok d -> money_ok (in_pay_tx d f).1.
Proof. intros Hf I. apply in_pay_tx_ok; [done|]. intros d' H. by apply (money_ok_accounts d d' (Hf _ H)). Qed.

Lemma auditAndCommit_accounts a t d d' : auditAndCommit a t d = Ok d' -> same_accounts d d'.
Proof. by intros [= <-]. Qed.
Lemma cancel_paddle_accounts c now e d d' : cancel_paddle_tx c now e d = Ok d' -> same_accounts d d'.
Proof.
  unfold cancel_paddle_tx. destruct (findSubByExternal _ _) as [s|]; [|by intros [= <-]]. intros H. inv_ok.
  - by destruct (sb_AutoRenew s).
  - apply same_money_accounts. etransitivity; [|apply enqueue_same_money]. done.
Qed.
Lemma sync_plan_accounts c now e b s d d' : sync_plan c now e b s d = Ok d' -> same_accounts d d'.
Proof.
  unfold sync_plan. intros H. cbv zeta in H. destruct (_ || _ || _); [by inv_ok|].
  destruct (match we_OccurredAt e with Some _ => _ | None => _ end); inv_ok; [by destruct (we_SubExpiresAt e)|done].
Qed.
Lemma update_paddle_accounts c now e d d' : update_paddle_tx c now e d = Ok d' -> same_accounts d d'.
Proof.
  unfold update_paddle_tx. destruct (findSubByExternal _ _) as [s|]; [|by intros [= <-]]. cbv zeta. intros H.
  apply rbind_Ok in H as (x & H & [= <-]). apply sync_plan_accounts in H. by destruct (_ && _).
Qed.

Lemma handle_event_ok c nb ids now e d : money_ok d -> money_ok (handle_event c nb ids now e d).1.
Proof.
  intros I. unfold handle_event. destruct (resolveBranch e); try done.
  - apply in_pay_tx_ok; [done|]. intros d'. by apply onPaymentSucceeded_ok.
  - apply in_pay_tx_ok; [done|]. intros d'. by apply onPaymentFailed_ok.
  - unfold onRefundSucceeded. destruct (FindByChannelTxnID _ _ _) as [p|] eqn:Ef.
    + destruct (FindByChannelTxnID_found _ _ _ _ I Ef) as (Hp & _ & _). apply in_pay_tx_ok; [done|].
      intros d'. by apply refund_known_ok.
    + destruct (closes_unpaid _ _); [|done]. eapply frame_tx_ok; [apply auditAndCommit_accounts|done].
  - unfold onRefundFailed. destruct (FindByChannelTxnID _ _ _); [|done]. eapply frame_tx_ok; [apply fail_refund_accounts|done].
  - unfold onDisputeCreated. destruct (FindByChannelTxnID _ _ _); [|done].
    apply in_pay_tx_ok; [done|]. intros d' [= <-]. by apply dispute_ok.
  - unfold onRenewalSucceeded. destruct (String.eqb _ ""); [done|].
    assert (forall nxt, money_ok (in_pay_tx d (renew_tx c ids now e nxt)).1) as Hr
      by (intros nxt; apply in_pay_tx_ok; [done|]; intros d'; by apply renew_tx_ok).
    destruct (_ && _); [|done]. destruct (negb _); [done|]. by destruct (nb _).
  - unfold onPaddleSubscriptionCancelled. destruct (String.eqb _ ""); [done|].
    eapply frame_tx_ok; [apply cancel_paddle_accounts|done].
  - unfold onPaddleSubscriptionUpdated. destruct (String.eqb _ ""); [done|].
    eapply frame_tx_ok; [apply update_paddle_accounts|done].
Qed.

(** ** The service's transactions *)

(** Transactions commit in any order; between two of them subscriptions, plans
    and benefits may be written by others. *)
Inductive pay_step (c : PaySettings) : PayDB -> PayDB -> Prop :=
| step_event_in id ch ev x d d' : InsertEvent id ch ev d = Ok (x, d') -> pay_step c d d'
| step_handle nb ids now e d : pay_step c d (handle_event c nb ids now e d).1
| step_event_done id d : pay_step c d (MarkProcessed id d)
| step_confirm ids now i o o' r d d' : pd_orders d !! po_ID o = Some o' -> order_evolves o o' ->
    own_transaction (ci_Channel i) (ci_ExternalTxnID i) (po_ID o) d ->
    confirm_tx c ids now i o d = Ok (r, d') -> pay_step c d d'
| step_refund accepted ids i p owner r d d' : refund_tx accepted ids i p owner d = Ok (r, d') -> pay_step c d d'
| step_new_order ids now u p ch kind from o d d' :
    eligibilityAndInsertOrderTx c ids now u p ch kind from d = Ok (o, d') -> pay_step c d d'
| step_intent id m d : pay_step c d (UpdateProviderIntent id m d)
| step_fail id d : pay_step c d (FailPending id d).2
| step_cancel id u d : pay_step c d (CancelPending id u d).2
| step_sweep now d : pay_step c d (SweepExpired now d)
| step_stamp id now d : pay_step c d (stampReconciled id now d)
| step_others subs plans benefits d :
    pay_step c d (mkPayDB (pd_orders d) (pd_payments d) (pd_refunds d) subs plans benefits (pd_upgrades d) (pd_events d)
                    (pd_outbox d) (pd_audit d)).

Definition pay_steps (c : PaySettings) : PayDB -> PayDB -> Prop := rtc (pay_step c).

(** Tables before the first order: plans, benefits and subscriptions alone. *)
Definition no_history (d : PayDB) : Prop :=
  pd_orders d = ∅ /\ pd_payments d = ∅ /\ pd_refunds d = ∅ /\ pd_events d = ∅ /\ pd_outbox d = [].
Definition pay_reachable (c : PaySettings) (d : PayDB) : Prop := exists d0, no_history d0 /\ pay_steps c d0 d.

Lemma pay_step_evolves c d d' : pay_step c d d' -> evolves d d'.
Proof.
  intros []; eauto using InsertEvent_evolves, confirm_tx_evolves, refund_tx_evolves, eligibility_evolves.
  - apply handle_event_evolves.
  - apply MarkProcessed_evolves.
  - apply intent_evolves.
  - apply updateOrderStatus_evolves. by repeat constructor.
  - apply CancelPending_evolves.
  - apply sweep_evolves.
  - apply stamp_evolves.
  - by split.
Qed.

Lemma pay_step_ok c d d' : pay_step c d d' -> money_ok d -> money_ok d'.
Proof.
  intros Hs I. destruct Hs; eauto using confirm_tx_ok, eligibility_ok, intent_ok, stamp_ok, sweep_ok, handle_event_ok.
  - eapply money_ok_accounts; [|done]. unfold InsertEvent in H. destruct (List.find _ _) as [[k w]|]; inv_ok; done.
  - unfold refund_tx, insertRefund in H. by inv_ok.
  - apply updateOrderStatus_ok; [done|done|]. by intros a ->%list_elem_of_singleton.
  - unfold CancelPending. destruct (pd_orders d !! id); [|done]. destruct (bool_decide _); [|done].
    apply updateOrderStatus_ok; [done|done|]. by intros a ->%list_elem_of_singleton.
Qed.

Lemma no_history_ok d : no_history d -> money_ok d.
Proof. intros (Ho & Hp & _). unfold money_ok. rewrite Ho, Hp. by split. Qed.

Lemma pay_steps_evolves c d d' : pay_steps c d d' -> evolves d d'.
Proof. induction 1; [done|]. etransitivity; [by eapply pay_step_evolves|done]. Qed.

Lemma pay_reachable_ok c d : pay_reachable c d -> money_ok d.
Proof.
  intros (d0 & H0 & H). apply no_history_ok in H0. induction H; [done|]. eauto using pay_step_ok.
Qed.

Lemma pay_reachable_keys c d : pay_reachable c d -> unique_keys d.
Proof.
  intros (d0 & (_ & _ & Hr & He & Hx) & H). apply pay_steps_evolves in H. apply (ev_keys _ _ H).
  unfold unique_keys, unique_requests. rewrite Hr, He, Hx. split_and!; [done|constructor|done].
Qed.

Lemma pay_reachable_backed c d : pay_reachable c d -> outbox_backed d.
Proof.
  intros (d0 & (_ & _ & _ & _ & Hx) & H). apply pay_steps_evolves in H. apply (ev_backed _ _ H).
  unfold outbox_backed. by rewrite Hx.
Qed.

(** An order and a payment of it are the rows under their ids; the order is no
    longer open. *)
Lemma order_payment_rows x u y (P : Order -> Prop) d : money_ok d -> order_payment x u y P d ->
  exists o p, pd_orders d !! x = Some o /\ po_UserID o = u /\ open_status (po_Status o) = false
    /\ pd_payments d !! y = Some p /\ py_OrderID p = x /\ P o.
Proof.
  intros I (k & o & j & p & H1 & H2 & <- & <- & <- & H3 & H4). exists o, p.
  pose proof (mi_okey _ _ I _ _ H1) as <-. pose proof (mi_pkey _ _ I _ _ H2) as <-. split_and!; try done.
  eapply (mi_open _ _ I); [exact H2|]. by rewrite H3.
Qed.

Lemma pay_reachable_steps c d d' : pay_reachable c d -> pay_steps c d d' -> pay_reachable c d'.
Proof. intros (d0 & H0 & H) Hs. exists d0. split; [done|]. by etransitivity. Qed.

(** *** The service's calls are made of these transactions *)

Lemma step_one c d d' : pay_step c d d' -> pay_steps c d d'.
Proof. apply rtc_once. Qed.

Lemma OnWebhook_steps c nb ids now e d : pay_steps c d (OnWebhook c nb ids now e d).1.
Proof.
  unfold OnWebhook. destruct (negb _); [apply rtc_refl|].
  destruct (InsertEvent _ _ _ d) as [[[row processed] d1]|] eqn:Ei; [|apply rtc_refl].
  eapply rtc_l; [by eapply step_event_in|]. destruct processed; [apply rtc_refl|].
  pose proof (step_handle c nb ids now e d1) as Hh. destruct (handle_event c nb ids now e d1) as [d2 [err|]]; simpl in Hh.
  - by apply rtc_once.
  - eapply rtc_l; [exact Hh|]. apply rtc_once, step_event_done.
Qed.

Lemma GetOrder_steps c q ids now oid u d : pay_steps c d (GetOrder c q ids now oid u d).1.
Proof.
  unfold GetOrder. destruct (pd_orders d !! oid) as [o|]; [|apply rtc_refl]. destruct (negb _); [apply rtc_refl|].
  destruct (shouldReconcile _ _ _); [|apply rtc_refl].
  assert (pay_steps c d (reconcileFromChannel c q ids now o d).1) as Hr.
  { unfold reconcileFromChannel. destruct (out_trade_no o) as [n|]; [|apply rtc_refl].
    destruct (String.eqb n ""); [apply rtc_refl|]. destruct (q n) as [[r|]|]; [|apply step_one, step_stamp|apply rtc_refl].
    destruct (negb _); [apply step_one, step_stamp|]. destruct (reconcilePreCheck _); [apply step_one, step_stamp|].
    destruct (buildReconcileWebhookEvent r) as [e|]; [|apply rtc_refl].
    pose proof (OnWebhook_steps c (fun _ => None) ids now e d) as Hw. destruct (OnWebhook _ _ _ _ _ d) as [d1 [x|]]; [|done].
    eapply rtc_r; [exact Hw|]. apply step_stamp. }
  destruct (reconcileFromChannel _ _ _ _ _ d) as [d1 [?|]]; exact Hr.
Qed.

Lemma CreateOrder_steps c up ids now att u p ch d : pay_steps c d (CreateOrder c up ids now att u p ch d).1.
Proof.
  unfold CreateOrder. cbv zeta. match goal with |- context [match ?b with Ok _ => _ | Err _ => _ end] => destruct b as [[o d1]|err] eqn:E end;
    [|apply rtc_refl].
  assert (pay_step c d d1) as H1.
  { inv_ok. destruct x0 as [kind from]. by eapply step_new_order. }
  eapply rtc_l; [exact H1|]. destruct (pre_auth c up ch o) as [[m|]|]; simpl; [|apply rtc_refl|].
  - apply step_one, step_intent.
  - apply step_one, step_fail.
Qed.

Lemma CancelOrder_steps c oid u d : pay_steps c d (CancelOrder oid u d).1.
Proof.
  unfold CancelOrder. pose proof (step_cancel c oid u d) as H. destruct (CancelPending oid u d) as [[|] d1].
  - by apply rtc_once.
  - eapply rtc_l; [exact H|]. destruct (pd_orders d1 !! oid); apply rtc_refl.
Qed.

Lemma RefundPayment_steps c accepted ids i d a d' : RefundPayment accepted ids i d = Ok (a, d') -> pay_steps c d d'.
Proof.
  unfold RefundPayment. intros H. apply rbind_Ok in H as ([r|[p owner]] & _ & H); [injection H as <- <-; apply rtc_refl|].
  apply rbind_Ok in H as ([r d1] & H & [= <- <-]). by eapply rtc_once, step_refund.
Qed.

Lemma Confirm_steps c q ids now i d r d' : money_ok d -> own_transaction (ci_Channel i) (ci_ExternalTxnID i) (ci_OrderID i) d ->
  Confirm c q ids now i d = Ok (r, d') -> pay_steps c d d'.
Proof.
  intros I Ht. unfold Confirm. intros H. apply rbind_Ok in H as (o & Hc & H). unfold confirm_checks in Hc.
  destruct (pd_orders d !! ci_OrderID i) as [x|] eqn:Ex; [|by inv_ok]. assert (x = o) as -> by (by inv_ok).
  pose proof (mi_okey _ _ I _ _ Ex) as Hk. rewrite <- Hk in *. by eapply rtc_once, step_confirm.
Qed.

(** ** What settles an order *)

(** Orders that are not paid stay so. *)
Definition unpaid_stay (d d' : PayDB) : Prop :=
  forall k o, pd_orders d !! k = Some o -> po_Status o <> OrderPaid ->
    exists o', pd_orders d' !! k = Some o' /\ po_Status o' <> OrderPaid.

#[export] Instance unpaid_stay_preorder : PreOrder unpaid_stay.
Proof.
  split; [intros d k o; eauto|]. intros a b x H K k o Ho Hs. destruct (H _ _ Ho Hs) as (o' & Ho' & Hs'). eauto.
Qed.

Lemma orders_stay d d' : pd_orders d' = pd_orders d -> unpaid_stay d d'.
Proof. intros H k o. rewrite H. eauto. Qed.

Lemma accounts_stay d d' : same_accounts d d' -> unpaid_stay d d'.
Proof. intros [H _]. by apply orders_stay. Qed.

Lemma updateOrderStatus_stay id from st d : st <> OrderPaid -> unpaid_stay d (updateOrderStatus id from st d).2.
Proof.
  intros Hs. unfold updateOrderStatus. destruct (pd_orders d !! id) as [x|] eqn:E; [|done]. destruct (bool_decide _); [|done].
  intros k o Ho Hn. simpl. destruct (decide (k = id)) as [->|Hk].
  - rewrite lookup_insert_eq. eexists. split; [done|]. done.
  - rewrite lookup_insert_ne by done. eauto.
Qed.

Lemma insertOrder_stay o d d' : insertOrder o d = Ok d' -> unpaid_stay d d'.
Proof.
  unfold insertOrder. intros H. inv_ok. bool_prop. intros k x Hx Hn. exists x. split; [|done]. simpl.
  rewrite lookup_insert_ne; [done|congruence].
Qed.

Lemma updatePayment_orders id from to d : pd_orders (updatePayment id from to d).2 = pd_orders d.
Proof. unfold updatePayment. destruct (pd_payments d !! id); [|done]. by destruct (bool_decide _). Qed.

Lemma insertPayment_orders p d d' : insertPayment p d = Ok d' -> pd_orders d' = pd_orders d.
Proof. unfold insertPayment. intros H. by inv_ok. Qed.

Lemma onPaymentFailed_stay c ids now e d d' : onPaymentFailed c ids now e d = Ok d' -> unpaid_stay d d'.
Proof.
  unfold onPaymentFailed. intros H. apply rbind_Ok in H as ([found d1] & H1 & H).
  assert (pd_orders d1 = pd_orders d) as Ho.
  { unfold findOrInsertPendingOnTx in H1. inv_ok; try done. eauto using insertPayment_orders. }
  etransitivity; [by apply orders_stay|]. destruct found as [p|]; [|by injection H as <-].
  pose proof (updatePayment_orders (py_ID p) [PaymentPending; PaymentPaid] PaymentFailed d1) as Hp.
  destruct (updatePayment _ _ _ _) as [hit d2]. simpl in Hp. etransitivity; [apply orders_stay, Hp|].
  destruct (negb hit); [by injection H as <-|]. destruct (pd_orders d2 !! py_OrderID p) as [o|]; [|done]. cbv zeta in H.
  destruct (bool_decide (py_Status p = PaymentPaid)); [|injection H as <-; by apply updateOrderStatus_stay].
  apply revoke_failed_accounts, accounts_stay in H. etransitivity; [|exact H]. by apply updateOrderStatus_stay.
Qed.

Lemma refund_in_full_stay c now o prod pid rid d : unpaid_stay d (refund_in_full c now o prod pid rid d).
Proof.
  unfold refund_in_full. etransitivity; [apply orders_stay, (updatePayment_orders pid [PaymentPaid] PaymentRefunded)|].
  etransitivity; [by apply (updateOrderStatus_stay (po_ID o) [OrderPaid] OrderRefunded)|].
  destruct (String.eqb _ _); [done|]. destruct (orderTouchesBenefits _ _); [|by apply orders_stay].
  apply accounts_stay, same_money_accounts. etransitivity; [|apply enqueue_same_money]. done.
Qed.

Lemma refund_known_stay c ids now e p d d' : refund_known c ids now e p d = Ok d' -> unpaid_stay d d'.
Proof.
  unfold refund_known. destruct (pd_orders d !! py_OrderID p) as [o|]; [|done]. intros H.
  apply rbind_Ok in H as ([[rid amount] d1] & Hb & H). apply book_refund_accounts in Hb. cbv zeta in H.
  etransitivity; [by apply accounts_stay|].
  set (d2 := if String.eqb rid "" then d1 else _) in H. set (d3 := if toCents _ <=? _ then _ else d2) in H.
  assert (unpaid_stay d1 d2) as H2 by (apply orders_stay; subst d2; by destruct (String.eqb rid "")).
  assert (unpaid_stay d2 d3) as H3 by (subst d3; destruct (toCents _ <=? _); [apply refund_in_full_stay|done]).
  etransitivity; [exact H2|]. etransitivity; [exact H3|].
  destruct (String.eqb (resolveOrderProduct o d2) _); [|by injection H as <-].
  apply accounts_stay, same_money_accounts. unfold refund_wallet, auditAndCommit in H. inv_ok; eauto with pay; done.
Qed.

Lemma renew_tx_stay c ids now e nb d d' : renew_tx c ids now e nb d = Ok d' -> unpaid_stay d d'.
Proof.
  unfold renew_tx, auditAndCommit. destruct (findSubByExternal _ _) as [s|]; [|intros [= <-]; by apply orders_stay].
  destruct (FindByChannelTxnID _ _ _); [intros [= <-]; by apply orders_stay|].
  pose proof (renewal_check_same_money c e s d) as Hc. destruct (renewal_check c e s d) as [d1|d1];
    [|intros [= <-]; by apply accounts_stay, same_money_accounts].
  intros H. etransitivity; [by apply accounts_stay, same_money_accounts|].
  apply rbind_Ok in H as (o & _ & H). apply rbind_Ok in H as (d2 & Hi & H).
  etransitivity; [by eapply insertOrder_stay|]. apply rbind_Ok in H as ([ins d3] & Hp & H). cbv zeta in H. injection H as <-.
  assert (pd_orders d3 = pd_orders d2) as H3.
  { unfold insertPaymentOnTx in Hp. inv_ok; [done|]. eauto using insertPayment_orders. }
  etransitivity; [apply orders_stay, H3|]. apply accounts_stay, same_money_accounts.
  etransitivity; [apply extend_sub_same_money|]. destruct (_ && _); [etransitivity; [|apply enqueue_same_money]|]; done.
Qed.

Lemma in_pay_tx_stay d (f : PayDB -> payres PayDB) : (forall d', f d = Ok d' -> unpaid_stay d d') -> unpaid_stay d (in_pay_tx d f).1.
Proof. intros H. unfold in_pay_tx. destruct (f d); simpl; [auto|reflexivity]. Qed.

(** Only the payment branch settles an order that exists. *)
Lemma handle_event_stay c nb ids now e d : resolveBranch e <> branchPaymentSuccess ->
  unpaid_stay d (handle_event c nb ids now e d).1.
Proof.
  intros Hb. unfold handle_event. destruct (resolveBranch e); try done; try by apply orders_stay.
  - apply in_pay_tx_stay, onPaymentFailed_stay.
  - unfold onRefundSucceeded. destruct (FindByChannelTxnID _ _ _); [apply in_pay_tx_stay, refund_known_stay|].
    destruct (closes_unpaid _ _); [|by apply orders_stay]. apply in_pay_tx_stay. intros d' H. eapply accounts_stay, auditAndCommit_accounts, H.
  - unfold onRefundFailed. destruct (FindByChannelTxnID _ _ _); [|by apply orders_stay].
    apply in_pay_tx_stay. intros d' H. eapply accounts_stay, fail_refund_accounts, H.
  - unfold onDisputeCreated. destruct (FindByChannelTxnID _ _ _); [|by apply orders_stay]. apply in_pay_tx_stay. intros d' [= <-]. by apply orders_stay.
  - unfold onRenewalSucceeded. destruct (String.eqb _ ""); [by apply orders_stay|].
    destruct (_ && _); [|apply in_pay_tx_stay, renew_tx_stay]. destruct (negb _); [by apply orders_stay|].
    destruct (nb _); [apply in_pay_tx_stay, renew_tx_stay|done].
  - unfold onPaddleSubscriptionCancelled. destruct (String.eqb _ ""); [by apply orders_stay|].
    apply in_pay_tx_stay. intros d' H. eapply accounts_stay, cancel_paddle_accounts, H.
  - unfold onPaddleSubscriptionUpdated. destruct (String.eqb _ ""); [by apply orders_stay|].
    apply in_pay_tx_stay. intros d' H. eapply accounts_stay, update_paddle_accounts, H.
Qed.

(** The payment branch settles the one order it is about, with a payment of its own. *)
(** The row of a payment event. *)
Lemma event_payment_fields ids e o p : event_payment ids e o = Ok p ->
  py_OrderID p = po_ID o /\ py_Channel p = we_Channel e /\ py_ExternalTxnID p = we_TransactionID e
  /\ py_Status p = PaymentPaid /\ to_numeric (we_Amount e) = Some (py_Amount p).
Proof.
  unfold event_payment, bind_amount. destruct (to_numeric (we_Amount e)); [|done]. simpl. by intros [= <-].
Qed.

Lemma onPaymentSucceeded_settles c ids now e d d' k o o' : money_ok d -> onPaymentSucceeded c ids now e d = Ok d' ->
  pd_orders d !! k = Some o -> po_Status o <> OrderPaid -> pd_orders d' !! k = Some o' -> po_Status o' = OrderPaid ->
  open_status (po_Status o) = true /\ lookupOrderByWebhookID (we_Channel e) (we_OrderID e) d = Some o
  /\ (we_SkipAmountCheck e = false -> under_paid e o = false)
  /\ exists p, event_payment ids e o = Ok p /\ pd_payments d !! py_ID p = None /\ pd_payments d' = <[py_ID p := p]> (pd_payments d)
     /\ (forall j x, pd_payments d !! j = Some x -> py_Channel x = we_Channel e -> py_ExternalTxnID x <> we_TransactionID e).
Proof.
  intros I H Hk Hn Hk' Hp. unfold onPaymentSucceeded, auditAndCommit in H.
  destruct (lookupOrderByWebhookID _ _ _) as [x|] eqn:Eo; [|injection H as <-; simpl in Hk'; congruence].
  destruct (settlement_refused _ _ _); [injection H as <-; simpl in Hk'; congruence|].
  destruct (negb _ && _) eqn:Eu; [injection H as <-; simpl in Hk'; congruence|].
  pose proof (lookupOrder_found _ _ _ _ I Eo) as Hx. pose proof (mi_okey _ _ I _ _ Hx) as Hid.
  assert (forall d1, pd_orders d1 = pd_orders d -> pd_orders d' = close_order OrderPaid (po_ID x) (pd_orders d1) ->
    x = o /\ open_status (po_Status o) = true) as Hc.
  { intros d1 H1 H2. rewrite H2, H1, (close_order_new _ _ _ x) in Hk' by done.
    apply lookup_insert_Some in Hk' as [[<- <-]|[Hne Hy]]; [|congruence].
    assert (x = o) as -> by congruence. split; [done|]. by destruct (po_Status o). }
  apply rbind_Ok in H as (p & Hev & H). apply rbind_Ok in H as ([[|] d1] & Hins & H).
  - apply settle_order_accounts in H as [H1 H2]. apply insertPaymentOnTx_new in Hins as (-> & Hfree & Hnew & _).
    destruct (Hc _ eq_refl H1) as [-> Hopen]. destruct (event_payment_fields _ _ _ _ Hev) as (_ & F2 & F3 & _).
    split_and!; [done|done| |exists p; split_and!; [done|done|done|]].
    + intros Hs. rewrite Hs in Eu. exact Eu.
    + intros j y Hy. rewrite <- F2, <- F3. exact (Hnew _ _ Hy).
  - apply insertPaymentOnTx_old in Hins as ->. destruct (FindByChannelTxnID _ _ _) as [old|] eqn:Ef; [|done].
    destruct (FindByChannelTxnID_found _ _ _ _ I Ef) as (Hold & _ & _).
    destruct (negb (bool_decide (py_OrderID old = po_ID x))) eqn:Eq; [injection H as <-; simpl in Hk'; congruence|].
    destruct (negb (bool_decide (py_Status old = _))); [injection H as <-; simpl in Hk'; congruence|].
    bool_prop. apply settle_order_accounts in H as [H1 _]. destruct (Hc _ eq_refl H1) as [-> Hopen].
    rewrite <- Eq in Hx. by rewrite (mi_open _ _ I _ _ _ Hold Hx) in Hopen.
Qed.

Lemma confirm_tx_accounts c ids now i o d r d' : money_ok d -> confirm_tx c ids now i o d = Ok (r, d') ->
  pd_orders d' = close_order OrderPaid (po_ID o) (pd_orders d)
  /\ exists p, pd_payments d' !! cr_PaymentID r = Some p /\ pd_payments d' = <[cr_PaymentID r := p]> (pd_payments d)
     /\ py_Channel p = ci_Channel i /\ py_ExternalTxnID p = ci_ExternalTxnID i /\ py_Status p <> PaymentFailed
     /\ (py_OrderID p = po_ID o \/ FindByChannelTxnID (ci_Channel i) (ci_ExternalTxnID i) d = Some p).
Proof.
  intros I. unfold confirm_tx. cbv zeta.
  destruct (match findPaidByOrder _ _ with Some _ => _ | None => _ end); [done|]. intros H.
  apply rbind_Ok in H as ([ins d1] & Hi & H). apply rbind_Ok in H as (pid & Hpid & H).
  destruct (if ins then _ else retry_state _ _ _ _) as [pres dr]. apply rbind_Ok in H as ([act d2] & Ha & H).
  apply activate_paid_same_money in Ha as (Hos & Hps & _). destruct (mark_order_paid_accounts o d2) as [Hos' Hps'].
  destruct (mark_order_paid o d2) as [late d3]. injection H as <- <-. simpl in *. rewrite Hos, Hps in *. destruct ins.
  - apply insertPaymentOnTx_new in Hi as (-> & _). injection Hpid as <-. split; [done|]. eexists.
    split; [rewrite Hps'; simpl; by rewrite lookup_insert_eq|]. by split_and!; [..|left].
  - apply insertPaymentOnTx_old in Hi as ->. split; [done|]. destruct (FindByChannelTxnID _ _ _) as [old|] eqn:Ef; [|done].
    destruct (FindByChannelTxnID_found _ _ _ _ I Ef) as (Hold & Hch & Ht).
    destruct (bool_decide _) eqn:Es in Hpid; [done|]. injection Hpid as <-. apply bool_decide_eq_false in Es.
    exists old. rewrite Hps'. split; [done|]. split; [by rewrite insert_id|]. by split_and!; [..|right].
Qed.
