(* ===== verification/PaySubs.v ===== *)
(** * PaySubs: what payments do to subscriptions

    The row a payment activates, what a redelivered payment leaves of a live
    subscription, and what a renewal adds to one. *)

From Stdlib Require Import ZArith Lia Bool Ascii String Sorting.Sorted.
From Stdlib Require Import Floats.SpecFloat.
From stdpp Require Import base gmap strings list sorting.
From S2P Require Import Prelude Domain Calendar EntitlementStore BenefitRules Amounts PayTables Activation Payments Orders PayFrames PayInv.

Local Open Scope string_scope.
Local Open Scope Z_scope.
Local Open Scope go_scope.

(** The primary key and the partial unique index of [subscriptions]. *)
Definition subs_indexed (d : PayDB) : Prop :=
  (forall k s, pd_subs d !! k = Some s -> sb_ID s = k)
  /\ forall k s k' s' u p, pd_subs d !! k = Some s -> pd_subs d !! k' = Some s' ->
       active_in u p s = true -> active_in u p s' = true -> k = k'.

Lemma active_in_spec u p s : active_in u p s = true <-> sb_UserID s = u /\ sb_ProductCode s = p /\ sb_Status s = SubActive.
Proof. unfold active_in. rewrite !andb_true_iff, !bool_decide_eq_true. tauto. Qed.

Lemma sub_before_asym a b : sub_before a b = true -> sub_before b a = false.
Proof. unfold sub_before. destruct (sb_Status a), (sb_Status b); try done; rewrite Z.ltb_lt, Z.ltb_ge; lia. Qed.
Lemma sub_before_neg a b c : sub_before b a = false -> sub_before c b = false -> sub_before c a = false.
Proof. unfold sub_before. destruct (sb_Status a), (sb_Status b), (sb_Status c); try done; rewrite !Z.ltb_ge; lia. Qed.

Lemma pick_sub_elem p d s : pick_sub p d = Some s -> p s = true /\ exists k, pd_subs d !! k = Some s.
Proof.
  unfold pick_sub. intros H. assert (s ∈ stable_sort sub_before (List.filter p (pay_rows (pd_subs d)))) as Hin
    by (destruct (stable_sort _ _); [done|injection H as ->; set_solver]).
  rewrite stable_sort_Permutation in Hin. apply list_elem_of_In, List.filter_In in Hin as [Hin Hp].
  split; [done|]. by apply pay_rows_elem, list_elem_of_In.
Qed.

(** An active candidate is preferred. *)
Lemma pick_sub_active p d k a : pd_subs d !! k = Some a -> p a = true -> sb_Status a = SubActive ->
  exists s, pick_sub p d = Some s /\ sb_Status s = SubActive.
Proof.
  intros Hk Hp Ha. unfold pick_sub. set (l := List.filter p _).
  assert (a ∈ l) as Hin by (apply list_elem_of_In, List.filter_In; split; [apply list_elem_of_In, pay_rows_elem; eauto|done]).
  pose proof (stable_sort_order sub_before sub_before_neg sub_before_asym l) as Hso.
  destruct (stable_sort sub_before l) as [|s t] eqn:E.
  - rewrite <- (stable_sort_Permutation sub_before), E in Hin. by apply elem_of_nil in Hin.
  - exists s. split; [done|]. rewrite <- (stable_sort_Permutation sub_before), E in Hin.
    apply StronglySorted_inv in Hso as [_ Hso]. apply elem_of_cons in Hin as [->|Hin]; [done|].
    rewrite Forall_forall in Hso. specialize (Hso _ Hin). unfold sub_before in Hso. rewrite Ha in Hso.
    by destruct (sb_Status s).
Qed.

(** The live row of a user and product is the one a payment updates. *)
Lemma pick_live d u p s : subs_indexed d -> FindActiveByUserAndProduct u p d = Some s ->
  pick_sub (fun s => bool_decide (sb_UserID s = u) && bool_decide (sb_ProductCode s = p)) d = Some s
  /\ pd_subs d !! sb_ID s = Some s.
Proof.
  intros [Hk Hu] Hf. apply find_row_Some in Hf as (Ha & k & Hs). pose proof (Hk _ _ Hs) as <-. split; [|done].
  pose proof (proj1 (active_in_spec _ _ _) Ha) as (H1 & H2 & H3).
  destruct (pick_sub_active (fun s => bool_decide (sb_UserID s = u) && bool_decide (sb_ProductCode s = p)) d _ s Hs) as (x & Hx & Hxa).
  - by rewrite !bool_decide_true.
  - done.
  - rewrite Hx. destruct (pick_sub_elem _ _ _ Hx) as (Hp & j & Hj). bool_prop.
    assert (j = sb_ID s) as -> by (eapply Hu; [exact Hj|exact Hs|by apply active_in_spec|exact Ha]). congruence.
Qed.

(** What a subscription grants: to whom, which plan of which product, and until when. *)
Definition sub_grant (s : Subscription) :=
  (sb_ID s, sb_UserID s, sb_PlanID s, sb_ProductCode s, sb_Status s, sb_ExpiresAt s).

Definition same_grants (d d' : PayDB) : Prop := forall k, sub_grant <$> pd_subs d' !! k = sub_grant <$> pd_subs d !! k.

#[export] Instance same_grants_preorder : PreOrder same_grants.
Proof. split; [by intros d k|]. intros a b c H K k. by rewrite K. Qed.

Lemma same_subs_grants d d' : pd_subs d' = pd_subs d -> same_grants d d'.
Proof. intros H k. by rewrite H. Qed.

Lemma enqueue_subs w m k d : pd_subs (enqueueSync w m k d) = pd_subs d.
Proof. unfold enqueueSync, enqueueOutbox. destruct w; [|done]. by destruct (_ && _). Qed.

Lemma regrant s s' d : pd_subs d !! sb_ID s = Some s -> sub_grant s' = sub_grant s ->
  same_grants d (set_pd_subs (<[sb_ID s := s']> (pd_subs d)) d).
Proof.
  intros Hs Hg k. simpl. destruct (decide (k = sb_ID s)) as [->|Hk].
  - by rewrite lookup_insert_eq, Hs; simpl; rewrite Hg.
  - by rewrite lookup_insert_ne.
Qed.

Lemma stamp_grants x u p prod d d' : (forall k s, pd_subs d !! k = Some s -> sb_ID s = k) ->
  stampExternalID x u p prod d = Ok d' -> same_grants d d'.
Proof.
  intros Hk. unfold stampExternalID. destruct (String.eqb x ""); [by intros [= <-]|].
  destruct (pick_sub _ d) as [s|] eqn:E; [|by intros [= <-]]. destruct (pick_sub_elem _ _ _ E) as (_ & k & Hs). intros H. inv_ok.
  rewrite <- (Hk _ _ Hs) in Hs. by apply (regrant s).
Qed.

(** A known event leaves the outbox alone. *)
Lemma enqueue_known w m k d : Some k ∈ (px_DedupKey <$> pd_outbox d) -> enqueueSync w m (Some k) d = d.
Proof.
  intros Hk. unfold enqueueSync, enqueueOutbox. destruct w; [|done].
  destruct (_ && _) eqn:E; [done|]. exfalso. rewrite bool_decide_true in E by eauto. simpl in E.
  apply list_elem_of_fmap in Hk as (r & Hr & Hin).
  assert (existsb (fun r => bool_decide (px_DedupKey r = Some k)) (pd_outbox d) = true) as Ht; [|by rewrite Ht in E].
  apply existsb_exists. exists r. rewrite bool_decide_eq_true. split; [by apply list_elem_of_In|done].
Qed.

Lemma mark_order_paid_frame o d : pd_subs (mark_order_paid o d).2 = pd_subs d /\ pd_outbox (mark_order_paid o d).2 = pd_outbox d.
Proof.
  unfold mark_order_paid, updateOrderStatus. destruct (pd_orders d !! po_ID o) as [x|]; [destruct (bool_decide (po_Status x ∈ _))|];
    simpl; by destruct (_ && _).
Qed.

Lemma stamp_outbox x u p prod d d' : stampExternalID x u p prod d = Ok d' -> pd_outbox d' = pd_outbox d.
Proof. unfold stampExternalID. intros H. destruct (String.eqb x ""); [by inv_ok|]. destruct (pick_sub _ d); by inv_ok. Qed.

(** A retry against a live subscription: the same plan keeps its expiry, another
    plan blocks it; a known message is not sent again. *)
Lemma activate_retry_grants c ids now ch o pid hint d b d' s t :
  let prod := resolveOrderProduct o d in
  subs_indexed d -> prod <> ProductWalletTopup ->
  FindActiveByUserAndProduct (po_UserID o) prod d = Some s -> sb_ExpiresAt s = Some t -> now < t ->
  activate_paid c ids now ch o prod pid hint (retry_state now o prod d).1 (retry_state now o prod d).2 d = Ok (b, d') ->
  same_grants d d' /\ (Some (PaidSyncDedupKey pid) ∈ (px_DedupKey <$> pd_outbox d) -> pd_outbox d' = pd_outbox d)
  /\ (sb_PlanID s <> po_PlanID o -> pd_subs d' = pd_subs d /\ pd_outbox d' = pd_outbox d).
Proof.
  intros prod I Hprod Hf Ht Hlt. destruct (pick_live _ _ _ _ I Hf) as [Hpick Hs].
  unfold retry_state. rewrite Hf, Ht. rewrite (proj2 (Z.ltb_lt now t) Hlt). cbn [fst snd].
  unfold activate_paid. destruct (String.eqb_spec prod ProductWalletTopup) as [|_]; [done|]. cbv zeta.
  assert (forall d1, resolveOrderActivation now o prod hint (Some t) d1 = Ok (Some t)) as Hr
    by (intros d1; unfold resolveOrderActivation; by destruct (String.eqb _ _)).
  rewrite Hr. destruct (decide (sb_PlanID s = po_PlanID o)) as [Hp|Hp].
  - rewrite (bool_decide_true (sb_PlanID s = po_PlanID o)) by done. cbn [negb].
    intros H. apply rbind_Ok in H as ([act d1] & Ha & H).
    unfold activateSubscriptionOnTx in Ha. rewrite Hpick in Ha. apply rbind_Ok in Ha as (d2 & Hw & [= <- <-]).
    unfold writeSub in Hw. destruct (_ && _) in Hw; [|done]. injection Hw as <-.
    set (d1 := set_pd_subs _ d) in H.
    assert (same_grants d d1) as Hg.
    { apply regrant; [done|]. apply find_row_Some in Hf as (Ha%active_in_spec & _). destruct Ha as (_ & _ & Ha).
      unfold sub_grant, activated_row. simpl. congruence. }
    injection H as <- <-. split_and!.
    + destruct (orderTouchesBenefits o prod); [|exact Hg]. etransitivity; [exact Hg|]. apply same_subs_grants, enqueue_subs.
    + intros Hk. destruct (orderTouchesBenefits o prod); [|done]. by rewrite enqueue_known.
    + done.
  - rewrite (bool_decide_false (sb_PlanID s = po_PlanID o)) by done. cbn [negb]. intros [= <- <-]. by split_and!.
Qed.

Lemma same_grants_keys d d' : same_grants d d' -> (forall k s, pd_subs d !! k = Some s -> sb_ID s = k) ->
  forall k s, pd_subs d' !! k = Some s -> sb_ID s = k.
Proof.
  intros Hg Hk k s Hs. specialize (Hg k). rewrite Hs in Hg. destruct (pd_subs d !! k) as [x|] eqn:E; [|done].
  simpl in Hg. injection Hg as -> _ _ _ _ _. by apply Hk.
Qed.

(** A payment event that comes again while the subscription is live. *)
Lemma payment_again c ids now e d d' o old s t :
  let prod := resolveOrderProduct o d in
  money_ok d -> subs_indexed d -> lookupOrderByWebhookID (we_Channel e) (we_OrderID e) d = Some o ->
  FindByChannelTxnID (we_Channel e) (we_TransactionID e) d = Some old -> prod <> ProductWalletTopup ->
  FindActiveByUserAndProduct (po_UserID o) prod d = Some s -> sb_ExpiresAt s = Some t -> now < t ->
  onPaymentSucceeded c ids now e d = Ok d' ->
  pd_orders d' = pd_orders d /\ pd_payments d' = pd_payments d /\ same_grants d d'
  /\ (Some (PaidSyncDedupKey (py_ID old)) ∈ (px_DedupKey <$> pd_outbox d) -> pd_outbox d' = pd_outbox d).
Proof.
  intros prod I S Ho Hold Hprod Hf Ht Hlt. unfold onPaymentSucceeded, auditAndCommit. rewrite Ho.
  destruct (settlement_refused e o d); [by intros [= <-]|]. destruct (negb _ && _); [by intros [= <-]|]. intros H.
  apply rbind_Ok in H as (p & Hev & H). apply rbind_Ok in H as ([ins d1] & Hins & H).
  assert (ins = false) as ->.
  { destruct ins; [|done]. apply insertPaymentOnTx_new in Hins as (_ & _ & Htxn & _).
    destruct (FindByChannelTxnID_found _ _ _ _ I Hold) as (Hk & Hc & Hx). exfalso. apply (Htxn _ _ Hk).
    - unfold event_payment in Hev. by inv_ok.
    - unfold event_payment in Hev. by inv_ok. }
  apply insertPaymentOnTx_old in Hins as ->. rewrite Hold in H.
  destruct (negb (bool_decide (py_OrderID old = po_ID o))) eqn:Eo; [by injection H as <-|].
  destruct (negb (bool_decide (py_Status old = PaymentPaid))); [by injection H as <-|]. bool_prop.
  destruct (settle_order_accounts _ _ _ _ _ _ _ _ _ H) as [H1 H2].
  assert (close_order OrderPaid (po_ID o) (pd_orders d) = pd_orders d) as Hc.
  { pose proof (lookupOrder_found _ _ _ _ I Ho) as Hx. destruct (FindByChannelTxnID_found _ _ _ _ I Hold) as (Hk & _ & _).
    unfold close_order. rewrite Hx. rewrite <- Eo in Hx. by rewrite (mi_open _ _ I _ _ _ Hk Hx). }
  rewrite H1, H2, Hc. unfold settle_order in H. cbv zeta in H. fold prod in H. rewrite (surjective_pairing (retry_state _ _ _ _)) in H.
  apply rbind_Ok in H as ([act d1] & Ha & H). apply rbind_Ok in H as (d2 & Hst & [= <-]).
  destruct (activate_retry_grants _ _ _ _ _ _ _ _ _ _ s t S Hprod Hf Ht Hlt Ha) as (Hg & Hx & _).
  destruct (mark_order_paid_frame o d2) as [M1 M2].
  split_and!; [done|done| |].
  - etransitivity; [exact Hg|]. etransitivity; [|apply same_subs_grants, M1].
    eapply stamp_grants; [|exact Hst]. by eapply same_grants_keys, (proj1 S).
  - intros Hk. by rewrite M2, (stamp_outbox _ _ _ _ _ _ Hst), Hx.
Qed.
