(* ===== verification/PayProps.v ===== *)
(** * PayProps: the properties of the payment service

    What holds of the tables whatever webhooks, confirmations, refund requests
    and orders come in, and what one call does to them. *)

From Stdlib Require Import ZArith Lia Bool Ascii String.
From Stdlib Require Import Floats.SpecFloat.
From stdpp Require Import base gmap strings list relations.
From S2P Require Import Prelude Domain Calendar EntitlementStore BenefitRules Sha256 Amounts PayTables Activation Payments Orders PayFrames PayInv PaySubs.

Local Open Scope string_scope.
Local Open Scope Z_scope.
Local Open Scope go_scope.

(** ** A small shop *)

Definition shop_settings : PaySettings := mkSettings true false true true false ∅ None (1800 * second).

Definition shop_plans : gmap string PayPlan :=
  {[ "month" := mkPayPlan 3000 30 "kaya-membership" true true "CNY";
     "topup" := mkPayPlan 1000 0 "wallet-topup" true true "CNY" ]}.

Definition shop_open : PayDB := mkPayDB ∅ ∅ ∅ ∅ shop_plans ∅ ∅ ∅ [] [].

Definition shop_upstream : Upstream := mkUpstream (fun _ _ _ => Some "weixin://pay") "wx" "mch" (fun _ _ _ => None) "".

Definition shop_ids (n : string) : FreshIDs :=
  mkFresh ("pay-" +:+ n) ("sub-" +:+ n) ("ref-" +:+ n) ("ord-" +:+ n) ("evt-" +:+ n).

(** 1 January 2025, in nanoseconds. *)
Definition shop_day (n : Z) : instant := 1735689600 * second + n * 24 * hour.

Definition paid_event (txn order : string) (cents : Z) : WebhookEvent :=
  mkEvent "wechat_pay" ("notify-" +:+ txn) "TRANSACTION.SUCCESS" txn order (major cents) "CNY" zero64 "" "" "" "" "" None [] false None.

(** Two orders: a month of membership and a top-up. *)
Definition shop_ordered : PayDB :=
  (CreateOrder shop_settings shop_upstream (shop_ids "t") (shop_day 0) true "user" "topup" "wechat_pay"
     (CreateOrder shop_settings shop_upstream (shop_ids "m") (shop_day 0) true "user" "month" "wechat_pay" shop_open).1).1.

(** The channel reports the payment of both. *)
Definition shop_paid : PayDB :=
  (OnWebhook shop_settings (fun _ => None) (shop_ids "t") (shop_day 0) (paid_event "wx-2" "ord-t" 1000)
    (OnWebhook shop_settings (fun _ => None) (shop_ids "m") (shop_day 0) (paid_event "wx-1" "ord-m" 3000) shop_ordered).1).1.

Lemma shop_ordered_reachable : pay_reachable shop_settings shop_ordered.
Proof.
  eapply pay_reachable_steps; [|apply CreateOrder_steps]. eapply pay_reachable_steps; [|apply CreateOrder_steps].
  exists shop_open. split; [by split_and!|apply rtc_refl].
Qed.

Lemma shop_paid_reachable : pay_reachable shop_settings shop_paid.
Proof.
  eapply pay_reachable_steps; [|apply OnWebhook_steps]. eapply pay_reachable_steps; [|apply OnWebhook_steps].
  apply shop_ordered_reachable.
Qed.

(** ** Orders and their payments *)

(** C16: ORDERS AND PAYMENTS AGREE. The invariant of the tables. *)
Theorem paid_orders_settled c d : pay_reachable c d ->
  (forall k o, pd_orders d !! k = Some o -> po_Status o = OrderPaid ->
     exists j p, pd_payments d !! j = Some p /\ py_OrderID p = k /\ py_Status p = PaymentPaid
       /\ forall j' p', pd_payments d !! j' = Some p' -> py_OrderID p' = k -> j' = j)
  /\ (forall j p, pd_payments d !! j = Some p ->
     exists o, pd_orders d !! py_OrderID p = Some o /\ open_status (po_Status o) = false)
  /\ (forall j p j' p', pd_payments d !! j = Some p -> pd_payments d !! j' = Some p' ->
     py_Channel p = py_Channel p' /\ py_ExternalTxnID p = py_ExternalTxnID p'
     \/ py_OrderID p = py_OrderID p' /\ py_Status p = PaymentPaid /\ py_Status p' = PaymentPaid -> j = j').
Proof.
  intros I%pay_reachable_ok. split_and!.
  - intros k o Ho Hs. destruct (mi_settled _ _ I _ _ Ho Hs) as (j & p & H). by exists j, p.
  - intros j p Hp. destruct (mi_order _ _ I _ _ Hp) as [o Ho]. exists o. split; [done|]. by eapply (mi_open _ _ I).
  - intros j p j' p' Hp Hp' [[H1 H2]|(H1 & H2 & H3)]; [by eapply (mi_txn _ _ I)|by eapply (mi_one _ _ I)].
Qed.

Lemma paid_orders_settled_witness :
  (po_Status <$> pd_orders shop_paid !! "ord-m") = Some OrderPaid
  /\ exists j p, pd_payments shop_paid !! j = Some p /\ py_OrderID p = "ord-m" /\ py_Status p = PaymentPaid.
Proof.
  split; [vm_compute; reflexivity|]. destruct (pd_orders shop_paid !! "ord-m") as [o|] eqn:E; [|exfalso; vm_compute in E; discriminate].
  assert (po_Status o = OrderPaid) as Hs by (vm_compute in E; injection E as <-; reflexivity).
  destruct (paid_orders_settled _ _ shop_paid_reachable) as (H & _). destruct (H _ _ E Hs) as (j & p & Hj & Hp & Hs' & _).
  exists j, p. split; [exact Hj|]. split; [exact Hp|exact Hs'].
Defined.

(** MONEY ROWS MOVE FORWARD. Nothing of a row is lost: an order, a payment, a refund keep their terms and
    only move forward, whatever the service does. *)
Theorem rows_move_forward c d d' : pay_steps c d d' ->
  (forall k o, pd_orders d !! k = Some o -> exists o', pd_orders d' !! k = Some o' /\ order_terms o' = order_terms o
     /\ order_status_le (po_Status o) (po_Status o') = true)
  /\ (forall k p, pd_payments d !! k = Some p -> exists p', pd_payments d' !! k = Some p' /\ payment_terms p' = payment_terms p
     /\ payment_status_le (py_Status p) (py_Status p') = true /\ (py_Disputed p = true -> py_Disputed p' = true))
  /\ (forall k r, pd_refunds d !! k = Some r -> exists r', pd_refunds d' !! k = Some r' /\ refund_terms r' = refund_terms r
     /\ refund_status_le (rf_Status r) (rf_Status r') = true)
  /\ pd_outbox d `prefix_of` pd_outbox d'.
Proof.
  intros [Ho Hp Hr _ Hx _]%pay_steps_evolves. split_and!; [| | |done].
  - intros k o (o' & H & H1 & H2)%Ho. eauto.
  - intros k p (p' & H & H1 & H2 & H3)%Hp. eauto.
  - intros k r (r' & H & H1 & H2)%Hr. eauto.
Qed.

Lemma rows_move_forward_witness :
  (po_Status <$> pd_orders shop_ordered !! "ord-m") = Some OrderPending
  /\ exists o, pd_orders shop_paid !! "ord-m" = Some o /\ po_Amount o = 3000 /\ po_Status o <> OrderPending.
Proof.
  split; [vm_compute; reflexivity|]. destruct (pd_orders shop_ordered !! "ord-m") as [o|] eqn:E; [|exfalso; vm_compute in E; discriminate].
  assert (po_Amount o = 3000) as Ha by (vm_compute in E; injection E as <-; reflexivity).
  assert (pay_steps shop_settings shop_ordered shop_paid) as Hs by (unfold shop_paid, pay_steps; etransitivity; apply OnWebhook_steps).
  destruct (rows_move_forward _ _ _ Hs) as (H & _). destruct (H _ _ E) as (o' & Ho' & Ht & _). exists o'.
  split; [exact Ho'|]. split; [unfold order_terms in Ht; congruence|].
  vm_compute in Ho'. injection Ho' as <-. discriminate.
Defined.

(** A WEBHOOK IS HANDLED ONCE. An event answered without an error is never handled again. *)
Theorem webhook_handled_once c nb ids now e d d1 r : pay_reachable c d -> OnWebhook c nb ids now e d = (d1, Ok r) ->
  forall d2, pay_steps c d1 d2 -> forall nb' ids' now' e', we_Channel e' = we_Channel e -> we_EventID e' = we_EventID e ->
  OnWebhook c nb' ids' now' e' d2 = (d2, Ok (mkWebhookResult true "")).
Proof.
  intros R H d2 Hs nb' ids' now' e' Hc He. pose proof (OnWebhook_steps c nb ids now e d) as H1. rewrite H in H1. simpl in H1.
  pose proof (pay_reachable_keys _ _ (pay_reachable_steps _ _ _ (pay_reachable_steps _ _ _ R H1) Hs)) as U. clear H1.
  unfold OnWebhook in H. destruct (known_channel (we_Channel e)) eqn:Ek; [simpl in H|done].
  destruct (InsertEvent _ _ _ d) as [[[row p] dr]|] eqn:Ei; [|done]. destruct (InsertEvent_new _ _ _ _ _ _ _ Ei) as (w & Hw & H1 & H2 & H3).
  assert (exists w, pd_events d1 !! row = Some w /\ wh_Channel w = we_Channel e /\ wh_EventID w = we_EventID e /\ wh_Processed w = true)
    as (x & Hx & X1 & X2 & X3).
  { destruct p; [injection H as -> _; eauto|]. pose proof (handle_event_evolves c nb ids now e dr) as Hev.
    destruct (handle_event c nb ids now e dr) as [d3 [err|]]; [done|]. injection H as <- _.
    destruct (ev_events _ _ Hev _ _ Hw) as (y & Hy & Y1 & Y2 & _). simpl in Hy. unfold MarkProcessed. simpl.
    rewrite lookup_alter_eq, Hy. eexists. split; [done|]. simpl. by rewrite <- Y1, <- Y2, H1, H2. }
  destruct (ev_events _ _ (pay_steps_evolves _ _ _ Hs) _ _ Hx) as (y & Hy & Y1 & Y2 & Y3).
  unfold OnWebhook. rewrite Hc, He, Ek. simpl. rewrite (InsertEvent_known _ _ _ _ row y U Hy) by congruence.
  by rewrite (Y3 X3).
Qed.

Lemma webhook_handled_once_witness :
  OnWebhook shop_settings (fun _ => None) (shop_ids "again") (shop_day 40) (paid_event "wx-2" "ord-t" 1000) shop_paid
    = (shop_paid, Ok (mkWebhookResult true "")).
Proof.
  assert (pay_reachable shop_settings (OnWebhook shop_settings (fun _ => None) (shop_ids "m") (shop_day 0)
      (paid_event "wx-1" "ord-m" 3000) shop_ordered).1) as R
    by (eapply pay_reachable_steps; [apply shop_ordered_reachable|apply OnWebhook_steps]).
  destruct (OnWebhook shop_settings (fun _ => None) (shop_ids "t") (shop_day 0) (paid_event "wx-2" "ord-t" 1000)
    (OnWebhook shop_settings (fun _ => None) (shop_ids "m") (shop_day 0) (paid_event "wx-1" "ord-m" 3000) shop_ordered).1)
    as [d1 r] eqn:E.
  assert (r = Ok (mkWebhookResult false "payment_paid")) as -> by (change r with (d1, r).2; rewrite <- E; vm_compute; reflexivity).
  assert (shop_paid = d1) as -> by (unfold shop_paid; rewrite E; reflexivity).
  eapply (webhook_handled_once _ _ _ _ _ _ _ _ R E); [apply rtc_refl|reflexivity|reflexivity].
Defined.

(** ** What settles an order *)

(** C17: PAID WITH EVIDENCE. An order that a webhook turns to paid was open, is
    the one the event names, and the event was dispatched as a payment; exactly
    one payment row is added, new by id and by transaction: it is of this order,
    carries the event's channel and transaction, is paid, and records the
    event's amount rounded to cents. Unless the event is one of those exempt from
    the amount check, its currency is the order's up to case and its amount is
    not below the order's as the code compares them: both converted to cents by
    truncating a float64 product, which can lose a cent on either side. *)
Theorem paid_with_evidence c nb ids now e d k o o' : pay_reachable c d ->
  pd_orders d !! k = Some o -> po_Status o <> OrderPaid ->
  pd_orders (OnWebhook c nb ids now e d).1 !! k = Some o' -> po_Status o' = OrderPaid ->
  resolveBranch e = branchPaymentSuccess
  /\ po_Status o ∈ [OrderPending; OrderExpired; OrderCancelled]
  /\ lookupOrderByWebhookID (we_Channel e) (we_OrderID e) d = Some o
  /\ (we_SkipAmountCheck e = false ->
        toCents (major (po_Amount o)) <= toCents (we_Amount e) /\ EqualFold (we_Currency e) (po_Currency o) = true)
  /\ exists p, event_payment ids e o = Ok p /\ pd_payments d !! py_ID p = None
       /\ pd_payments (OnWebhook c nb ids now e d).1 = <[py_ID p := p]> (pd_payments d)
       /\ py_OrderID p = k /\ py_Channel p = we_Channel e /\ py_ExternalTxnID p = we_TransactionID e
       /\ py_Status p = PaymentPaid /\ to_numeric (we_Amount e) = Some (py_Amount p)
       /\ (forall j x, pd_payments d !! j = Some x -> py_Channel x = we_Channel e -> py_ExternalTxnID x <> we_TransactionID e).
Proof.
  intros I%pay_reachable_ok Ho Hn. unfold OnWebhook. destruct (negb _); [simpl; congruence|].
  destruct (InsertEvent _ _ _ d) as [[[row p] d1]|] eqn:Ei; [|simpl; congruence].
  assert (pd_orders d1 = pd_orders d /\ pd_payments d1 = pd_payments d) as [E1 E2]
    by (unfold InsertEvent in Ei; destruct (List.find _ _) as [[? ?]|]; by inv_ok).
  destruct p; [simpl; congruence|]. set (d2 := handle_event c nb ids now e d1).
  assert (forall r, pd_orders (match d2 with (d, Some err) => (d, Err err) | (d, None) => (MarkProcessed row d, Ok r) end).1
     = pd_orders d2.1) as ->%(fun H => H (mkWebhookResult false (domainAction (resolveBranch e)))) by (intros r; by destruct d2 as [? []]).
  assert (forall r, pd_payments (match d2 with (d, Some err) => (d, Err err) | (d, None) => (MarkProcessed row d, Ok r) end).1
     = pd_payments d2.1) as ->%(fun H => H (mkWebhookResult false (domainAction (resolveBranch e)))) by (intros r; by destruct d2 as [? []]).
  subst d2. intros Ho' Hp. rewrite <- E1 in Ho.
  destruct (decide (resolveBranch e = branchPaymentSuccess)) as [Hb|Hb].
  - unfold handle_event, in_pay_tx in *. rewrite Hb in *.
    destruct (onPaymentSucceeded c ids now e d1) as [d2|] eqn:Es; [|simpl in Ho'; congruence]. simpl in *.
    assert (money_ok d1) as I1 by (unfold money_ok; by rewrite E1, E2).
    destruct (onPaymentSucceeded_settles _ _ _ _ _ _ _ _ _ I1 Es Ho Hn Ho' Hp) as (H1 & H2 & H3 & H4).
    rewrite E2 in H4. split; [done|]. split; [|split; [|split; [|]]].
    + rewrite open_status_spec in H1. by bool_prop.
    + unfold lookupOrderByWebhookID in *. by rewrite E1 in H2.
    + intros [Ha Hc]%H3%orb_false_iff. split; [lia|by apply negb_false_iff].
    + destruct H4 as (p & Hev & Hid & Hins & Hnew). exists p. destruct (event_payment_fields _ _ _ _ Hev) as (F1 & F2 & F3 & F4 & F5).
      split_and!; try done. rewrite F1. by apply (mi_okey _ _ I1 _ _ Ho).
  - destruct (handle_event_stay c nb ids now e d1 Hb _ _ Ho Hn) as (x & Hx & Hxs). congruence.
Qed.

Lemma paid_with_evidence_witness :
  (po_Status <$> pd_orders shop_ordered !! "ord-m") = Some OrderPending
  /\ (po_Status <$> pd_orders (OnWebhook shop_settings (fun _ => None) (shop_ids "m") (shop_day 0)
        (paid_event "wx-1" "ord-m" 3000) shop_ordered).1 !! "ord-m") = Some OrderPaid
  /\ exists o, lookupOrderByWebhookID "wechat_pay" "ord-m" shop_ordered = Some o /\ toCents (major (po_Amount o)) <= 3000.
Proof.
  split; [vm_compute; reflexivity|]. split; [vm_compute; reflexivity|].
  destruct (pd_orders shop_ordered !! "ord-m") as [o|] eqn:E; [|exfalso; vm_compute in E; discriminate].
  assert (po_Status o <> OrderPaid) as Hn by (vm_compute in E; injection E as <-; discriminate).
  destruct (pd_orders (OnWebhook shop_settings (fun _ => None) (shop_ids "m") (shop_day 0)
        (paid_event "wx-1" "ord-m" 3000) shop_ordered).1 !! "ord-m") as [o'|] eqn:E'; [|exfalso; vm_compute in E'; discriminate].
  assert (po_Status o' = OrderPaid) as Hp by (vm_compute in E'; injection E' as <-; reflexivity).
  destruct (paid_with_evidence _ _ _ _ _ _ _ _ _ shop_ordered_reachable E Hn E' Hp) as (_ & _ & Hl & Ha & _).
  exists o. split; [exact Hl|]. destruct (Ha eq_refl) as [H _]. exact H.
Defined.

(** CONFIRMED WITH EVIDENCE. A confirmation settles the order the channel says was paid, in full, by
    this transaction, and touches no other order or payment. *)
Theorem confirmed_with_evidence c query ids now i d r d' : pay_reachable c d ->
  own_transaction (ci_Channel i) (ci_ExternalTxnID i) (ci_OrderID i) d -> Confirm c query ids now i d = Ok (r, d') ->
  exists o n a, pd_orders d !! ci_OrderID i = Some o /\ po_UserID o = ci_UserID i /\ ci_Channel i = "wechat_pay"
    /\ out_trade_no o = Some n /\ query n = Some (Some a) /\ qr_TradeState a = "SUCCESS" /\ qr_OutTradeNo a = n
    /\ qr_TransactionID a = ci_ExternalTxnID i /\ toCents (major (po_Amount o)) <= qr_Total a
    /\ EqualFold (qr_Currency a) (po_Currency o) = true
    /\ pd_orders d' = close_order OrderPaid (ci_OrderID i) (pd_orders d)
    /\ exists p, pd_payments d' !! cr_PaymentID r = Some p /\ pd_payments d' = <[cr_PaymentID r := p]> (pd_payments d)
       /\ py_OrderID p = ci_OrderID i /\ py_Channel p = ci_Channel i /\ py_ExternalTxnID p = ci_ExternalTxnID i
       /\ py_Status p <> PaymentFailed.
Proof.
  intros I%pay_reachable_ok Hown. unfold Confirm, confirm_checks, verifyConfirmPayment, verified_by. intros H.
  apply rbind_Ok in H as (o & Hc & H). destruct (negb (known_channel _)); [done|].
  destruct (pd_orders d !! ci_OrderID i) as [x|] eqn:Ex; [|done]. destruct (negb (bool_decide (po_UserID x = _))) eqn:Eu; [done|].
  destruct (bool_decide (po_Status x ∈ _)); [done|]. apply rbind_Ok in Hc as ([] & Hv & [= <-]).
  destruct (negb (String.eqb (ci_Channel i) _)) eqn:Ech; [done|]. destruct (negb (cfg_wechat c)); [done|].
  destruct (out_trade_no x) as [n|] eqn:En; [|done]. destruct (String.eqb n ""); [done|].
  destruct (query n) as [[a|]|] eqn:Eq; [|done..]. destruct (_ && _) eqn:Ea in Hv; [|done]. bool_prop.
  repeat match goal with H : String.eqb _ _ = true |- _ => apply String.eqb_eq in H end.
  pose proof (mi_okey _ _ I _ _ Ex) as Hk. exists x, n, a. do 10 (split; [done|]).
  destruct (confirm_tx_accounts _ _ _ _ _ _ _ _ I H) as (Ho & Hp). rewrite Hk in *. split; [done|].
  destruct Hp as (p & P1 & P2 & P3 & P4 & P5 & P6). exists p. split_and!; try done. destruct P6 as [->|P6]; [done|by apply Hown].
Qed.

(** The bill of the shop's month, as the channel answers it. *)
Definition shop_answer : OrderQueryResult := mkQueryResult "SUCCESS" "ordm" "wx-1" 3000 "CNY".
Definition shop_confirm : ConfirmInput := mkConfirm "ord-m" "user" "wechat_pay" "wx-1".
Definition shop_confirmed (day : Z) (d : PayDB) : payres (ConfirmResult * PayDB) :=
  Confirm shop_settings (fun _ => Some (Some shop_answer)) (shop_ids "c") (shop_day day) shop_confirm d.

Lemma confirmed_with_evidence_witness :
  exists r d', shop_confirmed 0 shop_ordered = Ok (r, d') /\ cr_ActivatedSubscription r = true
    /\ exists p, pd_payments d' !! cr_PaymentID r = Some p /\ py_OrderID p = "ord-m".
Proof.
  destruct (shop_confirmed 0 shop_ordered) as [[r d']|] eqn:E; [|exfalso; vm_compute in E; discriminate].
  exists r, d'. split; [reflexivity|]. split.
  { assert ((fun x => match x with Ok (r, _) => cr_ActivatedSubscription r | Err _ => false end) (shop_confirmed 0 shop_ordered) = true) as H
      by (vm_compute; reflexivity). rewrite E in H. exact H. }
  assert (own_transaction "wechat_pay" "wx-1" "ord-m" shop_ordered) as Ho by (intros p H; vm_compute in H; discriminate).
  destruct (confirmed_with_evidence shop_settings (fun _ => Some (Some shop_answer)) (shop_ids "c") (shop_day 0) shop_confirm
     shop_ordered r d' shop_ordered_reachable Ho E) as (o & n & a & _ & _ & _ & _ & _ & _ & _ & _ & _ & _ & _ & p & Hp & _ & Hpo & _).
  exists p. split; [exact Hp|exact Hpo].
Defined.

(** ** What a payment grants *)

Section expiry.
Context (now : instant) (o : Order) (product : string) (d : PayDB) (plan : PayPlan).
Hypothesis legacy : SnapshotOrderKind o = "".
Hypothesis plan_here : pd_plans d !! po_PlanID o = Some plan.
Let iv := intervalOf (SnapshotIntervalDays o) plan.
Hypothesis finite : 0 < iv <= maxIntervalDays.

Definition granted (hint : option instant) : instant :=
  match hint with Some t => Z.min t (now + interval iv) | None => now + interval iv end.

Lemma hint_candidate_exact hint : hint_candidate now (po_PlanID o) (SnapshotIntervalDays o) d hint
  = Ok ((fun _ => granted hint) <$> hint).
Proof.
  unfold hint_candidate, loadPlan, granted. destruct hint as [h|]; [|done]. rewrite plan_here. cbn [rbind]. fold iv.
  destruct (interval_exact iv finite) as [Hiv Hpos]. unfold add_days, time_add. rewrite Hiv.
  rewrite (proj2 (Z.ltb_lt 0 iv)), (proj2 (Z.ltb_ge maxIntervalDays iv)) by lia. simpl.
  do 2 f_equal. case_match; lia.
Qed.

(** C22: THE EXPIRY OF A PAYMENT. For an order of no coding-plan kind whose plan
    exists and has an interval between one day and the cap, paid for the first
    time: without a live subscription of the product the period ends one
    interval from now, or earlier, at the end the channel proposes (even one in
    the past); on a live subscription with an end it ends exactly one interval
    after that end, whatever the channel proposes; a live one without an end
    stays without one; and one on a plan with a longer interval blocks the
    payment's activation. *)
Theorem activation_expiry_exact hint :
  resolveOrderActivation now o product hint None d =
    match FindActiveByUserAndProduct (po_UserID o) product d with
    | Some s =>
        if unexpired now s then
          if match pd_plans d !! sb_PlanID s with Some old => iv <? pl_IntervalDays old | None => false end
          then Err ErrDowngradeActivationBlocked
          else Ok ((fun t => t + interval iv) <$> sb_ExpiresAt s)
        else Ok (Some (granted hint))
    | None => Ok (Some (granted hint))
    end.
Proof.
  unfold resolveOrderActivation, resolveSubExpiry. rewrite legacy, hint_candidate_exact.
  unfold rollover, fresh_period, loadPlan. rewrite plan_here. cbn [rbind String.eqb]. fold iv.
  destruct (interval_exact iv finite) as [Hiv Hpos]. unfold add_days, time_add. rewrite Hiv.
  rewrite (proj2 (Z.ltb_lt 0 iv)), (proj2 (Z.ltb_ge maxIntervalDays iv)), (proj2 (Z.leb_gt iv 0)) by lia.
  destruct (FindActiveByUserAndProduct _ _ d) as [s|]; [|by destruct hint].
  destruct (unexpired now s) eqn:Eu; [|by destruct hint]. unfold unexpired in Eu.
  destruct (match pd_plans d !! sb_PlanID s with Some _ => _ | None => _ end); [done|].
  destruct (sb_ExpiresAt s) as [t|]; [|done]. destruct hint as [h|]; [|done]. simpl. unfold granted.
  rewrite (proj2 (Z.ltb_lt _ _)) by lia. done.
Qed.
End expiry.

Lemma activation_expiry_exact_witness :
  (fun x => sb_ExpiresAt <$> FindActiveByUserAndProduct "user" "kaya-membership" x) shop_paid = Some (Some (shop_day 30))
  /\ forall o, pd_orders shop_paid !! "ord-m" = Some o ->
     resolveOrderActivation (shop_day 10) o "kaya-membership" None None shop_paid = Ok (Some (shop_day 60)).
Proof.
  split; [vm_compute; reflexivity|]. intros o Ho.
  assert (SnapshotOrderKind o = "" /\ po_PlanID o = "month" /\ intervalOf (SnapshotIntervalDays o) (mkPayPlan 3000 30 "kaya-membership" true true "CNY") = 30
    /\ po_UserID o = "user") as (H1 & H2 & H3 & H4) by (vm_compute in Ho; injection Ho as <-; repeat split).
  rewrite (activation_expiry_exact (shop_day 10) o "kaya-membership" shop_paid (mkPayPlan 3000 30 "kaya-membership" true true "CNY") H1).
  - rewrite H4, H3. vm_compute. reflexivity.
  - rewrite H2. vm_compute. reflexivity.
  - rewrite H3. vm_compute. split; [reflexivity|discriminate].
Defined.

(** ** Redelivery *)

(** C21: REDELIVERY KEEPS GRANTS. A transaction with a payment row is reported
    again, under whatever event, for an order of a product other than a top-up,
    while the user's active subscription of that product has an end that is
    still to come: no order and no payment changes, no subscription changes its
    user, plan, product, status or end, and, once the payment's message is in
    the outbox, none is added. (A live subscription without an end is not
    protected: lifetime_redelivery_switches_plan.) *)
Theorem redelivery_keeps_grants c ids now e d d' o old s t :
  let prod := resolveOrderProduct o d in
  pay_reachable c d -> subs_indexed d ->
  lookupOrderByWebhookID (we_Channel e) (we_OrderID e) d = Some o ->
  FindByChannelTxnID (we_Channel e) (we_TransactionID e) d = Some old -> prod <> ProductWalletTopup ->
  FindActiveByUserAndProduct (po_UserID o) prod d = Some s -> sb_ExpiresAt s = Some t -> now < t ->
  onPaymentSucceeded c ids now e d = Ok d' ->
  pd_orders d' = pd_orders d /\ pd_payments d' = pd_payments d
  /\ (forall k, sub_grant <$> pd_subs d' !! k = sub_grant <$> pd_subs d !! k)
  /\ (Some (PaidSyncDedupKey (py_ID old)) ∈ (px_DedupKey <$> pd_outbox d) -> pd_outbox d' = pd_outbox d).
Proof. intros prod R%pay_reachable_ok. by apply payment_again. Qed.

(** What the guard leaves out: the user has moved to a plan without an end, and
    the old monthly payment is reported again. *)
Definition shop_lifetime : PayDB :=
  let d := mkPayDB (pd_orders shop_paid) (pd_payments shop_paid) (pd_refunds shop_paid) (pd_subs shop_paid)
             (<["life" := mkPayPlan 90000 0 "kaya-membership" true true "CNY"]> shop_plans) ∅ ∅ (pd_events shop_paid) (pd_outbox shop_paid) (pd_audit shop_paid) in
  set_pd_subs {[ "sub-m" := mkPaySub "sub-m" "user" "life" "kaya-membership" SubActive None None (Some "wechat_pay") false (shop_day 0) (shop_day 0) ]} d.

Lemma lifetime_redelivery_switches_plan :
  match onPaymentSucceeded shop_settings (shop_ids "x") (shop_day 40) (paid_event "wx-1" "ord-m" 3000) shop_lifetime with
  | Ok d' => (fun s => (sb_PlanID s, sb_ExpiresAt s)) <$> pd_subs d' !! "sub-m"
  | Err _ => None
  end = Some ("month", None).
Proof. vm_compute. reflexivity. Qed.

Definition shop_sub : Subscription :=
  mkPaySub "sub-m" "user" "month" "kaya-membership" SubActive (Some (shop_day 30)) None (Some "wechat_pay") false
    (shop_day 0) (shop_day 0).

Lemma shop_subs : pd_subs shop_paid = {[ "sub-m" := shop_sub ]}.
Proof. vm_compute. reflexivity. Qed.

Lemma shop_indexed : subs_indexed shop_paid.
Proof.
  unfold subs_indexed. rewrite shop_subs. split.
  - by intros k s [<- <-]%lookup_singleton_Some.
  - by intros k s k' s' u p [<- <-]%lookup_singleton_Some [<- <-]%lookup_singleton_Some.
Qed.

Definition shop_redelivered : payres PayDB :=
  onPaymentSucceeded shop_settings (shop_ids "x") (shop_day 10) (paid_event "wx-1" "ord-m" 3000) shop_paid.

Lemma redelivery_keeps_grants_witness :
  exists d', shop_redelivered = Ok d' /\ pd_payments d' = pd_payments shop_paid
    /\ (sub_grant <$> pd_subs d' !! "sub-m") = Some (sub_grant shop_sub).
Proof.
  destruct shop_redelivered as [d'|] eqn:E; [|exfalso; vm_compute in E; discriminate].
  exists d'. split; [reflexivity|].
  destruct (lookupOrderByWebhookID "wechat_pay" "ord-m" shop_paid) as [o|] eqn:Eo; [|exfalso; vm_compute in Eo; discriminate].
  destruct (FindByChannelTxnID "wechat_pay" "wx-1" shop_paid) as [old|] eqn:Ep; [|exfalso; vm_compute in Ep; discriminate].
  assert (resolveOrderProduct o shop_paid = "kaya-membership") as Hprod by (vm_compute in Eo; injection Eo as <-; vm_compute; reflexivity).
  assert (po_UserID o = "user") as Hu by (vm_compute in Eo; injection Eo as <-; reflexivity).
  destruct (redelivery_keeps_grants shop_settings (shop_ids "x") (shop_day 10) (paid_event "wx-1" "ord-m" 3000) shop_paid d' o old
     shop_sub (shop_day 30) shop_paid_reachable shop_indexed Eo Ep) as (_ & H & Hg & _).
  - rewrite Hprod. discriminate.
  - rewrite Hprod, Hu. vm_compute. reflexivity.
  - reflexivity.
  - vm_compute. reflexivity.
  - exact E.
  - split; [exact H|]. rewrite Hg, shop_subs. reflexivity.
Defined.

(** ** What goes to the entitlements and the wallet *)

(** C18: GRANTS ARE BACKED BY PAYMENTS. A message that grants something comes from a payment of the order it names,
    which is no longer open; a wallet is credited with the order's amount, in its currency; and no
    key, so no payment, is sent twice. *)
Theorem grants_backed c d : pay_reachable c d ->
  (forall r orderID userID paymentID, r ∈ pd_outbox d ->
     match px_Payload r with
     | WalletMessage m => wm_Kind m = "topup" /\ wm_OrderID m = orderID /\ wm_UserID m = userID /\ wm_PaymentID m = paymentID
     | BenefitMessage m => sm_Reason m ∈ ["payment_paid"; "renewal_paid"] /\ sm_OrderID m = orderID /\ sm_UserID m = userID
                           /\ sm_PaymentID m = paymentID
     end ->
     px_DedupKey r = Some (match px_Payload r with WalletMessage _ => WalletTopupDedupKey | BenefitMessage _ => PaidSyncDedupKey end
                             paymentID)
     /\ exists o p, pd_orders d !! orderID = Some o /\ po_UserID o = userID /\ open_status (po_Status o) = false
          /\ pd_payments d !! paymentID = Some p /\ py_OrderID p = orderID
          /\ match px_Payload r with
             | WalletMessage m => walletTopupMicros (major (po_Amount o)) (po_Currency o) = Ok (wm_AmountMicros m)
                                  /\ wm_Currency m = po_Currency o
             | BenefitMessage _ => True
             end)
  /\ NoDup (omap px_DedupKey (pd_outbox d)).
Proof.
  intros R. pose proof (pay_reachable_ok _ _ R) as I. pose proof (pay_reachable_backed _ _ R) as B.
  split; [|apply (pay_reachable_keys _ _ R)]. unfold outbox_backed in B. rewrite Forall_forall in B.
  intros r x u y Hr Hm. specialize (B r Hr). unfold backed in B.
  destruct (px_Payload r) as [m|m]; destruct Hm as (Hk & <- & <- & <-); destruct (B Hk) as [Hd H]; (split; [exact Hd|]);
    exact (order_payment_rows _ _ _ _ _ I H).
Qed.

Lemma grants_backed_witness :
  exists r m, r ∈ pd_outbox shop_paid /\ px_Payload r = WalletMessage m /\ wm_AmountMicros m = 10000000
    /\ exists o, pd_orders shop_paid !! "ord-t" = Some o /\ po_UserID o = "user".
Proof.
  destruct (pd_outbox shop_paid) as [|r l] eqn:E; [exfalso; vm_compute in E; discriminate|].
  destruct (px_Payload r) as [m|m] eqn:Em; [exfalso; vm_compute in E; injection E as <- <-; discriminate|].
  assert (r ∈ pd_outbox shop_paid) as Hr by (rewrite E; left).
  exists r, m. split; [rewrite <- E; exact Hr|]. split; [exact Em|].
  assert (wm_AmountMicros m = 10000000 /\ wm_Kind m = "topup" /\ wm_OrderID m = "ord-t" /\ wm_UserID m = "user" /\ wm_PaymentID m = "pay-t")
    as (H0 & H1 & H2 & H3 & H4) by (vm_compute in E; injection E as <- <-; injection Em as <-; repeat split).
  split; [exact H0|]. destruct (grants_backed _ _ shop_paid_reachable) as [H _].
  destruct (H r "ord-t" "user" "pay-t" Hr) as (_ & o & p & Ho & Hu & _); [rewrite Em; repeat split; assumption|].
  exists o. split; [exact Ho|exact Hu].
Defined.

(** Once the subscription has lapsed, the same confirmation grants a new period
    for the old payment. *)
Theorem confirm_replay_regrants :
  exists r d', shop_confirmed 40 shop_paid = Ok (r, d')
    /\ pd_payments d' = pd_payments shop_paid
    /\ sb_ExpiresAt <$> pd_subs d' !! "sub-m" = Some (Some (shop_day 70)).
Proof. eexists _, _. split; [vm_compute; reflexivity|]. split; vm_compute; reflexivity. Qed.

(** ** Cents *)

(** Whole cents survive the way through [float64] up to the one cent that
    [toCents] truncates away. *)
Theorem toCents_loses_at_most_a_cent c : 0 <= c < 1000 -> c - 1 <= toCents (major c) <= c.
Proof.
  intros Hc.
  assert (forallb (fun c => (c - 1 <=? toCents (major c)) && (toCents (major c) <=? c)) (seqZ 0 1000) = true) as H
    by (vm_compute; reflexivity).
  rewrite forallb_forall in H. specialize (H c). rewrite <- list_elem_of_In, elem_of_seqZ in H.
  specialize (H ltac:(lia)). bool_prop. lia.
Qed.

(** One refund of a payment. *)
Definition refunded_once (cents : Z) : PayDB :=
  set_pd_refunds {[ "r1" := mkRefund "r1" "p1" "paypal" "user" cents "k1" None RefundPaid ]} shop_open.
Definition paid_row (cents : Z) : Payment := mkPayment "p1" "ord-m" "paypal" "txn" cents "USD" PaymentPaid false.

(** The lost cent: two refunds of 0.29 fit a payment of 0.57, while 0.28 and 0.30
    do not fit 0.58, and 0.28 settles an order of 0.29. *)
Theorem refunds_exceed_payment :
  (sumRefunds "p1" [RefundPaid; RefundPending] (refunded_once 29) = 29
   /\ refund_fits (paid_row 57) (major 29) (refunded_once 29) = true)
  /\ refund_fits (paid_row 58) (major 30) (refunded_once 28) = false
  /\ forall o, po_Amount o = 29 -> po_Currency o = "CNY" -> under_paid (paid_event "wx-1" "ord-m" 28) o = false.
Proof.
  split; [by vm_compute|]. split; [by vm_compute|]. intros o Ha Hc. unfold under_paid. rewrite Ha, Hc. by vm_compute.
Qed.
