(* ===== verification/WalletSync.v ===== *)
(** * WalletSync: the worker that books payments in the wallet

    [internal/inference/workers/wallet_sync.go] over the message contract of
    [access/wallet_sync.go] and the outbox of [postgres/outbox_repo.go]: each
    pending [wallet.sync] message becomes one movement of cash, in one
    transaction with its delivery mark; a message whose movement is already
    booked is marked delivered in a transaction of its own; anything else is
    put off with a growing delay. What the clock, the generated ids, the
    connection and the commits do is drawn from [WalletSyncEnv]. *)

From Stdlib Require Import ZArith Lia Bool.
From stdpp Require Import base gmap strings list relations.
From S2P Require Import Prelude Domain Money Calendar Window WalletRules Entitlements EntitlementStore BenefitSync.
From S2P Require Import PayTables Activation Tables RequestStore QuotaStore WalletStore.

Local Open Scope Z_scope.
Local Open Scope go_scope.

Definition WalletSyncTopup : string := "topup".
Definition WalletSyncRefund : string := "refund".

(** ** The store as the worker sees it *)

(** An [inference_outbox] row; a payload that does not decode is [None]. *)
Record OutboxRow := mkOutboxRow {
  ox_ID : Z;
  ox_Topic : string;
  ox_Payload : option PayMessage;
  ox_DedupKey : option string;
  ox_Status : OutboxStatus;
  ox_Attempts : Z;
  ox_NextRetryAt : option instant;
}.

(** The accounting store, [inference_billing_accounts] by its unique user, and
    the outbox in the order of its ids. *)
Record WalletSyncDB := mkWalletSync {
  ws_db : DB;
  ws_users : gmap string string;
  ws_outbox : list OutboxRow;
}.

Definition set_ws_db (db : DB) (s : WalletSyncDB) : WalletSyncDB := mkWalletSync db (ws_users s) (ws_outbox s).
Definition set_ws_outbox (l : list OutboxRow) (s : WalletSyncDB) : WalletSyncDB := mkWalletSync (ws_db s) (ws_users s) l.

Definition FetchPendingOutboxByTopic (topic : string) (limit : Z) (now : instant) (s : WalletSyncDB) : list OutboxRow :=
  let limit := if limit <=? 0 then 100 else limit in
  firstn (Z.to_nat limit)
    (List.filter (fun r => bool_decide (ox_Status r = OutboxPending)
        && match ox_NextRetryAt r with Some t => t <=? now | None => true end
        && (bool_decide (topic = "") || bool_decide (ox_Topic r = topic))) (ws_outbox s)).

Definition row_delivered (r : OutboxRow) : OutboxRow :=
  mkOutboxRow (ox_ID r) (ox_Topic r) (ox_Payload r) (ox_DedupKey r) OutboxDelivered (ox_Attempts r) (ox_NextRetryAt r).
Definition row_put_off (at_ : instant) (r : OutboxRow) : OutboxRow :=
  mkOutboxRow (ox_ID r) (ox_Topic r) (ox_Payload r) (ox_DedupKey r) (ox_Status r) (ox_Attempts r + 1) (Some at_).

Definition on_row (id : Z) (f : OutboxRow -> OutboxRow) (s : WalletSyncDB) : WalletSyncDB :=
  set_ws_outbox (map (fun r => if ox_ID r =? id then f r else r) (ws_outbox s)) s.

Definition MarkOutboxDeliveredTx (id : Z) (s : WalletSyncDB) : WalletSyncDB := on_row id row_delivered s.
Definition MarkOutboxFailed (id : Z) (nextRetry : instant) (s : WalletSyncDB) : WalletSyncDB :=
  on_row id (row_put_off nextRetry) s.

(** INSERT ... ON CONFLICT (user_id) DO NOTHING, else the row that is there. *)
Definition EnsureBillingAccount (newID userID : string) (s : WalletSyncDB) : res (string * WalletSyncDB) :=
  match ws_users s !! userID with
  | Some id => Ok (id, s)
  | None =>
      let? m := insert_row newID BillingAccountActive (accounts (ws_db s)) in
      Ok (newID, mkWalletSync (set_accounts m (ws_db s)) (<[userID := newID]> (ws_users s)) (ws_outbox s))
  end.

(** ** One message *)

(** What one message draws from outside. *)
Record WalletSyncEnv := mkWalletEnv {
  (** the worker's clock when it puts the message off *)
  wv_clock : instant;
  (** the database's [now()] and the ids it generates *)
  wv_now : instant;
  wv_accountID : string;
  wv_walletID : string;
  (** a failure of the account statement *)
  wv_account : option error;
  wv_begin : option error;
  (** the connection is lost while the movement is written *)
  wv_lost : bool;
  (** the delivery mark goes through, then the commit *)
  wv_mark : bool;
  wv_commit : CommitOutcome;
  (** the same for the transaction that marks a replayed message *)
  wv_begin_replay : bool;
  wv_mark_replay : bool;
  wv_commit_replay : CommitOutcome;
  (** whether the statement that puts the message off goes through *)
  wv_marks : bool;
}.

Record WalletSyncStats := mkStats {
  st_Fetched : Z;
  st_Credited : Z;
  st_Refunded : Z;
  st_Replays : Z;
  st_Failed : Z;
  st_Delivered : Z;
}.

Definition count_failed (st : WalletSyncStats) : WalletSyncStats :=
  mkStats (st_Fetched st) (st_Credited st) (st_Refunded st) (st_Replays st) (st_Failed st + 1) (st_Delivered st).
Definition count_delivered (st : WalletSyncStats) : WalletSyncStats :=
  mkStats (st_Fetched st) (st_Credited st) (st_Refunded st) (st_Replays st) (st_Failed st) (st_Delivered st + 1).
Definition count_replay (st : WalletSyncStats) : WalletSyncStats :=
  mkStats (st_Fetched st) (st_Credited st) (st_Refunded st) (st_Replays st + 1) (st_Failed st) (st_Delivered st).
Definition count_applied (kind : string) (st : WalletSyncStats) : WalletSyncStats :=
  if String.eqb kind WalletSyncTopup
  then mkStats (st_Fetched st) (st_Credited st + 1) (st_Refunded st) (st_Replays st) (st_Failed st) (st_Delivered st)
  else mkStats (st_Fetched st) (st_Credited st) (st_Refunded st + 1) (st_Replays st) (st_Failed st) (st_Delivered st).

(** A payload of another topic has none of the fields the worker requires. *)
Definition decode (payload : option PayMessage) : option WalletSyncMessage :=
  match payload with Some (WalletMessage m) => Some m | _ => None end.

Definition malformed (m : WalletSyncMessage) : bool :=
  (wm_AmountMicros m <=? 0) || String.eqb (wm_Currency m) "" || String.eqb (wm_UserID m) ""
  || String.eqb (wm_PaymentID m) "".

Definition reschedule (cfg : EntitlementSyncConfig) (env : WalletSyncEnv) (msg : OutboxRow) (s : WalletSyncDB)
  : WalletSyncDB :=
  if wv_marks env
  then MarkOutboxFailed (ox_ID msg) (time_add (wv_clock env) (backoff cfg (ox_Attempts msg))) s
  else s.

(** The mark and the commit of a transaction that has written [s']: the state
    after it and whether the worker saw it succeed. *)
Definition finish (mark : bool) (commit : CommitOutcome) (id : Z) (s' s : WalletSyncDB) : WalletSyncDB * bool :=
  if mark then
    match commit with
    | Committed => (MarkOutboxDeliveredTx id s', true)
    | CommitFailed _ persisted => (if persisted then MarkOutboxDeliveredTx id s' else s, false)
    end
  else (s, false).

Definition markDeliveredAfterReplay (cfg : EntitlementSyncConfig) (env : WalletSyncEnv) (msg : OutboxRow)
    (s : WalletSyncDB) : WalletSyncDB :=
  let '(s, ok) := if wv_begin_replay env then finish (wv_mark_replay env) (wv_commit_replay env) (ox_ID msg) s s
                  else (s, false) in
  if ok then s else reschedule cfg env msg s.

(** The movement a message asks for. *)
Definition movement (env : WalletSyncEnv) (accountID : string) (m : WalletSyncMessage) (db : DB) : res DB :=
  if String.eqb (wm_Kind m) WalletSyncTopup then
    if wv_lost env then db_fail OtherDbError else
    CreditTopupTx (wv_walletID env) (wv_now env)
      (mkTopup accountID (wm_Currency m) (wm_AmountMicros m) (wm_PaymentID m) (wm_OrderID m)) db
  else if String.eqb (wm_Kind m) WalletSyncRefund then
    if String.eqb (wm_RefundID m) "" then Err (NewError CodeInvalidInput) else
    if wv_lost env then db_fail OtherDbError else
    RefundWalletTx (wv_now env)
      (mkRefund accountID (wm_Currency m) (wm_AmountMicros m) (wm_RefundID m) (wm_PaymentID m)) db
  else Err (NewError CodeInvalidInput).

Definition processMessage (cfg : EntitlementSyncConfig) (env : WalletSyncEnv) (msg : OutboxRow)
    (st : WalletSyncStats) (s : WalletSyncDB) : WalletSyncDB * WalletSyncStats :=
  match decode (ox_Payload msg) with
  | None => (reschedule cfg env msg s, count_failed st)
  | Some wm =>
      if malformed wm then (reschedule cfg env msg s, count_failed st) else
      match (match wv_account env with Some e => Err e | None => EnsureBillingAccount (wv_accountID env) (wm_UserID wm) s end) with
      | Err _ => (reschedule cfg env msg s, count_failed st)
      | Ok (accountID, s) =>
          match wv_begin env with
          | Some _ => (reschedule cfg env msg s, count_failed st)
          | None =>
              match movement env accountID wm (ws_db s) with
              | Err e =>
                  if bool_decide (CodeOf e = CodeConflict)
                  then (markDeliveredAfterReplay cfg env msg s, count_delivered (count_replay st))
                  else (reschedule cfg env msg s, count_failed st)
              | Ok db =>
                  let st := count_applied (wm_Kind wm) st in
                  let '(s, ok) := finish (wv_mark env) (wv_commit env) (ox_ID msg) (set_ws_db db s) s in
                  if ok then (s, count_delivered st) else (reschedule cfg env msg s, count_failed st)
              end
          end
      end
  end.

(** One batch, fetched once; [others]: what commits before each message. *)
Fixpoint process_batch (cfg : EntitlementSyncConfig) (env : nat -> WalletSyncEnv) (others : nat -> WalletSyncDB -> WalletSyncDB)
    (i : nat) (msgs : list OutboxRow) (st : WalletSyncStats) (s : WalletSyncDB) : WalletSyncDB * WalletSyncStats :=
  match msgs with
  | [] => (s, st)
  | m :: msgs =>
      let '(s, st) := processMessage cfg (env i) m st (others i s) in
      process_batch cfg env others (S i) msgs st s
  end.

(** [fetch]: whether the fetch goes through. *)
Definition RunPass (cfg : EntitlementSyncConfig) (fetch : bool) (now : instant) (env : nat -> WalletSyncEnv)
    (others : nat -> WalletSyncDB -> WalletSyncDB) (s : WalletSyncDB) : WalletSyncDB * res WalletSyncStats :=
  let cfg := withDefaults cfg in
  if fetch then
    let msgs := FetchPendingOutboxByTopic TopicWalletSync (cf_BatchLimit cfg) now s in
    let '(s, st) := process_batch cfg env others 0 msgs (mkStats (Z.of_nat (length msgs)) 0 0 0 0 0) s in
    (s, Ok st)
  else (s, db_fail OtherDbError).
