(* ===== verification/WalletSyncProps.v ===== *)
(** * WalletSyncProps: what the wallet worker books

    The worker and everything else that touches its tables as a step relation,
    the correspondence of delivered messages and booked entries, and its
    composition with the payment service, which writes the messages. *)

From Stdlib Require Import ZArith Lia Bool.
From stdpp Require Import base gmap strings list relations.
From S2P Require Import Prelude Domain Money Calendar Window WalletRules Entitlements EntitlementStore BenefitRules BenefitSync.
From S2P Require Import Amounts PayTables Activation Payments Orders PayFrames PayInv PayProps.
From S2P Require Import Tables RequestStore QuotaStore WalletStore LedgerStore Conservation StoreInv LeaseStore.
From S2P Require Import StoreSteps WalletProps WalletSync.

Local Open Scope Z_scope.
Local Open Scope go_scope.

(** ** The ledger between two messages *)

Definition payment_key (k : string) : Prop := (exists p, k = WalletTopupKey p) \/ (exists r, k = WalletRefundKey r).

(** Nothing new is booked under the key of a payment or a refund. *)
Definition books_no_payment (db db' : DB) : Prop :=
  exists l, entries db' = entries db ++ l /\ Forall (fun e => ~ payment_key (we_BusinessKey e)) l.

#[global] Instance books_no_payment_preorder : PreOrder books_no_payment.
Proof.
  split; [intros db; exists []; by rewrite app_nil_r|].
  intros d1 d2 d3 (l1 & H1 & F1) (l2 & H2 & F2). exists (l1 ++ l2). rewrite H2, H1, app_assoc. split; [done|]. by apply Forall_app.
Qed.

Lemma books_none db db' : entries db' = entries db -> books_no_payment db db'.
Proof. intros H. exists []. by rewrite H, app_nil_r. Qed.

Lemma books_one db db' e : entries db' = entries db ++ [e] -> ~ payment_key (we_BusinessKey e) -> books_no_payment db db'.
Proof. intros H Hk. exists [e]. split; [done|]. by constructor. Qed.

Lemma other_keys : (forall r s, ~ payment_key (WalletConsumeKey r s)) /\ (forall k, ~ payment_key (WalletAdjustmentKey k))
  /\ (forall i, ~ payment_key (WalletReversalKey i)).
Proof. split_and!; intros *; intros [[x H]|[x H]]; discriminate H. Qed.

Lemma write_consume_books h cur now src m db db' : write_consume h cur now src m db = Ok db' -> books_no_payment db db'.
Proof.
  unfold write_consume. intros H. destruct (m =? 0); [injection H as <-; reflexivity|].
  apply rbind_Ok in H as (mm & _ & H). apply rbind_Ok in H as ([] & _ & ->%insert_entry_frame).
  eapply books_one; [reflexivity|apply other_keys].
Qed.

Lemma settleWalletLocked_books rid charge now db db' : settleWalletLocked rid charge now db = Ok db' ->
  books_no_payment db db'.
Proof.
  unfold settleWalletLocked. intros H. destruct (find_hold rid db) as [h|]; [|done].
  apply rbind_Ok in H as (w & _ & H). destruct (bool_decide _) in H; [|done].
  apply rbind_Ok in H as ([[cc cb] ec] & _ & H).
  apply rbind_Ok in H as (d1 & H1%write_consume_books & H). apply rbind_Ok in H as (d2 & H2%write_consume_books & H).
  destruct (bool_decide _) in H; [|done]. injection H as <-. etrans; [exact H1|exact H2].
Qed.

Lemma SetOverageTx_entries newID acc cur en lim by_ db w db' :
  SetOverageTx newID acc cur en lim by_ db = Ok (w, db') -> entries db' = entries db.
Proof.
  unfold SetOverageTx. intros H. apply rbind_Ok in H as ([] & _ & H). apply rbind_Ok in H as ([] & _ & H).
  apply rbind_Ok in H as ([[w0 b] db1] & F%getOrCreateWalletLocked_frame & H).
  apply rbind_Ok in H as (w1 & _ & H). inv_ok. by rewrite F.
Qed.

Lemma ApplyWalletAdjustmentTx_entry w a now cmd adj db db' : ApplyWalletAdjustmentTx w a now cmd db = Ok (adj, db') ->
  exists e, entries db' = entries db ++ [e] /\ we_BusinessKey e = WalletAdjustmentKey (wj_IdempotencyKey cmd).
Proof.
  unfold ApplyWalletAdjustmentTx. cbv zeta. intros H. destruct (_ || _) in H; [done|].
  apply rbind_Ok in H as (m & _ & H). destruct (_ <=? _) in H; [done|].
  apply rbind_Ok in H as ([] & _ & H). apply rbind_Ok in H as ([] & _ & H).
  apply rbind_Ok in H as ([[w0 b] db1] & F%getOrCreateWalletLocked_frame & H).
  apply rbind_Ok in H as (w1 & _ & H). apply rbind_Ok in H as (db2 & (F2 & _)%insert_adjustment_frame & H).
  apply rbind_Ok in H as (db3 & F3%insert_entry_frame & H). injection H as _ <-.
  assert (entries db2 = entries db) as He by (by rewrite F2, F). eexists. rewrite F3. simpl. rewrite He. by split.
Qed.

Lemma ReverseWalletEntryTx_entry acc eid op now db db' : ReverseWalletEntryTx acc eid op now db = Ok db' ->
  exists e, entries db' = entries db ++ [e] /\ we_BusinessKey e = WalletReversalKey eid.
Proof.
  unfold ReverseWalletEntryTx. intros H. apply rbind_Ok in H as ([] & _ & H).
  destruct (List.find _ _) as [orig|] in H; [|done].
  apply rbind_Ok in H as (w & _ & H). destruct (bool_decide _) in H; [|done].
  apply rbind_Ok in H as (m & _ & H). apply rbind_Ok in H as (rev & _ & H).
  apply rbind_Ok in H as (w' & _ & H%insert_entry_frame). rewrite H. by eexists.
Qed.

(** Payments and refunds are booked by their own two transactions only. *)
Lemma store_step_books db db' : store_step db db' ->
  books_no_payment db db' \/ (exists id now cmd, CreditTopupTx id now cmd db = Ok db')
  \/ (exists now cmd, RefundWalletTx now cmd db = Ok db').
Proof.
  intros [(H & _)|[[n a c en l b w H|n now cmd H|now cmd H|w a now cmd adj H|acc eid op now H]
    |[(h & rv & now & cmd & adm & H)|[(rid & b & now & H)|(cmd & now & Hr & H)]]]]%step_cases; eauto 8; left.
  - by apply books_none.
  - apply SetOverageTx_entries in H. by apply books_none.
  - apply ApplyWalletAdjustmentTx_entry in H as (e & H & He). eapply books_one; [exact H|]. rewrite He. apply other_keys.
  - apply ReverseWalletEntryTx_entry in H as (e & H & He). eapply books_one; [exact H|]. rewrite He. apply other_keys.
  - apply ReserveWallet_Ok in H as (_ & ? & ? & ? & ? & ? & ? & ? & _ & _ & _ & _ & _ & _ & _ & _ & _ & _ & _ & _ & Hrv).
    apply insert_reservation_Ok in Hrv as (_ & _ & _ & _ & _ & _ & _ & ->). by apply books_none.
  - apply release_same_holds in H as [H _]. by apply books_none.
  - apply Settle_wallet in H as (r & _ & H). destruct (bool_decide _); [|destruct H as [_ H]; by apply books_none].
    destruct H as (charge & d1 & d2 & _ & (l & Hl & Hf)%settleWalletLocked_books & _ & He1 & _ & He).
    exists l. by rewrite He, Hl, He1.
Qed.

(** ** Whose wallet *)

Definition wallets_keyed (db : DB) : Prop := forall id w, wallets db !! id = Some w -> wa_ID w = id.

(** Wallets stay under their id, with their account and currency. *)
Definition owners_keep (db db' : DB) : Prop :=
  wallets_keyed db -> wallets_keyed db' /\
  forall id w, wallets db !! id = Some w -> exists w', wallets db' !! id = Some w'
    /\ wa_BillingAccountID w' = wa_BillingAccountID w /\ wa_Currency w' = wa_Currency w.

#[global] Instance owners_keep_preorder : PreOrder owners_keep.
Proof.
  split; [intros db H; split; [done|]; intros id w Hw; by exists w|]. intros a b c H K Ka.
  destruct (H Ka) as [Kb H']. destruct (K Kb) as [Kc K']. split; [done|]. intros id w Hw.
  destruct (H' _ _ Hw) as (x & Hx & ? & ?). destruct (K' _ _ Hx) as (y & Hy & ? & ?). exists y. split_and!; congruence.
Qed.

Lemma owners_same db db' : wallets db' = wallets db -> owners_keep db db'.
Proof. unfold owners_keep, wallets_keyed. intros -> H. eauto. Qed.

Lemma settleWalletLocked_wallets rid charge now db db' : settleWalletLocked rid charge now db = Ok db' -> wallets db' = wallets db.
Proof. intros ->%settleWalletLocked_frame. done. Qed.

Lemma Settle_wallets cmd now db db' : Settle cmd now db = Ok db' -> wallets db' = wallets db.
Proof.
  unfold Settle, select_one. intros H. destruct (_ <? _) in H; [done|].
  destruct (requests db !! sc_RequestID cmd) as [r|]; [|done]. simpl in H.
  destruct (finalized r); [done|]. destruct (bool_decide _).
  - unfold settleWallet in H. destruct (_ <? _) in H; [done|].
    apply rbind_Ok in H as (db1 & [F1 _]%insertUsageRecord_frame & H).
    apply rbind_Ok in H as (charge & _ & H). destruct (_ =? _) in H; [|done].
    apply rbind_Ok in H as (db2 & [F2 _]%insert_ledger_Ok & H).
    apply rbind_Ok in H as (db3 & H3%settleWalletLocked_wallets & H). apply rbind_Ok in H as (db4 & H4 & H).
    apply rbind_Ok in H as (db5 & F5%settle_attempt_cost_frame & H6).
    unfold settle_wallet_reservation in H4. destruct (rows _ _) in H4; [done|]. injection H4 as F4.
    unfold settle_request in H6. apply rbind_Ok in H6 as ([] & _ & [= F6]).
    rewrite <- F6. simpl. rewrite F5. simpl. rewrite <- F4. simpl. by rewrite H3, F2, F1.
  - unfold settlePlan in H. apply rbind_Ok in H as (db1 & [F1 _]%insertUsageRecord_frame & H).
    apply rbind_Ok in H as (db2 & [F2 _]%insert_ledger_Ok & H). destruct (bool_decide _) in H; [done|].
    apply rbind_Ok in H as (db3 & H3 & H). apply rbind_Ok in H as (db4 & F4%settle_attempt_cost_frame & H5).
    unfold settle_request in H5. apply rbind_Ok in H5 as ([] & _ & [= F5]).
    assert (quiet db2 db3) as (_ & _ & _ & Hw).
    { eapply rfold_rel; [intros ?; reflexivity|intros ???; by etrans| |exact H3]. intros. by eapply settle_one_quiet. }
    rewrite <- F5. simpl. rewrite F4. simpl. by rewrite Hw, F2, F1.
Qed.

Lemma releaseLocked_wallets rid b now db db' : releaseLocked rid b now db = Ok db' -> wallets db' = wallets db.
Proof.
  unfold releaseLocked. intros H. apply rbind_Ok in H as (r & _ & H). apply rbind_Ok in H as ([] & _ & H).
  destruct (_ || _) in H; [done|]. destruct (_ && _) in H; [done|]. destruct (bool_decide _) in H; [done|].
  apply rbind_Ok in H as (db1 & H1 & H). apply rbind_Ok in H as (db2 & H2 & H3).
  assert (wallets db1 = wallets db) as <-.
  { eapply (rfold_rel (fun d d' => wallets d' = wallets d)); [done|congruence| |exact H1].
    intros rv d d' _ Ho. unfold release_one in Ho. apply rbind_Ok in Ho as (d1 & Hd & Hf).
    apply flip_reservation_Ok in Hf as (rv' & _ & _ & ->).
    by apply release_target_Ok in Hd as [(? & ? & _ & _ & _ & ->)|[(? & ? & _ & _ & _ & ->)|(_ & _ & hs & ->)]]. }
  assert (wallets db2 = wallets db1) as <-.
  { destruct (five_hour_of _); [|by injection H2 as ->].
    by apply voidUnused_Ok in H2 as [->|(w & _ & _ & _ & _ & _ & ->)]. }
  unfold updateRequestStatus in H3. destruct (_ !! _) in H3; [|done]. injection H3 as <-. by destruct b.
Qed.

Lemma find_wallet_Some acc cur db w : find_wallet acc cur db = Some w -> wallets_keyed db ->
  wallets db !! wa_ID w = Some w /\ wa_BillingAccountID w = acc /\ wa_Currency w = cur.
Proof.
  unfold find_wallet, rows. intros H%head_Some_elem_of K. apply list_elem_of_In, List.filter_In in H as [Hin Hp].
  apply list_elem_of_In, list_elem_of_fmap in Hin as ([id w'] & -> & Hin). apply elem_of_map_to_list in Hin. simpl in *.
  bool_prop. rewrite (K _ _ Hin). by split_and!.
Qed.

(** The wallet found or created is the row under its id. *)
Lemma getOrCreateWalletLocked_owners newID acc cur by_ db w b db' :
  getOrCreateWalletLocked newID acc cur by_ db = Ok (w, b, db') -> wallets_keyed db ->
  owners_keep db db' /\ wallets db' !! wa_ID w = Some w /\ wa_BillingAccountID w = acc /\ wa_Currency w = cur.
Proof.
  unfold getOrCreateWalletLocked. intros H K. apply rbind_Ok in H as ([] & _ & H).
  destruct (find_wallet acc cur db) as [x|] eqn:Hf.
  - inv_ok. split; [reflexivity|]. by apply find_wallet_Some.
  - inv_ok. apply insert_row_Ok in E as [Hn ->]. simpl. rewrite lookup_insert_eq. split; [|done].
    intros _. split.
    + intros id x. simpl. intros [[<- <-]|[_ Hx]]%lookup_insert_Some; [done|]. by apply K.
    + intros id x Hx. exists x. split; [|done]. simpl. rewrite lookup_insert_ne by congruence. done.
Qed.

(** What the two payment transactions write. *)
Lemma CreditTopupTx_Ok newID now cmd db db' : CreditTopupTx newID now cmd db = Ok db' -> wallets_keyed db ->
  owners_keep db db' /\ exists e w, entries db' = entries db ++ [e] /\ we_BusinessKey e = WalletTopupKey (wt_PaymentID cmd)
    /\ we_AmountMicros e = wt_AmountMicros cmd /\ we_Currency e = wt_Currency cmd /\ we_Direction e = DirCredit
    /\ we_Source e = WalletCash /\ wallets db' !! we_WalletID e = Some w /\ wa_BillingAccountID w = wt_AccountID cmd.
Proof.
  unfold CreditTopupTx. intros H K. apply rbind_Ok in H as (m & Hm & H). destruct (_ <=? _) in H; [done|].
  apply rbind_Ok in H as ([] & _ & H). apply rbind_Ok in H as ([] & _ & H).
  apply rbind_Ok in H as ([[w0 b] db1] & Hg & H). pose proof (getOrCreateWalletLocked_frame _ _ _ _ _ _ _ _ Hg) as F.
  apply getOrCreateWalletLocked_owners in Hg as (Ho & Hw & Ha & Hc); [|done].
  apply rbind_Ok in H as (w1 & _ & ->%insert_entry_frame).
  assert (m = mkMoney (wt_AmountMicros cmd) (wt_Currency cmd)) as -> by (unfold NewMoney in Hm; by inv_ok).
  split; [etrans; [exact Ho|by apply owners_same]|]. assert (entries db1 = entries db) as He by (by rewrite F).
  eexists _, w0. simpl. rewrite He. by split_and!.
Qed.

Lemma RefundWalletTx_Ok now cmd db db' : RefundWalletTx now cmd db = Ok db' -> wallets_keyed db ->
  owners_keep db db' /\ exists e w, entries db' = entries db ++ [e] /\ we_BusinessKey e = WalletRefundKey (wf_RefundID cmd)
    /\ we_AmountMicros e = wf_AmountMicros cmd /\ we_Currency e = wf_Currency cmd /\ we_Direction e = DirDebit
    /\ we_Source e = WalletCash /\ wallets db' !! we_WalletID e = Some w /\ wa_BillingAccountID w = wf_AccountID cmd.
Proof.
  unfold RefundWalletTx. intros H K. apply rbind_Ok in H as (m & Hm & H). destruct (_ <=? _) in H; [done|].
  apply rbind_Ok in H as ([] & _ & H). apply rbind_Ok in H as ([] & _ & H).
  apply rbind_Ok in H as (w0 & Hg & ->%insert_entry_frame). unfold GetWalletByAccount in Hg.
  destruct (find_wallet _ _ db) as [w|] eqn:Hf; [|done]. injection Hg as ->.
  apply find_wallet_Some in Hf as (Hw & Ha & Hc); [|done].
  assert (m = mkMoney (wf_AmountMicros cmd) (wf_Currency cmd)) as -> by (unfold NewMoney in Hm; by inv_ok).
  split; [by apply owners_same|]. eexists _, w0. simpl. by split_and!.
Qed.

(** Every step of the store. *)
Lemma store_step_owners db db' : store_step db db' -> owners_keep db db'.
Proof.
  intros [(_ & _ & _ & H)|[[n a c en l b w H|n now cmd H|now cmd H|w a now cmd adj H|acc eid op now H]
    |[(h & rv & now & cmd & adm & H)|[(rid & b & now & H)|(cmd & now & Hr & H)]]]]%step_cases.
  - by apply owners_same.
  - intros K. unfold SetOverageTx in H. apply rbind_Ok in H as ([] & _ & H). apply rbind_Ok in H as ([] & _ & H).
    apply rbind_Ok in H as ([[w0 b0] db1] & (Ho & Hw & Ha & Hc)%getOrCreateWalletLocked_owners & H); [|done].
    apply rbind_Ok in H as (w1 & _ & H). injection H as <- <-. simpl in *. refine (transitivity (R := owners_keep) Ho _ K).
    intros K1. split; simpl.
    + intros id x. simpl. intros [[<- <-]|[_ Hx]]%lookup_insert_Some; [done|]. by apply K1.
    + intros id x Hx. destruct (decide (id = wa_ID w0)) as [->|Hne].
      * eexists. rewrite lookup_insert_eq. split; [done|]. by simplify_eq.
      * exists x. by rewrite lookup_insert_ne by done.
  - intros K. exact (proj1 (CreditTopupTx_Ok _ _ _ _ _ H K) K).
  - intros K. exact (proj1 (RefundWalletTx_Ok _ _ _ _ H K) K).
  - intros K. unfold ApplyWalletAdjustmentTx in H. cbv zeta in H. destruct (_ || _) in H; [done|].
    apply rbind_Ok in H as (m & _ & H). destruct (_ <=? _) in H; [done|].
    apply rbind_Ok in H as ([] & _ & H). apply rbind_Ok in H as ([] & _ & H).
    apply rbind_Ok in H as ([[w0 b0] db1] & (Ho & _)%getOrCreateWalletLocked_owners & H); [|done].
    apply rbind_Ok in H as (w1 & _ & H). apply rbind_Ok in H as (db2 & (F2 & _)%insert_adjustment_frame & H).
    apply rbind_Ok in H as (db3 & F3%insert_entry_frame & H). injection H as _ <-.
    refine (transitivity (R := owners_keep) Ho _ K). apply owners_same. by rewrite F3, F2.
  - apply owners_same. unfold ReverseWalletEntryTx in H. apply rbind_Ok in H as ([] & _ & H).
    destruct (List.find _ _) as [orig|] in H; [|done]. apply rbind_Ok in H as (w & _ & H). destruct (bool_decide _) in H; [|done].
    apply rbind_Ok in H as (m & _ & H). apply rbind_Ok in H as (rev & _ & H).
    by apply rbind_Ok in H as (w' & _ & ->%insert_entry_frame).
  - apply owners_same. apply ReserveWallet_Ok in H as (_ & ? & ? & ? & ? & ? & ? & ? & _ & _ & _ & _ & _ & _ & _ & _ & _ & _ & _ & _ & Hrv).
    by apply insert_reservation_Ok in Hrv as (_ & _ & _ & _ & _ & _ & _ & ->).
  - apply owners_same. by eapply releaseLocked_wallets.
  - apply owners_same. by eapply Settle_wallets.
Qed.

(** ** Conflicts *)

(** The business key of the movement a message asks for. *)
Definition msg_key (m : WalletSyncMessage) : string :=
  if String.eqb (wm_Kind m) WalletSyncTopup then WalletTopupKey (wm_PaymentID m) else WalletRefundKey (wm_RefundID m).

Definition conflict (e : error) : Prop := CodeOf e = CodeConflict.

Lemma check_no_conflict b e : check b = Err e -> ~ conflict e.
Proof. unfold check. destruct b; by intros [= <-]. Qed.
Lemma references_no_conflict b e : references b = Err e -> ~ conflict e.
Proof. unfold references. destruct b; by intros [= <-]. Qed.
Lemma select_one_no_conflict {A} k (m : gmap string A) e : select_one k m = Err e -> ~ conflict e.
Proof. unfold select_one. destruct (m !! k); by intros [= <-]. Qed.
Lemma lockAccountTx_no_conflict a db e : lockAccountTx a db = Err e -> ~ conflict e.
Proof.
  unfold lockAccountTx. intros [H|(x & _ & H)]%rbind_Err; [by eapply select_one_no_conflict|].
  destruct (bool_decide _); by simplify_eq.
Qed.
Lemma NewMoney_no_conflict a c e : NewMoney a c = Err e -> ~ conflict e.
Proof. unfold NewMoney. destruct (negb _); [by intros [= <-]|]. destruct (_ <? _); by intros [= <-]. Qed.
Lemma ValidateWalletEntry_no_conflict s e : ValidateWalletEntry s = Err e -> ~ conflict e.
Proof.
  unfold ValidateWalletEntry. destruct (_ <=? _); [by intros [= <-]|]. destruct (bool_decide _); [by intros [= <-]|].
  destruct (s_Type s); try (by intros [= <-]); destruct (_ && _) || destruct (bool_decide _); by intros [= <-].
Qed.

(** An insertion of an original entry conflicts on its key alone. *)
Lemma insert_entry_conflict e db err : insert_entry e db = Err err -> conflict err -> we_ReversesEntryID e = None ->
  booked (we_BusinessKey e) db.
Proof.
  unfold insert_entry. intros H Hc Hr. rewrite Hr in H.
  apply rbind_Err in H as [H|([] & _ & H)]; [by apply check_no_conflict in H|].
  apply rbind_Err in H as [H|([] & _ & H)].
  - unfold unique in H. destruct (forallb _ _) eqn:Hf; [done|]. apply forallb_false in Hf as (o & Ho & Hk).
    exists o. split; [by apply list_elem_of_In|]. by bool_prop.
  - simpl in H. apply rbind_Err in H as [H|([] & _ & H)]; [by apply references_no_conflict in H|done].
Qed.

Lemma CreditTopupTx_conflict newID now cmd db err : CreditTopupTx newID now cmd db = Err err -> conflict err ->
  wallets db !! newID = None -> booked (WalletTopupKey (wt_PaymentID cmd)) db.
Proof.
  unfold CreditTopupTx. intros H Hc Hn.
  apply rbind_Err in H as [H|(m & _ & H)]; [by apply NewMoney_no_conflict in H|].
  destruct (_ <=? _) in H; [by injection H as <-|].
  apply rbind_Err in H as [H|([] & _ & H)]; [by apply ValidateWalletEntry_no_conflict in H|].
  apply rbind_Err in H as [H|([] & _ & H)]; [by apply lockAccountTx_no_conflict in H|].
  apply rbind_Err in H as [H|([[w b] db1] & F%getOrCreateWalletLocked_frame & H)].
  - unfold getOrCreateWalletLocked in H. apply rbind_Err in H as [H|([] & _ & H)]; [by apply check_no_conflict in H|].
    destruct (find_wallet _ _ db); [done|]. unfold insert_row in H. rewrite Hn in H. simpl in H.
    apply rbind_Err in H as [H|([] & _ & H)]; [by apply references_no_conflict in H|done].
  - apply rbind_Err in H as [H|(w1 & _ & H)]; [by apply select_one_no_conflict in H|].
    apply insert_entry_conflict in H as (e & He & Hk); [|done..]. exists e. split; [by rewrite F in He|done].
Qed.

Lemma RefundWalletTx_conflict now cmd db err : RefundWalletTx now cmd db = Err err -> conflict err ->
  booked (WalletRefundKey (wf_RefundID cmd)) db.
Proof.
  unfold RefundWalletTx. intros H Hc.
  apply rbind_Err in H as [H|(m & _ & H)]; [by apply NewMoney_no_conflict in H|].
  destruct (_ <=? _) in H; [by injection H as <-|].
  apply rbind_Err in H as [H|([] & _ & H)]; [by apply ValidateWalletEntry_no_conflict in H|].
  apply rbind_Err in H as [H|([] & _ & H)]; [by apply lockAccountTx_no_conflict in H|].
  apply rbind_Err in H as [H|(w & _ & H)].
  - unfold GetWalletByAccount in H. destruct (find_wallet _ _ db); [done|]. by injection H as <-.
  - by apply insert_entry_conflict in H.
Qed.

(** A conflict says the movement is already booked, provided the generated
    wallet id is new. *)
Lemma movement_conflict env acc m db err : movement env acc m db = Err err -> conflict err ->
  wallets db !! wv_walletID env = None -> booked (msg_key m) db.
Proof.
  unfold movement, msg_key. intros H Hc Hn. destruct (String.eqb _ WalletSyncTopup).
  - destruct (wv_lost env); [by injection H as <-|]. by apply CreditTopupTx_conflict in H.
  - destruct (String.eqb _ WalletSyncRefund); [|by injection H as <-].
    destruct (String.eqb _ ""); [by injection H as <-|]. destruct (wv_lost env); [by injection H as <-|].
    by apply RefundWalletTx_conflict in H.
Qed.

(** ** The worker among others *)

Definition same_message (r r' : OutboxRow) : Prop :=
  ox_ID r = ox_ID r' /\ ox_Topic r = ox_Topic r' /\ ox_Payload r = ox_Payload r'.

#[global] Instance same_message_equivalence : Equivalence same_message.
Proof. split; [done|by intros ?? (? & ? & ?)|]. intros ??? (? & ? & ?) (? & ? & ?). split_and!; congruence. Qed.

(** Rows of other topics may change; the worker's own do not. *)
Definition other_topics (l l' : list OutboxRow) : Prop :=
  Forall2 (fun r r' => same_message r r' /\ (ox_Topic r = TopicWalletSync -> r' = r)) l l'.

(** Accounting and pay-as-you-go, account creation, senders of messages, the
    workers of other topics, and this worker on any row as read once. *)
Inductive sync_step (s : WalletSyncDB) : WalletSyncDB -> Prop :=
| ss_store db' : store_step (ws_db s) db' -> books_no_payment (ws_db s) db' -> sync_step s (set_ws_db db' s)
| ss_account id u a s' : EnsureBillingAccount id u s = Ok (a, s') -> sync_step s s'
| ss_enqueue topic payload key :
    sync_step s (set_ws_outbox (ws_outbox s ++
      [mkOutboxRow (Z.of_nat (length (ws_outbox s)) + 1) topic payload key OutboxPending 0 None]) s)
| ss_others l : other_topics (ws_outbox s) l -> sync_step s (set_ws_outbox l s)
| ss_message cfg env msg st r : r ∈ ws_outbox s -> same_message msg r -> ox_Topic msg = TopicWalletSync ->
    wallets (ws_db s) !! wv_walletID env = None -> sync_step s (processMessage cfg env msg st s).1.

(** The entry a message asks for. *)
Definition entry_for (s : WalletSyncDB) (m : WalletSyncMessage) (e : WalletEntry) : Prop :=
  we_BusinessKey e = msg_key m /\ we_AmountMicros e = wm_AmountMicros m /\ we_Currency e = wm_Currency m
  /\ we_Direction e = (if String.eqb (wm_Kind m) WalletSyncTopup then DirCredit else DirDebit) /\ we_Source e = WalletCash
  /\ exists w, wallets (ws_db s) !! we_WalletID e = Some w /\ ws_users s !! wm_UserID m = Some (wa_BillingAccountID w).

Definition wallet_message (r : OutboxRow) (m : WalletSyncMessage) : Prop :=
  ox_Topic r = TopicWalletSync /\ decode (ox_Payload r) = Some m.

Record sync_inv (s : WalletSyncDB) : Prop := {
  si_ids : forall i r, ws_outbox s !! i = Some r -> ox_ID r = Z.of_nat i + 1;
  si_keyed : wallets_keyed (ws_db s);
  si_delivered : forall r, r ∈ ws_outbox s -> ox_Topic r = TopicWalletSync -> ox_Status r = OutboxDelivered ->
    exists m, decode (ox_Payload r) = Some m /\ booked (msg_key m) (ws_db s);
  si_booked : forall e, e ∈ entries (ws_db s) -> payment_key (we_BusinessKey e) ->
    exists r m, r ∈ ws_outbox s /\ wallet_message r m /\ entry_for s m e;
  si_once : NoDup (we_BusinessKey <$> entries (ws_db s));
}.

(** The messages of a later outbox. *)
Definition outbox_keeps (l l' : list OutboxRow) : Prop :=
  forall r, r ∈ l -> exists r', r' ∈ l' /\ same_message r r'.

#[global] Instance outbox_keeps_preorder : PreOrder outbox_keeps.
Proof.
  split; [intros l r H; by exists r|]. intros a b c H K r Hr. destruct (H _ Hr) as (x & Hx & Hs).
  destruct (K _ Hx) as (y & Hy & Ht). exists y. split; [done|]. by etrans.
Qed.

(** The account of a user stays. *)
Definition users_keep (s s' : WalletSyncDB) : Prop := ws_users s ⊆ ws_users s'.

Lemma entry_for_later s s' m e : owners_keep (ws_db s) (ws_db s') -> wallets_keyed (ws_db s) -> users_keep s s' ->
  entry_for s m e -> entry_for s' m e.
Proof.
  intros Ho K Hu (H1 & H2 & H3 & H4 & H5 & w & Hw & Ha). destruct (Ho K) as [_ Hk].
  destruct (Hk _ _ Hw) as (w' & Hw' & Hb & _). split_and!; try done. exists w'. split; [done|]. rewrite Hb.
  by eapply lookup_weaken.
Qed.

Lemma same_message_wallet r r' m : same_message r r' -> wallet_message r m -> wallet_message r' m.
Proof. intros (_ & Ht & Hp) [H1 H2]. split; congruence. Qed.

(** What keeps the messages and books nothing for a payment keeps the
    correspondence, once the delivered rows are looked after. *)
Lemma sync_inv_keep s s' : sync_inv s -> books_no_payment (ws_db s) (ws_db s') ->
  NoDup (we_BusinessKey <$> entries (ws_db s')) -> owners_keep (ws_db s) (ws_db s') ->
  users_keep s s' -> outbox_keeps (ws_outbox s) (ws_outbox s') ->
  (forall i r, ws_outbox s' !! i = Some r -> ox_ID r = Z.of_nat i + 1) ->
  (forall r, r ∈ ws_outbox s' -> ox_Topic r = TopicWalletSync -> ox_Status r = OutboxDelivered ->
    (exists r0, r0 ∈ ws_outbox s /\ same_message r0 r /\ ox_Status r0 = OutboxDelivered)
    \/ exists m, decode (ox_Payload r) = Some m /\ booked (msg_key m) (ws_db s')) -> sync_inv s'.
Proof.
  intros [Hi Hk Hd Hb Ho] (l & Hl & Hf) Hn Hw Hu Hx Hi' Hd'. split; [done|by apply Hw| | |done].
  - intros r Hr Ht Hs. destruct (Hd' _ Hr Ht Hs) as [(r0 & Hr0 & (_ & Ht0 & Hp0) & Hs0)|?]; [|done].
    destruct (Hd _ Hr0) as (m & Hm & Hbk); [congruence|done|]. exists m. split; [congruence|].
    eapply booked_later; [exact Hbk|]. by exists l.
  - intros e He Hp. rewrite Hl in He. apply elem_of_app in He as [He|He].
    + destruct (Hb _ He Hp) as (r & m & Hr & Hm & Hfor). destruct (Hx _ Hr) as (r' & Hr' & Hs).
      exists r', m. split; [done|]. split; [by eapply same_message_wallet|]. by eapply entry_for_later.
    + rewrite Forall_forall in Hf. by destruct (Hf _ He).
Qed.

(** *** One entry per key *)

Definition once_keep (db db' : DB) : Prop :=
  NoDup (we_BusinessKey <$> entries db) -> NoDup (we_BusinessKey <$> entries db').

#[global] Instance once_keep_preorder : PreOrder once_keep.
Proof. split; [by intros ??|]. intros ??? H K ?. auto. Qed.

Lemma once_same db db' : entries db' = entries db -> once_keep db db'.
Proof. unfold once_keep. by intros ->. Qed.

Lemma once_snoc db db' e : entries db' = entries db ++ [e] -> ~ booked (we_BusinessKey e) db -> once_keep db db'.
Proof.
  unfold once_keep. intros -> Hb Hn. rewrite fmap_app. apply NoDup_app. split_and!; [done| |apply NoDup_singleton].
  intros k (o & -> & Ho)%list_elem_of_fmap Hk%list_elem_of_singleton. apply Hb. by exists o.
Qed.

Lemma insert_entry_once e db db' : insert_entry e db = Ok db' -> once_keep db db'.
Proof. intros H. pose proof (insert_entry_booked _ _ _ H) as [Hb _]. apply insert_entry_frame in H as ->. by eapply once_snoc. Qed.

Lemma write_consume_once h cur now src m db db' : write_consume h cur now src m db = Ok db' -> once_keep db db'.
Proof.
  unfold write_consume. intros H. destruct (m =? 0); [injection H as <-; reflexivity|].
  apply rbind_Ok in H as (mm & _ & H). by apply rbind_Ok in H as ([] & _ & H%insert_entry_once).
Qed.

Lemma settleWalletLocked_once rid charge now db db' : settleWalletLocked rid charge now db = Ok db' -> once_keep db db'.
Proof.
  unfold settleWalletLocked. intros H. destruct (find_hold rid db) as [h|]; [|done].
  apply rbind_Ok in H as (w & _ & H). destruct (bool_decide _) in H; [|done].
  apply rbind_Ok in H as ([[cc cb] ec] & _ & H).
  apply rbind_Ok in H as (d1 & H1%write_consume_once & H). apply rbind_Ok in H as (d2 & H2%write_consume_once & H).
  destruct (bool_decide _) in H; [|done]. injection H as <-. etrans; [exact H1|exact H2].
Qed.

Lemma store_step_once db db' : store_step db db' -> wallets_keyed db -> once_keep db db'.
Proof.
  intros [(H & _)|[[n a c en l b w H|n now cmd H|now cmd H|w a now cmd adj H|acc eid op now H]
    |[(h & rv & now & cmd & adm & H)|[(rid & b & now & H)|(cmd & now & Hr & H)]]]]%step_cases K.
  - by apply once_same.
  - apply SetOverageTx_entries in H. by apply once_same.
  - pose proof (CreditTopupTx_key _ _ _ _ _ H) as [Hb _].
    apply CreditTopupTx_Ok in H as [_ (e & _ & He & Hk & _)]; [|done]. eapply once_snoc; [exact He|]. by rewrite Hk.
  - pose proof (RefundWalletTx_key _ _ _ _ H) as [Hb _].
    apply RefundWalletTx_Ok in H as [_ (e & _ & He & Hk & _)]; [|done]. eapply once_snoc; [exact He|]. by rewrite Hk.
  - pose proof (ApplyWalletAdjustmentTx_key _ _ _ _ _ _ _ H) as [Hb _].
    apply ApplyWalletAdjustmentTx_entry in H as (e & He & Hk). eapply once_snoc; [exact He|]. by rewrite Hk.
  - pose proof (ReverseWalletEntryTx_Ok _ _ _ _ _ _ H) as [Hb _].
    apply ReverseWalletEntryTx_entry in H as (e & He & Hk). eapply once_snoc; [exact He|]. by rewrite Hk.
  - apply ReserveWallet_Ok in H as (_ & ? & ? & ? & ? & ? & ? & ? & _ & _ & _ & _ & _ & _ & _ & _ & _ & _ & _ & _ & Hrv).
    apply insert_reservation_Ok in Hrv as (_ & _ & _ & _ & _ & _ & _ & ->). by apply once_same.
  - apply release_same_holds in H as [H _]. by apply once_same.
  - apply Settle_wallet in H as (r & _ & H). destruct (bool_decide _); [|destruct H as [_ H]; by apply once_same].
    destruct H as (charge & d1 & d2 & _ & H%settleWalletLocked_once & _ & He1 & _ & He).
    transitivity d1; [by apply once_same|]. transitivity d2; [done|by apply once_same].
Qed.

(** *** Rows *)

Lemma elem_of_on_row id f s r : r ∈ ws_outbox (on_row id f s) ->
  exists r0, r0 ∈ ws_outbox s /\ r = if ox_ID r0 =? id then f r0 else r0.
Proof. simpl. intros Hr. apply list_elem_of_fmap in Hr as (r0 & -> & H). eauto. Qed.

Lemma on_row_keeps id f s : (forall r, same_message r (f r)) -> outbox_keeps (ws_outbox s) (ws_outbox (on_row id f s)).
Proof.
  intros Hf r Hr. exists (if ox_ID r =? id then f r else r). split.
  - by apply (list_elem_of_fmap_2 (fun r => if ox_ID r =? id then f r else r)).
  - by destruct (_ =? _).
Qed.

Lemma on_row_ids id f s : (forall r, ox_ID (f r) = ox_ID r) ->
  (forall i r, ws_outbox s !! i = Some r -> ox_ID r = Z.of_nat i + 1) ->
  forall i r, ws_outbox (on_row id f s) !! i = Some r -> ox_ID r = Z.of_nat i + 1.
Proof.
  intros Hf H i r. simpl. rewrite list_lookup_fmap. intros (r0 & Hr & ->)%fmap_Some. rewrite <- (H _ _ Hr).
  by destruct (_ =? _).
Qed.

(** A row is the only one with its id. *)
Lemma row_unique s r r' : sync_inv s -> r ∈ ws_outbox s -> r' ∈ ws_outbox s -> ox_ID r = ox_ID r' -> r = r'.
Proof.
  intros I (i & Hi)%list_elem_of_lookup (j & Hj)%list_elem_of_lookup H.
  rewrite (si_ids _ I _ _ Hi), (si_ids _ I _ _ Hj) in H. assert (i = j) as -> by lia. congruence.
Qed.

Lemma put_off_inv id at_ s : sync_inv s -> sync_inv (MarkOutboxFailed id at_ s).
Proof.
  intros I. apply (sync_inv_keep s); [done|by apply books_none|apply I|by apply owners_same|by unfold users_keep|..].
  - by apply on_row_keeps.
  - apply on_row_ids; [done|apply I].
  - intros r (r0 & Hr & ->)%elem_of_on_row _ Hs. left. exists r0. by destruct (_ =? _).
Qed.

Lemma reschedule_inv cfg env msg s : sync_inv s -> sync_inv (reschedule cfg env msg s).
Proof. unfold reschedule. destruct (wv_marks env); [apply put_off_inv|done]. Qed.

(** A message is marked delivered when its movement is booked. *)
Lemma delivered_inv s msg r m : sync_inv s -> r ∈ ws_outbox s -> same_message msg r -> decode (ox_Payload msg) = Some m ->
  booked (msg_key m) (ws_db s) -> sync_inv (MarkOutboxDeliveredTx (ox_ID msg) s).
Proof.
  intros I Hr Hm Hd Hb.
  apply (sync_inv_keep s); [done|by apply books_none|apply I|by apply owners_same|by unfold users_keep|..].
  - by apply on_row_keeps.
  - apply on_row_ids; [done|apply I].
  - intros r' (r0 & Hr0 & ->)%elem_of_on_row Ht Hs. destruct (_ =? _) eqn:E; [right|left; by exists r0].
    apply Z.eqb_eq in E. assert (r0 = r) as -> by (apply (row_unique s); [done..|]; destruct Hm; congruence).
    exists m. split; [|done]. simpl. destruct Hm as (_ & _ & <-). done.
Qed.

(** *** The movement *)

Lemma EnsureBillingAccount_Ok id u s a s' : EnsureBillingAccount id u s = Ok (a, s') ->
  ws_users s' !! u = Some a /\ users_keep s s' /\ ws_outbox s' = ws_outbox s /\ wallets (ws_db s') = wallets (ws_db s)
  /\ entries (ws_db s') = entries (ws_db s).
Proof.
  unfold EnsureBillingAccount. intros H. destruct (ws_users s !! u) as [x|] eqn:Hu.
  { injection H as <- <-. by unfold users_keep. }
  inv_ok. simpl.
  rewrite lookup_insert_eq. split_and!; try done. unfold users_keep. simpl. by apply insert_subseteq.
Qed.

Lemma account_inv id u s a s' : sync_inv s -> EnsureBillingAccount id u s = Ok (a, s') -> sync_inv s'.
Proof.
  intros I (_ & Hu & Hx & Hw & He)%EnsureBillingAccount_Ok. apply (sync_inv_keep s); try done.
  - by apply books_none.
  - rewrite He. apply I.
  - by apply owners_same.
  - by rewrite Hx.
  - rewrite Hx. apply I.
  - rewrite Hx. intros r Hr _ Hs. left. by exists r.
Qed.

Lemma movement_Ok env acc m db db' : movement env acc m db = Ok db' -> wallets_keyed db ->
  owners_keep db db' /\ ~ booked (msg_key m) db /\ exists e w, entries db' = entries db ++ [e]
    /\ we_BusinessKey e = msg_key m /\ we_AmountMicros e = wm_AmountMicros m /\ we_Currency e = wm_Currency m
    /\ we_Direction e = (if String.eqb (wm_Kind m) WalletSyncTopup then DirCredit else DirDebit)
    /\ we_Source e = WalletCash /\ wallets db' !! we_WalletID e = Some w /\ wa_BillingAccountID w = acc.
Proof.
  unfold movement, msg_key. intros H K. destruct (String.eqb _ WalletSyncTopup).
  - destruct (wv_lost env); [done|]. pose proof (CreditTopupTx_key _ _ _ _ _ H) as [Hb _].
    apply CreditTopupTx_Ok in H as [Ho H]; done.
  - destruct (String.eqb _ WalletSyncRefund); [|done]. destruct (String.eqb _ ""); [done|]. destruct (wv_lost env); [done|].
    pose proof (RefundWalletTx_key _ _ _ _ H) as [Hb _]. apply RefundWalletTx_Ok in H as [Ho H]; done.
Qed.

Lemma movement_inv env acc m r s db : sync_inv s -> r ∈ ws_outbox s -> wallet_message r m ->
  ws_users s !! wm_UserID m = Some acc -> movement env acc m (ws_db s) = Ok db ->
  sync_inv (set_ws_db db s) /\ booked (msg_key m) db.
Proof.
  intros I Hr Hm Hu H. pose proof I as [Hi Hk Hd Hb Ho].
  apply movement_Ok in H as (Hw & Hn & e & w & He & E1 & E2 & E3 & E4 & E5 & Hwl & Ha); [|done].
  assert (booked (msg_key m) db) as Hbk by (exists e; rewrite He; set_solver).
  split; [|done]. split; simpl; [done|by apply Hw|..].
  - intros r' Hr' Ht Hs. destruct (Hd _ Hr' Ht Hs) as (m' & Hm' & Hb'). exists m'. split; [done|].
    eapply booked_later; [exact Hb'|]. by exists [e].
  - intros e' He' Hp. rewrite He in He'. apply elem_of_app in He' as [He'| ->%list_elem_of_singleton].
    + destruct (Hb _ He' Hp) as (r' & m' & Hr' & Hm' & Hf). exists r', m'. split; [done|]. split; [done|].
      apply (entry_for_later s); [done..|by unfold users_keep|done].
    + exists r, m. split; [done|]. split; [done|]. split_and!; try done. exists w. split; [done|]. simpl. congruence.
  - refine (once_snoc _ _ _ He _ Ho). by rewrite E1.
Qed.

Lemma finish_inv mark c id s' s : sync_inv (MarkOutboxDeliveredTx id s') -> sync_inv s -> sync_inv (finish mark c id s' s).1.
Proof. unfold finish. intros H1 H2. destruct mark; [|done]. destruct c as [|e p]; [done|]. by destruct p. Qed.

Lemma processMessage_inv cfg env msg st r s : sync_inv s -> r ∈ ws_outbox s -> same_message msg r ->
  ox_Topic msg = TopicWalletSync -> wallets (ws_db s) !! wv_walletID env = None ->
  sync_inv (processMessage cfg env msg st s).1.
Proof.
  intros I Hr Hm Ht Hn. unfold processMessage. pose proof (fun s => reschedule_inv cfg env msg s) as Hre.
  destruct (decode (ox_Payload msg)) as [m|] eqn:Hd; [|by apply Hre].
  destruct (malformed m); [by apply Hre|]. destruct (wv_account env); [by apply Hre|].
  destruct (EnsureBillingAccount _ _ s) as [[acc s1]|e] eqn:He; [|by apply Hre].
  pose proof (account_inv _ _ _ _ _ I He) as I1. apply EnsureBillingAccount_Ok in He as (Hu & _ & Hx & Hw & _).
  rewrite <- Hx in Hr. rewrite <- Hw in Hn. destruct (wv_begin env); [by apply Hre|].
  destruct (movement _ _ _ _) as [db|e] eqn:Hmv.
  - assert (wallet_message r m) as Hrm by (split; destruct Hm as (? & ? & ?); congruence).
    pose proof (movement_inv _ _ _ _ _ _ I1 Hr Hrm Hu Hmv) as [I2 Hb].
    assert (sync_inv (MarkOutboxDeliveredTx (ox_ID msg) (set_ws_db db s1))) as I3 by (by eapply delivered_inv).
    pose proof (finish_inv (wv_mark env) (wv_commit env) _ _ _ I3 I1) as I4. destruct (finish _ _ _ _ _) as [s2 ok]; destruct ok; [done|].
    by apply Hre.
  - destruct (bool_decide (CodeOf e = CodeConflict)) eqn:Hc; [|by apply Hre]. apply bool_decide_eq_true in Hc.
    apply movement_conflict in Hmv; [|done..]. unfold markDeliveredAfterReplay.
    assert (sync_inv (MarkOutboxDeliveredTx (ox_ID msg) s1)) as I3 by (by eapply delivered_inv). simpl.
    destruct (wv_begin_replay env); [|by apply Hre].
    pose proof (finish_inv (wv_mark_replay env) (wv_commit_replay env) _ _ _ I3 I1) as I4.
    destruct (finish _ _ _ _ _) as [s2 ok]; destruct ok; [done|]. by apply Hre.
Qed.

Lemma sync_step_inv s s' : sync_step s s' -> sync_inv s -> sync_inv s'.
Proof.
  intros [db' Hs Hb|id u a s1 H|topic payload key|l Hl|cfg env msg st r Hr Hm Ht Hn] I.
  - apply (sync_inv_keep s); try done.
    + apply (store_step_once _ _ Hs); apply I.
    + by apply store_step_owners.
    + by unfold users_keep.
    + apply I.
    + intros r Hr _ Hd. left. by exists r.
  - by eapply account_inv.
  - apply (sync_inv_keep s); [done|by apply books_none|apply I|by apply owners_same|by unfold users_keep|..]; simpl.
    + intros r Hr. exists r. split; [set_solver|done].
    + intros i r [H|[Hi H]]%lookup_app_Some; [by apply I|]. apply list_lookup_singleton_Some in H as [H <-]. simpl. lia.
    + intros r [Hr| ->%list_elem_of_singleton]%elem_of_app _ Hd; [left; by exists r|done].
  - apply (sync_inv_keep s); [done|by apply books_none|apply I|by apply owners_same|by unfold users_keep|..]; simpl.
    + intros r (i & Hi)%list_elem_of_lookup. destruct (Forall2_lookup_l _ _ _ _ _ Hl Hi) as (r' & Hi' & Hs & _).
      exists r'. split; [by eapply list_elem_of_lookup_2|done].
    + intros i r Hi. destruct (Forall2_lookup_r _ _ _ _ _ Hl Hi) as (r0 & Hi0 & (Hs & _) & _). rewrite <- Hs. by apply I.
    + intros r (i & Hi)%list_elem_of_lookup Ht Hd. destruct (Forall2_lookup_r _ _ _ _ _ Hl Hi) as (r0 & Hi0 & Hs & H).
      left. exists r0. destruct Hs as (? & Ht0 & ?). rewrite H in Hd by congruence.
      split_and!; [by eapply list_elem_of_lookup_2|by split_and!|done].
  - by eapply processMessage_inv.
Qed.

Definition sync_start (s : WalletSyncDB) : Prop :=
  ws_outbox s = [] /\ entries (ws_db s) = [] /\ wallets_keyed (ws_db s).
Definition sync_reachable (s : WalletSyncDB) : Prop := exists s0, sync_start s0 /\ rtc sync_step s0 s.

Lemma sync_reachable_inv s : sync_reachable s -> sync_inv s.
Proof.
  intros (s0 & (Hx & He & K) & H). assert (sync_inv s0) as I.
  { split; rewrite ?Hx, ?He; [by intros i r|done|by intros r ?%elem_of_nil|by intros e ?%elem_of_nil|constructor]. }
  clear Hx He K. induction H; [done|]. eauto using sync_step_inv.
Qed.

(** ** A pass is made of steps *)

(** Messages stay where they are. *)
Definition rows_stay (s s' : WalletSyncDB) : Prop :=
  forall i r, ws_outbox s !! i = Some r -> exists r', ws_outbox s' !! i = Some r' /\ same_message r r'.

#[global] Instance rows_stay_preorder : PreOrder rows_stay.
Proof.
  split; [intros s i r H; by exists r|]. intros a b c H K i r Hr. destruct (H _ _ Hr) as (x & Hx & Hs).
  destruct (K _ _ Hx) as (y & Hy & Ht). exists y. split; [done|]. by etrans.
Qed.

Lemma rows_same s s' : ws_outbox s' = ws_outbox s -> rows_stay s s'.
Proof. intros H i r Hr. exists r. by rewrite H. Qed.

Lemma on_row_stay id f s : (forall r, same_message r (f r)) -> rows_stay s (on_row id f s) /\ length (ws_outbox (on_row id f s)) = length (ws_outbox s).
Proof.
  intros Hf. split; [|apply length_map]. intros i r Hr. exists (if ox_ID r =? id then f r else r). split; [|by destruct (_ =? _)].
  simpl. by rewrite list_lookup_fmap, Hr.
Qed.

(** The worker changes rows in place. *)
Definition in_place (s s' : WalletSyncDB) : Prop := rows_stay s s' /\ length (ws_outbox s') = length (ws_outbox s).

#[global] Instance in_place_preorder : PreOrder in_place.
Proof. split; [by split|]. intros a b c [H1 H2] [K1 K2]. split; [by etrans|congruence]. Qed.

Lemma in_place_same s s' : ws_outbox s' = ws_outbox s -> in_place s s'.
Proof. intros H. split; [by apply rows_same|by rewrite H]. Qed.

Lemma reschedule_in_place cfg env msg s : in_place s (reschedule cfg env msg s).
Proof. unfold reschedule. destruct (wv_marks env); [by apply on_row_stay|reflexivity]. Qed.

Lemma finish_in_place mark c id s' s : ws_outbox s' = ws_outbox s -> in_place s (finish mark c id s' s).1.
Proof.
  intros H. unfold finish. destruct mark; [|reflexivity].
  assert (in_place s (MarkOutboxDeliveredTx id s')) by (etrans; [by apply (in_place_same s s')|by apply on_row_stay]).
  destruct c as [|e p]; [done|]. destruct p; [done|reflexivity].
Qed.

Lemma processMessage_in_place cfg env msg st s : in_place s (processMessage cfg env msg st s).1.
Proof.
  unfold processMessage. pose proof (reschedule_in_place cfg env msg) as Hre.
  destruct (decode (ox_Payload msg)) as [m|]; [|apply Hre].
  destruct (malformed m); [apply Hre|]. destruct (wv_account env); [apply Hre|].
  destruct (EnsureBillingAccount _ _ s) as [[acc s1]|e] eqn:He; [|apply Hre].
  apply EnsureBillingAccount_Ok in He as (_ & _ & Hx & _). apply in_place_same in Hx.
  etrans; [exact Hx|]. destruct (wv_begin env); [apply Hre|]. destruct (movement _ _ _ _) as [db|e].
  - pose proof (finish_in_place (wv_mark env) (wv_commit env) (ox_ID msg) (set_ws_db db s1) s1 eq_refl) as Hf.
    destruct (finish _ _ _ _ _) as [s2 ok]; destruct ok; [exact Hf|]. etrans; [exact Hf|apply Hre].
  - destruct (bool_decide _); [|apply Hre]. unfold markDeliveredAfterReplay. simpl.
    destruct (wv_begin_replay env); [|apply Hre].
    pose proof (finish_in_place (wv_mark_replay env) (wv_commit_replay env) (ox_ID msg) s1 s1 eq_refl) as Hf.
    destruct (finish _ _ _ _ _) as [s2 ok]; destruct ok; [exact Hf|]. etrans; [exact Hf|apply Hre].
Qed.

Lemma sync_step_rows s s' : sync_step s s' -> rows_stay s s'.
Proof.
  intros [db' Hs Hb|id u a s1 H|topic payload key|l Hl|cfg env msg st r Hr Hm Ht Hn].
  - by apply rows_same.
  - apply EnsureBillingAccount_Ok in H as (_ & _ & Hx & _). by apply rows_same.
  - intros i r Hr. exists r. split; [|done]. simpl. by apply lookup_app_l_Some.
  - intros i r Hi. destruct (Forall2_lookup_l _ _ _ _ _ Hl Hi) as (r' & Hi' & Hs & _). by exists r'.
  - apply processMessage_in_place.
Qed.

Lemma sync_steps_rows s s' : rtc sync_step s s' -> rows_stay s s'.
Proof. induction 1; [reflexivity|]. etrans; [by apply sync_step_rows|done]. Qed.

(** Each generated wallet id is new when it is used. *)
Fixpoint ids_new (cfg : EntitlementSyncConfig) (env : nat -> WalletSyncEnv) (others : nat -> WalletSyncDB -> WalletSyncDB)
    (i : nat) (msgs : list OutboxRow) (st : WalletSyncStats) (s : WalletSyncDB) : Prop :=
  match msgs with
  | [] => True
  | m :: msgs =>
      wallets (ws_db (others i s)) !! wv_walletID (env i) = None /\
      let '(s, st) := processMessage cfg (env i) m st (others i s) in ids_new cfg env others (S i) msgs st s
  end.

Lemma process_batch_steps cfg env others i msgs st s : (forall j s, rtc sync_step s (others j s)) ->
  (forall m, m ∈ msgs -> ox_Topic m = TopicWalletSync /\ exists k r, ws_outbox s !! k = Some r /\ same_message m r) ->
  ids_new cfg env others i msgs st s -> rtc sync_step s (process_batch cfg env others i msgs st s).1.
Proof.
  intros Ho. revert i st s. induction msgs as [|m msgs IH]; intros i st s Hm Hn; [done|]. simpl in *. destruct Hn as [Hn Hr].
  pose proof (sync_steps_rows _ _ (Ho i s)) as Hst. pose proof (processMessage_in_place cfg (env i) m st (others i s)) as [Hst' _].
  destruct (Hm m) as (Ht & k & r & Hk & Hs); [by left|]. destruct (Hst _ _ Hk) as (r' & Hk' & Hs').
  assert (sync_step (others i s) (processMessage cfg (env i) m st (others i s)).1) as Hstep.
  { apply ss_message with r'; [by eapply list_elem_of_lookup_2|by etrans|done..]. }
  destruct (processMessage _ _ _ _ _) as [s1 st1]. simpl in *. etrans; [apply Ho|]. eapply rtc_l; [exact Hstep|].
  apply IH; [|done]. intros m' Hm'. destruct (Hm m') as (Ht' & j & x & Hj & Hx); [by right|]. split; [done|].
  destruct (Hst _ _ Hj) as (y & Hy & Hxy). destruct (Hst' _ _ Hy) as (z & Hz & Hyz). exists j, z. split; [done|].
  etrans; [exact Hx|]. by etrans.
Qed.

Lemma wallet_pass_steps cfg fetch now env others s : (forall j s, rtc sync_step s (others j s)) ->
  (let msgs := FetchPendingOutboxByTopic TopicWalletSync (cf_BatchLimit (withDefaults cfg)) now s in
   ids_new (withDefaults cfg) env others 0 msgs (mkStats (Z.of_nat (length msgs)) 0 0 0 0 0) s) ->
  rtc sync_step s (RunPass cfg fetch now env others s).1.
Proof.
  cbv zeta. intros Ho Hn. unfold RunPass. destruct fetch; [|done].
  pose proof (fun H => process_batch_steps _ _ _ _ _ _ _ Ho H Hn) as H. clear Hn.
  destruct (process_batch _ _ _ _ _ _ _) as [s' st'] eqn:E. apply H. clear H E. intros m (i & Hi & _)%elem_of_take.
  apply list_elem_of_lookup_2, list_elem_of_In, List.filter_In in Hi as [Hin Hp%andb_prop].
  destruct Hp as [_ Hp%orb_prop]. destruct Hp as [Hp%bool_decide_eq_true|Hp%bool_decide_eq_true]; [done|]. split; [done|].
  apply list_elem_of_In, list_elem_of_lookup in Hin as [k Hk]. by exists k, m.
Qed.

(** ** Progress *)

(** A new wallet, or the one there is. *)
Lemma getOrCreateWalletLocked_total newID acc cur by_ db : validCurrency cur = true -> wallets_keyed db ->
  wallets db !! newID = None -> is_Some (accounts db !! acc) ->
  exists w b db', getOrCreateWalletLocked newID acc cur by_ db = Ok (w, b, db').
Proof.
  intros Hc K Hn Ha. unfold getOrCreateWalletLocked, check, insert_row, references, has. rewrite Hc. simpl.
  destruct (find_wallet acc cur db); [by eauto|]. rewrite Hn. simpl. rewrite bool_decide_eq_true_2 by done. simpl. eauto.
Qed.

(** A valid original entry on an existing wallet is written or already there. *)
Lemma insert_entry_total e db : entry_row_ok e = true -> we_ReversesEntryID e = None -> we_RequestID e = None ->
  we_HoldID e = None -> we_AdjustmentID e = None -> is_Some (wallets db !! we_WalletID e) ->
  (exists db', insert_entry e db = Ok db') \/ exists err, insert_entry e db = Err err /\ conflict err.
Proof.
  intros Hr H1 H2 H3 H4 Hw. unfold insert_entry, check. rewrite Hr, H1, H2, H3, H4. simpl.
  destruct (forallb _ _); simpl; [left|right; by eexists]. unfold has. rewrite bool_decide_eq_true_2 by done. simpl. eauto.
Qed.

(** A message the wallet can take: the account is open, and a refund has a
    wallet to debit. *)
Definition acceptable (env : WalletSyncEnv) (m : WalletSyncMessage) (acc : string) (db : DB) : Prop :=
  malformed m = false /\ validCurrency (wm_Currency m) = true /\ accounts db !! acc = Some BillingAccountActive
  /\ (wm_Kind m = WalletSyncTopup \/ wm_Kind m = WalletSyncRefund /\ wm_RefundID m <> ""
                                      /\ is_Some (find_wallet acc (wm_Currency m) db)).

Lemma movement_total env acc m db : acceptable env m acc db -> wallets_keyed db -> wv_lost env = false ->
  wallets db !! wv_walletID env = None ->
  (exists db', movement env acc m db = Ok db') \/ exists err, movement env acc m db = Err err /\ conflict err.
Proof.
  intros (Hm & Hc & Ha & Hk) K Hl Hn. unfold malformed in Hm. bool_prop. unfold movement.
  assert (NewMoney (wm_AmountMicros m) (wm_Currency m) = Ok (mkMoney (wm_AmountMicros m) (wm_Currency m))) as Hmon.
  { unfold NewMoney. rewrite Hc. simpl. by destruct (Z.ltb_spec (wm_AmountMicros m) 0); [lia|]. }
  assert (lockAccountTx acc db = Ok tt) as Hlock by (unfold lockAccountTx, select_one; by rewrite Ha).
  destruct Hk as [-> | (-> & Hr & w & Hw)]; simpl; rewrite Hl.
  - unfold CreditTopupTx, ValidateWalletEntry. simpl. rewrite Hmon. simpl. rewrite (proj2 (Z.leb_gt _ _)) by done. simpl.
    rewrite Hlock. simpl.
    destruct (getOrCreateWalletLocked_total (wv_walletID env) acc (wm_Currency m) ("payment:" +:+ wm_PaymentID m) db)
      as (w & b & db' & Hg); [done..|by eauto|]. rewrite Hg. simpl.
    apply getOrCreateWalletLocked_owners in Hg as (_ & Hw & _); [|done]. unfold lockWalletTx, select_one. rewrite Hw. simpl.
    apply insert_entry_total; try done. unfold entry_row_ok. simpl. rewrite Hc. by rewrite (proj2 (Z.ltb_lt _ _)).
  - rewrite (proj2 (String.eqb_neq _ _) Hr). unfold RefundWalletTx, ValidateWalletEntry. simpl. rewrite Hmon. simpl.
    rewrite (proj2 (Z.leb_gt _ _)) by done. simpl. rewrite Hlock. simpl. unfold GetWalletByAccount. rewrite Hw. simpl.
    apply find_wallet_Some in Hw as (Hw & _); [|done].
    apply insert_entry_total; try done. unfold entry_row_ok. simpl. rewrite Hc. by rewrite (proj2 (Z.ltb_lt _ _)).
Qed.

(** Nothing goes wrong. *)
Definition good_run (env : WalletSyncEnv) : Prop :=
  wv_account env = None /\ wv_begin env = None /\ wv_lost env = false /\ wv_mark env = true /\ wv_commit env = Committed
  /\ wv_begin_replay env = true /\ wv_mark_replay env = true /\ wv_commit_replay env = Committed.

Lemma processMessage_progress cfg env msg st r m s acc s1 : sync_inv s -> r ∈ ws_outbox s -> same_message msg r ->
  decode (ox_Payload msg) = Some m -> good_run env -> wallets (ws_db s) !! wv_walletID env = None ->
  EnsureBillingAccount (wv_accountID env) (wm_UserID m) s = Ok (acc, s1) -> acceptable env m acc (ws_db s1) ->
  (processMessage cfg env msg st s).2 <> count_failed st /\
  exists r', r' ∈ ws_outbox (processMessage cfg env msg st s).1 /\ same_message r r' /\ ox_Status r' = OutboxDelivered.
Proof.
  intros I Hr Hm Hd (G1 & G2 & G3 & G4 & G5 & G6 & G7 & G8) Hn He Hacc.
  pose proof (si_keyed _ (account_inv _ _ _ _ _ I He)) as K. pose proof (EnsureBillingAccount_Ok _ _ _ _ _ He) as (_ & _ & Hx & Hw & _).
  rewrite <- Hw in Hn. unfold processMessage. rewrite Hd, G1, He, G2. pose proof Hacc as (Hmal & _). rewrite Hmal.
  assert (forall s2, ws_outbox s2 = ws_outbox s -> exists r', r' ∈ ws_outbox (MarkOutboxDeliveredTx (ox_ID msg) s2)
    /\ same_message r r' /\ ox_Status r' = OutboxDelivered) as Hdel.
  { intros s2 H2. exists (row_delivered r). split; [|by split_and!]. simpl. rewrite H2. apply list_elem_of_fmap.
    exists r. split; [|done]. destruct Hm as (-> & _). by rewrite Z.eqb_refl. }
  destruct (movement_total _ _ _ _ Hacc K G3 Hn) as [[db Hmv]|(err & Hmv & Hc)]; rewrite Hmv.
  - unfold finish. rewrite G4, G5. simpl. split; [|by apply Hdel].
    destruct st. unfold count_applied, count_failed, count_delivered. destruct (String.eqb _ _); simpl; intros [=]; lia.
  - rewrite (bool_decide_eq_true_2 _ Hc). unfold markDeliveredAfterReplay, finish. rewrite G6, G7, G8. simpl. split; [|by apply Hdel].
    destruct st. unfold count_failed, count_delivered, count_replay. simpl. intros [=]; lia.
Qed.

(** ** With the payment service

    Both share the outbox: the payment service appends, the workers change
    rows in place. *)

Definition topic_of (m : PayMessage) : string :=
  match m with WalletMessage _ => TopicWalletSync | BenefitMessage _ => TopicEntitlementSync end.

Definition carries (r : OutboxRow) (x : PayOutboxRow) : Prop :=
  ox_Topic r = topic_of (px_Payload x) /\ ox_Payload r = Some (px_Payload x).
Definition linked (s : WalletSyncDB) (d : PayDB) : Prop := Forall2 carries (ws_outbox s) (pd_outbox d).

(** The rows a transaction of the payment service adds. *)
Fixpoint send (rows : list PayOutboxRow) (s : WalletSyncDB) : WalletSyncDB :=
  match rows with
  | [] => s
  | x :: rows =>
      send rows (set_ws_outbox (ws_outbox s ++ [mkOutboxRow (Z.of_nat (length (ws_outbox s)) + 1) (topic_of (px_Payload x))
                                                  (Some (px_Payload x)) (px_DedupKey x) OutboxPending 0 None]) s)
  end.

Inductive till_step (c : PaySettings) : PayDB * WalletSyncDB -> PayDB * WalletSyncDB -> Prop :=
| ts_pay d d' s : pay_step c d d' -> till_step c (d, s) (d', send (drop (length (pd_outbox d)) (pd_outbox d')) s)
| ts_sync d s s' : sync_step s s' -> length (ws_outbox s') = length (ws_outbox s) -> till_step c (d, s) (d, s').

Definition till_reachable (c : PaySettings) (t : PayDB * WalletSyncDB) : Prop :=
  exists d s, no_history d /\ sync_start s /\ rtc (till_step c) (d, s) t.

Lemma send_steps rows s : rtc sync_step s (send rows s).
Proof. revert s. induction rows as [|x rows IH]; intros s; [done|]. simpl. eapply rtc_l; [apply ss_enqueue|apply IH]. Qed.

Lemma send_carries rows s l : Forall2 carries (ws_outbox s) l -> Forall2 carries (ws_outbox (send rows s)) (l ++ rows).
Proof.
  revert s l. induction rows as [|x rows IH]; intros s l H; simpl; [by rewrite app_nil_r|].
  replace (l ++ x :: rows) with ((l ++ [x]) ++ rows) by (by rewrite <- app_assoc). apply IH. simpl. apply Forall2_app; [done|]. by repeat constructor.
Qed.

Lemma linked_in_place s s' d : linked s d -> rows_stay s s' -> length (ws_outbox s') = length (ws_outbox s) -> linked s' d.
Proof.
  unfold linked. intros H Hst Hlen. apply Forall2_same_length_lookup_2; [by rewrite Hlen; eapply Forall2_length|].
  intros i r' x Hr' Hx. destruct (Forall2_lookup_r _ _ _ _ _ H Hx) as (r & Hr & Hc).
  destruct (Hst _ _ Hr) as (y & Hy & (_ & Ht & Hp)). assert (y = r') as -> by congruence.
  destruct Hc as [H1 H2]. split; congruence.
Qed.

Lemma till_parts c t : till_reachable c t -> pay_reachable c t.1 /\ sync_reachable t.2 /\ linked t.2 t.1.
Proof.
  intros (d & s & Hd & Hs & H).
  assert (pay_reachable c d /\ sync_reachable s /\ linked s d) as Hp.
  { split; [exists d; by split|]. split; [exists s; by split|]. unfold linked. destruct Hs as (-> & _).
    destruct Hd as (_ & _ & _ & _ & ->). constructor. }
  change (pay_reachable c (d, s).1 /\ sync_reachable (d, s).2 /\ linked (d, s).2 (d, s).1) in Hp.
  clear Hd Hs. induction H as [|x y z H _ IH]; [done|]. apply IH. clear IH z. destruct Hp as (R & (s0 & Hs0 & Hst) & L).
  destruct H as [d1 d2 s1 H|d1 s1 s2 H Hlen]; simpl in *.
  - split; [eapply pay_reachable_steps; [exact R|by apply step_one]|]. split.
    + exists s0. split; [done|]. etrans; [exact Hst|apply send_steps].
    + apply pay_step_evolves in H as [_ _ _ _ [l Hl] _ _]. unfold linked. rewrite Hl, drop_app_length. by apply send_carries.
  - split; [done|]. split; [exists s0; split; [done|]; by eapply rtc_r|].
    eapply linked_in_place; [exact L|by apply sync_step_rows|done].
Qed.

(** The message of a row is one the payment service wrote. *)
Lemma linked_message s d r m : linked s d -> r ∈ ws_outbox s -> wallet_message r m ->
  exists i x, ws_outbox s !! i = Some r /\ pd_outbox d !! i = Some x /\ px_Payload x = WalletMessage m.
Proof.
  intros L (i & Hi)%list_elem_of_lookup [_ Hm]. destruct (Forall2_lookup_l _ _ _ _ _ L Hi) as (x & Hx & _ & Hp).
  exists i, x. split_and!; try done. rewrite Hp in Hm. simpl in Hm. destruct (px_Payload x); by simplify_eq.
Qed.

Lemma msg_key_topup m p : msg_key m = WalletTopupKey p -> wm_Kind m = "topup" /\ wm_PaymentID m = p.
Proof.
  unfold msg_key. destruct (String.eqb_spec (wm_Kind m) WalletSyncTopup) as [E|E]; [|done]. intros H.
  split; [done|]. by injection H.
Qed.

(** Rows with the same key are one row. *)
Lemma omap_NoDup_inj {A B} (f : A -> option B) l i j x y k : NoDup (omap f l) -> l !! i = Some x -> l !! j = Some y ->
  f x = Some k -> f y = Some k -> i = j.
Proof.
  revert i j. induction l as [|a l IH]; intros i j N Hx Hy Fx Fy; [done|]. simpl in N.
  assert (forall n z, l !! n = Some z -> f z = Some k -> k ∈ omap f l) as Hin.
  { intros n z Hz Fz. apply list_elem_of_omap. exists z. split; [by eapply list_elem_of_lookup_2|done]. }
  destruct i as [|i], j as [|j]; simpl in *; [done|..]; simplify_eq.
  - rewrite Fx in N. apply NoDup_cons in N as [N _]. by destruct N; eauto.
  - rewrite Fy in N. apply NoDup_cons in N as [N _]. by destruct N; eauto.
  - f_equal. apply IH; try done. destruct (f a); [by apply NoDup_cons in N as [_ N]|done].
Qed.

(** A payment is sent to the wallet in one message. *)
Lemma one_topup_message s d c r r' m m' : pay_reachable c d -> linked s d -> r ∈ ws_outbox s -> r' ∈ ws_outbox s ->
  wallet_message r m -> wallet_message r' m' -> wm_Kind m = "topup" -> wm_Kind m' = "topup" ->
  wm_PaymentID m = wm_PaymentID m' -> r = r' /\ m = m'.
Proof.
  intros R L Hr Hr' Hm Hm' K K' Hp. pose proof (pay_reachable_backed _ _ R) as B. pose proof (pay_reachable_keys _ _ R) as (_ & N & _).
  destruct (linked_message _ _ _ _ L Hr Hm) as (i & x & Hi & Hx & Ex).
  destruct (linked_message _ _ _ _ L Hr' Hm') as (j & y & Hj & Hy & Ey).
  unfold outbox_backed in B. rewrite Forall_lookup in B.
  pose proof (B _ _ Hx) as Bx. pose proof (B _ _ Hy) as By. unfold backed in Bx, By. rewrite Ex in Bx. rewrite Ey in By.
  destruct (Bx K) as [Dx _]. destruct (By K') as [Dy _]. rewrite <- Hp in Dy.
  assert (i = j) as <- by (by eapply (omap_NoDup_inj px_DedupKey)). simplify_eq. split; [done|]. congruence.
Qed.

Lemma send_app l1 l2 s : send (l1 ++ l2) s = send l2 (send l1 s).
Proof. revert s. induction l1; intros; simpl; auto. Qed.

Lemma till_pay_steps c d d' s : pay_steps c d d' ->
  rtc (till_step c) (d, s) (d', send (drop (length (pd_outbox d)) (pd_outbox d')) s).
Proof.
  intros H. revert s. induction H as [d|d1 d2 d3 H H' IH]; intros s; [by rewrite drop_all|].
  eapply rtc_l; [by apply ts_pay|]. specialize (IH (send (drop (length (pd_outbox d1)) (pd_outbox d2)) s)).
  rewrite <- send_app in IH. destruct (ev_outbox _ _ (pay_step_evolves _ _ _ H)) as [l Hl].
  destruct (ev_outbox _ _ (pay_steps_evolves _ _ _ H')) as [l' Hl']. rewrite Hl', Hl in *.
  rewrite !drop_app_length in IH. by rewrite <- app_assoc, !drop_app_length.
Qed.

(** C19: EVERY TOP-UP IN A WALLET WAS PAID FOR. Whatever the payment service and
    the workers do, through redeliveries, crashes and lost commits: an entry booked for a payment
    is the amount of that payment's order, in its currency, in a wallet of the
    user who ordered; a payment is booked once; a top-up message that counts as
    delivered has its entry; and a refund is debited as its message says, once,
    before the message counts as delivered. *)
Theorem topups_match_payments (c : PaySettings) (d : PayDB) (s : WalletSyncDB) (Ht : till_reachable c (d, s)) :
  (forall e pid, e ∈ entries (ws_db s) -> we_BusinessKey e = WalletTopupKey pid ->
     exists p o w, pd_payments d !! pid = Some p /\ pd_orders d !! py_OrderID p = Some o /\ open_status (po_Status o) = false
       /\ walletTopupMicros (major (po_Amount o)) (po_Currency o) = Ok (we_AmountMicros e) /\ we_Currency e = po_Currency o
       /\ we_Direction e = DirCredit /\ we_Source e = WalletCash
       /\ wallets (ws_db s) !! we_WalletID e = Some w /\ ws_users s !! po_UserID o = Some (wa_BillingAccountID w))
  /\ (forall i j e e', entries (ws_db s) !! i = Some e -> entries (ws_db s) !! j = Some e' ->
        we_BusinessKey e = we_BusinessKey e' -> i = j)
  /\ (forall r m, r ∈ ws_outbox s -> wallet_message r m -> wm_Kind m = WalletSyncTopup -> ox_Status r = OutboxDelivered ->
        exists e, e ∈ entries (ws_db s) /\ entry_for s m e)
  /\ (forall e rid, e ∈ entries (ws_db s) -> we_BusinessKey e = WalletRefundKey rid ->
        exists r m, r ∈ ws_outbox s /\ wallet_message r m /\ wm_RefundID m = rid /\ entry_for s m e)
  /\ (forall r m, r ∈ ws_outbox s -> wallet_message r m -> ox_Status r = OutboxDelivered -> booked (msg_key m) (ws_db s)).
Proof.
  apply till_parts in Ht as (R & S & L). simpl in *. apply sync_reachable_inv in S as I.
  assert (forall i j e e', entries (ws_db s) !! i = Some e -> entries (ws_db s) !! j = Some e' ->
            we_BusinessKey e = we_BusinessKey e' -> i = j) as Honce.
  { intros i j e e' He He' Hk. apply (NoDup_lookup (we_BusinessKey <$> entries (ws_db s)) i j (we_BusinessKey e));
      [apply I|..]; rewrite list_lookup_fmap, ?He, ?He'; simpl; congruence. }
  split_and!; [|exact Honce|..].
  - intros e pid He Hk. destruct (si_booked _ I _ He) as (r & m & Hr & Hm & Hf); [left; by exists pid|].
    destruct Hf as (H1 & H2 & H3 & H4 & H5 & w & Hw & Hu). rewrite Hk in H1. symmetry in H1.
    apply msg_key_topup in H1 as [Hkind Hpid]. destruct (linked_message _ _ _ _ L Hr Hm) as (i & x & _ & Hx & Ex).
    pose proof (pay_reachable_backed _ _ R) as B. unfold outbox_backed in B. rewrite Forall_lookup in B.
    specialize (B _ _ Hx). unfold backed in B. rewrite Ex in B. destruct (B Hkind) as [_ B'].
    apply order_payment_rows in B' as (o & p & Ho & Huo & Hop & Hp & Hpo & Ha & Hc); [|by eapply pay_reachable_ok].
    rewrite Hkind in H4. exists p, o, w. rewrite <- Hpid, Hpo, Huo, H2, H3. by split_and!.
  - intros r m Hr Hm Hk Hs. destruct (si_delivered _ I r Hr) as (m' & Hm' & e & He & Hb); [by apply Hm|done|].
    destruct Hm as [Ht Hm]. assert (m' = m) as -> by congruence. exists e. split; [done|].
    assert (msg_key m = WalletTopupKey (wm_PaymentID m)) as Hkey by (unfold msg_key; by rewrite Hk).
    destruct (si_booked _ I _ He) as (r' & m' & Hr' & Hmm' & Hf); [left; exists (wm_PaymentID m); congruence|].
    pose proof Hf as (Hk' & _). rewrite Hb, Hkey in Hk'. symmetry in Hk'. apply msg_key_topup in Hk' as [K' P'].
    destruct (one_topup_message s d c r r' m m') as [_ <-]; try done; by split.
  - intros e rid He Hk. destruct (si_booked _ I _ He) as (r & m & Hr & Hm & Hf); [right; by exists rid|].
    exists r, m. split_and!; try done. destruct Hf as (H1 & _). rewrite Hk in H1. unfold msg_key in H1.
    destruct (String.eqb _ _); [done|]. by injection H1.
  - intros r m Hr [Ht Hm] Hs. destruct (si_delivered _ I r Hr Ht Hs) as (m' & Hm' & Hb). by simplify_eq.
Qed.

(** C20: A GOOD RUN BOOKS THE MESSAGE. From any state the worker and the others can reach, a
    message the wallet can take is delivered, with its movement booked, by a run
    in which nothing fails, however many runs failed before. *)
Theorem good_run_delivers (s : WalletSyncDB) (cfg : EntitlementSyncConfig) (env : WalletSyncEnv) (st : WalletSyncStats)
    (r : OutboxRow) (m : WalletSyncMessage) (acc : string) (s1 : WalletSyncDB) (Hs : sync_reachable s)
    (Hr : r ∈ ws_outbox s) (Hm : wallet_message r m) (Hg : good_run env)
    (Hn : wallets (ws_db s) !! wv_walletID env = None)
    (He : EnsureBillingAccount (wv_accountID env) (wm_UserID m) s = Ok (acc, s1)) (Ha : acceptable env m acc (ws_db s1)) :
  let s' := (processMessage cfg env r st s).1 in
  sync_reachable s' /\ booked (msg_key m) (ws_db s')
  /\ exists r', r' ∈ ws_outbox s' /\ same_message r r' /\ ox_Status r' = OutboxDelivered.
Proof.
  intros s'. pose proof (sync_reachable_inv _ Hs) as I. destruct Hm as [Ht Hm].
  destruct (processMessage_progress cfg env r st r m s acc s1) as (_ & r' & Hr' & Hsm & Hd); try done.
  assert (sync_step s s') as Hstep by (by apply ss_message with r).
  assert (sync_reachable s') as R' by (destruct Hs as (s0 & H0 & H); exists s0; split; [done|]; by eapply rtc_r).
  split; [done|]. split; [|by exists r'].
  destruct (si_delivered _ (sync_reachable_inv _ R') r' Hr') as (m' & Hm' & Hb); [|done|].
  - destruct Hsm as (_ & <- & _). done.
  - destruct Hsm as (_ & _ & Hp). rewrite <- Hp in Hm'. assert (m' = m) as <- by congruence. done.
Qed.

(** ** A sample till

    The paid top-up of the sample shop, its message booked in a run whose commit
    is lost, and delivered by the next one. *)

Definition till_env (commit : CommitOutcome) : WalletSyncEnv :=
  mkWalletEnv (shop_day 1) (shop_day 1) "acc-user" "wallet-user" None None false true commit true true Committed true.
Definition till_cfg : EntitlementSyncConfig := withDefaults (mkSyncConfig 0 0).
Definition idle_stats : WalletSyncStats := mkStats 0 0 0 0 0 0.

Definition till_open : WalletSyncDB := mkWalletSync demo_db ∅ [].
Definition till_sent : WalletSyncDB := send (pd_outbox shop_paid) till_open.
Definition till_message : OutboxRow :=
  nth 0 (ws_outbox till_sent) (mkOutboxRow 0 "" None None OutboxPending 0 None).
Definition till_run (commit : CommitOutcome) (msg : OutboxRow) (s : WalletSyncDB) : WalletSyncDB :=
  (processMessage till_cfg (till_env commit) msg idle_stats s).1.

(** The commit is reported lost but has happened. *)
Definition till_lost : WalletSyncDB := till_run (CommitFailed EForeign true) till_message till_sent.
(** The commit has not happened. *)
Definition till_failed : WalletSyncDB := till_run (CommitFailed EForeign false) till_message till_sent.
Definition till_booked : WalletSyncDB := till_run Committed till_message till_failed.

Lemma till_sent_reachable : till_reachable shop_settings (shop_paid, till_sent).
Proof.
  exists shop_open, till_open. split; [by split_and!|]. split; [by split_and!|].
  assert (pay_steps shop_settings shop_open shop_paid) as H.
  { unfold shop_paid, shop_ordered, pay_steps. etrans; [|apply OnWebhook_steps]. etrans; [|apply OnWebhook_steps].
    etrans; [|apply CreateOrder_steps]. apply CreateOrder_steps. }
  apply (till_pay_steps _ _ _ till_open) in H. exact H.
Qed.

Lemma till_message_in : till_message ∈ ws_outbox till_sent.
Proof. vm_compute. left. Qed.

Lemma till_run_steps commit : sync_step till_sent (till_run commit till_message till_sent).
Proof. apply ss_message with till_message; [apply till_message_in|done|by vm_compute|by vm_compute]. Qed.

Lemma till_lost_reachable : till_reachable shop_settings (shop_paid, till_lost).
Proof.
  destruct till_sent_reachable as (d & s & Hd & Hs & H). exists d, s. split; [done|]. split; [done|].
  eapply rtc_r; [exact H|]. apply ts_sync; [apply till_run_steps|by vm_compute].
Qed.

Lemma till_failed_reachable : sync_reachable till_failed.
Proof.
  destruct (till_parts _ _ till_sent_reachable) as (_ & (s0 & H0 & H) & _). exists s0. split; [done|].
  eapply rtc_r; [exact H|]. apply till_run_steps.
Qed.

Lemma topups_match_payments_witness :
  exists e, e ∈ entries (ws_db till_lost) /\ we_AmountMicros e = 10000000
    /\ exists o, pd_orders shop_paid !! "ord-t" = Some o /\ walletTopupMicros (major (po_Amount o)) "CNY" = Ok 10000000.
Proof.
  destruct (entries (ws_db till_lost)) as [|e l] eqn:E; [exfalso; vm_compute in E; discriminate|].
  destruct (topups_match_payments _ _ _ till_lost_reachable) as (H & _).
  assert (e ∈ entries (ws_db till_lost)) as He by (rewrite E; left).
  assert (we_BusinessKey e = WalletTopupKey "pay-t" /\ we_AmountMicros e = 10000000) as [Hk Ha]
    by (vm_compute in E; injection E as <- _; split; reflexivity).
  exists e. split; [rewrite <- E; exact He|]. split; [exact Ha|].
  destruct (H e "pay-t" He Hk) as (p & o & w & Hp & Ho & _ & Hm & Hc & _).
  assert (py_OrderID p = "ord-t") as Hid by (vm_compute in Hp; injection Hp as <-; reflexivity). rewrite Hid in Ho.
  exists o. split; [exact Ho|]. rewrite Ha in Hm.
  assert (po_Currency o = "CNY") as Hcur by (vm_compute in Ho; injection Ho as <-; reflexivity). rewrite Hcur in Hm. exact Hm.
Defined.

Lemma good_run_delivers_witness : booked "wallet:topup:pay-t" (ws_db till_booked).
Proof.
  destruct (ws_outbox till_failed) as [|r l] eqn:E; [exfalso; vm_compute in E; discriminate|].
  destruct (decode (ox_Payload r)) as [m|] eqn:Em; [|exfalso; vm_compute in E; injection E as <- _; discriminate].
  destruct (EnsureBillingAccount "acc-user" (wm_UserID m) till_failed) as [[acc s1]|err] eqn:He;
    [|exfalso; vm_compute in E; injection E as <- _; vm_compute in Em; injection Em as <-; vm_compute in He; discriminate].
  destruct (good_run_delivers till_failed till_cfg (till_env Committed) idle_stats r m acc s1 till_failed_reachable) as (_ & H & _).
  - rewrite E. left.
  - split; [vm_compute in E; injection E as <- _; reflexivity|exact Em].
  - repeat split.
  - vm_compute. reflexivity.
  - exact He.
  - vm_compute in E. injection E as <- _. vm_compute in Em. injection Em as <-. vm_compute in He. injection He as <- <-.
    split; [reflexivity|]. split; [reflexivity|]. split; [reflexivity|]. left. reflexivity.
  - assert (msg_key m = "wallet:topup:pay-t") as Hk
      by (vm_compute in E; injection E as <- _; vm_compute in Em; injection Em as <-; reflexivity).
    rewrite Hk in H.
    assert ((processMessage till_cfg (till_env Committed) r idle_stats till_failed).1 = till_booked) as Hb
      by (vm_compute in E; injection E as <- _; vm_compute; reflexivity).
    rewrite Hb in H. exact H.
Defined.

(** The counters of a pass count more than was booked: a movement whose commit
    fails is counted as credited. *)
Theorem credited_without_entry :
  entries (ws_db till_failed) = []
  /\ st_Credited (processMessage till_cfg (till_env (CommitFailed EForeign false)) till_message idle_stats till_sent).2 = 1.
Proof. split; by vm_compute. Qed.
