(* ===== verification/Auth.v ===== *)
(** * Auth: logins, sessions and the rotation of refresh tokens

    [internal/service/auth.go] over [repo/repo.go] and [model/session.go]: a
    login binds a provider profile to a user and opens a session; a refresh
    token is good for one rotation, or for a retry shortly after it; presenting
    an old one later revokes what came out of it. A method is a program of
    statements: before each, other requests may commit, and each may fail with
    or without its effect ([AuthEnv]). A statement is atomic. *)

From Stdlib Require Import ZArith Lia Bool.
From stdpp Require Import base gmap strings list relations.
From S2P Require Import Prelude Domain Calendar Tables Sha256.

Local Open Scope Z_scope.
Local Open Scope go_scope.

(** ** Tables *)

(** [model.Session]; two session types exist. *)
Record Session := mkSession {
  ses_ID : string;
  ses_UserID : string;
  ses_AppID : string;
  ses_SessionType : string;
  ses_RefreshToken : string;
  ses_Scope : list string;
  ses_Revoked : bool;
  ses_RevokedAt : option instant;
  ses_RotatedTo : option string;
  ses_ExpiresAt : instant;
}.

(** [model.User], with the columns the service reads; [users] has no email of
    its own at creation. *)
Record User := mkUser {
  us_Nickname : option string;
  us_Email : option string;
  us_AvatarURL : option string;
  us_Status : string;
}.

Record SocialIdentity := mkIdentity {
  si_UserID : string;
  si_Provider : string;
  si_ProviderUID : string;
  si_Email : option string;
}.

Record AuthPlan := mkAuthPlan {
  ap_Name : string;
  ap_Apps : list string;
  ap_ProductCode : string;
  ap_IsActive : bool;
  ap_AcceptingNewSubscriptions : bool;
  ap_TrialDays : Z;
}.

(** A row of [subscriptions] as the service reads it. *)
Record MemberSub := mkMemberSub {
  ms_UserID : string;
  ms_PlanID : string;
  ms_ProductCode : string;
  ms_Status : string;
  ms_ExpiresAt : option instant;
  ms_Channel : option string;
  ms_AutoRenew : bool;
}.

Record AuthDB := mkAuthDB {
  au_users : gmap string User;
  au_identities : gmap string SocialIdentity;
  au_plans : gmap string AuthPlan;
  au_subs : gmap string MemberSub;
  (** the apps with their [is_active] *)
  au_apps : gmap string bool;
  au_sessions : gmap string Session;
}.

Definition set_au_users v (db : AuthDB) : AuthDB := mkAuthDB v (au_identities db) (au_plans db) (au_subs db) (au_apps db) (au_sessions db).
Definition set_au_identities v (db : AuthDB) : AuthDB := mkAuthDB (au_users db) v (au_plans db) (au_subs db) (au_apps db) (au_sessions db).
Definition set_au_subs v (db : AuthDB) : AuthDB := mkAuthDB (au_users db) (au_identities db) (au_plans db) v (au_apps db) (au_sessions db).
Definition set_au_sessions v (db : AuthDB) : AuthDB := mkAuthDB (au_users db) (au_identities db) (au_plans db) (au_subs db) (au_apps db) v.

(** ** Errors *)

Inductive AuthErr :=
| ErrNilProfile | ErrInvalidRefreshToken | ErrUserNotFound | ErrUserSuspended | ErrUserDeleted
| ErrAppNotFound | ErrAppInactive | ErrPlanNotFound | ErrPlanInactive | ErrPlanNotAcceptingNew
| ErrSessionAlreadyRevoked
(** the rotation did not end within its hops *)
| ErrNotConverged
(** signing, or the source of randomness *)
| ErrCrypto
| EStatement (e : DbError).

#[global] Instance DbError_eq_dec : EqDecision DbError.
Proof. solve_decision. Defined.
#[global] Instance AuthErr_eq_dec : EqDecision AuthErr.
Proof. solve_decision. Defined.

Definition ares (A : Type) := result AuthErr A.
Definition no_rows {A} : ares A := Err (EStatement ErrNoRows).

(** [isDuplicateKey]. *)
Definition isDuplicateKey (e : AuthErr) : bool := bool_decide (e = EStatement UniqueViolation).

(** ** Statements *)

Definition get {A} (k : string) (m : gmap string A) : ares A := match m !! k with Some a => Ok a | None => no_rows end.
Definition first_row {A} (p : A -> bool) (m : gmap string A) : ares A :=
  match rows m p with a :: _ => Ok a | [] => no_rows end.

(** INSERT under a fresh primary key and a foreign key. *)
Definition insert_new {A} (k : string) (a : A) (ref : bool) (m : gmap string A) : ares (gmap string A) :=
  match m !! k with
  | Some _ => Err (EStatement UniqueViolation)
  | None => if ref then Ok (<[k := a]> m) else Err (EStatement ForeignKeyViolation)
  end.

Definition CreateUser (id : string) (u : User) (db : AuthDB) : ares AuthDB :=
  let? m := insert_new id u true (au_users db) in Ok (set_au_users m db).

(** UNIQUE (provider, provider_uid); the providers of the CHECK. *)
Definition CreateIdentity (id : string) (i : SocialIdentity) (db : AuthDB) : ares AuthDB :=
  guard existsb (String.eqb (si_Provider i)) ["github"; "google"; "wechat"] else EStatement CheckViolation;
  fail_if existsb (fun o => String.eqb (si_Provider o) (si_Provider i) && String.eqb (si_ProviderUID o) (si_ProviderUID i))
            (map_to_list (au_identities db)).*2 with EStatement UniqueViolation;
  let? m := insert_new id i (has (au_users db) (si_UserID i)) (au_identities db) in Ok (set_au_identities m db).

Definition FindByProviderUID (provider uid : string) (db : AuthDB) : ares SocialIdentity :=
  first_row (fun i => String.eqb (si_Provider i) provider && String.eqb (si_ProviderUID i) uid) (au_identities db).
Definition FindByEmail (email : string) (db : AuthDB) : list SocialIdentity :=
  rows (au_identities db) (fun i => bool_decide (si_Email i = Some email)).
(** ORDER BY created_at, id: any order, the callers look for one row. *)
Definition ListByUserID (userID : string) (db : AuthDB) : list SocialIdentity :=
  rows (au_identities db) (fun i => String.eqb (si_UserID i) userID).

(** DELETE ... WHERE the user has more than one. *)
Definition DeleteIfNotLast (id userID : string) (db : AuthDB) : AuthDB * bool :=
  match au_identities db !! id with
  | Some i => if String.eqb (si_UserID i) userID && (1 <? length (ListByUserID userID db))%nat
              then (set_au_identities (delete id (au_identities db)) db, true) else (db, false)
  | None => (db, false)
  end.

Definition ProductKayaMembership : string := "kaya-membership".

(** One active subscription per user and product; the trigger that gives the
    plan's product. *)
Definition CreateSubscription (id : string) (s : MemberSub) (db : AuthDB) : ares AuthDB :=
  let? plan := get (ms_PlanID s) (au_plans db) in
  let product := if String.eqb (ms_ProductCode s) "" then ap_ProductCode plan else ms_ProductCode s in
  guard String.eqb product (ap_ProductCode plan) else EStatement OtherDbError;
  let s := mkMemberSub (ms_UserID s) (ms_PlanID s) product (ms_Status s) (ms_ExpiresAt s) (ms_Channel s) (ms_AutoRenew s) in
  fail_if String.eqb (ms_Status s) "active"
          && existsb (fun o => String.eqb (ms_UserID o) (ms_UserID s) && String.eqb (ms_ProductCode o) product
                               && String.eqb (ms_Status o) "active") (map_to_list (au_subs db)).*2
    with EStatement UniqueViolation;
  let? m := insert_new id s (has (au_users db) (ms_UserID s)) (au_subs db) in Ok (set_au_subs m db).

Definition FindActiveByUserAndProduct (userID product : string) (db : AuthDB) : ares MemberSub :=
  first_row (fun s => String.eqb (ms_UserID s) userID && String.eqb (ms_ProductCode s) product
                      && String.eqb (ms_Status s) "active") (au_subs db).
Definition FindActiveByUserID (userID : string) (db : AuthDB) : ares MemberSub :=
  FindActiveByUserAndProduct userID ProductKayaMembership db.

(** *** Sessions *)

Definition CreateSession (s : Session) (db : AuthDB) : ares AuthDB :=
  guard String.eqb (ses_SessionType s) "refresh" || String.eqb (ses_SessionType s) "auth_code" else EStatement CheckViolation;
  let? m := insert_new (ses_ID s) s (has (au_users db) (ses_UserID s)) (au_sessions db) in Ok (set_au_sessions m db).

Definition FindByRefreshToken (token sessionType : string) (now : instant) (db : AuthDB) : ares Session :=
  first_row (fun s => String.eqb (ses_RefreshToken s) token && String.eqb (ses_SessionType s) sessionType
                      && negb (ses_Revoked s) && (now <? ses_ExpiresAt s)) (au_sessions db).
Definition FindByRefreshTokenIncludeRevoked (token sessionType : string) (now : instant) (db : AuthDB) : ares Session :=
  first_row (fun s => String.eqb (ses_RefreshToken s) token && String.eqb (ses_SessionType s) sessionType
                      && (now <? ses_ExpiresAt s)) (au_sessions db).
Definition FindSessionByID (id : string) (db : AuthDB) : ares Session := get id (au_sessions db).

Definition with_revocation (at_ : option instant) (to : option string) (s : Session) : Session :=
  mkSession (ses_ID s) (ses_UserID s) (ses_AppID s) (ses_SessionType s) (ses_RefreshToken s) (ses_Scope s) true at_ to
    (ses_ExpiresAt s).

(** COALESCE(revoked_at, now()) keeps the first revocation. *)
Definition Revoke (id : string) (now : instant) (db : AuthDB) : AuthDB :=
  set_au_sessions (alter (fun s => with_revocation (Some (default now (ses_RevokedAt s))) (ses_RotatedTo s) s) id
                     (au_sessions db)) db.

Definition RevokeIfNotRevoked (id : string) (now : instant) (db : AuthDB) : AuthDB * bool :=
  match au_sessions db !! id with
  | Some s => if ses_Revoked s then (db, false)
              else (set_au_sessions (<[id := with_revocation (Some now) (ses_RotatedTo s) s]> (au_sessions db)) db, true)
  | None => (db, false)
  end.

(** One transaction: the successor first, then the old row. *)
Definition RotateRefresh (oldID : string) (new : Session) (now : instant) (db : AuthDB) : ares AuthDB :=
  let? db := CreateSession new db in
  match au_sessions db !! oldID with
  | Some s => if ses_Revoked s then Err ErrSessionAlreadyRevoked
              else Ok (set_au_sessions (<[oldID := with_revocation (Some now) (Some (ses_ID new)) s]> (au_sessions db)) db)
  | None => Err ErrSessionAlreadyRevoked
  end.

(** The rows of the recursive query: each once, along [rotated_to]. *)
Fixpoint chain_ids (fuel : nat) (m : gmap string Session) (id : string) : list string :=
  match fuel, m !! id with
  | S fuel, Some s => id :: match ses_RotatedTo s with Some next => chain_ids fuel m next | None => [] end
  | _, _ => []
  end.

Definition RevokeChainFrom (startID : string) (now : instant) (db : AuthDB) : AuthDB :=
  match au_sessions db !! startID with
  | None => db
  | Some start =>
      let chain := chain_ids (size (au_sessions db)) (au_sessions db) startID in
      set_au_sessions (map_imap (fun id s => Some (if bool_decide (id ∈ chain) && String.eqb (ses_UserID s) (ses_UserID start)
                                                      && negb (ses_Revoked s)
                                                   then with_revocation (Some now) (ses_RotatedTo s) s else s))
                         (au_sessions db)) db
  end.

Definition ExchangeAuthCode (oldID : string) (new : Session) (now : instant) (db : AuthDB) : ares (bool * AuthDB) :=
  let '(db1, done) := RevokeIfNotRevoked oldID now db in
  if done then let? db2 := CreateSession new db1 in Ok (true, db2) else Ok (false, db).

(** ** Programs of statements *)

Record AuthEnv := mkAuthEnv {
  (** what others commit before a statement *)
  ae_others : nat -> AuthDB -> AuthDB;
  (** a statement that fails, with or without its effect *)
  ae_io : nat -> option bool;
  (** the clocks of the server and of the database *)
  ae_clock : nat -> instant;
  ae_now : nat -> instant;
  ae_uuid : nat -> string;
  ae_rand : nat -> option (list Z);
  (** whether the signature succeeds *)
  ae_sign : nat -> bool;
}.

Record AuthRun := mkAuthRun { ar_DB : AuthDB; ar_n : nat }.

Definition prog (A : Type) := AuthRun -> AuthRun * ares A.
Definition pret {A} (r : ares A) : prog A := fun s => (s, r).
Definition pbind {A B} (p : prog A) (k : A -> prog B) : prog B :=
  fun s => match p s with (s, Ok a) => k a s | (s, Err e) => (s, Err e) end.
(** The error too goes on. *)
Definition pcatch {A B} (p : prog A) (k : ares A -> prog B) : prog B := fun s => let '(s, r) := p s in k r s.

Declare Scope auth_scope.
Delimit Scope auth_scope with auth.
Notation "'run' x '<-' p ';' k" := (pbind p (fun x => k)) (at level 10, x pattern, p at level 100, k at level 200) : auth_scope.
Notation "'attempt' x '<-' p ';' k" := (pcatch p (fun x => k)) (at level 10, x pattern, p at level 100, k at level 200) : auth_scope.
Local Open Scope auth_scope.

Section Service.
(** The token lifetimes are configured. *)
Context (env : AuthEnv) (accessTTL refreshTTL : duration).

Definition statement {A} (f : nat -> AuthDB -> AuthDB * ares A) : prog A := fun s =>
  let n := ar_n s in
  let db := ae_others env n (ar_DB s) in
  match ae_io env n with
  | Some landed => (mkAuthRun (if landed then (f n db).1 else db) (S n), Err (EStatement OtherDbError))
  | None => let '(db', r) := f n db in (mkAuthRun db' (S n), r)
  end.
Definition select {A} (f : nat -> AuthDB -> ares A) : prog A := statement (fun n db => (db, f n db)).
Definition exec (f : nat -> AuthDB -> ares AuthDB) : prog unit :=
  statement (fun n db => match f n db with Ok db' => (db', Ok tt) | Err e => (db, Err e) end).
Definition update (f : nat -> AuthDB -> AuthDB) : prog unit := statement (fun n db => (f n db, Ok tt)).

(** Readings of the clock and of the generators. *)
Definition draw {A} (f : nat -> ares A) : prog A := fun s => (mkAuthRun (ar_DB s) (S (ar_n s)), f (ar_n s)).
Definition now_ : prog instant := draw (fun n => Ok (ae_clock env n)).
Definition GenerateUUID : prog string := draw (fun n => Ok (ae_uuid env n)).
Definition GenerateRefreshToken : prog string :=
  draw (fun n => match ae_rand env n with Some b => Ok (EncodeToString b) | None => Err ErrCrypto end).
Definition hashToken (token : string) : string := EncodeToString (Sum256 token).

(** Failures of a lookup other than a missing row are the caller's; a missing
    row is [e]. *)
Definition or_missing {A} (e : AuthErr) (r : ares A) : ares A :=
  match r with Err err => Err (if bool_decide (err = EStatement ErrNoRows) then e else err) | Ok a => Ok a end.
Definition find {A} (e : AuthErr) (f : nat -> AuthDB -> ares A) : prog A := attempt r <- select f; pret (or_missing e r).

(** ** Plans and scopes *)

Record Issuance := mkIssuance {
  is_ChosenPlan : option AuthPlan;
  is_SurfacePlanID : string;
  is_SurfacePlanName : string;
  is_HasAccess : bool;
  is_ExpiresAt : option instant;
  is_Channel : option string;
  is_AutoRenew : bool;
}.

Definition isExpiredAt (s : MemberSub) (now : instant) : bool :=
  match ms_ExpiresAt s with Some t => t <? now | None => false end.

Definition peekSubscription (userID : string) (now : instant) : prog (option (MemberSub * bool)) :=
  attempt r <- select (fun _ => FindActiveByUserID userID);
  match r with
  | Ok s => pret (Ok (Some (s, isExpiredAt s now)))
  | Err e => if bool_decide (e = EStatement ErrNoRows) then pret (Ok None) else pret (Err e)
  end.

(** [&model.Plan{ID: ...}]. *)
Definition placeholder_plan : AuthPlan := mkAuthPlan "" [] "" false false 0.

Definition opens (p : AuthPlan) (appID : string) : bool := ap_IsActive p && existsb (String.eqb appID) (ap_Apps p).

Definition resolvePlanForTokenIssuanceWithPlan (userID appID : string) (requested : option (string * AuthPlan))
    (now : instant) : prog Issuance :=
  run peeked <- peekSubscription userID now;
  match peeked with
  | None =>
      pret (Ok match requested with
               | None => mkIssuance None "" "" false None None false
               | Some (id, p) => mkIssuance (Some p) id (ap_Name p) (opens p appID) None None false
               end)
  | Some (sub, expired) =>
      attempt r <- select (fun _ db => get (ms_PlanID sub) (au_plans db));
      match r with
      | Err e =>
          if expired
          then pret (Ok (mkIssuance (Some placeholder_plan) (ms_PlanID sub) "" false (ms_ExpiresAt sub) (ms_Channel sub) (ms_AutoRenew sub)))
          else pret (Err e)
      | Ok plan =>
          pret (Ok (mkIssuance (Some plan) (ms_PlanID sub) (ap_Name plan) (if expired then false else opens plan appID)
                      (ms_ExpiresAt sub) (ms_Channel sub) (ms_AutoRenew sub)))
      end
  end.

Definition resolvePlanForTokenIssuance (userID appID : string) (now : instant) : prog Issuance :=
  resolvePlanForTokenIssuanceWithPlan userID appID None now.

Definition scopeForTokenIssuance (chosen : option AuthPlan) (expiresAt : option instant) (now : instant) : list string :=
  match chosen with
  | None => []
  | Some p => if negb (ap_IsActive p) || match expiresAt with Some t => t <? now | None => false end then [] else ap_Apps p
  end.

(** ** Tokens *)

(** The claims that are signed. *)
Record TokenClaims := mkClaims {
  tc_Subject : string;
  tc_Issuer : string;
  tc_Audience : list string;
  tc_AppID : string;
  tc_Scope : list string;
  tc_ExpiresAt : instant;
  tc_IssuedAt : instant;
}.

Definition issuer : string := "yunhou-users".

Definition SignAccessToken (userID appID : string) (scope : list string) : prog TokenClaims :=
  run now <- now_;
  draw (fun n => if ae_sign env n
                 then Ok (mkClaims userID issuer [appID] appID scope (time_add now accessTTL) now) else Err ErrCrypto).

Record SubscriptionInfo := mkSubInfo {
  sn_PlanID : string;
  sn_PlanName : string;
  sn_HasAccess : bool;
  sn_ExpiresAt : option instant;
  sn_IsAcceptingNew : bool;
  sn_Channel : option string;
  sn_AutoRenew : bool;
}.

Record LoginResponse := mkLogin {
  lr_AccessToken : TokenClaims;
  lr_RefreshToken : string;
  lr_UserID : string;
  lr_Nickname : option string;
  lr_Email : option string;
  lr_AvatarURL : option string;
  lr_Subscription : SubscriptionInfo;
}.

Definition respond (claims : TokenClaims) (refresh userID : string) (u : User) (email : option string) (i : Issuance)
  : LoginResponse :=
  mkLogin claims refresh userID (us_Nickname u) email (us_AvatarURL u)
    (mkSubInfo (is_SurfacePlanID i) (is_SurfacePlanName i) (is_HasAccess i) (is_ExpiresAt i)
       (match is_ChosenPlan i with Some p => ap_IsActive p && ap_AcceptingNewSubscriptions p | None => false end)
       (is_Channel i) (is_AutoRenew i)).

Definition new_session (id userID appID token : string) (scope : list string) (now : instant) : Session :=
  mkSession id userID appID "refresh" (hashToken token) scope false None None (time_add now refreshTTL).

Definition issueTokensForUserWithPlan (userID : string) (u : User) (appID : string) (overrideEmail : option string)
    (requested : option (string * AuthPlan)) : prog LoginResponse :=
  run now <- now_;
  run i <- resolvePlanForTokenIssuanceWithPlan userID appID requested now;
  let scope := scopeForTokenIssuance (is_ChosenPlan i) (is_ExpiresAt i) now in
  run claims <- SignAccessToken userID appID scope;
  run raw <- GenerateRefreshToken;
  run id <- GenerateUUID;
  run _ <- exec (fun _ => CreateSession (new_session id userID appID raw scope now));
  pret (Ok (respond claims raw userID u (match overrideEmail with Some e => Some e | None => us_Email u end) i)).

(** ** Logins *)

Record ProviderUserInfo := mkProfile {
  pi_Provider : string;
  pi_ProviderUID : string;
  pi_Email : string;
  pi_Nickname : string;
  pi_AvatarURL : string;
}.

Definition active_app (appID : string) : prog unit :=
  run active <- find ErrAppNotFound (fun _ db => get appID (au_apps db));
  pret (if active then Ok tt else Err ErrAppInactive).

Definition usable (u : User) : ares unit :=
  fail_if String.eqb (us_Status u) "suspended" with ErrUserSuspended;
  fail_if String.eqb (us_Status u) "deleted" with ErrUserDeleted;
  Ok tt.

Definition isTestIdentityProviderUID (uid : string) : bool := String.prefix "l3-e2e-" uid.

(** The user to bind to, and whether it was created. *)
Definition resolveOrCreateUser (info : ProviderUserInfo) : prog (string * bool) :=
  run byEmail <- (if String.eqb (pi_Email info) "" then pret (Ok [])
                  else select (fun _ db => Ok (FindByEmail (pi_Email info) db)));
  match List.filter (fun i => negb (isTestIdentityProviderUID (si_ProviderUID i))) byEmail with
  | i :: _ => pret (Ok (si_UserID i, false))
  | [] =>
      run id <- GenerateUUID;
      run _ <- exec (fun _ => CreateUser id (mkUser (Some (pi_Nickname info)) None (Some (pi_AvatarURL info)) "active"));
      pret (Ok (id, true))
  end.

Definition trialPlanID : string := "trial".
Definition maxIntervalDays : Z := 365 * 290.

(** Best effort: every failure is swallowed. *)
Definition grantTrialSubscription (userID : string) : prog unit :=
  attempt r <- select (fun _ db => get trialPlanID (au_plans db));
  match r with
  | Err _ => pret (Ok tt)
  | Ok plan =>
      if negb (ap_IsActive plan) || (ap_TrialDays plan <=? 0) then pret (Ok tt) else
      run now <- now_;
      let expiresAt := time_add now (Z.min (ap_TrialDays plan) maxIntervalDays * 24 * hour) in
      run id <- GenerateUUID;
      attempt _ <- exec (fun _ => CreateSubscription id
                           (mkMemberSub userID trialPlanID ProductKayaMembership "active" (Some expiresAt) None false));
      pret (Ok tt)
  end.

Definition user_row (id : string) : prog (string * User) :=
  run u <- select (fun _ db => get id (au_users db)); pret (Ok (id, u)).

Definition getOrCreateUser (info : ProviderUserInfo) : prog (string * User * bool) :=
  attempt existing <- select (fun _ => FindByProviderUID (pi_Provider info) (pi_ProviderUID info));
  match existing with
  | Ok i => run u <- user_row (si_UserID i); pret (Ok (u, false))
  | Err _ =>
      run (userID, isNew) <- resolveOrCreateUser info;
      run id <- GenerateUUID;
      attempt r <- exec (fun _ => CreateIdentity id (mkIdentity userID (pi_Provider info) (pi_ProviderUID info) (Some (pi_Email info))));
      match r with
      | Err e =>
          if isDuplicateKey e then
            attempt winner <- select (fun _ => FindByProviderUID (pi_Provider info) (pi_ProviderUID info));
            match winner with
            | Ok i => run u <- user_row (si_UserID i); pret (Ok (u, false))
            | Err _ => pret (Err e)
            end
          else pret (Err e)
      | Ok _ =>
          run _ <- (if isNew then grantTrialSubscription userID else pret (Ok tt));
          run u <- user_row userID;
          pret (Ok (u, isNew))
      end
  end.

(** The email of the identity that signed in, if the listing succeeds and has it. *)
Definition login_email (info : ProviderUserInfo) (u : User) (r : ares (list SocialIdentity)) : option string :=
  match r with
  | Err _ => us_Email u
  | Ok l => match List.find (fun i => String.eqb (si_Provider i) (pi_Provider info)
                                      && String.eqb (si_ProviderUID i) (pi_ProviderUID info)) l with
            | Some i => si_Email i | None => us_Email u end
  end.

Definition LoginWithProfile (profile : option ProviderUserInfo) (appID : string) : prog LoginResponse :=
  match profile with
  | None => pret (Err ErrNilProfile)
  | Some info =>
      run _ <- active_app appID;
      run (id, u, _) <- getOrCreateUser info;
      run _ <- pret (usable u);
      attempt identities <- select (fun _ db => Ok (ListByUserID id db));
      let u := mkUser (us_Nickname u) (login_email info u identities) (us_AvatarURL u) (us_Status u) in
      issueTokensForUserWithPlan id u appID None None
  end.

Definition requested_plan (planID : string) : prog (option (string * AuthPlan)) :=
  if String.eqb planID "" then pret (Ok None) else
  run p <- find ErrPlanNotFound (fun _ db => get planID (au_plans db));
  pret (fail_if negb (ap_IsActive p) with ErrPlanInactive;
        fail_if negb (ap_AcceptingNewSubscriptions p) with ErrPlanNotAcceptingNew;
        Ok (Some (planID, p))).

Definition TestLogin (email appID planID : string) : prog LoginResponse :=
  run _ <- active_app appID;
  run requested <- requested_plan planID;
  run identities <- select (fun _ db => Ok (FindByEmail email db));
  run (id, u) <- match identities with
                 | i :: _ => user_row (si_UserID i)
                 | [] =>
                     run id <- GenerateUUID;
                     let u := mkUser (Some email) None None "active" in
                     run _ <- exec (fun _ => CreateUser id u);
                     run iid <- GenerateUUID;
                     run _ <- exec (fun _ => CreateIdentity iid (mkIdentity id "github" ("l3-e2e-" +:+ id) (Some email)));
                     pret (Ok (id, u))
                 end;
  run _ <- pret (usable u);
  issueTokensForUserWithPlan id u appID (Some email) requested.

(** ** Sessions *)

Definition Logout (refreshToken : string) : prog unit :=
  attempt r <- select (fun n => FindByRefreshToken (hashToken refreshToken) "refresh" (ae_clock env n));
  match r with
  | Ok s => update (fun n => Revoke (ses_ID s) (ae_now env n))
  | Err e => pret (if bool_decide (e = EStatement ErrNoRows) then Ok tt else Err e)
  end.

Definition refreshRotationGraceWindow : duration := 60 * second.
Definition maxRotationChainHops : nat := 10.

Definition graceSuccessor (cur : Session) (now : instant) : prog Session :=
  match ses_RotatedTo cur, ses_RevokedAt cur with
  | Some next, Some revoked =>
      if time_sub now revoked <=? refreshRotationGraceWindow then
        run s <- find ErrInvalidRefreshToken (fun _ => FindSessionByID next);
        pret (if negb (String.eqb (ses_UserID s) (ses_UserID cur)) || negb (String.eqb (ses_SessionType s) "refresh")
              then Err ErrInvalidRefreshToken else Ok s)
      else pret (Err ErrInvalidRefreshToken)
  | _, _ => pret (Err ErrInvalidRefreshToken)
  end.

Definition revokeChainForReuse (s : Session) : prog unit :=
  attempt _ <- update (fun n => RevokeChainFrom (ses_ID s) (ae_now env n)); pret (Ok tt).

Inductive Rotation := Rotated | Reuse (e : AuthErr) | Exhausted.

(** The walk from the presented session to the one to rotate. *)
Fixpoint rotate (hops : nat) (target new : Session) (now : instant) : prog Rotation :=
  match hops with
  | O => pret (Ok Exhausted)
  | S hops =>
      if ses_Revoked target then
        attempt next <- graceSuccessor target now;
        match next with Ok s => rotate hops s new now | Err e => pret (Ok (Reuse e)) end
      else if ses_ExpiresAt target <? now then pret (Err ErrInvalidRefreshToken)
      else
        attempt r <- exec (fun n => RotateRefresh (ses_ID target) new (ae_now env n));
        match r with
        | Ok _ => pret (Ok Rotated)
        | Err e =>
            if bool_decide (e = ErrSessionAlreadyRevoked)
            then run fresh <- select (fun _ => FindSessionByID (ses_ID target)); rotate hops fresh new now
            else pret (Err e)
        end
  end.

Definition RefreshToken (refreshToken appID : string) : prog LoginResponse :=
  run session <- find ErrInvalidRefreshToken
      (fun n => FindByRefreshTokenIncludeRevoked (hashToken refreshToken) "refresh" (ae_clock env n));
  run u <- find ErrUserNotFound (fun _ db => get (ses_UserID session) (au_users db));
  run _ <- pret (usable u);
  let appID := if String.eqb appID "" then ses_AppID session else appID in
  run _ <- active_app appID;
  run now <- now_;
  run i <- resolvePlanForTokenIssuance (ses_UserID session) appID now;
  let scope := scopeForTokenIssuance (is_ChosenPlan i) (is_ExpiresAt i) now in
  run claims <- SignAccessToken (ses_UserID session) appID scope;
  run raw <- GenerateRefreshToken;
  run id <- GenerateUUID;
  run rotation <- rotate maxRotationChainHops session (new_session id (ses_UserID session) appID raw scope now) now;
  match rotation with
  | Rotated => pret (Ok (respond claims raw (ses_UserID session) u (us_Email u) i))
  | Exhausted => pret (Err ErrNotConverged)
  | Reuse e =>
      if bool_decide (e = ErrInvalidRefreshToken)
      then run _ <- revokeChainForReuse session; pret (Err ErrInvalidRefreshToken)
      else pret (Err e)
  end.
End Service.
