(* ===== verification/AuthProps.v ===== *)
(** * AuthProps: what becomes of a session

    The tables of [Auth] as a step relation, in which every method is a
    sequence of steps whatever runs beside it; the shape of the rotation
    chains; and the properties of logins and refreshes. *)

From Stdlib Require Import ZArith Lia Bool.
From stdpp Require Import base gmap strings list relations.
From S2P Require Import Prelude Domain Calendar Tables Sha256 Auth.

Local Open Scope Z_scope.
Local Open Scope go_scope.
Local Open Scope auth_scope.

(** ** Steps *)

(** A session as it is created. *)
Definition opened (T : string -> Prop) (s : Session) : Prop :=
  ses_Revoked s = false /\ ses_RevokedAt s = None /\ ses_RotatedTo s = None /\ T (ses_RefreshToken s).

(** Successful transactions; [T]: the token digests that may be handed out.
    Administration writes the other tables, and deletes no user. *)
Inductive auth_step (T : string -> Prop) (db : AuthDB) : AuthDB -> Prop :=
| as_session s db' : CreateSession s db = Ok db' -> opened T s -> auth_step T db db'
| as_rotate id s now db' o : RotateRefresh id s now db = Ok db' -> opened T s -> ses_SessionType s = "refresh" ->
    au_sessions db !! id = Some o -> ses_UserID o = ses_UserID s -> auth_step T db db'
| as_revoke id now : auth_step T db (Revoke id now db)
| as_revoke_once id now : auth_step T db (RevokeIfNotRevoked id now db).1
| as_chain id now : auth_step T db (RevokeChainFrom id now db)
| as_exchange id s now b db' : ExchangeAuthCode id s now db = Ok (b, db') -> opened T s -> auth_step T db db'
| as_identity id i db' : CreateIdentity id i db = Ok db' -> auth_step T db db'
| as_unbind id u : auth_step T db (DeleteIfNotLast id u db).1
| as_user id u db' : CreateUser id u db = Ok db' -> auth_step T db db'
| as_admin us ps ss apps : (forall id, is_Some (au_users db !! id) -> is_Some (us !! id)) ->
    auth_step T db (mkAuthDB us (au_identities db) ps ss apps (au_sessions db)).

Definition auth_steps (T : string -> Prop) : AuthDB -> AuthDB -> Prop := rtc (auth_step T).

(** ** Sessions over time *)

Definition session_core (s : Session) :=
  (ses_ID s, ses_UserID s, ses_AppID s, ses_SessionType s, ses_RefreshToken s, ses_ExpiresAt s).

(** A revocation is final and keeps its time. *)
Definition stays_revoked (s s' : Session) : Prop :=
  ses_Revoked s = true -> ses_Revoked s' = true /\ forall r, ses_RevokedAt s = Some r -> ses_RevokedAt s' = Some r.

(** What a session was granted stays, and only a live session gets a successor. *)
Definition session_evolves (s s' : Session) : Prop :=
  session_core s = session_core s' /\ stays_revoked s s' /\ (ses_Revoked s = true -> ses_RotatedTo s' = ses_RotatedTo s).

#[export] Instance session_evolves_preorder : PreOrder session_evolves.
Proof.
  split; [by intros s|]. intros a b c (H1 & H2 & H3) (K1 & K2 & K3). unfold stays_revoked in *.
  split; [congruence|]. split; intros Ha; destruct (H2 Ha) as [Hb Hr]; [|rewrite (K3 Hb); auto].
  destruct (K2 Hb) as [Hc Ht]. auto.
Qed.

Definition sessions_evolve (db db' : AuthDB) : Prop :=
  forall k s, au_sessions db !! k = Some s -> exists s', au_sessions db' !! k = Some s' /\ session_evolves s s'.

#[export] Instance sessions_evolve_preorder : PreOrder sessions_evolve.
Proof.
  split; [intros db k s H; by exists s|]. intros a b c H K k s Hs. destruct (H _ _ Hs) as (x & Hx & R).
  destruct (K _ _ Hx) as (y & Hy & R'). exists y. split; [done|]. by etransitivity.
Qed.

Definition link (m : gmap string Session) (k n : string) : Prop := exists s, m !! k = Some s /\ ses_RotatedTo s = Some n.
Definition on_chain (m : gmap string Session) : string -> string -> Prop := rtc (link m).
Definition live (m : gmap string Session) (k : string) : Prop := exists s, m !! k = Some s /\ ses_Revoked s = false.

(** The shape of the chains. *)
Record chains_ok (m : gmap string Session) : Prop := {
  co_key : forall k s, m !! k = Some s -> ses_ID s = k;
  co_link : forall k s n, m !! k = Some s -> ses_RotatedTo s = Some n ->
    ses_Revoked s = true /\ exists t, m !! n = Some t /\ ses_UserID t = ses_UserID s /\ ses_SessionType t = "refresh";
  co_pred : forall k k' n, link m k n -> link m k' n -> k = k';
  (** a successor is younger *)
  co_rank : exists (rank : string -> nat) (b : nat), (forall k s, m !! k = Some s -> (rank k < b)%nat)
    /\ forall k n, link m k n -> (rank k < rank n)%nat;
}.

Lemma insert_new_Ok {A} k (a : A) ref m m' : insert_new k a ref m = Ok m' -> m !! k = None /\ ref = true /\ m' = <[k := a]> m.
Proof. unfold insert_new. destruct (m !! k); [done|]. destruct ref; [|done]. by intros [= <-]. Qed.

Lemma CreateSession_Ok s db db' : CreateSession s db = Ok db' -> au_sessions db !! ses_ID s = None /\ is_Some (au_users db !! ses_UserID s)
  /\ db' = set_au_sessions (<[ses_ID s := s]> (au_sessions db)) db.
Proof.
  unfold CreateSession. intros H. inv_ok. apply insert_new_Ok in E0 as (Hn & Hu & ->). by apply has_true in Hu.
Qed.

Lemma RotateRefresh_Ok id s now db db' o : RotateRefresh id s now db = Ok db' -> au_sessions db !! id = Some o ->
  ses_Revoked o = false /\ au_sessions db !! ses_ID s = None /\ is_Some (au_users db !! ses_UserID s)
  /\ db' = set_au_sessions (<[id := with_revocation (Some now) (Some (ses_ID s)) o]> (<[ses_ID s := s]> (au_sessions db))) db.
Proof.
  unfold RotateRefresh. intros H Ho. apply rbind_Ok in H as (db1 & (Hn & Hu & ->)%CreateSession_Ok & H). simpl in H.
  rewrite lookup_insert_ne, Ho in H by congruence. destruct (ses_Revoked o) eqn:Er; [done|]. injection H as <-. by split_and!.
Qed.

(** Rows that keep their links: the shape is kept. *)
Definition same_links (m m' : gmap string Session) : Prop :=
  (forall k s', m' !! k = Some s' -> exists s, m !! k = Some s /\ session_core s = session_core s' /\ ses_RotatedTo s' = ses_RotatedTo s
     /\ stays_revoked s s')
  /\ (forall k, is_Some (m !! k) -> is_Some (m' !! k)).

Lemma same_links_link m m' k n : same_links m m' -> link m' k n -> link m k n.
Proof. intros [H _] (s' & Hs' & Hr). destruct (H _ _ Hs') as (s & Hs & _ & Ht & _). exists s. split; [done|congruence]. Qed.

Lemma same_links_ok m m' : same_links m m' -> chains_ok m -> chains_ok m'.
Proof.
  intros S [Hk Hl Hp (rank & b & Hb & Hr)]. pose proof S as [H1 H2]. split.
  - intros k s' Hs'. destruct (H1 _ _ Hs') as (s & Hs & Hc & _). rewrite <- (Hk _ _ Hs). unfold session_core in Hc. by simplify_eq.
  - intros k s' n Hs' Hn. destruct (H1 _ _ Hs') as (s & Hs & Hc & Ht & Hv). rewrite Ht in Hn.
    destruct (Hl _ _ _ Hs Hn) as (Hrev & t & Htn & Hu & Hty). split; [by apply Hv|]. destruct (H2 n) as [t' Ht']; [by eauto|].
    exists t'. split; [done|]. destruct (H1 _ _ Ht') as (t0 & Ht0 & Hc0 & _). unfold session_core in *. simplify_eq. split; congruence.
  - intros k k' n L L'. eapply Hp; by eapply same_links_link.
  - exists rank, b. split.
    + intros k s' Hs'. destruct (H1 _ _ Hs') as (s & Hs & _). eauto.
    + intros k n L. apply Hr. by eapply same_links_link.
Qed.

Lemma same_links_refl m : same_links m m.
Proof. split; [|done]. intros k s H. by exists s. Qed.

(** Revoking rows under a condition. *)
Lemma same_links_map (f : string -> Session -> Session) m m' :
  (forall k, m' !! k = f k <$> m !! k) ->
  (forall k s, session_core (f k s) = session_core s /\ ses_RotatedTo (f k s) = ses_RotatedTo s /\ stays_revoked s (f k s)) ->
  same_links m m'.
Proof.
  intros Hm Hf. split.
  - intros k s'. rewrite Hm. intros (s & Hs & ->)%fmap_Some. exists s. destruct (Hf k s) as (? & ? & ?). by split_and!.
  - intros k [s Hs]. rewrite Hm, Hs. by eexists.
Qed.

Lemma Revoke_links id now db : same_links (au_sessions db) (au_sessions (Revoke id now db)).
Proof.
  apply (same_links_map (fun k s => if decide (k = id) then with_revocation (Some (default now (ses_RevokedAt s))) (ses_RotatedTo s) s else s)).
  - intros k. simpl. destruct (decide (k = id)) as [->|Hne].
    + by rewrite lookup_alter_eq.
    + rewrite lookup_alter_ne by done. by destruct (_ !! k).
  - intros k s. destruct (decide _); [|done]. split_and!; try done. intros _. split; [done|]. by intros r ->.
Qed.

Lemma RevokeIfNotRevoked_links id now db : same_links (au_sessions db) (au_sessions (RevokeIfNotRevoked id now db).1).
Proof.
  unfold RevokeIfNotRevoked. destruct (_ !! id) as [o|] eqn:E; [|apply same_links_refl].
  destruct (ses_Revoked o) eqn:Eo; [apply same_links_refl|]. simpl.
  apply (same_links_map (fun k s => if decide (k = id) then (if ses_Revoked s then s else with_revocation (Some now) (ses_RotatedTo s) s) else s)).
  - intros k. destruct (decide (k = id)) as [->|Hne]; [rewrite lookup_insert_eq, E; simpl; by rewrite Eo|].
    rewrite lookup_insert_ne by done. by destruct (_ !! k).
  - intros k s. destruct (decide _); [|done]. destruct (ses_Revoked s) eqn:Es; [done|]. split_and!; try done. intros ?. congruence.
Qed.

Lemma RevokeChainFrom_links id now db : same_links (au_sessions db) (au_sessions (RevokeChainFrom id now db)).
Proof.
  unfold RevokeChainFrom. destruct (au_sessions db !! id) as [o|]; [|apply same_links_refl]. simpl.
  apply (same_links_map (fun k s => if bool_decide (k ∈ chain_ids (size (au_sessions db)) (au_sessions db) id) && String.eqb (ses_UserID s) (ses_UserID o) && negb (ses_Revoked s)
    then with_revocation (Some now) (ses_RotatedTo s) s else s)).
  - intros k. rewrite map_lookup_imap. by destruct (_ !! k).
  - intros k s. destruct (_ && _) eqn:E; [|done]. bool_prop. split_and!; try done. intros ?. congruence.
Qed.

(** A new session starts a chain of its own. *)
Lemma create_ok s m : chains_ok m -> m !! ses_ID s = None -> ses_RotatedTo s = None -> chains_ok (<[ses_ID s := s]> m).
Proof.
  intros [Hk Hl Hp (rank & b & Hb & Hr)] Hn Ht.
  assert (forall k n, link (<[ses_ID s := s]> m) k n -> link m k n) as Hlk.
  { intros k n (x & [[_ <-]|[_ Hx]]%lookup_insert_Some & E); [congruence|]. by exists x. }
  split.
  - intros k x [[<- <-]|[_ Hx]]%lookup_insert_Some; [done|]. by apply Hk.
  - intros k x n [[<- <-]|[_ Hx]]%lookup_insert_Some E; [congruence|]. destruct (Hl _ _ _ Hx E) as (? & t & Hts & ?).
    split; [done|]. exists t. split; [|done]. rewrite lookup_insert_ne by congruence. done.
  - intros k k' n L L'. eapply Hp; by apply Hlk.
  - exists (fun k => if decide (k = ses_ID s) then b else rank k), (S b). split.
    + intros k x [[<- <-]|[Hne Hx]]%lookup_insert_Some; [rewrite decide_True by done; lia|].
      rewrite decide_False by done. specialize (Hb _ _ Hx). lia.
    + intros k n (x & Hx & E)%Hlk. pose proof (Hr k n ltac:(by exists x)) as Hlt. destruct (Hl _ _ _ Hx E) as (_ & t & Htn & _).
      rewrite !decide_False by congruence. done.
Qed.

(** A rotation lengthens the chain of a live session. *)
Lemma rotate_ok id s now o m : chains_ok m -> m !! ses_ID s = None -> ses_RotatedTo s = None -> ses_SessionType s = "refresh" ->
  m !! id = Some o -> ses_Revoked o = false -> ses_UserID o = ses_UserID s ->
  chains_ok (<[id := with_revocation (Some now) (Some (ses_ID s)) o]> (<[ses_ID s := s]> m)).
Proof.
  intros C Hn Ht Hty Ho Hv Hu. pose proof C as [Hk Hl Hp (rank & b & Hb & Hr)].
  assert (id <> ses_ID s) as Hne by congruence.
  assert (forall k n, link (<[id := with_revocation (Some now) (Some (ses_ID s)) o]> (<[ses_ID s := s]> m)) k n ->
            k = id /\ n = ses_ID s \/ k <> id /\ link m k n) as Hlk.
  { intros k n (x & [[<- <-]|[Hki [[<- <-]|[_ Hx]]%lookup_insert_Some]]%lookup_insert_Some & E); [|congruence|].
    - left. simpl in E. split; [done|congruence].
    - right. split; [done|]. by exists x. }
  assert (forall k n, link m k n -> n <> ses_ID s) as Hnew.
  { intros k n (x & Hx & E) ->. destruct (Hl _ _ _ Hx E) as (_ & t & Htn & _). congruence. }
  split.
  - intros k x [[<- <-]|[_ [[<- <-]|[_ Hx]]%lookup_insert_Some]]%lookup_insert_Some; [exact (Hk _ _ Ho)|done|by apply Hk].
  - assert (forall n t, m !! n = Some t -> exists t', (<[id := with_revocation (Some now) (Some (ses_ID s)) o]> (<[ses_ID s := s]> m)) !! n = Some t'
      /\ ses_UserID t' = ses_UserID t /\ ses_SessionType t' = ses_SessionType t) as Hold.
    { intros n t Hnt. destruct (decide (n = id)) as [->|Hni].
      - eexists. rewrite lookup_insert_eq. split; [done|]. by simplify_eq.
      - exists t. rewrite !lookup_insert_ne by congruence. done. }
    intros k x n [[<- <-]|[Hki [[<- <-]|[_ Hx]]%lookup_insert_Some]]%lookup_insert_Some E; [|congruence|].
    + simpl in E. injection E as <-. split; [done|]. exists s. rewrite lookup_insert_ne, lookup_insert_eq by done. done.
    + destruct (Hl _ _ _ Hx E) as (? & t & Hts & Htu & Htt). split; [done|]. destruct (Hold _ _ Hts) as (t' & ? & ? & ?).
      exists t'. split_and!; congruence.
  - intros k k' n [[-> ->]|[_ L]]%Hlk [[-> E]|[_ L']]%Hlk; [done|by apply Hnew in L'|by apply Hnew in L|by eapply Hp].
  - exists (fun k => if decide (k = ses_ID s) then b else rank k), (S b). split.
    + intros k x [[<- <-]|[_ [[<- <-]|[Hks Hx]]%lookup_insert_Some]]%lookup_insert_Some.
      * rewrite decide_False by done. specialize (Hb _ _ Ho). lia.
      * rewrite decide_True by done. lia.
      * rewrite decide_False by done. specialize (Hb _ _ Hx). lia.
    + intros k n [[-> ->]|[_ L]]%Hlk.
      * rewrite decide_False, decide_True by done. by eapply Hb.
      * pose proof (Hr _ _ L). pose proof (Hnew _ _ L). destruct L as (x & Hx & _). rewrite !decide_False by congruence. done.
Qed.

Lemma same_links_evolve db db' : same_links (au_sessions db) (au_sessions db') -> sessions_evolve db db'.
Proof.
  intros [H1 H2] k s Hs. destruct (H2 k) as [s' Hs']; [by eauto|]. destruct (H1 _ _ Hs') as (x & Hx & Hc & Ht & Hv).
  assert (x = s) as -> by congruence. exists s'. split; [done|]. by split_and!.
Qed.

Lemma insert_evolves db db' k s : au_sessions db !! k = None -> au_sessions db' = <[k := s]> (au_sessions db) -> sessions_evolve db db'.
Proof. intros Hn He i x Hx. exists x. rewrite He, lookup_insert_ne by congruence. done. Qed.

Lemma sessions_same db db' : au_sessions db' = au_sessions db -> sessions_evolve db db'.
Proof. intros H k s Hs. exists s. by rewrite H. Qed.

Lemma CreateIdentity_sessions id i db db' : CreateIdentity id i db = Ok db' -> au_sessions db' = au_sessions db.
Proof. unfold CreateIdentity. intros H. by inv_ok. Qed.
Lemma CreateUser_sessions id u db db' : CreateUser id u db = Ok db' -> au_sessions db' = au_sessions db.
Proof. unfold CreateUser. intros H. by inv_ok. Qed.
Lemma DeleteIfNotLast_sessions id u db : au_sessions (DeleteIfNotLast id u db).1 = au_sessions db.
Proof. unfold DeleteIfNotLast. destruct (_ !! _); [|done]. by destruct (_ && _). Qed.

(** An exchange revokes one session and opens another. *)
Lemma ExchangeAuthCode_Ok id s now b db db' : ExchangeAuthCode id s now db = Ok (b, db') ->
  db' = db \/ exists db1, db1 = (RevokeIfNotRevoked id now db).1 /\ CreateSession s db1 = Ok db'.
Proof.
  unfold ExchangeAuthCode. destruct (RevokeIfNotRevoked id now db) as [db1 done] eqn:E. intros H.
  destruct done; inv_ok; eauto.
Qed.

Lemma auth_step_ok T db db' : auth_step T db db' -> chains_ok (au_sessions db) ->
  chains_ok (au_sessions db') /\ sessions_evolve db db'.
Proof.
  assert (forall s d d', CreateSession s d = Ok d' -> opened T s -> chains_ok (au_sessions d) ->
            chains_ok (au_sessions d') /\ sessions_evolve d d') as Hcreate.
  { intros s d d' (Hn & _ & ->)%CreateSession_Ok (_ & _ & Ht & _) Cd. split; [by apply create_ok|by eapply insert_evolves]. }
  assert (forall d d', same_links (au_sessions d) (au_sessions d') -> chains_ok (au_sessions d) ->
            chains_ok (au_sessions d') /\ sessions_evolve d d') as Hlinks.
  { intros d d' S Cd. split; [by eapply same_links_ok|by apply same_links_evolve]. }
  intros [s d H Ho|id s now d o H (_ & _ & Ht & _) Hty Hid Hu|id now|id now|id now|id s now b d H Ho
    |id i d H|id u|id u d H|us ps ss apps H] Cd.
  - by eapply Hcreate.
  - apply (RotateRefresh_Ok _ _ _ _ _ o) in H as (Hv & Hn & _ & ->); [|done]. split; [by apply rotate_ok|].
    intros k x Hx. simpl. destruct (decide (k = id)) as [->|Hne].
    + eexists. rewrite lookup_insert_eq. split; [done|]. simplify_eq. split; [done|]. split; intros ?; congruence.
    + exists x. rewrite !lookup_insert_ne by congruence. done.
  - apply Hlinks; [apply Revoke_links|done].
  - apply Hlinks; [apply RevokeIfNotRevoked_links|done].
  - apply Hlinks; [apply RevokeChainFrom_links|done].
  - apply ExchangeAuthCode_Ok in H as [->|(d1 & -> & H)]; [by split|].
    destruct (Hlinks db (RevokeIfNotRevoked id now db).1) as [C1 E1]; [apply RevokeIfNotRevoked_links|done|].
    destruct (Hcreate _ _ _ H Ho C1) as [C2 E2]. split; [done|]. by etransitivity.
  - apply CreateIdentity_sessions in H as Hs. rewrite Hs. split; [done|by apply sessions_same].
  - pose proof (DeleteIfNotLast_sessions id u db) as Hs. rewrite Hs. split; [done|by apply sessions_same].
  - apply CreateUser_sessions in H as Hs. rewrite Hs. split; [done|by apply sessions_same].
  - split; [done|by apply sessions_same].
Qed.

Lemma auth_steps_ok T db db' : auth_steps T db db' -> chains_ok (au_sessions db) ->
  chains_ok (au_sessions db') /\ sessions_evolve db db'.
Proof.
  induction 1 as [|x y z H _ IH]; [by intros ?|]. intros Cx. destruct (auth_step_ok _ _ _ H Cx) as [Cy Ey].
  destruct (IH Cy) as [Cz Ez]. split; [done|]. by etransitivity.
Qed.

(** ** Chains *)

Definition no_sessions (db : AuthDB) : Prop := au_sessions db = ∅.
Definition auth_reachable (T : string -> Prop) (db : AuthDB) : Prop := exists db0, no_sessions db0 /\ auth_steps T db0 db.

Lemma auth_reachable_ok T db : auth_reachable T db -> chains_ok (au_sessions db).
Proof.
  intros (db0 & H0 & H). apply (auth_steps_ok _ _ _ H). rewrite H0.
  split; [by intros k s|by intros k s n|by intros k k' n (s & ? & _)|].
  exists (fun _ => 0%nat), 0%nat. split; [by intros k s|by intros k n (s & ? & _)].
Qed.

Lemma link_det m k a b : link m k a -> link m k b -> a = b.
Proof. intros (s & Hs & E) (s' & Hs' & E'). congruence. Qed.

(** From one session the chain goes one way. *)
Lemma on_chain_total m r a b : on_chain m r a -> on_chain m r b -> on_chain m a b \/ on_chain m b a.
Proof.
  intros H. revert b. induction H as [r|r x a Hrx Hxa IH]; intros b Hb; [by left|].
  inversion Hb as [|? y ? Hry Hyb]; subst; [right; by eapply rtc_l|]. apply IH. by rewrite (link_det _ _ _ _ Hrx Hry).
Qed.

Lemma live_no_link m k n : chains_ok m -> live m k -> ~ link m k n.
Proof. intros C (s & Hs & Hv) (s' & Hs' & E). simplify_eq. destruct (co_link _ C _ _ _ Hs E) as [? _]. congruence. Qed.

Lemma live_last m k n : chains_ok m -> live m k -> on_chain m k n -> n = k.
Proof. intros C L H. inversion H as [|? x ? Hx]; subst; [done|]. by destruct (live_no_link _ _ x C L). Qed.

(** Nobody on the chain is live. *)
Definition dead (m : gmap string Session) (k : string) : Prop := is_Some (m !! k) /\ forall n, on_chain m k n -> ~ live m n.

(** A revoked session keeps its link. *)
Lemma revoked_keeps_link db db' k x s : sessions_evolve db db' -> au_sessions db !! k = Some s -> ses_Revoked s = true ->
  link (au_sessions db') k x -> link (au_sessions db) k x.
Proof.
  intros E Hs Hv (s' & Hs' & Ht). destruct (E _ _ Hs) as (y & Hy & _ & _ & H). specialize (H Hv).
  exists s. split; [done|]. congruence.
Qed.

Lemma dead_member m k n : dead m k -> on_chain m k n -> chains_ok m -> exists s, m !! n = Some s /\ ses_Revoked s = true.
Proof.
  intros [[s Hs] D] H C. assert (is_Some (m !! n)) as [t Ht].
  { destruct (rtc_inv_r _ _ H) as [<-|(y & _ & (z & Hz & E))]; [by eexists|].
    destruct (co_link _ C _ _ _ Hz E) as (_ & t & Ht & _). by eexists. }
  exists t. split; [done|]. destruct (ses_Revoked t) eqn:Hv; [done|]. destruct (D n H). by exists t.
Qed.

(** A dead chain gets no new links, so it stays dead. *)
Lemma dead_chain_same db db' k n : sessions_evolve db db' -> chains_ok (au_sessions db) -> dead (au_sessions db) k ->
  on_chain (au_sessions db') k n -> on_chain (au_sessions db) k n.
Proof.
  intros E C D H. apply rtc_ind_r with (P := fun n => on_chain (au_sessions db) k n) (x := k) in H; [done|apply rtc_refl|].
  intros y z _ Hyz Hy. destruct (dead_member _ _ _ D Hy C) as (s & Hs & Hv). eapply rtc_r; [exact Hy|].
  by eapply revoked_keeps_link.
Qed.

Lemma dead_stays db db' k : sessions_evolve db db' -> chains_ok (au_sessions db) -> dead (au_sessions db) k ->
  dead (au_sessions db') k.
Proof.
  intros E C D. pose proof D as [[s Hs] _]. split.
  - destruct (E _ _ Hs) as (s' & Hs' & _). by eexists.
  - intros n Hn%(dead_chain_same db) (t & Ht & Hv); [|done..]. destruct (dead_member _ _ _ D Hn C) as (x & Hx & Hxv).
    destruct (E _ _ Hx) as (y & Hy & _ & H & _). destruct (H Hxv) as [? _]. congruence.
Qed.

(** A revoked session without a successor is dead. *)
Lemma revoked_end_dead m k s : m !! k = Some s -> ses_Revoked s = true -> ses_RotatedTo s = None -> dead m k.
Proof.
  intros Hs Hv Ht. split; [by eexists|]. intros n Hn (t & Hnt & Htv).
  inversion Hn as [|? x ? (y & Hy & E)]; subst; congruence.
Qed.

(** *** The recursive query finds the whole chain *)

Lemma chain_ids_on fuel m k n : n ∈ chain_ids fuel m k -> on_chain m k n.
Proof.
  revert k. induction fuel as [|fuel IH]; intros k; simpl; [by intros ?%elem_of_nil|].
  destruct (m !! k) as [s|] eqn:E; [|by intros ?%elem_of_nil]. intros [->|H]%elem_of_cons; [apply rtc_refl|].
  destruct (ses_RotatedTo s) as [x|] eqn:Ex; [|by apply elem_of_nil in H]. eapply rtc_l; [by exists s|by apply IH].
Qed.

(** A chain of [n] links has more than [n] sessions. *)
Lemma chain_length m k n i : chains_ok m -> nsteps (link m) i k n -> is_Some (m !! n) -> (i < size m)%nat.
Proof.
  intros C. destruct (co_rank _ C) as (rank & b & Hb & Hr). intros H Hn.
  assert (exists l, length l = S i /\ NoDup l /\ (forall x, x ∈ l -> is_Some (m !! x) /\ (rank k <= rank x)%nat)) as (l & Hl & Hd & Hin).
  { induction H as [k|i k x n Hkx _ IH].
    - exists [k]. split; [done|]. split; [apply NoDup_singleton|]. intros y ->%list_elem_of_singleton. by split.
    - destruct (IH Hn) as (l & Hl & Hd & Hin). pose proof (Hr _ _ Hkx). exists (k :: l). split; [simpl; lia|]. split.
      + apply NoDup_cons. split; [|done]. intros Hk. destruct (Hin _ Hk). lia.
      + intros y [->|Hy]%elem_of_cons; [destruct Hkx as (s & ? & _); split; [by eexists|done]|].
        destruct (Hin _ Hy). split; [done|lia]. }
  assert (length l <= size m)%nat; [|lia]. rewrite <- size_dom. transitivity (size (list_to_set (C := gset string) l)).
  - by rewrite size_list_to_set.
  - apply subseteq_size. intros x Hx. apply elem_of_list_to_set in Hx. apply elem_of_dom. by apply Hin.
Qed.

Lemma chain_ids_complete fuel m k n i : nsteps (link m) i k n -> is_Some (m !! n) -> (i < fuel)%nat -> n ∈ chain_ids fuel m k.
Proof.
  intros H. revert fuel. induction H as [k|i k x n (s & Hs & E) _ IH]; intros fuel [t Ht] Hf; (destruct fuel as [|fuel]; [lia|]); simpl.
  - rewrite Ht. left.
  - rewrite Hs, E. right. apply IH; [by eexists|lia].
Qed.

Lemma chain_ids_iff m k n : chains_ok m -> is_Some (m !! n) -> n ∈ chain_ids (size m) m k <-> on_chain m k n.
Proof.
  intros C Hn. split; [apply chain_ids_on|]. intros (i & H)%rtc_nsteps. eapply chain_ids_complete; [exact H|done|].
  by eapply chain_length.
Qed.

Lemma on_chain_user m k n s t : chains_ok m -> on_chain m k n -> m !! k = Some s -> m !! n = Some t -> ses_UserID t = ses_UserID s.
Proof.
  intros C H. revert s. induction H as [k|k x n (y & Hy & E) _ IH]; intros s Hs Ht; [congruence|].
  destruct (co_link _ C _ _ _ Hy E) as (_ & z & Hz & Hu & _). rewrite (IH _ Hz Ht). congruence.
Qed.

(** The response to reuse kills the chain, and revokes nothing else. *)
Lemma RevokeChainFrom_dead k now db : chains_ok (au_sessions db) -> is_Some (au_sessions db !! k) ->
  dead (au_sessions (RevokeChainFrom k now db)) k
  /\ forall n, ~ on_chain (au_sessions db) k n -> au_sessions (RevokeChainFrom k now db) !! n = au_sessions db !! n.
Proof.
  intros C [s Hs]. pose proof (RevokeChainFrom_links k now db) as L. unfold RevokeChainFrom in *. rewrite Hs in *. simpl in *.
  split; [split|].
  - apply L. by eexists.
  - intros n Hn (t & Ht & Hv). assert (on_chain (au_sessions db) k n) as Hc.
    { clear Ht. induction Hn as [|? ? ? Hxy _ IH]; [apply rtc_refl|]. eapply rtc_l; [by eapply same_links_link|done]. }
    rewrite map_lookup_imap in Ht. destruct (au_sessions db !! n) as [x|] eqn:Hx; [|done]. simpl in Ht. injection Ht as <-.
    rewrite (bool_decide_eq_true_2 _ (proj2 (chain_ids_iff _ _ _ C ltac:(by eexists)) Hc)) in Hv.
    rewrite (on_chain_user _ _ _ _ _ C Hc Hs Hx), String.eqb_refl in Hv. destruct (ses_Revoked x) eqn:E; simpl in Hv; congruence.
  - intros n Hn. rewrite map_lookup_imap. destruct (au_sessions db !! n) as [x|]; [|done]. simpl.
    rewrite bool_decide_eq_false_2; [done|]. by intros ?%chain_ids_on.
Qed.

(** ** Programs among other requests *)

(** Nothing but [T] tokens is handed out. *)
Lemma auth_steps_tokens T db db' k s' : auth_steps T db db' -> chains_ok (au_sessions db) -> au_sessions db' !! k = Some s' ->
  is_Some (au_sessions db !! k) \/ T (ses_RefreshToken s').
Proof.
  intros H. revert k s'. induction H as [|x y z H Hs IH]; intros k s' C Hk; [left; by eexists|].
  destruct (auth_step_ok _ _ _ H C) as [Cy Ey]. destruct (IH _ _ Cy Hk) as [[t Ht]|?]; [|by right].
  assert (session_core t = session_core s') as Hc.
  { destruct (auth_steps_ok _ _ _ Hs Cy) as [_ Ez]. destruct (Ez _ _ Ht) as (u & Hu & Hcu & _). congruence. }
  assert (is_Some (au_sessions x !! k) \/ T (ses_RefreshToken t)) as [?|HT]; [|by left|].
  2: { right. assert (ses_RefreshToken s' = ses_RefreshToken t) as -> by (unfold session_core in Hc; congruence). done. }
  assert (forall m u, same_links (au_sessions x) m -> m !! k = Some u -> is_Some (au_sessions x !! k)) as Hsl.
  { intros m v [Hm _] Hmt. destruct (Hm _ _ Hmt) as (u & Hu & _). by eexists. }
  assert (forall s d d', CreateSession s d = Ok d' -> opened T s -> au_sessions d' !! k = Some t ->
            is_Some (au_sessions d !! k) \/ T (ses_RefreshToken t)) as Hcr.
  { intros s d d' (_ & _ & ->)%CreateSession_Ok (_ & _ & _ & HTs) Hdt. simpl in Hdt.
    apply lookup_insert_Some in Hdt as [[_ <-]|[_ Hdt]]; [by right|left; by eexists]. }
  destruct H as [s d H Ho|id s now d o H (_ & _ & _ & HTs) Hty Hid Hu|id now|id now|id now|id s now b d H Ho
    |id i d H|id u|id u d H|us ps ss apps H].
  - by eapply Hcr.
  - apply (RotateRefresh_Ok _ _ _ _ _ o) in H as (_ & _ & _ & ->); [|done]. simpl in Ht.
    apply lookup_insert_Some in Ht as [[<- _]|[_ Ht]]; [left; by eexists|].
    apply lookup_insert_Some in Ht as [[_ <-]|[_ Ht]]; [by right|left; by eexists].
  - left. eapply Hsl; [apply Revoke_links|done].
  - left. eapply Hsl; [apply RevokeIfNotRevoked_links|done].
  - left. eapply Hsl; [apply RevokeChainFrom_links|done].
  - apply ExchangeAuthCode_Ok in H as [->|(d1 & -> & H)]; [left; by eexists|].
    destruct (Hcr _ _ _ H Ho Ht) as [[u Hu]|?]; [|by right]. left. eapply Hsl; [apply RevokeIfNotRevoked_links|exact Hu].
  - apply CreateIdentity_sessions in H. rewrite H in Ht. left. by eexists.
  - rewrite DeleteIfNotLast_sessions in Ht. left. by eexists.
  - apply CreateUser_sessions in H. rewrite H in Ht. left. by eexists.
  - left. by eexists.
Qed.

Section Programs.
Context (T : string -> Prop) (env : AuthEnv).
(** Others take steps; a token this server draws may be handed out. *)
Context (Hothers : forall n db, auth_steps T db (ae_others env n db)).
Context (Hdraw : forall n b, ae_rand env n = Some b -> T (hashToken (EncodeToString b))).

Definition stable (P : AuthDB -> Prop) : Prop := forall db db', auth_steps T db db' -> P db -> P db'.

(** From [P], a program takes steps and ends in [Q]. *)
Definition triple {A} (P : AuthDB -> Prop) (p : prog A) (Q : ares A -> AuthDB -> Prop) : Prop :=
  forall s, P (ar_DB s) -> auth_steps T (ar_DB s) (ar_DB (p s).1) /\ Q (p s).2 (ar_DB (p s).1).

(** The result is an error, or [Q] of the value. *)
Definition okay {A} (Q : A -> AuthDB -> Prop) (r : ares A) (db : AuthDB) : Prop := match r with Ok a => Q a db | Err _ => True end.

Lemma triple_ret {A} (P : AuthDB -> Prop) (r : ares A) (Q : ares A -> AuthDB -> Prop) :
  (forall db, P db -> Q r db) -> triple P (pret r) Q.
Proof. intros H s Hs. split; [apply rtc_refl|]. by apply H. Qed.

Lemma triple_catch {A B} P R Q (p : prog A) (k : ares A -> prog B) :
  triple P p R -> (forall r, triple (R r) (k r) Q) -> triple P (pcatch p k) Q.
Proof.
  intros Hp Hk s Hs. unfold pcatch. destruct (Hp s Hs) as [H1 H2]. destruct (p s) as [s1 r]. simpl in *.
  destruct (Hk r s1 H2) as [H3 H4]. split; [|done]. unfold auth_steps in *. by etransitivity.
Qed.

Lemma triple_bind {A B} P R Q (p : prog A) (k : A -> prog B) : triple P p (okay R) -> (forall a, triple (R a) (k a) (okay Q)) ->
  triple P (pbind p k) (okay Q).
Proof.
  intros Hp Hk s Hs. unfold pbind. destruct (Hp s Hs) as [H1 H2]. destruct (p s) as [s1 [a|e]]; simpl in *; [|by split].
  destruct (Hk a s1 H2) as [H3 H4]. split; [|done]. unfold auth_steps in *. by etransitivity.
Qed.

Lemma triple_statement {A} P Q (f : nat -> AuthDB -> AuthDB * ares A) : stable P ->
  (forall n db, P db -> auth_steps T db (f n db).1) -> (forall n db, P db -> Q (f n db).2 (f n db).1) ->
  (forall db, P db -> Q (Err (EStatement OtherDbError)) db) -> triple P (statement env f) Q.
Proof.
  intros HP Hf HQ He s Hs. unfold statement. pose proof (Hothers (ar_n s) (ar_DB s)) as Ho. pose proof (HP _ _ Ho Hs) as Hs1.
  pose proof (Hf (ar_n s) _ Hs1) as Hst. pose proof (HQ (ar_n s) _ Hs1) as Hq.
  assert (auth_steps T (ar_DB s) (f (ar_n s) (ae_others env (ar_n s) (ar_DB s))).1) as Hall by (unfold auth_steps in *; by etransitivity).
  destruct (ae_io env (ar_n s)) as [landed|].
  - simpl. destruct landed; (split; [done|]); apply He; [|done]. by eapply HP.
  - destruct (f _ _) as [db' r]. by split.
Qed.

Lemma triple_select {A} (P : AuthDB -> Prop) (R : A -> AuthDB -> Prop) (f : nat -> AuthDB -> ares A) : stable P ->
  (forall n db a, P db -> f n db = Ok a -> R a db) -> triple P (select env f) (okay R).
Proof.
  intros HP Hf. apply triple_statement; [done|intros; apply rtc_refl| |done]. intros n db Hp. simpl. destruct (f n db) eqn:E; simpl; eauto.
Qed.

Lemma triple_find {A} (P : AuthDB -> Prop) (R : A -> AuthDB -> Prop) e (f : nat -> AuthDB -> ares A) : stable P ->
  (forall n db a, P db -> f n db = Ok a -> R a db) -> triple P (find env e f) (okay R).
Proof.
  intros HP Hf. unfold find. eapply triple_catch; [by apply (triple_select P R)|]. intros [a|err]; by apply triple_ret.
Qed.

Lemma triple_exec (P : AuthDB -> Prop) (Q : ares unit -> AuthDB -> Prop) (f : nat -> AuthDB -> ares AuthDB) : stable P ->
  (forall n db db', P db -> f n db = Ok db' -> auth_steps T db db' /\ Q (Ok tt) db') -> (forall e db, P db -> Q (Err e) db) ->
  triple P (exec env f) Q.
Proof.
  intros HP Hf He. apply triple_statement; [done|..|auto]; intros n db Hp; destruct (f n db) eqn:E; simpl;
    first [by apply He | by apply rtc_refl | by eapply Hf].
Qed.

Lemma triple_update (P : AuthDB -> Prop) (Q : ares unit -> AuthDB -> Prop) (f : nat -> AuthDB -> AuthDB) : stable P ->
  (forall n db, P db -> auth_steps T db (f n db) /\ Q (Ok tt) (f n db)) -> (forall e db, P db -> Q (Err e) db) ->
  triple P (update env f) Q.
Proof. intros HP Hf He. apply triple_statement; [done|..|auto]; intros n db Hp; by apply Hf. Qed.

Lemma triple_draw {A} (P : AuthDB -> Prop) (R : A -> AuthDB -> Prop) (f : nat -> ares A) :
  (forall n db a, P db -> f n = Ok a -> R a db) -> triple P (draw f) (okay R).
Proof. intros H s Hs. split; [apply rtc_refl|]. unfold draw. simpl. destruct (f (ar_n s)) eqn:E; simpl; eauto. Qed.

Lemma triple_weaken {A} P P' Q Q' (p : prog A) : triple P p Q -> (forall db, P' db -> P db) -> (forall r db, Q r db -> Q' r db) ->
  triple P' p Q'.
Proof. intros H HP HQ s Hs. destruct (H s (HP _ Hs)) as [H1 H2]. auto. Qed.

(** *** Stable facts *)

Definition shaped (db : AuthDB) : Prop := chains_ok (au_sessions db).

(** A session read some time ago. *)
Definition seen (s : Session) (db : AuthDB) : Prop := exists s', au_sessions db !! ses_ID s = Some s' /\ session_evolves s s'.

Lemma shaped_stable : stable shaped.
Proof. intros db db' H C. by apply (auth_steps_ok _ _ _ H). Qed.

Lemma link_later db db' k n : sessions_evolve db db' -> chains_ok (au_sessions db) -> link (au_sessions db) k n -> link (au_sessions db') k n.
Proof.
  intros E C (s & Hs & Ht). destruct (E _ _ Hs) as (s' & Hs' & _ & _ & H). exists s'. split; [done|].
  rewrite H; [done|]. by apply (co_link _ C _ _ _ Hs Ht).
Qed.

Lemma on_chain_later db db' k n : sessions_evolve db db' -> chains_ok (au_sessions db) -> on_chain (au_sessions db) k n -> on_chain (au_sessions db') k n.
Proof. intros E C H. induction H; [apply rtc_refl|]. eapply rtc_l; [by eapply link_later|done]. Qed.

Lemma seen_later s db db' : sessions_evolve db db' -> seen s db -> seen s db'.
Proof. intros E (x & Hx & H). destruct (E _ _ Hx) as (y & Hy & H'). exists y. split; [done|]. by etransitivity. Qed.

Lemma seen_read k s db : chains_ok (au_sessions db) -> au_sessions db !! k = Some s -> seen s db.
Proof. intros C Hs. exists s. by rewrite (co_key _ C _ _ Hs). Qed.

(** Facts that follow the evolution of the sessions. *)
Definition follows (P : AuthDB -> Prop) : Prop := forall db db', sessions_evolve db db' -> chains_ok (au_sessions db) -> P db -> P db'.

Lemma stable_with P : follows P -> stable (fun db => shaped db /\ P db).
Proof.
  intros F db db' H [C HP]. destruct (auth_steps_ok _ _ _ H C) as [C' E]. split; [done|]. by eapply F.
Qed.

(** *** A dead or old session is never rotated *)

Definition ended (s : Session) (db : AuthDB) : Prop := seen s db /\ ses_Revoked s = true /\ dead (au_sessions db) (ses_ID s).

Lemma ended_follows s : follows (ended s).
Proof.
  intros db db' E C (Hs & Hv & D). split_and!; [by eapply seen_later|done|by eapply dead_stays].
Qed.

Lemma seen_link s n db : seen s db -> ses_Revoked s = true -> ses_RotatedTo s = Some n -> link (au_sessions db) (ses_ID s) n.
Proof. intros (x & Hx & _ & _ & H) Hv Ht. exists x. split; [done|]. by rewrite H. Qed.

Lemma dead_next m k n : dead m k -> link m k n -> is_Some (m !! n) -> dead m n.
Proof. intros [_ D] L Hn. split; [done|]. intros x Hx. apply D. by eapply rtc_l. Qed.

Lemma rotate_ended hops now new : forall target,
  triple (fun db => shaped db /\ ended target db) (rotate env hops target new now) (okay (fun v _ => v <> Rotated)).
Proof.
  induction hops as [|hops IH]; intros target; [by apply triple_ret|]. simpl.
  assert (forall db, shaped db /\ ended target db -> ses_Revoked target = true) as Hrev by (by intros db (_ & _ & ? & _)).
  destruct (ses_Revoked target) eqn:Hv; [|intros s Hs; by specialize (Hrev _ Hs)].
  apply triple_catch with (R := okay (fun next db => shaped db /\ ended next db)).
  - unfold graceSuccessor. destruct (ses_RotatedTo target) as [n|] eqn:Ht; [|by apply triple_ret].
    destruct (ses_RevokedAt target); [|by apply triple_ret]. destruct (_ <=? _); [|by apply triple_ret].
    eapply triple_bind with (R := fun next db => shaped db /\ ended next db).
    + apply triple_find with (P := fun db => shaped db /\ ended target db); [apply stable_with, ended_follows|].
      intros j db next (C & Hs & _ & D) Hn. unfold FindSessionByID, get in Hn. destruct (_ !! n) as [x|] eqn:E; [|done].
      injection Hn as ->. pose proof (seen_link _ _ _ Hs Hv Ht) as L. split; [done|].
      pose proof (dead_next _ _ _ D L ltac:(by eexists)) as Dn. destruct (dead_member _ _ _ Dn (rtc_refl _ _) C) as (y & Hy & Hyv).
      split_and!; [by eapply seen_read|congruence|]. by rewrite (co_key _ C _ _ E).
    + intros next. apply triple_ret. intros db Hn. destruct (_ || _); [done|exact Hn].
  - intros [next|e]; [apply IH|]. apply triple_ret. by intros db _ [=].
Qed.

(** A session revoked too long ago. *)
Lemma rotate_late hops now new target r P : ses_Revoked target = true -> ses_RevokedAt target = Some r ->
  refreshRotationGraceWindow < time_sub now r -> triple P (rotate env hops target new now) (okay (fun v _ => v <> Rotated)).
Proof.
  intros Hv Hr Hl. destruct hops as [|hops]; simpl; [by apply triple_ret|]. rewrite Hv.
  apply triple_catch with (R := fun x _ => x = Err ErrInvalidRefreshToken).
  - unfold graceSuccessor. destruct (ses_RotatedTo target); [|by apply triple_ret]. rewrite Hr.
    rewrite (proj2 (Z.leb_gt _ _)) by done. by apply triple_ret.
  - intros [x|e]; [|by apply triple_ret]. intros s Hs. done.
Qed.

(** *** Reads *)

Create HintDb auth.

(** A program that only reads keeps what is stable. *)
Definition keeps {A} (p : prog A) : Prop := forall P, stable P -> triple P p (fun _ db => P db).

Lemma keeps_ret {A} (r : ares A) : keeps (pret r).
Proof. intros P HP. by apply triple_ret. Qed.
Lemma keeps_draw {A} (f : nat -> ares A) : keeps (draw f).
Proof. intros P HP s Hs. by split; [apply rtc_refl|]. Qed.
Lemma keeps_select {A} (f : nat -> AuthDB -> ares A) : keeps (select env f).
Proof. intros P HP. apply triple_statement; [done|intros; apply rtc_refl|done..]. Qed.
Lemma keeps_catch {A B} (p : prog A) (k : ares A -> prog B) : keeps p -> (forall r, keeps (k r)) -> keeps (pcatch p k).
Proof. intros Hp Hk P HP. eapply triple_catch; [by apply Hp|]. intros r. by apply Hk. Qed.
Lemma keeps_bind {A B} (p : prog A) (k : A -> prog B) : keeps p -> (forall a, keeps (k a)) -> keeps (pbind p k).
Proof.
  intros Hp Hk P HP s Hs. unfold pbind. destruct (Hp P HP s Hs) as [H1 H2]. destruct (p s) as [s1 [a|e]]; [|by split].
  destruct (Hk a P HP s1 H2) as [H3 H4]. split; [|done]. simpl in *. unfold auth_steps in *. by etransitivity.
Qed.
Lemma keeps_find {A} e (f : nat -> AuthDB -> ares A) : keeps (find env e f).
Proof. apply keeps_catch; [apply keeps_select|]. intros r. apply keeps_ret. Qed.
Hint Resolve keeps_ret keeps_draw keeps_select keeps_catch keeps_bind keeps_find : auth.

Lemma keeps_active_app appID : keeps (active_app env appID).
Proof. unfold active_app. eauto with auth. Qed.
Lemma keeps_sign ttl u a s : keeps (SignAccessToken env ttl u a s).
Proof. unfold SignAccessToken, now_. eauto with auth. Qed.
Lemma keeps_plan u a r now : keeps (resolvePlanForTokenIssuanceWithPlan env u a r now).
Proof.
  unfold resolvePlanForTokenIssuanceWithPlan, peekSubscription. apply keeps_bind.
  - apply keeps_catch; [auto with auth|]. intros [s|e]; [auto with auth|]. destruct (bool_decide _); auto with auth.
  - intros [[s x]|]; [|auto with auth]. apply keeps_catch; [auto with auth|].
    intros [p|e]; [auto with auth|]. destruct x; auto with auth.
Qed.
Hint Resolve keeps_active_app keeps_sign keeps_plan : auth.

Lemma triple_frame {A} F P Q (p : prog A) : stable F -> triple P p Q -> triple (fun db => P db /\ F db) p (fun r db => Q r db /\ F db).
Proof. intros HF H s [Hs HFs]. destruct (H s Hs) as [H1 H2]. split; [done|]. split; [done|]. by eapply HF. Qed.

Lemma seen_follows s : follows (seen s).
Proof. intros db db' E _ H. by eapply seen_later. Qed.

Lemma triple_pure {A} P (B : Prop) Q (p : prog A) : (B -> triple P p Q) -> triple (fun db => P db /\ B) p Q.
Proof. intros H s [Hs HB]. by apply H. Qed.

(** A read before what is proved from a stable precondition. *)
Lemma triple_then {A B} P Q (p : prog A) (k : A -> prog B) : keeps p -> stable P -> (forall a, triple P (k a) (okay Q)) ->
  triple P (pbind p k) (okay Q).
Proof.
  intros Hp HP Hk. apply triple_bind with (R := fun _ => P); [|done]. eapply triple_weaken; [by apply Hp|done|].
  by intros [a|e] db.
Qed.

(** ** Ended sessions *)

(** What can be said of a token that nobody may use any more: its sessions are
    on dead chains, or were revoked too long ago. *)
Definition refused (h : string) (db : AuthDB) : Prop :=
  shaped db /\ forall k s, au_sessions db !! k = Some s -> ses_RefreshToken s = h ->
    ses_Revoked s = true /\ (dead (au_sessions db) k
      \/ exists r, ses_RevokedAt s = Some r /\ forall i, refreshRotationGraceWindow < time_sub (ae_clock env i) r).

Lemma refused_stable h : ~ T h -> stable (refused h).
Proof.
  intros HT db db' Hst [C H]. destruct (auth_steps_ok _ _ _ Hst C) as [C' E]. split; [done|]. intros k s' Hs' Ht.
  destruct (auth_steps_tokens _ _ _ _ _ Hst C Hs') as [[s Hs]|?]; [|congruence].
  destruct (E _ _ Hs) as (y & Hy & Hc & Hv & _). assert (y = s') as -> by congruence.
  destruct (H _ _ Hs) as [Hrev Hor]; [unfold session_core in Hc; congruence|]. destruct (Hv Hrev) as [Hrev' Hat].
  split; [done|]. destruct Hor as [D|(r & Hr & Hl)]; [left; by eapply dead_stays|right; eauto].
Qed.

Lemma rows_In {A} (m : gmap string A) p l a : rows m p = a :: l -> exists k, m !! k = Some a /\ p a = true.
Proof.
  unfold rows. intros H. assert (In a (List.filter p (map_to_list m).*2)) as Hin by (rewrite H; by left).
  apply List.filter_In in Hin as [Hin Hp]. apply list_elem_of_In, list_elem_of_fmap in Hin as ([k x] & -> & Hk).
  apply elem_of_map_to_list in Hk. by exists k.
Qed.

Lemma first_row_Ok {A} p (m : gmap string A) a : first_row p m = Ok a -> exists k, m !! k = Some a /\ p a = true.
Proof. unfold first_row. destruct (rows m p) as [|x l] eqn:E; [done|]. intros [= ->]. by eapply rows_In. Qed.

Lemma revoke_chain_triple s : triple (fun _ => True) (revokeChainForReuse env s) (fun _ _ => True).
Proof.
  unfold revokeChainForReuse. apply triple_catch with (R := fun _ _ => True); [|by intros r; apply triple_ret].
  apply triple_update; try done. intros n db _. split; [|done]. apply rtc_once, as_chain.
Qed.

Lemma RefreshToken_refused attl rttl token appID : ~ T (hashToken token) ->
  triple (refused (hashToken token)) (RefreshToken env attl rttl token appID) (okay (fun _ _ => False)).
Proof.
  intros HT. pose proof (refused_stable _ HT) as St. unfold RefreshToken.
  set (P := fun s db => shaped db /\ (ended s db \/ ses_Revoked s = true /\ exists r, ses_RevokedAt s = Some r
              /\ forall i, refreshRotationGraceWindow < time_sub (ae_clock env i) r)).
  apply triple_bind with (R := P).
  { apply triple_find with (P := refused (hashToken token)); [done|]. intros n db s [C H] (k & Hk & Hp)%first_row_Ok. bool_prop.
    apply String.eqb_eq in H0. destruct (H _ _ Hk H0) as [Hv [D|Hor]]; (split; [done|]); [left|by right].
    split_and!; [by eapply seen_read|done|]. by rewrite (co_key _ C _ _ Hk). }
  intros s. assert (stable (P s)) as Ps.
  { apply stable_with. intros db db' E C [He|Hl]; [left; by eapply ended_follows|by right]. }
  apply triple_then; [apply keeps_find|done|]. intros u. apply triple_then; [apply keeps_ret|done|]. intros _.
  apply triple_then; [apply keeps_active_app|done|]. intros _.
  apply triple_bind with (R := fun now db => P s db /\ exists i, now = ae_clock env i).
  { apply triple_draw. intros n db a HP [= <-]. eauto. }
  intros now. apply triple_pure. intros [i ->].
  apply triple_then; [apply keeps_plan|done|]. intros iss. apply triple_then; [apply keeps_sign|done|]. intros claims.
  apply triple_then; [apply keeps_draw|done|]. intros raw. apply triple_then; [apply keeps_draw|done|]. intros id.
  apply triple_bind with (R := fun v _ => v <> Rotated).
  - intros x (C & [He|(Hv & r & Hr & Hl)]).
    + by apply rotate_ended.
    + by eapply (rotate_late _ _ _ _ r (fun _ => True)).
  - intros v. destruct v as [|e|]; [by intros x Hx| |by apply triple_ret].
    destruct (bool_decide _); [|by apply triple_ret]. apply triple_bind with (R := fun _ _ => True).
    + eapply triple_weaken; [apply revoke_chain_triple|done|]. by intros [].
    + intros []. by apply triple_ret.
Qed.

(** ** What a response says *)

(** The claims are those of the user and app, and access is what the scope says. *)
Definition consistent (resp : LoginResponse) : Prop :=
  let claims := lr_AccessToken resp in
  tc_Subject claims = lr_UserID resp /\ tc_Audience claims = [tc_AppID claims] /\ tc_Issuer claims = issuer
  /\ sn_HasAccess (lr_Subscription resp) = existsb (String.eqb (tc_AppID claims)) (tc_Scope claims).

Definition scoped (appID : string) (now : instant) (i : Issuance) : Prop :=
  is_HasAccess i = existsb (String.eqb appID) (scopeForTokenIssuance (is_ChosenPlan i) (is_ExpiresAt i) now).

Lemma opens_scope p appID now : opens p appID = existsb (String.eqb appID) (scopeForTokenIssuance (Some p) None now).
Proof. unfold opens, scopeForTokenIssuance. rewrite orb_false_r. by destruct (ap_IsActive p). Qed.

Lemma keeps_stable {A} (p : prog A) P Q : keeps p -> stable P -> triple (fun _ => True) p Q -> triple P p (fun r db => Q r db /\ P db).
Proof.
  intros Hk HP H s Hs. destruct (H s I) as [H1 H2]. split; [done|]. split; [done|]. by eapply HP.
Qed.

Lemma stable_true : stable (fun _ => True).
Proof. done. Qed.

Lemma plan_scoped userID appID requested now : triple (fun _ => True)
  (resolvePlanForTokenIssuanceWithPlan env userID appID requested now) (okay (fun i _ => scoped appID now i)).
Proof.
  unfold resolvePlanForTokenIssuanceWithPlan.
  apply triple_bind with (R := fun p _ => match p with Some (s, x) => x = isExpiredAt s now | None => True end).
  { unfold peekSubscription. apply triple_catch with (R := fun _ _ => True).
    - by apply triple_weaken with (P := fun _ => True) (Q := fun _ _ => True); [apply (keeps_select _ _ stable_true)|..].
    - intros [s|e]; [by apply triple_ret|]. destruct (bool_decide _); by apply triple_ret. }
  intros [[s x]|].
  - apply triple_catch with (R := fun _ _ => x = isExpiredAt s now).
    { intros st ->. split; [by apply (keeps_select _ _ stable_true)|done]. }
    intros [p|e].
    + apply triple_ret. intros db ->. unfold okay, scoped, isExpiredAt. simpl. unfold opens.
      destruct (ms_ExpiresAt s) as [t|]; [destruct (t <? now)|]; destruct (ap_IsActive p); done.
    + destruct x; [|by apply triple_ret]. apply triple_ret. intros db Hx. unfold okay, scoped. simpl. done.
  - destruct requested as [[id p]|]; apply triple_ret; intros db _; unfold okay, scoped; simpl; [|done].
    unfold opens. rewrite orb_false_r. by destruct (ap_IsActive p).
Qed.

(** The claims signed for a user and an app. *)
Lemma sign_claims P ttl u a sc : triple P (SignAccessToken env ttl u a sc)
  (okay (fun c db => P db /\ (tc_Subject c = u /\ tc_Audience c = [a] /\ tc_AppID c = a /\ tc_Issuer c = issuer /\ tc_Scope c = sc))).
Proof.
  unfold SignAccessToken. apply triple_bind with (R := fun _ => P); [by apply triple_draw|].
  intros t. apply triple_draw. intros n db c HP. destruct (ae_sign env n); [|done]. by intros [= <-].
Qed.

Lemma plan_triple P u a req now : stable P -> triple P (resolvePlanForTokenIssuanceWithPlan env u a req now)
  (okay (fun i db => P db /\ scoped a now i)).
Proof.
  intros HP. eapply triple_weaken; [apply keeps_stable; [apply keeps_plan|exact HP|apply plan_scoped]|done|].
  intros [i|e] db; [|done]. by intros [H1 H2].
Qed.

Lemma draw_token P : triple P (GenerateRefreshToken env) (okay (fun raw db => P db /\ T (hashToken raw))).
Proof.
  apply triple_draw. intros n db a HP. destruct (ae_rand env n) as [b|] eqn:Hb; [|done]. intros [= <-]. eauto.
Qed.

(** The session that was opened for a response. *)
Definition issued (resp : LoginResponse) (db : AuthDB) : Prop :=
  exists k s, au_sessions db !! k = Some s /\ ses_UserID s = lr_UserID resp /\ ses_RefreshToken s = hashToken (lr_RefreshToken resp)
    /\ ses_Scope s = tc_Scope (lr_AccessToken resp) /\ ses_AppID s = tc_AppID (lr_AccessToken resp) /\ ses_Revoked s = false.

Lemma issue_triple attl rttl userID u appID email requested P : stable P ->
  triple P (issueTokensForUserWithPlan env attl rttl userID u appID email requested)
    (okay (fun resp db => P db /\ (consistent resp /\ tc_AppID (lr_AccessToken resp) = appID /\ issued resp db))).
Proof.
  intros HP. unfold issueTokensForUserWithPlan. apply triple_then; [apply keeps_draw|done|]. intros now.
  eapply triple_bind; [by apply plan_triple|]. intros i. apply triple_pure. intros Hi.
  eapply triple_bind; [apply sign_claims|]. intros c. apply triple_pure. intros (C1 & C2 & C3 & C4 & C5).
  eapply triple_bind; [apply draw_token|]. intros raw. apply triple_pure. intros HT.
  apply triple_then; [apply keeps_draw|done|]. intros id. set (new := new_session _ _ _ _ _ _ _).
  apply triple_bind with (R := fun _ db => P db /\ au_sessions db !! id = Some new).
  - apply triple_exec; [done| |done]. intros n db db' Hp H.
    assert (auth_steps T db db') as Hst by (apply rtc_once; by eapply as_session).
    split; [done|]. split; [by eapply HP|]. apply CreateSession_Ok in H as (_ & _ & ->). simpl. by rewrite lookup_insert_eq.
  - intros _. apply triple_ret. intros db (Hp & Hs). split; [done|]. unfold consistent, respond, issued. simpl.
    rewrite C1, C2, C3, C4, C5. split_and!; try done. by exists id, new.
Qed.

(** ** A rotation continues the chain *)

(** [target] was read on the chain of [k]. *)
Definition reached (k u : string) (target : Session) (db : AuthDB) : Prop :=
  seen target db /\ on_chain (au_sessions db) k (ses_ID target) /\ ses_UserID target = u.

(** The chain of [k] goes on to [new]. *)
Definition continued (k : string) (new : Session) (db : AuthDB) : Prop :=
  seen new db /\ exists x, on_chain (au_sessions db) k x /\ link (au_sessions db) x (ses_ID new).

Lemma reached_follows k u target : follows (reached k u target).
Proof. intros db db' E C (Hs & Hc & Hu). split_and!; [by eapply seen_later|by eapply on_chain_later|done]. Qed.
Lemma continued_follows k new : follows (continued k new).
Proof.
  intros db db' E C (Hs & x & Hc & Hl). split; [by eapply seen_later|]. exists x.
  split; [by eapply on_chain_later|by eapply link_later].
Qed.

Lemma seen_core s s' db : chains_ok (au_sessions db) -> seen s db -> au_sessions db !! ses_ID s = Some s' -> session_core s = session_core s'.
Proof. intros C (x & Hx & Hc & _) Hs. congruence. Qed.

Lemma RotateRefresh_continues k u target new now db db' : shaped db -> reached k u target db -> opened T new ->
  ses_SessionType new = "refresh" -> ses_UserID new = u -> RotateRefresh (ses_ID target) new now db = Ok db' ->
  auth_step T db db' /\ continued k new db'.
Proof.
  intros C ((o & Ho & Hoe) & Hch & Hu) Hnew Hty Hun H. assert (ses_UserID o = ses_UserID new) as Huo.
  { destruct Hoe as [Hc _]. unfold session_core in Hc. congruence. }
  assert (auth_step T db db') as St by (by eapply as_rotate). split; [done|].
  destruct (auth_step_ok _ _ _ St C) as [C' E]. pose proof (RotateRefresh_Ok _ _ _ _ _ _ H Ho) as (Hv & Hn & _ & ->).
  simpl in *. assert (ses_ID target <> ses_ID new) as Hne by congruence. split.
  - exists new. simpl. by rewrite lookup_insert_ne, lookup_insert_eq by done.
  - exists (ses_ID target). split; [by eapply on_chain_later|]. eexists. simpl. rewrite lookup_insert_eq. by split.
Qed.

Lemma graceSuccessor_reached k u target now : ses_Revoked target = true ->
  triple (fun db => shaped db /\ reached k u target db) (graceSuccessor env target now)
    (okay (fun next db => shaped db /\ reached k u next db)).
Proof.
  intros Hv. unfold graceSuccessor. destruct (ses_RotatedTo target) as [n|] eqn:Ht; [|by apply triple_ret].
  destruct (ses_RevokedAt target) as [r|]; [|by apply triple_ret]. destruct (_ <=? _); [|by apply triple_ret].
  apply triple_bind with (R := fun next db => (shaped db /\ seen next db /\ on_chain (au_sessions db) k (ses_ID next))
                                              /\ ses_UserID target = u).
  - apply triple_find with (P := fun db => shaped db /\ reached k u target db); [apply stable_with, reached_follows|].
    intros i db next (C & Hs & Hc & Hu) Hn. unfold FindSessionByID, get in Hn. destruct (_ !! n) as [x|] eqn:E; [|done].
    injection Hn as ->. split; [|done]. split; [done|]. split; [by eapply seen_read|]. rewrite (co_key _ C _ _ E).
    eapply rtc_r; [exact Hc|]. by eapply seen_link.
  - intros next. apply triple_pure. intros Hu. apply triple_ret. intros db (C & Hs & Hc). destruct (_ || _) eqn:Ho; [done|].
    bool_prop. apply String.eqb_eq in H, H0. split; [done|]. split; [done|]. split; [done|congruence].
Qed.

Lemma rotate_continues hops k u new now : opened T new -> ses_SessionType new = "refresh" -> ses_UserID new = u -> forall target,
  triple (fun db => shaped db /\ reached k u target db) (rotate env hops target new now)
    (okay (fun v db => v = Rotated -> shaped db /\ continued k new db)).
Proof.
  intros Hnew Hty Hun. induction hops as [|hops IH]; intros target; [by apply triple_ret|]. simpl.
  assert (stable (fun db => shaped db /\ reached k u target db)) as St by apply stable_with, reached_follows.
  destruct (ses_Revoked target) eqn:Hv.
  - eapply triple_catch; [by apply graceSuccessor_reached|]. intros [next|e]; [apply IH|by apply triple_ret].
  - destruct (_ <? _); [by apply triple_ret|].
    apply triple_catch with (R := fun r db => shaped db /\ match r with Ok _ => continued k new db | Err _ => reached k u target db end).
    + apply triple_exec; [done| |done]. intros n db db' [C Hr] H.
      destruct (RotateRefresh_continues k u target new (ae_now env n) db db') as [Hst Hc]; [done..|].
      split; [by apply rtc_once|]. split; [|done]. by apply (auth_step_ok _ _ _ Hst).
    + intros [x|e]; [apply triple_ret; by intros db ? _|]. destruct (bool_decide _); [|by apply triple_ret].
      apply triple_bind with (R := fun fresh db => shaped db /\ reached k u fresh db); [|apply IH].
      apply triple_select with (P := fun db => shaped db /\ reached k u target db); [done|].
      intros i db fresh (C & Hs & Hc & Hu) Hn. unfold FindSessionByID, get in Hn.
      destruct (_ !! ses_ID target) as [x|] eqn:E; [|done]. injection Hn as ->. split; [done|].
      pose proof (seen_core _ _ _ C Hs E) as Hcore. split_and!; [by eapply seen_read|by rewrite (co_key _ C _ _ E)|].
      unfold session_core in Hcore. congruence.
Qed.

(** Who may refresh, and what the response says. *)
Definition refreshed (h : string) (resp : LoginResponse) (db : AuthDB) : Prop :=
  exists s new, seen s db /\ ses_RefreshToken s = h /\ ses_SessionType s = "refresh" /\ ses_UserID s = lr_UserID resp
    /\ continued (ses_ID s) new db /\ ses_UserID new = lr_UserID resp /\ ses_RefreshToken new = hashToken (lr_RefreshToken resp)
    /\ ses_Scope new = tc_Scope (lr_AccessToken resp) /\ ses_AppID new = tc_AppID (lr_AccessToken resp) /\ consistent resp.

Lemma RefreshToken_continues attl rttl token appID :
  triple shaped (RefreshToken env attl rttl token appID) (okay (fun resp db => shaped db /\ refreshed (hashToken token) resp db)).
Proof.
  unfold RefreshToken.
  apply triple_bind with (R := fun s db => (shaped db /\ reached (ses_ID s) (ses_UserID s) s db)
                                 /\ (ses_RefreshToken s = hashToken token /\ ses_SessionType s = "refresh")).
  { apply triple_find with (P := shaped); [apply shaped_stable|]. intros n db s C (k & Hk & Hp)%first_row_Ok. bool_prop.
    apply String.eqb_eq in H, H1. split; [|done]. split; [done|].
    split_and!; [by eapply seen_read|apply rtc_refl|done]. }
  intros s. apply triple_pure. intros [Htok Hty].
  assert (stable (fun db => shaped db /\ reached (ses_ID s) (ses_UserID s) s db)) as St by apply stable_with, reached_follows.
  apply triple_then; [apply keeps_find|done|]. intros u. apply triple_then; [apply keeps_ret|done|]. intros _.
  apply triple_then; [apply keeps_active_app|done|]. intros _. apply triple_then; [apply keeps_draw|done|]. intros now.
  set (app := if String.eqb appID "" then ses_AppID s else appID).
  eapply triple_bind; [by apply plan_triple|]. intros iss. apply triple_pure. intros Hi.
  eapply triple_bind; [apply sign_claims|]. intros claims. apply triple_pure. intros (C1 & C2 & C3 & C4 & C5).
  eapply triple_bind; [apply draw_token|]. intros raw. apply triple_pure. intros HT.
  apply triple_then; [apply keeps_draw|done|]. intros id.
  set (new := new_session _ _ _ _ _ _ _).
  apply triple_bind with (R := fun v db => v = Rotated -> shaped db /\ continued (ses_ID s) new db /\ seen s db).
  { eapply triple_weaken; [apply (triple_frame (fun db => shaped db /\ seen s db)); [apply stable_with, seen_follows|]|..].
    - by apply (rotate_continues maxRotationChainHops (ses_ID s) (ses_UserID s) new now).
    - intros db (C & Hr). pose proof Hr as (Hs & _). done.
    - intros [v|e] db [H [C Hs]]; [|done]. intros ->. destruct (H eq_refl). done. }
  intros [|e|]; [|destruct (bool_decide _)|]; try by apply triple_ret.
  - apply triple_ret. intros db H. destruct (H eq_refl) as (C & Hc & Hs). split; [done|].
    exists s, new. unfold consistent. simpl. rewrite C1, C2, C3, C4, C5. by split_and!.
  - apply triple_bind with (R := fun _ _ => True); [|by intros []; apply triple_ret].
    eapply triple_weaken; [apply revoke_chain_triple|done|]. by intros [].
Qed.


(** ** Logins *)

(** A program that takes steps, whatever it is for. *)
Definition steps_only {A} (p : prog A) : Prop := forall P, stable P -> triple P p (fun _ db => P db).

Lemma keeps_steps {A} (p : prog A) : keeps p -> steps_only p.
Proof. done. Qed.
Lemma steps_bind {A B} (p : prog A) (k : A -> prog B) : steps_only p -> (forall a, steps_only (k a)) -> steps_only (pbind p k).
Proof. apply keeps_bind. Qed.
Lemma steps_catch {A B} (p : prog A) (k : ares A -> prog B) : steps_only p -> (forall r, steps_only (k r)) -> steps_only (pcatch p k).
Proof. apply keeps_catch. Qed.
Lemma steps_exec (f : nat -> AuthDB -> ares AuthDB) : (forall n db db', f n db = Ok db' -> auth_step T db db') -> steps_only (exec env f).
Proof.
  intros H P HP. apply triple_exec; [done| |done]. intros n db db' Hp Hf.
  assert (auth_steps T db db') as St by (apply rtc_once; eauto). split; [done|]. by eapply HP.
Qed.

Lemma CreateSubscription_step id s db db' : CreateSubscription id s db = Ok db' -> auth_step T db db'.
Proof.
  unfold CreateSubscription. intros H. inv_ok. destruct db as [us ids ps subs apps ses]. by apply (as_admin T (mkAuthDB us ids ps subs apps ses)).
Qed.
Hint Resolve keeps_steps steps_bind steps_catch steps_exec as_user as_identity CreateSubscription_step : auth.

Lemma steps_trial u : steps_only (grantTrialSubscription env u).
Proof.
  unfold grantTrialSubscription. apply steps_catch; [auto with auth|]. intros [p|e]; [|auto with auth].
  destruct (_ || _); [auto with auth|]. apply steps_bind; [unfold now_; auto with auth|]. intros now.
  apply steps_bind; [unfold GenerateUUID; auto with auth|]. intros id. apply steps_catch; [eauto with auth|]. auto with auth.
Qed.

Lemma steps_user_row id : steps_only (user_row env id).
Proof. unfold user_row. auto with auth. Qed.
Hint Resolve steps_trial steps_user_row : auth.

Lemma steps_resolve info : steps_only (resolveOrCreateUser env info).
Proof.
  unfold resolveOrCreateUser. apply steps_bind; [destruct (String.eqb _ _); auto with auth|]. intros l.
  destruct (List.filter _ l); [|auto with auth]. apply steps_bind; [unfold GenerateUUID; auto with auth|]. intros id.
  apply steps_bind; [eauto with auth|]. auto with auth.
Qed.
Hint Resolve steps_resolve : auth.

Lemma steps_user info : steps_only (getOrCreateUser env info).
Proof.
  unfold getOrCreateUser. apply steps_catch; [auto with auth|].
  intros [i|e]; [apply steps_bind; auto with auth|]. apply steps_bind; [auto with auth|]. intros [userID isNew].
  apply steps_bind; [unfold GenerateUUID; auto with auth|]. intros id. apply steps_catch; [eauto with auth|]. intros [x|err].
  - apply steps_bind; [destruct isNew; auto with auth|]. intros _. apply steps_bind; auto with auth.
  - destruct (isDuplicateKey err); [|auto with auth]. apply steps_catch; [auto with auth|].
    intros [i|e']; [apply steps_bind; auto with auth|auto with auth].
Qed.

(** Every login issues claims that agree with its answer. *)
Lemma LoginWithProfile_triple attl rttl profile appID P : stable P -> triple P (LoginWithProfile env attl rttl profile appID)
  (okay (fun resp db => P db /\ (consistent resp /\ tc_AppID (lr_AccessToken resp) = appID /\ issued resp db))).
Proof.
  intros HP. unfold LoginWithProfile. destruct profile as [info|]; [|by apply triple_ret].
  apply triple_then; [apply keeps_active_app|done|]. intros _. apply triple_bind with (R := fun _ => P).
  { eapply triple_weaken; [by apply steps_user|done|]. by intros [a|e]. }
  intros [[id u] isNew]. apply triple_then; [apply keeps_ret|done|]. intros _.
  apply triple_catch with (R := fun _ => P); [by apply keeps_select|]. intros ids.
  by apply issue_triple.
Qed.

Lemma TestLogin_triple attl rttl email appID planID P : stable P -> triple P (TestLogin env attl rttl email appID planID)
  (okay (fun resp db => P db /\ (consistent resp /\ tc_AppID (lr_AccessToken resp) = appID /\ issued resp db))).
Proof.
  intros HP. unfold TestLogin. apply triple_then; [apply keeps_active_app|done|]. intros _.
  apply triple_then; [unfold requested_plan; destruct (String.eqb _ _); auto using keeps_ret, keeps_bind, keeps_find|done|]. intros req.
  apply triple_then; [apply keeps_select|done|]. intros l. apply triple_bind with (R := fun _ => P).
  { apply triple_weaken with (P := P) (Q := fun _ => P); [|done|by intros [a|e]].
    assert (steps_only (match l with
       | i :: _ => user_row env (si_UserID i)
       | [] => run id <- GenerateUUID env;
               run _ <- exec env (fun _ => CreateUser id (mkUser (Some email) None None "active"));
               run iid <- GenerateUUID env;
               run _ <- exec env (fun _ => CreateIdentity iid (mkIdentity id "github" ("l3-e2e-" +:+ id) (Some email)));
               pret (Ok (id, mkUser (Some email) None None "active")) end)) as Hs; [|by apply Hs].
    destruct l; [|auto with auth]. apply steps_bind; [unfold GenerateUUID; auto with auth|]. intros id.
    apply steps_bind; [eauto with auth|]. intros _. apply steps_bind; [unfold GenerateUUID; auto with auth|]. intros iid.
    apply steps_bind; [eauto with auth|]. auto with auth. }
  intros [id u]. apply triple_then; [apply keeps_ret|done|]. intros _.
  by apply issue_triple.
Qed.

Lemma Logout_steps token : steps_only (Logout env token).
Proof.
  unfold Logout. apply steps_catch; [auto with auth|]. intros [s|e]; [|auto with auth]. intros P HP. apply triple_update; [done| |done].
  intros n db Hp. assert (auth_steps T db (Revoke (ses_ID s) (ae_now env n) db)) as St by apply rtc_once, as_revoke.
  split; [done|]. by eapply HP.
Qed.
End Programs.
