(* ===== verification/LoginProps.v ===== *)
(** * LoginProps: the properties of logins and of refresh tokens

    One live session per chain, what a refresh hands out, when a token is
    refused for good, which user a profile signs in, and the well-formedness of
    the tables, with a small installation as the witness. *)

From Stdlib Require Import ZArith Lia Bool.
From stdpp Require Import base gmap strings list relations.
From S2P Require Import Prelude Domain Calendar Tables Sha256 Auth AuthProps.

Local Open Scope Z_scope.
Local Open Scope go_scope.
Local Open Scope auth_scope.

(** ** A small installation *)

Definition demo_db : AuthDB :=
  mkAuthDB {["user-1" := mkUser (Some "octo") None None "active"]}
    {["ident-1" := mkIdentity "user-1" "github" "gh-1" (Some "octo@example.com")]}
    {["pro" := mkAuthPlan "Pro" ["app"] ProductKayaMembership true true 0]}
    {["sub-1" := mkMemberSub "user-1" "pro" ProductKayaMembership "active" None None true]}
    {["app" := true]} ∅.

(** A server at [t0]: one tick a second. *)
Definition demo_env (t0 : instant) (others : nat -> AuthDB -> AuthDB) (salt : Z) : AuthEnv :=
  mkAuthEnv others (fun _ => None) (fun n => t0 + Z.of_nat n * second) (fun n => t0 + Z.of_nat n * second)
    (fun n => EncodeToString [salt; Z.of_nat n]) (fun n => Some [salt; Z.of_nat n]) (fun _ => true).
Definition alone (_ : nat) (db : AuthDB) : AuthDB := db.
Definition minutes_15 : duration := 900 * second.
Definition days_30 : duration := 720 * hour.
Definition octo : ProviderUserInfo := mkProfile "github" "gh-1" "octo@example.com" "octo" "".
Definition hubber : ProviderUserInfo := mkProfile "google" "g-7" "octo@example.com" "octo" "".

Definition demo_login := LoginWithProfile (demo_env 0 alone 1) minutes_15 days_30 (Some octo) "app" (mkAuthRun demo_db 0).
Definition token_of (r : ares LoginResponse) : string := match r with Ok resp => lr_RefreshToken resp | Err _ => "" end.
Definition demo_token : string := Eval vm_compute in token_of demo_login.2.
Definition demo_refresh := RefreshToken (demo_env (100 * second) alone 2) minutes_15 days_30 demo_token "" (mkAuthRun (ar_DB demo_login.1) 0).
(** A retry with the old token, ten seconds later. *)
Definition demo_retry := RefreshToken (demo_env (110 * second) alone 3) minutes_15 days_30 demo_token "" (mkAuthRun (ar_DB demo_refresh.1) 0).

Definition anything (_ : string) : Prop := True.
Lemma alone_steps T n db : auth_steps T db (alone n db).
Proof. apply rtc_refl. Qed.

(** A login and a refresh take steps. *)
Lemma login_steps attl rttl p appID env s : (forall n db, auth_steps anything db (ae_others env n db)) ->
  auth_steps anything (ar_DB s) (ar_DB (LoginWithProfile env attl rttl p appID s).1).
Proof. intros H. by apply (LoginWithProfile_triple anything env H (fun _ _ _ => I) attl rttl p appID (fun _ => True)). Qed.

Lemma refresh_steps attl rttl token appID env s : (forall n db, auth_steps anything db (ae_others env n db)) -> auth_reachable anything (ar_DB s) ->
  auth_reachable anything (ar_DB (RefreshToken env attl rttl token appID s).1).
Proof.
  intros H (db0 & H0 & Hs). pose proof (auth_reachable_ok anything (ar_DB s) ltac:(by exists db0)) as C.
  destruct (RefreshToken_continues anything env H (fun _ _ _ => I) attl rttl token appID s C) as [Hst _].
  exists db0. split; [done|]. unfold auth_steps in *. by etransitivity.
Qed.

Lemma demo_login_reachable : auth_reachable anything (ar_DB demo_login.1).
Proof. exists demo_db. split; [reflexivity|]. unfold demo_login. apply (login_steps _ _ _ _ _ (mkAuthRun demo_db 0)), alone_steps. Qed.
Lemma demo_refresh_reachable : auth_reachable anything (ar_DB demo_refresh.1).
Proof. unfold demo_refresh, demo_retry. apply refresh_steps; [intros; apply alone_steps|apply demo_login_reachable]. Qed.
Lemma demo_retry_reachable : auth_reachable anything (ar_DB demo_retry.1).
Proof. unfold demo_refresh, demo_retry. apply refresh_steps; [intros; apply alone_steps|apply demo_refresh_reachable]. Qed.

(** The three logins succeed. *)
Lemma logins_succeed : (exists a, demo_login.2 = Ok a) /\ (exists b, demo_refresh.2 = Ok b) /\ (exists c, demo_retry.2 = Ok c).
Proof. split_and!; eexists; vm_compute; reflexivity. Qed.

(** ** One live session *)

(** Backwards too the chain goes one way. *)
Lemma on_chain_merge m a : chains_ok m -> forall j k, on_chain m j a -> on_chain m k a -> on_chain m j k \/ on_chain m k j.
Proof.
  intros C j k Hj. revert k. pattern a. eapply rtc_ind_r; [| |exact Hj]; [intros k Hk; by right|].
  intros y z Hy Hyz IH k Hk. destruct (rtc_inv_r _ _ Hk) as [<-|(x & Hx & Hxz)]; [left; by eapply rtc_r|].
  apply IH. by rewrite (co_pred _ C _ _ _ Hyz Hxz).
Qed.

(** C28: ONE LIVE SESSION. A live session is the only live one of its chain and
    comes last in it: whatever else is on the chain leads to it and is revoked;
    two chains that have it in common are parts of one; and everything on the
    chain belongs to one user. A stolen token and the token that replaced it
    are never both good. *)
Theorem one_live_session T db k a : auth_reachable T db -> on_chain (au_sessions db) k a -> live (au_sessions db) a ->
  (forall b, on_chain (au_sessions db) k b -> b <> a -> on_chain (au_sessions db) b a
     /\ exists s, au_sessions db !! b = Some s /\ ses_Revoked s = true)
  /\ (forall j, on_chain (au_sessions db) j a -> on_chain (au_sessions db) j k \/ on_chain (au_sessions db) k j)
  /\ (forall j s t, on_chain (au_sessions db) j a -> au_sessions db !! j = Some s -> au_sessions db !! a = Some t ->
        ses_UserID s = ses_UserID t).
Proof.
  intros R Ha La. pose proof (auth_reachable_ok _ _ R) as C. split_and!.
  - intros b Hb Hne. destruct (on_chain_total _ _ _ _ Ha Hb) as [H|H]; [by apply (live_last _ _ _ C La) in H|].
    split; [done|]. inversion H as [|? x ? (s & Hs & E)]; subst; [done|]. exists s. split; [done|].
    by apply (co_link _ C _ _ _ Hs E).
  - intros j Hj. by apply (on_chain_merge _ a).
  - intros j s t Hj Hs Ht. symmetry. by eapply on_chain_user.
Qed.

Definition first_session : string := "010a".
Definition second_session : string := "0209".
Definition third_session : string := "0309".

(** Links and live sessions, evaluated. *)
Lemma link_at m k n : (m !! k) ≫= ses_RotatedTo = Some n -> link m k n.
Proof. destruct (m !! k) as [s|] eqn:E; [|done]. intros H. by exists s. Qed.
Lemma live_at m k : ses_Revoked <$> m !! k = Some false -> live m k.
Proof. destruct (m !! k) as [s|] eqn:E; [|done]. intros [= H]. by exists s. Qed.

Lemma one_live_session_witness : let m := au_sessions (ar_DB demo_retry.1) in
  live m third_session /\ on_chain m first_session third_session
  /\ exists s, m !! second_session = Some s /\ ses_Revoked s = true.
Proof.
  assert (live (au_sessions (ar_DB demo_retry.1)) third_session) as L by (apply live_at; vm_compute; reflexivity).
  assert (link (au_sessions (ar_DB demo_retry.1)) first_session second_session) as L1 by (apply link_at; vm_compute; reflexivity).
  assert (link (au_sessions (ar_DB demo_retry.1)) second_session third_session) as L2 by (apply link_at; vm_compute; reflexivity).
  assert (on_chain (au_sessions (ar_DB demo_retry.1)) first_session third_session) as Hc by (eapply rtc_l; [exact L1|by apply rtc_once]).
  split; [exact L|]. split; [exact Hc|].
  destruct (one_live_session _ _ _ _ demo_retry_reachable Hc L) as [H _].
  destruct (H second_session) as [_ Hr]; [by apply rtc_once|by intros [=]|exact Hr].
Defined.

(** ** A refresh continues the chain *)

(** C29: A REFRESH CONTINUES ITS OWN CHAIN. When a refresh succeeds, whatever
    committed between its statements and however many of them failed on the
    way, the presented token was that of a session of the user who is answered;
    the new token is that of a session which the chain of that session has led
    to, for the same user, with the scope and app of the signed claims; the
    subject of the claims is that user; and "has access" is what the scope says. *)
Theorem refresh_continues_chain Past T env attl rttl token appID s s' resp :
  (forall n db, auth_steps T db (ae_others env n db)) ->
  (forall n b, ae_rand env n = Some b -> T (hashToken (EncodeToString b))) ->
  auth_reachable Past (ar_DB s) -> RefreshToken env attl rttl token appID s = (s', Ok resp) ->
  auth_steps T (ar_DB s) (ar_DB s') /\ refreshed (hashToken token) resp (ar_DB s').
Proof.
  intros Ho Hd R E. destruct (RefreshToken_continues T env Ho Hd attl rttl token appID s (auth_reachable_ok _ _ R)) as [H1 H2].
  rewrite E in *. by destruct H2.
Qed.

(** The retry of a lost answer, with the token rotated out ten seconds before. *)
Lemma refresh_continues_chain_witness : exists resp, demo_retry.2 = Ok resp /\ refreshed (hashToken demo_token) resp (ar_DB demo_retry.1).
Proof.
  destruct demo_retry as [s' r] eqn:E. destruct r as [resp|e]; [|exfalso; assert (demo_retry.2 = Err e) as H by (by rewrite E); vm_compute in H; discriminate].
  exists resp. split; [reflexivity|].
  exact (proj2 (refresh_continues_chain anything anything (demo_env (110 * second) alone 3) minutes_15 days_30 demo_token "" (mkAuthRun (ar_DB demo_refresh.1) 0) s' resp
    (fun n db => alone_steps anything n db) (fun _ _ _ => I) demo_refresh_reachable E)).
Defined.

(** ** Tokens that are refused for good *)

(** The token is that of session [n] alone. *)
Definition only_token (h : string) (n : string) (db : AuthDB) : Prop :=
  forall k s, au_sessions db !! k = Some s -> ses_RefreshToken s = h -> k = n.

(** Three ways a session ends: the response to reuse of a session it descends
    from, a revocation while it is live, and the end of the grace window. *)
Inductive ends (env : AuthEnv) (n : string) (db : AuthDB) : AuthDB -> Prop :=
| ends_chain k now : on_chain (au_sessions db) k n -> ends env n db (RevokeChainFrom k now db)
| ends_revoke now : live (au_sessions db) n -> ends env n db (Revoke n now db)
| ends_late s r : au_sessions db !! n = Some s -> ses_Revoked s = true -> ses_RevokedAt s = Some r ->
    (forall i, refreshRotationGraceWindow < time_sub (ae_clock env i) r) -> ends env n db db.

Lemma same_links_only h n db db' : same_links (au_sessions db) (au_sessions db') -> only_token h n db -> only_token h n db'.
Proof.
  intros [H _] U k s' Hs' Ht. destruct (H _ _ Hs') as (s & Hs & Hc & _). apply (U _ _ Hs). unfold session_core in Hc. congruence.
Qed.

Lemma ends_links env n db db' : ends env n db db' -> same_links (au_sessions db) (au_sessions db').
Proof. intros []; [apply RevokeChainFrom_links|apply Revoke_links|apply same_links_refl]. Qed.

(** A revocation of a live session leaves nobody live on its chain. *)
Lemma Revoke_dead n now db : chains_ok (au_sessions db) -> live (au_sessions db) n -> dead (au_sessions (Revoke n now db)) n.
Proof.
  intros C (s & Hs & Hv). eapply revoked_end_dead with (s := with_revocation (Some (default now (ses_RevokedAt s))) (ses_RotatedTo s) s).
  - simpl. by rewrite lookup_alter_eq, Hs.
  - done.
  - simpl. destruct (ses_RotatedTo s) as [x|] eqn:E; [|done]. destruct (co_link _ C _ _ _ Hs E). congruence.
Qed.

Lemma dead_onwards m k n : dead m k -> on_chain m k n -> chains_ok m -> dead m n.
Proof.
  intros D H C. destruct (dead_member _ _ _ D H C) as (s & Hs & _). destruct D as [_ D].
  split; [by eexists|]. intros x Hx. apply D. by etransitivity.
Qed.

Lemma ends_refused env h n s db db' : chains_ok (au_sessions db) -> au_sessions db !! n = Some s -> only_token h n db ->
  ends env n db db' -> refused env h db'.
Proof.
  intros C Hn U He. pose proof (ends_links _ _ _ _ He) as L. pose proof (same_links_ok _ _ L C) as C'. split; [done|].
  intros k s' Hs' Ht. assert (k = n) as -> by by apply (same_links_only _ _ _ _ L U _ _ Hs').
  assert (dead (au_sessions db') n -> ses_Revoked s' = true /\ (dead (au_sessions db') n \/ exists r, ses_RevokedAt s' = Some r
            /\ forall i, refreshRotationGraceWindow < time_sub (ae_clock env i) r)) as Hdead.
  { intros D. destruct (dead_member _ _ _ D (rtc_refl _ _) C') as (x & Hx & Hv). split; [congruence|by left]. }
  destruct He as [k now Hk|now Hl|x r Hx Hv Hr Hi].
  - apply Hdead. assert (is_Some (au_sessions db !! k)) as Hks.
    { destruct (rtc_inv _ _ Hk) as [->|(y & (z & Hz & _) & _)]; by eexists. }
    destruct (RevokeChainFrom_dead k now db C Hks) as [D _]. apply (dead_onwards _ k); [done| |done].
    eapply on_chain_later; [by apply same_links_evolve|done..].
  - apply Hdead. by apply Revoke_dead.
  - assert (x = s') as -> by congruence. split; [done|]. right. by exists r.
Qed.

(** C27: AN ENDED TOKEN STAYS ENDED. Once the chain a session is on has been
    revoked for reuse, or the session was revoked while live, or it was rotated
    out longer than the grace window ago, its token is never good again: after
    any further steps of anybody, a refresh with it fails, whatever runs beside
    it, under every app. And the response to reuse touches no session off the
    chain, so that other logins of the user live on. *)
Theorem ended_token_stays_ended Past T env attl rttl token n s db db' :
  (forall m d, auth_steps T d (ae_others env m d)) ->
  (* no later token has this digest *)
  ~ T (hashToken token) ->
  auth_reachable Past db -> au_sessions db !! n = Some s -> only_token (hashToken token) n db -> ends env n db db' ->
  (forall st appID, auth_steps T db' (ar_DB st) -> exists e, (RefreshToken env attl rttl token appID st).2 = Err e)
  /\ (forall k now j, ~ on_chain (au_sessions db) k j -> au_sessions (RevokeChainFrom k now db) !! j = au_sessions db !! j).
Proof.
  intros Ho HT R Hn U He. pose proof (auth_reachable_ok _ _ R) as C. split.
  - intros st appID Hst. pose proof (refused_stable T env _ HT _ _ Hst (ends_refused _ _ _ _ _ _ C Hn U He)) as Hr.
    destruct (RefreshToken_refused T env Ho attl rttl token appID HT st Hr) as [_ H].
    destruct (RefreshToken env attl rttl token appID st).2 as [resp|e]; [done|]. by exists e.
  - intros k now j Hj. destruct (au_sessions db !! k) as [x|] eqn:E.
    + apply (RevokeChainFrom_dead k now db C ltac:(by eexists)). done.
    + unfold RevokeChainFrom. by rewrite E.
Qed.

(** The second token, after the first one was presented too late. *)
Definition second_token : string := Eval vm_compute in token_of demo_refresh.2.
Definition after_reuse : AuthDB := RevokeChainFrom first_session (200 * second) (ar_DB demo_refresh.1).

Lemma only_token_at h n db : map_Forall (fun k s => ses_RefreshToken s = h -> k = n) (au_sessions db) -> only_token h n db.
Proof. intros H k s Hs. by apply (H k s). Qed.

Lemma ended_token_stays_ended_witness :
  exists e, (RefreshToken (demo_env (200 * second) alone 4) minutes_15 days_30 second_token "app" (mkAuthRun after_reuse 0)).2 = Err e.
Proof.
  destruct (au_sessions (ar_DB demo_refresh.1) !! second_session) as [s|] eqn:Es; [|exfalso; vm_compute in Es; discriminate].
  destruct (ended_token_stays_ended anything (fun h => h <> hashToken second_token) (demo_env (200 * second) alone 4) minutes_15 days_30 second_token second_session s
    (ar_DB demo_refresh.1) after_reuse) as [H _].
  - intros m d. apply alone_steps.
  - intros H. exact (H eq_refl).
  - exact demo_refresh_reachable.
  - exact Es.
  - apply only_token_at. refine (bool_decide_unpack _ _). vm_compute. exact I.
  - apply ends_chain, rtc_once, link_at. vm_compute. reflexivity.
  - apply (H (mkAuthRun after_reuse 0) "app"). apply rtc_refl.
Defined.

(** ** Logout *)

(** Nobody else, and no failing statement. *)
Definition undisturbed (env : AuthEnv) : Prop := (forall n db, ae_others env n db = db) /\ (forall n, ae_io env n = None).

Lemma statement_undisturbed {A} env (f : nat -> AuthDB -> AuthDB * ares A) s : undisturbed env ->
  statement env f s = (mkAuthRun (f (ar_n s) (ar_DB s)).1 (S (ar_n s)), (f (ar_n s) (ar_DB s)).2).
Proof. intros [Ho Hi]. unfold statement. rewrite Ho, Hi. by destruct (f _ _). Qed.

Lemma select_undisturbed {A} env (f : nat -> AuthDB -> ares A) s : undisturbed env ->
  select env f s = (mkAuthRun (ar_DB s) (S (ar_n s)), f (ar_n s) (ar_DB s)).
Proof. intros Q. unfold select. by rewrite statement_undisturbed. Qed.

Lemma exec_undisturbed env (f : nat -> AuthDB -> ares AuthDB) s : undisturbed env ->
  exec env f s = match f (ar_n s) (ar_DB s) with
                 | Ok db => (mkAuthRun db (S (ar_n s)), Ok tt) | Err e => (mkAuthRun (ar_DB s) (S (ar_n s)), Err e) end.
Proof. intros Q. unfold exec. rewrite statement_undisturbed by done. by destruct (f _ _). Qed.

Lemma first_row_Err {A} p (m : gmap string A) e : first_row p m = Err e ->
  e = EStatement ErrNoRows /\ forall k a, m !! k = Some a -> p a = false.
Proof.
  unfold first_row. destruct (rows m p) as [|x l] eqn:E; [|done]. intros [= <-]. split; [done|]. intros k a Hk.
  destruct (p a) eqn:Ep; [|done]. assert (In a (rows m p)) as H; [|by rewrite E in H].
  apply List.filter_In. split; [|done]. apply list_elem_of_In, list_elem_of_fmap. exists (k, a). split; [done|].
  by apply elem_of_map_to_list.
Qed.

(** Undisturbed, a logout succeeds: it revokes the live session of the token,
    whose chain is dead from then on, or there is none and nothing changes. *)
Lemma Logout_undisturbed env token s : undisturbed env -> chains_ok (au_sessions (ar_DB s)) ->
  (Logout env token s).2 = Ok tt
  /\ ((exists n x now, au_sessions (ar_DB s) !! n = Some x /\ ses_RefreshToken x = hashToken token /\ live (au_sessions (ar_DB s)) n
          /\ ar_DB (Logout env token s).1 = Revoke n now (ar_DB s) /\ dead (au_sessions (ar_DB (Logout env token s).1)) n)
      \/ ar_DB (Logout env token s).1 = ar_DB s
         /\ forall n x, au_sessions (ar_DB s) !! n = Some x -> ses_RefreshToken x = hashToken token -> ses_SessionType x = "refresh" ->
              ses_Revoked x = true \/ ses_ExpiresAt x <= ae_clock env (ar_n s)).
Proof.
  intros Q C. unfold Logout, pcatch. rewrite select_undisturbed by done. destruct (FindByRefreshToken _ _ _ _) as [x|e] eqn:E.
  - apply first_row_Ok in E as (n & Hn & Hp). bool_prop. apply String.eqb_eq in H. unfold update. rewrite statement_undisturbed by done. simpl.
    rewrite (co_key _ C _ _ Hn). assert (live (au_sessions (ar_DB s)) n) as L by by exists x.
    split; [done|]. left. exists n, x, (ae_now env (S (ar_n s))). split_and!; try done. by apply Revoke_dead.
  - apply first_row_Err in E as [-> Hall]. simpl. split; [done|]. right. split; [done|]. intros n x Hx Ht Hty.
    specialize (Hall _ _ Hx). rewrite Ht, Hty, !String.eqb_refl in Hall. simpl in Hall.
    destruct (ses_Revoked x); [by left|]. simpl in Hall. right. apply Z.ltb_ge in Hall. done.
Qed.

(** A refresh that commits between the two statements of a logout. *)
Definition racing_refresh (n : nat) (db : AuthDB) : AuthDB :=
  match n with
  | 1%nat => ar_DB (RefreshToken (demo_env (100 * second) alone 2) minutes_15 days_30 demo_token "" (mkAuthRun db 0)).1
  | _ => db
  end.

(** A logout that loses to a refresh of the same token succeeds, and leaves the
    session live in its successor. *)
Theorem logout_loses_to_refresh :
  (Logout (demo_env (100 * second) racing_refresh 5) demo_token (mkAuthRun (ar_DB demo_login.1) 0)).2 = Ok tt
  /\ live (au_sessions (ar_DB (Logout (demo_env (100 * second) racing_refresh 5) demo_token (mkAuthRun (ar_DB demo_login.1) 0)).1)) second_session.
Proof. split; [vm_compute; reflexivity|apply live_at; vm_compute; reflexivity]. Qed.

(** ** The tables are well formed *)

Definition providers : list string := ["github"; "google"; "wechat"].

Record identities_wf (us : gmap string User) (ids : gmap string SocialIdentity) : Prop := {
  iw_user : forall k i, ids !! k = Some i -> is_Some (us !! si_UserID i) /\ In (si_Provider i) providers;
  iw_unique : forall k k' i i', ids !! k = Some i -> ids !! k' = Some i' ->
    si_Provider i = si_Provider i' -> si_ProviderUID i = si_ProviderUID i' -> k = k';
}.
Definition sessions_wf (us : gmap string User) (m : gmap string Session) : Prop :=
  forall k s, m !! k = Some s -> is_Some (us !! ses_UserID s) /\ In (ses_SessionType s) ["refresh"; "auth_code"].

Record auth_wf (db : AuthDB) : Prop := {
  aw_identities : identities_wf (au_users db) (au_identities db);
  aw_sessions : sessions_wf (au_users db) (au_sessions db);
  aw_chains : chains_ok (au_sessions db);
}.

Definition users_kept (us us' : gmap string User) : Prop := forall id, is_Some (us !! id) -> is_Some (us' !! id).

Lemma identities_wf_users us us' ids : users_kept us us' -> identities_wf us ids -> identities_wf us' ids.
Proof. intros H [A B]. split; [|done]. intros k i Hi. destruct (A k i Hi). auto. Qed.
Lemma sessions_wf_users us us' m : users_kept us us' -> sessions_wf us m -> sessions_wf us' m.
Proof. intros H A k s Hs. destruct (A k s Hs). auto. Qed.

Lemma sessions_wf_links us m m' : same_links m m' -> sessions_wf us m -> sessions_wf us m'.
Proof.
  intros [H _] A k s' Hs'. destruct (H _ _ Hs') as (s & Hs & Hc & _). destruct (A _ _ Hs) as [? ?].
  unfold session_core in Hc. simplify_eq. split; congruence.
Qed.

Lemma CreateSession_wf s db db' : CreateSession s db = Ok db' -> sessions_wf (au_users db) (au_sessions db) ->
  au_users db' = au_users db /\ au_identities db' = au_identities db /\ sessions_wf (au_users db') (au_sessions db').
Proof.
  intros H A. assert (String.eqb (ses_SessionType s) "refresh" || String.eqb (ses_SessionType s) "auth_code" = true) as Hty.
  { unfold CreateSession in H. by destruct (_ || _). }
  apply CreateSession_Ok in H as (Hn & Hu & ->). split_and!; [done..|]. simpl. intros k x [[_ <-]|[_ Hx]]%lookup_insert_Some; [|by apply (A k)].
  split; [done|]. apply orb_true_iff in Hty as [->%String.eqb_eq| ->%String.eqb_eq]; simpl; tauto.
Qed.

Lemma RotateRefresh_wf id s now db db' o : RotateRefresh id s now db = Ok db' -> au_sessions db !! id = Some o ->
  ses_SessionType s = "refresh" -> sessions_wf (au_users db) (au_sessions db) ->
  au_users db' = au_users db /\ au_identities db' = au_identities db /\ sessions_wf (au_users db') (au_sessions db').
Proof.
  intros H Ho Hty A. destruct (RotateRefresh_Ok _ _ _ _ _ _ H Ho) as (_ & _ & Hu & ->). split_and!; [done..|]. simpl.
  intros k x [[_ <-]|[_ [[_ <-]|[_ Hx]]%lookup_insert_Some]]%lookup_insert_Some; [exact (A _ _ Ho)| |by apply (A k)].
  split; [done|]. rewrite Hty. by left.
Qed.

Lemma CreateIdentity_wf id i db db' : CreateIdentity id i db = Ok db' -> identities_wf (au_users db) (au_identities db) ->
  au_users db' = au_users db /\ au_sessions db' = au_sessions db /\ au_identities db' = <[id := i]> (au_identities db)
  /\ identities_wf (au_users db') (au_identities db').
Proof.
  intros H [A B]. unfold CreateIdentity in H. destruct (existsb (String.eqb (si_Provider i)) _) eqn:Ep; [|done].
  destruct (existsb _ (map_to_list _).*2) eqn:Eu; [done|]. apply rbind_Ok in H as (m & (_ & Hu & ->)%insert_new_Ok & [= <-]).
  apply has_true in Hu. split_and!; [done..|]. simpl.
  assert (forall k x, au_identities db !! k = Some x -> si_Provider x = si_Provider i -> si_ProviderUID x = si_ProviderUID i -> False) as Hno.
  { intros k x Hx E1 E2. apply not_true_iff_false in Eu. apply Eu, existsb_exists. exists x. split.
    - apply list_elem_of_In, list_elem_of_fmap. exists (k, x). split; [done|]. by apply elem_of_map_to_list.
    - by rewrite E1, E2, !String.eqb_refl. }
  split.
  - intros k x [[_ <-]|[_ Hx]]%lookup_insert_Some; [|by apply (A k)]. split; [done|].
    apply existsb_exists in Ep as (p & Hp & ->%String.eqb_eq). done.
  - intros k k' x x' [[<- <-]|[_ Hx]]%lookup_insert_Some [[<- <-]|[_ Hx']]%lookup_insert_Some E1 E2; [done|..].
    + destruct (Hno k' x'); congruence.
    + destruct (Hno k x); congruence.
    + by apply (B k k' x x').
Qed.

Lemma DeleteIfNotLast_wf id u db : identities_wf (au_users db) (au_identities db) ->
  au_users (DeleteIfNotLast id u db).1 = au_users db /\ identities_wf (au_users db) (au_identities (DeleteIfNotLast id u db).1).
Proof.
  intros [A B]. unfold DeleteIfNotLast. destruct (_ !! id); [|done]. destruct (_ && _); [|done]. simpl. split; [done|]. split.
  - intros k i [_ Hi]%lookup_delete_Some. by apply (A k).
  - intros k k' i i' [_ Hi]%lookup_delete_Some [_ Hi']%lookup_delete_Some. by apply B.
Qed.

Lemma CreateUser_kept id u db db' : CreateUser id u db = Ok db' -> users_kept (au_users db) (au_users db') /\ au_users db' = <[id := u]> (au_users db)
  /\ au_identities db' = au_identities db /\ au_sessions db' = au_sessions db.
Proof.
  unfold CreateUser. intros H. apply rbind_Ok in H as (m & (Hn & _ & ->)%insert_new_Ok & [= <-]). simpl. split_and!; try done.
  intros i [x Hx]. destruct (decide (i = id)) as [->|]; [congruence|]. rewrite lookup_insert_ne by done. by exists x.
Qed.

Lemma auth_step_users T db db' : auth_step T db db' -> users_kept (au_users db) (au_users db').
Proof.
  unfold users_kept. intros [s d H Ho|id s now d o H Ho Hty Hid Hu|id now|id now|id now|id s now b d H Ho|id i d H|id u|id u d H|us ps ss apps H]; try done.
  - by apply CreateSession_Ok in H as (_ & _ & ->).
  - by apply (RotateRefresh_Ok _ _ _ _ _ _ H) in Hid as (_ & _ & _ & ->).
  - unfold RevokeIfNotRevoked. destruct (_ !! id) as [x|]; [|done]. by destruct (ses_Revoked x).
  - unfold RevokeChainFrom. by destruct (_ !! id).
  - apply ExchangeAuthCode_Ok in H as [->|(d1 & -> & (_ & _ & ->)%CreateSession_Ok)]; [done|]. simpl.
    unfold RevokeIfNotRevoked. destruct (_ !! id) as [x|]; [|done]. by destruct (ses_Revoked x).
  - unfold CreateIdentity in H. by inv_ok.
  - unfold DeleteIfNotLast. destruct (_ !! id); [|done]. by destruct (_ && _).
  - by apply CreateUser_kept in H as (? & _).
Qed.

(** Identities are bound and unbound by their own statements only. *)
Lemma auth_step_identities T db db' : auth_step T db db' -> au_identities db' = au_identities db
  \/ (exists id i, CreateIdentity id i db = Ok db') \/ exists id u, db' = (DeleteIfNotLast id u db).1.
Proof.
  intros [s d H Ho|id s now d o H Ho Hty Hid Hu|id now|id now|id now|id s now b d H Ho|id i d H|id u|id u d H|us ps ss apps H]; eauto.
  - left. by apply CreateSession_Ok in H as (_ & _ & ->).
  - left. by apply (RotateRefresh_Ok _ _ _ _ _ _ H) in Hid as (_ & _ & _ & ->).
  - left. unfold RevokeIfNotRevoked. destruct (_ !! id) as [x|]; [|done]. by destruct (ses_Revoked x).
  - left. unfold RevokeChainFrom. by destruct (_ !! id).
  - left. apply ExchangeAuthCode_Ok in H as [->|(d1 & -> & (_ & _ & ->)%CreateSession_Ok)]; [done|]. simpl.
    unfold RevokeIfNotRevoked. destruct (_ !! id) as [x|]; [|done]. by destruct (ses_Revoked x).
  - left. by apply CreateUser_kept in H as (_ & _ & ? & _).
Qed.

Lemma auth_step_sessions_wf T db db' : auth_step T db db' -> sessions_wf (au_users db) (au_sessions db) ->
  sessions_wf (au_users db) (au_sessions db').
Proof.
  intros H S. destruct H as [s d H Ho|id s now d o H Ho Hty Hid Hu|id now|id now|id now|id s now b d H Ho|id i d H|id u|id u d H|us ps ss apps H].
  - destruct (CreateSession_wf _ _ _ H S) as (<- & _ & Hs). done.
  - destruct (RotateRefresh_wf _ _ _ _ _ _ H Hid Hty S) as (<- & _ & Hs). done.
  - eapply sessions_wf_links; [apply Revoke_links|done].
  - eapply sessions_wf_links; [apply RevokeIfNotRevoked_links|done].
  - eapply sessions_wf_links; [apply RevokeChainFrom_links|done].
  - apply ExchangeAuthCode_Ok in H as [->|(d1 & -> & H)]; [done|]. pose proof (auth_step_users T _ _ (as_revoke_once T db id now)) as Hk.
    destruct (CreateSession_wf _ _ _ H) as (Hus & _ & Hs); [|].
    { eapply sessions_wf_links; [apply RevokeIfNotRevoked_links|]. by eapply sessions_wf_users. }
    rewrite Hus in Hs. assert (au_users (RevokeIfNotRevoked id now db).1 = au_users db) as <-; [|done].
    unfold RevokeIfNotRevoked. destruct (_ !! id) as [x|]; [|done]. by destruct (ses_Revoked x).
  - by rewrite (CreateIdentity_sessions _ _ _ _ H).
  - by rewrite DeleteIfNotLast_sessions.
  - by rewrite (CreateUser_sessions _ _ _ _ H).
  - done.
Qed.

Lemma auth_step_wf T db db' : auth_step T db db' -> auth_wf db -> auth_wf db'.
Proof.
  intros H [I S C]. pose proof (auth_step_users _ _ _ H) as Hk. destruct (auth_step_ok _ _ _ H C) as [C' _]. split; [|..|exact C'].
  - destruct (auth_step_identities _ _ _ H) as [->|[(id & i & Hc)|(id & u & ->)]].
    + by eapply identities_wf_users.
    + by destruct (CreateIdentity_wf _ _ _ _ Hc I) as (_ & _ & _ & ?).
    + destruct (DeleteIfNotLast_wf id u db I) as (-> & ?). done.
  - eapply sessions_wf_users; [exact Hk|]. by eapply auth_step_sessions_wf.
Qed.

(** What every step keeps. *)
Lemma auth_steps_keep T (P : AuthDB -> Prop) db db' : (forall d d', auth_step T d d' -> P d -> P d') -> auth_steps T db db' -> P db -> P db'.
Proof. intros Hs H. induction H; eauto. Qed.

(** C31: THE TABLES STAY WELL FORMED. Every identity and every session is of a
    user there is, every identity of a known provider, every session of one of
    the two types; no two identities have the same provider and uid, so a
    profile signs in one user; and the rotation chains have their shape. Every
    transaction keeps that, however the requests interleave. *)
Theorem auth_wf_steps T db db' : auth_wf db -> auth_steps T db db' -> auth_wf db'.
Proof. intros W H. by apply (auth_steps_keep T auth_wf db db' (auth_step_wf T)). Qed.

Lemma demo_wf : auth_wf demo_db.
Proof.
  split; simpl.
  - split.
    + intros k i H. apply lookup_singleton_Some in H as [<- <-]. split; [by eexists|by left].
    + intros k k' i i' [<- _]%lookup_singleton_Some [<- _]%lookup_singleton_Some. done.
  - by intros k s.
  - split; [by intros k s|by intros k s n|by intros k k' n (s & ? & _)|].
    exists (fun _ => 0%nat), 0%nat. split; [by intros k s|by intros k n (s & ? & _)].
Qed.

Lemma auth_wf_steps_witness : auth_wf demo_db /\ auth_wf (ar_DB demo_login.1).
Proof.
  split; [exact demo_wf|]. apply (auth_wf_steps anything demo_db); [exact demo_wf|].
  apply (login_steps _ _ _ _ _ (mkAuthRun demo_db 0)), alone_steps.
Defined.

(** ** Who is signed in *)

Definition binds (info : ProviderUserInfo) (i : SocialIdentity) : Prop :=
  si_Provider i = pi_Provider info /\ si_ProviderUID i = pi_ProviderUID info.

(** An identity that a profile joins by its email. *)
Definition joins (info : ProviderUserInfo) (i : SocialIdentity) : Prop :=
  pi_Email info <> "" /\ si_Email i = Some (pi_Email info) /\ isTestIdentityProviderUID (si_ProviderUID i) = false.

Lemma pbind_Ok {A B} (p : prog A) (k : A -> prog B) s s' b : pbind p k s = (s', Ok b) ->
  exists s1 a, p s = (s1, Ok a) /\ k a s1 = (s', Ok b).
Proof. unfold pbind. destruct (p s) as [s1 [a|e]]; [eauto|done]. Qed.

Lemma user_row_Ok env id s s' r : undisturbed env -> user_row env id s = (s', Ok r) ->
  ar_DB s' = ar_DB s /\ r.1 = id /\ au_users (ar_DB s) !! id = Some r.2.
Proof.
  intros Q (s1 & u & H & [= <- <-])%pbind_Ok. rewrite select_undisturbed in H by done. injection H as <- H. split; [done|].
  split; [done|]. unfold get in H. destruct (_ !! id) as [x|]; [|done]. by injection H as ->.
Qed.

Lemma FindByProviderUID_Ok info db i : FindByProviderUID (pi_Provider info) (pi_ProviderUID info) db = Ok i ->
  exists k, au_identities db !! k = Some i /\ binds info i.
Proof. intros (k & Hk & Hp)%first_row_Ok. bool_prop. apply String.eqb_eq in H, H0. exists k. by split. Qed.

Lemma FindByProviderUID_Err info db e : FindByProviderUID (pi_Provider info) (pi_ProviderUID info) db = Err e ->
  forall k i, au_identities db !! k = Some i -> ~ binds info i.
Proof. intros [_ H]%first_row_Err k i Hi [E1 E2]. specialize (H _ _ Hi). by rewrite E1, E2, !String.eqb_refl in H. Qed.

Lemma FindByEmail_iff email db i : In i (FindByEmail email db) <-> exists k, au_identities db !! k = Some i /\ si_Email i = Some email.
Proof.
  unfold FindByEmail, rows. rewrite List.filter_In, bool_decide_eq_true, <- list_elem_of_In, list_elem_of_fmap. split.
  - intros [([k x] & -> & Hk) He]. exists k. by apply elem_of_map_to_list in Hk.
  - intros (k & Hk & He). split; [|done]. exists (k, i). split; [done|]. by apply elem_of_map_to_list.
Qed.

(** The user a profile without an identity of its own gets. *)
Definition chosen_user (info : ProviderUserInfo) (db db' : AuthDB) (id : string) (isNew : bool) : Prop :=
  if isNew
  then au_users db !! id = None /\ (forall k i, au_identities db !! k = Some i -> ~ joins info i)
       /\ au_users db' = <[id := mkUser (Some (pi_Nickname info)) None (Some (pi_AvatarURL info)) "active"]> (au_users db)
  else (exists k i, au_identities db !! k = Some i /\ joins info i /\ si_UserID i = id) /\ au_users db' = au_users db.

Lemma resolve_Ok env info s s' id isNew : undisturbed env -> resolveOrCreateUser env info s = (s', Ok (id, isNew)) ->
  au_identities (ar_DB s') = au_identities (ar_DB s) /\ chosen_user info (ar_DB s) (ar_DB s') id isNew.
Proof.
  intros Q (s1 & l & Hl & H)%pbind_Ok.
  assert (ar_DB s1 = ar_DB s /\ forall i, In i (List.filter (fun i => negb (isTestIdentityProviderUID (si_ProviderUID i))) l)
            <-> exists k, au_identities (ar_DB s) !! k = Some i /\ joins info i) as [E Hin].
  { destruct (String.eqb (pi_Email info) "") eqn:Ee.
    - injection Hl as <- <-. split; [done|]. apply String.eqb_eq in Ee. intros i. split; [done|]. by intros (k & _ & Hne & _).
    - rewrite select_undisturbed in Hl by done. injection Hl as <- <-. split; [done|]. apply String.eqb_neq in Ee. intros i.
      rewrite List.filter_In, FindByEmail_iff, negb_true_iff. split.
      + intros [(k & Hk & He) Ht]. by exists k.
      + intros (k & Hk & _ & He & Ht). split; [by exists k|done]. }
  destruct (List.filter _ l) as [|i r].
  - apply pbind_Ok in H as (s2 & id' & [= <- <-] & H). apply pbind_Ok in H as (s3 & [] & Hc & [= <- <- <-]).
    rewrite exec_undisturbed in Hc by done. simpl in Hc. destruct (CreateUser _ _ _) as [db'|] eqn:Eu; [|done].
    injection Hc as <-. simpl. rewrite E in Eu. unfold CreateUser in Eu. apply rbind_Ok in Eu as (m & (Hn & _ & ->)%insert_new_Ok & [= <-]).
    split; [done|]. split_and!; [done| |done]. intros k i Hk Hj. destruct (proj2 (Hin i)). by exists k.
  - injection H as <- <- <-. rewrite E. split; [done|]. split; [|done]. destruct (proj1 (Hin i) (or_introl eq_refl)) as (k & Hk & Hj).
    by exists k, i.
Qed.

Lemma grant_trial_keeps env u s s' r : undisturbed env -> grantTrialSubscription env u s = (s', r) ->
  au_users (ar_DB s') = au_users (ar_DB s) /\ au_identities (ar_DB s') = au_identities (ar_DB s).
Proof.
  intros Q. unfold grantTrialSubscription, pcatch at 1. rewrite select_undisturbed by done. destruct (get _ _) as [p|]; [|by intros [= <- _]].
  destruct (_ || _); [by intros [= <- _]|]. unfold pbind, now_, GenerateUUID, draw, pcatch. simpl. rewrite exec_undisturbed by done. simpl.
  destruct (CreateSubscription _ _ _) as [db'|] eqn:Es; intros [= <- _]; [|done]. simpl. unfold CreateSubscription in Es. by inv_ok.
Qed.

(** The row of the user, after statements that leave the users alone. *)
Lemma signed_row env (p : prog unit) (isNew : bool) id s s' u : undisturbed env ->
  (forall s s' r, p s = (s', r) -> au_users (ar_DB s') = au_users (ar_DB s) /\ au_identities (ar_DB s') = au_identities (ar_DB s)) ->
  (run _ <- p; run u <- user_row env id; pret (Ok (u, isNew))) s = (s', Ok u) ->
  au_users (ar_DB s') = au_users (ar_DB s) /\ au_identities (ar_DB s') = au_identities (ar_DB s)
  /\ exists row, u = (id, row, isNew) /\ au_users (ar_DB s') !! id = Some row.
Proof.
  intros Q Hp (s1 & x & E & (s2 & [i row] & H & [= <- <-])%pbind_Ok)%pbind_Ok. destruct (Hp _ _ _ E) as [Eu Ei].
  destruct (user_row_Ok _ _ _ _ _ Q H) as (Ed & Hi & Hr). simpl in *. subst i. rewrite Ed. split_and!; [done..|]. by exists row.
Qed.

(** Undisturbed: the user of the identity, of another with the email, or a new one. *)
Lemma login_user_cases env info s s' id u isNew : undisturbed env ->
  getOrCreateUser env info s = (s', Ok (id, u, isNew)) ->
  au_users (ar_DB s') !! id = Some u
  /\ (exists k i, au_identities (ar_DB s') !! k = Some i /\ binds info i /\ si_UserID i = id)
  /\ ((exists k i, au_identities (ar_DB s) !! k = Some i /\ binds info i /\ id = si_UserID i /\ isNew = false /\ ar_DB s' = ar_DB s)
      \/ (forall k i, au_identities (ar_DB s) !! k = Some i -> ~ binds info i)
         /\ chosen_user info (ar_DB s) (ar_DB s') id isNew
         /\ exists k, au_identities (ar_DB s) !! k = None
              /\ au_identities (ar_DB s') = <[k := mkIdentity id (pi_Provider info) (pi_ProviderUID info) (Some (pi_Email info))]> (au_identities (ar_DB s))).
Proof.
  intros Q. unfold getOrCreateUser, pcatch at 1. rewrite select_undisturbed by done.
  destruct (FindByProviderUID _ _ _) as [i|e] eqn:Ef.
  - intros (s1 & [j row] & H & [= <- <- <- <-])%pbind_Ok. apply FindByProviderUID_Ok in Ef as (k & Hk & Hb).
    destruct (user_row_Ok _ _ _ _ _ Q H) as (Ed & Hj & Hr). simpl in *. subst j. rewrite Ed.
    split; [done|]. split; [by exists k, i|]. left. by exists k, i.
  - pose proof (FindByProviderUID_Err _ _ _ Ef) as Hno. intros (s1 & [uid new] & Hu & H)%pbind_Ok.
    destruct (resolve_Ok _ _ _ _ _ _ Q Hu) as [Ei Hc]. simpl in Ei, Hc. apply pbind_Ok in H as (s2 & k & [= <- <-] & H).
    unfold pcatch at 1 in H. rewrite exec_undisturbed in H by done. simpl in H.
    destruct (CreateIdentity _ _ _) as [db2|err] eqn:Eb.
    + assert (exists m, insert_new (ae_uuid env (ar_n s1)) (mkIdentity uid (pi_Provider info) (pi_ProviderUID info) (Some (pi_Email info)))
                          (has (au_users (ar_DB s1)) uid) (au_identities (ar_DB s1)) = Ok m /\ db2 = set_au_identities m (ar_DB s1)) as (m & Em & ->).
      { unfold CreateIdentity in Eb. simpl in Eb. inv_ok. eauto. }
      apply insert_new_Ok in Em as (Hn & _ & ->). apply signed_row in H as (Hus & Hids & row & [= -> -> ->] & Hrow); [|done|].
      2: { intros x x' r Hx. destruct new; [by eapply grant_trial_keeps|]. by injection Hx as <- _. }
      simpl in Hus, Hids. rewrite Ei in Hids, Hn. split; [done|]. split.
      * rewrite Hids. eexists _, _. rewrite lookup_insert_eq. split_and!; done.
      * right. split; [done|]. split; [unfold chosen_user in *; by rewrite Hus|]. by eexists.
    + destruct (isDuplicateKey err); [|done]. unfold pcatch in H. rewrite select_undisturbed in H by done. simpl in H.
      destruct (FindByProviderUID _ _ (ar_DB s1)) as [i|e2] eqn:Ef2; [|done]. exfalso.
      apply FindByProviderUID_Ok in Ef2 as (k & Hk & Hb). rewrite Ei in Hk. by destruct (Hno k i).
Qed.

(** A profile that is bound signs in the user of its identity. *)
Lemma bound_login env info st k i : undisturbed env -> auth_wf (ar_DB st) -> au_identities (ar_DB st) !! k = Some i -> binds info i ->
  exists u n, getOrCreateUser env info st = (mkAuthRun (ar_DB st) n, Ok (si_UserID i, u, false)).
Proof.
  intros Q [[I1 I2] _ _] Hk [Hp Hu]. unfold getOrCreateUser, pcatch at 1. rewrite !select_undisturbed by done.
  destruct (FindByProviderUID _ _ _) as [j|e] eqn:Ef; [|by destruct (FindByProviderUID_Err _ _ _ Ef k i Hk)].
  apply FindByProviderUID_Ok in Ef as (k' & Hk' & Hb). destruct Hb as [Hp' Hu'].
  assert (k' = k) as -> by (eapply I2; [done..| |]; congruence). assert (j = i) as -> by congruence.
  destruct (I1 _ _ Hk) as [[u Hus] _]. eexists u, _. unfold user_row, pbind. rewrite !select_undisturbed by done. simpl.
  unfold get. rewrite Hus. reflexivity.
Qed.

(** C30: WHO IS SIGNED IN. Undisturbed, a profile that is bound signs in the user
    it is bound to and writes nothing; one that is not bound gets the user of
    an identity with its email, the test ones apart, if it has an email and
    there is one, else a new user, whose row is answered. It is bound to that
    user from then on: after any steps of anybody that keep the identity, the
    same profile signs in the same user. *)
Theorem login_user_exact T env env' info s s' id u isNew : undisturbed env -> undisturbed env' -> auth_wf (ar_DB s) ->
  getOrCreateUser env info s = (s', Ok (id, u, isNew)) ->
  au_users (ar_DB s') !! id = Some u
  /\ ((exists k i, au_identities (ar_DB s) !! k = Some i /\ binds info i /\ id = si_UserID i /\ isNew = false /\ ar_DB s' = ar_DB s)
      \/ (forall k i, au_identities (ar_DB s) !! k = Some i -> ~ binds info i) /\ chosen_user info (ar_DB s) (ar_DB s') id isNew)
  /\ exists k i, au_identities (ar_DB s') !! k = Some i
       /\ forall st, auth_steps T (ar_DB s') (ar_DB st) -> au_identities (ar_DB st) !! k = Some i ->
            exists u' n, getOrCreateUser env' info st = (mkAuthRun (ar_DB st) n, Ok (id, u', false)).
Proof.
  intros Q Q' W H. destruct (login_user_cases _ _ _ _ _ _ _ Q H) as (Hu & (k & i & Hk & Hb & Hid) & Hc). split; [done|]. split.
  - destruct Hc as [?|(? & ? & _)]; [by left|by right].
  - exists k, i. split; [done|]. intros st Hst Hki. subst id. apply (bound_login _ _ _ k i Q'); [|done..].
    apply (auth_steps_keep T auth_wf _ _ (auth_step_wf T) Hst). apply (auth_steps_keep T auth_wf (ar_DB s) _ (auth_step_wf T)); [|exact W].
    destruct (steps_user T env (fun n db => eq_rect _ (fun d => auth_steps T db d) (rtc_refl _ _) _ (eq_sym (proj1 Q n db))) info (fun _ => True) (fun _ _ _ _ => I) s I) as [Hst' _].
    by rewrite H in Hst'.
Qed.

Lemma demo_undisturbed t0 salt : undisturbed (demo_env t0 alone salt).
Proof. by split. Qed.

(** A Google profile with the email of a GitHub identity. *)
Lemma login_user_exact_witness : exists k i,
  au_identities (ar_DB (getOrCreateUser (demo_env 0 alone 6) hubber (mkAuthRun demo_db 0)).1) !! k = Some i /\ si_UserID i = "user-1".
Proof.
  destruct (getOrCreateUser (demo_env 0 alone 6) hubber (mkAuthRun demo_db 0)) as [s' r] eqn:E.
  assert (exists row, r = Ok ("user-1", row, false)) as [row ->].
  { assert ((getOrCreateUser (demo_env 0 alone 6) hubber (mkAuthRun demo_db 0)).2 = r) as <- by (by rewrite E). eexists. vm_compute. reflexivity. }
  destruct (login_user_exact anything (demo_env 0 alone 6) (demo_env 9 alone 7) hubber (mkAuthRun demo_db 0) s' "user-1" row false
    (demo_undisturbed _ _) (demo_undisturbed _ _) demo_wf E) as (_ & _ & k & i & Hk & H).
  exists k, i. split; [exact Hk|].
  destruct (H s' (rtc_refl _ _) Hk) as (u' & n & _).
  assert (map_Forall (fun _ i => si_UserID i = "user-1") (au_identities (ar_DB s'))) as Hall.
  { assert (ar_DB (getOrCreateUser (demo_env 0 alone 6) hubber (mkAuthRun demo_db 0)).1 = ar_DB s') as <- by (by rewrite E).
    refine (bool_decide_unpack _ _). vm_compute. exact I. }
  exact (Hall _ _ Hk).
Defined.
