(* ===== verification/Signed.v ===== *)
(** * Signed: OAuth states and webhook signatures

    [internal/util/oauth_state.go] and [internal/middleware/webhook_sig.go]: the
    signed state of an OAuth login, used once per process, and the signatures
    of the channels' webhooks. HMAC, base64 and the parsing of headers are
    written out; RSA, platform certificates and PayPal's own verdict are
    parameters. *)

From Stdlib Require Import ZArith Lia Bool Ascii String.
From stdpp Require Import base gmap strings list numbers pretty.
From S2P Require Import Prelude Domain Money Calendar Sha256.

Local Open Scope Z_scope.
Local Open Scope go_scope.

(** ** The standard library *)

(** [hmac.New(sha256.New, key)] over the message. *)
Definition hmac_sha256 (key msg : list Z) : list Z :=
  let k := if (64 <? length key)%nat then Sum256 (text key) else key in
  let k := k ++ replicate (64 - length k) 0 in
  Sum256 (text (map (Z.lxor 0x5c) k ++ Sum256 (text (map (Z.lxor 0x36) k ++ msg)))).

(** [binary.BigEndian]: [n] bytes of [z]. *)
Fixpoint be (n : nat) (z : Z) : list Z :=
  match n with O => [] | S n => z / 256 ^ Z.of_nat n mod 256 :: be n z end.
Definition from_be (l : list Z) : Z := fold_left (fun a b => 256 * a + b) l 0.

(** [base64.RawURLEncoding.DecodeString]: newlines are skipped, a lone last
    digit is an error, and the spare bits of the last one are ignored. *)
Definition url_value (c : Z) : option Z :=
  if (65 <=? c) && (c <=? 90) then Some (c - 65)
  else if (97 <=? c) && (c <=? 122) then Some (c - 71)
  else if (48 <=? c) && (c <=? 57) then Some (c + 4)
  else if c =? 45 then Some 62 else if c =? 95 then Some 63 else None.
Fixpoint unpack6 (l : list Z) : option (list Z) :=
  match l with
  | [] => Some []
  | [_] => None
  | [a; b] => Some [4 * a + b / 16]
  | [a; b; c] => Some [4 * a + b / 16; b mod 16 * 16 + c / 4]
  | a :: b :: c :: d :: l =>
      match unpack6 l with
      | Some r => Some (4 * a + b / 16 :: b mod 16 * 16 + c / 4 :: c mod 4 * 64 + d :: r)
      | None => None
      end
  end.
Definition url_decode (s : list Z) : option (list Z) :=
  match mapM url_value (List.filter (fun c => negb (c =? 10) && negb (c =? 13)) s) with
  | Some l => unpack6 l
  | None => None
  end.

Definition trim_space (s : string) : string := string_of_list_ascii (TrimSpace (list_ascii_of_string s)).

(** [strings.Split] at a character. *)
Fixpoint split_at (sep : ascii) (s : string) : list string :=
  match s with
  | EmptyString => [""]
  | String c s => if Ascii.eqb c sep then "" :: split_at sep s
                  else match split_at sep s with w :: l => String c w :: l | [] => [String c ""] end
  end.

(** The parts around the first [=]. *)
Fixpoint cut_equals (s : string) : option (string * string) :=
  match s with
  | EmptyString => None
  | String c s => if Ascii.eqb c "=" then Some ("", s)
                  else match cut_equals s with Some (a, b) => Some (String c a, b) | None => None end
  end.

(** [strconv.ParseInt(s, 10, 64)]. *)
Fixpoint ParseUint (acc : Z) (s : string) : option Z :=
  match s with
  | EmptyString => Some acc
  | String c s => let d := octet c - 48 in if (0 <=? d) && (d <=? 9) then ParseUint (10 * acc + d) s else None
  end.
Definition ParseInt (s : string) : option Z :=
  let '(neg, s) := match s with
                   | String "-" s => (true, s)
                   | String "+" s => (false, s)
                   | _ => (false, s)
                   end in
  if String.eqb s "" then None else
  match ParseUint 0 s with
  | Some n => let n := if neg : bool then - n else n in if is_int64 n then Some n else None
  | None => None
  end.

(** [time.Unix(sec, 0)] and [Time.Unix]. *)
Definition unix (sec : Z) : instant := sec * second.
Definition Unix (t : instant) : Z := t / second.

(** ** OAuth states *)

Inductive StateErr := ErrInvalidState | ErrRandom.

Definition StateExpiry : duration := 5 * minute.

Definition encodeState (expiry callbackIndex : Z) (nonce : list Z) : list Z := be 8 expiry ++ be 4 callbackIndex ++ nonce.
Definition signState (secret payload : list Z) (appID : string) : list Z := hmac_sha256 secret (payload ++ octets appID).

(** [nonce]: what the source of randomness returns. *)
Definition IssueOAuthState (secret : list Z) (appID : string) (callbackIndex : Z) (now : instant) (nonce : option (list Z))
  : result StateErr string :=
  fail_if bool_decide (secret = []) with ErrInvalidState;
  fail_if String.eqb appID "" with ErrInvalidState;
  fail_if (callbackIndex <? 0) || (0xFFFFFFFF <? callbackIndex) with ErrInvalidState;
  match nonce with
  | None => Err ErrRandom
  | Some nonce =>
      let payload := encodeState (Unix (time_add now StateExpiry)) callbackIndex nonce in
      Ok (RawURLEncoding (payload ++ signState secret payload appID))
  end.

(** [seenNonces], a table of one process. *)
Definition Seen := gmap (list Z) instant.

(** One atomic LoadOrStore decides, but for an entry that is past. *)
Definition rememberNonce (nonce : list Z) (expiresAt clock : instant) (seen : Seen) : Seen * bool :=
  match seen !! nonce with
  | None => (<[nonce := expiresAt]> seen, true)
  | Some exp => if negb (clock <? exp) then (<[nonce := expiresAt]> seen, true) else (seen, false)
  end.

Definition int64_of (z : Z) : Z := let m := z mod 2 ^ 64 in if m <? 2 ^ 63 then m else m - 2 ^ 64.

(** [now] is the caller's reading of the clock, [clock] that of the table. *)
Definition VerifyOAuthState (secret : list Z) (token expectedAppID : string) (now clock : instant) (seen : Seen)
  : Seen * result StateErr Z :=
  let invalid := (seen, Err ErrInvalidState) in
  if bool_decide (secret = []) then invalid else
  match url_decode (octets (trim_space token)) with
  | None => invalid
  | Some raw =>
      if negb (length raw =? 60)%nat then invalid else
      let payload := take 28 raw in
      if negb (bool_decide (drop 28 raw = signState secret payload expectedAppID)) then invalid else
      let expiry := int64_of (from_be (take 8 payload)) in
      if expiry <? Unix now then invalid else
      let nonce := drop 12 payload in
      let '(seen, fresh) := rememberNonce nonce (unix expiry) clock seen in
      if fresh then (seen, Ok (from_be (take 4 (drop 8 payload)))) else (seen, Err ErrInvalidState)
  end.

(** ** Webhook signatures *)

Inductive SigErr := ErrInvalidSignature | ErrTimestampOutOfRange | ErrUnsupportedChannel
| Transient (** any other error: the channel retries *).

Definition Headers := gmap string string.
Definition header (h : Headers) (name : string) : string := default "" (h !! name).

Definition replay_window (w : duration) : duration := if w =? 0 then 5 * minute else w.
Definition in_window (window : duration) (now : instant) (ts : Z) : bool :=
  let delta := time_sub now (unix ts) in (delta <=? window) && (- window <=? delta).

(** *** Stripe and Paddle: timestamped HMACs *)

(** [parseStripeSignatureHeader], [parsePaddleSignatureHeader]: the last
    timestamp and every signature; parts without [=] are skipped. *)
Fixpoint scan_header (tsKey sigKey : string) (parts : list string) (ts : Z) (sigs : list string) : option (Z * list string) :=
  match parts with
  | [] => Some (ts, sigs)
  | kv :: parts =>
      match cut_equals (trim_space kv) with
      | None => scan_header tsKey sigKey parts ts sigs
      | Some (k, v) =>
          if String.eqb k tsKey then
            match ParseInt v with Some n => scan_header tsKey sigKey parts n sigs | None => None end
          else if String.eqb k sigKey then scan_header tsKey sigKey parts ts (sigs ++ [v])
          else scan_header tsKey sigKey parts ts sigs
      end
  end.
Definition parse_header (sep : ascii) (tsKey sigKey h : string) : option (Z * list (list Z)) :=
  match scan_header tsKey sigKey (split_at sep h) 0 [] with
  | Some (ts, sigs) =>
      if (ts =? 0) || bool_decide (sigs = []) then None
      else match mapM DecodeString sigs with Some tags => Some (ts, tags) | None => None end
  | None => None
  end.
Definition parseStripeSignatureHeader : string -> option (Z * list (list Z)) := parse_header "," "t" "v1".
Definition parsePaddleSignatureHeader : string -> option (Z * list (list Z)) := parse_header ";" "ts" "h1".

Definition signed_payload (sep : string) (ts : Z) (body : string) : list Z := octets (pretty ts +:+ sep +:+ body).
Definition tag_matches (secret : list Z) (sep : string) (ts : Z) (body : string) (tags : list (list Z)) : bool :=
  existsb (fun tag => bool_decide (tag = hmac_sha256 secret (signed_payload sep ts body))) tags.

Definition StripeVerifier (secret : list Z) (window : duration) (now : instant) (body : string) (headers : Headers) : result SigErr unit :=
  let h := header headers "Stripe-Signature" in
  fail_if String.eqb h "" with ErrInvalidSignature;
  match parseStripeSignatureHeader h with
  | None => Err ErrInvalidSignature
  | Some (ts, tags) =>
      guard in_window (replay_window window) now ts else ErrTimestampOutOfRange;
      if tag_matches secret "." ts body tags then Ok tt else Err ErrInvalidSignature
  end.

Definition PaddleVerifier (secret : list Z) (window : duration) (MockMode : bool) (now : instant) (body : string) (headers : Headers)
  : result SigErr unit :=
  let h := header headers "Paddle-Signature" in
  fail_if String.eqb h "" with ErrInvalidSignature;
  match parsePaddleSignatureHeader h with
  | None => Err ErrInvalidSignature
  | Some (ts, tags) =>
      guard in_window (replay_window window) now ts else ErrTimestampOutOfRange;
      if MockMode || tag_matches secret ":" ts body tags then Ok tt else Err ErrInvalidSignature
  end.

(** *** WeChat and Alipay: RSA *)

(** [base64.StdEncoding.DecodeString]. *)
Definition std_value (c : Z) : option Z :=
  if c =? 43 then Some 62 else if c =? 47 then Some 63 else if (c =? 45) || (c =? 95) then None else url_value c.
Definition std_decode (s : list Z) : option (list Z) :=
  let s := List.filter (fun c => negb (c =? 10) && negb (c =? 13)) s in
  if negb (length s mod 4 =? 0)%nat then None else
  let pads := match rev s with 61 :: 61 :: _ => 2%nat | 61 :: _ => 1%nat | _ => 0%nat end in
  match mapM std_value (take (length s - pads) s) with Some l => unpack6 l | None => None end.

Section Rsa.
Context {Key : Type} (VerifyPKCS1v15 : Key -> list Z -> list Z -> bool).

Definition newline : string := String "010" "".

Definition WeChatPayV3Verifier (PlatformKeys : option (string -> option Key)) (window : duration) (MockMode : bool) (now : instant)
    (body : string) (headers : Headers) : result SigErr unit :=
  let sigB64 := header headers "Wechatpay-Signature" in
  let tsStr := header headers "Wechatpay-Timestamp" in
  let nonce := header headers "Wechatpay-Nonce" in
  fail_if String.eqb sigB64 "" || String.eqb tsStr "" || String.eqb nonce "" with ErrInvalidSignature;
  match ParseInt tsStr with
  | None => Err ErrInvalidSignature
  | Some ts =>
      guard in_window (replay_window window) now ts else ErrTimestampOutOfRange;
      if MockMode then Ok tt else
      match PlatformKeys with
      | None => Err Transient
      | Some keys =>
          let serial := header headers "Wechatpay-Serial" in
          fail_if String.eqb serial "" with ErrInvalidSignature;
          match keys serial with
          | None => Err Transient
          | Some pub =>
              match std_decode (octets sigB64) with
              | None => Err ErrInvalidSignature
              | Some sig =>
                  let toSign := tsStr +:+ newline +:+ nonce +:+ newline +:+ body +:+ newline in
                  if VerifyPKCS1v15 pub (Sum256 toSign) sig then Ok tt else Err ErrInvalidSignature
              end
          end
      end
  end.

(** [url.QueryUnescape]. *)
Fixpoint QueryUnescape (s : list Z) : option (list Z) :=
  match s with
  | [] => Some []
  | 37 :: a :: b :: s =>
      match hex_value a, hex_value b, QueryUnescape s with Some x, Some y, Some r => Some (16 * x + y :: r) | _, _, _ => None end
  | 37 :: _ => None
  | c :: s => match QueryUnescape s with Some r => Some ((if c =? 43 then 32 else c) :: r) | None => None end
  end.

(** [url.ParseQuery]: the pairs in order, or any error. *)
Definition query_pair (s : string) : option (string * string) :=
  let '(k, v) := default (s, "") (cut_equals s) in
  match QueryUnescape (octets k), QueryUnescape (octets v) with Some k, Some v => Some (text k, text v) | _, _ => None end.
Definition ParseQuery (s : string) : option (list (string * string)) :=
  let parts := List.filter (fun p => negb (String.eqb p "")) (split_at "&" s) in
  if existsb (fun p => bool_decide (59 ∈ octets p)) parts then None else mapM query_pair parts.
(** [Values.Get]: the first value, or nothing. *)
Definition values_get (k : string) (l : list (string * string)) : string :=
  match List.find (fun kv => String.eqb kv.1 k) l with Some kv => kv.2 | None => "" end.

(** [sort.Strings] of distinct keys. *)
Fixpoint insert_key (k : string) (l : list string) : list string :=
  match l with
  | [] => [k]
  | x :: l => if String.ltb k x then k :: x :: l else x :: insert_key k l
  end.
Definition sort_keys (l : list string) : list string := foldr insert_key [] l.
Definition join (sep : string) (l : list string) : string := String.concat sep l.

Definition canonical (values : list (string * string)) : string :=
  let keys := List.filter (fun k => negb (String.eqb k "sign") && negb (String.eqb k "sign_type")) (remove_dups values.*1) in
  join "&" (map (fun k => k +:+ "=" +:+ values_get k values) (sort_keys keys)).

Definition AlipayVerifier (pub : Key) (body : string) : result SigErr unit :=
  match ParseQuery body with
  | None => Err ErrInvalidSignature
  | Some values =>
      let sign := values_get "sign" values in
      let signType := values_get "sign_type" values in
      fail_if String.eqb sign "" with ErrInvalidSignature;
      fail_if negb (String.eqb signType "") && negb (String.eqb signType "RSA2") with ErrInvalidSignature;
      match std_decode (octets sign) with
      | None => Err ErrInvalidSignature
      | Some sig => if VerifyPKCS1v15 pub (Sum256 (canonical values)) sig then Ok tt else Err ErrInvalidSignature
      end
  end.
End Rsa.

(** *** PayPal: its own verdict, cached for a minute *)

Record CacheKey := mkCacheKey { ck_ID : string; ck_Time : string; ck_Sig : string; ck_Body : list Z }.
Record CacheEntry := mkCacheEntry { ce_ExpiresAt : instant; ce_Err : option SigErr }.

#[global] Instance CacheKey_eq_dec : EqDecision CacheKey.
Proof. solve_decision. Defined.
#[global] Instance CacheKey_countable : Countable CacheKey.
Proof.
  refine (inj_countable' (fun k => (ck_ID k, ck_Time k, ck_Sig k, ck_Body k))
            (fun '(i, t, s, b) => mkCacheKey i t s b) _). by intros [].
Defined.

Definition VerifyCache := gmap CacheKey CacheEntry.
Definition paypalVerifyCacheTTL : duration := 60 * second.

Definition lookupVerifyCache (k : CacheKey) (now : instant) (c : VerifyCache) : VerifyCache * option CacheEntry :=
  match c !! k with
  | Some e => if now <? ce_ExpiresAt e then (c, Some e) else (delete k c, None)
  | None => (c, None)
  end.
Definition storeVerifyCache (k : CacheKey) (err : option SigErr) (now : instant) (c : VerifyCache) : VerifyCache :=
  <[k := mkCacheEntry (time_add now paypalVerifyCacheTTL) err]> c.
(** A pass of the janitor. *)
Definition janitor (now : instant) (c : VerifyCache) : VerifyCache := filter (fun kv => now <? ce_ExpiresAt kv.2 = true) c.

Record PaypalConfig := mkPaypalConfig {
  pc_SandboxWebhookID : string; pc_LiveWebhookID : string;
  pc_SandboxAPIBase : string; pc_LiveAPIBase : string; pc_Env : string }.

Definition activeConfig (v : PaypalConfig) : result SigErr (string * string) :=
  if String.eqb (pc_Env v) "sandbox" then Ok (pc_SandboxWebhookID v, pc_SandboxAPIBase v)
  else if String.eqb (pc_Env v) "live" then Ok (pc_LiveWebhookID v, pc_LiveAPIBase v)
  else Err ErrUnsupportedChannel.

(** What is sent to PayPal's endpoint. *)
Record PaypalQuestion := mkQuestion {
  qn_Base : string; qn_AuthAlgo : string; qn_CertURL : string; qn_ID : string; qn_Sig : string; qn_Time : string;
  qn_WebhookID : string; qn_Body : string }.

Definition cacheKey (headers : Headers) (body : string) : CacheKey :=
  mkCacheKey (header headers "PAYPAL-TRANSMISSION-ID") (header headers "PAYPAL-TRANSMISSION-TIME")
    (header headers "PAYPAL-TRANSMISSION-SIG") (Sum256 body).

Definition question (base webhookID : string) (headers : Headers) (body : string) : PaypalQuestion :=
  mkQuestion base (header headers "PAYPAL-AUTH-ALGO") (header headers "PAYPAL-CERT-URL") (header headers "PAYPAL-TRANSMISSION-ID")
    (header headers "PAYPAL-TRANSMISSION-SIG") (header headers "PAYPAL-TRANSMISSION-TIME") webhookID body.

(** [ask]: the verification status PayPal answers; [None] when it cannot be
    asked or does not answer one. [later]: what other deliveries did to the
    cache meanwhile; [clock] reads before and after. *)
Definition PaypalVerifier (v : PaypalConfig) (ask : PaypalQuestion -> option string) (later : VerifyCache -> VerifyCache)
    (clock : bool -> instant) (body : string) (headers : Headers) (c : VerifyCache) : VerifyCache * result SigErr unit :=
  if existsb (fun n => String.eqb (header headers n) "")
       ["PAYPAL-AUTH-ALGO"; "PAYPAL-CERT-URL"; "PAYPAL-TRANSMISSION-ID"; "PAYPAL-TRANSMISSION-SIG"; "PAYPAL-TRANSMISSION-TIME"]
  then (c, Err ErrInvalidSignature) else
  let k := cacheKey headers body in
  match lookupVerifyCache k (clock false) c with
  | (c, Some e) => (c, match ce_Err e with None => Ok tt | Some err => Err err end)
  | (c, None) =>
      match activeConfig v with
      | Err e => (c, Err e)
      | Ok (webhookID, apiBase) =>
          if String.eqb webhookID "" || String.eqb apiBase "" then (c, Err ErrUnsupportedChannel) else
          match ask (question apiBase webhookID headers body) with
          | None => (later c, Err Transient)
          | Some status =>
              if String.eqb status "FAILURE"
              then (storeVerifyCache k (Some ErrInvalidSignature) (clock true) (later c), Err ErrInvalidSignature)
              else if String.eqb status "SUCCESS" then (storeVerifyCache k None (clock true) (later c), Ok tt)
              else (later c, Err Transient)
          end
      end
  end.

(** *** The middleware *)

(** The verifier of each channel that is configured, over a body and headers. *)
Record MultiChannel := mkMulti {
  mc_Stripe : option (string -> Headers -> result SigErr unit);
  mc_WeChat : option (string -> Headers -> result SigErr unit);
  mc_Alipay : option (string -> Headers -> result SigErr unit);
  mc_Paypal : option (string -> Headers -> result SigErr unit);
  mc_Paddle : option (string -> Headers -> result SigErr unit);
}.

Definition MultiChannelVerifier (m : MultiChannel) (channel body : string) (headers : Headers) : result SigErr unit :=
  let v := if String.eqb channel "stripe" then mc_Stripe m else if String.eqb channel "wechat_pay" then mc_WeChat m
           else if String.eqb channel "alipay" then mc_Alipay m else if String.eqb channel "paypal" then mc_Paypal m
           else if String.eqb channel "paddle" then mc_Paddle m else None in
  match v with None => Err ErrUnsupportedChannel | Some v => v body headers end.

Definition maxBodyBytes : Z := 1048576.

(** [None]: the handler runs. *)
Definition WebhookSignature (m : MultiChannel) (channel : string) (body : string) (headers : Headers) : option Z :=
  if maxBodyBytes <? Z.of_nat (String.length body) then Some 400 else
  match MultiChannelVerifier m channel body headers with
  | Ok _ => None
  | Err ErrInvalidSignature | Err ErrTimestampOutOfRange => Some 400
  | Err ErrUnsupportedChannel => Some 404
  | Err Transient => Some 500
  end.
