(* ===== verification/SignedProps.v ===== *)
(** * SignedProps: what a state and a signature prove

    HMAC on its test vectors, base64 and big-endian numbers both ways; an issued
    state is accepted once and for its app, and nothing else is. *)

From Stdlib Require Import ZArith Lia Bool Ascii String.
From stdpp Require Import base gmap strings list numbers pretty.
From S2P Require Import Prelude Domain Money Calendar Sha256 Signed.

Local Open Scope Z_scope.
Local Open Scope go_scope.

Definition byte_list (l : list Z) : Prop := Forall (fun b => 0 <= b < 256) l.

(** ** Test vectors *)

Example hmac_rfc4231 : EncodeToString (hmac_sha256 (octets "Jefe") (octets "what do ya want for nothing?"))
  = "5bdcc146bf60754e6a042426089575c75a003f089d2739839dec58b964ec3843".
Proof. vm_compute. reflexivity. Qed.
Example hmac_long_key : EncodeToString (hmac_sha256 (replicate 131 0xaa) (octets "Test Using Larger Than Block-Size Key - Hash Key First"))
  = "60e431591ee0b67f0d8a26aacbf5b77f8e0bc6213728c5140546040f0ee37f54".
Proof. vm_compute. reflexivity. Qed.

(** ** Base64 *)

(** The six-bit digits. *)
Fixpoint pack6 (l : list Z) : list Z :=
  match l with
  | [] => []
  | [a] => [a / 4; a mod 4 * 16]
  | [a; b] => [a / 4; a mod 4 * 16 + b / 16; b mod 16 * 4]
  | a :: b :: c :: l => a / 4 :: a mod 4 * 16 + b / 16 :: b mod 16 * 4 + c / 64 :: c mod 64 :: pack6 l
  end.

(** Induction three by three. *)
Lemma three_ind (P : list Z -> Prop) : P [] -> (forall a, P [a]) -> (forall a b, P [a; b]) ->
  (forall a b c l, P l -> P (a :: b :: c :: l)) -> forall l, P l.
Proof.
  intros H0 H1 H2 H3. assert (forall n l, (length l <= n)%nat -> P l) as H; [|by intros l; apply (H (length l))].
  induction n as [|n IH]; intros l Hl; [destruct l; [done|simpl in Hl; lia]|]. destruct l as [|a [|b [|c l]]]; auto. apply H3, IH. simpl in Hl. lia.
Qed.

Lemma url_encode_pack l : url_encode l = map url_digit (pack6 l).
Proof. induction l as [|a|a b|a b c l IH] using three_ind; [reflexivity..|]. simpl. by rewrite IH. Qed.

Lemma pack6_range l : byte_list l -> Forall (fun b => 0 <= b < 64) (pack6 l).
Proof.
  induction l as [|a|a b|a b c l IH] using three_ind; intros H; simpl; repeat (apply Forall_cons in H as [? H]); repeat constructor;
    try (Z.div_mod_to_equations; lia). by apply IH.
Qed.

Lemma pack6_unpack l : byte_list l -> unpack6 (pack6 l) = Some l.
Proof.
  induction l as [|a|a b|a b c l IH] using three_ind; intros H; [done|..]; repeat (apply Forall_cons in H as [? H]).
  - simpl. f_equal. f_equal. Z.div_mod_to_equations; lia.
  - simpl. f_equal. f_equal; [|f_equal]; Z.div_mod_to_equations; lia.
  - simpl. rewrite IH by done. f_equal. f_equal; [|f_equal; [|f_equal]]; Z.div_mod_to_equations; lia.
Qed.

(** The digits, their characters and back, by enumeration. *)
Lemma url_digit_ok n : 0 <= n < 64 -> url_value (url_digit n) = Some n /\ 45 <= url_digit n <= 122.
Proof.
  intros Hn. assert (Forall (fun n => url_value (url_digit n) = Some n /\ 45 <= url_digit n <= 122) (seqZ 0 64)) as H.
  { vm_compute. repeat constructor; try done. }
  rewrite Forall_forall in H. apply H, elem_of_seqZ. lia.
Qed.

Lemma url_decode_encode l : byte_list l -> url_decode (url_encode l) = Some l.
Proof.
  intros Hl. pose proof (pack6_range l Hl) as Hr. rewrite url_encode_pack. unfold url_decode.
  assert (List.filter (fun c => negb (c =? 10) && negb (c =? 13)) (map url_digit (pack6 l)) = map url_digit (pack6 l)) as ->.
  { induction Hr as [|n k Hn _ IH]; [done|]. simpl. destruct (url_digit_ok n Hn) as [_ H].
    rewrite (proj2 (Z.eqb_neq _ 10)), (proj2 (Z.eqb_neq _ 13)) by lia. simpl. by rewrite IH. }
  assert (mapM url_value (map url_digit (pack6 l)) = Some (pack6 l)) as ->; [|by apply pack6_unpack].
  apply mapM_Some. induction Hr as [|n k Hn _ IH]; [constructor|]. simpl. constructor; [|done]. by apply url_digit_ok.
Qed.

(** A token has no space to trim. *)
Lemma trim_space_token l : byte_list l -> octets (trim_space (RawURLEncoding l)) = url_encode l.
Proof.
  intros Hl. pose proof (pack6_range l Hl) as Hr. unfold trim_space, RawURLEncoding, text. rewrite list_ascii_of_string_of_list_ascii.
  rewrite TrimSpace_plain.
  - change (octets (text (url_encode l)) = url_encode l). apply octets_text. rewrite url_encode_pack.
    apply Forall_map. eapply Forall_impl; [exact Hr|]. intros n Hn. apply url_digit_ok in Hn as [_ ?]. lia.
  - rewrite url_encode_pack. apply forallb_forall. intros c. rewrite map_map, in_map_iff. intros (n & <- & Hn).
    rewrite Forall_forall in Hr. apply list_elem_of_In, Hr, url_digit_ok in Hn as [_ Hd]. unfold plain, octet_char.
    rewrite N_ascii_embedding by lia. apply andb_true_iff. split; apply N.leb_le; lia.
Qed.

(** ** Big-endian numbers *)

Lemma be_length n z : length (be n z) = n.
Proof. induction n; simpl; congruence. Qed.
Lemma be_bytes n z : byte_list (be n z).
Proof. induction n as [|n IH]; [constructor|]. constructor; [apply Z.mod_pos_bound; lia|done]. Qed.

Lemma from_be_app l a : fold_left (fun a b => 256 * a + b) l a = a * 256 ^ Z.of_nat (length l) + from_be l.
Proof.
  revert a. unfold from_be. induction l as [|b l IH]; intros a; [simpl; lia|]. cbn [fold_left length].
  rewrite IH, (IH (256 * 0 + b)). rewrite Nat2Z.inj_succ, Z.pow_succ_r by lia. lia.
Qed.

Lemma from_be_cons b l : from_be (b :: l) = b * 256 ^ Z.of_nat (length l) + from_be l.
Proof. unfold from_be at 1. simpl. by rewrite from_be_app. Qed.

Lemma from_be_be n z : from_be (be n z) = z mod 256 ^ Z.of_nat n.
Proof.
  induction n as [|n IH]; [by rewrite Z.mod_1_r|]. cbn [be]. rewrite from_be_cons, be_length, IH, Nat2Z.inj_succ, Z.pow_succ_r by lia.
  assert (0 < 256 ^ Z.of_nat n) by (apply Z.pow_pos_nonneg; lia).
  rewrite (Z.mul_comm 256), Z.rem_mul_r by lia. lia.
Qed.

Lemma be_plus n m z k : (n <= m)%nat -> be n (k * 256 ^ Z.of_nat m + z) = be n z.
Proof.
  induction n as [|n IH]; intros H; [done|]. cbn [be]. rewrite IH by lia. f_equal.
  assert (Z.of_nat m = Z.of_nat n + 1 + Z.of_nat (m - S n)) as -> by lia. rewrite !Z.pow_add_r by lia.
  replace (k * (256 ^ Z.of_nat n * 256 ^ 1 * 256 ^ Z.of_nat (m - S n)) + z)
    with (z + k * 256 ^ Z.of_nat (m - S n) * 256 * 256 ^ Z.of_nat n) by ring.
  assert (0 < 256 ^ Z.of_nat n) by (apply Z.pow_pos_nonneg; lia).
  by rewrite Z.div_add, Z.mod_add by lia.
Qed.

Lemma from_be_range l : byte_list l -> 0 <= from_be l < 256 ^ Z.of_nat (length l).
Proof.
  induction 1 as [|b l Hb _ IH]; [done|]. rewrite from_be_cons. cbn [length]. rewrite Nat2Z.inj_succ, Z.pow_succ_r by lia. nia.
Qed.

Lemma be_from_be l : byte_list l -> be (length l) (from_be l) = l.
Proof.
  induction 1 as [|b l Hb Hl IH]; [done|]. cbn [length be]. rewrite from_be_cons, be_plus, IH by lia. f_equal.
  assert (0 < 256 ^ Z.of_nat (length l)) as Hp by (apply Z.pow_pos_nonneg; lia). pose proof (from_be_range l Hl) as Hr.
  rewrite Z.div_add_l, (Z.div_small (from_be l)), Z.add_0_r by lia. by apply Z.mod_small.
Qed.

Lemma url_value_range c n : url_value c = Some n -> 0 <= n < 64.
Proof. unfold url_value. intros H. repeat case_match; simplify_eq; bool_prop; lia. Qed.

(** Induction four by four. *)
Lemma four_ind (P : list Z -> Prop) : P [] -> (forall a, P [a]) -> (forall a b, P [a; b]) -> (forall a b c, P [a; b; c]) ->
  (forall a b c d l, P l -> P (a :: b :: c :: d :: l)) -> forall l, P l.
Proof.
  intros H0 H1 H2 H3 H4. assert (forall n l, (length l <= n)%nat -> P l) as H; [|by intros l; apply (H (length l))].
  induction n as [|n IH]; intros l Hl; [destruct l; [done|simpl in Hl; lia]|].
  destruct l as [|a [|b [|c [|d l]]]]; auto. apply H4, IH. simpl in Hl. lia.
Qed.

Lemma unpack6_bytes l r : Forall (fun b => 0 <= b < 64) l -> unpack6 l = Some r -> byte_list r.
Proof.
  revert r. induction l as [|a|a b|a b c|a b c d l IH] using four_ind; intros r H; repeat (apply Forall_cons in H as [? H]); simpl.
  - intros [= <-]. constructor.
  - done.
  - intros [= <-]. repeat constructor; Z.div_mod_to_equations; lia.
  - intros [= <-]. repeat constructor; Z.div_mod_to_equations; lia.
  - destruct (unpack6 l) as [k|]; [|done]. intros [= <-]. repeat constructor; try (Z.div_mod_to_equations; lia). by apply IH.
Qed.

Lemma url_decode_bytes s raw : url_decode s = Some raw -> byte_list raw.
Proof.
  unfold url_decode. destruct (mapM _ _) as [l|] eqn:E; [|done]. intros H. eapply unpack6_bytes; [|exact H].
  apply mapM_Some in E. clear H. induction E as [|c n cs ns Hc _ IH]; [constructor|]. constructor; [by eapply url_value_range|done].
Qed.

(** ** OAuth states *)

Lemma int64_of_small z : is_int64 z = true -> int64_of (z mod 2 ^ 64) = z.
Proof.
  intros H. unfold is_int64, min_int64, max_int64 in H. bool_prop. unfold int64_of. rewrite Z.mod_mod by lia.
  destruct (Z.leb_spec 0 z).
  - rewrite Z.mod_small by lia. destruct (Z.ltb_spec z (2 ^ 63)); lia.
  - replace (z mod 2 ^ 64) with (z + 2 ^ 64) by (rewrite <- (Z.mod_small (z + 2 ^ 64) (2 ^ 64)) by lia; by rewrite <- (Z.mod_add z 1), Z.mul_1_l by lia).
    destruct (Z.ltb_spec (z + 2 ^ 64) (2 ^ 63)); lia.
Qed.

Lemma int64_of_range z : 0 <= z < 2 ^ 64 -> is_int64 (int64_of z) = true /\ be 8 (int64_of z) = be 8 z.
Proof.
  intros H. unfold int64_of. rewrite Z.mod_small by done. destruct (Z.ltb_spec z (2 ^ 63)).
  - split; [|done]. unfold is_int64, min_int64, max_int64. apply andb_true_iff. split; apply Z.leb_le; lia.
  - split; [unfold is_int64, min_int64, max_int64; apply andb_true_iff; split; apply Z.leb_le; lia|].
    replace (z - 2 ^ 64) with ((-1) * 256 ^ Z.of_nat 8 + z) by (change (256 ^ Z.of_nat 8) with (2 ^ 64); lia). by apply be_plus.
Qed.

(** A payload is the encoding of its fields. *)
Lemma payload_fields p e i : byte_list p -> length p = 28%nat -> e = int64_of (from_be (take 8 p)) -> i = from_be (take 4 (drop 8 p)) ->
  encodeState e i (drop 12 p) = p /\ is_int64 e = true /\ 0 <= i < 2 ^ 32.
Proof.
  intros Hb Hl -> ->. assert (byte_list (take 8 p)) as H1 by by apply Forall_take.
  assert (byte_list (take 4 (drop 8 p))) as H2 by by apply Forall_take, Forall_drop.
  pose proof (from_be_range _ H1) as R1. pose proof (from_be_range _ H2) as R2.
  assert (length (take 8 p) = 8%nat) as L1 by (rewrite length_take; lia).
  assert (length (take 4 (drop 8 p)) = 4%nat) as L2 by (rewrite length_take, length_drop; lia).
  rewrite L1 in R1. rewrite L2 in R2. destruct (int64_of_range (from_be (take 8 p)) R1) as [Hr He]. split_and!; [|done|apply R2..].
  unfold encodeState. pose proof (be_from_be _ H1) as B1. pose proof (be_from_be _ H2) as B2. rewrite L1 in B1. rewrite L2 in B2.
  rewrite He, B1, B2. change 12%nat with (8 + 4)%nat. rewrite <- drop_drop, take_drop, take_drop. done.
Qed.

Lemma encodeState_length e i n : length (encodeState e i n) = (12 + length n)%nat.
Proof. unfold encodeState. by rewrite !length_app, !be_length. Qed.

Lemma signState_length secret p app : length (signState secret p app) = 32%nat.
Proof. apply Sum256_length. Qed.
Lemma signState_bytes secret p app : byte_list (signState secret p app).
Proof. apply Sum256_bytes. Qed.

(** The fields of a state. *)
Lemma state_fields e i n : take 8 (encodeState e i n) = be 8 e /\ take 4 (drop 8 (encodeState e i n)) = be 4 i
  /\ drop 12 (encodeState e i n) = n.
Proof. unfold encodeState. split_and!; reflexivity. Qed.

(** What is accepted. *)
Definition state_for (secret : list Z) (token appID : string) (expiry idx : Z) (nonce : list Z) : Prop :=
  let payload := encodeState expiry idx nonce in
  url_decode (octets (trim_space token)) = Some (payload ++ signState secret payload appID)
  /\ length nonce = 16%nat /\ is_int64 expiry = true /\ 0 <= idx < 2 ^ 32.

Definition nonce_free (nonce : list Z) (clock : instant) (seen : Seen) : bool :=
  match seen !! nonce with None => true | Some e => e <=? clock end.

Lemma remember_spec nonce e clock seen : rememberNonce nonce e clock seen
  = if nonce_free nonce clock seen then (<[nonce := e]> seen, true) else (seen, false).
Proof.
  unfold rememberNonce, nonce_free. destruct (seen !! nonce) as [x|]; [|done]. by rewrite <- Z.leb_antisym; destruct (x <=? clock).
Qed.

Lemma state_for_length secret token app e i n : state_for secret token app e i n ->
  length (encodeState e i n ++ signState secret (encodeState e i n) app) = 60%nat.
Proof. intros (_ & Hn & _). by rewrite length_app, encodeState_length, signState_length, Hn. Qed.

(** A state for the app is accepted in time, while its nonce is free. *)
Lemma verify_state secret token app now clock seen e i n : secret <> [] -> state_for secret token app e i n ->
  VerifyOAuthState secret token app now clock seen =
    if Unix now <=? e then
      if nonce_free n clock seen then (<[n := unix e]> seen, Ok i) else (seen, Err ErrInvalidState)
    else (seen, Err ErrInvalidState).
Proof.
  intros Hs S. pose proof (state_for_length _ _ _ _ _ _ S) as Hl. destruct S as (Hd & Hn & He & Hi).
  destruct (state_fields e i n) as (F1 & F2 & F3). assert (length (encodeState e i n) = 28%nat) as Hp by (rewrite encodeState_length; lia).
  unfold VerifyOAuthState. rewrite bool_decide_eq_false_2 by done. rewrite Hd, Hl, Nat.eqb_refl. cbn [negb].
  rewrite take_app_length', drop_app_length' by done. rewrite bool_decide_eq_true_2 by done. cbn [negb].
  rewrite F1, F2, F3, !from_be_be. change (256 ^ Z.of_nat 8) with (2 ^ 64). change (256 ^ Z.of_nat 4) with (2 ^ 32).
  rewrite int64_of_small, (Z.mod_small i) by done. rewrite Z.ltb_antisym. destruct (Unix now <=? e); [|done]. cbn [negb].
  rewrite remember_spec. by destruct (nonce_free n clock seen).
Qed.

(** And nothing else is. *)
Lemma verify_accepts secret token app now clock seen seen' i : VerifyOAuthState secret token app now clock seen = (seen', Ok i) ->
  secret <> [] /\ exists e n, state_for secret token app e i n /\ Unix now <= e /\ nonce_free n clock seen = true
    /\ seen' = <[n := unix e]> seen.
Proof.
  unfold VerifyOAuthState. destruct (bool_decide_reflect (secret = [])) as [|Hs]; [done|]. destruct (url_decode _) as [raw|] eqn:Hd; [|done].
  destruct (Nat.eqb_spec (length raw) 60) as [Hl|]; [|done]. cbn [negb].
  destruct (bool_decide_reflect (drop 28 raw = signState secret (take 28 raw) app)) as [Ht|]; [|done]. cbn [negb].
  destruct (_ <? Unix now) eqn:Hx; [done|]. rewrite remember_spec. set (e := int64_of _) in *.
  destruct (nonce_free _ clock seen) eqn:Hf; [|done]. intros [= <- Hi]. split; [done|].
  pose proof (url_decode_bytes _ _ Hd) as Hb. exists e, (drop 12 (take 28 raw)).
  assert (byte_list (take 28 raw)) as Hbp by by apply Forall_take.
  assert (length (take 28 raw) = 28%nat) as Hlp by (rewrite length_take; lia).
  destruct (payload_fields _ e i Hbp Hlp eq_refl (eq_sym Hi)) as (He & Hie & Hir).
  split; [|split; [lia|split; [done|done]]]. unfold state_for. rewrite He. split_and!; [|rewrite length_drop; lia|done|apply Hir..].
  by rewrite <- Ht, take_drop.
Qed.

(** C33: A STATE SURVIVES THE ROUND TRIP. A state that one instance issues for an
    app is accepted by every instance with the same secret, for that app, until
    its expiry second is over and while its nonce is free there; what comes back
    is the callback index it was issued for; and its nonce is then taken. *)
Theorem state_round_trip secret appID idx now nonce token now' clock seen :
  IssueOAuthState secret appID idx now (Some nonce) = Ok token ->
  length nonce = 16%nat -> byte_list nonce -> is_int64 (Unix (time_add now StateExpiry)) = true ->
  Unix now' <= Unix (time_add now StateExpiry) -> nonce_free nonce clock seen = true ->
  VerifyOAuthState secret token appID now' clock seen
    = (<[nonce := unix (Unix (time_add now StateExpiry))]> seen, Ok idx).
Proof.
  unfold IssueOAuthState. destruct (bool_decide_reflect (secret = [])) as [|Hs]; [done|]. destruct (String.eqb appID ""); [done|].
  destruct ((idx <? 0) || (0xFFFFFFFF <? idx)) eqn:Hi; [done|]. bool_prop. intros [= <-] Hn Hb He Hx Hf.
  rewrite (verify_state _ _ _ _ _ _ (Unix (time_add now StateExpiry)) idx nonce Hs).
  - by rewrite (proj2 (Z.leb_le _ _) Hx), Hf.
  - split; [|split; [done|split; [done|lia]]]. assert (byte_list (encodeState (Unix (time_add now StateExpiry)) idx nonce)) as Hp
      by (unfold encodeState, byte_list; rewrite !Forall_app; split_and!; first [apply be_bytes|exact Hb]).
    assert (byte_list (encodeState (Unix (time_add now StateExpiry)) idx nonce ++ signState secret (encodeState (Unix (time_add now StateExpiry)) idx nonce) appID)) as Ha
      by (unfold byte_list; rewrite Forall_app; split; [exact Hp|apply signState_bytes]).
    rewrite trim_space_token by done. by apply url_decode_encode.
Qed.

Definition demo_secret : list Z := octets "oauth-state-secret".
Definition demo_nonce : list Z := seqZ 1 16.
Definition demo_state : string := Eval vm_compute in
  match IssueOAuthState demo_secret "app" 2 (1000 * second) (Some demo_nonce) with Ok t => t | Err _ => "" end.

Lemma state_round_trip_witness :
  VerifyOAuthState demo_secret demo_state "app" (1100 * second) (1100 * second) ∅ = (<[demo_nonce := 1300 * second]> ∅, Ok 2).
Proof.
  assert (IssueOAuthState demo_secret "app" 2 (1000 * second) (Some demo_nonce) = Ok demo_state) as H by (vm_compute; reflexivity).
  apply (state_round_trip demo_secret "app" 2 (1000 * second) demo_nonce demo_state (1100 * second) (1100 * second) ∅ H).
  - reflexivity.
  - repeat constructor; vm_compute; done.
  - reflexivity.
  - vm_compute. discriminate.
  - reflexivity.
Defined.

(** ** One use *)

(** Calls one after the other: of the two steps on the table only the first
    decides before the entry is past, and it is atomic. *)
Record StateCall := mkStateCall { at_Token : string; at_AppID : string; at_Now : instant; at_Clock : instant }.
Definition attempt_on (secret : list Z) (a : StateCall) (seen : Seen) : Seen * result StateErr Z :=
  VerifyOAuthState secret (at_Token a) (at_AppID a) (at_Now a) (at_Clock a) seen.
Definition after (secret : list Z) (l : list StateCall) (seen : Seen) : Seen := fold_left (fun s a => (attempt_on secret a s).1) l seen.
Definition accepted (secret : list Z) (a : StateCall) (seen : Seen) : Prop := exists i, (attempt_on secret a seen).2 = Ok i.

Lemma state_for_inj secret token app e i n e' i' n' : state_for secret token app e i n -> state_for secret token app e' i' n' ->
  e = e' /\ n = n'.
Proof.
  intros (Hd & Hn & He & _) (Hd' & Hn' & He' & _). rewrite Hd in Hd'. apply (inj Some) in Hd'.
  apply app_inj_1 in Hd' as [Hp _]; [|by rewrite !encodeState_length, Hn, Hn'].
  destruct (state_fields e i n) as (F1 & _ & F3), (state_fields e' i' n') as (G1 & _ & G3). rewrite Hp in F1, F3.
  split; [|congruence]. assert (be 8 e = be 8 e') as Hb by congruence. apply (f_equal from_be) in Hb. rewrite !from_be_be in Hb.
  change (256 ^ Z.of_nat 8) with (2 ^ 64) in Hb. by rewrite <- (int64_of_small e), Hb, int64_of_small.
Qed.

Lemma accepted_inv secret a seen : accepted secret a seen -> exists e i n, state_for secret (at_Token a) (at_AppID a) e i n
  /\ Unix (at_Now a) <= e /\ nonce_free n (at_Clock a) seen = true /\ (attempt_on secret a seen).1 = <[n := unix e]> seen.
Proof.
  intros [i H]. unfold attempt_on in *. destruct (VerifyOAuthState _ _ _ _ _ _) as [seen' r] eqn:E. simpl in *. subst r.
  apply verify_accepts in E as (_ & e & n & ?). by exists e, i, n.
Qed.

(** The table after a call: one entry more, if it was accepted. *)
Lemma attempt_seen secret a seen : (attempt_on secret a seen).1 = seen
  \/ exists n t, (attempt_on secret a seen).1 = <[n := t]> seen /\ nonce_free n (at_Clock a) seen = true.
Proof.
  unfold attempt_on. destruct (VerifyOAuthState _ _ _ _ _ _) as [seen' [i|e]] eqn:E.
  - apply verify_accepts in E as (_ & e & n & _ & _ & Hf & ->). right. by exists n, (unix e).
  - left. unfold VerifyOAuthState in E. repeat case_match; simplify_eq; try done.
    unfold rememberNonce in *. repeat case_match; simplify_eq; done.
Qed.

(** An entry stays until its time is over. *)
Lemma entry_stays secret n t l seen clock : seen !! n = Some t -> Forall (fun a => at_Clock a <= clock) l ->
  after secret l seen !! n = Some t \/ t <= clock.
Proof.
  revert seen. induction l as [|a l IH]; intros seen Hs Hl; [by left|]. apply Forall_cons in Hl as [Ha Hl]. unfold after. simpl.
  destruct (attempt_seen secret a seen) as [->|(m & t' & -> & Hf)]; [by apply IH|].
  destruct (decide (m = n)) as [->|Hne]; [|apply IH; [|done]; etransitivity; [by apply lookup_insert_ne|done]].
  right. unfold nonce_free in Hf. rewrite Hs in Hf. apply Z.leb_le in Hf. lia.
Qed.

(** C32: A STATE IS USED ONCE. In one process, whatever is presented in between,
    a token that was accepted is accepted again only once the clock has reached
    the start of the second it expires in, and not after that second: a
    captured state is no good before. *)
Theorem state_used_once secret l1 a l2 b seen :
  accepted secret a (after secret l1 seen) ->
  accepted secret b (after secret (l1 ++ a :: l2) seen) ->
  at_Token b = at_Token a -> at_AppID b = at_AppID a -> Forall (fun c => at_Clock c <= at_Clock b) l2 ->
  exists expiry i n, state_for secret (at_Token a) (at_AppID a) expiry i n
    /\ unix expiry <= at_Clock b /\ Unix (at_Now b) <= expiry.
Proof.
  intros Ha Hb Ht Happ Hc. destruct (accepted_inv _ _ _ Ha) as (e & i & n & Sa & _ & _ & Hseen).
  destruct (accepted_inv _ _ _ Hb) as (e' & i' & n' & Sb & Hx & Hf & _). rewrite Ht, Happ in Sb.
  destruct (state_for_inj _ _ _ _ _ _ _ _ _ Sa Sb) as [<- <-]. exists e, i, n. split; [done|]. split; [|done].
  unfold after in Hf. rewrite fold_left_app in Hf. cbn [fold_left] in Hf. fold (after secret l1 seen) in Hf. rewrite Hseen in Hf.
  fold (after secret l2 (<[n := unix e]> (after secret l1 seen))) in Hf.
  destruct (entry_stays secret n (unix e) l2 (<[n := unix e]> (after secret l1 seen)) (at_Clock b)) as [He|]; [apply lookup_insert_eq|done| |done].
  unfold nonce_free in Hf. rewrite He in Hf. by apply Z.leb_le in Hf.
Qed.

(** Half a second into the second of its expiry, a used state is accepted again. *)
Definition replayed (t : instant) : StateCall := mkStateCall demo_state "app" t t.

Theorem replay_in_last_second :
  accepted demo_secret (replayed (1100 * second)) ∅
  /\ accepted demo_secret (replayed (1300 * second + 500000000)) (after demo_secret [replayed (1100 * second)] ∅)
  /\ accepted demo_secret (replayed (1300 * second + 600000000))
       (after demo_secret [replayed (1100 * second); replayed (1300 * second + 500000000)] ∅).
Proof. split_and!; exists 2; vm_compute; reflexivity. Qed.

Lemma state_used_once_witness : exists expiry i n, state_for demo_secret demo_state "app" expiry i n
  /\ unix expiry <= 1300 * second + 500000000 /\ Unix (1300 * second + 500000000) <= expiry.
Proof.
  apply (state_used_once demo_secret [] (replayed (1100 * second)) [] (replayed (1300 * second + 500000000)) ∅).
  - exists 2. vm_compute. reflexivity.
  - exists 2. vm_compute. reflexivity.
  - reflexivity.
  - reflexivity.
  - constructor.
Defined.
