(* ===== verification/WebhookProps.v ===== *)
(** * WebhookProps: what a webhook signature proves

    The headers of Stripe and Paddle both ways, the tag that belongs to one
    timestamp and one body, and the cached verdicts of PayPal. *)

From Stdlib Require Import ZArith Lia Bool Ascii String.
From stdpp Require Import base gmap strings list numbers pretty.
From S2P Require Import Prelude Domain Money Calendar Sha256 Signed.

Local Open Scope Z_scope.
Local Open Scope go_scope.

(** ** Timestamps in decimal *)

Lemma digit_octet d : (d < 10)%N -> octet (pretty_N_char d) - 48 = Z.of_N d.
Proof.
  intros H. assert (In d [0; 1; 2; 3; 4; 5; 6; 7; 8; 9]%N) as Hin by (simpl; lia).
  simpl in Hin. repeat destruct Hin as [<-|Hin]; try reflexivity. done.
Qed.

Lemma ParseUint_go x : forall s, exists k : nat, forall acc,
  ParseUint acc (pretty_N_go x s) = ParseUint (acc * 10 ^ Z.of_nat k + Z.of_N x) s.
Proof.
  induction (N.lt_wf_0 x) as [x _ IH]. intros s. destruct (decide (x = 0)%N) as [->|Hx].
  - exists 0%nat. intros acc. rewrite pretty_N_go_0. f_equal. simpl. lia.
  - destruct (IH (x / 10)%N ltac:(by apply N.div_lt; lia) (String (pretty_N_char (x mod 10)) s)) as [k Hk].
    exists (S k). intros acc. rewrite pretty_N_go_step, Hk by lia. cbn [ParseUint].
    assert (x mod 10 < 10)%N as Hm by (apply N.mod_lt; lia). rewrite (digit_octet _ Hm).
    assert (0 <= Z.of_N (x mod 10) <= 9) as [H0 H9] by (clear -Hm; revert Hm; generalize (x mod 10)%N; lia).
    rewrite (proj2 (Z.leb_le _ _) H0), (proj2 (Z.leb_le _ _) H9). cbn [andb]. f_equal.
    rewrite Nat2Z.inj_succ, Z.pow_succ_r, N2Z.inj_mod, N2Z.inj_div by lia. pose proof (Z.div_mod (Z.of_N x) (Z.of_N 10)). lia.
Qed.

Lemma ParseUint_pretty (n : N) : ParseUint 0 (pretty n) = Some (Z.of_N n) /\ pretty n <> "".
Proof.
  unfold pretty, pretty_N. destruct (decide (n = 0)%N) as [->|Hn]; [by split|].
  destruct (ParseUint_go n "") as [k Hk]. split; [by rewrite Hk|]. intros E. specialize (Hk 0). rewrite E in Hk. simpl in Hk.
  injection Hk as Hk. lia.
Qed.

(** Digits need no sign. *)
Lemma ParseInt_digits s n : ParseUint 0 s = Some n -> s <> "" -> ParseInt s = if is_int64 n then Some n else None.
Proof.
  intros H Hs. destruct s as [|c s]; [done|]. unfold ParseInt.
  assert (0 <= octet c - 48) as Hc by (cbn [ParseUint] in H; cbv zeta in H; destruct (0 <=? octet c - 48) eqn:E; [by apply Z.leb_le in E|done]).
  assert (match String c s with String "-" s0 => (true, s0) | String "+" s0 => (false, s0) | _ => (false, String c s) end = (false, String c s)) as ->.
  { clear -Hc. destruct c as [[] [] [] [] [] [] [] []]; try reflexivity; exfalso; revert Hc; vm_compute; congruence. }
  rewrite H. destruct (String.eqb_spec (String c s) ""); [done|]. done.
Qed.

Lemma ParseInt_minus s : ParseInt ("-" +:+ s) = if String.eqb s "" then None else
  match ParseUint 0 s with Some n => if is_int64 (- n) then Some (- n) else None | None => None end.
Proof. reflexivity. Qed.

Lemma ParseInt_pretty z : is_int64 z = true -> ParseInt (pretty z) = Some z.
Proof.
  intros Hz. destruct z as [|p|p].
  - reflexivity.
  - change (pretty (Z.pos p)) with (pretty (N.pos p)). destruct (ParseUint_pretty (N.pos p)) as [H1 H2].
    rewrite (ParseInt_digits _ _ H1 H2). change (Z.of_N (N.pos p)) with (Z.pos p). by rewrite Hz.
  - change (pretty (Z.neg p)) with ("-" +:+ pretty (N.pos p)). destruct (ParseUint_pretty (N.pos p)) as [H1 H2].
    rewrite ParseInt_minus, H1. destruct (String.eqb_spec (pretty (N.pos p)) ""); [done|].
    change (- Z.of_N (N.pos p)) with (Z.neg p). by rewrite Hz.
Qed.

(** ** Headers *)

(** Printable characters other than the separators. *)
Definition word_char (c : ascii) : bool :=
  plain c && negb (Ascii.eqb c ",") && negb (Ascii.eqb c ";") && negb (Ascii.eqb c "=") && negb (Ascii.eqb c ".") && negb (Ascii.eqb c ":").
Definition word (s : string) : Prop := forallb word_char (list_ascii_of_string s) = true.

Lemma word_app a b : word a -> word b -> word (a +:+ b).
Proof.
  unfold word. intros Ha Hb. induction a as [|c a IH]; [done|]. simpl in *. apply andb_true_iff in Ha as [Hc Ha]. by rewrite Hc, IH.
Qed.

Lemma pretty_N_word (n : N) : word (pretty n).
Proof.
  assert (forall s, word s -> word (pretty_N_go n s)) as H.
  { induction (N.lt_wf_0 n) as [x _ IH]. intros s Hs. destruct (decide (x = 0)%N) as [->|Hx]; [by rewrite pretty_N_go_0|].
    rewrite pretty_N_go_step by lia. apply IH; [by apply N.div_lt; lia|]. unfold word in *. simpl. rewrite Hs, andb_true_r.
    unfold pretty_N_char. by repeat case_match. }
  unfold pretty, pretty_N. destruct (decide (n = 0)%N); [done|]. by apply H.
Qed.

Lemma pretty_word (z : Z) : word (pretty z).
Proof.
  destruct z as [|p|p]; [done|exact (pretty_N_word (N.pos p))|]. change (pretty (Z.neg p)) with ("-" +:+ pretty (N.pos p)).
  apply word_app; [done|apply pretty_N_word].
Qed.

Lemma hex_word l : Forall (fun b => 0 <= b < 256) l -> word (EncodeToString l).
Proof.
  intros Hl. unfold EncodeToString, text, word. rewrite list_ascii_of_string_of_list_ascii.
  assert (forall n, 0 <= n < 16 -> word_char (octet_char (hex_digit n)) = true) as Hd.
  { intros n Hn. assert (Forall (fun n => word_char (octet_char (hex_digit n)) = true) (seqZ 0 16)) as H by (vm_compute; repeat constructor).
    rewrite Forall_forall in H. apply H, elem_of_seqZ. lia. }
  induction Hl as [|b l Hb _ IH]; [done|]. simpl. rewrite !Hd, IH; [done|..].
  - apply Z.mod_pos_bound. lia.
  - split; [apply Z.div_pos; lia|apply Z.div_lt_upper_bound; lia].
Qed.

Definition free_of (sep : ascii) (s : string) : Prop := forallb (fun c => negb (Ascii.eqb c sep)) (list_ascii_of_string s) = true.

Lemma free_app sep a b : free_of sep a -> free_of sep b -> free_of sep (a +:+ b).
Proof.
  unfold free_of. intros Ha Hb. induction a as [|c a IH]; [done|]. simpl in *. apply andb_true_iff in Ha as [Hc Ha]. by rewrite Hc, IH.
Qed.

Lemma word_free sep w : In sep [","; ";"; "="; "."; ":"]%char -> word w -> free_of sep w.
Proof.
  unfold word, free_of. rewrite !forallb_forall. intros Hs Hw c Hc. specialize (Hw c Hc). unfold word_char in Hw.
  rewrite !andb_true_iff in Hw. destruct Hw as [[[[[Hp H1] H2] H3] H4] H5]. simpl in Hs. repeat destruct Hs as [<-|Hs]; done.
Qed.

Lemma word_plain w : word w -> forallb plain (list_ascii_of_string w) = true.
Proof. unfold word. rewrite !forallb_forall. intros Hw c Hc. specialize (Hw c Hc). unfold word_char in Hw. by bool_prop. Qed.

Lemma split_free sep w : free_of sep w -> split_at sep w = [w] /\ forall s, split_at sep (w +:+ String sep s) = w :: split_at sep s.
Proof.
  intros Hw. induction w as [|c w IH]; [split; [done|]; intros s; simpl; by rewrite Ascii.eqb_refl|].
  unfold free_of in *. simpl in Hw. apply andb_true_iff in Hw as [Hs%negb_true_iff Hw]. destruct (IH Hw) as [I1 I2].
  split; [simpl; by rewrite Hs, I1|]. intros s. simpl. by rewrite Hs, I2.
Qed.

Lemma split_join sep p l : free_of sep p -> Forall (free_of sep) l -> split_at sep (join (String sep "") (p :: l)) = p :: l.
Proof.
  revert p. induction l as [|q l IH]; intros p Hp Hl; [exact (proj1 (split_free sep p Hp))|]. apply Forall_cons in Hl as [Hq Hl].
  change (join (String sep "") (p :: q :: l)) with (p +:+ String sep (join (String sep "") (q :: l))).
  rewrite (proj2 (split_free sep p Hp)). by rewrite IH.
Qed.

Lemma cut_free k v : free_of "=" k -> cut_equals (k +:+ "=" +:+ v) = Some (k, v).
Proof.
  unfold free_of. induction k as [|c k IH]; [done|]. simpl. intros H. apply andb_true_iff in H as [Hc%negb_true_iff Hk]. by rewrite Hc, IH.
Qed.

Lemma trim_space_plain s : forallb plain (list_ascii_of_string s) = true -> trim_space s = s.
Proof. intros H. unfold trim_space. rewrite TrimSpace_plain by done. apply string_of_list_ascii_of_string. Qed.

(** A part of a header: a key and a value. *)
Definition part (k v : string) : string := k +:+ "=" +:+ v.

Lemma list_ascii_app a b : list_ascii_of_string (a +:+ b) = (list_ascii_of_string a ++ list_ascii_of_string b)%list.
Proof. induction a as [|c a IH]; [done|]. simpl. by rewrite IH. Qed.

Lemma part_ok k v : word k -> word v -> cut_equals (trim_space (part k v)) = Some (k, v).
Proof.
  intros Hk Hv. unfold part. rewrite trim_space_plain.
  - apply cut_free, word_free; [simpl; auto|done].
  - rewrite !list_ascii_app, !forallb_app, (word_plain k), (word_plain v) by done. reflexivity.
Qed.

(** The header a channel sends: the timestamp, then a tag for each secret. *)
Definition signature_header (sep : ascii) (tsKey sigKey : string) (ts : Z) (tags : list (list Z)) : string :=
  join (String sep "") (part tsKey (pretty ts) :: map (fun tag => part sigKey (EncodeToString tag)) tags).

Definition byte_lists (l : list (list Z)) : Prop := Forall (Forall (fun b => 0 <= b < 256)) l.

Lemma scan_tags tsKey sigKey ts tags : word tsKey -> word sigKey -> tsKey <> sigKey -> byte_lists tags -> forall sigs,
  scan_header tsKey sigKey (map (fun tag => part sigKey (EncodeToString tag)) tags) ts sigs = Some (ts, sigs ++ map EncodeToString tags).
Proof.
  intros Ht Hs Hne Hb. induction Hb as [|tag tags Htag _ IH]; intros sigs; cbn [map scan_header]; [by rewrite app_nil_r|].
  rewrite part_ok by (done || by apply hex_word). rewrite (proj2 (String.eqb_neq sigKey tsKey)), String.eqb_refl by done.
  rewrite IH, <- app_assoc. done.
Qed.

(** Parsing gives back the timestamp and the tags. *)
Lemma parse_signature_header sep tsKey sigKey ts tags : In sep [","; ";"]%char -> word tsKey -> word sigKey -> tsKey <> sigKey ->
  is_int64 ts = true -> ts <> 0 -> tags <> [] -> byte_lists tags ->
  parse_header sep tsKey sigKey (signature_header sep tsKey sigKey ts tags) = Some (ts, tags).
Proof.
  intros Hsep Ht Hs Hne Hts H0 Htags Hb. unfold parse_header, signature_header.
  assert (In sep [","; ";"; "="; "."; ":"]%char) as Hsep' by (simpl in *; tauto).
  assert (free_of sep "=") as Heq by (destruct Hsep as [<-|[<-|[]]]; reflexivity).
  assert (forall k v, word k -> word v -> free_of sep (part k v)) as Hp.
  { intros k v Hk Hv. unfold part. repeat apply free_app; [by apply word_free|exact Heq|by apply word_free]. }
  rewrite split_join.
  - cbn [scan_header]. rewrite part_ok by (done || apply pretty_word). rewrite String.eqb_refl, ParseInt_pretty by done.
    rewrite scan_tags by done. rewrite (proj2 (Z.eqb_neq ts 0)) by done. rewrite bool_decide_eq_false_2 by (by destruct tags). cbn [orb app].
    assert (mapM DecodeString (map EncodeToString tags) = Some tags) as ->; [|done].
    apply mapM_Some. clear Htags. induction Hb as [|tag l Htag _ IH]; [constructor|]. constructor; [by apply DecodeString_Encode|]. exact IH.
  - apply Hp; [done|apply pretty_word].
  - apply Forall_map. eapply Forall_impl; [exact Hb|]. intros tag Htag. apply Hp; [done|by apply hex_word].
Qed.

(** A signed message has one timestamp and one body. *)
Lemma signed_payload_inj sep ts body ts' body' : In sep ["."; ":"]%char ->
  signed_payload (String sep "") ts body = signed_payload (String sep "") ts' body' -> ts = ts' /\ body = body'.
Proof.
  intros Hsep H. assert (forall a b, octets a = octets b -> a = b) as Hinj.
  { intros a. unfold octets, octet. induction a as [|c a IH]; intros [|d b]; try done. simpl. intros [= Hcd Hab].
    apply N2Z.inj in Hcd. f_equal; [|by apply IH]. rewrite <- (ascii_N_embedding c), Hcd. apply ascii_N_embedding. }
  apply Hinj in H. assert (forall z : Z, free_of sep (pretty z)) as Hf.
  { intros z. apply word_free; [simpl in *; tauto|apply pretty_word]. }
  assert (forall a b a' b', free_of sep a -> free_of sep a' -> a +:+ String sep b = a' +:+ String sep b' -> a = a' /\ b = b') as Hcut.
  { clear. intros a. induction a as [|c a IH]; intros b [|c' a'] b' Ha Ha'; simpl.
    - by intros [= ->].
    - intros [= <- _]. unfold free_of in Ha'. simpl in Ha'. by rewrite Ascii.eqb_refl in Ha'.
    - intros [= -> _]. unfold free_of in Ha. simpl in Ha. by rewrite Ascii.eqb_refl in Ha.
    - intros [= <- H]. unfold free_of in Ha, Ha'. simpl in Ha, Ha'. apply andb_true_iff in Ha as [_ Ha], Ha' as [_ Ha'].
      destruct (IH _ _ _ Ha Ha' H) as [-> ->]. done. }
  destruct (Hcut (pretty ts) body (pretty ts') body') as [H1 H2]; [done|done|exact H|]. split; [by apply (inj pretty)|done].
Qed.

(** What an accepted delivery was signed for. *)
Definition authentic (secret : list Z) (sep : string) (window : duration) (now : instant) (parsed : option (Z * list (list Z))) (body : string) : Prop :=
  exists ts tags, parsed = Some (ts, tags) /\ in_window (replay_window window) now ts = true
    /\ In (hmac_sha256 secret (signed_payload sep ts body)) tags.

Lemma tag_matches_iff secret sep ts body tags : tag_matches secret sep ts body tags = true
  <-> In (hmac_sha256 secret (signed_payload sep ts body)) tags.
Proof.
  unfold tag_matches. rewrite existsb_exists. split.
  - intros (tag & Hin & ->%bool_decide_eq_true). done.
  - intros Hin. eexists. split; [exact Hin|]. by apply bool_decide_eq_true.
Qed.

Lemma hmac_bytes secret msg : Forall (fun b => 0 <= b < 256) (hmac_sha256 secret msg).
Proof. apply Sum256_bytes. Qed.

(** The check that both channels share. *)
Lemma authentic_iff secret sep window now (parse : string -> option (Z * list (list Z))) h body : parse "" = None ->
  (fail_if String.eqb h "" with ErrInvalidSignature;
   match parse h with
   | None => Err ErrInvalidSignature
   | Some (ts, tags) =>
       guard in_window (replay_window window) now ts else ErrTimestampOutOfRange;
       if tag_matches secret sep ts body tags then Ok tt else Err ErrInvalidSignature
   end) = Ok tt <-> authentic secret sep window now (parse h) body.
Proof.
  intros H0. unfold authentic. destruct (String.eqb_spec h "") as [->|Hh].
  - rewrite H0. split; [done|]. by intros (? & ? & ? & _).
  - destruct (parse h) as [[t tags]|]; [|split; [done|by intros (? & ? & ? & _)]].
    destruct (in_window _ _ t) eqn:Ew; [|split; [done|]; intros (? & ? & [= <- <-] & Hw & _); congruence].
    destruct (tag_matches _ _ _ _ _) eqn:Em.
    + split; [|done]. intros _. exists t, tags. by rewrite <- tag_matches_iff.
    + split; [done|]. intros (? & ? & [= <- <-] & _ & Hin). apply tag_matches_iff in Hin. congruence.
Qed.

(** C34: A WEBHOOK TAG PROVES ITS BODY. A Stripe or Paddle delivery is accepted,
    outside Paddle's mock mode, exactly when its header parses to a timestamp
    inside the replay window and a tag, among those of the secrets in rotation,
    that is the HMAC of that timestamp and the raw body under the configured
    secret; the message so signed has no other timestamp and no other body. And
    the header the channel builds from them parses to just those: what it
    signs in time is accepted, whatever other tags it adds. *)
Theorem webhook_signature_exact secret window now body headers ts others :
  (StripeVerifier secret window now body headers = Ok tt
     <-> authentic secret "." window now (parseStripeSignatureHeader (header headers "Stripe-Signature")) body)
  /\ (PaddleVerifier secret window false now body headers = Ok tt
     <-> authentic secret ":" window now (parsePaddleSignatureHeader (header headers "Paddle-Signature")) body)
  /\ (forall sep ts body ts' body', In sep ["."; ":"]%char ->
        signed_payload (String sep "") ts body = signed_payload (String sep "") ts' body' -> ts = ts' /\ body = body')
  /\ (is_int64 ts = true -> ts <> 0 -> byte_lists others ->
        let stripe := hmac_sha256 secret (signed_payload "." ts body) in
        let paddle := hmac_sha256 secret (signed_payload ":" ts body) in
        parseStripeSignatureHeader (signature_header "," "t" "v1" ts (others ++ [stripe])) = Some (ts, others ++ [stripe])
        /\ parsePaddleSignatureHeader (signature_header ";" "ts" "h1" ts (others ++ [paddle])) = Some (ts, others ++ [paddle])).
Proof.
  split_and!.
  - by apply authentic_iff.
  - by apply authentic_iff.
  - intros sep t b t' b'. apply signed_payload_inj.
  - intros Ht H0 Hb stripe paddle. assert (forall tag, others ++ [tag] <> []) as Hne by (by destruct others).
    assert (forall msg, byte_lists (others ++ [hmac_sha256 secret msg])) as Hall.
    { intros msg. apply Forall_app. split; [exact Hb|]. constructor; [apply hmac_bytes|constructor]. }
    split; apply parse_signature_header; first [done|by left|by right; left|by apply Hall].
Qed.

Lemma webhook_signature_exact_witness :
  let tag := hmac_sha256 (octets "whsec") (signed_payload "." 1700000000 "{}") in
  StripeVerifier (octets "whsec") 0 (1700000100 * second) "{}"
    {["Stripe-Signature" := signature_header "," "t" "v1" 1700000000 ([] ++ [tag])]} = Ok tt.
Proof.
  destruct (webhook_signature_exact (octets "whsec") 0 (1700000100 * second) "{}"
    {["Stripe-Signature" := signature_header "," "t" "v1" 1700000000 ([] ++ [hmac_sha256 (octets "whsec") (signed_payload "." 1700000000 "{}")])]}
    1700000000 []) as (H & _ & _ & Hp).
  apply H. destruct Hp as [Hs _]; [reflexivity|discriminate|constructor|].
  exists 1700000000, ([] ++ [hmac_sha256 (octets "whsec") (signed_payload "." 1700000000 "{}")]).
  split; [exact Hs|]. split; [reflexivity|]. by left.
Defined.

(** ** PayPal's verdicts *)

(** A cached refusal is given to a delivery that differs in the headers the key
    leaves out: PayPal is not asked again. *)
Definition delivery (certURL : string) : Headers :=
  {["PAYPAL-AUTH-ALGO" := "SHA256withRSA"; "PAYPAL-CERT-URL" := certURL; "PAYPAL-TRANSMISSION-ID" := "id";
    "PAYPAL-TRANSMISSION-SIG" := "sig"; "PAYPAL-TRANSMISSION-TIME" := "2026-01-01T00:00:00Z"]}.
Definition paypal_demo : PaypalConfig := mkPaypalConfig "wh" "" "https://sandbox" "" "sandbox".
(** PayPal refuses a certificate that is not its own. *)
Definition paypal_says (q : PaypalQuestion) : option string :=
  Some (if String.eqb (qn_CertURL q) "https://paypal/cert" then "SUCCESS" else "FAILURE").
Definition paypal_delivers (t : instant) (certURL : string) (c : VerifyCache) : VerifyCache * result SigErr unit :=
  PaypalVerifier paypal_demo paypal_says (fun c => c) (fun _ => t) "{}" (delivery certURL) c.

Theorem cached_refusal_spreads :
  (paypal_delivers 0 "https://paypal/cert" ∅).2 = Ok tt
  /\ (paypal_delivers (30 * second) "https://paypal/cert" (paypal_delivers 0 "https://other/cert" ∅).1).2 = Err ErrInvalidSignature.
Proof. split; vm_compute; reflexivity. Qed.

(** A delivery is accepted on PayPal's word for its identifiers and body: given
    now, or within the last minute. *)
Definition vouched (log : list (CacheKey * option SigErr * instant)) (c : VerifyCache) : Prop :=
  forall k e, c !! k = Some e -> exists t, (k, ce_Err e, t) ∈ log /\ ce_ExpiresAt e = time_add t paypalVerifyCacheTTL.

Lemma lookup_vouched log k now c c' r : vouched log c -> lookupVerifyCache k now c = (c', r) -> vouched log c'
  /\ match r with Some e => exists t, (k, ce_Err e, t) ∈ log /\ now < time_add t paypalVerifyCacheTTL | None => True end.
Proof.
  intros V. unfold lookupVerifyCache. destruct (c !! k) as [e|] eqn:E; [|by intros [= <- <-]].
  destruct (Z.ltb_spec now (ce_ExpiresAt e)); intros [= <- <-].
  - split; [done|]. destruct (V _ _ E) as (t & Ht & Hx). exists t. split; [done|]. by rewrite <- Hx.
  - split; [|done]. intros j x [_ Hj]%lookup_delete_Some. by apply V.
Qed.

Lemma store_vouched log k err now c : vouched log c -> vouched ((k, err, now) :: log) (storeVerifyCache k err now c).
Proof.
  intros V j e. unfold storeVerifyCache. intros [[<- <-]|[_ Hj]]%lookup_insert_Some.
  - exists now. split; [by left|done].
  - destruct (V _ _ Hj) as (t & Ht & Hx). exists t. split; [by right|done].
Qed.

Lemma janitor_vouched log now c : vouched log c -> vouched log (janitor now c).
Proof. intros V k e [H _]%map_lookup_filter_Some. by apply V. Qed.

Lemma PaypalVerifier_accepts v ask later clock body headers c log : vouched log c ->
  (PaypalVerifier v ask later clock body headers c).2 = Ok tt ->
  (exists t, (cacheKey headers body, None, t) ∈ log /\ clock false < time_add t paypalVerifyCacheTTL)
  \/ exists base webhookID, activeConfig v = Ok (webhookID, base) /\ ask (question base webhookID headers body) = Some "SUCCESS".
Proof.
  intros V. unfold PaypalVerifier. destruct (existsb _ _); [done|].
  destruct (lookupVerifyCache _ _ c) as [c' r] eqn:E. destruct (lookup_vouched _ _ _ _ _ _ V E) as [_ H].
  destruct r as [e|]; simpl.
  - destruct (ce_Err e) eqn:Ee; [done|]. intros _. left. exact H.
  - destruct (activeConfig v) as [[webhookID base]|e] eqn:Ea; [|done]. destruct (_ || _); [done|].
    destruct (ask _) as [status|] eqn:Eq; [|done]. destruct (String.eqb status "FAILURE"); [done|].
    destruct (String.eqb_spec status "SUCCESS") as [->|]; [|done]. intros _. right. by exists base, webhookID.
Qed.
