(* ===== verification/SelfService.v ===== *)
(** * SelfService: what users do to their own subscriptions

    [service/subscription_selfservice.go], the calls of
    [service/paddle_subscription.go] that change a subscription at Paddle, and
    [service/subscription.go], over the tables of [PayTables]. Paddle is a
    parameter: what it answers to each call; the calls made are part of what
    comes out. Other requests commit before each read and before the lock of the
    row; what they commit to other rows while it is held is taken to come
    before the lock, since nothing else is read again. *)

From Stdlib Require Import ZArith Lia Bool Ascii String.
From stdpp Require Import base gmap strings list.
From S2P Require Import Prelude Domain Calendar BenefitRules Amounts PayTables Activation Payments.

Local Open Scope string_scope.
Local Open Scope Z_scope.
Local Open Scope go_scope.

(** ** Errors, calls and answers *)

Inductive SelfErr :=
| SPay (e : pay_error)
| ErrSubscriptionNoAutoRenew | ErrSubscriptionAlreadyEnded | ErrPlanDowngradeNotSupported | ErrChannelUnavailable
| ErrSubscriptionAutoRenewActive
| ErrAlreadyCancelled | ErrCannotRenewCancelled | ErrInvalidExpiresAt | ErrSubscriptionExists
| ErrSelfServiceProductForbidden | ErrPaidPlanForbidden.

Definition selfres := result SelfErr.
(** A failed statement. *)
Definition failed {A} : selfres A := Err (SPay EStatement).

Inductive PaddleCall := CallCancel (extID : string) | CallPrice (extID priceID : string).

(** [Gone]: [IsSubscriptionGoneError]. *)
Inductive PaddleAnswer (A : Type) := Done (a : A) | Gone | Unreachable.
Arguments Done {A}. Arguments Gone {A}. Arguments Unreachable {A}.

(** How the transaction behind a call to Paddle fails. *)
Inductive LocalFault := NoFault | StatementFails | CommitFails (landed : bool).

Record SelfEnv := mkSelfEnv {
  (** what commits before the n-th read or transaction, and whether that fails *)
  se_others : nat -> PayDB -> PayDB;
  se_fails : nat -> bool;
  se_fault : LocalFault;
  se_now : instant;
  se_settings : PaySettings;
  se_cancel : string -> PaddleAnswer unit;
  se_update : string -> string -> PaddleAnswer (option instant);
}.

(** The tables, the calls to Paddle, the answer. *)
Definition SelfOutcome (A : Type) : Type := PayDB * list PaddleCall * selfres A.

Definition sub_of_product (product : string) (s : Subscription) : Subscription :=
  mkPaySub (sb_ID s) (sb_UserID s) (sb_PlanID s) product (sb_Status s) (sb_ExpiresAt s) (sb_ExternalSubscriptionID s)
    (sb_Channel s) (sb_AutoRenew s) (sb_CreatedAt s) (sb_UpdatedAt s).

Section Self.
Context (env : SelfEnv).

(** The n-th read. *)
Definition reading {A B} (n : nat) (d : PayDB) (f : PayDB -> selfres A) (k : PayDB -> A -> SelfOutcome B) : SelfOutcome B :=
  let d := se_others env n d in
  if se_fails env n then (d, [], failed) else
  match f d with Ok a => k d a | Err e => (d, [], Err e) end.

(** What a transaction leaves, and whether it is known to have committed. *)
Definition committed (d d' : PayDB) : PayDB * bool :=
  match se_fault env with
  | NoFault => (d', true)
  | StatementFails => (d, false)
  | CommitFails landed => (if landed then d' else d, false)
  end.

Definition user_actor (userID : string) : string := "user:" +:+ userID.
Definition sub_target (s : Subscription) : string := "subscription:" +:+ sb_ID s.

(** An audit row of its own, which may fail. *)
Definition audit_apart (n : nat) (actor action target : string) (d : PayDB) : PayDB :=
  if se_fails env n then d else writeAuditOnTx actor action target d.

(** ** Gates *)

Definition paddleManagedSubID (s : Subscription) : selfres string :=
  match sb_ExternalSubscriptionID s, sb_Channel s with
  | None, _ => Err (SPay ErrSubscriptionNotChannelManaged)
  | Some x, Some ch => if String.eqb ch "paddle" then Ok x else Err (SPay ErrSubscriptionNotChannelManaged)
  | Some x, None => if String.prefix "sub_" x then Ok x else Err (SPay ErrSubscriptionNotChannelManaged)
  end.

Definition channelSelfServiceGate (s : Subscription) : selfres string :=
  match paddleManagedSubID s with
  | Ok x => Ok x
  | Err _ => if bool_decide (sb_Channel s = Some "paypal") then Err (SPay ErrSubscriptionNotChannelManaged)
             else Err ErrSubscriptionNoAutoRenew
  end.

(** [extID, _ := paddleManagedSubID(sub)]. *)
Definition external_id (s : Subscription) : string := match paddleManagedSubID s with Ok x => x | Err _ => "" end.

Definition find_sub (id : string) (d : PayDB) : selfres Subscription :=
  match pd_subs d !! id with Some s => Ok s | None => Err (SPay ErrSubscriptionNotFound) end.
Definition find_plan (id : string) (d : PayDB) : selfres PayPlan :=
  match pd_plans d !! id with Some p => Ok p | None => Err (SPay ErrPlanNotFound) end.

Definition activePaddleSub (userID : string) (d : PayDB) : selfres Subscription :=
  match FindActiveByUserAndProduct userID ProductKayaMembership d with
  | None => Err (SPay ErrSubscriptionNotFound)
  | Some s => match paddleManagedSubID s with Ok _ => Ok s | Err e => Err e end
  end.

(** A plan that may take a new billing relationship, of the subscription's product. *)
Definition plan_open (s : Subscription) (p : PayPlan) : selfres unit :=
  fail_if negb (pl_IsActive p) with SPay ErrPlanInactive;
  fail_if negb (pl_AcceptingNewSubscriptions p) with SPay ErrPlanNotAcceptingNew;
  fail_if negb (bool_decide (pl_ProductCode p = sb_ProductCode s)) with SPay ErrPlanChangeNotUpgrade;
  Ok tt.

(** ** Cancelling at the end of the period *)

Definition renew_off (s : Subscription) (d : PayDB) : PayDB := put_sub (sub_auto_renew_off (se_now env) s) d.
(** The row that is answered. *)
Definition no_renewal (s : Subscription) : Subscription := sub_auto_renew_off (sb_UpdatedAt s) s.

(** Under the lock of the row. *)
Definition cancel_locked (userID extID : string) (locked : Subscription) (d : PayDB) : SelfOutcome Subscription :=
  let calls := [CallCancel extID] in
  match se_cancel env extID with
  | Unreachable => (d, calls, Err ErrChannelUnavailable)
  | Gone =>
      let '(d, ok) := committed d (writeAuditOnTx (user_actor userID) "paddle_cancel_already_canceled_healed" (sub_target locked) (renew_off locked d)) in
      (d, calls, if ok then Ok (no_renewal locked) else failed)
  | Done _ =>
      let '(d, ok) := committed d (writeAuditOnTx (user_actor userID) "paddle_subscription_cancel_requested" (sub_target locked) (renew_off locked d)) in
      (if ok then d else audit_apart 2 (user_actor userID) "paddle_cancel_local_sync_failed" (sub_target locked) d,
       calls, Ok (no_renewal locked))
  end.

Definition CancelSubscriptionByID (userID subID : string) (d : PayDB) : SelfOutcome Subscription :=
  reading 0 d (find_sub subID) (fun d sub =>
  if negb (String.eqb (sb_UserID sub) userID) then (d, [], Err (SPay ErrSubscriptionNotFound)) else
  if negb (bool_decide (sb_Status sub = SubActive)) then (d, [], Err ErrSubscriptionAlreadyEnded) else
  match channelSelfServiceGate sub with
  | Err e => (d, [], Err e)
  | Ok extID =>
      if negb (sb_AutoRenew sub) then (d, [], Ok sub) else
      if negb (cfg_paddle (se_settings env)) then (d, [], Err (SPay ErrPaddleNotConfigured)) else
      reading 1 d (find_sub subID) (fun d locked =>
      if negb (bool_decide (sb_Status locked = SubActive)) then (d, [], Err ErrSubscriptionAlreadyEnded) else
      if negb (sb_AutoRenew locked) then (d, [], Ok locked) else
      cancel_locked userID extID locked d)
  end).

(** The older endpoint: no lock, and local failures are only logged. *)
Definition CancelChannelSubscription (userID : string) (d : PayDB) : SelfOutcome Subscription :=
  if negb (cfg_paddle (se_settings env)) then (d, [], Err (SPay ErrPaddleNotConfigured)) else
  reading 0 d (activePaddleSub userID) (fun d sub =>
  let extID := external_id sub in
  match se_cancel env extID with
  | Done _ =>
      let d := se_others env 1 d in
      let d := if se_fails env 1 then d
               else set_pd_subs (update_where (fun s => bool_decide (sb_ID s = sb_ID sub)) (sub_auto_renew_off (se_now env)) (pd_subs d)) d in
      (audit_apart 2 (user_actor userID) "paddle_subscription_cancel_requested" (sub_target sub) (se_others env 2 d), [CallCancel extID], Ok sub)
  | _ => (d, [CallCancel extID], Err (SPay EUpstream))
  end).

(** ** Changing the plan *)

(** The new end: what Paddle says, or the plan's interval from now. *)
Definition new_anchor (p : PayPlan) (nextBilled : option instant) : instant :=
  match nextBilled with
  | Some t => t
  | None => time_add (se_now env) (Z.min (pl_IntervalDays p) maxIntervalDays * 24 * hour)
  end.

(** UPDATE ... WHERE id AND status = 'active', with its trigger. *)
Definition switch_plan (planID : string) (expiresAt : instant) (s : Subscription) (d : PayDB) : option PayDB :=
  let s' := sub_with_plan planID (sub_with_expiry (Some expiresAt) (se_now env) s) in
  if plan_product_ok s' d then Some (put_sub s' d) else None.

(** Under the lock: the call, the switch, the audit; a failure after the call is audited apart. *)
Definition charge_and_switch {A} (userID extID priceID targetPlanID : string) (toPlan : PayPlan) (s : Subscription) (done_ diverged : string)
    (unreachable : SelfErr) (answer : instant -> A) (d : PayDB) : SelfOutcome A :=
  let calls := [CallPrice extID priceID] in
  match se_update env extID priceID with
  | Done nextBilled =>
      let expiresAt := new_anchor toPlan nextBilled in
      let '(d, ok) := match switch_plan targetPlanID expiresAt s d with
                      | Some d' => committed d (writeAuditOnTx (user_actor userID) done_ (sub_target s) d')
                      | None => (d, false)
                      end in
      if ok then (d, calls, Ok (answer expiresAt))
      else (audit_apart 5 (user_actor userID) diverged (sub_target s) d, calls, failed)
  | _ => (d, calls, Err unreachable)
  end.

Definition ChangePlanByID (userID subID targetPlanID : string) (d : PayDB) : SelfOutcome Subscription :=
  reading 0 d (find_sub subID) (fun d sub =>
  if negb (String.eqb (sb_UserID sub) userID) then (d, [], Err (SPay ErrSubscriptionNotFound)) else
  if negb (bool_decide (sb_Status sub = SubActive)) then (d, [], Err ErrSubscriptionAlreadyEnded) else
  if String.eqb (sb_PlanID sub) targetPlanID then (d, [], Err (SPay ErrSamePlanChange)) else
  reading 1 d (find_plan targetPlanID) (fun d toPlan =>
  match plan_open sub toPlan with
  | Err e => (d, [], Err e)
  | Ok _ =>
      reading 2 d (find_plan (sb_PlanID sub)) (fun d fromPlan =>
      if pl_IntervalDays toPlan <=? pl_IntervalDays fromPlan then (d, [], Err ErrPlanDowngradeNotSupported) else
      match channelSelfServiceGate sub with
      | Err e => (d, [], Err e)
      | Ok extID =>
          if negb (sb_AutoRenew sub) then (d, [], Err ErrSubscriptionNoAutoRenew) else
          if negb (cfg_paddle (se_settings env)) then (d, [], Err (SPay ErrPaddleNotConfigured)) else
          let priceID := default "" (cfg_paddlePrices (se_settings env) !! targetPlanID) in
          if String.eqb priceID "" then (d, [], Err (SPay ErrPaddlePriceNotConfigured)) else
          reading 3 d (find_sub subID) (fun d locked =>
          if negb (bool_decide (sb_Status locked = SubActive)) then (d, [], Err ErrSubscriptionAlreadyEnded) else
          if negb (sb_AutoRenew locked) then (d, [], Err ErrSubscriptionNoAutoRenew) else
          if String.eqb (sb_PlanID locked) targetPlanID then (d, [], Err (SPay ErrSamePlanChange)) else
          if se_fails env 4 then (d, [], failed) else
          match find_plan (sb_PlanID locked) d with
          | Err e => (d, [], Err e)
          | Ok lockedFrom =>
              if negb (bool_decide (pl_ProductCode toPlan = pl_ProductCode lockedFrom)) then (d, [], Err (SPay ErrPlanChangeNotUpgrade)) else
              if pl_IntervalDays toPlan <=? pl_IntervalDays lockedFrom then (d, [], Err ErrPlanDowngradeNotSupported) else
              charge_and_switch userID extID priceID targetPlanID toPlan locked "paddle_subscription_plan_changed" "paddle_change_plan_local_sync_failed"
                ErrChannelUnavailable (fun t => sub_with_plan targetPlanID (sub_with_expiry (Some t) (sb_UpdatedAt sub) sub)) d
          end)
      end)
  end)).

(** The older endpoint: under the lock only the status is looked at again. *)
Definition UpgradeChannelSubscription (userID targetPlanID : string) (d : PayDB) : SelfOutcome (string * string * string * instant) :=
  if negb (cfg_paddle (se_settings env)) then (d, [], Err (SPay ErrPaddleNotConfigured)) else
  reading 0 d (activePaddleSub userID) (fun d sub =>
  if String.eqb (sb_PlanID sub) targetPlanID then (d, [], Err (SPay ErrSamePlanChange)) else
  reading 1 d (find_plan targetPlanID) (fun d toPlan =>
  match plan_open sub toPlan with
  | Err e => (d, [], Err e)
  | Ok _ =>
      reading 2 d (find_plan (sb_PlanID sub)) (fun d fromPlan =>
      if pl_IntervalDays toPlan <=? pl_IntervalDays fromPlan then (d, [], Err (SPay ErrPlanChangeNotUpgrade)) else
      let priceID := default "" (cfg_paddlePrices (se_settings env) !! targetPlanID) in
      if String.eqb priceID "" then (d, [], Err (SPay ErrPaddlePriceNotConfigured)) else
      let extID := external_id sub in
      reading 3 d (find_sub (sb_ID sub)) (fun d locked =>
      if negb (bool_decide (sb_Status locked = SubActive)) then (d, [], Err (SPay ErrSubscriptionNotFound)) else
      charge_and_switch userID extID priceID targetPlanID toPlan locked "paddle_subscription_upgraded" "paddle_upgrade_local_sync_failed"
        (SPay EUpstream) (fun t => (sb_ID sub, sb_PlanID sub, targetPlanID, t)) d))
  end)).

(** ** [SubscriptionService]: subscriptions without a channel *)

(** A transaction or statement of its own. *)
Definition writing (n : nat) (d : PayDB) (f : PayDB -> selfres PayDB) : PayDB * selfres unit :=
  let d := se_others env n d in
  if se_fails env n then (d, failed) else
  match f d with
  | Ok d' => let '(d, ok) := committed d d' in (d, if ok then Ok tt else failed)
  | Err e => (d, Err e)
  end.

(** INSERT, with its trigger: an empty product is the plan's. *)
Definition create_row (s : Subscription) (d : PayDB) : selfres PayDB :=
  match pd_plans d !! sb_PlanID s with
  | None => failed
  | Some p =>
      let s := if String.eqb (sb_ProductCode s) "" then sub_of_product (pl_ProductCode p) s else s in
      fail_if negb (bool_decide (sb_ProductCode s = pl_ProductCode p)) with SPay EStatement;
      fail_if bool_decide (is_Some (pd_subs d !! sb_ID s)) || negb (sub_unique s d) with ErrSubscriptionExists;
      Ok (put_sub s d)
  end.

(** The expiry of a free plan: its own interval, from now. *)
Definition derived_expiry (p : PayPlan) : option instant :=
  if 0 <? pl_IntervalDays p then Some (time_add (se_now env) (Z.min (pl_IntervalDays p) maxIntervalDays * 24 * hour)) else None.

Definition self_service_plan (p : PayPlan) : selfres unit :=
  fail_if negb (String.eqb (pl_ProductCode p) "") && negb (String.eqb (pl_ProductCode p) ProductKayaMembership) with ErrSelfServiceProductForbidden;
  fail_if negb (pl_IsActive p) with SPay ErrPlanInactive;
  fail_if negb (pl_AcceptingNewSubscriptions p) with SPay ErrPlanNotAcceptingNew;
  fail_if 0 <? pl_Price p with ErrPaidPlanForbidden;
  Ok tt.

Definition Create (newID userID planID : string) (d : PayDB) : SelfOutcome string :=
  reading 0 d (find_plan planID) (fun d plan =>
  match self_service_plan plan with
  | Err e => (d, [], Err e)
  | Ok _ =>
      reading 1 d (fun d => Ok (FindActiveByUserAndProduct userID (pl_ProductCode plan) d)) (fun d existing =>
      if bool_decide (is_Some existing) then (d, [], Err (SPay ErrUserHasActiveSub)) else
      let '(d, r) := writing 2 d (create_row (mkPaySub newID userID planID (pl_ProductCode plan) SubActive (derived_expiry plan) None None false (se_now env) (se_now env))) in
      (d, [], match r with Ok _ => Ok newID | Err e => Err e end))
  end).

(** UPDATE ... WHERE id AND status = 'expired', and the index of live rows. *)
Definition revive (id : string) (expiresAt : instant) (d : PayDB) : selfres PayDB :=
  match pd_subs d !! id with
  | Some s =>
      if bool_decide (sb_Status s = SubExpired) then
        let s := sub_with_status SubActive (se_now env) (sub_with_expiry (Some expiresAt) (se_now env) s) in
        fail_if negb (sub_unique s d) with SPay EStatement; Ok (put_sub s d)
      else Ok d
  | None => Ok d
  end.

Definition Renew (id : string) (expiresAt : option instant) (d : PayDB) : SelfOutcome Subscription :=
  reading 0 d (find_sub id) (fun d sub =>
  if bool_decide (sb_Status sub = SubCancelled) then (d, [], Err ErrCannotRenewCancelled) else
  match expiresAt with
  | None => (d, [], Err ErrInvalidExpiresAt)
  | Some t =>
      if t <=? se_now env then (d, [], Err ErrInvalidExpiresAt) else
      let '(d, r) := writing 1 d (revive id t) in
      match r with
      | Err e => (d, [], Err e)
      | Ok _ => reading 2 d (fun d => match pd_subs d !! id with Some s => Ok s | None => failed end) (fun d s => (d, [], Ok s))
      end
  end).

(** The gates of both forms of Cancel. *)
Definition cancellable (userID : string) (s : Subscription) : selfres unit :=
  fail_if negb (String.eqb (sb_UserID s) userID) with SPay ErrSubscriptionNotFound;
  fail_if bool_decide (sb_Status s = SubCancelled) with ErrAlreadyCancelled;
  fail_if sb_AutoRenew s with ErrSubscriptionAutoRenewActive;
  Ok tt.

(** In one transaction: lock, gates, the flip, the message. *)
Definition cancel_tx (id userID : string) (d : PayDB) : selfres PayDB :=
  match find_sub id d with
  | Err e => Err e
  | Ok s =>
      match cancellable userID s with
      | Err e => Err e
      | Ok _ => Ok (enqueueSync true (cancel_message s) None (put_sub (sub_with_status SubCancelled (se_now env) s) d))
      end
  end.
Definition cancelWithBenefitSync (id userID : string) (d : PayDB) : PayDB * selfres unit := writing 0 d (cancel_tx id userID).

Definition cancelLegacy (id userID : string) (d : PayDB) : PayDB * selfres unit :=
  let '(d, _, r) :=
    reading 0 d (find_sub id) (fun d s =>
    match cancellable userID s with
    | Err e => (d, [], Err e)
    | Ok _ =>
        let '(d, w) := writing 1 d (fun d => Ok (set_pd_subs (alter (sub_with_status SubCancelled (se_now env)) id (pd_subs d)) d)) in
        match w with
        | Err e => (d, [], Err e)
        | Ok _ => reading 2 d (fun d => match pd_subs d !! id with Some s => Ok s | None => failed end)
                    (fun d s => (d, [], if bool_decide (sb_Status s = SubCancelled) then Ok tt else Err ErrAlreadyCancelled))
        end
    end) in
  (d, r).

Definition Cancel (wired : bool) (id userID : string) (d : PayDB) : PayDB * selfres unit :=
  if wired then cancelWithBenefitSync id userID d else cancelLegacy id userID d.
End Self.

(** ** What users read *)

(** The active membership and its plan. *)
Definition GetUserSubscription (userID : string) (d : PayDB) : selfres (option (Subscription * PayPlan)) :=
  match FindActiveByUserAndProduct userID ProductKayaMembership d with
  | None => Ok None
  | Some s => match pd_plans d !! sb_PlanID s with Some p => Ok (Some (s, p)) | None => failed end
  end.

(** [SubscriptionView]: the row without its channel identifier. *)
Record SubscriptionView := mkSubView {
  sv_ID : string; sv_UserID : string; sv_PlanID : string; sv_ProductCode : string; sv_Status : SubStatus;
  sv_ExpiresAt : option instant; sv_Channel : option string; sv_AutoRenew : bool;
  sv_CreatedAt : instant; sv_UpdatedAt : instant;
}.
Definition subscriptionViewFromModel (s : Subscription) : SubscriptionView :=
  mkSubView (sb_ID s) (sb_UserID s) (sb_PlanID s) (sb_ProductCode s) (sb_Status s) (sb_ExpiresAt s) (sb_Channel s) (sb_AutoRenew s)
    (sb_CreatedAt s) (sb_UpdatedAt s).

Definition of_user (userID productCode : string) (s : Subscription) : bool :=
  String.eqb (sb_UserID s) userID
  && (String.eqb productCode "all"
      || String.eqb (sb_ProductCode s) (if String.eqb productCode "" then ProductKayaMembership else productCode)).

(** ORDER BY created_at. *)
Definition ListUserSubscriptionsByProduct (userID productCode : string) (d : PayDB) : list SubscriptionView :=
  List.map subscriptionViewFromModel
    (stable_sort (fun a b => sb_CreatedAt a <? sb_CreatedAt b) (List.filter (of_user userID productCode) (pay_rows (pd_subs d)))).
Definition ListUserSubscriptions (userID : string) (d : PayDB) : list SubscriptionView :=
  ListUserSubscriptionsByProduct userID ProductKayaMembership d.
