(* ===== verification/SelfProps.v ===== *)
(** * SelfProps: what users can do to their subscriptions

    Helper lemmas: when a request reaches Paddle and for which row, what the
    transaction behind a call leaves, which rows the local service may create
    and cancel, and that one live row per user and product survives each
    request. *)

From Stdlib Require Import ZArith Lia Bool Ascii String.
From stdpp Require Import base gmap strings list.
From S2P Require Import Prelude Domain Calendar BenefitRules Amounts PayTables Activation Payments PayFrames PaySubs SelfService.

Local Open Scope string_scope.
Local Open Scope Z_scope.
Local Open Scope go_scope.

(** The tables the n-th read sees, and the row lock after the reads. *)
Fixpoint seen (env : SelfEnv) (n : nat) (d : PayDB) : PayDB :=
  match n with O => se_others env O d | S m => se_others env n (seen env m d) end.

Section SelfProps.
Context (env : SelfEnv).

(** ** Reads *)

Lemma reading_Ok {A B} n d (f : PayDB -> selfres A) (k : PayDB -> A -> SelfOutcome B) d' c b :
  reading env n d f k = (d', c, Ok b) -> exists a, f (se_others env n d) = Ok a /\ k (se_others env n d) a = (d', c, Ok b).
Proof. unfold reading. destruct (se_fails env n); [done|]. destruct (f _) as [a|e] eqn:E; [|done]. eauto. Qed.

Lemma reading_inv {A B} (P : PayDB -> Prop) n d (f : PayDB -> selfres A) (k : PayDB -> A -> SelfOutcome B) :
  (forall n d, P d -> P (se_others env n d)) -> P d ->
  (forall d a, P d -> f d = Ok a -> P (k d a).1.1) -> P (reading env n d f k).1.1.
Proof.
  intros Ho Hd Hk. unfold reading. destruct (se_fails env n); [by apply Ho|].
  destruct (f _) as [a|e] eqn:E; [|by apply Ho]. apply Hk; [by apply Ho|done].
Qed.

Lemma committed_cases d d' x ok : committed env d d' = (x, ok) -> (x = d \/ x = d') /\ (ok = true -> x = d').
Proof. unfold committed. destruct (se_fault env) as [| |[]]; intros [= <- <-]; naive_solver. Qed.

Lemma committed_inv (P : PayDB -> Prop) d d' : P d -> P d' -> P (committed env d d').1.
Proof. intros H H'. by destruct (committed env d d') as [x ok] eqn:E; destruct (committed_cases _ _ _ _ E) as [[->| ->] _]. Qed.

Lemma find_sub_row i d s : find_sub i d = Ok s -> pd_subs d !! i = Some s.
Proof. unfold find_sub. destruct (pd_subs d !! i); by intros [= ->]. Qed.
Lemma find_plan_row i d p : find_plan i d = Ok p -> pd_plans d !! i = Some p.
Proof. unfold find_plan. destruct (pd_plans d !! i); by intros [= ->]. Qed.

Lemma gate_external s x : channelSelfServiceGate s = Ok x -> paddleManagedSubID s = Ok x.
Proof. unfold channelSelfServiceGate. destruct (paddleManagedSubID s) as [y|e]; [done|]. by destruct (bool_decide _). Qed.

(** What differs is the audit log. *)
Definition only_audited (d d' : PayDB) : Prop := set_pd_audit [] d = set_pd_audit [] d'.

#[export] Instance only_audited_equiv : Equivalence only_audited.
Proof. unfold only_audited. split; [done|by intros ?? ->|by intros ??? -> ->]. Qed.

Lemma audit_only a b t d : only_audited d (writeAuditOnTx a b t d).
Proof. done. Qed.
Lemma audit_apart_only n a b t d : only_audited d (audit_apart env n a b t d).
Proof. unfold audit_apart. by destruct (se_fails env n). Qed.
Lemma only_audited_subs d d' : only_audited d d' -> pd_subs d' = pd_subs d.
Proof. intros H%(f_equal pd_subs). by symmetry. Qed.
Lemma only_audited_plans d d' : only_audited d d' -> pd_plans d' = pd_plans d.
Proof. intros H%(f_equal pd_plans). by symmetry. Qed.

Lemma audit_apart_write n a b t a' b' t' d : only_audited d (audit_apart env n a b t (writeAuditOnTx a' b' t' d)).
Proof. by etransitivity; [|apply audit_apart_only]. Qed.
Lemma only_audited_id d : only_audited d d.
Proof. done. Qed.
#[local] Hint Resolve audit_only audit_apart_only audit_apart_write only_audited_id : core.

(** ** What a transaction behind a call leaves *)

Lemma cancel_locked_spec u x s d d' c r : cancel_locked env u x s d = (d', c, r) ->
  c = [CallCancel x]
  /\ (only_audited d d' \/ only_audited (renew_off env s d) d')
  /\ (forall a, r = Ok a -> a = no_renewal s /\ (se_fault env = NoFault -> only_audited (renew_off env s d) d')).
Proof.
  unfold cancel_locked. destruct (se_cancel env x) as [a| |]; [| |by intros [= <- <- <-]; split_and!; [|left|]].
  all: unfold committed; destruct (se_fault env) as [| |[]]; intros [= <- <- <-]; split_and!; try done;
    try (intros ? [= <-]; split; [done|]; by intros H); auto.
Qed.

(** The tables after the plan is switched. *)
Definition switched (planID : string) (t : instant) (s : Subscription) (d : PayDB) : PayDB :=
  put_sub (sub_with_plan planID (sub_with_expiry (Some t) (se_now env) s)) d.

Lemma charge_spec {A} u x pr tgt p s w1 w2 e (an : instant -> A) d d' c r :
  charge_and_switch env u x pr tgt p s w1 w2 e an d = (d', c, r) ->
  c = [CallPrice x pr]
  /\ (only_audited d d' \/ exists t, only_audited (switched tgt t s d) d')
  /\ (forall a, r = Ok a -> exists nb, se_update env x pr = Done nb /\ a = an (new_anchor env p nb)
        /\ d' = writeAuditOnTx (user_actor u) w1 (sub_target s) (switched tgt (new_anchor env p nb) s d))
  /\ (forall nb, se_update env x pr = Done nb -> is_ok r = false -> se_fails env 5 = false ->
        mkAudit (user_actor u) w2 (sub_target s) ∈ pd_audit d').
Proof.
  unfold charge_and_switch. destruct (se_update env x pr) as [nb| |]; [|by intros [= <- <- <-]; split_and!; [|left| |]..].
  set (t := new_anchor env p nb). unfold switch_plan. fold (switched tgt t s d).
  assert (forall d0, se_fails env 5 = false -> mkAudit (user_actor u) w2 (sub_target s) ∈ pd_audit (audit_apart env 5 (user_actor u) w2 (sub_target s) d0)) as Ha
    by (intros d0 Hf; unfold audit_apart; rewrite Hf; simpl; set_solver).
  destruct (plan_product_ok _ _).
  - unfold committed. destruct (se_fault env) as [| |[]]; intros [= <- <- <-]; split_and!; try done; auto;
      try (by right; exists t; auto). intros a [= <-]. eauto.
  - intros [= <- <- <-]. split_and!; auto. done.
Qed.

(** ** The two endpoints *)

(** What holds of the locked row of a call: active and set to renew. *)
Definition renewing (id : string) (s : Subscription) (d : PayDB) : Prop :=
  pd_subs d !! id = Some s /\ sb_Status s = SubActive /\ sb_AutoRenew s = true.

(** The row the caller asked about: the caller's own, and one Paddle bills. *)
Definition own_paddle_row (userID id x : string) (s : Subscription) (d : PayDB) : Prop :=
  pd_subs d !! id = Some s /\ sb_UserID s = userID /\ sb_Status s = SubActive /\ paddleManagedSubID s = Ok x.

Lemma cancel_cases u id d d' c r : CancelSubscriptionByID env u id d = (d', c, r) ->
  (c = [] /\ (d' = seen env 0 d \/ d' = seen env 1 d))
  \/ exists s0 x s, own_paddle_row u id x s0 (seen env 0 d) /\ renewing id s (seen env 1 d)
       /\ cancel_locked env u x s (seen env 1 d) = (d', c, r).
Proof.
  unfold CancelSubscriptionByID, reading. simpl. destruct (se_fails env 0); [by intros [= <- <- <-]; eauto|].
  destruct (find_sub id _) as [s0|] eqn:E0; [|by intros [= <- <- <-]; eauto].
  destruct (String.eqb _ _) eqn:Hu; simpl; [|by intros [= <- <- <-]; eauto].
  case_bool_decide as Ha; simpl; [|by intros [= <- <- <-]; eauto].
  destruct (channelSelfServiceGate s0) as [x|] eqn:Hx; [|by intros [= <- <- <-]; eauto].
  destruct (sb_AutoRenew s0); simpl; [|by intros [= <- <- <-]; eauto].
  destruct (cfg_paddle _); simpl; [|by intros [= <- <- <-]; eauto].
  destruct (se_fails env 1); [by intros [= <- <- <-]; eauto|].
  destruct (find_sub id (se_others env 1 _)) as [s|] eqn:E1; [|by intros [= <- <- <-]; eauto].
  case_bool_decide as Hl; simpl; [|by intros [= <- <- <-]; eauto].
  destruct (sb_AutoRenew s) eqn:Hr; simpl; [|by intros [= <- <- <-]; eauto].
  intros H. right. exists s0, x, s. apply find_sub_row in E0, E1. apply gate_external in Hx. apply String.eqb_eq in Hu. by repeat split.
Qed.

(** A longer cycle of the same product. *)
Definition longer_cycle (p q : PayPlan) : Prop := pl_ProductCode q = pl_ProductCode p /\ pl_IntervalDays p < pl_IntervalDays q.

Lemma plan_open_spec s p t : plan_open s p = Ok t ->
  pl_IsActive p = true /\ pl_AcceptingNewSubscriptions p = true /\ pl_ProductCode p = sb_ProductCode s.
Proof.
  unfold plan_open. destruct (pl_IsActive p); [|done]. destruct (pl_AcceptingNewSubscriptions p); [|done]. by case_bool_decide.
Qed.

Local Ltac refusal n := let H := fresh in intros H; left; injection H as <- <- <-; split_and!; [done|done|exists n; split; [lia|reflexivity]].
Local Ltac reading_cases n a E :=
  unfold reading at 1;
  destruct (se_fails env n); [refusal n|];
  match goal with |- context [match ?f with Ok _ => _ | Err _ => _ end] => destruct f as [a|] eqn:E; [|refusal n] end.
Local Ltac refused b n H := destruct b eqn:H; simpl; [|refusal n]; try apply bool_decide_eq_true in H.

Lemma change_cases u id tgt d d' c r : ChangePlanByID env u id tgt d = (d', c, r) ->
  (c = [] /\ is_ok r = false /\ exists n, (n <= 3)%nat /\ d' = seen env n d)
  \/ exists s0 x to_ s from pr, own_paddle_row u id x s0 (seen env 0 d)
       /\ pd_plans (seen env 1 d) !! tgt = Some to_ /\ pl_IsActive to_ = true /\ pl_AcceptingNewSubscriptions to_ = true
       /\ renewing id s (seen env 3 d) /\ pd_plans (seen env 3 d) !! sb_PlanID s = Some from /\ longer_cycle from to_
       /\ cfg_paddlePrices (se_settings env) !! tgt = Some pr
       /\ charge_and_switch env u x pr tgt to_ s "paddle_subscription_plan_changed" "paddle_change_plan_local_sync_failed"
            ErrChannelUnavailable (fun t => sub_with_plan tgt (sub_with_expiry (Some t) (sb_UpdatedAt s0) s0)) (seen env 3 d) = (d', c, r).
Proof.
  unfold ChangePlanByID. reading_cases 0%nat s0 E0. refused (String.eqb (sb_UserID s0) u) 0%nat Hu.
  refused (bool_decide (sb_Status s0 = SubActive)) 0%nat Ha. destruct (String.eqb (sb_PlanID s0) tgt); [refusal 0%nat|].
  reading_cases 1%nat to_ E1. destruct (plan_open s0 to_) as [[]|] eqn:Ho; [|refusal 1%nat].
  reading_cases 2%nat fromp E2. destruct (pl_IntervalDays to_ <=? _); [refusal 2%nat|].
  destruct (channelSelfServiceGate s0) as [x|] eqn:Hx; [|refusal 2%nat].
  refused (sb_AutoRenew s0) 2%nat Hr0. refused (cfg_paddle (se_settings env)) 2%nat Hc.
  destruct (cfg_paddlePrices (se_settings env) !! tgt) as [pr|] eqn:Hpr; simpl; [|refusal 2%nat].
  destruct (String.eqb pr ""); [refusal 2%nat|]. reading_cases 3%nat s E3.
  refused (bool_decide (sb_Status s = SubActive)) 3%nat Hs. refused (sb_AutoRenew s) 3%nat Hr.
  destruct (String.eqb (sb_PlanID s) tgt); [refusal 3%nat|]. destruct (se_fails env 4); [refusal 3%nat|].
  destruct (find_plan (sb_PlanID s) _) as [from|] eqn:E4; [|refusal 3%nat].
  refused (bool_decide (pl_ProductCode to_ = pl_ProductCode from)) 3%nat Hp.
  destruct (pl_IntervalDays to_ <=? pl_IntervalDays from) eqn:Hi; [refusal 3%nat|].
  intros H. right. exists s0, x, to_, s, from, pr. apply find_sub_row in E0, E3. apply find_plan_row in E1, E4.
  apply plan_open_spec in Ho as (? & ? & _). apply gate_external in Hx. apply String.eqb_eq in Hu. apply Z.leb_gt in Hi.
  by repeat split.
Qed.

(** *** What they leave *)

Definition keyed_subs (d : PayDB) : Prop := forall k s, pd_subs d !! k = Some s -> sb_ID s = k.

Lemma renew_off_grants s d : pd_subs d !! sb_ID s = Some s -> same_grants d (renew_off env s d).
Proof. intros Hs. by apply (regrant s). Qed.

Lemma only_audited_grants d d' : only_audited d d' -> same_grants d d'.
Proof. intros H. by apply same_subs_grants, only_audited_subs. Qed.
End SelfProps.

(** ** The local service *)

(** What a statement or transaction of its own leaves. *)
Lemma writing_Ok env n d f d' t : writing env n d f = (d', Ok t) -> f (se_others env n d) = Ok d'.
Proof.
  unfold writing. destruct (se_fails env n); [done|]. destruct (f _) as [x|]; [|done].
  destruct (committed env _ x) as [y ok] eqn:E. destruct ok; [|done]. intros [= ->].
  destruct (committed_cases _ _ _ _ _ E) as [_ H]. by rewrite (H eq_refl).
Qed.

Lemma writing_inv env (P : PayDB -> Prop) n d f : (forall n d, P d -> P (se_others env n d)) -> P d ->
  (forall d d', P d -> f d = Ok d' -> P d') -> P (writing env n d f).1.
Proof.
  intros Ho Hd Hf. unfold writing. destruct (se_fails env n); [by apply Ho|]. destruct (f _) as [x|] eqn:E; [|by apply Ho].
  pose proof (committed_inv env P _ x (Ho n _ Hd) (Hf _ _ (Ho n _ Hd) E)) as H. by destruct (committed env _ x).
Qed.

Lemma cancellable_Ok u s t : cancellable u s = Ok t -> sb_UserID s = u /\ sb_Status s <> SubCancelled /\ sb_AutoRenew s = false.
Proof.
  unfold cancellable. destruct (String.eqb_spec (sb_UserID s) u); [|done]. case_bool_decide; [done|]. simpl.
  destruct (sb_AutoRenew s); [done|]. by intros _.
Qed.

Lemma create_row_Ok s d d' : create_row s d = Ok d' ->
  exists p s', pd_plans d !! sb_PlanID s = Some p /\ pd_subs d !! sb_ID s = None
    /\ s' = sub_of_product (sb_ProductCode s') s /\ sb_ProductCode s' = pl_ProductCode p /\ sub_unique s' d = true /\ d' = put_sub s' d.
Proof.
  unfold create_row. destruct (pd_plans d !! sb_PlanID s) as [p|]; [|done]. set (s' := if String.eqb _ _ then _ else _).
  assert (s' = sub_of_product (sb_ProductCode s') s) as Hs' by (unfold s'; destruct s; simpl; by destruct (String.eqb _ _)).
  assert (sb_ID s' = sb_ID s) as -> by (by rewrite Hs').
  destruct (bool_decide (sb_ProductCode s' = _)) eqn:Hp; [|done]. simpl.
  destruct (pd_subs d !! sb_ID s) eqn:Hs; [done|]. destruct (sub_unique s' d) eqn:Hu; [|done]. intros [= <-].
  apply bool_decide_eq_true in Hp. eauto 8.
Qed.

Lemma self_service_plan_Ok p t : self_service_plan p = Ok t ->
  (pl_ProductCode p = "" \/ pl_ProductCode p = ProductKayaMembership) /\ pl_IsActive p = true
  /\ pl_AcceptingNewSubscriptions p = true /\ pl_Price p <= 0.
Proof.
  unfold self_service_plan. destruct (String.eqb_spec (pl_ProductCode p) ""), (String.eqb_spec (pl_ProductCode p) ProductKayaMembership); simpl; [| | |done].
  all: destruct (pl_IsActive p); [|done]; destruct (pl_AcceptingNewSubscriptions p); [|done]; simpl.
  all: destruct (Z.ltb_spec 0 (pl_Price p)); [done|]; intros _; split_and!; auto.
Qed.

(** ** One live row per user and product *)

Lemma unique_live s d k x : sub_unique s d = true -> sb_Status s = SubActive -> pd_subs d !! k = Some x -> sb_ID x <> sb_ID s ->
  active_in (sb_UserID s) (sb_ProductCode s) x = false.
Proof.
  unfold sub_unique. intros [Hu _]%andb_true_iff Hs Hx Hn. rewrite bool_decide_true in Hu by done. simpl in Hu.
  apply negb_true_iff in Hu. pose proof (exists_row_false _ _ _ _ Hu Hx) as H. unfold other in H.
  by rewrite bool_decide_false in H by done.
Qed.

(** A row written under its own key stays the only live one of its owner, if it
    is not live, or no other is. *)
Lemma put_sub_indexed s d : subs_indexed d ->
  (sb_Status s = SubActive -> forall k x, pd_subs d !! k = Some x -> k <> sb_ID s -> active_in (sb_UserID s) (sb_ProductCode s) x = false) ->
  subs_indexed (put_sub s d).
Proof.
  intros [Hk Hu] Hs. unfold subs_indexed, put_sub. simpl. split.
  - intros k x [[<- <-]|[_ Hx]]%lookup_insert_Some; [done|by apply Hk].
  - intros k x k' x' u p [[<- <-]|[Hn Hx]]%lookup_insert_Some [[<- <-]|[Hn' Hx']]%lookup_insert_Some Ha Ha'; [done| | |by eapply Hu].
    + apply active_in_spec in Ha as (<- & <- & Ha). by rewrite (Hs Ha k' x') in Ha'.
    + apply active_in_spec in Ha' as (<- & <- & Ha'). by rewrite (Hs Ha' k x) in Ha.
Qed.

(** A row rewritten with its owner, product and status, or ended. *)
Lemma rewrite_indexed s s' d : subs_indexed d -> pd_subs d !! sb_ID s = Some s -> sb_ID s' = sb_ID s ->
  sb_UserID s' = sb_UserID s -> sb_ProductCode s' = sb_ProductCode s -> (sb_Status s' = SubActive -> sb_Status s = SubActive) ->
  subs_indexed (put_sub s' d).
Proof.
  intros Hd Hs Hi Hu Hp Hst. apply put_sub_indexed; [done|]. intros Ha k x Hx Hn. apply not_true_iff_false. intros Hax.
  apply Hn. rewrite Hi. destruct Hd as [_ Hd]. apply (Hd _ _ _ _ (sb_UserID s') (sb_ProductCode s') Hx Hs Hax).
  apply active_in_spec. auto.
Qed.

Lemma unique_indexed s d : subs_indexed d -> sub_unique s d = true -> subs_indexed (put_sub s d).
Proof.
  intros Hd Hu. apply put_sub_indexed; [done|]. intros Ha k x Hx Hn. apply (unique_live s d k); try done.
  destruct Hd as [Hk _]. by rewrite (Hk _ _ Hx).
Qed.

Lemma indexed_frame d d' : pd_subs d' = pd_subs d -> subs_indexed d -> subs_indexed d'.
Proof. unfold subs_indexed. by intros ->. Qed.

Lemma only_audited_indexed d d' : only_audited d d' -> subs_indexed d -> subs_indexed d'.
Proof. intros H. by apply indexed_frame, only_audited_subs. Qed.

(** The requests of this file. *)
Inductive SelfRequest :=
| RqCancel (userID subID : string) | RqCancelActive (userID : string)
| RqChange (userID subID planID : string) | RqUpgrade (userID planID : string)
| RqCreate (newID userID planID : string) | RqRenew (subID : string) (expiresAt : option instant)
| RqLocalCancel (wired : bool) (subID userID : string).

Definition serve_self (env : SelfEnv) (rq : SelfRequest) (d : PayDB) : PayDB :=
  match rq with
  | RqCancel u id => (CancelSubscriptionByID env u id d).1.1
  | RqCancelActive u => (CancelChannelSubscription env u d).1.1
  | RqChange u id p => (ChangePlanByID env u id p d).1.1
  | RqUpgrade u p => (UpgradeChannelSubscription env u p d).1.1
  | RqCreate i u p => (Create env i u p d).1.1
  | RqRenew id t => (Renew env id t d).1.1
  | RqLocalCancel w id u => (Cancel env w id u d).1
  end.

(** Every row comes from one with its key, owner and product, none brought to life. *)
Definition comes_from (s x : Subscription) : Prop :=
  sb_ID x = sb_ID s /\ sb_UserID x = sb_UserID s /\ sb_ProductCode x = sb_ProductCode s /\ (sb_Status x = SubActive -> sb_Status s = SubActive).

Lemma derived_indexed m d : (forall k x, m !! k = Some x -> exists s, pd_subs d !! k = Some s /\ comes_from s x) ->
  subs_indexed d -> subs_indexed (set_pd_subs m d).
Proof.
  intros Hf [Hk Hu]. split; simpl.
  - intros k x Hx. destruct (Hf _ _ Hx) as (s & Hs & -> & _). by apply Hk.
  - intros k x k' x' u p Hx Hx'. destruct (Hf _ _ Hx) as (s & Hs & _ & Ha & Hb & H), (Hf _ _ Hx') as (s' & Hs' & _ & Ha' & Hb' & H').
    rewrite !active_in_spec. intros (? & ? & ?) (? & ? & ?). apply (Hu _ _ _ _ u p Hs Hs'); apply active_in_spec; split_and!; try congruence; auto.
Qed.

Lemma ended_indexed now id d : subs_indexed d -> subs_indexed (set_pd_subs (alter (sub_with_status SubCancelled now) id (pd_subs d)) d).
Proof.
  apply derived_indexed. intros k x. rewrite lookup_alter. case_decide as Hk.
  - intros (s & Hs & ->)%fmap_Some. exists s. by rewrite <- Hk.
  - intros Hx. by exists x.
Qed.

Lemma renewal_off_indexed now q d : subs_indexed d -> subs_indexed (set_pd_subs (update_where q (sub_auto_renew_off now) (pd_subs d)) d).
Proof.
  apply derived_indexed. intros k x. rewrite lookup_update_where. intros (s & Hs & ->)%fmap_Some. exists s. split; [done|]. by destruct (q s).
Qed.

Section Index.
Context (env : SelfEnv) (others_indexed : forall n d, subs_indexed d -> subs_indexed (se_others env n d)).

Lemma seen_indexed n d : subs_indexed d -> subs_indexed (seen env n d).
Proof. intros Hd. induction n as [|n IH]; simpl; by apply others_indexed. Qed.

Lemma cancel_locked_indexed u x s d : subs_indexed d -> pd_subs d !! sb_ID s = Some s -> subs_indexed (cancel_locked env u x s d).1.1.
Proof.
  intros Hd Hs. destruct (cancel_locked env u x s d) as [[d' c] r] eqn:E.
  destruct (cancel_locked_spec _ _ _ _ _ _ _ _ E) as (_ & [H|H] & _); apply (only_audited_indexed _ _ H); [done|].
  by apply (rewrite_indexed s).
Qed.

Lemma charge_indexed {A} u x pr tgt p s w1 w2 e (an : instant -> A) d : subs_indexed d -> pd_subs d !! sb_ID s = Some s ->
  subs_indexed (charge_and_switch env u x pr tgt p s w1 w2 e an d).1.1.
Proof.
  intros Hd Hs. destruct (charge_and_switch _ _ _ _ _ _ _ _ _ _ _ _) as [[d' c] r] eqn:E.
  destruct (charge_spec _ _ _ _ _ _ _ _ _ _ _ _ _ _ _ E) as (_ & [H|(t & H)] & _ & _); apply (only_audited_indexed _ _ H); [done|].
  by apply (rewrite_indexed s).
Qed.

Lemma locked_row id s d : subs_indexed d -> find_sub id d = Ok s -> pd_subs d !! sb_ID s = Some s.
Proof. intros [Hk _] Hs%find_sub_row. by rewrite (Hk _ _ Hs). Qed.

Lemma writing_indexed n d f d' r : (forall d d', subs_indexed d -> f d = Ok d' -> subs_indexed d') ->
  writing env n d f = (d', r) -> subs_indexed d -> subs_indexed d'.
Proof. intros Hf E Hd. pose proof (writing_inv env subs_indexed n d f others_indexed Hd Hf) as H. by rewrite E in H. Qed.

(** Past a read, a gate or a transaction. *)
Local Ltac served := match goal with
  | |- subs_indexed (reading _ _ _ _ _).1.1 =>
      let d := fresh "d" in let a := fresh "a" in let Hd := fresh "Hd" in let Ha := fresh "Ha" in
      apply (reading_inv env subs_indexed); [done|done|cbv beta; intros d a Hd Ha]
  | |- subs_indexed (match ?x with _ => _ end).1.1 => let E := fresh "E" in destruct x eqn:E; try done
  end.

Lemma create_row_indexed s d d' : subs_indexed d -> create_row s d = Ok d' -> subs_indexed d'.
Proof. intros Hd H. apply create_row_Ok in H as (p & s' & _ & _ & _ & _ & Hu & ->). by apply unique_indexed. Qed.

Lemma Create_indexed i u p d : subs_indexed d -> subs_indexed (Create env i u p d).1.1.
Proof.
  intros Hd. unfold Create. repeat served. simpl. eapply writing_indexed; [|done|done]. intros. by eapply create_row_indexed.
Qed.

Lemma revive_indexed id t d d' : subs_indexed d -> revive env id t d = Ok d' -> subs_indexed d'.
Proof.
  intros Hd. unfold revive. destruct (pd_subs d !! id) as [s|]; [|by intros [= <-]]. case_bool_decide; [|by intros [= <-]].
  destruct (sub_unique _ d) eqn:Hu; [|done]. intros [= <-]. by apply unique_indexed.
Qed.

Lemma Renew_indexed id t d : subs_indexed d -> subs_indexed (Renew env id t d).1.1.
Proof.
  intros Hd. unfold Renew. repeat served. all: assert (subs_indexed p) by (eapply writing_indexed; [|done|done]; intros; by eapply revive_indexed).
  - by repeat served.
  - done.
Qed.

Lemma enqueueSync_indexed w m k d : subs_indexed d -> subs_indexed (enqueueSync w m k d).
Proof. apply indexed_frame, enqueue_subs. Qed.

Lemma cancel_tx_indexed id u d d' : subs_indexed d -> cancel_tx env id u d = Ok d' -> subs_indexed d'.
Proof.
  intros Hd. unfold cancel_tx. destruct (find_sub id d) as [s|] eqn:E; [|done]. destruct (cancellable u s); [|done].
  intros [= <-]. apply (enqueueSync_indexed true). apply (rewrite_indexed s); try done. by apply (locked_row id).
Qed.

Lemma Cancel_indexed w id u d : subs_indexed d -> subs_indexed (Cancel env w id u d).1.
Proof.
  intros Hd. unfold Cancel. destruct w.
  - unfold cancelWithBenefitSync. destruct (writing env 0 d _) as [d' r] eqn:E. eapply writing_indexed; [|exact E|done].
    intros. by eapply cancel_tx_indexed.
  - unfold cancelLegacy. destruct (reading env 0 d _ _) as [[d' c] r] eqn:E. apply (f_equal (fun o => o.1.1)) in E. simpl in E.
    simpl. rewrite <- E. repeat served.
    all: assert (subs_indexed p) by (eapply writing_indexed; [|done|done]; intros ? ? ? [= <-]; by apply ended_indexed).
    + by repeat served.
    + done.
Qed.

Lemma CancelByID_indexed u id d : subs_indexed d -> subs_indexed (CancelSubscriptionByID env u id d).1.1.
Proof.
  intros Hd. unfold CancelSubscriptionByID. repeat served. apply cancel_locked_indexed; [done|]. by apply (locked_row id).
Qed.

Lemma ChangePlan_indexed u id p d : subs_indexed d -> subs_indexed (ChangePlanByID env u id p d).1.1.
Proof.
  intros Hd. unfold ChangePlanByID. repeat served. apply charge_indexed; [done|]. by apply (locked_row id).
Qed.

Lemma Upgrade_indexed u p d : subs_indexed d -> subs_indexed (UpgradeChannelSubscription env u p d).1.1.
Proof.
  intros Hd. unfold UpgradeChannelSubscription. repeat served. apply charge_indexed; [done|]. by eapply locked_row.
Qed.

Lemma CancelActive_indexed u d : subs_indexed d -> subs_indexed (CancelChannelSubscription env u d).1.1.
Proof.
  intros Hd. unfold CancelChannelSubscription. repeat served. simpl.
  eapply only_audited_indexed; [apply audit_apart_only|]. apply others_indexed.
  destruct (se_fails env 1); [by apply others_indexed|]. by apply renewal_off_indexed, others_indexed.
Qed.
End Index.
