(* ===== verification/SelfClaims.v ===== *)
(** * SelfClaims: users and their own subscriptions

    When Paddle is called and for which row, what a cancellation leaves, what a
    change of plan charges, which rows the local service may create and cancel,
    and that one live row per user and product survives all of it; and what the
    older upgrade endpoint, whose checks are made before the lock, can do. *)

From Stdlib Require Import ZArith Lia Bool Ascii String.
From stdpp Require Import base gmap strings list.
From S2P Require Import Prelude Domain Calendar BenefitRules Amounts PayTables Activation Payments PayFrames PaySubs SelfService SelfProps.

Local Open Scope string_scope.
Local Open Scope Z_scope.
Local Open Scope go_scope.

(** ** A membership desk *)

Definition desk_plans : gmap string PayPlan :=
  {[ "monthly" := mkPayPlan 3000 30 ProductKayaMembership true true "CNY";
     "quarterly" := mkPayPlan 8000 90 ProductKayaMembership true true "CNY";
     "yearly" := mkPayPlan 30000 365 ProductKayaMembership true true "CNY";
     "free" := mkPayPlan 0 7 ProductKayaMembership true true "CNY" ]}.

Definition desk_row (planID : string) (channel : option string) (autoRenew : bool) : Subscription :=
  mkPaySub "sub-1" "user" planID ProductKayaMembership SubActive (Some (100 * second)) (match channel with Some _ => Some "sub_x" | None => None end)
    channel autoRenew 0 0.
Definition desk_of (s : Subscription) : PayDB := mkPayDB ∅ ∅ ∅ {[ "sub-1" := s ]} desk_plans ∅ ∅ ∅ [] [].
Definition desk (planID : string) : PayDB := desk_of (desk_row planID (Some "paddle") true).
Definition desk_empty : PayDB := mkPayDB ∅ ∅ ∅ ∅ desk_plans ∅ ∅ ∅ [] [].

(** Paddle accepts everything. *)
Definition desk_env (others : nat -> PayDB -> PayDB) : SelfEnv :=
  mkSelfEnv others (fun _ => false) NoFault (50 * second)
    (mkSettings true true true true true {[ "quarterly" := "pri_q"; "yearly" := "pri_y" ]} None (1800 * second))
    (fun _ => Done tt) (fun _ _ => Done (Some (200 * second))).
Definition desk_quiet : SelfEnv := desk_env (fun _ d => d).
(** Another request replaces the tables by [d] just before the n-th read. *)
Definition desk_meets (n : nat) (d : PayDB) : SelfEnv := desk_env (fun m d0 => if Nat.eqb m n then d else d0).

Definition desk_cancelled : PayDB := (CancelSubscriptionByID desk_quiet "user" "sub-1" (desk "monthly")).1.1.

Lemma desk_keyed s : sb_ID s = "sub-1" -> keyed_subs (desk_of s).
Proof. intros Hi k x. simpl. rewrite lookup_singleton_Some. by intros [<- <-]. Qed.
Lemma desk_indexed s : sb_ID s = "sub-1" -> subs_indexed (desk_of s).
Proof. intros Hi. split; [by apply desk_keyed|]. intros k x k' x' u p. simpl. rewrite !lookup_singleton_Some. by intros [<- <-] [<- <-]. Qed.

(** C24: CANCELLATIONS KEEP ACCESS. A cancellation calls Paddle at most once, and
    only for a subscription of the caller that Paddle bills and that, under the
    row lock, is active and set to renew. Whatever it answers and whatever
    fails, nobody's plan, status or expiry changes by it; an accepted
    cancellation answers a row that does not renew. *)
Theorem cancel_keeps_access env u id d d' c r :
  keyed_subs (seen env 1 d) -> CancelSubscriptionByID env u id d = (d', c, r) ->
  c <> [] ->
  exists s0 x s, own_paddle_row u id x s0 (seen env 0 d) /\ renewing id s (seen env 1 d) /\ c = [CallCancel x]
    /\ same_grants (seen env 1 d) d'
    /\ (forall a, r = Ok a -> sb_AutoRenew a = false /\ sub_grant a = sub_grant s
        /\ (se_fault env = NoFault -> exists s', pd_subs d' !! id = Some s' /\ sb_AutoRenew s' = false)).
Proof.
  intros Hk H Hc. destruct (cancel_cases _ _ _ _ _ _ _ H) as [[-> _]|(s0 & x & s & Ho & Hs & Hl)]; [done|].
  exists s0, x, s. destruct (cancel_locked_spec _ _ _ _ _ _ _ _ Hl) as (-> & Hd & Hr).
  pose proof Hs as (Hsr & _). pose proof (Hk _ _ Hsr) as <-. split_and!; [done|done|done| |].
  - destruct Hd as [Hd|Hd]; apply only_audited_grants in Hd; [done|]. by etransitivity; [apply renew_off_grants|].
  - intros a Ha. destruct (Hr a Ha) as [-> Hd']. split_and!; [done|done|]. intros Hf. rewrite (only_audited_subs _ _ (Hd' Hf)). simpl.
    rewrite lookup_insert_eq. eauto.
Qed.

Lemma cancel_keeps_access_witness : exists d' r, CancelSubscriptionByID desk_quiet "user" "sub-1" (desk "monthly") = (d', [CallCancel "sub_x"], Ok r)
  /\ same_grants (desk "monthly") d' /\ sb_AutoRenew r = false.
Proof.
  eexists _, _. split; [vm_compute; reflexivity|].
  destruct (cancel_keeps_access desk_quiet "user" "sub-1" (desk "monthly") _ _ _ (desk_keyed (desk_row "monthly" (Some "paddle") true) eq_refl) eq_refl)
    as (s0 & x & s & _ & _ & _ & Hg & Ha); [vm_compute; discriminate|]. split; [exact Hg|]. exact (proj1 (Ha _ eq_refl)).
Defined.

(** When one cancellation reached Paddle
    and committed, another of the same subscription that takes the row lock
    after it calls Paddle no more, whatever it read before the lock. *)
Theorem concurrent_cancels_call_once env env2 u u2 id d d2 d1 d3 c c2 a r2 :
  keyed_subs (seen env 1 d) ->
  CancelSubscriptionByID env u id d = (d1, c, Ok a) -> c <> [] -> se_fault env = NoFault ->
  pd_subs (seen env2 1 d2) !! id = pd_subs d1 !! id ->
  CancelSubscriptionByID env2 u2 id d2 = (d3, c2, r2) -> c2 = [].
Proof.
  intros Hk H Hc Hf Hrow H2. destruct (cancel_cases _ _ _ _ _ _ _ H) as [[-> _]|(s0 & x & s & Ho & Hs & Hl)]; [done|].
  destruct (cancel_cases _ _ _ _ _ _ _ H2) as [[-> _]|(s02 & x2 & s2 & _ & (Hs2 & _ & Hr2) & _)]; [done|].
  destruct (cancel_locked_spec _ _ _ _ _ _ _ _ Hl) as (_ & _ & Hr). destruct (Hr a eq_refl) as [_ Hd].
  apply only_audited_subs in Hd; [|done]. pose proof (Hk _ _ (proj1 Hs)) as <-.
  rewrite Hrow, Hd in Hs2. simpl in Hs2. rewrite lookup_insert_eq in Hs2. injection Hs2 as <-. done.
Qed.

Lemma concurrent_cancels_call_once_witness : exists d3 c2 r2,
  CancelSubscriptionByID desk_quiet "user" "sub-1" (desk "monthly")
    = (desk_cancelled, [CallCancel "sub_x"], Ok (no_renewal (desk_row "monthly" (Some "paddle") true)))
  /\ CancelSubscriptionByID (desk_meets 1 desk_cancelled) "user" "sub-1" (desk "monthly") = (d3, c2, r2) /\ c2 = [].
Proof.
  eexists _, _, _. split; [vm_compute; reflexivity|]. split; [vm_compute; reflexivity|].
  apply (concurrent_cancels_call_once desk_quiet (desk_meets 1 desk_cancelled) "user" "user" "sub-1" (desk "monthly") (desk "monthly") desk_cancelled
    (CancelSubscriptionByID (desk_meets 1 desk_cancelled) "user" "sub-1" (desk "monthly")).1.1 [CallCancel "sub_x"] _
    (no_renewal (desk_row "monthly" (Some "paddle") true))
    (CancelSubscriptionByID (desk_meets 1 desk_cancelled) "user" "sub-1" (desk "monthly")).2).
  - apply (desk_keyed (desk_row "monthly" (Some "paddle") true)). reflexivity.
  - vm_compute. reflexivity.
  - discriminate.
  - reflexivity.
  - vm_compute. reflexivity.
  - vm_compute. reflexivity.
Defined.

(** C23: CHANGES OF PLAN CHARGE UPGRADES. A change of plan calls Paddle at most
    once, with the configured price of the target, only for the caller's own
    subscription, and only if the row under the lock is active, set to renew and
    on a shorter cycle of the same product. Without a call nothing is changed;
    after one, a success means that the row was switched to the target and the
    new end and that nothing else changed but the audit log, and a failure after
    an accepted charge is audited. *)
Theorem change_charges_upgrades env u id tgt d d' c r :
  ChangePlanByID env u id tgt d = (d', c, r) ->
  (c = [] /\ is_ok r = false /\ exists n, (n <= 3)%nat /\ d' = seen env n d)
  \/ exists s0 x to_ s from pr, own_paddle_row u id x s0 (seen env 0 d) /\ c = [CallPrice x pr]
      /\ cfg_paddlePrices (se_settings env) !! tgt = Some pr
      /\ pd_plans (seen env 1 d) !! tgt = Some to_ /\ pl_IsActive to_ = true /\ pl_AcceptingNewSubscriptions to_ = true
      /\ renewing id s (seen env 3 d) /\ pd_plans (seen env 3 d) !! sb_PlanID s = Some from /\ longer_cycle from to_
      /\ (forall a, r = Ok a -> exists nb, se_update env x pr = Done nb
            /\ only_audited (switched env tgt (new_anchor env to_ nb) s (seen env 3 d)) d'
            /\ sb_PlanID a = tgt /\ sb_ExpiresAt a = Some (new_anchor env to_ nb))
      /\ (forall nb, se_update env x pr = Done nb -> is_ok r = false -> se_fails env 5 = false ->
            mkAudit (user_actor u) "paddle_change_plan_local_sync_failed" (sub_target s) ∈ pd_audit d').
Proof.
  intros H. destruct (change_cases _ _ _ _ _ _ _ _ H) as [Hn|(s0 & x & to_ & s & from & pr & Ho & Ht & Ha & Hn & Hs & Hf & Hl & Hp & Hch)];
    [by left|right].
  exists s0, x, to_, s, from, pr. destruct (charge_spec _ _ _ _ _ _ _ _ _ _ _ _ _ _ _ Hch) as (-> & _ & Hr & Hau).
  split_and!; try done. intros a Ha'. destruct (Hr _ Ha') as (nb & Hnb & -> & ->). by exists nb.
Qed.

Lemma change_charges_upgrades_witness : exists d' r,
  ChangePlanByID desk_quiet "user" "sub-1" "yearly" (desk "monthly") = (d', [CallPrice "sub_x" "pri_y"], Ok r)
  /\ exists s, renewing "sub-1" s (desk "monthly") /\ sb_PlanID r = "yearly".
Proof.
  eexists _, _. split; [vm_compute; reflexivity|].
  destruct (change_charges_upgrades desk_quiet "user" "sub-1" "yearly" (desk "monthly") _ _ _ eq_refl)
    as [(H & _)|(s0 & x & to_ & s & from & pr & _ & _ & _ & _ & _ & _ & Hs & _ & _ & Ha & _)]; [vm_compute in H; discriminate|].
  exists s. split; [exact Hs|]. destruct (Ha _ eq_refl) as (nb & _ & _ & Hp & _). exact Hp.
Defined.

#[export] Hint Resolve audit_only audit_apart_only audit_apart_write only_audited_id : core.

(** C25: ONE LIVE ROW PER USER AND PRODUCT. Whatever a user asks of the
    subscription services, whatever Paddle answers and wherever a statement or a
    commit fails: if the other transactions keep the rows under their keys and
    at most one active row per user and product, so does the request. *)
Theorem self_service_keeps_index env rq d :
  (forall n d, subs_indexed d -> subs_indexed (se_others env n d)) -> subs_indexed d -> subs_indexed (serve_self env rq d).
Proof.
  intros Ho Hd. destruct rq; simpl; auto using CancelByID_indexed, CancelActive_indexed, ChangePlan_indexed, Upgrade_indexed,
    Create_indexed, Renew_indexed, Cancel_indexed.
Qed.

Lemma self_service_keeps_index_witness : subs_indexed (serve_self desk_quiet (RqChange "user" "sub-1" "yearly") (desk "monthly")).
Proof.
  apply (self_service_keeps_index desk_quiet (RqChange "user" "sub-1" "yearly") (desk "monthly")); [intros n d Hd; exact Hd|].
  apply (desk_indexed (desk_row "monthly" (Some "paddle") true)). reflexivity.
Defined.

(** A created subscription is of an
    active plan that takes new subscriptions, costs nothing and is a membership
    plan; it is the user's only live one of that product, ends one interval of
    the plan from now (never, without an interval), and is the only change. *)
Theorem create_free_only env newID u planID d d' c i :
  keyed_subs (seen env 2 d) -> Create env newID u planID d = (d', c, Ok i) ->
  i = newID /\ c = [] /\ exists p s, pd_plans (seen env 0 d) !! planID = Some p
    /\ (pl_ProductCode p = "" \/ pl_ProductCode p = ProductKayaMembership) /\ pl_IsActive p = true
    /\ pl_AcceptingNewSubscriptions p = true /\ pl_Price p <= 0
    /\ FindActiveByUserAndProduct u (pl_ProductCode p) (seen env 1 d) = None
    /\ pd_subs (seen env 2 d) !! newID = None /\ d' = put_sub s (seen env 2 d)
    /\ sb_ID s = newID /\ sb_UserID s = u /\ sb_PlanID s = planID /\ sb_Status s = SubActive /\ sb_AutoRenew s = false
    /\ sb_ExpiresAt s = derived_expiry env p /\ plan_product_ok s d' = true
    /\ forall k x, pd_subs (seen env 2 d) !! k = Some x -> active_in u (sb_ProductCode s) x = false.
Proof.
  intros Hk. unfold Create. intros H. apply reading_Ok in H as (p & Hp & H).
  destruct (self_service_plan p) as [[]|] eqn:Hs; [|done]. apply reading_Ok in H as (ex & [= <-] & H).
  destruct (FindActiveByUserAndProduct _ _ _) eqn:He; simpl in H; [done|].
  destruct (writing env 2 _ _) as [d2 r] eqn:E. destruct r as [[]|]; [|done]. injection H as <- <- <-. split_and!; [done|done|].
  apply writing_Ok, create_row_Ok in E as (q & s & Hq & Hn & Hs' & Hpr & Hu & ->). apply self_service_plan_Ok in Hs as (? & ? & ? & ?).
  apply find_plan_row in Hp. exists p, s. pose proof Hu as Hu'.
  rewrite Hs' in Hu'. set (product := sb_ProductCode s) in *. clearbody product. subst s. simpl in *.
  split_and!; try done.
  - unfold plan_product_ok. simpl. rewrite Hq. by apply bool_decide_eq_true.
  - intros k x Hx. apply (unique_live _ _ _ _ Hu' eq_refl Hx). simpl. rewrite (Hk _ _ Hx). by intros ->; rewrite Hn in Hx.
Qed.

Lemma create_free_only_witness : exists d', Create desk_quiet "sub-9" "user" "free" desk_empty = (d', [], Ok "sub-9")
  /\ exists s, d' = put_sub s desk_empty /\ sb_PlanID s = "free".
Proof.
  eexists. split; [vm_compute; reflexivity|].
  destruct (create_free_only desk_quiet "sub-9" "user" "free" desk_empty _ _ _ ltac:(intros k s; discriminate) eq_refl)
    as (_ & _ & p & s & _ & _ & _ & _ & _ & _ & _ & Hd & _ & _ & Hp & _). exists s. split; [exact Hd|exact Hp].
Defined.



(** Where [UpgradeChannelSubscription] falls short of that: it looks again only
    at the status once it holds the row. When [ChangePlanByID] moves the row to
    the yearly plan after its checks, it still charges the quarterly one, a
    shorter cycle; and of two upgrades that both read before either locks, both
    reach Paddle. *)
Lemma stale_upgrade_charges :
  (let d1 := (ChangePlanByID desk_quiet "user" "sub-1" "yearly" (desk "monthly")).1.1 in
   let run := UpgradeChannelSubscription (desk_meets 3 d1) "user" "quarterly" (desk "monthly") in
   (sb_PlanID <$> pd_subs d1 !! "sub-1") = Some "yearly" /\ run.1.2 = [CallPrice "sub_x" "pri_q"] /\ is_ok run.2 = true
   /\ (sb_PlanID <$> pd_subs run.1.1 !! "sub-1") = Some "quarterly")
  /\ let first := UpgradeChannelSubscription desk_quiet "user" "yearly" (desk "monthly") in
     let second := UpgradeChannelSubscription (desk_meets 3 first.1.1) "user" "yearly" (desk "monthly") in
     first.1.2 = [CallPrice "sub_x" "pri_y"] /\ second.1.2 = [CallPrice "sub_x" "pri_y"] /\ is_ok second.2 = true.
Proof. vm_compute. repeat split. Qed.
